(* ===== verification/_CoqProject ===== *)
-Q . S2P
Prelude.v
Bytes.v
Layout.v
Bits.v
Spinlock.v
Physical.v
Mmu.v
Paging.v
PagingSpec.v
Kernel.v
Apic.v
Acpi.v
Descriptors.v
Smp.v
Percpu.v
Vmcs.v
Virt.v
Screen.v
Format.v
Render.v
CList.v
Malloc.v
Buddy.v
MallocSpec.v
MallocProps.v
BootInfo.v
Boot.v
VirtInit.v
Report.v
LinuxAbi.v
E820.v
Ept.v
ByteMem.v
Linux.v
LinuxSpec.v
Iommu.v
LinuxGuest.v
GuestTables.v
VirtCpu.v
VirtCpuSpec.v
MallocInit.v
Main.v
MainRun.v
MainSpec.v
MainGuests.v
