(* ===== verification/Prelude.v ===== *)
(** * A verification library for the RTV real-time hypervisor

    RTV is a type-1 hypervisor for x86-64: it is started by a multiboot loader,
    takes over physical memory, interrupts and the other processors, and gives
    the processors and the remaining memory to guests. This library models its
    C code and proves what the parts promise. File names are those under [src/].

    ** The program and the files of the library

    [kernel_main] ([arch/x86_64/boot/init.c]) reads the tags of the boot loader
    and fills the page allocator, sets up interrupts, page tables, per-CPU data,
    the ACPI tables, the interrupt controllers and the heap, reads the
    configuration, starts the other processors ([ap_main]), meets them at a
    barrier to configure the memory types, and builds the guests.

    - Shared: this file (integers, results, loops, arrays), Bytes.v (little-endian
      values in memory), Layout.v (the constants of the address space).
    - Bits.v: [utils/bits.c], [include/utils/bits.h], [include/utils/math.h].
    - Spinlock.v: the ticket lock of [include/utils/spinlock.h], as operations, and as
      an interleaving of any number of CPUs.
    - Physical.v: the page allocator [kernel/mm/physical.c].
    - Mmu.v, Paging.v, PagingSpec.v: [arch/x86_64/mm/vm.c], over two interfaces, the
      memory management unit ([Mmu]) and the source of frames ([FrameAllocator],
      which Physical.v implements).
    - Kernel.v, Apic.v, Acpi.v: the state of the interrupt code,
      [arch/x86_64/interrupt/apic.c] and [kernel/acpi.c].
    - Descriptors.v, Percpu.v: [arch/x86_64/cpu/mmu.c], [cpu/percpu.c] and
      [arch/x86_64/interrupt/interrupt.c].
    - Smp.v: [arch/x86_64/smp/smp.c] and the barrier of [kernel_main] and [ap_main].
    - Screen.v: [utils/screen.c] and [utils/string.c]; Render.v evaluates the text of its
      formatter on the formats the program uses.
    - CList.v, Malloc.v, Buddy.v, MallocSpec.v, MallocProps.v: [include/utils/list.h]
      and [kernel/mm/malloc.c], with the abstract buddy system they implement;
      MallocInit.v: [malloc_init] as a whole.
    - BootInfo.v, Boot.v: [kernel/boot_info.c] and the loops of [kernel_main] over the
      tags of [include/multiboot2.h].
    - Vmcs.v, Virt.v, VirtInit.v: the guests and their control structures,
      [arch/x86_64/virt/virt.c].
    - E820.v, Ept.v, Linux.v: [arch/x86_64/virt/mem.c], the memory map, the extended page tables and
      the loading of the image, over the structures of [include/virt/linux.h] (LinuxAbi.v)
      and the bytes of physical memory (ByteMem.v). The proofs about the loader are in
      LinuxSpec.v and LinuxGuest.v, those about [virt_pg_table_setup] as a whole in GuestTables.v.
    - VirtCpu.v, VirtCpuSpec.v: [virt_percpu_init], which starts a guest on a CPU and
      calls all of the above.
    - Report.v: what is shown at an exception ([exp_handler]), at the exit of a guest
      ([virt_main]) and by [panic_raw] ([kernel/debug.c]).
    - Iommu.v: [arch/x86_64/virt/iommu.c].
    - Main.v: [kernel_main] and [ap_main] as a whole, the calls of the other files in
      their order over one state ([machine]). MainSpec.v and MainGuests.v put the theorems of
      the parts together; MainRun.v evaluates [kernel_main] on one machine, from the bytes of
      the boot loader to the launch of its guest.

    ** How the code is modelled

    A function of C is a function of the state it uses to an [outcome]: a value
    and the new state, the message of a [panic], [Fault] for undefined behaviour
    that the model sees (an access outside an array or at an address that is not
    mapped, a division by zero), or [Hang]. Integers are values of [Z] in the range of their
    type, and every operation that can leave the range is wrapped ([u8] .. [u64],
    the operators of [c_scope]). Memory that the code overlays is
    modelled as memory: page tables are words of physical memory reached through
    the recursive entry, the heap keeps its lists, tags and contents in one store,
    the boot and ACPI structures are bytes.

    A loop is [while] of its body, and a run is cut after [2^64] rounds with [Hang].
    No bound is chosen per loop, so none can be too small: a loop that counts in a
    64-bit variable has either left or repeated a state by then, and the
    theorems of total correctness ([wp], [wpx]) exclude [Hang] by a measure.

    Concurrency appears where the code needs it: the ticket lock and the barrier
    are step relations over the accesses the CPUs make, for every
    interleaving. Elsewhere an operation runs between taking and releasing its
    lock; that the lock is free again afterwards is part of each specification.

    What is not under [src/] is a class or an argument: the memory management unit
    (laws of the architecture manual, with an instance [x86_walk]), device registers,
    the model-specific registers, what the instructions of the extension answer ([Vmx], with the
    manual's promises as [manual]), the bytes of the firmware and the boot loader,
    and the symbols of the linker script.

    Three interfaces carry the guest proofs: [FrameAllocator] (frames that are
    free, and a bound of their number), [keeps] and [moved], which
    say what a computation leaves alone when it writes the memory of some frames only,
    and [held], memory that nobody else gets.

    ** The theorems

    - Locks: mutual exclusion, refinement of a first-in-first-out queue, and progress for
      every number of CPUs below 2^16.
    - Memory: the boot memory map gives exactly the pages it should; each allocator
      takes frames that were free, the ones it promises, and nothing else, or
      reports failure; the bitmap routines equal their bit-by-bit definitions; freeing undoes allocating.
    - Page tables: mapping never changes the translation of an address that was mapped,
      what is mapped translates to the frame, unmapping undoes it, and the kernel
      window stays well formed over any sequence of calls.
    - Heap: [malloc] and [free] refine the buddy system; live blocks never overlap
      and keep their contents over any sequence of calls.
    - Interrupts and processors: the MADT parser does what its bytes mean, the routing
      table is updated one entry at a time and is masked meanwhile, each CPU gets its own data,
      and the barrier is safe, but not live.
    - Console: [vprintf] prints the text the format denotes, and [printf] stays on the screen.
    - The start: [kernel_main] from the tags to the number of the first CPU leaves paging
      tables, per-CPU data and free pages apart; from [malloc_init] to the modules
      it leaves a well-formed heap and the places of the images; past the barrier the identity mapping
      is gone and the rest stays; the first CPU launches the first guest with a structure in order; [ap_main] takes a processor with its number and its task segment to its loop.
    - Reports: which registers [exp_handler] shows, and when it shows the wrong ones or nothing.
    - Guests: CPUs go to one guest each, and every name gets its module; the loader leaves kernel, ramdisk and header byte
      for byte in memory of their own; the memory map is taken from the page
      allocator; the walk of the extended page tables is the map [ept_view], wrong
      places of the image included; the control structure passes the checks of VM entry, and a CPU
      executes the instructions of the extension only where they succeed.

    Each file ends with its properties, each followed by, or together with, an
    example that applies it to concrete data.

    ** Not modelled

    - [boot.S], [boot64.S], [ap_boot.S], [isr.S] and [link.ld]: assembly, and not in the C code's terms. The page tables of
      [boot.S] are the ones the examples of PagingSpec.v and MainRun.v run on; the frame that the
      stubs of [isr.S] build is part of [exp_handler].
    - The instructions behind the inline functions of [cpu.h], [io.h], [msr.h], [percpu.h] and [atomic.h]: their
      effect is an event, a value of a class, or a field of the state.
    - The structures and constants of [multiboot2.h] and of the other headers that no code uses.
    - The calls between the per-CPU data and the heap ([start_devices]: the ACPI tables, the interrupt
      controllers, the screen) have no theorem of their own: each part has its
      own, and MainRun.v runs them together.
    - The TLB beyond the list of [invlpg], access rights, and caches. *)

From stdpp Require Export prelude gmap strings list.
From Stdlib Require Export ZArith Lia.

Local Open Scope Z_scope.

(** ** Machine integers

    A [w]-bit unsigned integer is a [Z] in [0, 2^w); [u8] .. [u64] are the
    conversions (truncations) the C code makes, implicitly or by a cast. *)

Definition u8 (x : Z) : Z := x mod 2 ^ 8.
Definition u16 (x : Z) : Z := x mod 2 ^ 16.
Definition u32 (x : Z) : Z := x mod 2 ^ 32.
Definition u64 (x : Z) : Z := x mod 2 ^ 64.

Arguments u8 : simpl never.
Arguments u16 : simpl never.
Arguments u32 : simpl never.
Arguments u64 : simpl never.

(** [UINT64_MAX], also the value of [~((uint64_t) 0)]. *)
Definition UINT64_MAX : Z := 2 ^ 64 - 1.

Definition is_u8 (x : Z) : Prop := 0 <= x < 2 ^ 8.
Definition is_u16 (x : Z) : Prop := 0 <= x < 2 ^ 16.
Definition is_u32 (x : Z) : Prop := 0 <= x < 2 ^ 32.
Definition is_u64 (x : Z) : Prop := 0 <= x < 2 ^ 64.

Declare Scope c_scope.
Delimit Scope c_scope with C.

(** 64-bit wrapping operators; the others ([Z.land], [Z.lor], [Z.shiftr] and
    unsigned comparison and division) cannot leave the range and are written
    with the functions of [Z] directly. *)
Notation "a +w b" := (u64 (a + b)) (at level 50, left associativity) : c_scope.
Notation "a -w b" := (u64 (a - b)) (at level 50, left associativity) : c_scope.
Notation "a *w b" := (u64 (a * b)) (at level 40, left associativity) : c_scope.
Notation "a <<w n" := (u64 (Z.shiftl a n)) (at level 52, left associativity) : c_scope.
Notation "a >>w n" := (Z.shiftr a n) (at level 52, left associativity) : c_scope.
Notation "a .& b" := (Z.land a b) (at level 53, left associativity) : c_scope.
Notation "a .| b" := (Z.lor a b) (at level 54, left associativity) : c_scope.
Notation "~w a" := (u64 (Z.lnot a)) (at level 35, right associativity) : c_scope.

(** ** Results of C code

    [Ok] is a normal return; [Panic] is a call of [panic] (kernel/debug.c:
    interrupts off, print, [hlt]; control does not come back); [Fault] is
    undefined behaviour the model detects (an access outside an array, a
    division by zero, a reference through an unmapped address); [Hang] is a
    loop that has not left after 2^64 iterations, or a lock that nobody is
    left to release. *)
Inductive outcome (A : Type) : Type :=
  | Ok (a : A)
  | Panic (msg : string)
  | Fault
  | Hang.
Arguments Ok {A} a.
Arguments Panic {A} msg.
Arguments Fault {A}.
Arguments Hang {A}.

#[export] Instance outcome_ret : MRet outcome := @Ok.
#[export] Instance outcome_bind : MBind outcome := fun A B k o =>
  match o with
  | Ok a => k a
  | Panic m => Panic m
  | Fault => Fault
  | Hang => Hang
  end.
#[export] Instance outcome_eq_dec {A} `{EqDecision A} : EqDecision (outcome A).
Proof. solve_decision. Defined.

(** [(uint64_t) a << n]: a shift by the width or more is undefined. *)
Definition shl64 (a n : Z) : outcome Z :=
  if (0 <=? n) && (n <? 64) then Ok (u64 (Z.shiftl a n)) else Fault.

(** [a / b] and [a % b] on [uint64_t]. *)
Definition div64 (a b : Z) : outcome Z := if b =? 0 then Fault else Ok (a / b).
Definition mod64 (a b : Z) : outcome Z := if b =? 0 then Fault else Ok (a mod b).

(** [wpx o Q P F]: the run [o] returns a value in [Q], or panics with a
    message in [P], or faults and then [F] holds; it never hangs. [wp] is total
    correctness: it also excludes panics and faults. *)
Definition wpx {A} (o : outcome A) (Q : A → Prop) (P : string → Prop) (F : Prop) : Prop :=
  match o with
  | Ok a => Q a
  | Panic m => P m
  | Fault => F
  | Hang => False
  end.
Definition no_panic (m : string) : Prop := False.
Definition wp {A} (o : outcome A) (Q : A → Prop) : Prop := wpx o Q no_panic False.
(** Returns in [Q] unless it faults. *)
Definition wpf {A} (o : outcome A) (Q : A → Prop) : Prop := wpx o Q no_panic True.

Lemma wpx_bind {A B} (o : outcome A) (k : A → outcome B) Q P F :
  wpx o (fun a => wpx (k a) Q P F) P F → wpx (o ≫= k) Q P F.
Proof. by destruct o. Qed.

Lemma wpx_mono {A} (o : outcome A) (Q Q' : A → Prop) (P P' : string → Prop) (F F' : Prop) :
  wpx o Q P F → (∀ a, Q a → Q' a) → (∀ m, P m → P' m) → (F → F') → wpx o Q' P' F'.
Proof. destruct o; simpl; auto. Qed.

Lemma wpx_post {A} (o : outcome A) (Q Q' : A → Prop) P F :
  wpx o Q P F → (∀ a, Q a → Q' a) → wpx o Q' P F.
Proof. intros H1 H2. by apply (wpx_mono o Q Q' P P F F H1 H2). Qed.

Lemma wp_wpx {A} (o : outcome A) Q P F : wp o Q → wpx o Q P F.
Proof. intros H. by apply (wpx_mono _ _ _ _ _ _ _ H). Qed.

Lemma wp_bind {A B} (o : outcome A) (k : A → outcome B) Q :
  wp o (fun a => wp (k a) Q) → wp (o ≫= k) Q.
Proof. apply wpx_bind. Qed.

Lemma wpf_bind {A B} (o : outcome A) (k : A → outcome B) Q :
  wpf o (fun a => wpf (k a) Q) → wpf (o ≫= k) Q.
Proof. apply wpx_bind. Qed.

Lemma wp_mono {A} (o : outcome A) (Q Q' : A → Prop) :
  wp o Q → (∀ a, Q a → Q' a) → wp o Q'.
Proof. apply wpx_post. Qed.

Lemma wpf_mono {A} (o : outcome A) (Q Q' : A → Prop) :
  wpf o Q → (∀ a, Q a → Q' a) → wpf o Q'.
Proof. apply wpx_post. Qed.

Lemma wpf_fault {A} (o : outcome A) : wpf o (fun _ => False) → o = Fault.
Proof. by destruct o. Qed.

(** [wlp o Q]: partial correctness, nothing is claimed unless [o] returns. It
    is used for what every return guarantees; that the code does return is
    always a separate statement. *)
Definition wlp {A} (o : outcome A) (Q : A → Prop) : Prop := ∀ a, o = Ok a → Q a.

Lemma wlp_bind {A B} (o : outcome A) (k : A → outcome B) Q :
  wlp o (fun a => wlp (k a) Q) → wlp (o ≫= k) Q.
Proof. intros Ho b. destruct o as [a| | |]; try discriminate. apply (Ho a eq_refl). Qed.

Lemma wlp_mono {A} (o : outcome A) (Q Q' : A → Prop) :
  wlp o Q → (∀ a, Q a → Q' a) → wlp o Q'.
Proof. intros Ho HQ a E. apply HQ, Ho, E. Qed.

Lemma wlp_ret {A} (a : A) (Q : A → Prop) : Q a → wlp (Ok a) Q.
Proof. intros HQ a' E. injection E as <-. exact HQ. Qed.

Lemma wlp_panic {A} msg (Q : A → Prop) : wlp (Panic msg) Q.
Proof. intros a E. discriminate. Qed.

Lemma wp_wlp {A} (o : outcome A) Q : wp o Q → wlp o Q.
Proof. intros Ho a ->. exact Ho. Qed.

Lemma wp_ok {A} (o : outcome A) Q : wp o Q ↔ ∃ a, o = Ok a ∧ Q a.
Proof.
  split.
  - destruct o; try done. intros H; eauto.
  - by intros (a & -> & H).
Qed.

(** What a computation on a concrete input shows. *)
Lemma ok_value {A} (o : outcome A) (f : A → bool) :
  match o with Ok a => f a | _ => false end = true → ∃ a, o = Ok a ∧ f a = true.
Proof. destruct o as [a| | |]; try discriminate. by exists a. Qed.

#[export] Instance wp_proper {A} (o : outcome A) :
  Proper (pointwise_relation A iff ==> iff) (wp o).
Proof. intros Q1 Q2 HQ. split; intros H; apply (wp_mono o _ _ H); intros a; apply HQ. Qed.

(** ** Loops

    [loop n step s] runs [step] at most [2^n] times: [inl s] asks for another
    round from the state [s], [inr r] leaves the loop. *)
Fixpoint loop {S R} (n : nat) (step : S → outcome (S + R)) (s : S) : outcome (S + R) :=
  match n with
  | O => step s
  | Datatypes.S n' =>
      x ← loop n' step s;
      match x with
      | inl s' => loop n' step s'
      | inr r => Ok (inr r)
      end
  end.

Definition while {S R} (step : S → outcome (S + R)) (s : S) : outcome R :=
  x ← loop 64 step s;
  match x with
  | inl _ => Hang
  | inr r => Ok r
  end.

Section loop_rules.
Context {S R : Type} (step : S → outcome (S + R)).
Context (I : S → Prop) (m : S → Z) (Q : R → Prop) (P : string → Prop) (F : Prop).

(** One round keeps the invariant and decreases the measure, or leaves. *)
Definition loop_round : Prop := ∀ s, I s →
  wpx (step s) (fun x => match x with
                         | inl s' => I s' ∧ 0 <= m s' < m s
                         | inr r => Q r
                         end) P F.

Lemma loop_inv n s :
  loop_round → I s → 0 <= m s →
  wpx (loop n step s) (fun x => match x with
                                | inl s' => I s' ∧ 0 <= m s' ∧ m s' + 2 ^ Z.of_nat n <= m s
                                | inr r => Q r
                                end) P F.
Proof.
  intros Hround. revert s. induction n as [|n IH]; intros s HI Hm; simpl.
  - apply (wpx_post _ _ _ P F (Hround s HI)).
    intros [s'|r]; [|done]. intros [? ?]. split; [done|]. change (2 ^ Z.of_nat 0) with 1. lia.
  - apply wpx_bind. apply (wpx_post _ _ _ P F (IH s HI Hm)).
    intros [s'|r]; [|done]. intros (HI' & Hm' & Hlt).
    apply (wpx_post _ _ _ P F (IH s' HI' Hm')).
    intros [s''|r']; [|done]. intros (? & ? & ?). split; [done|].
    rewrite Nat2Z.inj_succ, Z.pow_succ_r by lia. lia.
Qed.

(** The rule of [while]: with an invariant and a measure below [2^64], the
    loop leaves with [Q]. *)
Lemma wpx_while s :
  loop_round → I s → 0 <= m s < 2 ^ 64 → wpx (while step s) Q P F.
Proof.
  intros Hround HI [Hm0 Hm]. unfold while. apply wpx_bind.
  apply (wpx_post _ _ _ P F (loop_inv 64 s Hround HI Hm0)).
  intros [s'|r]; [|done]. intros (_ & ? & ?). change (Z.of_nat 64) with 64 in *. lia.
Qed.
End loop_rules.

Lemma wp_while {S R} (step : S → outcome (S + R)) (I : S → Prop) (m : S → Z) (Q : R → Prop) s :
  (∀ s, I s → wp (step s) (fun x => match x with
                                    | inl s' => I s' ∧ 0 <= m s' < m s
                                    | inr r => Q r
                                    end)) →
  I s → 0 <= m s < 2 ^ 64 → wp (while step s) Q.
Proof. intros H1 H2 H3. by apply (wpx_while step I m Q no_panic False). Qed.

Lemma wpf_while {S R} (step : S → outcome (S + R)) (I : S → Prop) (m : S → Z) (Q : R → Prop) s :
  (∀ s, I s → wpf (step s) (fun x => match x with
                                     | inl s' => I s' ∧ 0 <= m s' < m s
                                     | inr r => Q r
                                     end)) →
  I s → 0 <= m s < 2 ^ 64 → wpf (while step s) Q.
Proof. intros H1 H2 H3. by apply (wpx_while step I m Q no_panic True). Qed.

Lemma wlp_while {S R} (step : S → outcome (S + R)) (I : S → Prop) (Q : R → Prop) s :
  (∀ s, I s → wlp (step s) (fun x => match x with inl s' => I s' | inr r => Q r end)) →
  I s → wlp (while step s) Q.
Proof.
  intros Hround HI. unfold while. apply wlp_bind.
  cut (∀ n s, I s → wlp (loop n step s) (fun x => match x with inl s' => I s' | inr r => Q r end)).
  { intros Hn. apply (wlp_mono _ _ _ (Hn 64%nat s HI)). intros [s'|r] Hx; intros r' E;
      [discriminate|]. injection E as <-. exact Hx. }
  clear s HI. intros n. induction n as [|n IH]; intros s HI; simpl; [by apply Hround|].
  apply wlp_bind. apply (wlp_mono _ _ _ (IH s HI)). intros [s'|r] Hx; [by apply IH|].
  by apply wlp_ret.
Qed.

(** A loop whose first round leaves, one way or the other. *)
Lemma loop_now {S R} (step : S → outcome (S + R)) n s o :
  step s = o → (∀ s', o ≠ Ok (inl s')) → loop n step s = o.
Proof.
  intros Hs Ho. induction n as [|n IH]; simpl; [done|]. rewrite IH.
  destruct o as [[s'|r]| | |]; simpl; try done. by destruct (Ho s').
Qed.

Lemma while_now {S R} (step : S → outcome (S + R)) s r :
  step s = Ok (inr r) → while step s = Ok r.
Proof. intros Hs. unfold while. rewrite (loop_now step 64 s _ Hs); done. Qed.

Lemma while_fault {S R} (step : S → outcome (S + R)) s :
  step s = Fault → while step s = Fault.
Proof. intros Hs. unfold while. rewrite (loop_now step 64 s _ Hs); done. Qed.

(** A loop whose rounds never leave hangs, whatever the number of rounds. *)
Lemma loop_stuck {S R} (step : S → outcome (S + R)) (I : S → Prop) n s :
  (∀ s, I s → ∃ s', step s = Ok (inl s') ∧ I s') → I s →
  ∃ s', loop n step s = Ok (inl s') ∧ I s'.
Proof.
  intros Hround. revert s. induction n as [|n IH]; intros s HI; simpl; [auto|].
  destruct (IH s HI) as (s1 & -> & H1). simpl. auto.
Qed.

Lemma while_hangs {S R} (step : S → outcome (S + R)) (I : S → Prop) s :
  (∀ s, I s → ∃ s', step s = Ok (inl s') ∧ I s') → I s → while step s = Hang.
Proof.
  intros Hround HI. unfold while.
  destruct (loop_stuck step I 64 s Hround HI) as (s' & -> & _). done.
Qed.

(** The rounds one after the other: at most [n] of them. *)
Fixpoint rounds {S R} (n : nat) (step : S → outcome (S + R)) (s : S) : outcome (S + R) :=
  match n with
  | O => Ok (inl s)
  | Datatypes.S n =>
      x ← step s;
      match x with
      | inl s' => rounds n step s'
      | inr r => Ok (inr r)
      end
  end.

Lemma rounds_S {S R} (step : S → outcome (S + R)) n s :
  rounds (Datatypes.S n) step s =
    (x ← step s; match x with inl s' => rounds n step s' | inr r => Ok (inr r) end).
Proof. reflexivity. Qed.

Lemma rounds_add {S R} (step : S → outcome (S + R)) n m s :
  rounds (n + m) step s =
    (x ← rounds n step s; match x with inl s' => rounds m step s' | inr r => Ok (inr r) end).
Proof.
  revert s. induction n as [|n IH]; intros s; simpl; [done|].
  destruct (step s) as [[s'|r]| | |]; simpl; done.
Qed.

Lemma loop_rounds {S R} (step : S → outcome (S + R)) n s :
  loop n step s = rounds (Nat.pow 2 n) step s.
Proof.
  revert s. induction n as [|n IH]; intros s.
  - simpl. by destruct (step s) as [[s'|r]| | |].
  - replace (Nat.pow 2 (Datatypes.S n)) with (Nat.pow 2 n + Nat.pow 2 n)%nat
      by (rewrite Nat.pow_succ_r'; lia).
    rewrite rounds_add. cbn [loop]. rewrite IH.
    destruct (rounds (Nat.pow 2 n) step s) as [[s'|r]| | |]; [|done..]. cbn. apply IH.
Qed.

(** A loop that is known to leave, or to stop, within [n] rounds. *)
Lemma while_rounds {S R} (step : S → outcome (S + R)) n s (o : outcome R) :
  Z.of_nat n <= 2 ^ 64 →
  rounds n step s = (r ← o; Ok (inr r)) → while step s = o.
Proof.
  intros Hn Hr. unfold while. rewrite loop_rounds.
  assert (Hd : ∃ d, Nat.pow 2 64 = (n + d)%nat).
  { exists (Nat.pow 2 64 - n)%nat. enough (n <= Nat.pow 2 64)%nat by lia.
    apply Nat2Z.inj_le. rewrite Nat2Z.inj_pow. exact Hn. }
  destruct Hd as [d ->]. rewrite rounds_add, Hr. by destruct o.
Qed.

(** Conversion never needs to run a loop. *)
#[global] Strategy 1000 [loop while].
Arguments loop : simpl never.
Arguments while : simpl never.

(** ** Tactics and hints *)

(** Linear arithmetic with division and remainder by constants. *)
Ltac dlia := Z.to_euclidean_division_equations; lia.

(** Unfold the ranges of machine integers, then [lia]. *)
Ltac ulia := unfold is_u8, is_u16, is_u32, is_u64, UINT64_MAX in *; lia.

(** Case analysis on the boolean comparisons of [Z] in the goal. *)
Ltac zcase :=
  match goal with
  | |- context [Z.eqb ?a ?b] => destruct (Z.eqb_spec a b)
  | |- context [Z.ltb ?a ?b] => destruct (Z.ltb_spec a b)
  | |- context [Z.leb ?a ?b] => destruct (Z.leb_spec a b)
  end.

(** Run a [wp] goal through the binds in front of it. *)
Ltac wp_step := first [apply wlp_bind | apply wp_bind | apply wpf_bind | apply wpx_bind].

Lemma bind_ok {A B} (a : A) (k : A → outcome B) : (Ok a ≫= k) = k a.
Proof. reflexivity. Qed.

Lemma bind_assoc {A B C} (o : outcome A) (k : A → outcome B) (k' : B → outcome C) :
  ((o ≫= k) ≫= k') = (o ≫= fun a => k a ≫= k').
Proof. by destruct o. Qed.

(** Reduce the binds after values that are known. *)
Ltac run := cbn [mbind outcome_bind].

Create HintDb rtv.
Create Rewrite HintDb zbits.

(** ** Facts on machine integers *)

Lemma u8_range x : is_u8 (u8 x).
Proof. apply Z.mod_pos_bound. lia. Qed.
Lemma u16_range x : is_u16 (u16 x).
Proof. apply Z.mod_pos_bound. lia. Qed.
Lemma u32_range x : is_u32 (u32 x).
Proof. apply Z.mod_pos_bound. lia. Qed.
Lemma u64_range x : is_u64 (u64 x).
Proof. apply Z.mod_pos_bound. lia. Qed.

Lemma u16_id x : is_u16 x → u16 x = x.
Proof. apply Z.mod_small. Qed.
Lemma u32_id x : is_u32 x → u32 x = x.
Proof. apply Z.mod_small. Qed.
Lemma u64_id x : is_u64 x → u64 x = x.
Proof. apply Z.mod_small. Qed.
Lemma u8_id x : is_u8 x → u8 x = x.
Proof. apply Z.mod_small. Qed.

Lemma testbit_u64 x n : 0 <= n → Z.testbit (u64 x) n = (n <? 64) && Z.testbit x n.
Proof.
  intros Hn. unfold u64. destruct (Z.ltb_spec n 64); simpl.
  - apply Z.mod_pow2_bits_low. lia.
  - apply Z.mod_pow2_bits_high. lia.
Qed.

Lemma testbit_high w n : is_u64 w → 64 <= n → Z.testbit w n = false.
Proof. intros Hw Hn. rewrite <- (u64_id w Hw). unfold u64. apply Z.mod_pow2_bits_high. lia. Qed.

Lemma is_u64_bits w : 0 <= w → (∀ n, 64 <= n → Z.testbit w n = false) → is_u64 w.
Proof.
  intros Hw Hbits. rewrite <- (Z.mod_small w (2 ^ 64)); [apply u64_range|].
  split; [done|]. destruct (Z.eq_dec w 0) as [->|]; [done|].
  apply Z.log2_lt_pow2; [lia|].
  destruct (Z.lt_ge_cases (Z.log2 w) 64) as [|Hge]; [done|].
  pose proof (Z.bit_log2 w ltac:(lia)) as Hb. rewrite Hbits in Hb; done.
Qed.

Lemma is_u64_land a b : is_u64 a → 0 <= b → is_u64 (Z.land a b).
Proof.
  intros Ha Hb. apply is_u64_bits.
  - apply Z.land_nonneg. ulia.
  - intros n Hn. by rewrite Z.land_spec, testbit_high.
Qed.

Lemma is_u64_lor a b : is_u64 a → is_u64 b → is_u64 (Z.lor a b).
Proof.
  intros Ha Hb. apply is_u64_bits.
  - apply Z.lor_nonneg. ulia.
  - intros n Hn. by rewrite Z.lor_spec, !testbit_high.
Qed.

Lemma is_u64_shiftr a n : is_u64 a → 0 <= n → is_u64 (Z.shiftr a n).
Proof.
  intros Ha Hn. apply is_u64_bits; [apply Z.shiftr_nonneg; ulia|].
  intros k Hk. rewrite Z.shiftr_spec by lia. apply testbit_high; [done|lia].
Qed.

Lemma testbit_UINT64_MAX n : 0 <= n → Z.testbit UINT64_MAX n = (n <? 64).
Proof.
  intros Hn. change UINT64_MAX with (Z.ones 64).
  destruct (Z.ltb_spec n 64); [apply Z.ones_spec_low|apply Z.ones_spec_high]; lia.
Qed.

#[export] Hint Resolve u8_range u16_range u32_range u64_range is_u64_land is_u64_lor
  is_u64_shiftr : rtv.
#[export] Hint Rewrite Z.land_spec Z.lor_spec Z.lxor_spec : zbits.
#[export] Hint Rewrite testbit_u64 testbit_UINT64_MAX Z.shiftr_spec Z.shiftl_spec
  Z.lnot_spec using lia : zbits.

(** ** Arrays of 64-bit words

    A C array [uint64_t a[len]] in static storage: a sparse map from indices
    to the words written so far, zero elsewhere (static objects start as
    zero). An access outside the bounds is a [Fault]. *)
Record u64array := U64Array {
  arr_len : Z;
  arr_words : gmap Z Z
}.

Definition arr_word (a : u64array) (i : Z) : Z := default 0 (arr_words a !! i).
Definition arr_in (a : u64array) (i : Z) : bool := (0 <=? i) && (i <? arr_len a).
Definition arr_get (a : u64array) (i : Z) : outcome Z :=
  if arr_in a i then Ok (arr_word a i) else Fault.
Definition arr_set (a : u64array) (i v : Z) : outcome u64array :=
  if arr_in a i then Ok (U64Array (arr_len a) (<[i := v]> (arr_words a))) else Fault.

Definition arr_wf (a : u64array) : Prop := ∀ i, is_u64 (arr_word a i).

(** A decision procedure for [arr_wf], used on concrete arrays. *)
Definition arr_wfb (a : u64array) : bool :=
  forallb (fun p => (0 <=? p.2) && (p.2 <? 2 ^ 64)) (map_to_list (arr_words a)).

Lemma arr_wfb_sound a : arr_wfb a = true → arr_wf a.
Proof.
  unfold arr_wfb, arr_wf, arr_word. intros Hall i. rewrite forallb_forall in Hall.
  destruct (arr_words a !! i) as [v|] eqn:E; simpl; [|unfold is_u64; lia].
  specialize (Hall (i, v)). rewrite <- list_elem_of_In, elem_of_map_to_list in Hall.
  specialize (Hall E). simpl in Hall. unfold is_u64. lia.
Qed.

Lemma arr_in_spec a i : arr_in a i = true ↔ 0 <= i < arr_len a.
Proof. unfold arr_in. rewrite andb_true_iff, Z.leb_le, Z.ltb_lt. done. Qed.

Lemma wp_arr_get a i (Q : Z → Prop) :
  0 <= i < arr_len a → Q (arr_word a i) → wp (arr_get a i) Q.
Proof. intros Hi HQ. unfold arr_get. by rewrite (proj2 (arr_in_spec a i) Hi). Qed.

Lemma wpf_arr_get a i (Q : Z → Prop) :
  (0 <= i < arr_len a → Q (arr_word a i)) → wpf (arr_get a i) Q.
Proof.
  intros HQ. unfold arr_get. destruct (arr_in a i) eqn:E; [|done].
  apply HQ. by apply arr_in_spec.
Qed.

Lemma arr_get_ok a i : 0 <= i < arr_len a → arr_get a i = Ok (arr_word a i).
Proof. intros Hi. unfold arr_get. by rewrite (proj2 (arr_in_spec a i) Hi). Qed.

Lemma arr_get_fault a i : ¬ (0 <= i < arr_len a) → arr_get a i = Fault.
Proof.
  intros Hi. unfold arr_get. destruct (arr_in a i) eqn:E; [|done].
  by apply arr_in_spec in E.
Qed.

Arguments arr_get : simpl never.
Arguments arr_set : simpl never.

(** What a store changes: one word. *)
Definition arr_upd (a a' : u64array) (i v : Z) : Prop :=
  arr_len a' = arr_len a ∧
  ∀ j, arr_word a' j = if decide (i = j) then v else arr_word a j.

Lemma arr_set_ok a i v : 0 <= i < arr_len a →
  ∃ a', arr_set a i v = Ok a' ∧ arr_upd a a' i v.
Proof.
  intros Hi. unfold arr_set. rewrite (proj2 (arr_in_spec a i) Hi).
  eexists. split; [done|]. split; [done|]. intros j.
  unfold arr_word; simpl. rewrite lookup_insert. by case_decide.
Qed.

Lemma wp_arr_set a i v (Q : u64array → Prop) :
  0 <= i < arr_len a → (∀ a', arr_upd a a' i v → Q a') → wp (arr_set a i v) Q.
Proof. intros Hi HQ. destruct (arr_set_ok a i v Hi) as (a' & -> & Ha'). by apply HQ. Qed.

Lemma wpf_arr_set a i v (Q : u64array → Prop) :
  (0 <= i < arr_len a → ∀ a', arr_upd a a' i v → Q a') → wpf (arr_set a i v) Q.
Proof.
  intros HQ. destruct (arr_in a i) eqn:E.
  - apply arr_in_spec in E. destruct (arr_set_ok a i v E) as (a' & -> & Ha'). by apply HQ.
  - unfold arr_set. by rewrite E.
Qed.

Lemma arr_upd_wf a a' i v : arr_wf a → is_u64 v → arr_upd a a' i v → arr_wf a'.
Proof. intros Ha Hv [_ Hw] j. rewrite Hw. by case_decide. Qed.
#[export] Hint Resolve arr_upd_wf : rtv.
