(* ===== verification/Bytes.v ===== *)
(** * Bytes in memory

    Little-endian values in a memory that is read byte by byte, at addresses of
    64 bits: the structures that the firmware and the boot loader leave. *)

From S2P Require Import Prelude.

Local Open Scope Z_scope.
Local Open Scope c_scope.

(** The [n] bytes of [x], least first. *)
Fixpoint le (n : nat) (x : Z) : list Z :=
  match n with
  | O => []
  | Datatypes.S n => x mod 256 :: le n (x / 256)
  end.

Lemma le_length n x : length (le n x) = n.
Proof. revert x. induction n; intros x; simpl; auto. Qed.

Section bytes.
Context (get : Z → outcome Z).

(** A little-endian read of [n] bytes. *)
Fixpoint read_le (n : nat) (va : Z) : outcome Z :=
  match n with
  | O => Ok 0
  | Datatypes.S n => b ← get va; r ← read_le n (va +w 1); Ok (b + 256 * r)
  end.

(** The bytes [bs] can be read from the address [va] on. *)
Definition bytes_in (va : Z) (bs : list Z) : Prop :=
  0 <= va ∧ va + Z.of_nat (length bs) < 2 ^ 64 ∧
  ∀ i b, bs !! i = Some b → get (va + Z.of_nat i) = Ok b.

Lemma bytes_in_app va bs1 bs2 : bytes_in va (bs1 ++ bs2) →
  bytes_in va bs1 ∧ bytes_in (va + Z.of_nat (length bs1)) bs2.
Proof.
  intros (H1 & H2 & H3). rewrite length_app in H2. split; (split; [lia|]; split; [lia|]); intros i b Hi.
  - apply H3. by apply lookup_app_l_Some.
  - rewrite <- Z.add_assoc, <- Nat2Z.inj_add. apply H3.
    rewrite lookup_app_r by lia. replace (length bs1 + i - length bs1)%nat with i by lia. done.
Qed.

Lemma bytes_in_cons va b bs : bytes_in va (b :: bs) →
  get va = Ok b ∧ bytes_in (va + 1) bs.
Proof.
  intros H. split.
  - destruct H as (_ & _ & H3). rewrite <- (Z.add_0_r va). by apply (H3 0%nat).
  - apply (bytes_in_app va [b] bs H).
Qed.

(** A little-endian read at an offset of the bytes. *)
Lemma read_le_ok n va x : 0 <= x < 2 ^ (8 * Z.of_nat n) → bytes_in va (le n x) → read_le n va = Ok x.
Proof.
  revert va x. induction n as [|n IH]; intros va x Hx Hb; cbn [read_le le] in *.
  - f_equal. change (2 ^ (8 * Z.of_nat 0)) with 1 in Hx. lia.
  - pose proof Hb as (H1 & H2 & _). cbn [length] in H2.
    apply bytes_in_cons in Hb as [-> Hb]. rewrite bind_ok. rewrite u64_id by (unfold is_u64; lia).
    rewrite (IH (va + 1) (x / 256)).
    + rewrite bind_ok. f_equal. rewrite Z.add_comm. symmetry. apply Z_div_mod_eq_full.
    + split; [apply Z.div_pos; lia|]. apply Z.div_lt_upper_bound; [lia|].
      replace (256 * 2 ^ (8 * Z.of_nat n)) with (2 ^ (8 * Z.of_nat (Datatypes.S n))); [lia|].
      change 256 with (2 ^ 8). rewrite <- Z.pow_add_r by lia. f_equal. lia.
    + done.
Qed.

(** [read_le] at a displacement from [va]. *)
Lemma read_le_at n va pre x post o : bytes_in va (pre ++ le n x ++ post) →
  o = Z.of_nat (length pre) → 0 <= x < 2 ^ (8 * Z.of_nat n) → read_le n (va +w o) = Ok x.
Proof.
  intros Hb -> Hx. pose proof Hb as (H1 & H2 & _). rewrite length_app in H2.
  rewrite u64_id by (unfold is_u64; lia). apply bytes_in_app in Hb as [_ Hb].
  apply bytes_in_app in Hb as [Hb _]. by apply read_le_ok.
Qed.
Lemma get_at va bs o b : bytes_in va bs → 0 <= o → bs !! Z.to_nat o = Some b →
  get (va +w o) = Ok b.
Proof.
  intros (H1 & H2 & H3) Ho Hb. pose proof (lookup_lt_Some _ _ _ Hb).
  rewrite u64_id by (unfold is_u64; lia). replace (va + o) with (va + Z.of_nat (Z.to_nat o)) by lia.
  by apply H3.
Qed.

Definition bytes_inb (va : Z) (bs : list Z) : bool :=
  forallb (fun i => match get (va + Z.of_nat i), bs !! i with
                    | Ok b, Some b' => b =? b'
                    | _, _ => false
                    end) (seq 0 (length bs)).

Lemma bytes_inb_sound va bs : 0 <= va → va + Z.of_nat (length bs) < 2 ^ 64 → bytes_inb va bs = true → bytes_in va bs.
Proof.
  intros H1 H2 H3. split; [done|]. split; [done|]. intros i b Hi. unfold bytes_inb in H3.
  rewrite forallb_forall in H3.
  specialize (H3 i ltac:(apply in_seq; pose proof (lookup_lt_Some _ _ _ Hi); lia)).
  rewrite Hi in H3. destruct (get (va + Z.of_nat i)); try discriminate H3.
  apply Z.eqb_eq in H3. by rewrite H3.
Qed.
End bytes.
