(* ===== verification/Layout.v ===== *)
(** * Constants of the address space

    The macros of [arch/x86_64/include/vm.h], [include/mm/malloc.h] and
    [include/mm/physical.h] that several components share, and the build
    configuration of [default_config.mk]. *)

From S2P Require Import Prelude.

Local Open Scope Z_scope.

(** ** default_config.mk *)

Definition MAX_CPUS : Z := 16.
(** gigabytes *)
Definition MM_PHYSICAL_MAX : Z := 64.

(** ** arch/x86_64/include/vm.h *)

Definition PG_BITS : Z := 12.
Definition PG_SIZE : Z := Z.shiftl 1 PG_BITS.
Definition PG_MASK : Z := u64 (Z.lnot (PG_SIZE - 1)).

Definition PG_TABLE_ENTRIES : Z := PG_SIZE / 8.
Definition PG_TABLE_BITS : Z := PG_BITS - 3.
Definition PG_TABLE_MASK : Z := Z.shiftl 1 PG_TABLE_BITS - 1.

Definition LARGE_PG_BITS : Z := 21.
Definition LARGE_PG_SIZE : Z := Z.shiftl 1 LARGE_PG_BITS.
Definition LARGE_PG_MASK : Z := u64 (Z.lnot (LARGE_PG_SIZE - 1)).

(** Flags of a page table entry. *)
Definition PGT_P : Z := 0x1.
Definition PGT_RW : Z := 0x2.
Definition PGT_US : Z := 0x4.
Definition PGT_PWT : Z := 0x8.
Definition PGT_PCD : Z := 0x10.
Definition PGT_A : Z := 0x20.
Definition PGT_D : Z := 0x40.
Definition PGT_PAT : Z := 0x80.
Definition PGT_G : Z := 0x100.
Definition PGT_XD : Z := 0x8000000000000000.

Definition PDT_PS : Z := 0x80.
Definition PDT_PAT : Z := 0x1000.

Definition PGT_MASK : Z := 0xFFFFFFFFFFFFF000.

(** ** include/mm/malloc.h *)

Definition MALLOC_BASE : Z := 0x600000.
Definition BUDDY_MIN_ORDER : Z := 5.
Definition BUDDY_MAX_ORDER : Z := 22.
Definition MALLOC_END : Z := MALLOC_BASE + Z.shiftl 1 BUDDY_MAX_ORDER.
Definition BUDDY_MIN_BLK : Z := Z.shiftl 1 BUDDY_MIN_ORDER.
Definition BUDDY_MAX_BLK : Z := Z.shiftl 1 BUDDY_MAX_ORDER.
Definition USED : Z := 0xFF.
Definition BUDDY_ENTRIES : Z := BUDDY_MAX_ORDER - BUDDY_MIN_ORDER + 1.

(** ** The regions of kernel virtual memory *)

Definition KERNEL_MAPPING_BASE : Z := MALLOC_END.
Definition LG_PG_BASE : Z := KERNEL_MAPPING_BASE + 0x200000.
Definition LG_PG_LIMIT : Z := 0x2000000.

(** ** include/mm/physical.h *)

Definition MM_TABLE_MAX : Z :=
  MM_PHYSICAL_MAX * 1024 * 1024 * 1024 / (8 * 8 * PG_SIZE).
