(* ===== verification/Bits.v ===== *)
(** * Bit operations, bitmaps and rounding

    Models [include/utils/bits.h], [utils/bits.c] and [include/utils/math.h].
    A bitmap is a [uint64_t] array; bit [n] lives in word [n / 64] at
    position [n mod 64] ([bm_test]). The range operations are specified bit by
    bit: every bit of the range takes the new value and no other bit moves. *)

From S2P Require Import Prelude.

Local Open Scope Z_scope.
Local Open Scope c_scope.

(** ** include/utils/bits.h *)

Definition get_bit64 (data index : Z) : outcome Z :=
  mask ← shl64 1 index;
  Ok (if 0 <? data .& mask then 1 else 0).

Definition set_bit64 (data index : Z) : outcome Z :=
  mask ← shl64 1 index;
  Ok (data .| mask).

Definition clear_bit64 (data index : Z) : outcome Z :=
  b ← shl64 1 index;
  let mask := ~w b in
  Ok (data .& mask).

(** Position of the least significant one; [__builtin_ctzll]. *)
Fixpoint pos_ctz (p : positive) : Z :=
  match p with
  | xO q => pos_ctz q + 1
  | _ => 0
  end.

Definition count_trailing_zeros_bit64 (data : Z) : outcome Z :=
  match data with
  | Zpos p => Ok (u8 (pos_ctz p))
  | _ => Fault
  end.

Definition bitmap64_get (map : u64array) (index : Z) : outcome Z :=
  w ← arr_get map (index >>w 6);
  Ok (if 0 <? w .& (1 <<w (index .& 63)) then 1 else 0).

Definition bitmap64_set (map : u64array) (index : Z) : outcome u64array :=
  w ← arr_get map (index >>w 6);
  arr_set map (index >>w 6) (w .| (1 <<w (index .& 63))).

Definition bitmap64_clear (map : u64array) (index : Z) : outcome u64array :=
  w ← arr_get map (index >>w 6);
  arr_set map (index >>w 6) (w .& (~w (1 <<w (index .& 63)))).

(** ** utils/bits.c

    The loop state: the array, the word pointer (as an index), and the
    variables [length], [bits] and [mask]. *)
Definition range_state : Type := u64array * Z * Z * Z * Z.

Definition bitmap64_set_range_step (s : range_state) : outcome (range_state + range_state) :=
  let '(map, ptr, length, bits, mask) := s in
  if bits <=? length then
    w ← arr_get map ptr;
    map ← arr_set map ptr (w .| mask);
    Ok (inl (map, ptr + 1, length -w bits, 64, UINT64_MAX))
  else Ok (inr s).

Definition bitmap64_set_range (map : u64array) (begin length : Z) : outcome u64array :=
  let ptr := begin >>w 6 in
  let bits := u8 (64 - (begin .& 63)) in
  let end_ := begin +w length in
  let mask := UINT64_MAX <<w (begin .& 63) in
  s ← while bitmap64_set_range_step (map, ptr, length, bits, mask);
  let '(map, ptr, length, bits, mask) := s in
  if 0 <? length then
    let mask := mask .& (UINT64_MAX >>w (u64 (- end_) .& 63)) in
    w ← arr_get map ptr;
    arr_set map ptr (w .| mask)
  else Ok map.

Definition bitmap64_clear_range_step (s : range_state) : outcome (range_state + range_state) :=
  let '(map, ptr, length, bits, mask) := s in
  if bits <=? length then
    w ← arr_get map ptr;
    map ← arr_set map ptr (w .& (~w mask));
    Ok (inl (map, ptr + 1, length -w bits, 64, UINT64_MAX))
  else Ok (inr s).

Definition bitmap64_clear_range (map : u64array) (begin length : Z) : outcome u64array :=
  let ptr := begin >>w 6 in
  let bits := u8 (64 - (begin .& 63)) in
  let end_ := begin +w length in
  let mask := UINT64_MAX <<w (begin .& 63) in
  s ← while bitmap64_clear_range_step (map, ptr, length, bits, mask);
  let '(map, ptr, length, bits, mask) := s in
  if 0 <? length then
    let mask := mask .& (UINT64_MAX >>w (u64 (- end_) .& 63)) in
    w ← arr_get map ptr;
    arr_set map ptr (w .& (~w mask))
  else Ok map.

Definition bitmap64_check_bit (map : u64array) (index : Z) : outcome bool :=
  w ← arr_get map (index >>w 6);
  let mask := 1 <<w (index mod 64) in
  Ok (negb ((w .& mask) =? 0)).

(** ** include/utils/math.h *)

Definition ceiling64 (data base : Z) : outcome Z :=
  q ← div64 (data +w base -w 1) base;
  Ok (q *w base).

(** The operations stay folded under [simpl]. *)
Arguments get_bit64 : simpl never.
Arguments clear_bit64 : simpl never.
Arguments count_trailing_zeros_bit64 : simpl never.
Arguments bitmap64_get : simpl never.
Arguments bitmap64_set : simpl never.
Arguments bitmap64_clear : simpl never.
Arguments bitmap64_set_range : simpl never.
Arguments bitmap64_clear_range : simpl never.
Arguments bitmap64_check_bit : simpl never.

(** ** The bits of a bitmap *)

Definition bm_test (a : u64array) (n : Z) : bool :=
  Z.testbit (arr_word a (n / 64)) (n mod 64).

(** ** Words *)

Lemma land_63 n : Z.land n 63 = n mod 64.
Proof. change 63 with (Z.ones 6). rewrite Z.land_ones by lia. done. Qed.

Lemma shiftr_6 n : Z.shiftr n 6 = n / 64.
Proof. rewrite Z.shiftr_div_pow2 by lia. done. Qed.

Lemma one_shl_u64 k : 0 <= k < 64 → u64 (Z.shiftl 1 k) = 2 ^ k.
Proof.
  intros Hk. rewrite Z.shiftl_mul_pow2, Z.mul_1_l by lia. apply u64_id. split; [lia|].
  apply Z.pow_lt_mono_r; lia.
Qed.

Lemma is_u64_pow2 k : 0 <= k < 64 → is_u64 (2 ^ k).
Proof. intros Hk. rewrite <- one_shl_u64 by done. auto with rtv. Qed.

Lemma testbit_pow2 k n : 0 <= k → Z.testbit (2 ^ k) n = (n =? k).
Proof.
  intros Hk. zcase; subst; [apply Z.pow2_bits_true|apply Z.pow2_bits_false]; lia.
Qed.

(** [x & (1 << k)] is not zero exactly when bit [k] of [x] is set. *)
Lemma land_pow2_pos w k : 0 <= k → (0 <? Z.land w (2 ^ k)) = Z.testbit w k.
Proof.
  intros Hk. destruct (Z.testbit w k) eqn:E.
  - assert (Z.land w (2 ^ k) = 2 ^ k) as ->.
    { apply Z.bits_inj'. intros n Hn. rewrite Z.land_spec, testbit_pow2 by done.
      zcase; subst; [by rewrite E|by rewrite andb_false_r]. }
    apply Z.ltb_lt. lia.
  - assert (Z.land w (2 ^ k) = 0) as ->; [|done].
    apply Z.bits_inj'. intros n Hn. rewrite Z.land_spec, testbit_pow2, Z.testbit_0_l by done.
    zcase; subst; [by rewrite E|by rewrite andb_false_r].
Qed.

Lemma land_pow2_nonzero w k : 0 <= k → negb (Z.land w (2 ^ k) =? 0) = Z.testbit w k.
Proof.
  intros Hk. rewrite <- land_pow2_pos by done.
  assert (0 <= Z.land w (2 ^ k)) by (apply Z.land_nonneg; lia).
  destruct (Z.eqb_spec (Z.land w (2 ^ k)) 0), (Z.ltb_spec 0 (Z.land w (2 ^ k))); lia || done.
Qed.

Lemma pos_ctz_nonneg p : 0 <= pos_ctz p.
Proof. induction p; simpl; lia. Qed.

(** [pos_ctz] is the position of the lowest one. *)
Lemma pos_ctz_spec p :
  Z.testbit (Zpos p) (pos_ctz p) = true ∧
  ∀ k, 0 <= k < pos_ctz p → Z.testbit (Zpos p) k = false.
Proof.
  induction p as [p IH|p [IH1 IH2]|]; simpl; [split; [done|lia]| |split; [done|lia]].
  pose proof (pos_ctz_nonneg p). rewrite (Pos2Z.inj_xO p). split.
  - rewrite Z.add_1_r, Z.testbit_even_succ by lia. done.
  - intros k Hk. destruct (Z.eq_dec k 0) as [->|]; [apply Z.testbit_even_0|].
    replace k with (Z.succ (k - 1)) by lia. rewrite Z.testbit_even_succ by lia.
    apply IH2. lia.
Qed.

(** ** Single bits *)

Lemma testbit_set w k n : is_u64 w → 0 <= k < 64 → 0 <= n →
  Z.testbit (w .| (1 <<w k)) n = if n =? k then true else Z.testbit w n.
Proof.
  intros Hw Hk Hn. rewrite one_shl_u64, Z.lor_spec, testbit_pow2 by lia.
  zcase; [by rewrite orb_true_r|by rewrite orb_false_r].
Qed.

Lemma testbit_clear w k n : is_u64 w → 0 <= k < 64 → 0 <= n →
  Z.testbit (w .& ~w (1 <<w k)) n = if n =? k then false else Z.testbit w n.
Proof.
  intros Hw Hk Hn. rewrite one_shl_u64, Z.land_spec, testbit_u64, Z.lnot_spec, testbit_pow2 by lia.
  destruct (Z.ltb_spec n 64).
  - zcase; simpl; [by rewrite andb_false_r|by rewrite andb_true_r].
  - rewrite testbit_high by done. by zcase.
Qed.

(** The word a bit lives in, and the bit of a word. *)
Lemma bm_test_eq a i k : 0 <= k < 64 → bm_test a (64 * i + k) = Z.testbit (arr_word a i) k.
Proof. intros Hk. unfold bm_test. f_equal; [f_equal|]; dlia. Qed.

Lemma bm_index_bound a n : 0 <= n < 64 * arr_len a → 0 <= n / 64 < arr_len a.
Proof. dlia. Qed.

(** [bm_upd a a' P v]: [a'] has [v] at the bits [P], and is [a] elsewhere. *)
Definition bm_upd (a a' : u64array) (P : Z → bool) (v : bool) : Prop :=
  arr_wf a' ∧ arr_len a' = arr_len a ∧
  ∀ n, 0 <= n → bm_test a' n = if P n then v else bm_test a n.

(** A store of one word, seen bit by bit. *)
Lemma bm_upd_word a a' i w (P : Z → bool) v :
  arr_wf a → is_u64 w → arr_upd a a' i w →
  (∀ n, 0 <= n → n / 64 ≠ i → P n = false) →
  (∀ k, 0 <= k < 64 → Z.testbit w k = if P (64 * i + k) then v else Z.testbit (arr_word a i) k) →
  bm_upd a a' P v.
Proof.
  intros Ha Hw Hupd HP Hbits. split_and!; [eauto with rtv|apply Hupd|].
  intros n Hn. unfold bm_test at 1. destruct Hupd as [_ ->]. case_decide as Hi.
  - rewrite Hbits by dlia. subst i.
    replace (64 * (n / 64) + n mod 64) with n by dlia. done.
  - rewrite HP; done.
Qed.

Lemma bitmap64_get_ok a n : arr_wf a → 0 <= n < 64 * arr_len a →
  bitmap64_get a n = Ok (if bm_test a n then 1 else 0).
Proof.
  intros Ha Hn. unfold bitmap64_get. rewrite shiftr_6, land_63.
  rewrite arr_get_ok by (by apply bm_index_bound). simpl.
  rewrite one_shl_u64, land_pow2_pos by dlia. done.
Qed.

Lemma bitmap64_check_bit_ok a n : 0 <= n < 64 * arr_len a →
  bitmap64_check_bit a n = Ok (bm_test a n).
Proof.
  intros Hn. unfold bitmap64_check_bit. rewrite shiftr_6.
  rewrite arr_get_ok by (by apply bm_index_bound). simpl.
  rewrite one_shl_u64, land_pow2_nonzero by dlia. done.
Qed.

Lemma bitmap64_set_ok a n : arr_wf a → 0 <= n < 64 * arr_len a →
  ∃ a', bitmap64_set a n = Ok a' ∧ bm_upd a a' (Z.eqb n) true.
Proof.
  intros Ha Hn. pose proof (bm_index_bound a n Hn). unfold bitmap64_set.
  rewrite shiftr_6, land_63, arr_get_ok by done. simpl.
  edestruct arr_set_ok as (a' & -> & Hupd); [done|]. eexists. split; [done|].
  eapply (bm_upd_word _ _ _ _ _ _ Ha); [|exact Hupd|..].
  - apply is_u64_lor; auto with rtv.
  - intros m Hm Hne. apply Z.eqb_neq. congruence.
  - intros k Hk. rewrite testbit_set by (apply Ha || dlia). destruct (Z.eqb_spec k (n mod 64)) as [->|];
      zcase; done || dlia.
Qed.

Lemma bitmap64_clear_ok a n : arr_wf a → 0 <= n < 64 * arr_len a →
  ∃ a', bitmap64_clear a n = Ok a' ∧ bm_upd a a' (Z.eqb n) false.
Proof.
  intros Ha Hn. pose proof (bm_index_bound a n Hn). unfold bitmap64_clear.
  rewrite shiftr_6, land_63, arr_get_ok by done. simpl.
  edestruct arr_set_ok as (a' & -> & Hupd); [done|]. eexists. split; [done|].
  eapply (bm_upd_word _ _ _ _ _ _ Ha); [|exact Hupd|..].
  - apply is_u64_land; [done|]. apply u64_range.
  - intros m Hm Hne. apply Z.eqb_neq. congruence.
  - intros k Hk. rewrite testbit_clear by (apply Ha || dlia). destruct (Z.eqb_spec k (n mod 64)) as [->|];
      zcase; done || dlia.
Qed.

(** ** Ranges of bits

    [bitmap64_set_range] and [bitmap64_clear_range] are the same loop around
    two ways to combine a word with a mask. The section proves the loop once,
    for a combination [upd] that stores [v] at the bits of the mask. *)
Section range.
Context (upd : Z → Z → Z) (v : bool).
Hypothesis upd_bit : ∀ w m k, is_u64 w → is_u64 m → 0 <= k < 64 →
  Z.testbit (upd w m) k = if Z.testbit m k then v else Z.testbit w k.
Hypothesis upd_u64 : ∀ w m, is_u64 w → is_u64 m → is_u64 (upd w m).

Definition range_step (s : range_state) : outcome (range_state + range_state) :=
  let '(map, ptr, length, bits, mask) := s in
  if bits <=? length then
    w ← arr_get map ptr;
    map ← arr_set map ptr (upd w mask);
    Ok (inl (map, ptr + 1, length -w bits, 64, UINT64_MAX))
  else Ok (inr s).

Definition range_op (map : u64array) (begin length : Z) : outcome u64array :=
  let ptr := begin >>w 6 in
  let bits := u8 (64 - (begin .& 63)) in
  let end_ := begin +w length in
  let mask := UINT64_MAX <<w (begin .& 63) in
  s ← while range_step (map, ptr, length, bits, mask);
  let '(map, ptr, length, bits, mask) := s in
  if 0 <? length then
    let mask := mask .& (UINT64_MAX >>w (u64 (- end_) .& 63)) in
    w ← arr_get map ptr;
    arr_set map ptr (upd w mask)
  else Ok map.

Definition in_range (lo hi n : Z) : bool := (lo <=? n) && (n <? hi).

Context (a0 : u64array) (begin len0 : Z).
Hypothesis a0_wf : arr_wf a0.
Hypothesis begin_pos : 0 <= begin.
Hypothesis len0_pos : 0 <= len0.
Hypothesis range_fits : begin + len0 <= 64 * arr_len a0.
Hypothesis array_fits : 64 * arr_len a0 <= 2 ^ 63.

(** [cur], the first bit not done yet, moves from [begin] to the end. *)
Definition range_inv (s : range_state) : Prop :=
  let '(map, ptr, length, bits, mask) := s in
  let cur := begin + (len0 - length) in
  0 <= length <= len0 ∧ ptr = cur / 64 ∧ bits = 64 - cur mod 64 ∧ is_u64 mask ∧
  (∀ k, 0 <= k < 64 → Z.testbit mask k = (cur mod 64 <=? k)) ∧
  bm_upd a0 map (in_range begin cur) v.

Lemma range_inv_step s : range_inv s →
  wp (range_step s) (fun x => match x with
    | inl s' => range_inv s' ∧ 0 <= s'.1.1.2 < s.1.1.2
    | inr r => range_inv r ∧ r.1.1.2 < r.1.2
    end).
Proof.
  destruct s as [[[[map ptr] length] bits] mask]. simpl.
  intros (Hlen & Hptr & Hbits & Hm64 & Hmask & Hwf & Hal & Hmap).
  destruct (Z.leb_spec bits length) as [Hle|Hgt]; simpl; [|split_and!; done || lia].
  pose proof (Z.mod_pos_bound (begin + (len0 - length)) 64 ltac:(lia)) as Hcm.
  pose proof (Z.div_mod (begin + (len0 - length)) 64 ltac:(lia)) as Hcd.
  apply wp_bind, wp_arr_get; [lia|]. apply wp_bind, wp_arr_set; [lia|].
  intros map' Hupd. simpl.
  rewrite (u64_id (length - bits)) by ulia.
  split; [|lia]. split_and!; [dlia..|unfold is_u64, UINT64_MAX; lia| |].
  { intros k Hk. rewrite testbit_UINT64_MAX by lia. symmetry.
    do 2 zcase; reflexivity || dlia. }
  destruct (bm_upd_word map map' ptr (upd (arr_word map ptr) mask)
    (in_range (begin + (len0 - length)) (begin + (len0 - (length - bits)))) v)
    as (Hwf' & Hal' & Hmap'); auto.
  { intros n Hn Hne. unfold in_range. do 2 zcase; reflexivity || dlia. }
  { intros k Hk. rewrite upd_bit, Hmask by done. unfold in_range.
    do 2 zcase; try zcase; simpl; reflexivity || dlia. }
  split_and!; [done|congruence|]. intros n Hn. rewrite Hmap', Hmap by done.
  unfold in_range. repeat (zcase; simpl); reflexivity || lia.
Qed.

Lemma range_inv_init :
  range_inv (a0, begin >>w 6, len0, u8 (64 - (begin .& 63)), UINT64_MAX <<w (begin .& 63)).
Proof.
  simpl. rewrite shiftr_6, land_63. replace (begin + (len0 - len0)) with begin by lia.
  split; [lia|]. split; [done|]. split; [apply u8_id; unfold is_u8; dlia|].
  split; [apply u64_range|]. split; [|split; [done|split; [done|]]].
  - intros k Hk. rewrite testbit_u64, Z.shiftl_spec by dlia.
    destruct (Z.leb_spec (begin mod 64) k).
    + rewrite testbit_UINT64_MAX by lia. do 2 zcase; reflexivity || dlia.
    + rewrite Z.testbit_neg_r by lia. apply andb_false_r.
  - intros n Hn. unfold in_range. do 2 zcase; reflexivity || lia.
Qed.

Lemma range_op_ok : ∃ a', range_op a0 begin len0 = Ok a' ∧
  bm_upd a0 a' (in_range begin (begin + len0)) v.
Proof.
  apply wp_ok. unfold range_op. apply wp_bind.
  eapply wp_mono; [apply (wp_while range_step range_inv (fun s => s.1.1.2)
    (fun r => range_inv r ∧ r.1.1.2 < r.1.2))|].
  { apply range_inv_step. }
  { apply range_inv_init. }
  { simpl. lia. }
  intros [[[[map ptr] length] bits] mask] [(Hlen & Hptr & Hbits & Hm64 & Hmask & Hwf & Hal & Hmap) Hlt].
  simpl in Hlt. zcase; simpl.
  - pose proof (Z.mod_pos_bound (begin + (len0 - length)) 64 ltac:(lia)) as Hcm.
    pose proof (Z.div_mod (begin + (len0 - length)) 64 ltac:(lia)) as Hcd.
    apply wp_bind, wp_arr_get; [lia|]. apply wp_arr_set; [lia|]. intros map' Hupd.
    assert (is_u64 (mask .& (UINT64_MAX >>w (u64 (- (begin +w len0)) .& 63)))) as Hm64'.
    { apply is_u64_land; [done|]. apply is_u64_shiftr; [unfold is_u64, UINT64_MAX; lia|].
      apply Z.land_nonneg. lia. }
    destruct (bm_upd_word map map' ptr (upd (arr_word map ptr)
      (mask .& (UINT64_MAX >>w (u64 (- (begin +w len0)) .& 63))))
      (in_range (begin + (len0 - length)) (begin + len0)) v)
      as (Hwf' & Hal' & Hmap'); auto.
    { intros n Hn Hne. unfold in_range. do 2 zcase; reflexivity || dlia. }
    { intros k Hk. rewrite upd_bit by done. rewrite Z.land_spec, Hmask by done.
      rewrite land_63, Z.shiftr_spec, testbit_UINT64_MAX by dlia.
      assert (u64 (- (begin +w len0)) mod 64 = 64 - (begin + len0) mod 64) as ->.
      { unfold u64. dlia. }
      unfold in_range. repeat (zcase; simpl); reflexivity || dlia. }
    split_and!; [done|congruence|]. intros n Hn. rewrite Hmap', Hmap by done.
    unfold in_range. repeat (zcase; simpl); reflexivity || lia.
  - split_and!; [done..|]. intros n Hn. rewrite Hmap by done.
    unfold in_range. repeat (zcase; simpl); reflexivity || lia.
Qed.
(** A range that leaves the array by a word or more: the loop runs off the
    end. *)
Lemma range_op_fault : arr_len a0 >= 0 →
  64 * arr_len a0 + 64 <= begin + len0 → 64 <= len0 < 2 ^ 64 →
  range_op a0 begin len0 = Fault.
Proof using begin_pos.
  clear len0_pos range_fits array_fits.
  intros Hal Hlong Hlen. apply wpf_fault. unfold range_op. apply wpf_bind.
  apply (wpf_while range_step (fun '(map, ptr, length, bits, mask) =>
    let cur := begin + (len0 - length) in
    64 <= length <= len0 ∧ ptr = cur / 64 ∧ bits = 64 - cur mod 64 ∧ arr_len map = arr_len a0)
    (fun s => s.1.1.2)); simpl; [| |lia].
  - intros [[[[map ptr] length] bits] mask] (Hl & Hp & Hb & Ha). simpl.
    destruct (Z.leb_spec bits length); simpl; [|dlia].
    apply wpf_bind, wpf_arr_get. intros Hin. apply wpf_bind, wpf_arr_set. intros _ map' [Ha' _].
    simpl. rewrite u64_id by (unfold is_u64; dlia). rewrite Ha', Ha in *. dlia.
  - rewrite shiftr_6, land_63, u8_id by (unfold is_u8; dlia). dlia.
Qed.
End range.

Lemma upd_or_bit w m k : is_u64 w → is_u64 m → 0 <= k < 64 →
  Z.testbit (w .| m) k = if Z.testbit m k then true else Z.testbit w k.
Proof. intros _ _ _. rewrite Z.lor_spec. by destruct (Z.testbit w k), (Z.testbit m k). Qed.

Lemma upd_clear_bit w m k : is_u64 w → is_u64 m → 0 <= k < 64 →
  Z.testbit (w .& ~w m) k = if Z.testbit m k then false else Z.testbit w k.
Proof.
  intros _ _ Hk. rewrite Z.land_spec, testbit_u64, Z.lnot_spec by lia.
  destruct (Z.ltb_spec k 64); [|lia]. by destruct (Z.testbit w k), (Z.testbit m k).
Qed.

Lemma upd_clear_u64 w m : is_u64 w → is_u64 m → is_u64 (w .& ~w m).
Proof. intros Hw _. apply is_u64_land; [done|apply u64_range]. Qed.

Lemma set_range_op a begin length :
  bitmap64_set_range a begin length = range_op Z.lor a begin length.
Proof.
  unfold bitmap64_set_range, range_op, bitmap64_set_range_step, range_step. reflexivity.
Qed.

Lemma clear_range_op a begin length :
  bitmap64_clear_range a begin length = range_op (fun w m => w .& ~w m) a begin length.
Proof.
  unfold bitmap64_clear_range, range_op, bitmap64_clear_range_step, range_step. reflexivity.
Qed.

Lemma bitmap64_set_range_ok a begin length :
  arr_wf a → 0 <= begin → 0 <= length → begin + length <= 64 * arr_len a →
  64 * arr_len a <= 2 ^ 63 →
  ∃ a', bitmap64_set_range a begin length = Ok a' ∧
    bm_upd a a' (in_range begin (begin + length)) true.
Proof.
  intros. rewrite set_range_op.
  apply (range_op_ok Z.lor true); auto using upd_or_bit, is_u64_lor.
Qed.

Lemma bitmap64_clear_range_ok a begin length :
  arr_wf a → 0 <= begin → 0 <= length → begin + length <= 64 * arr_len a →
  64 * arr_len a <= 2 ^ 63 →
  ∃ a', bitmap64_clear_range a begin length = Ok a' ∧
    bm_upd a a' (in_range begin (begin + length)) false.
Proof.
  intros. rewrite clear_range_op.
  apply (range_op_ok (fun w m => w .& ~w m) false);
    auto using upd_clear_bit, upd_clear_u64.
Qed.

Lemma bitmap64_set_range_fault a begin length :
  0 <= begin → arr_len a >= 0 → 64 * arr_len a + 64 <= begin + length → 64 <= length < 2 ^ 64 →
  bitmap64_set_range a begin length = Fault.
Proof. intros. rewrite set_range_op. by apply range_op_fault. Qed.

Lemma ceiling64_ok data base : is_u64 data → 0 < base → data + base - 1 < 2 ^ 64 →
  ceiling64 data base = Ok ((data + base - 1) / base * base) .
Proof.
  intros Hd Hb Hfit. unfold ceiling64, div64.
  destruct (Z.eqb_spec base 0); [lia|]. simpl.
  assert (u64 (u64 (data + base) - 1) = data + base - 1) as ->.
  { unfold u64. rewrite Zminus_mod_idemp_l. apply Z.mod_small. ulia. }
  f_equal. apply u64_id. unfold is_u64.
  pose proof (Z.mul_div_le (data + base - 1) base Hb).
  assert (0 <= (data + base - 1) / base) by (apply Z.div_pos; ulia). nia.
Qed.

#[export] Hint Resolve bitmap64_set_ok bitmap64_clear_ok bitmap64_set_range_ok
  bitmap64_clear_range_ok : rtv.

(** ** Properties *)

(** [bitmap64_clear_range] clears the bits [begin, begin + length) and
    leaves every other bit of the map as it was. *)
Lemma bitmap64_clear_range_spec a begin length :
  arr_wf a → 0 <= begin → 0 <= length → begin + length <= 64 * arr_len a →
  64 * arr_len a <= 2 ^ 63 →
  ∃ a', bitmap64_clear_range a begin length = Ok a' ∧ arr_wf a' ∧ arr_len a' = arr_len a ∧
    ∀ n, 0 <= n →
      bm_test a' n = bm_test a n && negb ((begin <=? n) && (n <? begin + length)).
Proof.
  intros. destruct (bitmap64_clear_range_ok a begin length) as (a' & -> & ? & ? & Hbits); auto.
  exists a'. split_and!; auto. intros n Hn. rewrite Hbits by done. unfold in_range.
  destruct (_ && _); [by rewrite andb_false_r|by rewrite andb_true_r].
Qed.

(** [bitmap64_set_range] sets the bits [begin, begin + length) and leaves
    every other bit of the map as it was, and [bitmap64_clear_range] clears
    exactly those bits, whatever the alignment of the two ends, without an
    access outside the array. *)
Theorem bitmap64_set_range_spec a begin length :
  arr_wf a → 0 <= begin → 0 <= length → begin + length <= 64 * arr_len a →
  64 * arr_len a <= 2 ^ 63 →
  (∃ a', bitmap64_set_range a begin length = Ok a' ∧ arr_wf a' ∧ arr_len a' = arr_len a ∧
    ∀ n, 0 <= n →
      bm_test a' n = bm_test a n || ((begin <=? n) && (n <? begin + length))) ∧
  (∃ a', bitmap64_clear_range a begin length = Ok a' ∧ arr_wf a' ∧ arr_len a' = arr_len a ∧
    ∀ n, 0 <= n →
      bm_test a' n = bm_test a n && negb ((begin <=? n) && (n <? begin + length))).
Proof.
  intros Ha Hb Hl Hbl Hlen. split; [|by apply bitmap64_clear_range_spec].
  destruct (bitmap64_set_range_ok a begin length) as (a' & -> & ? & ? & Hbits); auto.
  exists a'. split_and!; auto. intros n Hn. rewrite Hbits by done. unfold in_range.
  destruct (_ && _); [by rewrite orb_true_r|by rewrite orb_false_r].
Qed.

Lemma bitmap64_set_range_spec_witness :
  (∃ a', bitmap64_set_range (U64Array 4 ∅) 60 70 = Ok a' ∧ arr_wf a' ∧ arr_len a' = 4 ∧
    ∀ n, 0 <= n → bm_test a' n = false || ((60 <=? n) && (n <? 60 + 70))) ∧
  (∃ a', bitmap64_clear_range (U64Array 4 {[ 0 := UINT64_MAX; 1 := 7 ]}) 3 62 = Ok a' ∧
    bm_test a' 2 = true ∧ bm_test a' 3 = false ∧ bm_test a' 64 = false ∧ bm_test a' 65 = true).
Proof.
  split.
  - destruct (bitmap64_set_range_spec (U64Array 4 ∅) 60 70) as [(a' & H1 & H2 & H3 & H4) _];
      [by apply arr_wfb_sound|lia|lia|simpl; lia|simpl; lia|].
    exists a'. split_and!; try done. intros n Hn. rewrite H4 by done.
    f_equal. apply Z.testbit_0_l.
  - destruct (bitmap64_set_range_spec (U64Array 4 {[ 0 := UINT64_MAX; 1 := 7 ]}) 3 62)
      as [_ (a' & H1 & H2 & H3 & H4)]; [by apply arr_wfb_sound|lia|lia|simpl; lia|simpl; lia|].
    exists a'. split; [done|]. rewrite !H4 by lia. vm_compute. done.
Defined.

(** The reference: one bit after the other. *)
Fixpoint each_bit (op : u64array → Z → outcome u64array) (a : u64array) (begin : Z) (n : nat) : outcome u64array :=
  match n with
  | O => Ok a
  | S n => a ← op a begin; each_bit op a (begin + 1) n
  end.

Lemma each_bit_ok op v a begin n :
  (∀ a n, arr_wf a → 0 <= n < 64 * arr_len a → ∃ a', op a n = Ok a' ∧ bm_upd a a' (Z.eqb n) v) →
  arr_wf a → 0 <= begin → begin + Z.of_nat n <= 64 * arr_len a →
  ∃ a', each_bit op a begin n = Ok a' ∧ bm_upd a a' (in_range begin (begin + Z.of_nat n)) v.
Proof.
  intros Hop. revert a begin. induction n as [|n IH]; intros a begin Ha Hb Hend.
  - exists a. split; [done|]. split; [done|]. split; [done|]. intros m Hm. unfold in_range.
    destruct (Z.leb_spec begin m), (Z.ltb_spec m (begin + Z.of_nat 0)); simpl; done || lia.
  - destruct (Hop a begin Ha ltac:(lia)) as (a1 & E1 & W1 & L1 & B1).
    destruct (IH a1 (begin + 1) W1 ltac:(lia) ltac:(lia)) as (a2 & E2 & W2 & L2 & B2).
    exists a2. cbn [each_bit]. rewrite E1, bind_ok. split; [done|]. split; [done|]. split; [congruence|].
    intros m Hm. rewrite B2, B1 by done. unfold in_range.
    destruct (Z.leb_spec (begin + 1) m), (Z.ltb_spec m (begin + 1 + Z.of_nat n)), (Z.leb_spec begin m),
      (Z.ltb_spec m (begin + Z.of_nat (S n))), (Z.eqb_spec begin m); simpl; done || lia.
Qed.

(** C40: the routines that work word by word are equivalent to the obvious ones:
    [bitmap64_set_range] leaves the map that [bitmap64_set] of each bit from
    [begin] to [begin + length - 1] leaves, and [bitmap64_clear_range] the one
    that [bitmap64_clear] of each leaves, whatever the alignment of the ends. *)
Theorem bitmap64_range_bitwise a begin length :
  arr_wf a → 0 <= begin → 0 <= length → begin + length <= 64 * arr_len a → 64 * arr_len a <= 2 ^ 63 →
  (∃ a1 a2, bitmap64_set_range a begin length = Ok a1 ∧ each_bit bitmap64_set a begin (Z.to_nat length) = Ok a2 ∧
     arr_len a1 = arr_len a2 ∧ ∀ n, 0 <= n → bm_test a1 n = bm_test a2 n) ∧
  (∃ a1 a2, bitmap64_clear_range a begin length = Ok a1 ∧ each_bit bitmap64_clear a begin (Z.to_nat length) = Ok a2 ∧
     arr_len a1 = arr_len a2 ∧ ∀ n, 0 <= n → bm_test a1 n = bm_test a2 n).
Proof.
  intros Ha Hb Hl Hbl Hlen.
  destruct (each_bit_ok bitmap64_set true a begin (Z.to_nat length) bitmap64_set_ok Ha Hb ltac:(lia)) as (s2 & E1 & _ & M1 & B1).
  destruct (each_bit_ok bitmap64_clear false a begin (Z.to_nat length) bitmap64_clear_ok Ha Hb ltac:(lia)) as (c2 & E2 & _ & M2 & B2).
  rewrite Z2Nat.id in B1, B2 by done. split.
  - destruct (bitmap64_set_range_ok a begin length) as (s1 & E & _ & L & B); auto.
    exists s1, s2. split; [done|]. split; [done|]. split; [congruence|]. intros n Hn. by rewrite B, B1.
  - destruct (bitmap64_clear_range_ok a begin length) as (c1 & E & _ & L & B); auto.
    exists c1, c2. split; [done|]. split; [done|]. split; [congruence|]. intros n Hn. by rewrite B, B2.
Qed.

Lemma bitmap64_range_bitwise_witness :
  ∃ a1 a2, bitmap64_set_range (U64Array 4 {[ 1 := 5 ]}) 60 70 = Ok a1 ∧
    each_bit bitmap64_set (U64Array 4 {[ 1 := 5 ]}) 60 70 = Ok a2 ∧ bm_test a1 129 = bm_test a2 129 ∧ bm_test a1 130 = bm_test a2 130.
Proof.
  destruct (bitmap64_range_bitwise (U64Array 4 {[ 1 := 5 ]}) 60 70) as [(a1 & a2 & E1 & E2 & _ & H) _];
    [by apply arr_wfb_sound|lia|lia|simpl; lia|simpl; lia|].
  exists a1, a2. split; [exact E1|]. split; [exact E2|]. split; apply H; lia.
Defined.

(** [ceiling64] rounds up: the result is the least multiple of [base] that
    is not below [data], as long as [data + base - 1] fits in 64 bits. *)
Theorem ceiling64_spec data base : is_u64 data → 0 < base → data + base - 1 < 2 ^ 64 →
  ∃ r, ceiling64 data base = Ok r ∧ is_u64 r ∧ (base | r) ∧ data <= r ∧
    ∀ q, (base | q) → data <= q → r <= q.
Proof.
  intros Hd Hb Hfit. rewrite ceiling64_ok by done. eexists. split; [done|].
  pose proof (Z.mul_div_le (data + base - 1) base Hb).
  pose proof (Z.mul_succ_div_gt (data + base - 1) base Hb).
  assert (0 <= (data + base - 1) / base) by (apply Z.div_pos; ulia).
  rewrite (Z.mul_comm _ base). split; [unfold is_u64; nia|].
  split; [by apply Z.divide_factor_l|]. split; [lia|].
  intros q [k ->] Hq. assert ((data + base - 1) / base <= k); [|nia].
  apply Z.lt_succ_r. apply Z.div_lt_upper_bound; nia.
Qed.

Lemma ceiling64_spec_witness :
  ∃ r, ceiling64 0x2345678 0x200000 = Ok r ∧ r = 0x2400000.
Proof.
  destruct (ceiling64_spec 0x2345678 0x200000) as (r & H & _);
    [unfold is_u64; lia|lia|lia|].
  exists r. split; [done|]. vm_compute in H. congruence.
Defined.
