(* ===== verification/Spinlock.v ===== *)
(** * Ticket spinlocks

    Models [include/utils/spinlock.h] over the atomic built-ins of
    [arch/x86_64/include/atomic.h]. Two views of the same operations:
    [spin_lock] and [spin_unlock] as one CPU runs them alone (what the other
    components call), and [lock_step], the interleaving of any number of CPUs
    that take and release one lock, one atomic access per step. The concurrent
    lock is proved to be mutually exclusive and to implement a FIFO queue. *)

From S2P Require Import Prelude.

Local Open Scope Z_scope.
Local Open Scope c_scope.

(** [union _spinlock]: the two halves [obj.next] and [obj.owner]; the machine
    is little-endian, so [next] is the low half of [data]. *)
Record spinlock := Spinlock {
  next : Z;
  owner : Z
}.

#[export] Instance spinlock_eq_dec : EqDecision spinlock.
Proof. solve_decision. Defined.

Definition lock_data (l : spinlock) : Z := next l + owner l * 2 ^ 16.
Definition lock_of_data (d : Z) : spinlock := Spinlock (d mod 2 ^ 16) (d / 2 ^ 16 mod 2 ^ 16).

Definition lock_wf (l : spinlock) : Prop := is_u16 (next l) ∧ is_u16 (owner l).

Definition SPINLOCK_UNLOCKED : spinlock := lock_of_data 0.

Definition spin_lock_init (l : spinlock) : spinlock := lock_of_data 0.

(** [me = atomic_fetch_add(&lock->obj.next, 1)] *)
Definition take_ticket (l : spinlock) : Z * spinlock :=
  (next l, Spinlock (u16 (next l + 1)) (owner l)).

(** [me != lock->obj.owner] *)
Definition must_wait (me : Z) (l : spinlock) : bool := negb (me =? owner l).

(** [spin_lock], run with no other CPU to release the lock. *)
Definition spin_lock (l : spinlock) : outcome spinlock :=
  let '(me, l) := take_ticket l in
  while (fun l => Ok (if must_wait me l then inl l else inr l)) l.

Definition spin_unlock (l : spinlock) : spinlock :=
  Spinlock (next l) (u16 (owner l + 1)).

(** [atomic_cmp_xchg(&lock->data, &data, new_data)] *)
Definition lock_cmp_xchg (l : spinlock) (expected newval : Z) : bool * spinlock :=
  if lock_data l =? expected then (true, lock_of_data newval) else (false, l).

Definition spin_trylock (l : spinlock) : bool * spinlock :=
  let me := next l in
  let next := u16 (me + 1) in
  let data := u32 (u32 (Z.shiftl me 16) + me) in
  let new_data := u32 (u32 (Z.shiftl next 16) + me) in
  lock_cmp_xchg l data new_data.

(** ** A lock used by one CPU at a time *)

Definition lock_free (l : spinlock) : Prop := is_u16 (next l) ∧ owner l = next l.

Lemma lock_free_unlocked : lock_free SPINLOCK_UNLOCKED.
Proof. split; [vm_compute; split; congruence|done]. Qed.

Lemma spin_lock_free l : lock_free l →
  spin_lock l = Ok (Spinlock (u16 (next l + 1)) (owner l)).
Proof.
  intros [_ Hfree]. unfold spin_lock, take_ticket. apply while_now.
  unfold must_wait. simpl. by rewrite Hfree, Z.eqb_refl.
Qed.

Lemma spin_lock_taken l : owner l ≠ next l → spin_lock l = Hang.
Proof.
  intros Hne. unfold spin_lock, take_ticket.
  apply (while_hangs _ (fun l' => owner l' = owner l)); [|done].
  intros s Hs. exists s. split; [|done]. unfold must_wait.
  destruct (Z.eqb_spec (next l) (owner s)); [congruence|done].
Qed.

(** A critical section leaves a free lock free. *)
Definition lock_cycle (l : spinlock) : spinlock :=
  spin_unlock (Spinlock (u16 (next l + 1)) (owner l)).

Lemma lock_cycle_free l : lock_free l → lock_free (lock_cycle l).
Proof.
  intros [Hn Ho]. split; simpl; [apply u16_range|by rewrite Ho].
Qed.
#[export] Hint Resolve lock_free_unlocked lock_cycle_free : rtv.

(** ** Interleaving *)

(** Where a CPU is: outside, spinning with the ticket it drew, or inside. *)
Inductive cpu_pc : Type :=
  | Idle
  | Spinning (me : Z)
  | Holding.

Record lock_sys := LockSys {
  sys_lock : spinlock;
  sys_cpus : list cpu_pc
}.

Inductive lock_step : lock_sys → lock_sys → Prop :=
  | step_ticket l cpus c me l' :
      cpus !! c = Some Idle → take_ticket l = (me, l') →
      lock_step (LockSys l cpus) (LockSys l' (<[c := Spinning me]> cpus))
  | step_spin l cpus c me :
      cpus !! c = Some (Spinning me) → must_wait me l = true →
      lock_step (LockSys l cpus) (LockSys l cpus)
  | step_enter l cpus c me :
      cpus !! c = Some (Spinning me) → must_wait me l = false →
      lock_step (LockSys l cpus) (LockSys l (<[c := Holding]> cpus))
  | step_unlock l cpus c :
      cpus !! c = Some Holding →
      lock_step (LockSys l cpus) (LockSys (spin_unlock l) (<[c := Idle]> cpus)).

Definition lock_init (ncpus : nat) : lock_sys :=
  LockSys SPINLOCK_UNLOCKED (replicate ncpus Idle).

Definition lock_reachable (ncpus : nat) (s : lock_sys) : Prop :=
  rtc lock_step (lock_init ncpus) s.

(** The specification: a queue of CPUs in the order of their requests; only
    its head can be inside. *)
Record fifo := Fifo {
  fifo_queue : list nat;
  fifo_held : bool
}.

Inductive fifo_step : fifo → fifo → Prop :=
  | fifo_request q h c : c ∉ q → fifo_step (Fifo q h) (Fifo (q ++ [c]) h)
  | fifo_enter q c : fifo_step (Fifo (c :: q) false) (Fifo (c :: q) true)
  | fifo_release q c : fifo_step (Fifo (c :: q) true) (Fifo q false).

(** What a CPU does, given its place in the queue. *)
Definition pc_at (l : spinlock) (h : bool) (k : nat) : cpu_pc :=
  if (h && (k =? 0)%nat)%bool then Holding else Spinning (u16 (owner l + Z.of_nat k)).

(** The simulation relation. *)
Record lock_sim (n : nat) (s : lock_sys) (f : fifo) : Prop := {
  sim_wf : lock_wf (sys_lock s);
  sim_cpus : length (sys_cpus s) = n;
  sim_nodup : NoDup (fifo_queue f);
  sim_next : next (sys_lock s) =
             u16 (owner (sys_lock s) + Z.of_nat (length (fifo_queue f)));
  sim_queue : ∀ k c, fifo_queue f !! k = Some c →
    sys_cpus s !! c = Some (pc_at (sys_lock s) (fifo_held f) k);
  sim_idle : ∀ c pc, sys_cpus s !! c = Some pc → c ∉ fifo_queue f → pc = Idle;
  sim_held : fifo_held f = true → fifo_queue f ≠ []
}.

Lemma u16_add x y : u16 (u16 x + y) = u16 (x + y).
Proof. unfold u16. by rewrite Zplus_mod_idemp_l. Qed.

(** The queue has at most one place per CPU. *)
Lemma sim_length n s f : lock_sim n s f → (length (fifo_queue f) <= n)%nat.
Proof.
  intros Hs. rewrite <- (length_seq n 0). apply submseteq_length.
  apply NoDup_submseteq; [apply Hs|].
  intros c Hc. apply list_elem_of_lookup in Hc as [k Hk].
  pose proof (sim_queue _ _ _ Hs _ _ Hk) as Hpc. apply lookup_lt_Some in Hpc.
  rewrite (sim_cpus _ _ _ Hs) in Hpc. apply elem_of_seq. lia.
Qed.

Lemma sim_in_queue n s f c pc : lock_sim n s f → sys_cpus s !! c = Some pc → pc ≠ Idle →
  ∃ k, fifo_queue f !! k = Some c ∧ pc = pc_at (sys_lock s) (fifo_held f) k.
Proof.
  intros Hs Hc Hpc. destruct (decide (c ∈ fifo_queue f)) as [Hin|Hout].
  - apply list_elem_of_lookup in Hin as [k Hk]. exists k. split; [done|].
    pose proof (sim_queue _ _ _ Hs _ _ Hk). congruence.
  - by destruct Hpc, (sim_idle _ _ _ Hs c pc Hc Hout).
Qed.

Lemma sim_not_idle n s f c : lock_sim n s f → sys_cpus s !! c = Some Idle → c ∉ fifo_queue f.
Proof.
  intros Hs Hc Hin. apply list_elem_of_lookup in Hin as [k Hk].
  pose proof (sim_queue _ _ _ Hs _ _ Hk) as Hq. rewrite Hc in Hq. unfold pc_at in Hq.
  by destruct (_ && _).
Qed.

Lemma sim_init n : lock_sim n (lock_init n) (Fifo [] false).
Proof.
  split; simpl; try done.
  - apply length_replicate.
  - constructor.
  - intros c pc Hc _. apply lookup_replicate in Hc as [-> _]. done.
Qed.

Lemma sim_ticket n l cpus f c : lock_sim n (LockSys l cpus) f → cpus !! c = Some Idle →
  let '(me, l') := take_ticket l in
  lock_sim n (LockSys l' (<[c := Spinning me]> cpus)) (Fifo (fifo_queue f ++ [c]) (fifo_held f)).
Proof.
  intros Hs Hc. pose proof (sim_not_idle _ _ _ _ Hs Hc) as Hout. destruct Hs.
  simpl in *. split; simpl.
  - split; [apply u16_range|apply sim_wf0].
  - by rewrite length_insert.
  - apply NoDup_app. split; [done|]. split; [|apply NoDup_singleton].
    intros x Hx ->%list_elem_of_singleton. done.
  - rewrite sim_next0, u16_add, length_app. simpl. f_equal. lia.
  - intros k d [Hk|[Hk Hd]]%lookup_app_Some.
    + rewrite list_lookup_insert_ne; [by apply sim_queue0|].
      intros ->. apply Hout. by apply list_elem_of_lookup_2 in Hk.
    + apply list_lookup_singleton_Some in Hd as [Hd <-].
      assert (k = length (fifo_queue f)) as -> by lia.
      rewrite list_lookup_insert_eq by (by eapply lookup_lt_Some). f_equal. unfold pc_at. simpl.
      destruct (fifo_held f) eqn:Hh; simpl; [|by rewrite sim_next0].
      destruct (length (fifo_queue f)) eqn:Hl; simpl; [|by rewrite sim_next0].
      by apply nil_length_inv in Hl; destruct (sim_held0 eq_refl).
  - intros d pc Hd Hnd. rewrite not_elem_of_app in Hnd. destruct Hnd as [Hnd Hne].
    rewrite list_elem_of_singleton in Hne.
    rewrite list_lookup_insert_ne in Hd by done. eauto.
  - intros Hh Hnil. by apply app_nil in Hnil as [_ ?].
Qed.

Lemma sim_enter n l cpus f c me :
  Z.of_nat n < 2 ^ 16 → lock_sim n (LockSys l cpus) f →
  cpus !! c = Some (Spinning me) → must_wait me l = false →
  ∃ q, f = Fifo (c :: q) false ∧ lock_sim n (LockSys l (<[c := Holding]> cpus)) (Fifo (c :: q) true).
Proof.
  intros Hn Hs Hc Hw. pose proof (sim_length _ _ _ Hs) as Hlen.
  destruct (sim_in_queue _ _ _ _ _ Hs Hc ltac:(done)) as (k & Hk & Hpc).
  destruct Hs, f as [q h]; simpl in *. unfold pc_at in Hpc.
  destruct (h && (k =? 0)%nat)%bool eqn:Hb; [done|]. injection Hpc as ->.
  unfold must_wait in Hw. apply negb_false_iff, Z.eqb_eq in Hw.
  pose proof (lookup_lt_Some _ _ _ Hk).
  assert (k = 0%nat) as ->.
  { destruct sim_wf0 as [_ Ho]. unfold is_u16, u16 in *. dlia. }
  destruct q as [|c' q]; simpl in Hk; [done|]. injection Hk as ->.
  destruct h; [done|]. exists q. split; [done|]. split; simpl; auto.
  - by rewrite length_insert.
  - intros k d Hk. destruct (decide (d = c)) as [->|Hne].
    + destruct k as [|k]; [by rewrite list_lookup_insert_eq by (by eapply lookup_lt_Some)|].
      simpl in Hk. apply list_elem_of_lookup_2 in Hk. by apply NoDup_cons in sim_nodup0 as [? _].
    + rewrite list_lookup_insert_ne by done. rewrite (sim_queue0 _ _ Hk).
      destruct k as [|k]; simpl in Hk; [congruence|done].
  - intros d pc Hd Hnd. rewrite list_lookup_insert_ne in Hd; [eauto|].
    intros ->. apply Hnd. by left.
Qed.

Lemma sim_unlock n l cpus f c :
  lock_sim n (LockSys l cpus) f → cpus !! c = Some Holding →
  ∃ q, f = Fifo (c :: q) true ∧
    lock_sim n (LockSys (spin_unlock l) (<[c := Idle]> cpus)) (Fifo q false).
Proof.
  intros Hs Hc. destruct (sim_in_queue _ _ _ _ _ Hs Hc ltac:(done)) as (k & Hk & Hpc).
  destruct Hs, f as [q h]; simpl in *. unfold pc_at in Hpc.
  destruct h; [|done]. destruct k as [|k]; [|done].
  destruct q as [|c' q]; simpl in Hk; [done|]. injection Hk as ->.
  apply NoDup_cons in sim_nodup0 as [Hnc Hnd].
  exists q. split; [done|]. split; simpl; auto.
  - split; [apply sim_wf0|apply u16_range].
  - by rewrite length_insert.
  - rewrite sim_next0, u16_add. simpl. f_equal. lia.
  - intros k d Hk. rewrite list_lookup_insert_ne.
    + rewrite (sim_queue0 (Datatypes.S k) d Hk). unfold pc_at. simpl. do 2 f_equal.
      rewrite u16_add. f_equal. lia.
    + intros ->. apply Hnc. by apply list_elem_of_lookup_2 in Hk.
  - intros d pc Hd Hnd'. destruct (decide (d = c)) as [->|Hne].
    + rewrite list_lookup_insert_eq in Hd by (by eapply lookup_lt_Some). congruence.
    + rewrite list_lookup_insert_ne in Hd by done. apply (sim_idle0 d pc Hd).
      rewrite not_elem_of_cons. done.
Qed.

(** Every step of the lock is a step of the queue, or leaves it as it is. *)
Lemma sim_step n s f s' : Z.of_nat n < 2 ^ 16 → lock_sim n s f → lock_step s s' →
  ∃ f', rtc fifo_step f f' ∧ lock_sim n s' f'.
Proof.
  intros Hn Hs Hstep. destruct Hstep as [l cpus c me l' Hc Ht|l cpus c me Hc Hw|l cpus c me Hc Hw|l cpus c Hc].
  - pose proof (sim_ticket _ _ _ _ _ Hs Hc) as H1. rewrite Ht in H1.
    eexists. split; [|exact H1]. destruct f as [q h]. apply rtc_once, fifo_request.
    by apply (sim_not_idle _ _ _ _ Hs).
  - exists f. split; [apply rtc_refl|done].
  - destruct (sim_enter _ _ _ _ _ _ Hn Hs Hc Hw) as (q & -> & H1).
    eexists. split; [apply rtc_once, fifo_enter|exact H1].
  - destruct (sim_unlock _ _ _ _ _ Hs Hc) as (q & -> & H1).
    eexists. split; [apply rtc_once, fifo_release|exact H1].
Qed.

Lemma sim_reachable n s : Z.of_nat n < 2 ^ 16 → lock_reachable n s →
  ∃ f, rtc fifo_step (Fifo [] false) f ∧ lock_sim n s f.
Proof.
  intros Hn Hr. pattern s. refine (rtc_ind_r _ (lock_init n) _ _ s Hr).
  - exists (Fifo [] false). split; [apply rtc_refl|apply sim_init].
  - intros s1 s2 _ Hstep (f & Hf & Hs). destruct (sim_step _ _ _ _ Hn Hs Hstep) as (f' & Hf' & Hs').
    exists f'. split; [by eapply rtc_trans|done].
Qed.

Lemma sim_holding n s f c : lock_sim n s f → sys_cpus s !! c = Some Holding →
  ∃ q, f = Fifo (c :: q) true.
Proof.
  intros Hs Hc. destruct (sim_in_queue _ _ _ _ _ Hs Hc ltac:(done)) as (k & Hk & Hpc).
  destruct f as [q h]. unfold pc_at in Hpc. simpl in *.
  destruct h; [|done]. destruct k; [|done]. destruct q; [done|]. simpl in Hk.
  injection Hk as ->. eauto.
Qed.

(** If nobody is inside, the head of the queue can enter. *)
Lemma sim_progress n s f : lock_sim n s f → fifo_queue f ≠ [] → fifo_held f = false →
  ∃ c me, sys_cpus s !! c = Some (Spinning me) ∧ must_wait me (sys_lock s) = false.
Proof.
  intros Hs Hq Hh. destruct f as [[|c q] h]; [done|]. simpl in *. subst h.
  pose proof (sim_queue _ _ _ Hs 0%nat c eq_refl) as Hc. unfold pc_at in Hc. simpl in Hc.
  exists c, (u16 (owner (sys_lock s) + 0)). split; [done|]. unfold must_wait.
  rewrite Z.add_0_r, u16_id by apply Hs. by rewrite Z.eqb_refl.
Qed.

(** ** Properties *)

(** C1: mutual exclusion. Whatever the interleaving, two CPUs are never inside
    the same critical section, provided there are fewer than 2^16 CPUs (the
    16-bit tickets are then all different). *)
Theorem spin_lock_mutual_exclusion n s c1 c2 :
  Z.of_nat n < 2 ^ 16 → lock_reachable n s →
  sys_cpus s !! c1 = Some Holding → sys_cpus s !! c2 = Some Holding → c1 = c2.
Proof.
  intros Hn Hr H1 H2. destruct (sim_reachable _ _ Hn Hr) as (f & _ & Hs).
  destruct (sim_holding _ _ _ _ Hs H1) as (q1 & ->).
  destruct (sim_holding _ _ _ _ Hs H2) as (q2 & Heq). by injection Heq.
Qed.

Lemma spin_lock_mutual_exclusion_witness :
  ∃ s, lock_reachable 2 s ∧ sys_cpus s !! 1%nat = Some Holding ∧
    ∀ c, sys_cpus s !! c = Some Holding → 1%nat = c.
Proof.
  exists (LockSys (Spinlock 1 0) [Idle; Holding]).
  assert (lock_reachable 2 (LockSys (Spinlock 1 0) [Idle; Holding])) as Hr.
  { eapply rtc_l; [by apply (step_ticket _ _ 1%nat)|].
    eapply rtc_l; [by apply (step_enter _ _ 1%nat 0)|]. apply rtc_refl. }
  split; [exact Hr|]. split; [reflexivity|].
  intros c Hc. eapply (spin_lock_mutual_exclusion 2); [|exact Hr|reflexivity|exact Hc]. lia.
Defined.

(** C14: the ticket lock implements a FIFO queue. Every reachable state of the
    lock corresponds, through [lock_sim], to a reachable state of the queue
    specification: CPUs enter in the order in which they drew tickets. *)
Theorem spin_lock_refines_fifo n s :
  Z.of_nat n < 2 ^ 16 → lock_reachable n s →
  ∃ f, rtc fifo_step (Fifo [] false) f ∧ lock_sim n s f.
Proof. apply sim_reachable. Qed.

Lemma spin_lock_refines_fifo_witness :
  ∃ f, rtc fifo_step (Fifo [] false) f ∧
    lock_sim 2 (LockSys (Spinlock 2 0) [Spinning 1; Spinning 0]) f.
Proof.
  apply (spin_lock_refines_fifo 2); [lia|].
  eapply rtc_l; [by apply (step_ticket _ _ 1%nat)|].
  eapply rtc_l; [by apply (step_ticket _ _ 0%nat)|]. apply rtc_refl.
Defined.

(** C30: no deadlock in the lock itself. In every reachable state in which some
    CPU waits for the lock, a CPU is inside, or a waiting CPU draws the turn
    and can enter at once. *)
Theorem spin_lock_progress n s c me :
  Z.of_nat n < 2 ^ 16 → lock_reachable n s → sys_cpus s !! c = Some (Spinning me) →
  (∃ c', sys_cpus s !! c' = Some Holding) ∨
  (∃ c' me', sys_cpus s !! c' = Some (Spinning me') ∧ must_wait me' (sys_lock s) = false).
Proof.
  intros Hn Hr Hc. destruct (sim_reachable _ _ Hn Hr) as (f & _ & Hs).
  destruct (sim_in_queue _ _ _ _ _ Hs Hc ltac:(done)) as (k & Hk & _).
  assert (fifo_queue f ≠ []) as Hq by (by intros Hnil; rewrite Hnil in Hk).
  destruct (fifo_held f) eqn:Hh; [left|right; by eapply sim_progress].
  destruct f as [[|c' q] h]; [done|]. simpl in Hh. subst h. exists c'.
  apply (sim_queue _ _ _ Hs 0%nat c' eq_refl).
Qed.

Lemma spin_lock_progress_witness :
  let s := LockSys (Spinlock 2 0) [Spinning 1; Spinning 0] in
  (∃ c', sys_cpus s !! c' = Some Holding) ∨
  (∃ c' me', sys_cpus s !! c' = Some (Spinning me') ∧ must_wait me' (sys_lock s) = false).
Proof.
  intros s. apply (spin_lock_progress 2 s 0%nat 1); [lia| |reflexivity].
  eapply rtc_l; [by apply (step_ticket _ _ 1%nat)|].
  eapply rtc_l; [by apply (step_ticket _ _ 0%nat)|]. apply rtc_refl.
Defined.

(** [spin_trylock] tells correctly whether the lock is free, but when it
    says it took the lock it has advanced [owner] and not [next]: after it,
    and still after the matching [spin_unlock], every [spin_lock] spins
    forever. *)
Theorem spin_trylock_wedges l : lock_wf l →
  (spin_trylock l).1 = bool_decide (owner l = next l) ∧
  ((spin_trylock l).1 = true →
     spin_lock (spin_trylock l).2 = Hang ∧
     spin_lock (spin_unlock (spin_trylock l).2) = Hang) ∧
  ((spin_trylock l).1 = false → (spin_trylock l).2 = l).
Proof.
  intros [Hn Ho]. destruct l as [n o]. simpl in *.
  assert (u32 (u32 (Z.shiftl n 16) + n) = n + n * 2 ^ 16) as Hd.
  { rewrite Z.shiftl_mul_pow2 by lia. unfold u32, is_u16 in *. dlia. }
  assert (u32 (u32 (Z.shiftl (u16 (n + 1)) 16) + n) = n + u16 (n + 1) * 2 ^ 16) as Hnd.
  { rewrite Z.shiftl_mul_pow2 by lia. unfold u32, u16, is_u16 in *. dlia. }
  unfold spin_trylock, lock_cmp_xchg. simpl. rewrite Hd, Hnd.
  unfold lock_data. simpl. destruct (Z.eqb_spec (n + o * 2 ^ 16) (n + n * 2 ^ 16)) as [He|He];
    case_bool_decide; try lia; simpl; split_and!; try done.
  intros _. unfold lock_of_data, spin_unlock. split; apply spin_lock_taken; simpl;
    unfold u16, is_u16 in *; dlia.
Qed.

Lemma spin_trylock_wedges_witness :
  (spin_trylock SPINLOCK_UNLOCKED).1 = true ∧
  spin_lock (spin_unlock (spin_trylock SPINLOCK_UNLOCKED).2) = Hang.
Proof.
  split; [reflexivity|]. apply (spin_trylock_wedges SPINLOCK_UNLOCKED); [|reflexivity].
  split; vm_compute; split; congruence.
Defined.
