(* ===== verification/Physical.v ===== *)
(** * The physical page allocator

    Models [kernel/mm/physical.c]: a bitmap with one bit per 4 KB page frame,
    set when the frame is free, scanned word by word up to [entry_end]. Every
    operation runs under [phy_lock]; the state keeps the lock, so that leaving
    it taken on some path would show.

    The abstract view is [page_free p n], "frame number [n] is free"; the
    allocators are proved to return the first fitting run of free frames and
    to take exactly it, where they do. *)

From S2P Require Import Prelude Layout Bits Spinlock.

Local Open Scope Z_scope.
Local Open Scope c_scope.

(** The static variables of the file. *)
Record phys := Phys {
  mm_table : u64array;
  mm_limit : Z;
  entry_end : Z;
  phy_lock : spinlock
}.

Definition phys_init : phys := Phys (U64Array MM_TABLE_MAX ∅) 0 0 SPINLOCK_UNLOCKED.

Definition with_table (p : phys) (t : u64array) : phys :=
  Phys t (mm_limit p) (entry_end p) (phy_lock p).
Definition with_lock (p : phys) (l : spinlock) : phys :=
  Phys (mm_table p) (mm_limit p) (entry_end p) l.

Definition lock_phys (p : phys) : outcome phys :=
  l ← spin_lock (phy_lock p); Ok (with_lock p l).
Definition unlock_phys (p : phys) : phys := with_lock p (spin_unlock (phy_lock p)).

(** ** Marking ranges *)

Definition physical_free_range (p : phys) (begin length : Z) : outcome phys :=
  let remain := begin mod PG_SIZE in
  let end_remain := (begin +w length) mod PG_SIZE in
  p ← lock_phys p;
  t ← (if remain =? 0 then
         bitmap64_set_range (mm_table p) (begin >>w PG_BITS)
           ((length -w end_remain) >>w PG_BITS)
       else
         bitmap64_set_range (mm_table p) ((begin >>w PG_BITS) +w 1)
           ((length -w (PG_SIZE - remain) -w end_remain) >>w PG_BITS));
  Ok (unlock_phys (with_table p t)).

Definition physical_take_range (p : phys) (begin length : Z) : outcome phys :=
  let remain := begin mod PG_SIZE in
  let end_remain := (begin +w length) mod PG_SIZE in
  p ← lock_phys p;
  t ← (if end_remain =? 0 then
         bitmap64_clear_range (mm_table p) (begin >>w PG_BITS)
           ((length +w remain) >>w PG_BITS)
       else
         bitmap64_clear_range (mm_table p) (begin >>w PG_BITS)
           ((length +w remain +w PG_SIZE -w end_remain) >>w PG_BITS));
  Ok (unlock_phys (with_table p t)).

Definition physical_is_free (p : phys) (addr : Z) : outcome bool :=
  bitmap64_check_bit (mm_table p) (addr >>w PG_BITS).

Definition physical_set_limit (p : phys) (limit : Z) : outcome phys :=
  p ← lock_phys p;
  let mm_limit := limit >>w PG_BITS in
  let entry_end := mm_limit >>w 6 in
  let entry_end := if 0 <? mm_limit .& 63 then entry_end +w 1 else entry_end in
  Ok (unlock_phys (Phys (mm_table p) mm_limit entry_end (phy_lock p))).

(** ** Reading the table *)

(** [physical_check_table] prints pairs of an index and a word; the model
    returns the list of the pairs printed. *)
Definition physical_check_table_step (p : phys) (s : Z * bool * list (Z * Z)) :
    outcome ((Z * bool * list (Z * Z)) + list (Z * Z)) :=
  let '(i, flag, out) := s in
  if i <? MM_TABLE_MAX then
    w ← arr_get (mm_table p) i;
    let top := negb (w .& (1 <<w 63) =? 0) in
    if negb (w =? UINT64_MAX) && flag then
      Ok (inl (i +w 1, if negb top then false else flag, out ++ [(i, w)]))
    else if negb (w =? 0) && negb flag then
      Ok (inl (i +w 1, if top then true else flag, out ++ [(i, w)]))
    else Ok (inl (i +w 1, flag, out))
  else Ok (inr out).

Definition physical_check_table (p : phys) : outcome (list (Z * Z)) :=
  while (physical_check_table_step p) (0, false, []).

(** The loop that counts the free pages from [bit] on, in one word; it returns
    the range it has found at the first page that is not free, or the count it
    has reached at [end]. *)
Definition count_free_step (t : u64array) (end_ : Z) (s : Z * Z) :
    outcome ((Z * Z) + ((Z * Z) + Z)) :=
  let '(bit, count) := s in
  if bit <? end_ then
    b ← bitmap64_check_bit t bit;
    if (b : bool) then Ok (inl (bit +w 1, count +w 1))
    else if 0 <? count then
      Ok (inr (inl ((bit -w count) <<w PG_BITS, count <<w PG_BITS)))
    else Ok (inl (bit +w 1, count))
  else Ok (inr (inr count)).

Definition skip_empty_step (p : phys) (i : Z) : outcome (Z + Z) :=
  if i <? entry_end p then
    w ← arr_get (mm_table p) i;
    if negb (w =? 0) then Ok (inr i) else Ok (inl (i +w 1))
  else Ok (inr i).

Definition count_words_step (p : phys) (s : Z * Z) : outcome ((Z * Z) + ((Z * Z) + (Z * Z))) :=
  let '(i, count) := s in
  if i <? entry_end p then
    w ← arr_get (mm_table p) i;
    if w =? UINT64_MAX then Ok (inl (i +w 1, count +w 64))
    else
      tz ← count_trailing_zeros_bit64 (~w w);
      Ok (inr (inl (((i <<w 6) -w count) <<w PG_BITS, (count +w tz) <<w PG_BITS)))
  else Ok (inr (inr (i, count))).

(** [start] and [size] are the values behind the two pointers before the call;
    the result holds the values after it. *)
Definition physical_next_free_range (p : phys) (current start size : Z) : outcome (Z * Z) :=
  let bit := current >>w PG_BITS in
  let end_ := ((bit +w 64 -w 1) / 64) *w 64 in
  if entry_end p <=? bit >>w 6 then Ok (start, 0)
  else
    r ← while (count_free_step (mm_table p) end_) (bit, 0);
    match r with
    | inl found => Ok found
    | inr count =>
        let i := end_ >>w 6 in
        r ← (if count =? 0 then
               i ← while (skip_empty_step p) i;
               let end_ := (i +w 1) <<w 6 in
               r ← while (count_free_step (mm_table p) end_) (i <<w 6, count);
               match r with
               | inl found => Ok (inl found)
               | inr count => Ok (inr (i +w 1, count))
               end
             else Ok (inr (i, count)));
        match r with
        | inl found => Ok found
        | inr ic =>
            r ← while (count_words_step p) ic;
            match r with
            | inl found => Ok found
            | inr (i, count) => Ok (((i <<w 6) -w count) <<w PG_BITS, count <<w PG_BITS)
            end
        end
    end.

(** ** Single frames *)

(** The position of the lowest one of [data]: [data & (-data)], shifted out. *)
Definition lowest_bit (data : Z) : outcome Z :=
  let data := data .& u64 (- data) in
  let data := data >>w 1 in
  while (fun '(data, pos) =>
           if negb (data =? 0) then Ok (inl (data >>w 1, u8 (pos + 1))) else Ok (inr pos))
    (data, 0).

(** The branch taken at the first word [w] that is not zero: clear its lowest
    one, release the lock, return the address. *)
Definition take_lowest (p : phys) (i w : Z) : outcome (Z * phys) :=
  pos ← lowest_bit w;
  w' ← clear_bit64 w pos;
  t ← arr_set (mm_table p) i w';
  Ok (((i <<w 6) +w pos) <<w PG_BITS, unlock_phys (with_table p t)).

(** The scan of [alloc_phys_frame] and [alloc_phys_frame_lowmem], which differ
    in the words they visit. *)
Definition alloc_frame_step (limit : Z) (s : Z * phys) : outcome ((Z * phys) + (Z * phys)) :=
  let '(i, p) := s in
  if i <? limit then
    w ← arr_get (mm_table p) i;
    if negb (w =? 0) then
      r ← take_lowest p i w; Ok (inr r)
    else Ok (inl (i +w 1, p))
  else Ok (inr (0, unlock_phys p)).

Definition alloc_phys_frame (p : phys) : outcome (Z * phys) :=
  p ← lock_phys p;
  while (alloc_frame_step (entry_end p)) (4, p).

Definition alloc_phys_frame_lowmem (p : phys) : outcome (Z * phys) :=
  p ← lock_phys p;
  while (alloc_frame_step 4) (0, p).

Definition free_phys_frame (p : phys) (frame : Z) : outcome phys :=
  p ← lock_phys p;
  t ← bitmap64_set (mm_table p) (frame >>w PG_BITS);
  Ok (unlock_phys (with_table p t)).

Definition free_phys_frames (p : phys) (frame num : Z) : outcome phys :=
  p ← lock_phys p;
  t ← bitmap64_set_range (mm_table p) (frame >>w PG_BITS) num;
  Ok (unlock_phys (with_table p t)).

(** ** Contiguous frames *)

(** [while (bitmap64_get(mm_table, pos) == 0) pos++;] *)
Definition find_set_step (t : u64array) (pos : Z) : outcome (Z + Z) :=
  b ← bitmap64_get t pos;
  if b =? 0 then Ok (inl (pos +w 1)) else Ok (inr pos).

(** [while (count < num && bitmap64_get(mm_table, cur)) { cur++; count++; }] *)
Definition count_run_step (t : u64array) (num : Z) (s : Z * Z) : outcome ((Z * Z) + (Z * Z)) :=
  let '(cur, count) := s in
  if count <? num then
    b ← bitmap64_get t cur;
    if negb (b =? 0) then Ok (inl (cur +w 1, count +w 1)) else Ok (inr (cur, count))
  else Ok (inr (cur, count)).

(** The branch taken at a run that is long enough: clear it, release the lock,
    return its address. *)
Definition take_run (p : phys) (pos num : Z) : outcome (Z * phys) :=
  t ← bitmap64_clear_range (mm_table p) pos num;
  Ok (pos <<w PG_BITS, unlock_phys (with_table p t)).

Definition alloc_phys_frames_step (num : Z) (s : Z * Z * phys) :
    outcome ((Z * Z * phys) + (Z * phys)) :=
  let '(i, pos, p) := s in
  if i <? entry_end p then
    w ← arr_get (mm_table p) i;
    if negb (w =? 0) then
      pos ← while (find_set_step (mm_table p)) pos;
      '(cur, count) ← while (count_run_step (mm_table p) num) (pos, 0);
      if count =? num then
        r ← take_run p pos num; Ok (inr r)
      else
        let pos := cur +w 1 in
        Ok (inl (pos >>w 6, pos, p))
    else Ok (inl (i +w 1, pos +w 64, p))
  else Ok (inr (0, unlock_phys p)).

Definition alloc_phys_frames (p : phys) (num : Z) : outcome (Z * phys) :=
  p ← lock_phys p;
  while (alloc_phys_frames_step num) (4, 256, p).

(** [while (pos < mm_limit && bitmap64_get(mm_table, pos) == 0) pos += pos_inc;] *)
Definition find_set_aligned_step (p : phys) (pos_inc pos : Z) : outcome (Z + Z) :=
  if pos <? mm_limit p then
    b ← bitmap64_get (mm_table p) pos;
    if b =? 0 then Ok (inl (pos +w pos_inc)) else Ok (inr pos)
  else Ok (inr pos).

Definition count_run_limit_step (p : phys) (num : Z) (s : Z * Z) : outcome ((Z * Z) + (Z * Z)) :=
  let '(cur, count) := s in
  if (count <? num) && (cur <? mm_limit p) then
    b ← bitmap64_get (mm_table p) cur;
    if negb (b =? 0) then Ok (inl (cur +w 1, count +w 1)) else Ok (inr (cur, count))
  else Ok (inr (cur, count)).

Definition alloc_phys_frames_aligned_step (num pos_inc i_inc : Z) (s : Z * Z * phys) :
    outcome ((Z * Z * phys) + (Z * phys)) :=
  let '(i, pos, p) := s in
  if i <? entry_end p then
    w ← arr_get (mm_table p) i;
    if negb (w =? 0) then
      pos ← while (find_set_aligned_step p pos_inc) pos;
      '(cur, count) ← while (count_run_limit_step p num) (pos, 0);
      if count =? num then
        r ← take_run p pos num; Ok (inr r)
      else if mm_limit p <=? cur then Ok (inr (0, unlock_phys p))
      else
        let pos := cur +w 1 in
        remain ← mod64 pos pos_inc;
        let pos := if negb (remain =? 0) then pos +w pos_inc -w remain else pos in
        Ok (inl (pos >>w 6, pos, p))
    else if 0 <? i_inc then Ok (inl (i +w i_inc, pos +w pos_inc, p))
    else Ok (inl (i +w 1, pos +w 64, p))
  else Ok (inr (0, unlock_phys p)).

Definition alloc_phys_frames_aligned (p : phys) (num align : Z) : outcome (Z * phys) :=
  let pos_inc := align >>w PG_BITS in
  let i_inc := pos_inc >>w 6 in
  p ← lock_phys p;
  let i := if i_inc <=? 4 then 4 else i_inc in
  let pos := i <<w 6 in
  while (alloc_phys_frames_aligned_step num pos_inc i_inc) (i, pos, p).

(** ** Invariant and abstract view *)

Definition page_free (p : phys) (n : Z) : bool := bm_test (mm_table p) n.

Record phys_wf (p : phys) : Prop := {
  wf_table : arr_wf (mm_table p);
  wf_len : arr_len (mm_table p) = 262144;
  wf_lock : lock_free (phy_lock p);
  wf_limit : 0 <= mm_limit p <= 64 * 262144;
  wf_end : entry_end p = (mm_limit p + 63) / 64
}.

(** What an operation does to the frames: those in [P] become [v], the others
    keep their state, the limits stay, and the lock is free again. *)
Record phys_upd (p p' : phys) (P : Z → bool) (v : bool) : Prop := {
  upd_wf : phys_wf p';
  upd_limit : mm_limit p' = mm_limit p;
  upd_end : entry_end p' = entry_end p;
  upd_free : ∀ n, 0 <= n → page_free p' n = if P n then v else page_free p n
}.

Definition locked (p : phys) : phys :=
  with_lock p (Spinlock (u16 (next (phy_lock p) + 1)) (owner (phy_lock p))).

(** The constants of Layout.v as numerals, for [lia]. *)
Ltac consts :=
  change PG_SIZE with 4096 in *; change PG_BITS with 12 in *;
  change MM_TABLE_MAX with 262144 in *.

Lemma phys_init_wf : phys_wf phys_init.
Proof.
  split; simpl; [by apply arr_wfb_sound|done|apply lock_free_unlocked|lia|done].
Qed.

Lemma lock_phys_ok p : phys_wf p → lock_phys p = Ok (locked p).
Proof. intros Hp. unfold lock_phys. by rewrite (spin_lock_free _ (wf_lock _ Hp)). Qed.

Lemma lock_phys_bind {A} p (k : phys → outcome A) : phys_wf p →
  (p ← lock_phys p; k p) = k (locked p).
Proof. intros Hp. by rewrite lock_phys_ok. Qed.

Lemma locked_table p : mm_table (locked p) = mm_table p.
Proof. done. Qed.
Lemma locked_end p : entry_end (locked p) = entry_end p.
Proof. done. Qed.
Lemma locked_limit p : mm_limit (locked p) = mm_limit p.
Proof. done. Qed.

Lemma phys_upd_intro p t P v : phys_wf p → bm_upd (mm_table p) t P v →
  phys_upd p (unlock_phys (with_table (locked p) t)) P v.
Proof.
  intros [] (Ht & Hl & Hbits). split; simpl; try done. split; simpl; auto; [congruence|].
  by apply (lock_cycle_free (phy_lock p)).
Qed.

(** An operation that only takes and releases the lock. *)
Lemma phys_upd_none p v : phys_wf p → phys_upd p (unlock_phys (locked p)) (fun _ => false) v.
Proof. intros Hp. apply (phys_upd_intro p (mm_table p)); [done|]. by split; [apply Hp|]. Qed.

Lemma phys_upd_ext p p' P P' v : phys_upd p p' P v → (∀ n, 0 <= n → P n = P' n) →
  phys_upd p p' P' v.
Proof. intros [] HP. split; auto. intros n Hn. by rewrite <- HP, upd_free0. Qed.

Lemma end_bounds p : phys_wf p →
  0 <= entry_end p <= 262144 ∧ mm_limit p <= 64 * entry_end p < mm_limit p + 64.
Proof. intros []. dlia. Qed.

Lemma shiftr_12 n : Z.shiftr n 12 = n / 4096.
Proof. rewrite Z.shiftr_div_pow2 by lia. done. Qed.

Lemma page_number n : n >>w PG_BITS = n / 4096.
Proof. apply shiftr_12. Qed.

Lemma shl12 n : 0 <= n <= 64 * 262144 → n <<w 12 = n * 4096.
Proof. intros Hn. rewrite Z.shiftl_mul_pow2 by lia. apply u64_id. unfold is_u64. lia. Qed.

Lemma shl6 n : 0 <= n <= 262144 + 64 → n <<w 6 = 64 * n.
Proof. intros Hn. rewrite Z.shiftl_mul_pow2, u64_id by (unfold is_u64; lia). lia. Qed.

(** ** Marking ranges *)

Lemma physical_free_range_ok p begin length :
  phys_wf p → 0 <= begin → 0 <= length → begin + length <= 64 * 262144 * 4096 →
  (begin + 4095) / 4096 <= (begin + length) / 4096 →
  ∃ p', physical_free_range p begin length = Ok p' ∧
    phys_upd p p' (in_range ((begin + 4095) / 4096) ((begin + length) / 4096)) true.
Proof.
  intros Hp Hb Hl Hend Hpages. unfold physical_free_range. rewrite lock_phys_ok by done.
  consts. rewrite !shiftr_12. rewrite (u64_id (begin + length)) by (unfold is_u64; lia).
  assert (∀ lo len, lo = (begin + 4095) / 4096 → lo + len = (begin + length) / 4096 →
    ∃ p', (t ← bitmap64_set_range (mm_table (locked p)) lo len;
           Ok (unlock_phys (with_table (locked p) t))) = Ok p' ∧
    phys_upd p p' (in_range ((begin + 4095) / 4096) ((begin + length) / 4096)) true) as Hgen.
  { intros lo len Hlo Hlen. destruct (bitmap64_set_range_ok (mm_table p) lo len)
      as (t & Ht & Hupd); try (rewrite ?(wf_len _ Hp); dlia); [apply Hp|].
    change (mm_table (locked p)) with (mm_table p). rewrite Ht. run. eexists. split; [done|]. apply phys_upd_intro; [done|].
    by rewrite <- Hlo, <- Hlen. }
  run. destruct (Z.eqb_spec (begin mod 4096) 0); apply Hgen; unfold u64; dlia.
Qed.

Lemma physical_take_range_ok p begin length :
  phys_wf p → 0 <= begin → 0 <= length → begin + length <= 64 * 262144 * 4096 →
  ∃ p', physical_take_range p begin length = Ok p' ∧
    phys_upd p p' (in_range (begin / 4096) ((begin + length + 4095) / 4096)) false.
Proof.
  intros Hp Hb Hl Hend. unfold physical_take_range. rewrite lock_phys_ok by done.
  consts. rewrite !shiftr_12. rewrite (u64_id (begin + length)) by (unfold is_u64; lia).
  assert (∀ len, begin / 4096 + len = (begin + length + 4095) / 4096 →
    ∃ p', (t ← bitmap64_clear_range (mm_table (locked p)) (begin / 4096) len;
           Ok (unlock_phys (with_table (locked p) t))) = Ok p' ∧
    phys_upd p p' (in_range (begin / 4096) ((begin + length + 4095) / 4096)) false) as Hgen.
  { intros len Hlen. destruct (bitmap64_clear_range_ok (mm_table p) (begin / 4096) len)
      as (t & Ht & Hupd); try (rewrite ?(wf_len _ Hp); dlia); [apply Hp|].
    change (mm_table (locked p)) with (mm_table p). rewrite Ht. run. eexists. split; [done|]. apply phys_upd_intro; [done|].
    by rewrite <- Hlen. }
  run. destruct (Z.eqb_spec ((begin + length) mod 4096) 0); apply Hgen; unfold u64; dlia.
Qed.

(** A range that starts inside a page and ends before the next page boundary:
    the page count is negative and becomes 2^52 - 1. *)
Lemma physical_free_range_small p begin length :
  phys_wf p → 0 <= begin → 0 <= length → begin + length < 2 ^ 63 →
  (begin + length) / 4096 < (begin + 4095) / 4096 →
  physical_free_range p begin length = Fault.
Proof.
  intros Hp Hb Hl Hend Hsmall. unfold physical_free_range. rewrite lock_phys_ok by done.
  consts. rewrite !shiftr_12. rewrite (u64_id (begin + length)) by (unfold is_u64; lia). run.
  destruct (Z.eqb_spec (begin mod 4096) 0); [dlia|].
  change (mm_table (locked p)) with (mm_table p).
  rewrite bitmap64_set_range_fault; [done|rewrite ?(wf_len _ Hp); unfold u64; dlia..].
Qed.

Lemma physical_set_limit_ok p limit :
  phys_wf p → 0 <= limit <= 64 * 262144 * 4096 →
  ∃ p', physical_set_limit p limit = Ok p' ∧ phys_wf p' ∧ mm_table p' = mm_table p ∧
    mm_limit p' = limit / 4096.
Proof.
  intros Hp Hl. unfold physical_set_limit. rewrite lock_phys_ok by done. consts. run.
  rewrite !shiftr_12, !shiftr_6, land_63. eexists. split; [done|].
  split; [|done]. destruct Hp. split; simpl; auto; [|dlia|].
  - by apply (lock_cycle_free (phy_lock p)).
  - zcase; [rewrite u64_id by (unfold is_u64; dlia)|]; dlia.
Qed.

(** ** Single frames *)

(** [x & (-x)] keeps the lowest one of [x]. *)
Lemma land_opp p : Z.land (Zpos p) (- Zpos p) = 2 ^ pos_ctz p.
Proof.
  induction p as [p IH|p IH|]; [| |done].
  - simpl pos_ctz. apply Z.bits_inj'. intros n Hn. rewrite Z.land_spec, testbit_pow2 by lia.
    rewrite (Pos2Z.inj_xI p). replace (- (2 * Zpos p + 1)) with (2 * Z.lnot (Zpos p) + 1)
      by (unfold Z.lnot; lia).
    destruct (Z.eqb_spec n 0) as [->|]; [by rewrite !Z.testbit_odd_0|].
    replace n with (Z.succ (n - 1)) by lia. rewrite !Z.testbit_odd_succ by lia.
    rewrite Z.lnot_spec by lia. by destruct (Z.testbit _ _).
  - simpl pos_ctz. pose proof (pos_ctz_nonneg p). rewrite (Pos2Z.inj_xO p).
    replace (- (2 * Zpos p)) with (2 * - Zpos p) by lia.
    rewrite Z.pow_add_r, <- IH by lia. change (2 ^ 1) with 2.
    rewrite (Z.mul_comm (Z.land _ _)). apply Z.bits_inj'. intros n Hn. rewrite Z.land_spec.
    destruct (Z.eq_dec n 0) as [->|]; [by rewrite !Z.testbit_even_0|].
    replace n with (Z.succ (n - 1)) by lia. rewrite !Z.testbit_even_succ by lia.
    by rewrite Z.land_spec.
Qed.

Lemma land_u64_opp w : is_u64 w → Z.land w (u64 (- w)) = Z.land w (- w).
Proof.
  intros Hw. apply Z.bits_inj'. intros n Hn. rewrite !Z.land_spec, testbit_u64 by done.
  destruct (Z.ltb_spec n 64); [done|]. by rewrite testbit_high.
Qed.

Lemma pos_ctz_lt p : is_u64 (Zpos p) → 0 <= pos_ctz p < 64.
Proof.
  intros Hp. split; [apply pos_ctz_nonneg|]. apply Z.nle_gt. intros Hge.
  destruct (pos_ctz_spec p) as [Hb _]. by rewrite testbit_high in Hb.
Qed.

Lemma shiftr_pow2 k : 1 <= k → Z.shiftr (2 ^ k) 1 = 2 ^ (k - 1).
Proof.
  intros Hk. rewrite Z.shiftr_div_pow2 by lia. change (2 ^ 1) with 2.
  replace (2 ^ k) with (2 ^ (k - 1) * 2); [apply Z.div_mul; lia|].
  rewrite Z.mul_comm, <- Z.pow_succ_r by lia. f_equal. lia.
Qed.

Lemma lowest_bit_ok p : is_u64 (Zpos p) → lowest_bit (Zpos p) = Ok (pos_ctz p).
Proof.
  intros Hp. pose proof (pos_ctz_lt p Hp) as Hk. unfold lowest_bit.
  rewrite land_u64_opp, land_opp by done. set (k := pos_ctz p) in *.
  enough (wp (while (fun '(data, pos) =>
    if negb (data =? 0) then Ok (inl (data >>w 1, u8 (pos + 1))) else Ok (inr pos))
    (2 ^ k >>w 1, 0)) (fun r => r = k)) as Hw.
  { apply wp_ok in Hw as (r & -> & ->). done. }
  apply (wp_while _ (fun '(data, pos) =>
    0 <= pos <= k ∧ data = if pos =? k then 0 else 2 ^ (k - pos - 1)) fst).
  - intros [data pos] [Hpos ->]. destruct (Z.eqb_spec pos k) as [->|]; [done|].
    assert (0 < 2 ^ (k - pos - 1)) by lia.
    destruct (Z.eqb_spec (2 ^ (k - pos - 1)) 0); [lia|]. simpl.
    rewrite u8_id by (unfold is_u8; lia). split; [split; [lia|]|].
    + destruct (Z.eqb_spec (pos + 1) k) as [<-|].
      * replace (pos + 1 - pos - 1) with 0 by lia. done.
      * rewrite shiftr_pow2 by lia. f_equal. lia.
    + rewrite Z.shiftr_div_pow2 by lia. change (2 ^ 1) with 2. dlia.
  - split; [lia|]. destruct (Z.eqb_spec 0 k) as [<-|]; [done|]. rewrite shiftr_pow2 by lia.
    f_equal. lia.
  - simpl. rewrite Z.shiftr_div_pow2 by lia.
    assert (2 ^ k < 2 ^ 64) by (apply Z.pow_lt_mono_r; lia). change (2 ^ 1) with 2. dlia.
Qed.

(** No frame of an empty word is free. *)
Lemma empty_word p i n : arr_word (mm_table p) i = 0 → n / 64 = i → page_free p n = false.
Proof. intros Hw <-. unfold page_free, bm_test. rewrite Hw. apply Z.testbit_0_l. Qed.

(** The result of a scan for one free frame among [lo, hi). *)
Definition frame_found (p : phys) (lo hi r : Z) (p' : phys) : Prop :=
  ∃ n, r = 4096 * n ∧ lo <= n < hi ∧ page_free p n = true ∧
    (∀ m, lo <= m < n → page_free p m = false) ∧ phys_upd p p' (Z.eqb n) false.

Definition frame_missing (p : phys) (lo hi r : Z) (p' : phys) : Prop :=
  r = 0 ∧ (∀ m, lo <= m < hi → page_free p m = false) ∧ phys_upd p p' (fun _ => false) false.

Lemma take_lowest_ok p i q :
  phys_wf p → 0 <= i < 262144 → arr_word (mm_table p) i = Zpos q →
  let n := 64 * i + pos_ctz q in
  wp (take_lowest (locked p) i (Zpos q))
    (fun '(r, p') => r = 4096 * n ∧ page_free p n = true ∧
       (∀ m, 64 * i <= m < n → page_free p m = false) ∧ phys_upd p p' (Z.eqb n) false).
Proof.
  intros Hp Hi Hw n. assert (is_u64 (Zpos q)) as Hu by (rewrite <- Hw; apply Hp).
  pose proof (pos_ctz_lt _ Hu) as Hk. destruct (pos_ctz_spec q) as [Hb1 Hb2].
  unfold take_lowest. rewrite lowest_bit_ok by done. run. unfold clear_bit64, shl64.
  destruct (Z.leb_spec 0 (pos_ctz q)), (Z.ltb_spec (pos_ctz q) 64); try lia. cbn [andb]. run.
  apply wp_bind, wp_arr_set; [change (mm_table (locked p)) with (mm_table p); by rewrite (wf_len _ Hp)|]. intros t Ht. consts.
  split; [|split; [|split]].
  - rewrite shl6 by lia. rewrite (u64_id (64 * i + _)) by (unfold is_u64; lia).
    rewrite shl12 by lia. lia.
  - unfold page_free, n. rewrite bm_test_eq by done. by rewrite Hw.
  - intros m Hm. unfold page_free. replace m with (64 * i + (m - 64 * i)) by lia.
    rewrite bm_test_eq by lia. rewrite Hw. apply Hb2. lia.
  - apply phys_upd_intro; [done|]. eapply bm_upd_word; [apply Hp| |exact Ht|..].
    + apply is_u64_land; [done|apply u64_range].
    + intros m Hm Hne. apply Z.eqb_neq. dlia.
    + intros k Hkk. rewrite testbit_clear, Hw by (done || lia). unfold n.
      destruct (Z.eqb_spec k (pos_ctz q)) as [->|]; zcase; done || lia.
Qed.

Lemma alloc_frame_scan_ok p lo hi :
  phys_wf p → 0 <= lo → hi <= 262144 →
  wp (while (alloc_frame_step hi) (lo, locked p)) (fun '(r, p') =>
    frame_found p (64 * lo) (64 * hi) r p' ∨ frame_missing p (64 * lo) (64 * hi) r p').
Proof.
  intros Hp Hlo Hhi. apply (wp_while _ (fun '(i, p1) => p1 = locked p ∧ lo <= i ∧
    ∀ m, 64 * lo <= m < 64 * i → page_free p m = false)
    (fun '(i, _) => Z.max 0 (hi - i))); [|split_and!; done || lia|lia].
  intros [i p1] (-> & Hi & Hnone). unfold alloc_frame_step. zcase; run.
  - change (mm_table (locked p)) with (mm_table p).
    rewrite arr_get_ok by (rewrite (wf_len _ Hp); lia). run.
    destruct (arr_word (mm_table p) i) as [|q|q] eqn:Hw; cbn [Z.eqb negb].
    + cbn. rewrite u64_id by (unfold is_u64; lia). split_and!; try done; try lia.
      intros m Hm. destruct (Z.lt_ge_cases m (64 * i)); [apply Hnone; lia|].
      apply (empty_word p i); [done|dlia].
    + apply wp_bind. eapply wp_mono; [by apply take_lowest_ok; [|lia|]|].
      intros [r p'] (-> & Hf & Hn & Hu). left.
      assert (0 <= pos_ctz q < 64) by (apply pos_ctz_lt; rewrite <- Hw; apply Hp).
      exists (64 * i + pos_ctz q). split_and!; auto; [lia..|].
      intros m Hm. destruct (Z.lt_ge_cases m (64 * i)); [apply Hnone|apply Hn]; lia.
    + pose proof (wf_table _ Hp i) as Hneg. rewrite Hw in Hneg. unfold is_u64 in Hneg. lia.
  - right. split_and!; [done| |by apply phys_upd_none].
    intros m Hm. apply Hnone. lia.
Qed.

(** ** Contiguous frames *)

Lemma wpx_bitmap64_get t n (Q : Z → Prop) P (F : Prop) : arr_wf t → 0 <= n →
  (n < 64 * arr_len t → Q (if bm_test t n then 1 else 0)) → (64 * arr_len t <= n → F) →
  wpx (bitmap64_get t n) Q P F.
Proof.
  intros Ht Hn HQ HF. destruct (Z.lt_ge_cases n (64 * arr_len t)).
  - rewrite bitmap64_get_ok by done. by apply HQ.
  - unfold bitmap64_get. rewrite shiftr_6, arr_get_fault by dlia. by apply HF.
Qed.

(** The search for the next free page; it runs off the table exactly when
    there is none. *)
Lemma find_set_ok t pos P : arr_wf t → 64 * arr_len t < 2 ^ 63 → 0 <= pos →
  wpx (while (find_set_step t) pos)
    (fun r => pos <= r < 64 * arr_len t ∧ bm_test t r = true ∧
              ∀ m, pos <= m < r → bm_test t m = false) P
    (∀ m, pos <= m < 64 * arr_len t → bm_test t m = false).
Proof.
  intros Ht Hlen Hpos. apply (wpx_while _
    (fun r => pos <= r ∧ ∀ m, pos <= m < r → bm_test t m = false)
    (fun r => Z.max 0 (64 * arr_len t - r))); [|split; [lia|intros; lia]|lia].
  intros r [Hr Hnone]. unfold find_set_step. apply wpx_bind, wpx_bitmap64_get; [done|lia| |].
  - intros Hlt. destruct (bm_test t r) eqn:Hb; cbn [Z.eqb wpx].
    + split_and!; done || lia.
    + rewrite u64_id by (unfold is_u64; lia). split; [|lia]. split; [lia|].
      intros m Hm. destruct (Z.eq_dec m r) as [->|]; [done|]. apply Hnone. lia.
  - intros Hge m Hm. apply Hnone. lia.
Qed.

(** The count of the free pages from [pos] on, up to [num]. *)
Lemma count_run_ok t num pos P : arr_wf t → 64 * arr_len t < 2 ^ 63 → 0 <= pos → is_u64 num →
  wpx (while (count_run_step t num) (pos, 0))
    (fun '(cur, count) => cur = pos + count ∧ 0 <= count <= num ∧
       (∀ m, pos <= m < cur → bm_test t m = true) ∧
       (0 < count → cur <= 64 * arr_len t) ∧
       (count < num → bm_test t cur = false)) P
    (64 * arr_len t < pos + num ∧ ∀ m, pos <= m < 64 * arr_len t → bm_test t m = true).
Proof.
  intros Ht Hlen Hpos Hnum. apply (wpx_while _
    (fun '(cur, count) => cur = pos + count ∧ 0 <= count <= num ∧
       (0 < count → cur <= 64 * arr_len t) ∧ ∀ m, pos <= m < cur → bm_test t m = true)
    (fun '(cur, count) => num - count));
    [|ulia || split_and!; try done; try ulia; intros; lia|ulia].
  intros [cur count] (-> & Hc & Hle & Hall). unfold count_run_step.
  zcase; [|simpl; split_and!; auto; lia]. apply wpx_bind, wpx_bitmap64_get; [done|lia| |].
  - intros Hlt. destruct (bm_test t (pos + count)) eqn:Hb; cbn [Z.eqb negb wpx].
    + rewrite !u64_id by (unfold is_u64 in *; lia). split_and!; try lia.
      intros m Hm. destruct (Z.eq_dec m (pos + count)) as [->|]; [done|]. apply Hall. lia.
    + split_and!; auto; lia.
  - intros Hge. split; [lia|]. intros m Hm. apply Hall. lia.
Qed.

(** A run of [num] frames handed out. *)
Definition run_taken (p : phys) (num r : Z) (p' : phys) : Prop :=
  ∃ n, r = 4096 * n ∧ (256 <= n ∧ n + num <= 2 ^ 24) ∧ (∀ m, n <= m < n + num → page_free p m = true) ∧
    phys_upd p p' (in_range n (n + num)) false.

(** A run of free frames with 63 frames of slack. *)
Definition slack_run (p : phys) (num q : Z) : Prop :=
  256 <= q ∧ q + num + 63 <= 64 * entry_end p ∧
  ∀ m, q <= m < q + num + 63 → page_free p m = true.

Lemma take_run_ok p pos num :
  phys_wf p → 0 <= pos → 0 <= num → pos + num <= 64 * 262144 →
  wp (take_run (locked p) pos num)
    (fun '(r, p') => r = 4096 * pos ∧ phys_upd p p' (in_range pos (pos + num)) false).
Proof.
  intros Hp Hpos Hnum Hle. unfold take_run. change (mm_table (locked p)) with (mm_table p).
  destruct (bitmap64_clear_range_ok (mm_table p) pos num) as (t & -> & Ht);
    try (rewrite ?(wf_len _ Hp); lia); [apply Hp|]. run. consts.
  split; [rewrite shl12; lia|]. by apply phys_upd_intro.
Qed.

Definition frames_inv (p : phys) (num : Z) (s : Z * Z * phys) : Prop :=
  let '(i, pos, p1) := s in
  p1 = locked p ∧ i = pos / 64 ∧ 256 <= pos < 2 ^ 32 ∧
  ∀ q, slack_run p num q → pos <= q + 63.

(** A slack run that starts 63 frames before [pos], or later, is not empty at
    the larger of its start and [pos]. *)
Lemma slack_at p num pos q : 1 <= num → slack_run p num q → pos <= q + 63 →
  page_free p (Z.max pos q) = true ∧ Z.max pos q < 64 * entry_end p.
Proof. intros Hn (H1 & H2 & H3) Hpos. split; [apply H3|]; lia. Qed.

Lemma slack_skip_word p num pos q : 1 <= num → 0 <= pos → slack_run p num q →
  pos <= q + 63 → arr_word (mm_table p) (pos / 64) = 0 → pos + 64 <= q + 63.
Proof.
  intros Hn Hp0 Hq Hpos Hw. destruct (slack_at p num pos q Hn Hq Hpos) as [Hf _].
  destruct (Z.eq_dec (Z.max pos q / 64) (pos / 64)) as [He|He].
  - by rewrite (empty_word p (pos / 64) _ Hw He) in Hf.
  - dlia.
Qed.

(** The run found at [pos] is too short: the slack run is behind it. *)
Lemma slack_skip_run p num pos cur q : 1 <= num → slack_run p num q → pos <= q + 63 →
  cur < pos + num → page_free p cur = false → pos <= cur → cur + 1 <= q + 63.
Proof.
  intros Hn (H1 & H2 & H3) Hpos Hcur Hf Hle.
  destruct (Z.lt_ge_cases cur q); [lia|]. destruct (Z.lt_ge_cases cur (q + num + 63)).
  - rewrite H3 in Hf; [done|lia].
  - lia.
Qed.

Lemma alloc_phys_frames_round p num s :
  phys_wf p → 1 <= num < 2 ^ 64 → frames_inv p num s →
  wpx (alloc_phys_frames_step num s) (fun x => match x with
    | inl s' => frames_inv p num s' ∧
        0 <= Z.max 0 (2 ^ 32 - s'.1.2) < Z.max 0 (2 ^ 32 - s.1.2)
    | inr (r, p') => run_taken p num r p' ∨
        (r = 0 ∧ (∀ q, ¬ slack_run p num q) ∧ phys_upd p p' (fun _ => false) false)
    end) no_panic (∀ q, ¬ slack_run p num q).
Proof.
  intros Hp Hnum. destruct s as [[i pos] p1]. intros (-> & -> & Hpos & Hslack). cbn [fst snd].
  unfold alloc_phys_frames_step. change (entry_end (locked p)) with (entry_end p).
  change (mm_table (locked p)) with (mm_table p). pose proof (end_bounds _ Hp) as [He _].
  zcase.
  2: { right. split_and!; [done| |by apply phys_upd_none].
       intros q Hq. destruct (slack_at p num pos q ltac:(lia) Hq (Hslack q Hq)). dlia. }
  rewrite arr_get_ok by (rewrite (wf_len _ Hp); dlia). run.
  destruct (Z.eqb_spec (arr_word (mm_table p) (pos / 64)) 0) as [Hw|Hw]; cbn [negb].
  { cbn. rewrite !u64_id by (unfold is_u64; dlia). split; [|lia].
    split_and!; [done|dlia|dlia|dlia|]. intros q Hq.
    by apply (slack_skip_word p num); [lia|lia| |apply Hslack|]. }
  pose proof (wf_len _ Hp) as Hlen.
  apply wpx_bind. eapply wpx_mono;
    [apply (find_set_ok (mm_table p) pos no_panic); [apply Hp|rewrite Hlen; lia|lia]| | |].
  2: { intros m []. }
  2: { intros Hnone q Hq. destruct (slack_at p num pos q ltac:(lia) Hq (Hslack q Hq)) as [Hf ?].
       unfold page_free in Hf. rewrite Hnone in Hf; [done|]. rewrite Hlen. lia. }
  intros pos' (Hpos' & Hset & Hbefore). rewrite Hlen in Hpos'.
  assert (∀ q, slack_run p num q → pos' <= q + 63) as Hslack'.
  { intros q Hq. destruct (slack_at p num pos q ltac:(lia) Hq (Hslack q Hq)) as [Hf ?].
    destruct (Z.lt_ge_cases (Z.max pos q) pos'); [|specialize (Hslack q Hq); lia].
    unfold page_free in Hf. rewrite Hbefore in Hf; [done|lia]. }
  apply wpx_bind. eapply wpx_mono;
    [apply (count_run_ok (mm_table p) num pos' no_panic);
      [apply Hp|rewrite Hlen; lia|lia|unfold is_u64; lia]| | |].
  2: { intros m []. }
  2: { rewrite Hlen. intros [Hlong _] q Hq. specialize (Hslack' q Hq). destruct Hq. lia. }
  intros [cur count] (-> & Hc & Hall & Hle & Hstop). rewrite Hlen in Hle. zcase.
  - subst count. apply wpx_bind, wp_wpx. eapply wp_mono.
    + apply (take_run_ok p pos' num); [done|lia..].
    + intros [r p'] [-> Hu]. left. exists pos'. split_and!; [done|lia|lia|done|done].
  - cbn. rewrite !u64_id by (unfold is_u64; lia). rewrite shiftr_6.
    split; [|lia]. split_and!; [done|done|lia|lia|].
    intros q Hq. apply (slack_skip_run p num pos'); try done; try lia.
    + by apply Hslack'.
    + apply Hstop. lia.
Qed.

Lemma alloc_phys_frames_ok p num :
  phys_wf p → 1 <= num < 2 ^ 64 →
  wpx (alloc_phys_frames p num) (fun '(r, p') => run_taken p num r p' ∨
        (r = 0 ∧ (∀ q, ¬ slack_run p num q) ∧ phys_upd p p' (fun _ => false) false))
    no_panic (∀ q, ¬ slack_run p num q).
Proof.
  intros Hp Hnum. unfold alloc_phys_frames. rewrite lock_phys_ok by done. run.
  apply (wpx_while _ (frames_inv p num) (fun s => Z.max 0 (2 ^ 32 - s.1.2))).
  - intros s Hs. by apply alloc_phys_frames_round.
  - split_and!; [done|done|lia|lia|]. intros q [Hq _]. lia.
  - cbn. lia.
Qed.

(** ** Aligned contiguous frames *)

Lemma pow2_vs_64 j : 0 <= j → (2 ^ j <= 32 ∧ (2 ^ j | 64)) ∨ (64 <= 2 ^ j ∧ (64 | 2 ^ j)).
Proof.
  intros Hj. destruct (Z.lt_ge_cases j 6) as [Hlt|Hge]; [left|right].
  - split.
    + apply (Z.pow_le_mono_r 2 j 5); lia.
    + exists (2 ^ (6 - j)). rewrite <- Z.pow_add_r by lia. replace (6 - j + j) with 6 by lia. done.
  - split.
    + apply (Z.pow_le_mono_r 2 6 j); lia.
    + exists (2 ^ (j - 6)). change 64 with (2 ^ 6). rewrite <- Z.pow_add_r by lia. f_equal. lia.
Qed.

(** Two multiples of [inc] less than [inc] apart. *)
Lemma multiple_le inc y n : 0 < inc → (inc | y) → (inc | n) → y < n + inc → y <= n.
Proof. intros Hinc [a ->] [b ->] H. assert (a < b + 1) by nia. nia. Qed.

(** [x] rounded up to a multiple of [inc]: no multiple lies in between. *)
Lemma round_up_next x inc : 0 < inc →
  let y := if x mod inc =? 0 then x else x + inc - x mod inc in
  (inc | y) ∧ x <= y < x + inc ∧ ∀ n, (inc | n) → x <= n → y <= n.
Proof.
  intros Hinc y. pose proof (Z.mod_pos_bound x inc Hinc). pose proof (Z.div_mod x inc ltac:(lia)).
  assert ((inc | y) ∧ x <= y < x + inc) as [Hd Hy].
  { unfold y. destruct (Z.eqb_spec (x mod inc) 0) as [E|E].
    - split; [|lia]. exists (x / inc). lia.
    - split; [|lia]. exists (x / inc + 1). lia. }
  split_and!; auto; [lia..|]. intros n Hn Hxn. apply (multiple_le inc); auto. lia.
Qed.

Section aligned.
Context (p : phys) (num j : Z).
Hypothesis Hp : phys_wf p.
Hypothesis Hnum : 1 <= num < 2 ^ 64.
Hypothesis Hj : 0 <= j <= 51.
Let inc : Z := 2 ^ j.

(** The first page number the scan looks at. *)
Definition first_page : Z := 64 * Z.max 4 (2 ^ j / 64).

(** A run of [num] free frames the allocator may return. *)
Definition aligned_run (n : Z) : Prop :=
  (2 ^ j | n) ∧ first_page <= n ∧ n + num <= mm_limit p ∧
  ∀ m, n <= m < n + num → page_free p m = true.

Lemma inc_bounds : 1 <= inc <= 2 ^ 51.
Proof. unfold inc. split; [lia|apply Z.pow_le_mono_r; lia]. Qed.

Lemma first_page_aligned : (inc | first_page).
Proof.
  unfold first_page, inc. destruct (Z.le_gt_cases j 8) as [Hle|Hgt].
  - assert (2 ^ j <= 256) by (apply (Z.pow_le_mono_r 2 j 8); lia).
    rewrite Z.max_l by dlia. exists (2 ^ (8 - j)). rewrite <- Z.pow_add_r by lia.
    replace (8 - j + j) with 8 by lia. done.
  - assert (256 <= 2 ^ j) by (apply (Z.pow_le_mono_r 2 8 j); lia).
    destruct (pow2_vs_64 j ltac:(lia)) as [[? _]|[_ [b Hb]]]; [lia|].
    rewrite Hb in *. rewrite Z.div_mul by lia. rewrite Z.max_r by lia. exists 1. lia.
Qed.

Lemma find_set_aligned_ok pos : 0 <= pos < 2 ^ 53 →
  wp (while (find_set_aligned_step (locked p) inc) pos)
    (fun r => pos <= r <= Z.max pos (mm_limit p + inc) ∧ (inc | r - pos) ∧
              (r < mm_limit p → page_free p r = true) ∧
              ∀ m, pos <= m < r → (inc | m - pos) → page_free p m = false).
Proof.
  intros Hpos. pose proof inc_bounds. pose proof (wf_limit _ Hp).
  apply (wp_while _ (fun r => pos <= r <= Z.max pos (mm_limit p + inc) ∧ (inc | r - pos) ∧
      ∀ m, pos <= m < r → (inc | m - pos) → page_free p m = false)
    (fun r => Z.max 0 (mm_limit p - r))).
  - intros r (Hr & Hdiv & Hnone). unfold find_set_aligned_step. cbn [mm_limit locked with_lock].
    zcase; [|cbn; split_and!; auto; lia].
    change (mm_table (locked p)) with (mm_table p).
    apply wp_bind, wpx_bitmap64_get; [apply Hp|lia| |rewrite (wf_len _ Hp); lia]. intros _.
    change (bm_test (mm_table p) r) with (page_free p r).
    destruct (page_free p r) eqn:Hb; cbn [Z.eqb].
    + cbn. split_and!; auto; lia.
    + cbn. rewrite u64_id by (unfold is_u64; lia). split; [|lia]. split_and!; [lia..| |].
      * replace (r + inc - pos) with ((r - pos) + inc) by lia.
        apply Z.divide_add_r; [done|apply Z.divide_refl].
      * intros m Hm Hd. destruct (Z.lt_ge_cases m r); [apply Hnone; [lia|done]|].
        destruct (Z.eq_dec m r) as [->|]; [done|]. exfalso.
        pose proof (multiple_le inc (m - pos) (r - pos) ltac:(lia) Hd Hdiv). lia.
  - split_and!; [lia..| |intros; lia]. rewrite Z.sub_diag. apply Z.divide_0_r.
  - lia.
Qed.

Lemma count_run_limit_ok pos : 0 <= pos < 2 ^ 53 →
  wp (while (count_run_limit_step (locked p) num) (pos, 0))
    (fun '(cur, count) => cur = pos + count ∧ 0 <= count <= num ∧
       (∀ m, pos <= m < cur → page_free p m = true) ∧
       (0 < count → cur <= mm_limit p) ∧
       (count < num → cur < mm_limit p → page_free p cur = false)).
Proof.
  intros Hpos. pose proof (wf_limit _ Hp). apply (wp_while _
    (fun '(cur, count) => cur = pos + count ∧ 0 <= count <= num ∧
      (∀ m, pos <= m < cur → page_free p m = true) ∧ (0 < count → cur <= mm_limit p))
    (fun '(cur, count) => num - count)); [|split_and!; [lia..|intros; lia|lia]|lia].
  intros [cur count] (-> & Hc & Hall & Hle). unfold count_run_limit_step.
  cbn [mm_limit locked with_lock]. change (mm_table (locked p)) with (mm_table p).
  destruct (Z.ltb_spec count num), (Z.ltb_spec (pos + count) (mm_limit p)); cbn [andb];
    try (cbn; split_and!; auto; lia).
  apply wp_bind, wpx_bitmap64_get; [apply Hp|lia| |rewrite (wf_len _ Hp); lia]. intros _.
  change (bm_test (mm_table p) (pos + count)) with (page_free p (pos + count)).
  destruct (page_free p (pos + count)) eqn:Hb; cbn [Z.eqb negb].
  - cbn. rewrite !u64_id by (unfold is_u64; lia). split_and!; try lia.
    intros m Hm. destruct (Z.eq_dec m (pos + count)) as [->|]; [done|]. apply Hall. lia.
  - cbn. split_and!; auto; lia.
Qed.

Definition aligned_inv (s : Z * Z * phys) : Prop :=
  let '(i, pos, p1) := s in
  p1 = locked p ∧ i = pos / 64 ∧ (inc | pos) ∧ first_page <= pos < 2 ^ 52 ∧
  (64 <= inc → ∀ n, aligned_run n → pos <= n).

Definition aligned_post (r : Z) (p' : phys) : Prop :=
  (∃ n, r = 4096 * n ∧ aligned_run n ∧ (64 <= inc → ∀ n', aligned_run n' → n <= n') ∧
        phys_upd p p' (in_range n (n + num)) false) ∨
  (r = 0 ∧ (64 <= inc → ∀ n, ¬ aligned_run n) ∧ phys_upd p p' (fun _ => false) false).

(** A word with no free page: the next position of the scan. *)
Lemma aligned_skip_word pos : (inc | pos) → first_page <= pos < 64 * entry_end p →
  (64 <= inc → ∀ n, aligned_run n → pos <= n) → arr_word (mm_table p) (pos / 64) = 0 →
  let s' := if 0 <? inc >>w 6 then (pos / 64 +w (inc >>w 6), pos +w inc, locked p)
            else (pos / 64 +w 1, pos +w 64, locked p) in
  aligned_inv s' ∧ pos < s'.1.2.
Proof.
  intros Hdiv Hpos Hlow Hw. pose proof inc_bounds. pose proof (end_bounds _ Hp).
  assert (0 <= pos) by (unfold first_page in Hpos; lia).
  rewrite shiftr_6. destruct (pow2_vs_64 j ltac:(lia)) as [[Hs Hd]|[Hs Hd]]; fold inc in Hs, Hd.
  - destruct (Z.ltb_spec 0 (inc / 64)); [dlia|]. cbn.
    rewrite !u64_id by (unfold is_u64; dlia). split; [|lia].
    split_and!; [done|dlia|by apply Z.divide_add_r|lia|lia|lia].
  - destruct (Z.ltb_spec 0 (inc / 64)); [|dlia]. cbn.
    rewrite !u64_id by (unfold is_u64; dlia). split; [|lia].
    pose proof (Z.divide_trans _ _ _ Hd Hdiv) as Hd'.
    split_and!; [done| |apply Z.divide_add_r; [done|apply Z.divide_refl]|lia|lia|].
    + destruct Hd as [b ->], Hd' as [c ->]. dlia.
    + intros _ n Hn. pose proof (Hlow Hs n Hn) as Hle. destruct Hn as (Hnd & _ & _ & Hn).
      destruct (Z.eq_dec n pos) as [->|Hne].
      * specialize (Hn pos ltac:(lia)). by rewrite (empty_word p (pos / 64)) in Hn.
      * fold inc in Hnd. apply (multiple_le inc); [lia| |done|lia].
        apply Z.divide_add_r; [done|apply Z.divide_refl].
Qed.
(** The search inside a word keeps every run it has not excluded. *)
Lemma aligned_found_low pos r : (inc | pos) → pos <= r → (inc | r - pos) →
  (∀ m, pos <= m < r → (inc | m - pos) → page_free p m = false) →
  (64 <= inc → ∀ n, aligned_run n → pos <= n) → (64 <= inc → ∀ n, aligned_run n → r <= n).
Proof.
  intros Hdiv Hr Hrd Hnone Hlow Hs n Hn. pose proof (Hlow Hs n Hn).
  destruct (Z.lt_ge_cases n r); [|done]. destruct Hn as (Hnd & _ & _ & Hn).
  specialize (Hn n ltac:(lia)). rewrite Hnone in Hn; [done|lia|].
  by apply Z.divide_sub_r.
Qed.

(** A run that stops short at [cur] excludes every run starting up to [cur]. *)
Lemma aligned_short_low pos cur : pos <= cur < pos + num →
  (cur < mm_limit p → page_free p cur = false) →
  (64 <= inc → ∀ n, aligned_run n → pos <= n) →
  (64 <= inc → ∀ n, aligned_run n → cur + 1 <= n ∧ cur < mm_limit p).
Proof.
  intros Hcur Hf Hlow Hs n Hn. pose proof (Hlow Hs n Hn).
  destruct Hn as (_ & _ & Hlim & Hn). destruct (Z.lt_ge_cases cur n); [lia|].
  assert (cur < mm_limit p) as Hc by lia.
  specialize (Hn cur ltac:(lia)). by rewrite Hf in Hn.
Qed.

Lemma aligned_next_ok cur : 0 <= cur < 2 ^ 53 →
  mod64 (cur +w 1) inc = Ok ((cur + 1) mod inc) ∧
  (let y := if negb ((cur + 1) mod inc =? 0) then (cur +w 1) +w inc -w (cur + 1) mod inc else cur +w 1 in
   (inc | y) ∧ cur + 1 <= y < cur + 1 + inc ∧ ∀ n, (inc | n) → cur + 1 <= n → y <= n).
Proof.
  intros Hcur. pose proof inc_bounds as Hinc. rewrite (u64_id (cur + 1)) by (unfold is_u64; lia).
  pose proof (Z.mod_pos_bound (cur + 1) inc ltac:(lia)). split.
  - unfold mod64. destruct (Z.eqb_spec inc 0); [lia|done].
  - pose proof (round_up_next (cur + 1) inc ltac:(lia)) as Hr. cbn zeta in Hr.
    destruct ((cur + 1) mod inc =? 0); cbn [negb]; [done|].
    rewrite (u64_id (cur + 1 + inc)) by (unfold is_u64; lia).
    rewrite u64_id by (unfold is_u64; lia). done.
Qed.

Lemma aligned_round s : aligned_inv s →
  wp (alloc_phys_frames_aligned_step num inc (inc >>w 6) s) (fun x => match x with
    | inl s' => aligned_inv s' ∧ 0 <= 2 ^ 52 - s'.1.2 < 2 ^ 52 - s.1.2
    | inr (r, p') => aligned_post r p'
    end).
Proof.
  destruct s as [[i pos] p1]. intros (-> & -> & Hdiv & Hpos & Hlow). cbn [fst snd].
  unfold alloc_phys_frames_aligned_step. change (entry_end (locked p)) with (entry_end p).
  change (mm_limit (locked p)) with (mm_limit p).
  change (mm_table (locked p)) with (mm_table p). pose proof (end_bounds _ Hp) as He.
  pose proof inc_bounds as Hinc. assert (256 <= pos) by (unfold first_page in Hpos; lia).
  zcase.
  2: { right. split; [done|]. split; [|by apply phys_upd_none].
       intros Hs n Hn. pose proof (Hlow Hs n Hn). destruct Hn as (_ & _ & Hn & _). dlia. }
  rewrite arr_get_ok by (rewrite (wf_len _ Hp); dlia). run.
  destruct (Z.eqb_spec (arr_word (mm_table p) (pos / 64)) 0) as [Hw|Hw]; cbn [negb].
  { pose proof (aligned_skip_word pos Hdiv ltac:(dlia) Hlow Hw) as Hskip. cbn zeta in Hskip.
    destruct (0 <? inc >>w 6); destruct Hskip as [Hskip Hlt]; (split; [exact Hskip|]);
      destruct Hskip as (_ & _ & _ & ? & _); cbn in *; lia. }
  apply wp_bind. eapply wp_mono; [apply (find_set_aligned_ok pos); lia|].
  intros pos' (Hpos' & Hd' & Hset & Hnone).
  pose proof (aligned_found_low pos pos' Hdiv ltac:(lia) Hd' Hnone Hlow) as Hlow'.
  assert (inc | pos') as Hdiv' by (replace pos' with (pos + (pos' - pos)) by lia; by apply Z.divide_add_r).
  apply wp_bind. eapply wp_mono; [apply (count_run_limit_ok pos'); dlia|].
  intros [cur count] (-> & Hc & Hall & Hle & Hstop). zcase.
  - subst count. apply wp_bind. eapply wp_mono; [apply (take_run_ok p pos' num); [done|dlia..]|].
    intros [r p'] [-> Hu]. left. exists pos'. split_and!; [done| |done|done].
    split_and!; [done|lia|lia|done].
  - pose proof (aligned_short_low pos' (pos' + count) ltac:(lia) ltac:(auto with lia) Hlow') as Hlow''.
    zcase.
    + right. split; [done|]. split; [|by apply phys_upd_none].
      intros Hs q Hq. destruct (Hlow'' Hs q Hq). lia.
    + destruct (aligned_next_ok (pos' + count) ltac:(dlia)) as (-> & Hyd & Hy & Hnext). run.
      set (y := if negb _ then _ else _) in *. split; [|cbn; dlia].
      split_and!; [done|apply shiftr_6|done|lia|dlia|].
      intros Hs q Hq. destruct (Hlow'' Hs q Hq). apply Hnext; [apply Hq|lia].
Qed.

Lemma alloc_phys_frames_aligned_ok :
  wp (alloc_phys_frames_aligned p num (2 ^ (j + 12))) (fun '(r, p') => aligned_post r p').
Proof.
  unfold alloc_phys_frames_aligned. rewrite lock_phys_ok by done. run. consts.
  pose proof inc_bounds as Hinc.
  assert (2 ^ (j + 12) >>w 12 = inc) as ->.
  { rewrite shiftr_12, Z.pow_add_r by lia. apply Z.div_mul. lia. }
  pose proof (shiftr_6 inc) as H6.
  assert ((if inc >>w 6 <=? 4 then 4 else inc >>w 6) = Z.max 4 (inc / 64)) as ->.
  { rewrite H6. zcase; lia. }
  assert (Z.max 4 (inc / 64) <<w 6 = first_page) as ->.
  { rewrite Z.shiftl_mul_pow2, u64_id by (unfold is_u64; dlia || lia). unfold first_page.
    fold inc. lia. }
  apply (wp_while _ aligned_inv (fun s => 2 ^ 52 - s.1.2)).
  - apply aligned_round.
  - assert (64 * (inc / 64) <= inc) by dlia.
    split_and!; [done|unfold first_page; fold inc; dlia| |lia|unfold first_page; fold inc; lia|].
    + apply first_page_aligned.
    + intros _ n Hn. apply Hn.
  - unfold first_page. fold inc. cbn. dlia.
Qed.
End aligned.

(** ** The next free range *)

Definition all_free (p : phys) (lo hi : Z) : Prop := ∀ m, lo <= m < hi → page_free p m = true.
Definition none_free (p : phys) (lo hi : Z) : Prop := ∀ m, lo <= m < hi → page_free p m = false.

Lemma none_free_app p lo mid hi : none_free p lo mid → none_free p mid hi → none_free p lo hi.
Proof. intros H1 H2 m Hm. destruct (Z.lt_ge_cases m mid); [apply H1|apply H2]; lia. Qed.

Lemma all_free_app p lo mid hi : all_free p lo mid → all_free p mid hi → all_free p lo hi.
Proof. intros H1 H2 m Hm. destruct (Z.lt_ge_cases m mid); [apply H1|apply H2]; lia. Qed.

(** [(st, sz)] is the first maximal range of free frames from frame [b] on. *)
Definition range_found (p : phys) (b st sz : Z) : Prop :=
  ∃ s k, st = 4096 * s ∧ sz = 4096 * k ∧ 0 < k ∧ b <= s ∧
    none_free p b s ∧ all_free p s (s + k) ∧ page_free p (s + k) = false.

(** Every frame above the words in use is taken. *)
Definition tail_taken (p : phys) : Prop := ∀ m, 64 * entry_end p <= m → page_free p m = false.

(** [count] free frames end at frame [hi], and none is free before them. *)
Definition run_to (p : phys) (b hi count : Z) : Prop :=
  0 <= count <= hi - b ∧ none_free p b (hi - count) ∧ all_free p (hi - count) hi.

Lemma count_free_ok p bit end_ :
  phys_wf p → 0 <= bit <= end_ → end_ <= 64 * 262144 →
  wp (while (count_free_step (mm_table p) end_) (bit, 0)) (fun x => match x with
    | inl (st, sz) => range_found p bit st sz
    | inr count => run_to p bit end_ count
    end).
Proof.
  intros Hp Hbit Hend. apply (wp_while _
    (fun '(b, count) => bit <= b <= end_ ∧ run_to p bit b count) (fun '(b, _) => end_ - b));
    [|split; [lia|split_and!; [lia|lia|intros m; lia|intros m; lia]]|lia].
  intros [b count] (Hb & Hc & Hno & Hall). unfold count_free_step. zcase.
  - rewrite bitmap64_check_bit_ok by (rewrite (wf_len _ Hp); lia). run.
    destruct (bm_test (mm_table p) b) eqn:Hbt.
    + cbn. rewrite !u64_id by (unfold is_u64; lia). split; [|lia]. split; [lia|].
      unfold run_to. replace (b + 1 - (count + 1)) with (b - count) by lia.
      split_and!; [lia|lia|done|]. apply (all_free_app p _ b); [done|].
      intros m Hm. by replace m with b by lia.
    + zcase; cbn.
      * exists (b - count), count. rewrite (u64_id (b - count)) by (unfold is_u64; lia). consts.
        rewrite !shl12 by lia. replace (b - count + count) with b by lia.
        split_and!; done || lia.
      * rewrite u64_id by (unfold is_u64; lia). split; [|lia]. split; [lia|].
        replace count with 0 in * by lia. split_and!; [lia|lia| |intros m; lia].
        apply (none_free_app p _ b); [by rewrite Z.sub_0_r in Hno|].
        intros m Hm. by replace m with b by lia.
  - cbn. by replace end_ with b by lia.
Qed.

Lemma skip_empty_ok p i : phys_wf p → 0 <= i <= entry_end p →
  wp (while (skip_empty_step p) i) (fun r => i <= r <= entry_end p ∧
    none_free p (64 * i) (64 * r) ∧ (r < entry_end p → arr_word (mm_table p) r ≠ 0)).
Proof.
  intros Hp Hi. pose proof (end_bounds _ Hp). apply (wp_while _
    (fun r => i <= r <= entry_end p ∧ none_free p (64 * i) (64 * r)) (fun r => entry_end p - r));
    [|split; [lia|intros m; lia]|lia].
  intros r (Hr & Hno). unfold skip_empty_step. zcase; [|cbn; split_and!; done || lia].
  rewrite arr_get_ok by (rewrite (wf_len _ Hp); lia). run.
  destruct (Z.eqb_spec (arr_word (mm_table p) r) 0) as [Hw|Hw]; cbn; [|by split_and!; try lia].
  rewrite u64_id by (unfold is_u64; lia). split; [|lia]. split; [lia|].
  apply (none_free_app p _ (64 * r)); [done|]. intros m Hm. apply (empty_word p r); [done|dlia].
Qed.

(** The trailing ones of a word that is not full. *)
Lemma trailing_ones w : is_u64 w → w ≠ UINT64_MAX →
  ∃ k, count_trailing_zeros_bit64 (~w w) = Ok k ∧ 0 <= k < 64 ∧
    Z.testbit w k = false ∧ ∀ j, 0 <= j < k → Z.testbit w j = true.
Proof.
  intros Hw Hne. assert (is_u64 (~w w)) as Hu by apply u64_range.
  assert (∀ n, 0 <= n < 64 → Z.testbit (~w w) n = negb (Z.testbit w n)) as Hbit.
  { intros n Hn. rewrite testbit_u64, Z.lnot_spec by lia. by destruct (Z.ltb_spec n 64); [|lia]. }
  unfold count_trailing_zeros_bit64. destruct (~w w) as [|q|q] eqn:E.
  - exfalso. apply Hne. unfold u64, Z.lnot in E. unfold is_u64, UINT64_MAX in *. dlia.
  - pose proof (pos_ctz_lt q Hu). destruct (pos_ctz_spec q) as [H1 H2].
    exists (pos_ctz q). rewrite u8_id by (unfold is_u8; lia). split_and!; [done|lia|lia| |].
    + rewrite Hbit in H1 by done. by apply negb_true_iff in H1.
    + intros j Hj. specialize (H2 j Hj). rewrite Hbit in H2 by lia. by apply negb_false_iff in H2.
  - unfold is_u64 in Hu. lia.
Qed.

Lemma full_word p i : arr_word (mm_table p) i = UINT64_MAX → all_free p (64 * i) (64 * i + 64).
Proof.
  intros Hw m Hm. unfold page_free. replace m with (64 * i + (m - 64 * i)) by lia.
  rewrite bm_test_eq, Hw, testbit_UINT64_MAX by lia. by apply Z.ltb_lt; lia.
Qed.

(** A word that is not zero has a free frame. *)
Lemma nonempty_word p i : phys_wf p → 0 <= i → arr_word (mm_table p) i ≠ 0 →
  ¬ none_free p (64 * i) (64 * i + 64).
Proof.
  intros Hp Hi Hw Hno. pose proof (wf_table _ Hp i) as Hu.
  destruct (arr_word (mm_table p) i) as [|q|q] eqn:E; [done| |unfold is_u64 in Hu; lia].
  pose proof (pos_ctz_lt q Hu). destruct (pos_ctz_spec q) as [H1 _].
  specialize (Hno (64 * i + pos_ctz q) ltac:(lia)). unfold page_free in Hno.
  rewrite bm_test_eq, E in Hno by done. congruence.
Qed.

Lemma count_words_ok p b ic :
  phys_wf p → tail_taken p → 0 <= b →
  (let '(i, count) := ic in 0 <= i ∧ run_to p b (64 * i) count ∧
     ((i <= entry_end p ∧ 0 < count) ∨ (i = entry_end p + 1 ∧ count = 0 ∧ i <= 262144))) →
  wp (r ← while (count_words_step p) ic;
      match r with
      | inl found => Ok found
      | inr (i, count) => Ok (((i <<w 6) -w count) <<w PG_BITS, count <<w PG_BITS)
      end) (fun '(st, sz) => range_found p b st sz ∨
        (sz = 0 ∧ (∀ m, b <= m → page_free p m = false) ∧ 4096 * (64 * entry_end p) <= st)).
Proof.
  intros Hp Htail Hb Hic. pose proof (end_bounds _ Hp) as He. consts. apply wp_bind.
  eapply wp_mono; [apply (wp_while _ (fun '(i, count) => 0 <= i ∧ run_to p b (64 * i) count ∧
     ((i <= entry_end p ∧ 0 < count) ∨ (i = entry_end p + 1 ∧ count = 0 ∧ i <= 262144)))
    (fun '(i, _) => Z.max 0 (entry_end p - i)) (fun x => match x with
       | inl (st, sz) => range_found p b st sz
       | inr (i, count) => entry_end p <= i ∧ run_to p b (64 * i) count ∧
         ((i <= entry_end p ∧ 0 < count) ∨ (i = entry_end p + 1 ∧ count = 0 ∧ i <= 262144))
       end))|].
  - intros [i count] (Hi & (Hc & Hno & Hall) & Hcase). unfold count_words_step. zcase;
      [|cbn; split_and!; done || lia].
    rewrite arr_get_ok by (rewrite (wf_len _ Hp); lia). run. zcase; cbn.
    + rewrite !u64_id by (unfold is_u64; lia). split; [|lia]. split; [lia|]. split; [|lia].
      unfold run_to. replace (64 * (i + 1) - (count + 64)) with (64 * i - count) by lia.
      split_and!; [lia|lia|done|]. apply (all_free_app p _ (64 * i)); [done|].
      replace (64 * (i + 1)) with (64 * i + 64) by lia. by apply full_word.
    + destruct (trailing_ones (arr_word (mm_table p) i)) as (k & -> & Hk & Hk0 & Hk1);
        [apply Hp|done|]. cbn. exists (64 * i - count), (count + k).
      rewrite shl6 by lia. rewrite !(u64_id (_ - _)), (u64_id (_ + _)) by (unfold is_u64; lia).
      consts. rewrite !shl12 by lia. replace (64 * i - count + (count + k)) with (64 * i + k) by lia.
      unfold page_free at 1. rewrite bm_test_eq by done. split_and!; try done; try lia.
      apply (all_free_app p _ (64 * i)); [done|]. intros m Hm. unfold page_free.
      replace m with (64 * i + (m - 64 * i)) by lia. rewrite bm_test_eq by lia. apply Hk1. lia.
  - done.
  - destruct ic. lia.
  - intros [[st sz]|[i count]]; [by left|]. intros (Hi & (Hc & Hno & Hall) & Hcase). cbn.
    rewrite shl6 by lia. rewrite (u64_id (64 * i - count)) by (unfold is_u64; lia).
    rewrite !shl12 by lia. destruct Hcase as [[Hi' Hpos]|(-> & -> & Hi')].
    + left. exists (64 * i - count), count. replace (64 * i - count + count) with (64 * i) by lia.
      split_and!; try done; try lia. apply Htail. lia.
    + right. split; [done|]. split; [|lia]. intros m Hm. destruct (Z.lt_ge_cases m (64 * entry_end p)).
      * apply Hno. lia.
      * by apply Htail.
Qed.

Lemma physical_next_free_range_ok p current start size :
  phys_wf p → tail_taken p → entry_end p < 262144 → is_u64 current →
  wp (physical_next_free_range p current start size) (fun '(st, sz) =>
    range_found p (current / 4096) st sz ∨
    (sz = 0 ∧ (∀ m, current / 4096 <= m → page_free p m = false) ∧
     ((st = start ∧ 64 * entry_end p <= current / 4096) ∨ 4096 * (64 * entry_end p) <= st))).
Proof.
  intros Hp Htail Hmax Hcur. pose proof (end_bounds _ Hp) as He.
  unfold physical_next_free_range. consts. rewrite shiftr_12, !shiftr_6.
  assert (0 <= current / 4096 < 2 ^ 52) as Hb by (unfold is_u64 in Hcur; dlia).
  revert Hb. generalize (current / 4096) as b. intros b Hb.
  zcase. { right. split; [done|]. split; [|left; split; [done|dlia]]. intros m Hm. apply Htail. dlia. }
  assert (((b +w 64 -w 1) / 64) *w 64 = 64 * ((b + 63) / 64)) as ->.
  { rewrite (u64_id (b + 64)), (u64_id (b + 64 - 1)), u64_id by (unfold is_u64; dlia). dlia. }
  replace (64 * ((b + 63) / 64) / 64) with ((b + 63) / 64) by dlia.
  assert (b <= 64 * ((b + 63) / 64) ∧ 64 * ((b + 63) / 64) < b + 64 ∧
    (b + 63) / 64 <= entry_end p) as Hbe by dlia.
  revert Hbe. generalize ((b + 63) / 64) as e. intros e Hbe.
  apply wp_bind. eapply wp_mono; [apply (count_free_ok p b (64 * e)); [done|lia..]|].
  intros [[st sz]|count]; [by left|]. intros Hrun. apply wp_bind.
  destruct (Z.eqb_spec count 0) as [->|Hc0].
  - destruct Hrun as (_ & Hno & _). rewrite Z.sub_0_r in Hno. apply wp_bind.
    eapply wp_mono; [apply skip_empty_ok; [done|lia]|]. intros i (Hi & Hno' & Hw).
    rewrite (u64_id (i + 1)), !shl6 by (unfold is_u64 || idtac; lia). apply wp_bind.
    eapply wp_mono; [apply (count_free_ok p (64 * i) (64 * (i + 1))); [done|lia..]|].
    pose proof (none_free_app p _ _ _ Hno Hno') as Hno''.
    intros [[st sz]|count].
    + intros (s & k & -> & -> & Hk & Hs & Hn & Ha & Hf). left. exists s, k.
      split_and!; try done; [lia|]. by apply (none_free_app p _ (64 * i)).
    + intros (Hc & Hn & Ha). cbn. eapply wp_mono; [apply (count_words_ok p b (i + 1, count)); [done|done|lia|]|intros [st sz]; tauto].
      split; [lia|]. split.
      * split_and!; [lia|lia| |done]. by apply (none_free_app p _ (64 * i)).
      * destruct (Z.eq_dec count 0) as [->|]; [|destruct (Z.lt_ge_cases i (entry_end p)); [left; lia|]].
        -- right. split_and!; [|done|lia]. destruct (Z.lt_ge_cases i (entry_end p)); [|lia].
           destruct (nonempty_word p i Hp ltac:(lia) ltac:(auto)).
           by replace (64 * i + 64) with (64 * (i + 1) - 0) by lia.
        -- exfalso. specialize (Ha (64 * (i + 1) - 1) ltac:(lia)). rewrite Htail in Ha; [done|lia].
  - cbn. eapply wp_mono; [apply (count_words_ok p b (e, count)); [done|done|lia|]|intros [st sz]; tauto].
    split_and!; [lia|done|]. left. destruct Hrun. lia.
Qed.

(** ** Giving frames back *)

Lemma free_phys_frame_ok p frame :
  phys_wf p → 0 <= frame < 64 * 262144 * 4096 →
  ∃ p', free_phys_frame p frame = Ok p' ∧ phys_upd p p' (Z.eqb (frame / 4096)) true.
Proof.
  intros Hp Hf. unfold free_phys_frame. rewrite lock_phys_ok by done. run. consts.
  rewrite shiftr_12. change (mm_table (locked p)) with (mm_table p).
  destruct (bitmap64_set_ok (mm_table p) (frame / 4096)) as (t & -> & Ht);
    [apply Hp|rewrite (wf_len _ Hp); dlia|]. run. eexists. split; [done|]. by apply phys_upd_intro.
Qed.

Lemma free_phys_frames_ok p frame num :
  phys_wf p → 0 <= frame → 0 <= num → frame / 4096 + num <= 64 * 262144 →
  ∃ p', free_phys_frames p frame num = Ok p' ∧
    phys_upd p p' (in_range (frame / 4096) (frame / 4096 + num)) true.
Proof.
  intros Hp Hf Hn Hle. unfold free_phys_frames.
  rewrite lock_phys_bind, page_number, locked_table by done.
  destruct (bitmap64_set_range_ok (mm_table p) (frame / 4096) num) as (t & Ht & Hu);
    [apply Hp|dlia|lia|rewrite (wf_len _ Hp); lia|rewrite (wf_len _ Hp); lia|].
  rewrite Ht. eexists. split; [reflexivity|]. by apply phys_upd_intro.
Qed.

(** ** Entry points *)

Lemma alloc_phys_frame_ok p : phys_wf p →
  wp (alloc_phys_frame p) (fun '(r, p') =>
    frame_found p 256 (64 * entry_end p) r p' ∨ frame_missing p 256 (64 * entry_end p) r p').
Proof.
  intros Hp. pose proof (end_bounds _ Hp). unfold alloc_phys_frame. rewrite lock_phys_ok by done.
  run. change (entry_end (locked p)) with (entry_end p).
  pose proof (alloc_frame_scan_ok p 4 (entry_end p) Hp ltac:(lia) ltac:(lia)) as Hs.
  change (64 * 4) with 256 in Hs. exact Hs.
Qed.

Lemma alloc_phys_frame_lowmem_ok p : phys_wf p →
  wp (alloc_phys_frame_lowmem p) (fun '(r, p') =>
    frame_found p 0 256 r p' ∨ frame_missing p 0 256 r p').
Proof.
  intros Hp. unfold alloc_phys_frame_lowmem. rewrite lock_phys_ok by done.
  run. pose proof (alloc_frame_scan_ok p 0 4 Hp ltac:(lia) ltac:(lia)) as Hs.
  change (64 * 4) with 256 in Hs. change (64 * 0) with 0 in Hs. exact Hs.
Qed.

Lemma frame_found_wf p lo hi r p' : frame_found p lo hi r p' → phys_wf p'.
Proof. intros (n & _ & _ & _ & _ & Hu). apply Hu. Qed.
Lemma frame_missing_wf p lo hi r p' : frame_missing p lo hi r p' → phys_wf p'.
Proof. intros (_ & _ & Hu). apply Hu. Qed.
#[export] Hint Resolve frame_found_wf frame_missing_wf upd_wf : rtv.

(** ** The operations as steps of a machine *)

(** A call of the allocator with arguments inside the supported memory: ranges
    that end below MM_PHYSICAL_MAX, and, for [physical_free_range], that
    contain a page boundary. *)
Inductive phys_step (p p' : phys) : Prop :=
  | call_free_range begin length :
      0 <= begin → 0 <= length → begin + length <= 64 * 262144 * 4096 →
      (begin + 4095) / 4096 <= (begin + length) / 4096 →
      physical_free_range p begin length = Ok p' → phys_step p p'
  | call_take_range begin length :
      0 <= begin → 0 <= length → begin + length <= 64 * 262144 * 4096 →
      physical_take_range p begin length = Ok p' → phys_step p p'
  | call_set_limit limit :
      0 <= limit <= 64 * 262144 * 4096 → physical_set_limit p limit = Ok p' → phys_step p p'
  | call_alloc_frame r : alloc_phys_frame p = Ok (r, p') → phys_step p p'
  | call_alloc_lowmem r : alloc_phys_frame_lowmem p = Ok (r, p') → phys_step p p'
  | call_alloc_frames num r :
      1 <= num < 2 ^ 64 → alloc_phys_frames p num = Ok (r, p') → phys_step p p'
  | call_alloc_aligned num j r :
      1 <= num < 2 ^ 64 → 0 <= j <= 51 →
      alloc_phys_frames_aligned p num (2 ^ (j + 12)) = Ok (r, p') → phys_step p p'
  | call_free_frame frame :
      0 <= frame < 64 * 262144 * 4096 → free_phys_frame p frame = Ok p' → phys_step p p'
  | call_free_frames frame num :
      0 <= frame → 0 <= num → frame / 4096 + num <= 64 * 262144 →
      free_phys_frames p frame num = Ok p' → phys_step p p'.

Lemma wpx_elim {A} (o : outcome A) Q P F a : wpx o Q P F → o = Ok a → Q a.
Proof. by intros H ->. Qed.

Lemma phys_step_wf p p' : phys_wf p → phys_step p p' → phys_wf p'.
Proof.
  intros Hp Hs. destruct Hs as [b l H1 H2 H3 H4 E|b l H1 H2 H3 E|l H1 E|r E|r E|num r H1 E|num j r H1 H2 E|f H1 E|f num H1 H2 H3 E].
  - destruct (physical_free_range_ok p b l) as (q & Hq & Hu); auto. rewrite Hq in E.
    injection E as ->. apply Hu.
  - destruct (physical_take_range_ok p b l) as (q & Hq & Hu); auto. rewrite Hq in E.
    injection E as ->. apply Hu.
  - destruct (physical_set_limit_ok p l) as (q & Hq & Hu & _); auto. rewrite Hq in E.
    by injection E as ->.
  - pose proof (wpx_elim _ _ _ _ _ (alloc_phys_frame_ok p Hp) E) as [H|H]; eauto with rtv.
  - pose proof (wpx_elim _ _ _ _ _ (alloc_phys_frame_lowmem_ok p Hp) E) as [H|H]; eauto with rtv.
  - pose proof (wpx_elim _ _ _ _ _ (alloc_phys_frames_ok p num Hp H1) E) as [H|H].
    + destruct H as (n & _ & _ & _ & Hu). apply Hu.
    + destruct H as (_ & _ & Hu). apply Hu.
  - pose proof (wpx_elim _ _ _ _ _ (alloc_phys_frames_aligned_ok p num j Hp H1 H2) E) as [H|H].
    + destruct H as (n & _ & _ & _ & Hu). apply Hu.
    + destruct H as (_ & _ & Hu). apply Hu.
  - destruct (free_phys_frame_ok p f) as (q & Hq & Hu); auto. rewrite Hq in E.
    injection E as ->. apply Hu.
  - destruct (free_phys_frames_ok p f num) as (q & Hq & Hu); auto. rewrite Hq in E.
    injection E as ->. apply Hu.
Qed.

(** ** Properties *)

(** 128 KB in two pieces, below 2.8 MB: the tables the witnesses run on. *)
Definition sample_phys : phys :=
  Phys (U64Array MM_TABLE_MAX {[ 4 := 2 ^ 63; 6 := 3; 9 := UINT64_MAX; 10 := 2 ^ 60 - 1 ]})
    700 11 SPINLOCK_UNLOCKED.

Lemma sample_phys_wf : phys_wf sample_phys.
Proof.
  split; [by apply arr_wfb_sound|done|apply lock_free_unlocked|simpl; lia|done].
Qed.

(** Frames 4096 to 8191 are free. *)
Definition ample_phys : phys :=
  Phys (U64Array MM_TABLE_MAX (list_to_map ((fun k => (k, UINT64_MAX)) <$> seqZ 64 64))) 8192 128 SPINLOCK_UNLOCKED.

Lemma ample_phys_wf : phys_wf ample_phys.
Proof.
  split; [by apply arr_wfb_sound|done|apply lock_free_unlocked|simpl; lia|done].
Qed.

(** C25: the invariant. From the initial state, any sequence of calls (with
    arguments inside the supported memory) that return keeps every word of the
    bitmap a 64-bit value, the array at its size, [entry_end] equal to
    [mm_limit] rounded up to words, and leaves [phy_lock] free. *)
Theorem phys_invariant p : rtc phys_step phys_init p → phys_wf p.
Proof.
  intros Hr. pattern p. refine (rtc_ind_r _ phys_init phys_init_wf _ p Hr).
  intros q q' _ Hs Hq. by eapply phys_step_wf.
Qed.

Lemma phys_invariant_witness :
  ∃ p, rtc phys_step phys_init p ∧ phys_wf p ∧ page_free p 300 = true.
Proof.
  destruct (physical_free_range_ok phys_init 0x100000 0x100000 phys_init_wf) as (p1 & E1 & U1);
    [lia|lia|lia|vm_compute; congruence|].
  destruct (physical_set_limit_ok p1 0x200000 (upd_wf _ _ _ _ U1)) as (p2 & E2 & _ & T2 & _); [lia|].
  assert (rtc phys_step phys_init p2) as Hr.
  { eapply rtc_l; [apply (call_free_range _ _ 0x100000 0x100000);
      [lia|lia|lia|vm_compute; congruence|exact E1]|].
    eapply rtc_l; [apply (call_set_limit _ _ 0x200000); [lia|exact E2]|]. apply rtc_refl. }
  exists p2. split; [exact Hr|]. split; [exact (phys_invariant p2 Hr)|].
  unfold page_free. rewrite T2. apply (upd_free _ _ _ _ U1). lia.
Defined.

(** [alloc_phys_frame_lowmem] searches the first megabyte. *)
Lemma alloc_phys_frame_lowmem_spec p : phys_wf p →
  ∃ r p', alloc_phys_frame_lowmem p = Ok (r, p') ∧ phys_wf p' ∧
    ((∃ n, r = 4096 * n ∧ 0 <= n < 256 ∧ page_free p n = true ∧
        (∀ m, 0 <= m < n → page_free p m = false) ∧
        ∀ m, 0 <= m → page_free p' m = page_free p m && negb (n =? m)) ∨
     (r = 0 ∧ (∀ m, 0 <= m < 256 → page_free p m = false) ∧
        ∀ m, 0 <= m → page_free p' m = page_free p m)).
Proof.
  intros Hp. pose proof (alloc_phys_frame_lowmem_ok p Hp) as Hw.
  apply wp_ok in Hw as ([r p'] & E & H).
  exists r, p'. split; [done|]. destruct H as [(n & -> & Hn & Hf & Hl & Hu)|(-> & Hl & Hu)].
  - split; [apply Hu|]. left. exists n. split_and!; try done; try lia.
    intros m Hm. rewrite (upd_free _ _ _ _ Hu) by done.
    destruct (n =? m); [by rewrite andb_false_r|by rewrite andb_true_r].
  - split; [apply Hu|]. right. split_and!; try done.
    intros m Hm. by rewrite (upd_free _ _ _ _ Hu).
Qed.

(** [alloc_phys_frame] returns the lowest free frame above 1 MB and takes
    it and no other; it returns 0, changing nothing, exactly when there is
    none below [entry_end]; the lock is free again in both cases.
    [alloc_phys_frame_lowmem] does the same in the first megabyte. *)
Theorem alloc_phys_frame_spec p : phys_wf p →
  (∃ r p', alloc_phys_frame p = Ok (r, p') ∧ phys_wf p' ∧
    ((∃ n, r = 4096 * n ∧ 256 <= n < 64 * entry_end p ∧ page_free p n = true ∧
        (∀ m, 256 <= m < n → page_free p m = false) ∧
        ∀ m, 0 <= m → page_free p' m = page_free p m && negb (n =? m)) ∨
     (r = 0 ∧ (∀ m, 256 <= m < 64 * entry_end p → page_free p m = false) ∧
        ∀ m, 0 <= m → page_free p' m = page_free p m))) ∧
  (∃ r p', alloc_phys_frame_lowmem p = Ok (r, p') ∧ phys_wf p' ∧
    ((∃ n, r = 4096 * n ∧ 0 <= n < 256 ∧ page_free p n = true ∧
        (∀ m, 0 <= m < n → page_free p m = false) ∧
        ∀ m, 0 <= m → page_free p' m = page_free p m && negb (n =? m)) ∨
     (r = 0 ∧ (∀ m, 0 <= m < 256 → page_free p m = false) ∧
        ∀ m, 0 <= m → page_free p' m = page_free p m))).
Proof.
  intros Hp. split; [|by apply alloc_phys_frame_lowmem_spec]. pose proof (alloc_phys_frame_ok p Hp) as Hw. apply wp_ok in Hw as ([r p'] & E & H).
  exists r, p'. split; [done|]. destruct H as [(n & -> & Hn & Hf & Hl & Hu)|(-> & Hl & Hu)].
  - split; [apply Hu|]. left. exists n. split_and!; try done; try lia.
    intros m Hm. rewrite (upd_free _ _ _ _ Hu) by done.
    destruct (n =? m); [by rewrite andb_false_r|by rewrite andb_true_r].
  - split; [apply Hu|]. right. split_and!; try done.
    intros m Hm. by rewrite (upd_free _ _ _ _ Hu).
Qed.

Lemma alloc_phys_frame_spec_witness : ∃ p', alloc_phys_frame sample_phys = Ok (0x13F000, p') ∧
  phys_wf p'.
Proof.
  destruct (alloc_phys_frame_spec sample_phys sample_phys_wf) as [(r & p' & E & Hwf & _) _].
  exists p'. split; [|exact Hwf]. rewrite E. f_equal. f_equal.
  assert (match alloc_phys_frame sample_phys with Ok x => x.1 | _ => 0 end = 0x13F000) as H
    by reflexivity.
  rewrite E in H. exact H.
Defined.

(** C24: [physical_free_range] frees exactly the frames that lie entirely inside
    [begin, begin + length), provided the range reaches a page boundary, and
    [physical_take_range] takes exactly the frames that meet the range:
    neither ever hands out a partially available frame. *)
Theorem physical_ranges_exact p begin length :
  phys_wf p → 0 <= begin → 0 < length → begin + length <= 64 * 262144 * 4096 →
  ((begin + 4095) / 4096 <= (begin + length) / 4096 →
   ∃ p', physical_free_range p begin length = Ok p' ∧ phys_wf p' ∧
     ∀ n, 0 <= n → page_free p' n =
       page_free p n || ((begin <=? 4096 * n) && (4096 * n + 4096 <=? begin + length))) ∧
  (∃ p', physical_take_range p begin length = Ok p' ∧ phys_wf p' ∧
     ∀ n, 0 <= n → page_free p' n =
       page_free p n && negb ((4096 * n <? begin + length) && (begin <? 4096 * n + 4096))).
Proof.
  intros Hp Hb Hl He. split.
  - intros Hpages. destruct (physical_free_range_ok p begin length) as (p' & -> & Hu); auto; [lia|].
    exists p'. split; [done|]. split; [apply Hu|]. intros n Hn. rewrite (upd_free _ _ _ _ Hu) by done.
    unfold in_range. repeat (zcase; simpl); rewrite ?orb_true_r, ?orb_false_r; done || dlia.
  - destruct (physical_take_range_ok p begin length) as (p' & -> & Hu); auto; [lia|].
    exists p'. split; [done|]. split; [apply Hu|]. intros n Hn. rewrite (upd_free _ _ _ _ Hu) by done.
    unfold in_range. repeat (zcase; simpl); rewrite ?andb_true_r, ?andb_false_r; done || dlia.
Qed.

Lemma physical_ranges_exact_witness :
  ∃ p', physical_free_range phys_init 0x1800 0x3000 = Ok p' ∧
    page_free p' 1 = false ∧ page_free p' 2 = true ∧ page_free p' 3 = true ∧ page_free p' 4 = false.
Proof.
  destruct (physical_ranges_exact phys_init 0x1800 0x3000 phys_init_wf) as [H _]; [lia|lia|lia|].
  destruct H as (p' & E & _ & Hf); [vm_compute; congruence|].
  exists p'. split; [exact E|]. rewrite !Hf by lia. vm_compute. done.
Defined.

(** [physical_free_range] has no guard for a range that lies inside one
    page without reaching a boundary: the page count wraps around to 2^52 - 1
    and the bitmap is written past its end. *)
Theorem physical_free_range_wraps p begin length :
  phys_wf p → 0 <= begin → 0 <= length → begin + length < 2 ^ 63 →
  (begin + length) / 4096 < (begin + 4095) / 4096 →
  physical_free_range p begin length = Fault.
Proof. apply physical_free_range_small. Qed.

Lemma physical_free_range_wraps_witness : physical_free_range phys_init 0x9FC00 0x300 = Fault.
Proof. apply (physical_free_range_wraps _ _ _ phys_init_wf); [lia|lia|lia|done]. Defined.

(** [alloc_phys_frames] is sound: when it returns, it has either taken one
    run of [num] frames, all of them free and above 1 MB, and no other frame,
    or taken nothing and returned 0. It never hangs and never panics; the only
    other outcome is a scan off the end of the table. And it is complete up to
    63 frames of slack: if some run of [num + 63] frames below [entry_end] is
    free, the allocation succeeds. *)
Theorem alloc_phys_frames_spec p num : phys_wf p → 1 <= num < 2 ^ 64 →
  (alloc_phys_frames p num = Fault ∨
   ∃ r p', alloc_phys_frames p num = Ok (r, p') ∧ phys_wf p' ∧
     ((∃ n, r = 4096 * n ∧ 256 <= n ∧ (∀ m, n <= m < n + num → page_free p m = true) ∧
        ∀ m, 0 <= m → page_free p' m = page_free p m && negb ((n <=? m) && (m <? n + num))) ∨
      (r = 0 ∧ ∀ m, 0 <= m → page_free p' m = page_free p m))) ∧
  ((∃ q, 256 <= q ∧ q + num + 63 <= 64 * entry_end p ∧
      ∀ m, q <= m < q + num + 63 → page_free p m = true) →
   ∃ r p', alloc_phys_frames p num = Ok (r, p') ∧ 0 < r).
Proof.
  intros Hp Hnum. pose proof (alloc_phys_frames_ok p num Hp Hnum) as H.
  destruct (alloc_phys_frames p num) as [[r p']| | |]; simpl in H; try done.
  - split.
    + right. exists r, p'. split; [done|].
      destruct H as [(n & -> & Hn & Hf & Hu)|(-> & _ & Hu)]; (split; [apply Hu|]).
      * left. exists n. split_and!; [done|lia|auto|]. intros m Hm. rewrite (upd_free _ _ _ _ Hu) by done.
        unfold in_range. destruct (_ && _); [by rewrite andb_false_r|by rewrite andb_true_r].
      * right. split; [done|]. intros m Hm. by rewrite (upd_free _ _ _ _ Hu).
    + intros (q & Hq). exists r, p'. split; [done|].
      destruct H as [(n & -> & Hn & _)|(_ & Hno & _)]; [lia|by destruct (Hno q)].
  - split; [by left|]. intros (q & Hq). by destruct (H q).
Qed.

Lemma alloc_phys_frames_spec_witness :
  ∃ r p', alloc_phys_frames sample_phys 61 = Ok (r, p') ∧ 0 < r.
Proof.
  apply (alloc_phys_frames_spec sample_phys 61 sample_phys_wf); [lia|].
  exists 576. split; [lia|]. split; [vm_compute; congruence|].
  intros m Hm. unfold page_free, bm_test. assert (m / 64 = 9 ∨ m / 64 = 10) as [E|E] by dlia.
  - rewrite E. change (arr_word (mm_table sample_phys) 9) with UINT64_MAX.
    rewrite testbit_UINT64_MAX by dlia. apply Z.ltb_lt. dlia.
  - rewrite E. change (arr_word (mm_table sample_phys) 10) with (Z.ones 60).
    apply Z.ones_spec_low. dlia.
Defined.

(** A table where frames 384 and 385 are free, below the limit. *)
Definition gap_phys : phys :=
  Phys (U64Array MM_TABLE_MAX {[ 4 := 2 ^ 63; 6 := 3 ]}) 700 11 SPINLOCK_UNLOCKED.

Lemma gap_phys_high m : 387 <= m → bm_test (mm_table gap_phys) m = false.
Proof.
  intros Hm. unfold bm_test. destruct (Z.eq_dec (m / 64) 6) as [E|Hne].
  - rewrite E. change (arr_word (mm_table gap_phys) 6) with (Z.ones 2).
    rewrite Z.ones_spec_high; [done|dlia].
  - assert (arr_word (mm_table gap_phys) (m / 64) = 0) as ->; [|apply Z.testbit_0_l].
    unfold arr_word, gap_phys. cbn [mm_table arr_words].
    rewrite !lookup_insert_ne, lookup_singleton_ne by dlia. done.
Qed.

(** [alloc_phys_frames] has no bound on its searches. With two free frames
    in a row below the limit, a request for two frames walks past them (after
    a failed run the position is no longer aligned to the words it skips),
    then past the end of the table. *)
Theorem alloc_phys_frames_overruns :
  phys_wf gap_phys ∧ page_free gap_phys 384 = true ∧ page_free gap_phys 385 = true ∧
  385 < mm_limit gap_phys ∧ alloc_phys_frames gap_phys 2 = Fault.
Proof.
  assert (phys_wf gap_phys) as Hp.
  { split; [by apply arr_wfb_sound|done|apply lock_free_unlocked|simpl; lia|done]. }
  split_and!; [done|done|done|done|].
  apply wpf_fault. unfold alloc_phys_frames. rewrite lock_phys_bind by done.
  apply (wpf_while _ (fun s => s = (4, 256, locked gap_phys) ∨ s = (5, 321, locked gap_phys) ∨
    s = (6, 385, locked gap_phys) ∨ s = (6, 387, locked gap_phys)) (fun s => 1000 - s.1.2));
    [|by left|cbn; lia].
  intros s [->|[->|[->| ->]]]; cbn [fst snd].
  - assert (alloc_phys_frames_step 2 (4, 256, locked gap_phys) =
      Ok (inl (5, 321, locked gap_phys))) as -> by reflexivity.
    cbn. split; [tauto|lia].
  - assert (alloc_phys_frames_step 2 (5, 321, locked gap_phys) =
      Ok (inl (6, 385, locked gap_phys))) as -> by reflexivity.
    cbn. split; [tauto|lia].
  - assert (alloc_phys_frames_step 2 (6, 385, locked gap_phys) =
      Ok (inl (6, 387, locked gap_phys))) as -> by reflexivity.
    cbn. split; [tauto|lia].
  - unfold alloc_phys_frames_step. rewrite locked_end, locked_table.
    assert (arr_get (mm_table gap_phys) 6 = Ok 3) as -> by reflexivity.
    cbn [Z.ltb Z.compare Pos.compare Pos.compare_cont entry_end gap_phys]. run. cbn [Z.eqb negb].
    apply wpf_bind. eapply wpx_mono;
      [apply (find_set_ok (mm_table gap_phys) 387 no_panic); [apply Hp|done|lia]| | |].
    + intros r (Hr & Hset & _). exfalso. rewrite gap_phys_high in Hset by lia. discriminate.
    + intros m [].
    + intros _. exact I.
Qed.

(** C16: [alloc_phys_frames_aligned], for an alignment that is a power of two of
    at least a page: it returns normally whatever the table, never looks past
    [mm_limit], and either takes one run of [num] free frames, aligned, all
    below the limit and nothing else, or takes nothing and returns 0. When
    the alignment is 256 KB or more (64 frames; the callers ask for 2 MB) the
    run is the lowest there is, and 0 means that there is none. Below 256 KB, which
    its comment allows, it may pass over a run ([alloc_phys_frames_aligned_misses]),
    so nothing is said there of which run it is, nor of what 0 means. *)
Theorem alloc_phys_frames_aligned_spec p num j :
  phys_wf p → 1 <= num < 2 ^ 64 → 0 <= j <= 51 →
  ∃ r p', alloc_phys_frames_aligned p num (2 ^ (j + 12)) = Ok (r, p') ∧ phys_wf p' ∧
    ((∃ n, r = 4096 * n ∧ aligned_run p num j n ∧
        (6 <= j → ∀ n', aligned_run p num j n' → n <= n') ∧
        ∀ m, 0 <= m → page_free p' m = page_free p m && negb ((n <=? m) && (m <? n + num))) ∨
     (r = 0 ∧ (6 <= j → ∀ n, ¬ aligned_run p num j n) ∧
        ∀ m, 0 <= m → page_free p' m = page_free p m)).
Proof.
  intros Hp Hnum Hj. pose proof (alloc_phys_frames_aligned_ok p num j Hp Hnum Hj) as H.
  apply wp_ok in H as ([r p'] & E & H). exists r, p'. split; [done|].
  assert (6 <= j → 64 <= 2 ^ j) as H64 by (intros; apply (Z.pow_le_mono_r 2 6 j); lia).
  destruct H as [(n & -> & Hn & Hlow & Hu)|(-> & Hno & Hu)]; (split; [apply Hu|]).
  - left. exists n. split_and!; auto. intros m Hm. rewrite (upd_free _ _ _ _ Hu) by done.
    unfold in_range. destruct (_ && _); [by rewrite andb_false_r|by rewrite andb_true_r].
  - right. split_and!; auto. intros m Hm. by rewrite (upd_free _ _ _ _ Hu).
Qed.

Lemma alloc_phys_frames_aligned_spec_witness :
  ∃ p', alloc_phys_frames_aligned sample_phys 64 0x40000 = Ok (0x240000, p') ∧ phys_wf p'.
Proof.
  destruct (alloc_phys_frames_aligned_spec sample_phys 64 6 sample_phys_wf) as (r & p' & E & Hwf & _);
    [lia|lia|]. change (2 ^ (6 + 12)) with 0x40000 in E.
  exists p'. split; [|exact Hwf]. rewrite E. f_equal. f_equal.
  assert (match alloc_phys_frames_aligned sample_phys 64 0x40000 with Ok x => x.1 | _ => 0 end
    = 0x240000) as H by reflexivity.
  rewrite E in H. exact H.
Defined.

(** Two free frames at 1.5 MB that a call for two frames, aligned to a page, does
    not find: the run at frame 319 is too short, and from frame 321 on the empty word is
    skipped to frame 385. *)
Definition missed_phys : phys := Phys (U64Array MM_TABLE_MAX {[ 4 := 2 ^ 63; 6 := 3 ]}) 448 7 SPINLOCK_UNLOCKED.

Lemma alloc_phys_frames_aligned_misses : phys_wf missed_phys ∧ aligned_run missed_phys 2 0 384 ∧
  ∃ p', alloc_phys_frames_aligned missed_phys 2 (2 ^ (0 + 12)) = Ok (0, p').
Proof.
  split; [|split].
  - split; [by apply arr_wfb_sound|done|apply lock_free_unlocked|simpl; lia|done].
  - split; [by exists 384|]. split; [done|]. split; [done|]. intros m Hm. assert (m = 384 ∨ m = 385) as [->| ->] by lia; reflexivity.
  - assert (H : ∃ x, alloc_phys_frames_aligned missed_phys 2 (2 ^ (0 + 12)) = Ok x ∧ (x.1 =? 0) = true).
    { apply (ok_value _ (fun x => x.1 =? 0)). vm_compute. reflexivity. }
    destruct H as ([r p'] & E & Hr). apply Z.eqb_eq in Hr. cbn in Hr. subst r. by exists p'.
Qed.

(** [physical_next_free_range] reports the next free range exactly: the
    first maximal run of free frames at or above the frame of [current], or
    size 0 when there is none. (It needs the frames above [entry_end] to be
    taken and [entry_end] to be below the size of the table: the scan looks at
    one word past [entry_end].) *)
Theorem physical_next_free_range_spec p current start size :
  phys_wf p → tail_taken p → entry_end p < 262144 → is_u64 current →
  ∃ st sz, physical_next_free_range p current start size = Ok (st, sz) ∧
    (range_found p (current / 4096) st sz ∨
     (sz = 0 ∧ ∀ m, current / 4096 <= m → page_free p m = false)).
Proof.
  intros Hp Ht He Hc. pose proof (physical_next_free_range_ok p current start size Hp Ht He Hc) as H.
  apply wp_ok in H as ([st sz] & E & [H|(Hz & H & _)]); eauto 10.
Qed.

Lemma sample_tail : tail_taken sample_phys.
Proof.
  intros m Hm. change (64 * entry_end sample_phys) with 704 in Hm. unfold page_free, bm_test.
  assert (arr_word (mm_table sample_phys) (m / 64) = 0) as ->; [|apply Z.testbit_0_l].
  unfold arr_word, sample_phys. cbn [mm_table arr_words].
  rewrite !lookup_insert_ne, lookup_singleton_ne by dlia. done.
Qed.

Lemma physical_next_free_range_spec_witness :
  ∃ st sz, physical_next_free_range sample_phys 0x182000 0 0 = Ok (st, sz) ∧
    st = 0x240000 ∧ sz = 0x7C000.
Proof.
  destruct (physical_next_free_range_spec sample_phys 0x182000 0 0 sample_phys_wf sample_tail)
    as (st & sz & E & _); [vm_compute; done|unfold is_u64; lia|].
  exists st, sz. split; [exact E|].
  assert (match physical_next_free_range sample_phys 0x182000 0 0 with
    | Ok x => x | _ => (0, 0) end = (0x240000, 0x7C000)) as H by reflexivity.
  rewrite E in H. injection H as -> ->. split; reflexivity.
Defined.

(** round trip. Giving back the frame that [alloc_phys_frame] returned
    restores every bit of the table. *)
Theorem alloc_free_roundtrip p r p1 :
  phys_wf p → alloc_phys_frame p = Ok (r, p1) → r ≠ 0 →
  ∃ p2, free_phys_frame p1 r = Ok p2 ∧ phys_wf p2 ∧
    ∀ n, 0 <= n → page_free p2 n = page_free p n.
Proof.
  intros Hp E Hr. pose proof (end_bounds _ Hp).
  destruct (wpx_elim _ _ _ _ _ (alloc_phys_frame_ok p Hp) E) as [H1|H1]; [|by destruct H1].
  destruct H1 as (n & -> & Hn & Hf & _ & Hu).
  destruct (free_phys_frame_ok p1 (4096 * n)) as (p2 & E2 & Hu2); [apply Hu|lia|].
  exists p2. split; [done|]. split; [apply Hu2|]. intros m Hm.
  rewrite (upd_free _ _ _ _ Hu2), (upd_free _ _ _ _ Hu) by done.
  replace (4096 * n / 4096) with n by dlia. zcase; [by subst|done].
Qed.

Lemma alloc_free_roundtrip_witness :
  ∃ r p1 p2, alloc_phys_frame sample_phys = Ok (r, p1) ∧ free_phys_frame p1 r = Ok p2 ∧
    page_free p2 319 = true.
Proof.
  pose proof (alloc_phys_frame_ok sample_phys sample_phys_wf) as H.
  apply wp_ok in H as ([r p1] & E & _). exists r, p1.
  assert (match alloc_phys_frame sample_phys with Ok x => x.1 | _ => 0 end = 0x13F000) as Hr
    by reflexivity. rewrite E in Hr. cbn in Hr.
  destruct (alloc_free_roundtrip sample_phys r p1 sample_phys_wf E) as (p2 & E2 & _ & Hf); [lia|].
  exists p2. split; [exact E|]. split; [exact E2|]. rewrite Hf by lia. reflexivity.
Defined.
