(* ===== verification/Mmu.v ===== *)
(** * Address translation and the frame allocator, as interfaces

    What [arch/x86_64/mm/vm.c] relies on and does not contain: the memory
    management unit, which is hardware, and the physical page allocator. Each
    is a class: operations and the laws the client may use.

    - [Mmu] is 4-level paging: [translate] takes the content of physical
      memory, the base of the PML4 and a virtual address. Its laws are those
      of the architecture manual for present table entries, 4 KB pages, 2 MB
      pages and entries that are not present, and that a successful walk reads
      present entries only; access rights, accessed and dirty bits and the TLB
      are left out. [x86_walk] is an instance, on which the witnesses run.
    - [FrameAllocator] is what [alloc_phys_frame] promises: a frame that was
      free and is no longer, or 0. Physical.v discharges it. *)

From S2P Require Import Prelude Layout Bits Spinlock Physical.

Local Open Scope Z_scope.
Local Open Scope c_scope.

(** ** Physical memory

    64-bit words by byte address; the page tables are the only memory the
    component touches, one aligned word at a time. *)
Definition ldw (m : gmap Z Z) (pa : Z) : Z := default 0 (m !! pa).

(** Entry [i] of the table in the frame at [f]. *)
Definition entry (m : gmap Z Z) (f i : Z) : Z := ldw m (f + 8 * i).

(** ** The fields of a virtual address and of an entry *)

Definition idx4 (va : Z) : Z := va / 2 ^ 39 mod 512.
Definition idx3 (va : Z) : Z := va / 2 ^ 30 mod 512.
Definition idx2 (va : Z) : Z := va / 2 ^ 21 mod 512.
Definition idx1 (va : Z) : Z := va / 2 ^ 12 mod 512.

Definition canonical (va : Z) : Prop := 0 <= va < 2 ^ 47 ∨ 2 ^ 64 - 2 ^ 47 <= va < 2 ^ 64.

(** Bits 12 to 51 of an entry, and bits 21 to 51 for a 2 MB page. *)
Definition frame_of (e : Z) : Z := Z.land e (2 ^ 52 - 2 ^ 12).
Definition large_frame_of (e : Z) : Z := Z.land e (2 ^ 52 - 2 ^ 21).
Definition present (e : Z) : bool := Z.testbit e 0.
Definition page_size (e : Z) : bool := Z.testbit e 7.

(** [e] points to a table in the frame [f]. *)
Definition table_entry (e f : Z) : Prop :=
  present e = true ∧ page_size e = false ∧ frame_of e = f.

(** ** The memory management unit *)

Class Mmu := {
  translate : gmap Z Z → Z → Z → option Z;
  translate_4k m cr3 va f3 f2 f1 :
    canonical va → table_entry (entry m cr3 (idx4 va)) f3 →
    table_entry (entry m f3 (idx3 va)) f2 → table_entry (entry m f2 (idx2 va)) f1 →
    present (entry m f1 (idx1 va)) = true →
    translate m cr3 va = Some (frame_of (entry m f1 (idx1 va)) + va mod 2 ^ 12);
  translate_2m m cr3 va f3 f2 :
    canonical va → table_entry (entry m cr3 (idx4 va)) f3 →
    table_entry (entry m f3 (idx3 va)) f2 →
    present (entry m f2 (idx2 va)) = true → page_size (entry m f2 (idx2 va)) = true →
    Z.land (entry m f2 (idx2 va)) 0x1FE000 = 0 →
    translate m cr3 va = Some (large_frame_of (entry m f2 (idx2 va)) + va mod 2 ^ 21);
  translate_absent4 m cr3 va :
    canonical va → present (entry m cr3 (idx4 va)) = false → translate m cr3 va = None;
  translate_absent3 m cr3 va f3 :
    canonical va → table_entry (entry m cr3 (idx4 va)) f3 →
    present (entry m f3 (idx3 va)) = false → translate m cr3 va = None;
  translate_absent2 m cr3 va f3 f2 :
    canonical va → table_entry (entry m cr3 (idx4 va)) f3 →
    table_entry (entry m f3 (idx3 va)) f2 →
    present (entry m f2 (idx2 va)) = false → translate m cr3 va = None;
  translate_absent1 m cr3 va f3 f2 f1 :
    canonical va → table_entry (entry m cr3 (idx4 va)) f3 →
    table_entry (entry m f3 (idx3 va)) f2 → table_entry (entry m f2 (idx2 va)) f1 →
    present (entry m f1 (idx1 va)) = false → translate m cr3 va = None;
  translate_stable m m' cr3 va pa :
    (∀ a, present (ldw m a) = true → ldw m' a = ldw m a) →
    translate m cr3 va = Some pa → translate m' cr3 va = Some pa
}.

(** ** The page walk *)

Definition canonicalb (va : Z) : bool :=
  (0 <=? va) && (va <? 2 ^ 47) || (2 ^ 64 - 2 ^ 47 <=? va) && (va <? 2 ^ 64).

Definition x86_walk (m : gmap Z Z) (cr3 va : Z) : option Z :=
  if canonicalb va then
    let e4 := entry m cr3 (idx4 va) in
    if negb (present e4) || page_size e4 then None
    else
      let e3 := entry m (frame_of e4) (idx3 va) in
      if negb (present e3) then None
      else if page_size e3 then
        Some (Z.land e3 (2 ^ 52 - 2 ^ 30) + va mod 2 ^ 30)
      else
        let e2 := entry m (frame_of e3) (idx2 va) in
        if negb (present e2) then None
        else if page_size e2 then
          if Z.land e2 0x1FE000 =? 0 then Some (large_frame_of e2 + va mod 2 ^ 21) else None
        else
          let e1 := entry m (frame_of e2) (idx1 va) in
          if negb (present e1) then None else Some (frame_of e1 + va mod 2 ^ 12)
  else None.

Lemma canonicalb_true va : canonical va → canonicalb va = true.
Proof. unfold canonical, canonicalb. intros H. repeat (zcase; simpl); done || lia. Qed.

Ltac walk :=
  intros; unfold x86_walk; rewrite canonicalb_true by assumption;
  repeat match goal with
    | H : table_entry _ _ |- _ => destruct H as (? & ? & ?)
    | H : present _ = _ |- _ => rewrite H
    | H : page_size _ = _ |- _ => rewrite H
    | H : frame_of _ = _ |- _ => rewrite H
    | H : Z.land _ 0x1FE000 = 0 |- _ => rewrite H
    end; reflexivity.

Lemma walk_stable m m' cr3 va pa :
  (∀ a, present (ldw m a) = true → ldw m' a = ldw m a) →
  x86_walk m cr3 va = Some pa → x86_walk m' cr3 va = Some pa.
Proof.
  intros Hm. unfold x86_walk, entry. destruct (canonicalb va); [|done].
  assert (Hs : ∀ a, negb (present (ldw m a)) = false → ldw m' a = ldw m a).
  { intros a Ha. apply Hm. by destruct (present (ldw m a)). }
  cbn zeta. intros E.
  repeat match goal with
    | E : context [negb (present (ldw m ?a))] |- _ =>
        let N := fresh "N" in
        destruct (negb (present (ldw m a))) eqn:N; simpl in E; [discriminate|];
        rewrite (Hs a N); rewrite N; simpl
    | E : (if ?b then _ else _) = Some _ |- _ => destruct b; try discriminate
    end; exact E.
Qed.

#[refine] #[export] Instance x86_mmu : Mmu := {| translate := x86_walk |}.
Proof. all: try exact walk_stable; abstract walk. Defined.

(** ** The frame allocator *)

Class FrameAllocator (A : Type) := {
  alloc_frame : A → outcome (Z * A);
  alloc_wf : A → Prop;
  (** page frame [n] can be handed out *)
  avail : A → Z → bool;
  (** the pages from this one on do not exist *)
  frame_bound : A → Z;
  alloc_frame_law a : alloc_wf a →
    ∃ r a', alloc_frame a = Ok (r, a') ∧ alloc_wf a' ∧ frame_bound a' = frame_bound a ∧
      ((∃ n, r = 4096 * n ∧ 256 <= n < 2 ^ 24 ∧ avail a n = true ∧
          ∀ m, 0 <= m → avail a' m = avail a m && negb (n =? m)) ∨
       (r = 0 ∧ ∀ m, 0 <= m → avail a' m = avail a m))
}.

#[refine] #[export] Instance phys_allocator : FrameAllocator phys := {|
  alloc_frame := alloc_phys_frame;
  alloc_wf := phys_wf;
  avail := page_free;
  frame_bound := fun p => 64 * entry_end p
|}.
Proof.
  intros p Hp. pose proof (end_bounds _ Hp).
  pose proof (alloc_phys_frame_ok p Hp) as Hw. apply wp_ok in Hw as ([r p'] & E & H1).
  exists r, p'. split; [exact E|].
  destruct H1 as [(n & -> & Hn & Hf & _ & Hu)|(-> & _ & Hu)]; (split; [apply Hu|split; [by rewrite (upd_end _ _ _ _ Hu)|]]).
  - left. exists n. split; [reflexivity|]. split; [lia|]. split; [exact Hf|].
    intros m Hm. rewrite (upd_free _ _ _ _ Hu) by done.
    destruct (n =? m); [by rewrite andb_false_r|by rewrite andb_true_r].
  - right. split; [reflexivity|]. intros m Hm. by rewrite (upd_free _ _ _ _ Hu).
Defined.
