(* ===== verification/Paging.v ===== *)
(** * Kernel page tables

    Models [arch/x86_64/mm/vm.c]. The page tables are reached through the last
    entry of the PML4, which points to the PML4 itself: every read and write
    of an entry is a memory access at a virtual address that the memory
    management unit translates (class [Mmu]); an access at an address that is
    not mapped is a [Fault]. Frames for new tables come from the class
    [FrameAllocator]. The state is physical memory, the PML4 base, the lock,
    the list of the [invlpg] executed, and the allocator. *)

From S2P Require Import Prelude Layout Bits Spinlock Physical Mmu.

Local Open Scope Z_scope.
Local Open Scope c_scope.

(** [get_paging_struct_vaddr]: the virtual address of the table of [level]
    that translates [addr]. *)
Definition get_paging_struct_vaddr (addr level : Z) : outcome Z :=
  if level =? 0 then Ok 0xFFFFFFFFFFFFF000
  else if level =? 1 then Ok (((addr >>w 27) .| 0xFFFFFFFFFFE00000) .& PGT_MASK)
  else if level =? 2 then Ok (((addr >>w 18) .| 0xFFFFFFFFC0000000) .& PGT_MASK)
  else if level =? 3 then Ok (((addr >>w 9) .| 0xFFFFFF8000000000) .& PGT_MASK)
  else Panic "invalid paging level option".

(** The index of the entry in the table of each level. *)
Definition pml4t_entry (vaddr : Z) : Z := (vaddr .& 0xFF8000000000) >>w 39.
Definition pdpt_entry (vaddr : Z) : Z := (vaddr .& 0x7FC0000000) >>w 30.
Definition pdt_entry (vaddr : Z) : Z := (vaddr .& 0x3FE00000) >>w 21.
Definition pt_entry (vaddr : Z) : Z := (vaddr .& 0x1FF000) >>w 12.

(** [&tbl[i]] of a [uint64_t *tbl]. *)
Definition slot (tbl i : Z) : Z := tbl +w 8 * i.

Record vm (A : Type) := Vm {
  vm_mem : gmap Z Z;
  vm_cr3 : Z;
  pg_lock : spinlock;
  vm_invlpg : list Z;
  vm_frames : A
}.
Arguments Vm {A}.
Arguments vm_mem {A}.
Arguments vm_cr3 {A}.
Arguments pg_lock {A}.
Arguments vm_invlpg {A}.
Arguments vm_frames {A}.

Section paging.
Context `{HM : Mmu} {A : Type} `{HA : FrameAllocator A}.

Implicit Types s : vm A.

Definition with_mem s (m : gmap Z Z) : vm A :=
  Vm m (vm_cr3 s) (pg_lock s) (vm_invlpg s) (vm_frames s).
Definition with_pg_lock s (l : spinlock) : vm A :=
  Vm (vm_mem s) (vm_cr3 s) l (vm_invlpg s) (vm_frames s).
Definition with_frames s (fr : A) : vm A :=
  Vm (vm_mem s) (vm_cr3 s) (pg_lock s) (vm_invlpg s) fr.

Definition lock_vm s : outcome (vm A) :=
  l ← spin_lock (pg_lock s); Ok (with_pg_lock s l).
Definition unlock_vm s : vm A := with_pg_lock s (spin_unlock (pg_lock s)).

(** A load and a store of a word at a virtual address. *)
Definition vld s (va : Z) : outcome Z :=
  match translate (vm_mem s) (vm_cr3 s) va with
  | Some pa => Ok (ldw (vm_mem s) pa)
  | None => Fault
  end.
Definition vst s (va v : Z) : outcome (vm A) :=
  match translate (vm_mem s) (vm_cr3 s) va with
  | Some pa => Ok (with_mem s (<[pa := v]> (vm_mem s)))
  | None => Fault
  end.

Definition invalidate_page s (va : Z) : vm A :=
  Vm (vm_mem s) (vm_cr3 s) (pg_lock s) (va :: vm_invlpg s) (vm_frames s).

(** The four entries printed, and the state. *)
Definition vm_check_mapping s (addr : Z) : outcome (list Z * vm A) :=
  s ← lock_vm s;
  pml4t ← get_paging_struct_vaddr addr 0;
  e0 ← vld s (slot pml4t (pml4t_entry addr));
  pdpt ← get_paging_struct_vaddr addr 1;
  e1 ← vld s (slot pdpt (pdpt_entry addr));
  pdt ← get_paging_struct_vaddr addr 2;
  e2 ← vld s (slot pdt (pdt_entry addr));
  pt ← get_paging_struct_vaddr addr 3;
  e3 ← vld s (slot pt (pt_entry addr));
  Ok ([e0; e1; e2; e3], unlock_vm s).

(** [for (; i < hi; i++) if (!(tbl[i] & PGT_P)) { tbl[i] = val; return va(i); }] *)
Definition map_slot_step (tbl hi val : Z) (va : Z → Z) (st : Z * vm A) :
    outcome ((Z * vm A) + (Z * vm A)) :=
  let '(i, s) := st in
  if i <? hi then
    e ← vld s (slot tbl i);
    if e .& PGT_P =? 0 then
      s ← vst s (slot tbl i) val;
      Ok (inr (va i, unlock_vm s))
    else Ok (inl (i +w 1, s))
  else Ok (inr (0, unlock_vm s)).

Definition kernel_va (i : Z) : Z := KERNEL_MAPPING_BASE +w (i <<w PG_BITS).
Definition large_va (i : Z) : Z := i <<w LARGE_PG_BITS.

Definition vm_map_page s (frame flags : Z) : outcome (Z * vm A) :=
  s ← lock_vm s;
  pt ← get_paging_struct_vaddr KERNEL_MAPPING_BASE 3;
  while (map_slot_step pt PG_TABLE_ENTRIES (frame .| flags) kernel_va) (0, s).

Definition vm_map_large_page s (frame flags : Z) : outcome (Z * vm A) :=
  s ← lock_vm s;
  pdt ← get_paging_struct_vaddr LG_PG_BASE 2;
  while (map_slot_step pdt (LG_PG_LIMIT >>w LARGE_PG_BITS) (frame .| flags) large_va)
    (LG_PG_BASE >>w LARGE_PG_BITS, s).

(** [for (j = i + 1; j < i + num; j++) if (!(tbl[j] & PGT_P)) count++; else break;] *)
Definition count_slots_step (tbl i num : Z) s (st : Z * Z) : outcome ((Z * Z) + (Z * Z)) :=
  let '(j, count) := st in
  if j <? i +w num then
    e ← vld s (slot tbl j);
    if e .& PGT_P =? 0 then Ok (inl (j +w 1, count +w 1)) else Ok (inr (j, count))
  else Ok (inr (j, count)).

(** [for (j = i; j < i + num; j++) { tbl[j] = frame | flags; frame += size; }] *)
Definition fill_slots_step (tbl i num flags size : Z) (st : Z * Z * vm A) :
    outcome ((Z * Z * vm A) + vm A) :=
  let '(j, frame, s) := st in
  if j <? i +w num then
    s ← vst s (slot tbl j) (frame .| flags);
    Ok (inl (j +w 1, frame +w size, s))
  else Ok (inr s).

(** One round of the outer loop of [vm_map_pages] and [vm_map_large_pages]. *)
Definition map_run_step (tbl hi num frame flags size : Z) (va : Z → Z) (st : Z * vm A) :
    outcome ((Z * vm A) + (Z * vm A)) :=
  let '(i, s) := st in
  if i <? hi then
    e ← vld s (slot tbl i);
    if e .& PGT_P =? 0 then
      '(j, count) ← while (count_slots_step tbl i num s) (i +w 1, 1);
      if count =? num then
        s ← while (fill_slots_step tbl i num flags size) (i, frame, s);
        Ok (inr (va i, unlock_vm s))
      else Ok (inl (j +w 1 +w 1, s))
    else Ok (inl (i +w 1, s))
  else Ok (inr (0, unlock_vm s)).

Definition vm_map_pages s (frame num flags : Z) : outcome (Z * vm A) :=
  if num <? 1 then Ok (0, s)
  else
    s ← lock_vm s;
    pt ← get_paging_struct_vaddr KERNEL_MAPPING_BASE 3;
    while (map_run_step pt (PG_TABLE_ENTRIES -w num +w 1) num frame flags PG_SIZE kernel_va)
      (0, s).

Definition vm_map_large_pages s (frame num flags : Z) : outcome (Z * vm A) :=
  if num <? 1 then Ok (0, s)
  else
    s ← lock_vm s;
    pdt ← get_paging_struct_vaddr LG_PG_BASE 2;
    while (map_run_step pdt ((LG_PG_LIMIT >>w LARGE_PG_BITS) -w num +w 1) num frame flags
             LARGE_PG_SIZE large_va)
      (LG_PG_BASE >>w LARGE_PG_BITS, s).

(** The entry at index [i] is cleared and its page invalidated; [mask] selects
    the frame. *)
Definition clear_slot s (tbl i mask va : Z) : outcome (Z * vm A) :=
  e ← vld s (slot tbl i);
  s ← vst s (slot tbl i) 0;
  Ok (e .& mask, invalidate_page s va).

Definition vm_unmap_page s (va : Z) : outcome (Z * vm A) :=
  s ← lock_vm s;
  pt ← get_paging_struct_vaddr va 3;
  '(frame, s) ← clear_slot s pt ((va >>w PG_BITS) .& PG_TABLE_MASK) PG_MASK va;
  Ok (frame, unlock_vm s).

Definition vm_unmap_large_page s (va : Z) : outcome (Z * vm A) :=
  s ← lock_vm s;
  pdt ← get_paging_struct_vaddr va 2;
  '(frame, s) ← clear_slot s pdt ((va >>w LARGE_PG_BITS) .& PG_TABLE_MASK) LARGE_PG_MASK va;
  Ok (frame, unlock_vm s).

(** [while (num > 0)] of [vm_unmap_pages] and [vm_unmap_large_pages]. *)
Definition unmap_run_step (tbl mask size : Z) (st : Z * Z * Z * Z * vm A) :
    outcome ((Z * Z * Z * Z * vm A) + (Z * vm A)) :=
  let '(num, i, pg, frame, s) := st in
  if 0 <? num then
    frame ← (if frame =? 0 then e ← vld s (slot tbl i); Ok (e .& mask) else Ok frame);
    s ← vst s (slot tbl i) 0;
    Ok (inl (num -w 1, i +w 1, pg +w size, frame, invalidate_page s pg))
  else Ok (inr (frame, unlock_vm s)).

Definition vm_unmap_pages s (va num : Z) : outcome (Z * vm A) :=
  s ← lock_vm s;
  pt ← get_paging_struct_vaddr va 3;
  while (unmap_run_step pt PG_MASK PG_SIZE)
    (num, (va >>w PG_BITS) .& PG_TABLE_MASK, va, 0, s).

Definition vm_unmap_large_pages s (va num : Z) : outcome (Z * vm A) :=
  s ← lock_vm s;
  pdt ← get_paging_struct_vaddr va 2;
  while (unmap_run_step pdt LARGE_PG_MASK LARGE_PG_SIZE)
    (num, (va >>w LARGE_PG_BITS) .& PG_TABLE_MASK, va, 0, s).

(** [if ((tbl[entry] & PGT_P) == 0)] a new frame becomes the table below. *)
Definition ensure_table s (tbl i : Z) (msg : string) : outcome (vm A) :=
  e ← vld s (slot tbl i);
  if e .& PGT_P =? 0 then
    '(new, fr) ← alloc_frame (vm_frames s);
    if new =? 0 then Panic msg
    else vst (with_frames s fr) (slot tbl i) (new .| PGT_P .| PGT_RW)
  else Ok s.

Definition ensure_pdpt s (vaddr : Z) : outcome (vm A) :=
  pml4t ← get_paging_struct_vaddr vaddr 0;
  ensure_table s pml4t (pml4t_entry vaddr) "page allocation for PDPT failed".
Definition ensure_pdt s (vaddr : Z) : outcome (vm A) :=
  pdpt ← get_paging_struct_vaddr vaddr 1;
  ensure_table s pdpt (pdpt_entry vaddr) "page allocation for PDT failed".
Definition ensure_pt s (vaddr : Z) : outcome (vm A) :=
  pdt ← get_paging_struct_vaddr vaddr 2;
  ensure_table s pdt (pdt_entry vaddr) "page allocation for PT failed".

(** [if (tbl[entry] & PGT_P) panic(...); tbl[entry] = val;] *)
Definition set_free_slot s (tbl i val : Z) : outcome (vm A) :=
  e ← vld s (slot tbl i);
  if e .& PGT_P =? 0 then vst s (slot tbl i) val
  else Panic "page table entry not available".

Definition vm_map_page_unrestricted s (frame flags vaddr : Z) : outcome (vm A) :=
  s ← lock_vm s;
  s ← ensure_pdpt s vaddr;
  s ← ensure_pdt s vaddr;
  s ← ensure_pt s vaddr;
  pt ← get_paging_struct_vaddr vaddr 3;
  s ← set_free_slot s pt (pt_entry vaddr) (frame .| flags);
  Ok (unlock_vm s).

Definition vm_map_large_page_unrestricted s (frame flags vaddr : Z) : outcome (vm A) :=
  s ← lock_vm s;
  s ← ensure_pdpt s vaddr;
  s ← ensure_pdt s vaddr;
  pdt ← get_paging_struct_vaddr vaddr 2;
  s ← set_free_slot s pdt (pdt_entry vaddr) (frame .| flags);
  Ok (unlock_vm s).

(** [for (; i < hi; i++) tbl[i] = 0;] with a 16-bit [i] *)
Definition zero_slots_step (tbl hi : Z) (st : Z * vm A) : outcome ((Z * vm A) + vm A) :=
  let '(i, s) := st in
  if i <? hi then
    s ← vst s (slot tbl i) 0;
    Ok (inl (u16 (i + 1), s))
  else Ok (inr s).

Definition vm_init s : outcome (vm A) :=
  s ← ensure_pdpt s KERNEL_MAPPING_BASE;
  s ← ensure_pdt s KERNEL_MAPPING_BASE;
  pdt ← get_paging_struct_vaddr KERNEL_MAPPING_BASE 2;
  s ← ensure_pt s KERNEL_MAPPING_BASE;
  pt ← get_paging_struct_vaddr KERNEL_MAPPING_BASE 3;
  s ← while (zero_slots_step pt PG_TABLE_ENTRIES) (0, s);
  while (zero_slots_step pdt (LG_PG_LIMIT >>w LARGE_PG_BITS))
    (u16 (LG_PG_BASE >>w LARGE_PG_BITS), s).
End paging.

(** ** Addresses of the tables *)

Lemma field_entry va k mask : 0 <= k → mask = Z.shiftl (Z.ones 9) k →
  Z.shiftr (Z.land va mask) k = va / 2 ^ k mod 512.
Proof.
  intros Hk ->. rewrite Z.shiftr_land, Z.shiftr_shiftl_l, Z.sub_diag, Z.shiftl_0_r by lia.
  rewrite Z.land_ones, Z.shiftr_div_pow2 by lia. reflexivity.
Qed.

Lemma pml4t_entry_idx va : pml4t_entry va = idx4 va.
Proof. apply (field_entry va 39); [lia|reflexivity]. Qed.
Lemma pdpt_entry_idx va : pdpt_entry va = idx3 va.
Proof. apply (field_entry va 30); [lia|reflexivity]. Qed.
Lemma pdt_entry_idx va : pdt_entry va = idx2 va.
Proof. apply (field_entry va 21); [lia|reflexivity]. Qed.
Lemma pt_entry_idx va : pt_entry va = idx1 va.
Proof. apply (field_entry va 12); [lia|reflexivity]. Qed.

Lemma idx_bounds va :
  0 <= idx4 va < 512 ∧ 0 <= idx3 va < 512 ∧ 0 <= idx2 va < 512 ∧ 0 <= idx1 va < 512.
Proof. unfold idx4, idx3, idx2, idx1. repeat split; apply Z.mod_pos_bound; lia. Qed.

Lemma high_ones k : 0 <= k <= 64 → 2 ^ 64 - 2 ^ k = Z.shiftl (Z.ones (64 - k)) k.
Proof.
  intros Hk. rewrite Z.shiftl_mul_pow2, Z.ones_equiv by lia.
  replace (2 ^ 64) with (2 ^ (64 - k) * 2 ^ k) by (rewrite <- Z.pow_add_r by lia; f_equal; lia). lia.
Qed.

Lemma testbit_high_ones k n : 0 <= k <= 64 → 0 <= n →
  Z.testbit (2 ^ 64 - 2 ^ k) n = (k <=? n) && (n <? 64).
Proof.
  intros Hk Hn. rewrite high_ones by lia.
  destruct (Z.leb_spec k n).
  - rewrite Z.shiftl_spec by lia. destruct (Z.ltb_spec n 64).
    + rewrite Z.ones_spec_low by lia. reflexivity.
    + rewrite Z.ones_spec_high by lia. reflexivity.
  - rewrite Z.shiftl_spec_low by lia. reflexivity.
Qed.

Lemma lor_high_ones x k : is_u64 x → 0 <= k <= 64 →
  Z.lor x (2 ^ 64 - 2 ^ k) = 2 ^ 64 - 2 ^ k + x mod 2 ^ k.
Proof.
  intros Hx Hk. rewrite Z.add_comm.
  assert (Hd : Z.land (x mod 2 ^ k) (2 ^ 64 - 2 ^ k) = 0).
  { apply Z.bits_inj'. intros n Hn. rewrite Z.land_spec, testbit_high_ones, Z.bits_0 by lia.
    destruct (Z.leb_spec k n); [|apply andb_false_r].
    rewrite Z.mod_pow2_bits_high by lia. reflexivity. }
  rewrite Z.add_nocarry_lxor, Z.lxor_lor by exact Hd.
  apply Z.bits_inj'. intros n Hn. rewrite !Z.lor_spec, testbit_high_ones by lia.
  destruct (Z.leb_spec k n); simpl.
  - destruct (Z.ltb_spec n 64); [by rewrite !orb_true_r|].
    rewrite testbit_high, Z.mod_pow2_bits_high by (done || lia). reflexivity.
  - rewrite Z.mod_pow2_bits_low by lia. reflexivity.
Qed.

Lemma land_high_ones y k : is_u64 y → 0 <= k <= 64 →
  Z.land y (2 ^ 64 - 2 ^ k) = 2 ^ k * (y / 2 ^ k).
Proof.
  intros Hy Hk. rewrite (Z.mul_comm (2 ^ k)), <- Z.shiftr_div_pow2, <- Z.shiftl_mul_pow2 by lia.
  apply Z.bits_inj'. intros n Hn. rewrite Z.land_spec, testbit_high_ones by lia.
  destruct (Z.leb_spec k n).
  - rewrite Z.shiftl_spec, Z.shiftr_spec by lia. rewrite Z.sub_add.
    destruct (Z.ltb_spec n 64); simpl; [apply andb_true_r|]. by rewrite testbit_high.
  - rewrite Z.shiftl_spec_low by lia. apply andb_false_r.
Qed.

(** Entry [i] of the table of each level, as an address: the recursive entry
    511, and the upper indices of [va] shifted down. *)
Definition rec_va (b c d i : Z) : Z :=
  2 ^ 64 - 2 ^ 39 + 2 ^ 30 * b + 2 ^ 21 * c + 2 ^ 12 * d + 8 * i.

Section rec_va.
Context (b c d i : Z) (Hb : 0 <= b < 512) (Hc : 0 <= c < 512) (Hd : 0 <= d < 512)
  (Hi : 0 <= i < 512).
Lemma rec_va_canonical : canonical (rec_va b c d i).
Proof using Hb Hc Hd Hi. right. unfold rec_va. lia. Qed.
Lemma rec_va_idx4 : idx4 (rec_va b c d i) = 511.
Proof using Hb Hc Hd Hi. unfold idx4, rec_va. dlia. Qed.
Lemma rec_va_idx3 : idx3 (rec_va b c d i) = b.
Proof using Hb Hc Hd Hi. unfold idx3, rec_va. dlia. Qed.
Lemma rec_va_idx2 : idx2 (rec_va b c d i) = c.
Proof using Hb Hc Hd Hi. unfold idx2, rec_va. dlia. Qed.
Lemma rec_va_idx1 : idx1 (rec_va b c d i) = d.
Proof using Hb Hc Hd Hi. unfold idx1, rec_va. dlia. Qed.
Lemma rec_va_offset : rec_va b c d i mod 2 ^ 12 = 8 * i.
Proof using Hb Hc Hd Hi. unfold rec_va. dlia. Qed.
Lemma rec_va_slot tbl : tbl = rec_va b c d 0 → slot tbl i = rec_va b c d i.
Proof using Hb Hc Hd Hi.
  intros ->. unfold slot, rec_va. rewrite u64_id by (unfold is_u64; lia). lia.
Qed.
End rec_va.

Lemma get_table va lvl sh k : is_u64 va → 0 <= sh → 12 <= k <= 64 →
  get_paging_struct_vaddr va lvl = Ok (((va >>w sh) .| (2 ^ 64 - 2 ^ k)) .& PGT_MASK) →
  get_paging_struct_vaddr va lvl =
    Ok (2 ^ 64 - 2 ^ k + 2 ^ 12 * ((va / 2 ^ sh) mod 2 ^ k / 2 ^ 12)).
Proof.
  intros Hva Hsh Hk ->. f_equal. rewrite Z.shiftr_div_pow2 by lia.
  assert (Hx : is_u64 (va / 2 ^ sh)).
  { rewrite <- Z.shiftr_div_pow2 by lia. apply is_u64_shiftr; done. }
  rewrite lor_high_ones by (done || lia). change PGT_MASK with (2 ^ 64 - 2 ^ 12).
  pose proof (Z.mod_pos_bound (va / 2 ^ sh) (2 ^ k) ltac:(lia)) as Hm.
  assert (Hp : 2 ^ k = 2 ^ 12 * 2 ^ (k - 12)) by (rewrite <- Z.pow_add_r by lia; f_equal; lia).
  assert (2 ^ k <= 2 ^ 64) by (apply Z.pow_le_mono_r; lia).
  rewrite land_high_ones by (unfold is_u64; lia).
  set (r := (va / 2 ^ sh) mod 2 ^ k) in *. clearbody r.
  replace (2 ^ 64 - 2 ^ k + r) with ((2 ^ 52 - 2 ^ (k - 12)) * 2 ^ 12 + r) by lia.
  rewrite Z.div_add_l by lia. lia.
Qed.

Lemma get_pml4t va : get_paging_struct_vaddr va 0 = Ok (rec_va 511 511 511 0).
Proof. reflexivity. Qed.
Lemma get_pdpt va : is_u64 va → get_paging_struct_vaddr va 1 = Ok (rec_va 511 511 (idx4 va) 0).
Proof.
  intros Hva. rewrite (get_table va 1 27 21 Hva) by (reflexivity || lia).
  f_equal. unfold rec_va, idx4. dlia.
Qed.
Lemma get_pdt va : is_u64 va → get_paging_struct_vaddr va 2 = Ok (rec_va 511 (idx4 va) (idx3 va) 0).
Proof.
  intros Hva. rewrite (get_table va 2 18 30 Hva) by (reflexivity || lia).
  f_equal. unfold rec_va, idx4, idx3. dlia.
Qed.
Lemma get_pt va : is_u64 va →
  get_paging_struct_vaddr va 3 = Ok (rec_va (idx4 va) (idx3 va) (idx2 va) 0).
Proof.
  intros Hva. rewrite (get_table va 3 9 39 Hva) by (reflexivity || lia).
  f_equal. unfold rec_va, idx4, idx3, idx2. dlia.
Qed.

(** ** Which tables translate an address *)

(** The recursive entry, and the tables of [va] down to a level. *)
Definition rec_at (m : gmap Z Z) (cr3 : Z) : Prop := table_entry (entry m cr3 511) cr3.
Definition pdpt_at (m : gmap Z Z) (cr3 va f3 : Z) : Prop :=
  rec_at m cr3 ∧ table_entry (entry m cr3 (idx4 va)) f3.
Definition pdt_at (m : gmap Z Z) (cr3 va f3 f2 : Z) : Prop :=
  pdpt_at m cr3 va f3 ∧ table_entry (entry m f3 (idx3 va)) f2.
Definition pt_at (m : gmap Z Z) (cr3 va f3 f2 f1 : Z) : Prop :=
  pdt_at m cr3 va f3 f2 ∧ table_entry (entry m f2 (idx2 va)) f1.

Definition aligned (f : Z) : Prop := f mod 4096 = 0.

Lemma frame_of_aligned e : aligned (frame_of e).
Proof.
  unfold aligned, frame_of. apply Z.bits_inj'. intros n Hn. rewrite Z.bits_0.
  destruct (Z.lt_ge_cases n 12).
  - rewrite (Z.mod_pow2_bits_low _ 12) by lia. rewrite Z.land_spec.
    replace (2 ^ 52 - 2 ^ 12) with (Z.shiftl (Z.ones 40) 12) by reflexivity.
    rewrite Z.shiftl_spec_low by lia. apply andb_false_r.
  - rewrite (Z.mod_pow2_bits_high _ 12) by lia. reflexivity.
Qed.

Lemma table_aligned e f : table_entry e f → aligned f.
Proof. intros (_ & _ & <-). apply frame_of_aligned. Qed.

(** [m] and [m'] agree outside the frame [f]. *)
Definition same_outside (f : Z) (m m' : gmap Z Z) : Prop :=
  ∀ a, ¬ (f <= a < f + 4096) → ldw m' a = ldw m a.

Lemma ldw_insert m a v b : ldw (<[a := v]> m) b = if a =? b then v else ldw m b.
Proof.
  unfold ldw. destruct (Z.eqb_spec a b) as [->|Hne].
  - by rewrite lookup_insert_eq.
  - by rewrite lookup_insert_ne.
Qed.

Lemma same_outside_refl f m : same_outside f m m.
Proof. intros a _. reflexivity. Qed.
Lemma same_outside_trans f m1 m2 m3 :
  same_outside f m1 m2 → same_outside f m2 m3 → same_outside f m1 m3.
Proof. intros H1 H2 a Ha. by rewrite H2, H1. Qed.
Lemma same_outside_store f m i v : 0 <= i < 512 → same_outside f m (<[f + 8 * i := v]> m).
Proof. intros Hi a Ha. rewrite ldw_insert. zcase; [lia|reflexivity]. Qed.

Lemma entry_outside f m m' g i : aligned f → aligned g → f ≠ g → 0 <= i < 512 →
  same_outside f m m' → entry m' g i = entry m g i.
Proof. unfold aligned. intros Hf Hg Hne Hi Hs. apply Hs. dlia. Qed.

Lemma entry_store m f i j v : entry (<[f + 8 * i := v]> m) f j = if i =? j then v else entry m f j.
Proof. unfold entry. rewrite ldw_insert. repeat zcase; lia || reflexivity. Qed.

Lemma absent_land e : (Z.land e PGT_P =? 0) = negb (present e).
Proof.
  unfold present. change PGT_P with (Z.ones 1). rewrite Z.land_ones by lia.
  rewrite (Z.bit0_odd e), Zodd_mod. change (2 ^ 1) with 2.
  pose proof (Z.mod_pos_bound e 2). repeat zcase; lia || reflexivity.
Qed.

Section windows.
Context `{HM : Mmu}.

(** The table in the frame [f] is readable and writable at [tbl], and stays so
    whatever is written to it. *)
Definition window (m : gmap Z Z) (cr3 tbl f : Z) : Prop :=
  ∀ m', same_outside f m m' → ∀ i, 0 <= i < 512 →
    translate m' cr3 (slot tbl i) = Some (f + 8 * i).

Lemma window_outside m m' cr3 tbl f :
  window m cr3 tbl f → same_outside f m m' → window m' cr3 tbl f.
Proof.
  intros Hw Hs m'' Hs' i Hi. apply Hw; [by eapply same_outside_trans|done].
Qed.

Lemma table_present e f : table_entry e f → present e = true.
Proof. by intros (? & _). Qed.
Lemma table_frame e f : table_entry e f → frame_of e = f.
Proof. by intros (_ & _ & ?). Qed.

(** The walk of an address of a table: four entries, the last of them the
    entry that points to the table. *)
Lemma translate_rec m cr3 b c d i f3 f2 f1 f :
  0 <= b < 512 → 0 <= c < 512 → 0 <= d < 512 → 0 <= i < 512 →
  table_entry (entry m cr3 511) f3 → table_entry (entry m f3 b) f2 →
  table_entry (entry m f2 c) f1 → table_entry (entry m f1 d) f →
  translate m cr3 (slot (rec_va b c d 0) i) = Some (f + 8 * i).
Proof.
  intros Hb Hc Hd Hi H3 H2 H1 H0. rewrite (rec_va_slot b c d i) by done.
  rewrite (translate_4k m cr3 _ f3 f2 f1).
  - by rewrite rec_va_idx1, rec_va_offset, (table_frame _ f) by done.
  - by apply rec_va_canonical.
  - by rewrite rec_va_idx4.
  - by rewrite rec_va_idx3.
  - by rewrite rec_va_idx2.
  - rewrite rec_va_idx1 by done. by apply (table_present _ f).
Qed.

Lemma translate_pml4t m cr3 i : rec_at m cr3 → 0 <= i < 512 →
  translate m cr3 (slot (rec_va 511 511 511 0) i) = Some (cr3 + 8 * i).
Proof. intros Hr Hi. by apply (translate_rec m cr3 511 511 511 i cr3 cr3 cr3 cr3). Qed.

Lemma translate_pdpt m cr3 va f3 i : pdpt_at m cr3 va f3 → 0 <= i < 512 →
  translate m cr3 (slot (rec_va 511 511 (idx4 va) 0) i) = Some (f3 + 8 * i).
Proof.
  intros [Hr H3] Hi. pose proof (idx_bounds va).
  apply (translate_rec m cr3 511 511 (idx4 va) i cr3 cr3 cr3 f3); done || lia.
Qed.

Lemma translate_pdt m cr3 va f3 f2 i : pdt_at m cr3 va f3 f2 → 0 <= i < 512 →
  translate m cr3 (slot (rec_va 511 (idx4 va) (idx3 va) 0) i) = Some (f2 + 8 * i).
Proof.
  intros [[Hr H3] H2] Hi. pose proof (idx_bounds va).
  apply (translate_rec m cr3 511 (idx4 va) (idx3 va) i cr3 cr3 f3 f2); done || lia.
Qed.

Lemma translate_pt m cr3 va f3 f2 f1 i : pt_at m cr3 va f3 f2 f1 → 0 <= i < 512 →
  translate m cr3 (slot (rec_va (idx4 va) (idx3 va) (idx2 va) 0) i) = Some (f1 + 8 * i).
Proof.
  intros [[[Hr H3] H2] H1] Hi. pose proof (idx_bounds va).
  apply (translate_rec m cr3 (idx4 va) (idx3 va) (idx2 va) i cr3 f3 f2 f1); done || lia.
Qed.

(** A table is not disturbed by what is written to other frames. *)
Lemma pdpt_at_outside f m m' cr3 va f3 : aligned f → f ≠ cr3 →
  same_outside f m m' → pdpt_at m cr3 va f3 → pdpt_at m' cr3 va f3.
Proof.
  intros Hf Hn Hs [Hr H3]. pose proof (table_aligned _ _ Hr). pose proof (idx_bounds va).
  split; [unfold rec_at|]; rewrite (entry_outside f m m') by (done || lia); done.
Qed.
Lemma pdt_at_outside f m m' cr3 va f3 f2 : aligned f → f ≠ cr3 → f ≠ f3 →
  same_outside f m m' → pdt_at m cr3 va f3 f2 → pdt_at m' cr3 va f3 f2.
Proof.
  intros Hf Hn Hn3 Hs [Hp H2]. pose proof (table_aligned _ _ (proj2 Hp)).
  pose proof (idx_bounds va). split; [by apply (pdpt_at_outside f m)|].
  by rewrite (entry_outside f m m') by (done || lia).
Qed.
Lemma pt_at_outside f m m' cr3 va f3 f2 f1 : aligned f → f ≠ cr3 → f ≠ f3 → f ≠ f2 →
  same_outside f m m' → pt_at m cr3 va f3 f2 f1 → pt_at m' cr3 va f3 f2 f1.
Proof.
  intros Hf Hn Hn3 Hn2 Hs [Hp H1]. pose proof (table_aligned _ _ (proj2 Hp)).
  pose proof (idx_bounds va). split; [by apply (pdt_at_outside f m)|].
  by rewrite (entry_outside f m m') by (done || lia).
Qed.

Lemma pdt_window m cr3 va f3 f2 : pdt_at m cr3 va f3 f2 → f2 ≠ cr3 → f2 ≠ f3 →
  window m cr3 (rec_va 511 (idx4 va) (idx3 va) 0) f2.
Proof.
  intros Hp Hn Hn3 m' Hs i Hi. apply (translate_pdt m' cr3 va f3); [|done].
  apply (pdt_at_outside f2 m); try done. apply (table_aligned _ _ (proj2 Hp)).
Qed.
Lemma pt_window m cr3 va f3 f2 f1 : pt_at m cr3 va f3 f2 f1 → f1 ≠ cr3 → f1 ≠ f3 → f1 ≠ f2 →
  window m cr3 (rec_va (idx4 va) (idx3 va) (idx2 va) 0) f1.
Proof.
  intros Hp Hn Hn3 Hn2 m' Hs i Hi. apply (translate_pt m' cr3 va f3 f2); [|done].
  apply (pt_at_outside f1 m); try done. apply (table_aligned _ _ (proj2 Hp)).
Qed.
End windows.

(** ** Loops over the slots of one table *)

Definition slot_free (m : gmap Z Z) (f i : Z) : Prop := present (entry m f i) = false.

(** The entries [lo .. hi-1] of the table in [f] are [g], the rest of memory
    is as before. *)
Definition table_upd (m m' : gmap Z Z) (f lo hi : Z) (g : Z → Z) : Prop :=
  (∀ k, lo <= k < hi → entry m' f k = g k) ∧
  (∀ a, (∀ k, lo <= k < hi → a ≠ f + 8 * k) → ldw m' a = ldw m a).

Lemma table_upd_nil m f lo g : table_upd m m f lo lo g.
Proof. split; [lia|done]. Qed.

Lemma table_upd_snoc m m' f lo hi g v : lo <= hi → v = g hi → table_upd m m' f lo hi g →
  table_upd m (<[f + 8 * hi := v]> m') f lo (hi + 1) g.
Proof.
  intros Hle -> [H1 H2]. split.
  - intros k Hk. rewrite entry_store. destruct (Z.eqb_spec hi k) as [->|]; [done|]. apply H1. lia.
  - intros a Ha. rewrite ldw_insert. destruct (Z.eqb_spec (f + 8 * hi) a) as [E|].
    + destruct (Ha hi); lia.
    + apply H2. intros k Hk. apply Ha. lia.
Qed.

Lemma table_upd_one m f i v : table_upd m (<[f + 8 * i := v]> m) f i (i + 1) (fun _ => v).
Proof. apply table_upd_snoc; [lia|done|apply table_upd_nil]. Qed.

Lemma table_upd_ext m m' f lo hi g g' : (∀ k, lo <= k < hi → g k = g' k) →
  table_upd m m' f lo hi g → table_upd m m' f lo hi g'.
Proof. intros Hg [H1 H2]. split; [|done]. intros k Hk. by rewrite H1, Hg. Qed.

Lemma table_upd_outside m m' f lo hi g : 0 <= lo → hi <= 512 →
  table_upd m m' f lo hi g → same_outside f m m'.
Proof. intros Hlo Hhi [_ H2] a Ha. apply H2. lia. Qed.

Lemma table_upd_entry m m' f lo hi g k : table_upd m m' f lo hi g → ¬ (lo <= k < hi) →
  entry m' f k = entry m f k.
Proof. intros [_ H2] Hk. apply H2. intros. lia. Qed.

Lemma table_upd_other m m' f lo hi g f' k : aligned f → aligned f' → f ≠ f' →
  0 <= lo → hi <= 512 → 0 <= k < 512 →
  table_upd m m' f lo hi g → entry m' f' k = entry m f' k.
Proof.
  intros Hf Hf' Hne Hlo Hhi Hk Hu. apply (entry_outside f); try done.
  by apply (table_upd_outside m m' f lo hi g).
Qed.

Section slots.
Context `{HM : Mmu} {A : Type} `{HA : FrameAllocator A}.
Implicit Types s : vm A.

Definition locked_vm s : vm A :=
  with_pg_lock s (Spinlock (u16 (next (pg_lock s) + 1)) (owner (pg_lock s))).

(** The state after an operation that took and released the lock. *)
Definition done_vm s (m : gmap Z Z) (inv : list Z) (fr : A) : vm A :=
  Vm m (vm_cr3 s) (lock_cycle (pg_lock s)) inv fr.

Lemma lock_vm_bind {B} s (k : vm A → outcome B) : lock_free (pg_lock s) →
  (lock_vm s ≫= k) = k (locked_vm s).
Proof. intros Hl. unfold lock_vm. by rewrite spin_lock_free. Qed.

Lemma vld_window s tbl f i : window (vm_mem s) (vm_cr3 s) tbl f → 0 <= i < 512 →
  vld s (slot tbl i) = Ok (entry (vm_mem s) f i).
Proof. intros Hw Hi. unfold vld. by rewrite (Hw _ (same_outside_refl f _) i Hi). Qed.

Lemma vst_window s tbl f i v : window (vm_mem s) (vm_cr3 s) tbl f → 0 <= i < 512 →
  vst s (slot tbl i) v = Ok (with_mem s (<[f + 8 * i := v]> (vm_mem s))).
Proof. intros Hw Hi. unfold vst. by rewrite (Hw _ (same_outside_refl f _) i Hi). Qed.

Section one_table.
Context (tbl f : Z) (s : vm A) (Hw : window (vm_mem s) (vm_cr3 s) tbl f).
Let m := vm_mem s.

Lemma window_with_mem m' : same_outside f m m' → window (vm_mem (with_mem s m')) (vm_cr3 (with_mem s m')) tbl f.
Proof using Hw. intros Hs. by eapply window_outside. Qed.

Lemma map_slot_ok lo hi val va : 0 <= lo <= hi → hi <= 512 →
  wp (while (map_slot_step tbl hi val va) (lo, s)) (fun '(r, s') =>
    (∃ i m', lo <= i < hi ∧ slot_free m f i ∧ (∀ k, lo <= k < i → ¬ slot_free m f k) ∧
       r = va i ∧ table_upd m m' f i (i + 1) (fun _ => val) ∧ s' = unlock_vm (with_mem s m')) ∨
    ((∀ k, lo <= k < hi → ¬ slot_free m f k) ∧ r = 0 ∧ s' = unlock_vm s)).
Proof using Hw.
  intros Hlo Hhi.
  apply (wp_while _ (fun st => st.2 = s ∧ lo <= st.1 <= hi ∧ ∀ k, lo <= k < st.1 → ¬ slot_free m f k)
           (fun st => hi - st.1)); [|cbn; split; [done|]; split; lia|cbn; lia].
  intros [i s1] (E & Hi & Hall). cbn in E, Hi, Hall. subst s1. unfold map_slot_step.
  destruct (Z.ltb_spec i hi).
  - rewrite (vld_window s tbl f i Hw) by lia. run. rewrite absent_land.
    destruct (present (entry (vm_mem s) f i)) eqn:E; cbn [negb].
    + change (i +w 1) with (u64 (i + 1)). rewrite u64_id by (unfold is_u64; lia).
      split; [|cbn; lia]. split; [done|]. split; [cbn; lia|]. cbn. intros k Hk.
      destruct (Z.eq_dec k i) as [->|]; [|apply Hall; lia]. unfold slot_free, m. by rewrite E.
    + rewrite (vst_window s tbl f i val Hw) by lia. run. left. exists i. eexists.
      split; [lia|]. split; [exact E|]. split; [exact Hall|]. split; [done|].
      split; [apply table_upd_one|done].
  - right. split; [|done]. intros k Hk. apply Hall. lia.
Qed.

Lemma count_slots_ok i num : 0 <= i → 1 <= num → i + num <= 512 → slot_free m f i →
  wp (while (count_slots_step tbl i num s) (i +w 1, 1)) (fun '(j, count) =>
    j = i + count ∧ 1 <= count <= num ∧ (∀ k, i <= k < j → slot_free m f k) ∧
    (count = num ∨ (count < num ∧ ¬ slot_free m f j))).
Proof using Hw.
  intros Hi Hnum Hend Hfree.
  apply (wp_while _ (fun '(j, count) => j = i + count ∧ 1 <= count <= num ∧
                       ∀ k, i <= k < j → slot_free m f k)
           (fun st => num - st.2)).
  - intros [j count] (-> & Hc & Hall). unfold count_slots_step.
    change (i +w num) with (u64 (i + num)). rewrite u64_id by (unfold is_u64; lia).
    destruct (Z.ltb_spec (i + count) (i + num)).
    + rewrite (vld_window s tbl f _ Hw) by lia. run. rewrite absent_land.
      destruct (present (entry (vm_mem s) f (i + count))) eqn:E; cbn [negb].
      * split; [lia|]. split; [lia|]. split; [done|]. right. split; [lia|]. unfold slot_free, m. by rewrite E.
      * rewrite !u64_id by (unfold is_u64; lia). split; [|cbn; lia].
        split; [lia|]. split; [lia|]. intros k Hk.
        destruct (Z.eq_dec k (i + count)) as [->|]; [exact E|]. apply Hall. lia.
    + split; [lia|]. split; [lia|]. split; [done|]. left. lia.
  - rewrite u64_id by (unfold is_u64; lia). split; [done|]. split; [lia|].
    intros k Hk. by replace k with i by lia.
  - cbn. lia.
Qed.

Lemma fill_slots_ok i num frame flags size : 0 <= i → 0 <= num → i + num <= 512 → is_u64 frame →
  wp (while (fill_slots_step tbl i num flags size) (i, frame, s)) (fun s' =>
    ∃ m', s' = with_mem s m' ∧
      table_upd m m' f i (i + num) (fun k => Z.lor (u64 (frame + size * (k - i))) flags)).
Proof using Hw.
  intros Hi Hnum Hend Hfr.
  set (g := fun k => Z.lor (u64 (frame + size * (k - i))) flags).
  apply (wp_while _ (fun '(j, fr, s1) => i <= j <= i + num ∧ fr = u64 (frame + size * (j - i)) ∧
                       ∃ m', s1 = with_mem s m' ∧ table_upd m m' f i j g)
           (fun st => i + num - st.1.1)).
  - intros [[j fr] s1] (Hj & -> & m' & -> & Hu). unfold fill_slots_step.
    change (i +w num) with (u64 (i + num)). rewrite u64_id by (unfold is_u64; lia).
    destruct (Z.ltb_spec j (i + num)).
    + assert (Ho : same_outside f m m') by (eapply table_upd_outside; [..|exact Hu]; lia).
      rewrite (vst_window _ tbl f) by (apply window_with_mem, Ho || lia). run.
      rewrite (u64_id (j + 1)) by (unfold is_u64; lia).
      split; [|cbn; lia]. split; [lia|]. split.
      * unfold u64. rewrite Zplus_mod_idemp_l. f_equal. lia.
      * eexists. split; [reflexivity|]. apply table_upd_snoc; [lia|done|exact Hu].
    + exists m'. split; [done|]. by replace (i + num) with j by lia.
  - split; [lia|]. split; [rewrite u64_id; [lia|]; replace (frame + size * (i - i)) with frame by lia; done|].
    exists m. split; [by destruct s|apply table_upd_nil].
  - cbn. lia.
Qed.

Lemma unmap_run_ok mask size num i pg : 0 <= i → 0 <= num → i + num <= 512 →
  wp (while (unmap_run_step tbl mask size) (num, i, pg, 0, s)) (fun '(r, s') =>
    ∃ m' inv, s' = unlock_vm (Vm m' (vm_cr3 s) (pg_lock s) inv (vm_frames s)) ∧
      table_upd m m' f i (i + num) (fun _ => 0) ∧
      ((r = 0 ∧ ∀ k, i <= k < i + num → Z.land (entry m f k) mask = 0) ∨
       ∃ k, i <= k < i + num ∧ r = Z.land (entry m f k) mask ∧ r ≠ 0 ∧
         ∀ k', i <= k' < k → Z.land (entry m f k') mask = 0)).
Proof using Hw.
  intros Hi Hnum Hend.
  set (first := fun j r => (r = 0 ∧ ∀ k, i <= k < j → Z.land (entry m f k) mask = 0) ∨
       ∃ k, i <= k < j ∧ r = Z.land (entry m f k) mask ∧ r ≠ 0 ∧
         ∀ k', i <= k' < k → Z.land (entry m f k') mask = 0).
  apply (wp_while _ (fun '(n, j, pg, r, s1) => 0 <= n <= num ∧ j = i + num - n ∧ first j r ∧
                       ∃ m' inv, s1 = Vm m' (vm_cr3 s) (pg_lock s) inv (vm_frames s) ∧
                         table_upd m m' f i j (fun _ => 0))
           (fun st => st.1.1.1.1)).
  - intros [[[[n j] pg1] r] s1] (Hn & -> & Hf & m' & inv & -> & Hu). unfold unmap_run_step.
    destruct (Z.ltb_spec 0 n).
    + assert (Ho : same_outside f m m') by (eapply table_upd_outside; [..|exact Hu]; lia).
      set (s1 := Vm m' (vm_cr3 s) (pg_lock s) inv (vm_frames s)).
      assert (Hw1 : window (vm_mem s1) (vm_cr3 s1) tbl f) by (by apply (window_outside m)).
      set (j := i + num - n) in *.
      assert (He : entry (vm_mem s1) f j = entry m f j) by (eapply table_upd_entry; [exact Hu|lia]).
      assert (Hnew : ∃ r', (if r =? 0 then e ← vld s1 (slot tbl j); Ok (e .& mask) else Ok r) = Ok r' ∧
                       first (j + 1) r').
      { destruct (Z.eqb_spec r 0) as [->|Hr].
        - rewrite (vld_window _ tbl f _ Hw1) by lia. run. rewrite He. eexists. split; [reflexivity|].
          destruct Hf as [[_ Hz]|(k & _ & _ & Hne & _)]; [|done].
          destruct (Z.eq_dec (Z.land (entry m f j) mask) 0) as [Hz0|Hnz].
          + left. split; [done|]. intros k Hk. destruct (Z.eq_dec k j) as [->|]; [done|]. apply Hz. lia.
          + right. exists j. split; [lia|]. split; [done|]. split; [done|]. intros k Hk. apply Hz. lia.
        - exists r. split; [done|]. destruct Hf as [[? _]|(k & Hk & ? & ? & ?)]; [done|].
          right. exists k. split; [lia|]. done. }
      destruct Hnew as (r' & -> & Hf'). run.
      rewrite (vst_window _ tbl f _ _ Hw1) by lia. run.
      rewrite !u64_id by (unfold is_u64; lia). split; [|cbn; lia].
      split; [lia|]. split; [lia|]. split; [by replace (i + num - (n - 1)) with (j + 1) by lia|].
      eexists _, _. split; [reflexivity|].
      replace (j + 1) with (j + 1) by lia. apply table_upd_snoc; [lia|done|exact Hu].
    + exists m', inv. split; [done|]. replace (i + num - n) with (i + num) in Hf, Hu by lia.
      split; [done|]. exact Hf.
  - split; [lia|]. split; [lia|]. split; [left; split; [done|lia]|].
    exists m, (vm_invlpg s). split; [by destruct s|].
    replace (i + num - num) with i by lia. apply table_upd_nil.
  - cbn. lia.
Qed.
End one_table.
End slots.

(** ** The kernel window

    The 2 MB at [KERNEL_MAPPING_BASE] for 4 KB pages and the range up to
    [LG_PG_LIMIT] for 2 MB pages. Both are reached through one PDPT and one
    page directory; [f1] is the page table of the first. *)

(** Indices of the large slots in the page directory. *)
Definition LG_LO : Z := 6.
Definition LG_HI : Z := 16.

Section kernel_window.
Context `{HM : Mmu} {A : Type} `{HA : FrameAllocator A}.
Implicit Types s : vm A.

Record kernel_pt s (f3 f2 f1 : Z) : Prop := {
  kp_pt : pt_at (vm_mem s) (vm_cr3 s) KERNEL_MAPPING_BASE f3 f2 f1;
  kp_ne2 : f2 ≠ vm_cr3 s ∧ f2 ≠ f3;
  kp_ne1 : f1 ≠ vm_cr3 s ∧ f1 ≠ f3 ∧ f1 ≠ f2;
  kp_lock : lock_free (pg_lock s)
}.

Definition kernel_pt_va : Z := rec_va 0 0 5 0.
Definition kernel_pdt_va : Z := rec_va 511 0 0 0.

Lemma get_kernel_pt : get_paging_struct_vaddr KERNEL_MAPPING_BASE 3 = Ok kernel_pt_va.
Proof. reflexivity. Qed.
Lemma get_kernel_pdt : get_paging_struct_vaddr LG_PG_BASE 2 = Ok kernel_pdt_va.
Proof. reflexivity. Qed.

Section one_state.
Context (s : vm A) (f3 f2 f1 : Z) (Hk : kernel_pt s f3 f2 f1).
Let m := vm_mem s.

Lemma kernel_pt_window : window m (vm_cr3 s) kernel_pt_va f1.
Proof using Hk.
  destruct Hk as [Hp [? ?] (? & ? & ?) _].
  exact (pt_window _ _ KERNEL_MAPPING_BASE f3 f2 f1 Hp ltac:(done) ltac:(done) ltac:(done)).
Qed.
Lemma kernel_pdt_window : window m (vm_cr3 s) kernel_pdt_va f2.
Proof using Hk.
  destruct Hk as [[Hp _] [? ?] _ _].
  exact (pdt_window _ _ KERNEL_MAPPING_BASE f3 f2 Hp ltac:(done) ltac:(done)).
Qed.

Lemma aligned_f2 : aligned f2.
Proof using Hk. exact (table_aligned _ _ (proj2 (proj1 (kp_pt _ _ _ _ Hk)))). Qed.
Lemma aligned_f1 : aligned f1.
Proof using Hk. exact (table_aligned _ _ (proj2 (kp_pt _ _ _ _ Hk))). Qed.

(** Writes to the page table, and to the large slots, keep the window. *)
Lemma kernel_pt_upd1 m' inv fr : same_outside f1 m m' → kernel_pt (done_vm s m' inv fr) f3 f2 f1.
Proof using Hk.
  intros Hs. pose proof aligned_f1. destruct Hk as [Hp ? (? & ? & ?) Hl]. split; try done.
  - by apply (pt_at_outside f1 m).
  - by apply lock_cycle_free.
Qed.
Lemma kernel_pt_upd2 m' inv fr lo hi g : LG_LO <= lo → hi <= 512 → table_upd m m' f2 lo hi g →
  kernel_pt (done_vm s m' inv fr) f3 f2 f1.
Proof using Hk.
  intros Hlo Hhi Hu. pose proof aligned_f2. destruct Hk as [[Hp H1] [? ?] ? Hl]. split; try done.
  - split; cbn [vm_mem vm_cr3 done_vm].
    + apply (pdt_at_outside f2 m); try done.
      apply (table_upd_outside m m' f2 lo hi g); [unfold LG_LO in Hlo; lia|done|done].
    + rewrite (table_upd_entry m m' f2 lo hi g) by (done || (change (idx2 KERNEL_MAPPING_BASE) with 5; unfold LG_LO in Hlo; lia)).
      exact H1.
  - by apply lock_cycle_free.
Qed.

(** What the memory management unit makes of a slot. *)
Lemma kernel_translate i o : 0 <= i < 512 → 0 <= o < 4096 → present (entry m f1 i) = true →
  translate m (vm_cr3 s) (KERNEL_MAPPING_BASE + 4096 * i + o) = Some (frame_of (entry m f1 i) + o).
Proof using Hk.
  intros Hi Ho Hpr. destruct Hk as [[[[Hr H3] H2] H1] _ _ _].
  change KERNEL_MAPPING_BASE with 0xA00000 in *.
  rewrite (translate_4k m (vm_cr3 s) _ f3 f2 f1).
  - replace (idx1 (0xA00000 + 4096 * i + o)) with i by (unfold idx1; dlia). f_equal. dlia.
  - left. lia.
  - by replace (idx4 (0xA00000 + 4096 * i + o)) with 0 by (unfold idx4; dlia).
  - by replace (idx3 (0xA00000 + 4096 * i + o)) with 0 by (unfold idx3; dlia).
  - by replace (idx2 (0xA00000 + 4096 * i + o)) with 5 by (unfold idx2; dlia).
  - by replace (idx1 (0xA00000 + 4096 * i + o)) with i by (unfold idx1; dlia).
Qed.

Lemma kernel_translate_absent i o : 0 <= i < 512 → 0 <= o < 4096 → slot_free m f1 i →
  translate m (vm_cr3 s) (KERNEL_MAPPING_BASE + 4096 * i + o) = None.
Proof using Hk.
  intros Hi Ho Hpr. destruct Hk as [[[[Hr H3] H2] H1] _ _ _].
  change KERNEL_MAPPING_BASE with 0xA00000 in *.
  rewrite (translate_absent1 m (vm_cr3 s) _ f3 f2 f1); [done|left; lia|..].
  - by replace (idx4 (0xA00000 + 4096 * i + o)) with 0 by (unfold idx4; dlia).
  - by replace (idx3 (0xA00000 + 4096 * i + o)) with 0 by (unfold idx3; dlia).
  - by replace (idx2 (0xA00000 + 4096 * i + o)) with 5 by (unfold idx2; dlia).
  - by replace (idx1 (0xA00000 + 4096 * i + o)) with i by (unfold idx1; dlia).
Qed.

Lemma large_translate i o : LG_LO <= i < LG_HI → 0 <= o < 2 ^ 21 →
  present (entry m f2 i) = true → page_size (entry m f2 i) = true →
  Z.land (entry m f2 i) 0x1FE000 = 0 →
  translate m (vm_cr3 s) (2 ^ 21 * i + o) = Some (large_frame_of (entry m f2 i) + o).
Proof using Hk.
  unfold LG_LO, LG_HI. intros Hi Ho Hpr Hps Hz. destruct Hk as [[[[Hr H3] H2] _] _ _ _].
  assert (E2 : idx2 (2 ^ 21 * i + o) = i) by (unfold idx2; dlia).
  rewrite (translate_2m m (vm_cr3 s) _ f3 f2).
  - rewrite E2. f_equal. dlia.
  - left. lia.
  - by replace (idx4 (2 ^ 21 * i + o)) with 0 by (unfold idx4; dlia).
  - by replace (idx3 (2 ^ 21 * i + o)) with 0 by (unfold idx3; dlia).
  - by rewrite E2.
  - by rewrite E2.
  - by rewrite E2.
Qed.
End one_state.

(** [r] is the address of the first free slot, which now holds [val]. *)
Definition mapped_first s (f lo hi val : Z) (va : Z → Z) (r : Z) (s' : vm A) : Prop :=
  ∃ i m', lo <= i < hi ∧ slot_free (vm_mem s) f i ∧
    (∀ k, lo <= k < i → ¬ slot_free (vm_mem s) f k) ∧ r = va i ∧
    table_upd (vm_mem s) m' f i (i + 1) (fun _ => val) ∧
    s' = done_vm s m' (vm_invlpg s) (vm_frames s).
Definition nothing_mapped s (r : Z) (s' : vm A) : Prop :=
  r = 0 ∧ s' = done_vm s (vm_mem s) (vm_invlpg s) (vm_frames s).

Lemma kernel_va_ok i : 0 <= i < 512 → kernel_va i = KERNEL_MAPPING_BASE + 4096 * i.
Proof.
  intros Hi. unfold kernel_va. rewrite Z.shiftl_mul_pow2 by (unfold PG_BITS; lia).
  change KERNEL_MAPPING_BASE with 0xA00000. change (2 ^ PG_BITS) with 4096.
  rewrite !u64_id by (unfold is_u64; rewrite ?u64_id; unfold is_u64; lia). lia.
Qed.
Lemma large_va_ok i : LG_LO <= i < LG_HI → large_va i = 2 ^ 21 * i.
Proof.
  unfold LG_LO, LG_HI. intros Hi. unfold large_va. rewrite Z.shiftl_mul_pow2 by (unfold LARGE_PG_BITS; lia).
  change (2 ^ LARGE_PG_BITS) with (2 ^ 21). rewrite u64_id by (unfold is_u64; lia). lia.
Qed.

Lemma vm_map_page_ok s f3 f2 f1 frame flags : kernel_pt s f3 f2 f1 →
  wp (vm_map_page s frame flags) (fun '(r, s') =>
    mapped_first s f1 0 512 (Z.lor frame flags) kernel_va r s' ∨
    ((∀ k, 0 <= k < 512 → ¬ slot_free (vm_mem s) f1 k) ∧ nothing_mapped s r s')).
Proof.
  intros Hk. pose proof (kernel_pt_window s f3 f2 f1 Hk) as Hw.
  unfold vm_map_page. rewrite lock_vm_bind by apply Hk. rewrite get_kernel_pt. run.
  apply (wp_mono _ _ _ (map_slot_ok kernel_pt_va f1 (locked_vm s) Hw 0 512
    (Z.lor frame flags) kernel_va ltac:(lia) ltac:(lia))).
  intros [r s'] [(i & m' & Hi & Hf & Hlow & -> & Hu & ->)|(Hall & -> & ->)].
  - left. by exists i, m'.
  - right. by split.
Qed.

Lemma vm_map_large_page_ok s f3 f2 f1 frame flags : kernel_pt s f3 f2 f1 →
  wp (vm_map_large_page s frame flags) (fun '(r, s') =>
    mapped_first s f2 LG_LO LG_HI (Z.lor frame flags) large_va r s' ∨
    ((∀ k, LG_LO <= k < LG_HI → ¬ slot_free (vm_mem s) f2 k) ∧ nothing_mapped s r s')).
Proof.
  intros Hk. pose proof (kernel_pdt_window s f3 f2 f1 Hk) as Hw.
  unfold vm_map_large_page. rewrite lock_vm_bind by apply Hk. rewrite get_kernel_pdt. run.
  apply (wp_mono _ _ _ (map_slot_ok kernel_pdt_va f2 (locked_vm s) Hw LG_LO LG_HI
    (Z.lor frame flags) large_va ltac:(unfold LG_LO, LG_HI; lia) ltac:(unfold LG_HI; lia))).
  intros [r s'] [(i & m' & Hi & Hf & Hlow & -> & Hu & ->)|(Hall & -> & ->)].
  - left. by exists i, m'.
  - right. by split.
Qed.

(** *** Runs of slots *)

Definition run_free (m : gmap Z Z) (f q num : Z) : Prop := ∀ k, q <= k < q + num → slot_free m f k.

(** The runs that the search cannot miss: one at the first slot, or one with a
    spare slot in front. *)
Definition sure_run (m : gmap Z Z) (f lo hi num q : Z) : Prop :=
  (q = lo ∧ run_free m f q num ∧ q + num <= hi) ∨
  (lo <= q ∧ run_free m f q (num + 1) ∧ q + num + 1 <= hi).

(** Where the search stands at slot [i]: every sure run is ahead, or its
    first slot has just been skipped. *)
Definition ahead (m : gmap Z Z) (f lo hi num i : Z) : Prop :=
  ∀ q, sure_run m f lo hi num q →
    i <= q ∨ (i = q + 1 ∧ run_free m f q (num + 1) ∧ q + num + 1 <= hi).

Lemma ahead_used m f lo hi num i : 1 <= num → ahead m f lo hi num i → ¬ slot_free m f i →
  ahead m f lo hi num (i + 1).
Proof.
  intros Hn Ha Hu q Hq. left. destruct (Ha q Hq) as [Hle|(-> & Hr & _)].
  - destruct (Z.eq_dec i q) as [E|]; [|lia]. subst q.
    destruct Hq as [(_ & Hr & _)|(_ & Hr & _)]; destruct Hu; apply Hr; lia.
  - destruct Hu. apply Hr. lia.
Qed.

Lemma ahead_short m f lo hi num i j : 1 <= num → lo <= i → i < j < i + num →
  ahead m f lo hi num i → ¬ slot_free m f j → ahead m f lo hi num (j + 1 + 1).
Proof.
  intros Hn Hlo Hj Ha Hu q Hq. destruct (Ha q Hq) as [Hle|(-> & Hr & _)].
  - destruct (Z.le_gt_cases q j).
    + destruct Hq as [(_ & Hr & _)|(_ & Hr & _)]; destruct Hu; apply Hr; lia.
    + destruct (Z.eq_dec q (j + 1)) as [E|]; [|lia]. right.
      destruct Hq as [(? & _)|(_ & Hr & Hb)]; [lia|]. split; [lia|]. done.
  - destruct Hu. apply Hr. lia.
Qed.

Lemma ahead_end m f lo hi num i q : hi < i + num → ahead m f lo hi num i →
  ¬ sure_run m f lo hi num q.
Proof. intros Hi Ha Hq. destruct (Ha q Hq) as [?|]; [|lia]. destruct Hq; lia. Qed.

(** [r] is the address of a run of free slots, now mapped to the frames from
    [frame] on. *)
Definition mapped_run s (f lo hi num frame flags size : Z) (va : Z → Z) (r : Z) (s' : vm A) : Prop :=
  ∃ i m', lo <= i ∧ i + num <= hi ∧ run_free (vm_mem s) f i num ∧ r = va i ∧
    table_upd (vm_mem s) m' f i (i + num)
      (fun k => Z.lor (u64 (frame + size * (k - i))) flags) ∧
    s' = done_vm s m' (vm_invlpg s) (vm_frames s).

Lemma map_run_round tbl f s lo hi num frame flags size va i :
  window (vm_mem s) (vm_cr3 s) tbl f → lock_free (pg_lock s) →
  0 <= lo → hi <= 512 → 1 <= num <= hi + 1 → is_u64 frame →
  lo <= i <= hi + 1 → ahead (vm_mem s) f lo hi num i →
  wp (map_run_step tbl (hi - num + 1) num frame flags size va (i, locked_vm s)) (fun x =>
    match x with
    | inl (i', s') => s' = locked_vm s ∧ i < i' <= hi + 1 ∧ ahead (vm_mem s) f lo hi num i'
    | inr (r, s') => mapped_run s f lo hi num frame flags size va r s' ∨
        ((∀ q, ¬ sure_run (vm_mem s) f lo hi num q) ∧ nothing_mapped s r s')
    end).
Proof.
  intros Hw Hl Hlo Hhi Hnum Hfr Hi Ha. unfold map_run_step.
  destruct (Z.ltb_spec i (hi - num + 1)).
  - rewrite (vld_window (locked_vm s) tbl f i Hw) by lia. run. rewrite absent_land.
    destruct (present (entry (vm_mem (locked_vm s)) f i)) eqn:E; cbn [negb].
    + rewrite (u64_id (i + 1)) by (unfold is_u64; lia). split; [done|]. split; [lia|].
      apply ahead_used; [lia|done|]. change (vm_mem (locked_vm s)) with (vm_mem s) in E.
      unfold slot_free. by rewrite E.
    + wp_step.
      apply (wp_mono _ _ _ (count_slots_ok tbl f (locked_vm s) Hw i num ltac:(lia) ltac:(lia) ltac:(lia) E)).
      intros [j count] (-> & Hc & Hrun & Hend). destruct (Z.eqb_spec count num) as [->|Hne].
      * wp_step.
        apply (wp_mono _ _ _ (fill_slots_ok tbl f (locked_vm s) Hw i num frame flags size ltac:(lia) ltac:(lia) ltac:(lia) Hfr)).
        intros s' (m' & -> & Hu). left. exists i, m'. split; [lia|]. split; [lia|]. done.
      * destruct Hend as [|[Hlt Hused]]; [done|].
        rewrite !u64_id by (unfold is_u64; rewrite ?u64_id; unfold is_u64; lia).
        split; [done|]. split; [lia|]. apply (ahead_short _ _ _ _ _ i); done || lia.
  - right. split; [|done]. intros q. apply (ahead_end _ _ _ _ _ i); [lia|done].
Qed.

Lemma map_run_ok tbl f s lo hi num frame flags size va :
  window (vm_mem s) (vm_cr3 s) tbl f → lock_free (pg_lock s) →
  0 <= lo <= hi → hi <= 512 → 1 <= num <= hi + 1 → is_u64 frame →
  wp (while (map_run_step tbl (hi -w num +w 1) num frame flags size va) (lo, locked_vm s))
    (fun '(r, s') => mapped_run s f lo hi num frame flags size va r s' ∨
        ((∀ q, ¬ sure_run (vm_mem s) f lo hi num q) ∧ nothing_mapped s r s')).
Proof.
  intros Hw Hl Hlo Hhi Hnum Hfr.
  replace (hi -w num +w 1) with (hi - num + 1).
  2:{ unfold u64. rewrite Zplus_mod_idemp_l, Z.mod_small; lia. }
  apply (wp_while _ (fun st => st.2 = locked_vm s ∧ lo <= st.1 <= hi + 1 ∧
                               ahead (vm_mem s) f lo hi num st.1)
           (fun st => hi + 1 - st.1)).
  - intros [i s1] (E & Hi & Ha). cbn in E, Hi, Ha. subst s1.
    apply (wp_mono _ _ _ (map_run_round tbl f s lo hi num frame flags size va i Hw Hl
             ltac:(lia) Hhi Hnum Hfr Hi Ha)).
    intros [[i' s']|[r s']]; [|done]. intros (-> & Hi' & Ha').
    split; [|cbn; lia]. split; [done|]. split; [cbn; lia|done].
  - split; [done|]. split; [cbn; lia|]. intros q Hq. left. cbn. destruct Hq; lia.
  - cbn. lia.
Qed.

Lemma vm_map_pages_ok s f3 f2 f1 frame num flags : kernel_pt s f3 f2 f1 →
  1 <= num <= 513 → is_u64 frame →
  wp (vm_map_pages s frame num flags) (fun '(r, s') =>
    mapped_run s f1 0 512 num frame flags PG_SIZE kernel_va r s' ∨
    ((∀ q, ¬ sure_run (vm_mem s) f1 0 512 num q) ∧ nothing_mapped s r s')).
Proof.
  intros Hk Hn Hfr. unfold vm_map_pages. destruct (Z.ltb_spec num 1); [lia|].
  rewrite lock_vm_bind by apply Hk. rewrite get_kernel_pt. run.
  apply (map_run_ok kernel_pt_va f1 s 0 512); try done; [by eapply kernel_pt_window|apply Hk|lia..].
Qed.

Lemma vm_map_large_pages_ok s f3 f2 f1 frame num flags : kernel_pt s f3 f2 f1 →
  1 <= num <= 17 → is_u64 frame →
  wp (vm_map_large_pages s frame num flags) (fun '(r, s') =>
    mapped_run s f2 LG_LO LG_HI num frame flags LARGE_PG_SIZE large_va r s' ∨
    ((∀ q, ¬ sure_run (vm_mem s) f2 LG_LO LG_HI num q) ∧ nothing_mapped s r s')).
Proof.
  intros Hk Hn Hfr. unfold vm_map_large_pages. destruct (Z.ltb_spec num 1); [lia|].
  rewrite lock_vm_bind by apply Hk. rewrite get_kernel_pdt. run.
  apply (map_run_ok kernel_pdt_va f2 s LG_LO LG_HI); try done; [by eapply kernel_pdt_window|apply Hk|unfold LG_LO, LG_HI; lia..].
Qed.

(** *** Unmapping *)

Lemma page_index va k : 0 <= k → Z.land (Z.shiftr va k) PG_TABLE_MASK = va / 2 ^ k mod 512.
Proof.
  intros Hk. change PG_TABLE_MASK with (Z.ones 9).
  by rewrite Z.land_ones, Z.shiftr_div_pow2 by lia.
Qed.

(** The slots from that of [va] on are cleared; [r] is the first frame other
    than 0 that they held. *)
Definition unmapped s (f i num mask r : Z) (s' : vm A) : Prop :=
  ∃ m' inv, s' = done_vm s m' inv (vm_frames s) ∧
    table_upd (vm_mem s) m' f i (i + num) (fun _ => 0) ∧
    ((r = 0 ∧ ∀ k, i <= k < i + num → Z.land (entry (vm_mem s) f k) mask = 0) ∨
     ∃ k, i <= k < i + num ∧ r = Z.land (entry (vm_mem s) f k) mask ∧ r ≠ 0 ∧
       ∀ k', i <= k' < k → Z.land (entry (vm_mem s) f k') mask = 0).

Lemma get_pt_of_kernel_va i o : 0 <= i < 512 → 0 <= o < 4096 →
  let va := KERNEL_MAPPING_BASE + 4096 * i + o in
  get_paging_struct_vaddr va 3 = Ok kernel_pt_va ∧
  Z.land (Z.shiftr va PG_BITS) PG_TABLE_MASK = i.
Proof.
  cbv zeta. intros Hi Ho. change KERNEL_MAPPING_BASE with 0xA00000. split.
  - rewrite get_pt by (unfold is_u64; lia). f_equal. unfold kernel_pt_va.
    f_equal; [unfold idx4|unfold idx3|unfold idx2]; dlia.
  - rewrite page_index by (unfold PG_BITS; lia). change (2 ^ PG_BITS) with 4096. dlia.
Qed.

Lemma get_pdt_of_large_va i o : LG_LO <= i < LG_HI → 0 <= o < 2 ^ 21 →
  let va := 2 ^ 21 * i + o in
  get_paging_struct_vaddr va 2 = Ok kernel_pdt_va ∧
  Z.land (Z.shiftr va LARGE_PG_BITS) PG_TABLE_MASK = i.
Proof.
  unfold LG_LO, LG_HI. cbv zeta. intros Hi Ho. split.
  - rewrite get_pdt by (unfold is_u64; lia). f_equal. unfold kernel_pdt_va.
    f_equal; [unfold idx4|unfold idx3]; dlia.
  - rewrite page_index by (unfold LARGE_PG_BITS; lia). change (2 ^ LARGE_PG_BITS) with (2 ^ 21). dlia.
Qed.

Lemma clear_slot_ok tbl f s i mask va :
  window (vm_mem s) (vm_cr3 s) tbl f → 0 <= i < 512 →
  clear_slot s tbl i mask va =
    Ok (Z.land (entry (vm_mem s) f i) mask,
        Vm (<[f + 8 * i := 0]> (vm_mem s)) (vm_cr3 s) (pg_lock s) (va :: vm_invlpg s) (vm_frames s)).
Proof.
  intros Hw Hi. unfold clear_slot. rewrite (vld_window s tbl f i Hw Hi). run.
  rewrite (vst_window s tbl f i 0 Hw Hi). run. reflexivity.
Qed.

Lemma vm_unmap_page_ok s f3 f2 f1 i o : kernel_pt s f3 f2 f1 → 0 <= i < 512 → 0 <= o < 4096 →
  let va := KERNEL_MAPPING_BASE + 4096 * i + o in
  vm_unmap_page s va =
    Ok (Z.land (entry (vm_mem s) f1 i) PG_MASK,
        done_vm s (<[f1 + 8 * i := 0]> (vm_mem s)) (va :: vm_invlpg s) (vm_frames s)).
Proof.
  cbv zeta. intros Hk Hi Ho. destruct (get_pt_of_kernel_va i o Hi Ho) as [E1 E2].
  unfold vm_unmap_page. rewrite lock_vm_bind by apply Hk. rewrite E1. run.
  rewrite E2. rewrite (clear_slot_ok kernel_pt_va f1 (locked_vm s) i _ _ (kernel_pt_window s f3 f2 f1 Hk) Hi).
  run. reflexivity.
Qed.

Lemma vm_unmap_large_page_ok s f3 f2 f1 i o : kernel_pt s f3 f2 f1 → LG_LO <= i < LG_HI → 0 <= o < 2 ^ 21 →
  let va := 2 ^ 21 * i + o in
  vm_unmap_large_page s va =
    Ok (Z.land (entry (vm_mem s) f2 i) LARGE_PG_MASK,
        done_vm s (<[f2 + 8 * i := 0]> (vm_mem s)) (va :: vm_invlpg s) (vm_frames s)).
Proof.
  cbv zeta. intros Hk Hi Ho. destruct (get_pdt_of_large_va i o Hi Ho) as [E1 E2].
  assert (0 <= i < 512) by (unfold LG_LO, LG_HI in Hi; lia).
  unfold vm_unmap_large_page. rewrite lock_vm_bind by apply Hk. rewrite E1. run.
  rewrite E2. rewrite (clear_slot_ok kernel_pdt_va f2 (locked_vm s) i _ _ (kernel_pdt_window s f3 f2 f1 Hk) ltac:(done)).
  run. reflexivity.
Qed.

Lemma vm_unmap_pages_ok s f3 f2 f1 i o num : kernel_pt s f3 f2 f1 →
  0 <= i < 512 → 0 <= o < 4096 → 0 <= num → i + num <= 512 →
  wp (vm_unmap_pages s (KERNEL_MAPPING_BASE + 4096 * i + o) num)
    (fun '(r, s') => unmapped s f1 i num PG_MASK r s').
Proof.
  intros Hk Hi Ho Hn Hend. destruct (get_pt_of_kernel_va i o Hi Ho) as [E1 E2].
  unfold vm_unmap_pages. rewrite lock_vm_bind by apply Hk. rewrite E1. run. rewrite E2.
  apply (wp_mono _ _ _ (unmap_run_ok kernel_pt_va f1 (locked_vm s)
    (kernel_pt_window s f3 f2 f1 Hk) PG_MASK PG_SIZE num i _ ltac:(lia) Hn Hend)).
  intros [r s'] (m' & inv & -> & Hu & Hr). exists m', inv. split; [reflexivity|]. done.
Qed.

Lemma vm_unmap_large_pages_ok s f3 f2 f1 i o num : kernel_pt s f3 f2 f1 →
  LG_LO <= i < LG_HI → 0 <= o < 2 ^ 21 → 0 <= num → i + num <= 512 →
  wp (vm_unmap_large_pages s (2 ^ 21 * i + o) num)
    (fun '(r, s') => unmapped s f2 i num LARGE_PG_MASK r s').
Proof.
  intros Hk Hi Ho Hn Hend. destruct (get_pdt_of_large_va i o Hi Ho) as [E1 E2].
  assert (0 <= i) by (unfold LG_LO in Hi; lia).
  unfold vm_unmap_large_pages. rewrite lock_vm_bind by apply Hk. rewrite E1. run. rewrite E2.
  apply (wp_mono _ _ _ (unmap_run_ok kernel_pdt_va f2 (locked_vm s)
    (kernel_pdt_window s f3 f2 f1 Hk) LARGE_PG_MASK LARGE_PG_SIZE num i _ ltac:(lia) Hn Hend)).
  intros [r s'] (m' & inv & -> & Hu & Hr). exists m', inv. split; [reflexivity|]. done.
Qed.
End kernel_window.

(** ** Mapping anywhere: tables made on the way *)

(** [m'] keeps every entry that is present in [m]. *)
Definition mem_extends (m m' : gmap Z Z) : Prop :=
  ∀ a, present (ldw m a) = true → ldw m' a = ldw m a.

Lemma mem_extends_refl m : mem_extends m m.
Proof. done. Qed.
Lemma mem_extends_trans m1 m2 m3 : mem_extends m1 m2 → mem_extends m2 m3 → mem_extends m1 m3.
Proof. intros H1 H2 a Ha. rewrite H2; [by apply H1|]. by rewrite H1. Qed.
Lemma mem_extends_store m m' a v : mem_extends m m' → present (ldw m a) = false →
  mem_extends m (<[a := v]> m').
Proof.
  intros Hm Ha b Hb. rewrite ldw_insert. destruct (Z.eqb_spec a b) as [->|]; [congruence|].
  by apply Hm.
Qed.
#[export] Hint Resolve mem_extends_refl : rtv.

(** The entry made for a new table. *)
Lemma new_table_entry n : 0 <= n < 2 ^ 40 →
  table_entry (Z.lor (Z.lor (4096 * n) PGT_P) PGT_RW) (4096 * n).
Proof.
  intros Hn. assert (Hlow : ∀ k, 0 <= k < 12 → Z.testbit (4096 * n) k = false).
  { intros k Hk. replace (4096 * n) with (n * 2 ^ 12) by lia. apply Z.mul_pow2_bits_low. lia. }
  assert (Hhigh : ∀ k, 52 <= k → Z.testbit (4096 * n) k = false).
  { intros k Hk. rewrite <- (Z.mod_small (4096 * n) (2 ^ 52)) by lia.
    apply Z.mod_pow2_bits_high. lia. }
  split; [|split].
  - unfold present. by rewrite !Z.lor_spec, Hlow by lia.
  - unfold page_size. by rewrite !Z.lor_spec, Hlow by lia.
  - unfold frame_of. apply Z.bits_inj'. intros k Hk.
    rewrite Z.land_spec, !Z.lor_spec.
    replace (2 ^ 52 - 2 ^ 12) with (Z.shiftl (Z.ones 40) 12) by reflexivity.
    destruct (Z.lt_ge_cases k 12).
    + rewrite Hlow, Z.shiftl_spec_low by lia. apply andb_false_r.
    + assert (Hone : ∀ j, j = 0 ∨ j = 1 → Z.testbit (2 ^ j) k = false).
      { intros j Hj. apply Z.pow2_bits_false. lia. }
      change PGT_P with (2 ^ 0). change PGT_RW with (2 ^ 1). rewrite !Hone by lia.
      rewrite !orb_false_r, Z.shiftl_spec by lia. destruct (Z.lt_ge_cases k 52).
      * rewrite Z.ones_spec_low by lia. apply andb_true_r.
      * by rewrite Hhigh by lia.
Qed.

Lemma table_entry_det e f g : table_entry e f → table_entry e g → f = g.
Proof. intros (_ & _ & <-) (_ & _ & <-). done. Qed.

Section unrestricted.
Context `{HM : Mmu} {A : Type} `{HA : FrameAllocator A}.
Implicit Types s : vm A.

(** The frame [f] is not in the pool of the allocator. *)
Definition used s (f : Z) : Prop := avail (vm_frames s) (f / 4096) = false.

(** The allocator is sound and the frames it has left hold zeros. *)
Definition pool_ok s : Prop :=
  alloc_wf (vm_frames s) ∧
  ∀ n i, 0 <= n → avail (vm_frames s) n = true → 0 <= i < 512 → entry (vm_mem s) (4096 * n) i = 0.

(** Entry [i] of [f], if present, is a table of its own. *)
Definition below s (up : list Z) (f i : Z) : Prop :=
  present (entry (vm_mem s) f i) = true →
  ∃ g, table_entry (entry (vm_mem s) f i) g ∧ (g ∉ up) ∧ used s g.

(** What [ensure_table] keeps. *)
Record grown s s' : Prop := {
  gr_cr3 : vm_cr3 s' = vm_cr3 s;
  gr_lock : pg_lock s' = pg_lock s;
  gr_inv : vm_invlpg s' = vm_invlpg s;
  gr_mem : mem_extends (vm_mem s) (vm_mem s');
  gr_used f : 0 <= f → used s f → used s' f
}.

Lemma grown_refl s : grown s s.
Proof. by split. Qed.
Lemma grown_trans s1 s2 s3 : grown s1 s2 → grown s2 s3 → grown s1 s3.
Proof.
  intros [? ? ? ? ?] [? ? ? ? ?]. split; try congruence; eauto using mem_extends_trans.
Qed.

(** The table made is new and empty. *)
Definition made_empty s s' (f i g : Z) : Prop :=
  slot_free (vm_mem s) f i ∧ (∃ v, vm_mem s' = <[f + 8 * i := v]> (vm_mem s)) ∧
  ∀ k, 0 <= k < 512 → entry (vm_mem s') g k = 0.

Lemma ensure_table_ok s tbl f i up msg :
  translate (vm_mem s) (vm_cr3 s) (slot tbl i) = Some (f + 8 * i) →
  0 <= i < 512 → aligned f → (∀ g, (g ∈ f :: up) → (0 <= g ∧ used s g)) →
  pool_ok s → below s (f :: up) f i →
  wpx (ensure_table s tbl i msg) (fun s' =>
    grown s s' ∧ pool_ok s' ∧
    ∃ g, table_entry (entry (vm_mem s') f i) g ∧ 0 <= g ∧ (g ∉ f :: up) ∧ used s' g ∧
      (s' = s ∨ made_empty s s' f i g)) (fun m => m = msg) False.
Proof.
  intros Htr Hi Hf Hup [Hwf Hblank] Hb. unfold ensure_table, vld. rewrite Htr. run.
  change (ldw (vm_mem s) (f + 8 * i)) with (entry (vm_mem s) f i). rewrite absent_land.
  destruct (present (entry (vm_mem s) f i)) eqn:E; cbn [negb].
  - destruct (Hb E) as (g & Hg & Hn & Hu). split; [apply grown_refl|]. split; [by split|].
    exists g. split; [done|]. split.
    { destruct Hg as (_ & _ & <-). unfold frame_of. apply Z.land_nonneg. right. lia. }
    split; [done|]. split; [done|]. by left.
  - destruct (alloc_frame_law _ Hwf) as (r & fr & -> & Hwf' & _ & Hr). run.
    destruct Hr as [(n & -> & Hn & Hav & Hav')|(-> & _)]; [|reflexivity].
    destruct (Z.eqb_spec (4096 * n) 0); [lia|]. unfold vst. cbn [vm_mem vm_cr3 with_frames].
    rewrite Htr. cbn [wpx].
    set (v := Z.lor (Z.lor (4096 * n) PGT_P) PGT_RW).
    assert (Hdiff : ∀ h, 0 <= h → used s h → h ≠ 4096 * n).
    { intros h Hh Hu ->. unfold used in Hu. rewrite Z.mul_comm, Z.div_mul in Hu by lia. congruence. }
    assert (Hfn : f ≠ 4096 * n) by (apply Hdiff; apply Hup; left).
    assert (Hsame : ∀ n' k, aligned (4096 * n') → f ≠ 4096 * n' → 0 <= k < 512 →
              entry (<[f + 8 * i := v]> (vm_mem s)) (4096 * n') k = entry (vm_mem s) (4096 * n') k).
    { intros n' k Ha Hne Hk. apply (entry_outside f); try done. by apply same_outside_store. }
    assert (Hal : ∀ n', aligned (4096 * n')) by (intros n'; unfold aligned; dlia).
    split; [split; try done|].
    { cbn. apply mem_extends_store; [done|exact E]. }
    { intros h Hh Hu. unfold used. cbn. rewrite Hav' by (apply Z.div_pos; lia).
      apply andb_false_iff. by left. }
    split.
    { split; [exact Hwf'|]. intros n' k Hn' Ha Hk. cbn in Ha |- *.
      rewrite Hav' in Ha by done. apply andb_true_iff in Ha as [Ha _].
      rewrite Hsame; try done; [by apply Hblank|]. intros ->.
      destruct (Hup (4096 * n') ltac:(left)) as [_ Hu]. unfold used in Hu.
      rewrite Z.mul_comm, Z.div_mul in Hu by lia. congruence. }
    exists (4096 * n). split.
    { cbn. rewrite entry_store, Z.eqb_refl. apply new_table_entry. lia. }
    split; [lia|]. split.
    { intros Hin. destruct (Hup _ Hin) as [Hp Hu]. by apply (Hdiff _ Hp Hu). }
    split.
    { unfold used. cbn. rewrite (Z.mul_comm 4096), Z.div_mul by lia.
      rewrite Hav' by lia. rewrite Z.eqb_refl. apply andb_false_r. }
    right. split; [exact E|]. split; [by exists v|]. intros k Hk. cbn.
    rewrite Hsame by done. apply Hblank; done || lia.
Qed.

Section path.
Context (va : Z) (Hva : is_u64 va) (Hrec : idx4 va ≠ 511).

(** Below a page directory the caller decides what is required ([L]); above,
    every entry on the path is absent or a table of its own. *)
Definition path2 (L : vm A → Z → Z → Prop) s (f3 : Z) : Prop :=
  below s [f3; vm_cr3 s] f3 (idx3 va) ∧
  ∀ f2, table_entry (entry (vm_mem s) f3 (idx3 va)) f2 → L s f3 f2.
Definition path3 (L : vm A → Z → Z → Prop) s : Prop :=
  below s [vm_cr3 s] (vm_cr3 s) (idx4 va) ∧
  ∀ f3, table_entry (entry (vm_mem s) (vm_cr3 s) (idx4 va)) f3 → path2 L s f3.

(** A page table may be missing, or is a table of its own, whose entry is free
    unless [T]. *)
Definition path1 (T : Prop) s (f3 f2 : Z) : Prop :=
  below s [f2; f3; vm_cr3 s] f2 (idx2 va) ∧
  ∀ f1, table_entry (entry (vm_mem s) f2 (idx2 va)) f1 → slot_free (vm_mem s) f1 (idx1 va) ∨ T.
(** The entry of the page directory is free unless [T]. *)
Definition large_leaf (T : Prop) s (f3 f2 : Z) : Prop := slot_free (vm_mem s) f2 (idx2 va) ∨ T.

Record has_root s : Prop := {
  hr_rec : rec_at (vm_mem s) (vm_cr3 s);
  hr_cr3 : 0 <= vm_cr3 s;
  hr_used : used s (vm_cr3 s);
  hr_pool : pool_ok s
}.
Record has_pdpt s (f3 : Z) : Prop := {
  h3_root : has_root s;
  h3_at : pdpt_at (vm_mem s) (vm_cr3 s) va f3;
  h3_pos : 0 <= f3;
  h3_used : used s f3;
  h3_ne : f3 ≠ vm_cr3 s
}.
Record has_pdt s (f3 f2 : Z) : Prop := {
  h2_pdpt : has_pdpt s f3;
  h2_at : pdt_at (vm_mem s) (vm_cr3 s) va f3 f2;
  h2_pos : 0 <= f2;
  h2_used : used s f2;
  h2_ne : f2 ≠ vm_cr3 s ∧ f2 ≠ f3
}.
Record has_pt s (f3 f2 f1 : Z) : Prop := {
  h1_pdt : has_pdt s f3 f2;
  h1_at : pt_at (vm_mem s) (vm_cr3 s) va f3 f2 f1;
  h1_ne : f1 ≠ vm_cr3 s ∧ f1 ≠ f3 ∧ f1 ≠ f2
}.

Lemma empty_entry m f i : entry m f i = 0 → present (entry m f i) = false.
Proof. by intros ->. Qed.
Lemma absent_no_table e f : present e = false → ¬ table_entry e f.
Proof. intros He (Hp & _). congruence. Qed.

Lemma ensure_pdpt_ok L s : has_root s → path3 L s →
  wpx (ensure_pdpt s va) (fun s' => grown s s' ∧ ∃ f3, has_pdpt s' f3 ∧ path2 L s' f3)
    (fun m => m = "page allocation for PDPT failed"%string) False.
Proof using Hva Hrec.
  intros [Hr Hc Hu Hp] [Hb Hnext]. pose proof (idx_bounds va) as (I4 & I3 & _).
  unfold ensure_pdpt. rewrite get_pml4t. run. rewrite pml4t_entry_idx.
  eapply wpx_post; [apply (ensure_table_ok s _ (vm_cr3 s) (idx4 va) [])|].
  - by apply translate_pml4t.
  - done.
  - exact (table_aligned _ _ Hr).
  - intros g Hg. apply list_elem_of_singleton in Hg as ->. done.
  - done.
  - done.
  - intros s' (Hg & Hp' & f3 & Ht & Hpos & Hn & Hu3 & Hcase). split; [done|]. exists f3.
    destruct Hg as [Ec El Ei Hm Hgu]. rewrite <- Ec in Hn, Ht.
    assert (Hne : f3 ≠ vm_cr3 s') by (intros ->; apply Hn; left).
    assert (Hr' : rec_at (vm_mem s') (vm_cr3 s')).
    { destruct Hcase as [->|(_ & [v Ev] & _)]; [done|]. unfold rec_at. rewrite Ev, Ec, entry_store.
      destruct (Z.eqb_spec (idx4 va) 511); [done|exact Hr]. }
    split; [split; [split|..]; try done|].
    + by rewrite Ec.
    + rewrite Ec. by apply Hgu.
    + destruct Hcase as [->|(_ & _ & Hz)]; [by apply Hnext|].
      pose proof (empty_entry _ _ _ (Hz (idx3 va) I3)) as He. split.
      * intros Hp3. congruence.
      * intros f2 H2. by destruct (absent_no_table _ _ He H2).
Qed.

Lemma ensure_pdt_ok (L : vm A → Z → Z → Prop) s f3 : has_pdpt s f3 → path2 L s f3 →
  (∀ s' f2, (∀ k, 0 <= k < 512 → entry (vm_mem s') f2 k = 0) → L s' f3 f2) →
  wpx (ensure_pdt s va) (fun s' => grown s s' ∧ ∃ f2, has_pdt s' f3 f2 ∧ L s' f3 f2)
    (fun m => m = "page allocation for PDT failed"%string) False.
Proof using Hva.
  intros [[Hr Hc Hu Hp] H3 Hpos3 Hu3 Hne3] [Hb Hnext] HL. pose proof (idx_bounds va) as (I4 & I3 & I2 & _).
  pose proof (table_aligned _ _ (proj2 H3)) as Ha3.
  unfold ensure_pdt. rewrite get_pdpt by done. run. rewrite pdpt_entry_idx.
  eapply wpx_post; [apply (ensure_table_ok s _ f3 (idx3 va) [vm_cr3 s])|].
  - by apply translate_pdpt.
  - done.
  - done.
  - intros g Hg. apply elem_of_cons in Hg as [->|Hg]; [done|].
    apply list_elem_of_singleton in Hg as ->. done.
  - done.
  - done.
  - intros s' (Hg & Hp' & f2 & Ht & Hpos & Hn & Hu2 & Hcase). split; [done|]. exists f2.
    destruct Hg as [Ec El Ei Hm Hgu]. rewrite <- Ec in Hn.
    assert (H3' : pdpt_at (vm_mem s') (vm_cr3 s') va f3).
    { rewrite Ec. destruct Hcase as [->|(_ & [v Ev] & _)]; [done|]. rewrite Ev.
      apply (pdpt_at_outside f3 (vm_mem s)); try done. by apply same_outside_store. }
    split.
    + split; [split; [split|..]|..]; try done.
      * apply H3'.
      * by rewrite Ec.
      * rewrite Ec. by apply Hgu.
      * by apply Hgu.
      * by rewrite Ec.
      * split; intros ->; apply Hn; [right; left|left].
    + destruct Hcase as [->|(_ & _ & Hz)]; [by apply Hnext|by apply HL].
Qed.

Lemma ensure_pt_ok T s f3 f2 : has_pdt s f3 f2 → path1 T s f3 f2 →
  wpx (ensure_pt s va) (fun s' => grown s s' ∧ ∃ f1, has_pt s' f3 f2 f1 ∧ pool_ok s' ∧
      (0 <= f1 ∧ used s' f1) ∧ (slot_free (vm_mem s') f1 (idx1 va) ∨ T))
    (fun m => m = "page allocation for PT failed"%string) False.
Proof using Hva.
  intros [[[Hr Hc Hu Hp] H3 Hpos3 Hu3 Hne3] H2 Hpos2 Hu2 [Hne Hne2]] [Hb Hnext].
  pose proof (idx_bounds va) as (I4 & I3 & I2 & I1).
  pose proof (table_aligned _ _ (proj2 H2)) as Ha2.
  unfold ensure_pt. rewrite get_pdt by done. run. rewrite pdt_entry_idx.
  eapply wpx_post; [apply (ensure_table_ok s _ f2 (idx2 va) [f3; vm_cr3 s])|].
  - by apply (translate_pdt _ _ va f3).
  - done.
  - done.
  - intros g Hg. apply elem_of_cons in Hg as [->|Hg]; [done|].
    apply elem_of_cons in Hg as [->|Hg]; [done|]. apply list_elem_of_singleton in Hg as ->. done.
  - done.
  - done.
  - intros s' (Hg & Hp' & f1 & Ht & Hpos & Hn & Hu1 & Hcase). split; [done|]. exists f1.
    destruct Hg as [Ec El Ei Hm Hgu]. rewrite <- Ec in Hn.
    assert (H2' : pdt_at (vm_mem s') (vm_cr3 s') va f3 f2).
    { rewrite Ec. destruct Hcase as [->|(_ & [v Ev] & _)]; [done|]. rewrite Ev.
      apply (pdt_at_outside f2 (vm_mem s)); try done. by apply same_outside_store. }
    split; [|split; [done|split; [done|]]].
    + split; [split; [split; [split|..]|..]|..]; try done; try apply H2'; rewrite ?Ec; auto.
      split; [|split]; intros ->; apply Hn; rewrite ?Ec; [do 2 right; left|right; left|left].
    + destruct Hcase as [->|(_ & _ & Hz)]; [by apply Hnext|].
      left. apply empty_entry, Hz, I1.
Qed.
End path.

(** The messages of a failed allocation. *)
Definition no_frame (m : string) : Prop :=
  m = "page allocation for PDPT failed"%string ∨ m = "page allocation for PDT failed"%string ∨
  m = "page allocation for PT failed"%string.

(** The entry for [va] is taken: in a page table, or in a page directory. *)
Definition page_taken s (va : Z) : Prop := ∃ f3 f2 f1,
  pt_at (vm_mem s) (vm_cr3 s) va f3 f2 f1 ∧ present (entry (vm_mem s) f1 (idx1 va)) = true.
Definition large_taken s (va : Z) : Prop := ∃ f3 f2,
  pdt_at (vm_mem s) (vm_cr3 s) va f3 f2 ∧ present (entry (vm_mem s) f2 (idx2 va)) = true.

(** What a successful map leaves: the entry at [f], [i] holds [val], no entry
    that was present has changed, the lock is free again. *)
Record map_done s s' (f i val : Z) : Prop := {
  md_cr3 : vm_cr3 s' = vm_cr3 s;
  md_lock : lock_free (pg_lock s');
  md_mem : mem_extends (vm_mem s) (vm_mem s');
  md_entry : entry (vm_mem s') f i = val
}.

Lemma set_free_slot_ok s tbl f i val T :
  translate (vm_mem s) (vm_cr3 s) (slot tbl i) = Some (f + 8 * i) →
  slot_free (vm_mem s) f i ∨ T →
  wpx (set_free_slot s tbl i val) (fun s' =>
      slot_free (vm_mem s) f i ∧ s' = with_mem s (<[f + 8 * i := val]> (vm_mem s)))
    (fun m => m = "page table entry not available"%string ∧ T) False.
Proof.
  intros Htr HT. unfold set_free_slot, vld, vst. rewrite Htr. run.
  change (ldw (vm_mem s) (f + 8 * i)) with (entry (vm_mem s) f i). rewrite absent_land.
  destruct (present (entry (vm_mem s) f i)) eqn:E; cbn [negb wpx]; [|done].
  split; [done|]. destruct HT as [HT|]; [|done]. unfold slot_free in HT. congruence.
Qed.

(** The three conditions under which the tables can be completed; [L] is what
    holds of the page directory. *)
Record can_map s (va : Z) (L : vm A → Z → Z → Prop) : Prop := {
  cm_u64 : is_u64 va;
  cm_idx : idx4 va ≠ 511;
  cm_lock : lock_free (pg_lock s);
  cm_root : has_root s;
  cm_path : path3 va L s
}.

Lemma grown_lock s s' : grown s s' → lock_free (pg_lock s) → lock_free (pg_lock s').
Proof. intros Hg Hl. by rewrite (gr_lock _ _ Hg). Qed.

Lemma locked_cycle s s' : lock_free (pg_lock s) → pg_lock s' = pg_lock (locked_vm s) →
  lock_free (pg_lock (unlock_vm s')).
Proof. intros Hl E. unfold unlock_vm. cbn. rewrite E. by apply lock_cycle_free. Qed.

Lemma vm_map_page_unrestricted_ok s frame flags va :
  can_map s va (path1 va (page_taken s va)) →
  wpx (vm_map_page_unrestricted s frame flags va) (fun s' => ∃ f3 f2 f1,
      pt_at (vm_mem s') (vm_cr3 s') va f3 f2 f1 ∧ map_done s s' f1 (idx1 va) (Z.lor frame flags))
    (fun m => no_frame m ∨ (m = "page table entry not available"%string ∧ page_taken s va)) False.
Proof.
  intros [Hva Hrec Hl Hroot Hpath]. unfold vm_map_page_unrestricted. rewrite lock_vm_bind by done.
  wp_step. eapply wpx_mono;
    [apply (ensure_pdpt_ok va Hva Hrec (path1 va (page_taken s va)) (locked_vm s))|
     |intros m ->; left; by left|done]; [by destruct Hroot|by destruct Hpath|].
  intros s3 (G3 & f3 & P3 & L3). wp_step. eapply wpx_mono;
    [apply (ensure_pdt_ok va Hva _ s3 f3 P3 L3)| |intros m ->; left; right; by left|done].
  { intros s' f2 Hz. pose proof (idx_bounds va). split.
    - intros Hp. rewrite (empty_entry _ _ _ (Hz (idx2 va) ltac:(lia))) in Hp. discriminate.
    - intros f1 H1. by destruct (absent_no_table _ _ (empty_entry _ _ _ (Hz (idx2 va) ltac:(lia))) H1). }
  intros s2 (G2 & f2 & P2 & L2). wp_step. eapply wpx_mono;
    [apply (ensure_pt_ok va Hva _ s2 f3 f2 P2 L2)| |intros m ->; left; right; by right|done].
  intros s1 (G1 & f1 & P1 & Hpool & _ & Hleaf). rewrite get_pt by done. run. rewrite pt_entry_idx.
  destruct P1 as [_ P1 [Hn1 [Hn2 Hn3]]]. pose proof (idx_bounds va).
  wp_step. eapply wpx_mono;
    [apply (set_free_slot_ok s1 _ f1 (idx1 va) _ (page_taken s va)); [|exact Hleaf]
    | |intros m Hm; by right|done].
  { apply (translate_pt _ _ va f3 f2); [done|lia]. }
  intros s0 (Hfree & ->). exists f3, f2, f1.
  pose proof (grown_trans _ _ _ (grown_trans _ _ _ G3 G2) G1) as G.
  split; [|split].
  - apply (pt_at_outside f1 (vm_mem s1)); try done; [exact (table_aligned _ _ (proj2 P1))|].
    apply same_outside_store. lia.
  - exact (gr_cr3 _ _ G).
  - apply (locked_cycle s); [done|exact (gr_lock _ _ G)].
  - cbn. apply mem_extends_store; [exact (gr_mem _ _ G)|].
    destruct (present (ldw (vm_mem s) (f1 + 8 * idx1 va))) eqn:E; [|done].
    pose proof (gr_mem _ _ G _ E) as Heq. unfold slot_free, entry in Hfree.
    rewrite Heq in Hfree. cbn in Hfree, E. congruence.
  - cbn. by rewrite entry_store, Z.eqb_refl.
Qed.

Lemma vm_map_large_page_unrestricted_ok s frame flags va :
  can_map s va (large_leaf va (large_taken s va)) →
  wpx (vm_map_large_page_unrestricted s frame flags va) (fun s' => ∃ f3 f2,
      pdt_at (vm_mem s') (vm_cr3 s') va f3 f2 ∧ map_done s s' f2 (idx2 va) (Z.lor frame flags))
    (fun m => no_frame m ∨ (m = "page table entry not available"%string ∧ large_taken s va)) False.
Proof.
  intros [Hva Hrec Hl Hroot Hpath]. unfold vm_map_large_page_unrestricted. rewrite lock_vm_bind by done.
  wp_step. eapply wpx_mono;
    [apply (ensure_pdpt_ok va Hva Hrec (large_leaf va (large_taken s va)) (locked_vm s))|
     |intros m ->; left; by left|done]; [by destruct Hroot|by destruct Hpath|].
  intros s3 (G3 & f3 & P3 & L3). wp_step. eapply wpx_mono;
    [apply (ensure_pdt_ok va Hva _ s3 f3 P3 L3)| |intros m ->; left; right; by left|done].
  { intros s' f2 Hz. pose proof (idx_bounds va). left. apply empty_entry, Hz. lia. }
  intros s2 (G2 & f2 & [_ P2 _ _ [Hn1 Hn2]] & L2). rewrite get_pdt by done. run. rewrite pdt_entry_idx.
  pose proof (idx_bounds va).
  wp_step. eapply wpx_mono;
    [apply (set_free_slot_ok s2 _ f2 (idx2 va) _ (large_taken s va)); [|exact L2]
    | |intros m Hm; by right|done].
  { apply (translate_pdt _ _ va f3); [done|lia]. }
  intros s0 (Hfree & ->). exists f3, f2. pose proof (grown_trans _ _ _ G3 G2) as G.
  split; [|split].
  - apply (pdt_at_outside f2 (vm_mem s2)); try done; [exact (table_aligned _ _ (proj2 P2))|].
    apply same_outside_store. lia.
  - exact (gr_cr3 _ _ G).
  - apply (locked_cycle s); [done|exact (gr_lock _ _ G)].
  - cbn. apply mem_extends_store; [exact (gr_mem _ _ G)|].
    destruct (present (ldw (vm_mem s) (f2 + 8 * idx2 va))) eqn:E; [|done].
    pose proof (gr_mem _ _ G _ E) as Heq. unfold slot_free, entry in Hfree.
    rewrite Heq in Hfree. cbn in Hfree, E. congruence.
  - cbn. by rewrite entry_store, Z.eqb_refl.
Qed.

(** *** Initialisation *)

Lemma zero_slots_ok tbl f s lo hi : window (vm_mem s) (vm_cr3 s) tbl f →
  0 <= lo <= hi → hi <= 512 →
  wp (while (zero_slots_step tbl hi) (lo, s)) (fun s' =>
    ∃ m', s' = with_mem s m' ∧ table_upd (vm_mem s) m' f lo hi (fun _ => 0)).
Proof.
  intros Hw Hlo Hhi.
  apply (wp_while _ (fun st => lo <= st.1 <= hi ∧ ∃ m', st.2 = with_mem s m' ∧
                       table_upd (vm_mem s) m' f lo st.1 (fun _ => 0))
           (fun st => hi - st.1)).
  - intros [i s1] (Hi & m' & E & Hu). cbn in Hi, E, Hu. subst s1. unfold zero_slots_step.
    destruct (Z.ltb_spec i hi).
    + assert (Ho : same_outside f (vm_mem s) m') by (eapply table_upd_outside; [..|exact Hu]; lia).
      rewrite (vst_window _ tbl f) by (by apply window_with_mem || lia). run.
      rewrite u16_id by (unfold is_u16; lia). split; [|cbn; lia]. split; [cbn; lia|].
      eexists. split; [reflexivity|]. apply table_upd_snoc; [cbn; lia|done|exact Hu].
    + exists m'. split; [done|]. by replace hi with i by lia.
  - split; [cbn; lia|]. exists (vm_mem s). split; [by destruct s|apply table_upd_nil].
  - cbn. lia.
Qed.

(** The window as [vm_init] leaves it: all its slots are empty. *)
Record fresh_window s (f3 f2 f1 : Z) : Prop := {
  fw_kernel : kernel_pt s f3 f2 f1;
  fw_pages : ∀ i, 0 <= i < 512 → entry (vm_mem s) f1 i = 0;
  fw_large : ∀ i, LG_LO <= i < LG_HI → entry (vm_mem s) f2 i = 0
}.

Lemma get_kernel_pdt4 : get_paging_struct_vaddr KERNEL_MAPPING_BASE 2 = Ok kernel_pdt_va.
Proof. reflexivity. Qed.
Lemma kernel_base_u64 : is_u64 KERNEL_MAPPING_BASE.
Proof. unfold is_u64. vm_compute. split; congruence. Qed.
Lemma large_hi : LG_PG_LIMIT >>w LARGE_PG_BITS = 16.
Proof. reflexivity. Qed.
Lemma large_lo : u16 (LG_PG_BASE >>w LARGE_PG_BITS) = 6.
Proof. reflexivity. Qed.
Lemma table_entries : PG_TABLE_ENTRIES = 512.
Proof. reflexivity. Qed.

(** The two loops at the end of [vm_init]. *)
Lemma clear_window_ok s1 f3 f2 f1 : kernel_pt s1 f3 f2 f1 →
  wp (s ← while (zero_slots_step kernel_pt_va 512) (0, s1);
      while (zero_slots_step kernel_pdt_va 16) (6, s))
    (fun s' => vm_cr3 s' = vm_cr3 s1 ∧ vm_frames s' = vm_frames s1 ∧ fresh_window s' f3 f2 f1).
Proof.
  intros K1. wp_step. eapply wp_mono;
    [apply (zero_slots_ok _ f1 s1 0 512); [exact (kernel_pt_window s1 f3 f2 f1 K1)|lia|lia]|].
  intros s0 (m0 & -> & U0).
  assert (O0 : same_outside f1 (vm_mem s1) m0) by (eapply table_upd_outside; [..|exact U0]; lia).
  assert (K0 : kernel_pt (with_mem s1 m0) f3 f2 f1).
  { destruct (kernel_pt_upd1 s1 f3 f2 f1 K1 m0 (vm_invlpg s1) (vm_frames s1) O0) as [A1 A2 A3 _].
    split; [exact A1|exact A2|exact A3|]. exact (kp_lock _ _ _ _ K1). }
  eapply wp_mono;
    [apply (zero_slots_ok _ f2 (with_mem s1 m0) 6 16);
       [exact (kernel_pdt_window _ f3 f2 f1 K0)|lia|lia]|].
  intros s' (m' & -> & U). split; [reflexivity|]. split; [reflexivity|].
  pose proof (kernel_pt_upd2 _ f3 f2 f1 K0 m' (vm_invlpg s1) (vm_frames s1) 6 16 _
                ltac:(unfold LG_LO; lia) ltac:(lia) U) as [A1 A2 A3 _].
  split.
  - split; [exact A1|exact A2|exact A3|]. exact (kp_lock _ _ _ _ K1).
  - intros i Hi. cbn [vm_mem with_mem].
    rewrite (table_upd_other m0 m' f2 6 16 (fun _ => 0) f1 i); [by apply U0| | | |lia..|exact U].
    + exact (aligned_f2 _ _ _ _ K0).
    + exact (aligned_f1 _ _ _ _ K0).
    + intros E. by apply (proj2 (proj2 A3)).
  - intros i Hi. apply U. unfold LG_LO, LG_HI in Hi. lia.
Qed.

(** The tables are frames that the allocator has given out. *)
Record window_taken s s' (f3 f2 f1 : Z) : Prop := {
  wt_alloc : alloc_wf (vm_frames s');
  wt_tables f : f ∈ [vm_cr3 s'; f3; f2; f1] → 0 <= f ∧ used s' f;
  wt_used f : 0 <= f → used s f → used s' f
}.

Lemma vm_init_ok s : lock_free (pg_lock s) → has_root s →
  path3 KERNEL_MAPPING_BASE (path1 KERNEL_MAPPING_BASE True) s →
  wpx (vm_init s) (fun s' => vm_cr3 s' = vm_cr3 s ∧ ∃ f3 f2 f1, fresh_window s' f3 f2 f1 ∧ window_taken s s' f3 f2 f1) no_frame False.
Proof.
  intros Hl Hroot Hpath. pose proof kernel_base_u64 as Hva.
  unfold vm_init. wp_step. eapply wpx_mono;
    [apply (ensure_pdpt_ok KERNEL_MAPPING_BASE Hva ltac:(discriminate) (path1 KERNEL_MAPPING_BASE True) s Hroot Hpath)|
     |intros m ->; by left|done].
  intros s3 (G3 & f3 & P3 & L3). wp_step. eapply wpx_mono;
    [apply (ensure_pdt_ok KERNEL_MAPPING_BASE Hva _ s3 f3 P3 L3)| |intros m ->; right; by left|done].
  { intros s' f2 Hz. pose proof (idx_bounds KERNEL_MAPPING_BASE). split; [|by right].
    intros Hp. rewrite (empty_entry _ _ _ (Hz (idx2 KERNEL_MAPPING_BASE) ltac:(lia))) in Hp. discriminate. }
  intros s2 (G2 & f2 & P2 & L2). rewrite get_kernel_pdt4, bind_ok. wp_step. eapply wpx_mono;
    [apply (ensure_pt_ok KERNEL_MAPPING_BASE Hva _ s2 f3 f2 P2 L2)| |intros m ->; right; by right|done].
  intros s1 (G1 & f1 & P1 & Hpool & [Hf1 Hu1] & _). rewrite get_kernel_pt, bind_ok, table_entries, large_hi, large_lo.
  pose proof (grown_trans _ _ _ (grown_trans _ _ _ G3 G2) G1) as G.
  destruct P1 as [P2' P1 Hn1]. pose proof (h2_ne _ _ _ _ P2') as Hn2.
  assert (K1 : kernel_pt s1 f3 f2 f1).
  { split; [exact P1|done|done|]. by apply (grown_lock s). }
  eapply wpx_mono; [apply wp_wpx, (clear_window_ok s1 f3 f2 f1 K1)| |intros m Hm; exact Hm|intros Hm; exact Hm].
  intros s' (E & Ef & Hf). split; [rewrite E; exact (gr_cr3 _ _ G)|]. exists f3, f2, f1. split; [exact Hf|].
  destruct P2' as [[[_ Hc Hu _] _ Hf3 Hu3 _] _ Hf2 Hu2 _]. unfold used in *. split; unfold used; rewrite ?Ef, ?E.
  - apply Hpool.
  - intros f Hin. repeat (apply elem_of_cons in Hin as [->|Hin]; [done|]). by apply elem_of_nil in Hin.
  - intros f Hp Hfu. by apply (gr_used _ _ G).
Qed.

(** ** Existing mappings survive *)

(** A state that differs from [s] in entries that were not present. *)
Definition later s s' : Prop := vm_cr3 s' = vm_cr3 s ∧ mem_extends (vm_mem s) (vm_mem s').

Lemma later_refl s : later s s.
Proof. done. Qed.
Lemma later_mem s s1 s2 : later s s1 → vm_mem s2 = vm_mem s1 → vm_cr3 s2 = vm_cr3 s1 → later s s2.
Proof. intros [? ?] E1 E2. split; [congruence|by rewrite E1]. Qed.

(** A slot that translated to a free entry in [s] can be written in any later
    state. *)
Definition slot_open s (va : Z) : Prop := ∃ pa,
  translate (vm_mem s) (vm_cr3 s) va = Some pa ∧ present (ldw (vm_mem s) pa) = false.

Lemma vld_open s s1 va e : later s s1 → vld s va = Ok e → present e = false → slot_open s va.
Proof.
  intros _ Hv He. unfold vld in Hv. destruct (translate (vm_mem s) (vm_cr3 s) va) as [pa|] eqn:E; [|done].
  injection Hv as <-. exists pa. by split.
Qed.

Lemma vst_later s s1 va v : later s s1 → slot_open s va → wlp (vst s1 va v) (later s).
Proof.
  intros [Ec Hm] (pa & Htr & Hp). unfold vst. rewrite Ec, (translate_stable _ (vm_mem s1) _ _ _ Hm Htr).
  apply wlp_ret. split; [exact Ec|]. by apply mem_extends_store.
Qed.

(** [if (!(tbl[i] & PGT_P))] in front of a write. *)
Lemma vld_guard {B} s va (k1 k2 : outcome B) Q :
  (slot_open s va → wlp k1 Q) → wlp k2 Q →
  wlp (e ← vld s va; if (Z.land e PGT_P =? 0) then k1 else k2) Q.
Proof.
  intros H1 H2. apply wlp_bind. intros e He. rewrite absent_land.
  destruct (present e) eqn:E; cbn [negb]; [done|]. apply H1. by apply (vld_open s s va e).
Qed.

(** [later] composed. *)
Lemma later_trans s1 s2 s3 : later s1 s2 → later s2 s3 → later s1 s3.
Proof. intros [E1 M1] [E2 M2]. split; [congruence|by eapply mem_extends_trans]. Qed.

Lemma lock_vm_later s : wlp (lock_vm s) (later s).
Proof. unfold lock_vm. apply wlp_bind. intros l _. by apply wlp_ret. Qed.

Lemma ensure_table_later s tbl i msg : wlp (ensure_table s tbl i msg) (later s).
Proof.
  unfold ensure_table. apply vld_guard; [|by apply wlp_ret]. intros Ho.
  apply wlp_bind. intros [new fr] _. destruct (new =? 0); [apply wlp_panic|].
  eapply wlp_mono; [apply (vst_later (with_frames s fr)); [apply later_refl|exact Ho]|].
  intros s' Hs'. exact Hs'.
Qed.

Lemma set_free_slot_later s tbl i val : wlp (set_free_slot s tbl i val) (later s).
Proof.
  unfold set_free_slot. apply vld_guard; [|apply wlp_panic]. intros Ho.
  by apply vst_later.
Qed.

Lemma map_slot_step_later tbl hi val va s0 i s : later s0 s →
  wlp (map_slot_step tbl hi val va (i, s)) (fun x =>
    match x with inl (_, s') => later s0 s' | inr (_, s') => later s0 s' end).
Proof.
  intros Hs. unfold map_slot_step. destruct (i <? hi); [|by apply wlp_ret].
  apply vld_guard; [|by apply wlp_ret]. intros Ho. apply wlp_bind.
  eapply wlp_mono; [apply (vst_later s s _ _ (later_refl s) Ho)|]. intros s' Hs'.
  apply wlp_ret. apply (later_mem _ s'); [by eapply later_trans|done|done].
Qed.

(** The slots of a run that were counted are all open. *)
Lemma count_slots_open tbl i num s : 0 <= i → i + 1 < 2 ^ 64 → slot_open s (slot tbl i) →
  wlp (while (count_slots_step tbl i num s) (i +w 1, 1)) (fun '(j, count) =>
    j = i + count ∧ 0 <= j < 2 ^ 64 ∧ ∀ k, i <= k < j → slot_open s (slot tbl k)).
Proof.
  intros Hi Hi1 Ho.
  apply (wlp_while _ (fun '(j, count) => j = i + count ∧ 1 <= count ∧ 0 <= j < 2 ^ 64 ∧
                        ∀ k, i <= k < j → slot_open s (slot tbl k))).
  - intros [j count] (-> & Hc & Hb & Hall). unfold count_slots_step.
    destruct (Z.ltb_spec (i + count) (i +w num)); [|by apply wlp_ret].
    apply vld_guard; [|by apply wlp_ret]. intros Hj. apply wlp_ret.
    pose proof (u64_range (i + num)). rewrite !u64_id by (unfold is_u64; ulia).
    split; [lia|]. split; [lia|]. split; [ulia|]. intros k Hk.
    destruct (Z.eq_dec k (i + count)) as [->|]; [done|]. apply Hall. lia.
  - rewrite u64_id by (unfold is_u64; lia). split; [done|]. split; [lia|]. split; [lia|].
    intros k Hk. by replace k with i by lia.
Qed.

Lemma fill_slots_later tbl i num frame flags size s : 0 <= i → i + num < 2 ^ 64 → 0 <= num →
  (∀ k, i <= k < i + num → slot_open s (slot tbl k)) →
  wlp (while (fill_slots_step tbl i num flags size) (i, frame, s)) (later s).
Proof.
  intros Hi Hb Hn Hall.
  apply (wlp_while _ (fun st => i <= st.1.1 <= i + num ∧ later s st.2)).
  - intros [[j fr] s1] [Hj Hl]. cbn in Hj, Hl. unfold fill_slots_step.
    rewrite (u64_id (i + num)) by (unfold is_u64; lia).
    destruct (Z.ltb_spec j (i + num)); [|by apply wlp_ret]. apply wlp_bind.
    eapply wlp_mono; [apply (vst_later s s1 _ _ Hl), Hall; lia|]. intros s2 Hs2. apply wlp_ret.
    rewrite (u64_id (j + 1)) by (unfold is_u64; lia). split; [cbn; lia|done].
  - split; [cbn; lia|apply later_refl].
Qed.

Lemma map_run_step_later tbl hi num frame flags size va s0 i s :
  is_u64 hi → 0 <= num → 0 <= i → later s0 s →
  wlp (map_run_step tbl hi num frame flags size va (i, s)) (fun x =>
    match x with inl (i', s') => 0 <= i' ∧ later s0 s' | inr (_, s') => later s0 s' end).
Proof.
  intros Hhi Hn Hi Hs. unfold map_run_step. destruct (Z.ltb_spec i hi); [|by apply wlp_ret].
  apply vld_guard; [|apply wlp_ret; split; [apply u64_range|done]]. intros Ho. apply wlp_bind.
  eapply wlp_mono; [apply (count_slots_open tbl i num s Hi ltac:(ulia) Ho)|].
  intros [j count] (-> & Hb & Hall). destruct (Z.eqb_spec count num) as [->|].
  - apply wlp_bind. eapply wlp_mono;
      [apply (fill_slots_later tbl i num frame flags size s Hi ltac:(lia) Hn Hall)|].
    intros s' Hs'. apply wlp_ret. apply (later_mem _ s'); [by eapply later_trans|done|done].
  - apply wlp_ret. split; [apply u64_range|done].
Qed.

(** The five loops and straight-line functions together. *)
Lemma map_slot_later tbl lo hi val va s0 s : later s0 s →
  wlp (while (map_slot_step tbl hi val va) (lo, s)) (fun '(_, s') => later s0 s').
Proof.
  intros Hs. apply (wlp_while _ (fun st => later s0 st.2)); [|done].
  intros [i s1] H1. eapply wlp_mono; [by apply (map_slot_step_later tbl hi val va s0)|].
  intros [[i' s']|[r s']] Hx; exact Hx.
Qed.

Lemma map_run_later tbl lo hi num frame flags size va s0 s : is_u64 hi → 0 <= num → 0 <= lo → later s0 s →
  wlp (while (map_run_step tbl hi num frame flags size va) (lo, s)) (fun '(_, s') => later s0 s').
Proof.
  intros Hhi Hn Hlo Hs. apply (wlp_while _ (fun st => 0 <= st.1 ∧ later s0 st.2)); [|done].
  intros [i s1] [Hi H1]. eapply wlp_mono; [by apply (map_run_step_later tbl hi num frame flags size va s0)|].
  intros [[i' s']|[r s']] Hx; exact Hx.
Qed.

Lemma bind_get {B} va l (k : Z → outcome B) Q : (∀ t, wlp (k t) Q) →
  wlp (get_paging_struct_vaddr va l ≫= k) Q.
Proof. intros Hk. apply wlp_bind. intros t _. apply Hk. Qed.

Lemma ensure_later s va :
  wlp (ensure_pdpt s va) (later s) ∧ wlp (ensure_pdt s va) (later s) ∧ wlp (ensure_pt s va) (later s).
Proof. split; [|split]; apply bind_get; intros t; apply ensure_table_later. Qed.

Lemma later_unlock s s' : later s s' → later s (unlock_vm s').
Proof. intros Hs. by apply (later_mem _ s'). Qed.

(** One call that maps memory. *)
Inductive map_call : Type :=
  | MapPage (frame flags : Z)
  | MapPages (frame num flags : Z)
  | MapLargePage (frame flags : Z)
  | MapLargePages (frame num flags : Z)
  | MapPageAt (frame flags vaddr : Z)
  | MapLargePageAt (frame flags vaddr : Z).

Definition run_map (c : map_call) s : outcome (vm A) :=
  match c with
  | MapPage frame flags => '(_, s) ← vm_map_page s frame flags; Ok s
  | MapPages frame num flags => '(_, s) ← vm_map_pages s frame num flags; Ok s
  | MapLargePage frame flags => '(_, s) ← vm_map_large_page s frame flags; Ok s
  | MapLargePages frame num flags => '(_, s) ← vm_map_large_pages s frame num flags; Ok s
  | MapPageAt frame flags vaddr => vm_map_page_unrestricted s frame flags vaddr
  | MapLargePageAt frame flags vaddr => vm_map_large_page_unrestricted s frame flags vaddr
  end.

Lemma map_page_later s frame flags : wlp (vm_map_page s frame flags) (fun '(_, s') => later s s').
Proof.
  apply wlp_bind. eapply wlp_mono; [apply lock_vm_later|]. intros s1 H1. apply bind_get. intros t.
  by apply map_slot_later.
Qed.
Lemma map_large_page_later s frame flags :
  wlp (vm_map_large_page s frame flags) (fun '(_, s') => later s s').
Proof.
  apply wlp_bind. eapply wlp_mono; [apply lock_vm_later|]. intros s1 H1. apply bind_get. intros t.
  by apply map_slot_later.
Qed.
Lemma map_pages_later s frame num flags :
  wlp (vm_map_pages s frame num flags) (fun '(_, s') => later s s').
Proof.
  unfold vm_map_pages. destruct (Z.ltb_spec num 1); [by apply wlp_ret|].
  apply wlp_bind. eapply wlp_mono; [apply lock_vm_later|]. intros s1 H1. apply bind_get. intros t.
  apply map_run_later; [apply u64_range|lia|lia|done].
Qed.
Lemma map_large_pages_later s frame num flags :
  wlp (vm_map_large_pages s frame num flags) (fun '(_, s') => later s s').
Proof.
  unfold vm_map_large_pages. destruct (Z.ltb_spec num 1); [by apply wlp_ret|].
  apply wlp_bind. eapply wlp_mono; [apply lock_vm_later|]. intros s1 H1. apply bind_get. intros t.
  apply map_run_later; [apply u64_range|lia| |done]. rewrite Z.shiftr_nonneg. discriminate.
Qed.

Lemma run_map_later c s : wlp (run_map c s) (later s).
Proof.
  destruct c; cbn [run_map].
  - apply wlp_bind. eapply wlp_mono; [apply map_page_later|]. intros [r s'] Hs. by apply wlp_ret.
  - apply wlp_bind. eapply wlp_mono; [apply map_pages_later|]. intros [r s'] Hs. by apply wlp_ret.
  - apply wlp_bind. eapply wlp_mono; [apply map_large_page_later|]. intros [r s'] Hs. by apply wlp_ret.
  - apply wlp_bind. eapply wlp_mono; [apply map_large_pages_later|]. intros [r s'] Hs. by apply wlp_ret.
  - apply wlp_bind. eapply wlp_mono; [apply lock_vm_later|]. intros s1 H1.
    apply wlp_bind. eapply wlp_mono; [apply (ensure_later s1 vaddr)|]. intros s2 H2.
    apply wlp_bind. eapply wlp_mono; [apply (ensure_later s2 vaddr)|]. intros s3 H3.
    apply wlp_bind. eapply wlp_mono; [apply (ensure_later s3 vaddr)|]. intros s4 H4.
    apply bind_get. intros t. apply wlp_bind. eapply wlp_mono; [apply set_free_slot_later|].
    intros s5 H5. apply wlp_ret, later_unlock. eauto using later_trans.
  - apply wlp_bind. eapply wlp_mono; [apply lock_vm_later|]. intros s1 H1.
    apply wlp_bind. eapply wlp_mono; [apply (ensure_later s1 vaddr)|]. intros s2 H2.
    apply wlp_bind. eapply wlp_mono; [apply (ensure_later s2 vaddr)|]. intros s3 H3.
    apply bind_get. intros t. apply wlp_bind. eapply wlp_mono; [apply set_free_slot_later|].
    intros s5 H5. apply wlp_ret, later_unlock. eauto using later_trans.
Qed.
End unrestricted.

(** ** Frames and flags *)

Lemma land_high_id x k j : 0 <= j <= k → x mod 2 ^ j = 0 → 0 <= x < 2 ^ k →
  Z.land x (2 ^ k - 2 ^ j) = x.
Proof.
  intros Hj Hx Hb. apply Z.bits_inj'. intros n Hn. rewrite Z.land_spec.
  assert (Hm : 2 ^ k - 2 ^ j = Z.shiftl (Z.ones (k - j)) j).
  { rewrite Z.shiftl_mul_pow2, Z.ones_equiv by lia.
    replace (2 ^ k) with (2 ^ (k - j) * 2 ^ j) by (rewrite <- Z.pow_add_r by lia; f_equal; lia). lia. }
  rewrite Hm. destruct (Z.lt_ge_cases n j).
  - rewrite Z.shiftl_spec_low, andb_false_r by lia. symmetry.
    rewrite <- (Z.mod_pow2_bits_low x j n) by lia. rewrite Hx. apply Z.bits_0.
  - rewrite Z.shiftl_spec by lia. destruct (Z.lt_ge_cases n k).
    + rewrite Z.ones_spec_low by lia. apply andb_true_r.
    + rewrite Z.ones_spec_high by lia. rewrite andb_false_r. symmetry.
      rewrite <- (Z.mod_small x (2 ^ k)) by lia. apply Z.mod_pow2_bits_high. lia.
Qed.

Lemma frame_of_lor x y : frame_of (Z.lor x y) = Z.lor (frame_of x) (frame_of y).
Proof. apply Z.land_lor_distr_l. Qed.
Lemma large_frame_of_lor x y : large_frame_of (Z.lor x y) = Z.lor (large_frame_of x) (large_frame_of y).
Proof. apply Z.land_lor_distr_l. Qed.
Lemma present_lor x y : present (Z.lor x y) = present x || present y.
Proof. apply Z.lor_spec. Qed.
Lemma page_size_lor x y : page_size (Z.lor x y) = page_size x || page_size y.
Proof. apply Z.lor_spec. Qed.

(** A 4 KB frame with flags outside bits 12 to 51. *)
Lemma frame_of_page frame flags : frame mod 2 ^ 12 = 0 → 0 <= frame < 2 ^ 52 →
  frame_of flags = 0 → frame_of (Z.lor frame flags) = frame.
Proof.
  intros Ha Hb Hf. rewrite frame_of_lor, Hf, Z.lor_0_r. apply land_high_id; done || lia.
Qed.

(** A 2 MB frame with flags outside bits 13 to 51. *)
Lemma large_frame_of_page frame flags : frame mod 2 ^ 21 = 0 → 0 <= frame < 2 ^ 52 →
  large_frame_of flags = 0 → Z.land flags 0x1FE000 = 0 →
  large_frame_of (Z.lor frame flags) = frame ∧ Z.land (Z.lor frame flags) 0x1FE000 = 0.
Proof.
  intros Ha Hb Hf Hz. split.
  - rewrite large_frame_of_lor, Hf, Z.lor_0_r. apply land_high_id; done || lia.
  - rewrite Z.land_lor_distr_l, Hz, Z.lor_0_r. apply Z.bits_inj'. intros n Hn.
    rewrite Z.land_spec, Z.bits_0. destruct (Z.lt_ge_cases n 21).
    + rewrite <- (Z.mod_pow2_bits_low frame 21 n) by lia. by rewrite Ha, Z.bits_0.
    + rewrite <- (Z.mod_small 0x1FE000 (2 ^ 21)) by lia.
      rewrite Z.mod_pow2_bits_high by lia. apply andb_false_r.
Qed.

(** The page that a map made is translated to its frame. *)
Lemma map_done_translate `{HM : Mmu} {A : Type} `{HA : FrameAllocator A} (s s' : vm A)
    f3 f2 f1 frame flags va :
  pt_at (vm_mem s') (vm_cr3 s') va f3 f2 f1 → map_done s s' f1 (idx1 va) (Z.lor frame flags) →
  canonical va → va mod 2 ^ 12 = 0 → frame mod 2 ^ 12 = 0 → 0 <= frame < 2 ^ 52 →
  frame_of flags = 0 → present flags = true →
  ∀ o, 0 <= o < 4096 → translate (vm_mem s') (vm_cr3 s') (va + o) = Some (frame + o).
Proof.
  intros [[[_ H3] H2] H1] [Ec Hl Hm He] Hcan Hal Ha Hb Hf Hp o Ho.
  assert (E4 : idx4 (va + o) = idx4 va) by (unfold idx4; dlia).
  assert (E3 : idx3 (va + o) = idx3 va) by (unfold idx3; dlia).
  assert (E2 : idx2 (va + o) = idx2 va) by (unfold idx2; dlia).
  assert (E1 : idx1 (va + o) = idx1 va) by (unfold idx1; dlia).
  rewrite (translate_4k _ _ (va + o) f3 f2 f1); rewrite ?E4, ?E3, ?E2, ?E1; try done.
  - rewrite He, frame_of_page by done. f_equal. dlia.
  - unfold canonical in *. dlia.
  - rewrite He, present_lor, Hp. apply orb_true_r.
Qed.
