(* ===== verification/PagingSpec.v ===== *)
(** * What the kernel page tables promise

    The properties of Paging.v: mappings never disturb each other, the
    functions on the kernel window take the slots they say, tables are made on
    the way to any other address, and what goes wrong when a frame for a new
    table is not zero or an upper table is missing. The witnesses run on the
    tables that [arch/x86_64/boot/boot.S] builds, with [x86_walk] for the
    memory management unit and the allocator of Physical.v. *)

From S2P Require Import Prelude Layout Bits Spinlock Physical Mmu Paging.

Local Open Scope Z_scope.
Local Open Scope c_scope.

(** ** The tables the boot code leaves *)

Definition boot_mem : gmap Z Z := {[
  0x300000 := 0x301003;                      (* pml4t[0]: pdpt *)
  0x300FF8 := 0x1000000000300003;            (* pml4t[511]: pml4t *)
  0x301000 := 0x302003;                      (* pdpt[0]: pdt *)
  0x302000 := 0x83;                          (* the first 2 MB *)
  0x302008 := 0x303003;                      (* kernel_page_tables *)
  0x302010 := 0x304003 ]}.

Definition boot_vm : vm phys := Vm boot_mem 0x300000 SPINLOCK_UNLOCKED [] sample_phys.

Lemma boot_mem_low a : 0 <= a < 0x300000 → ldw boot_mem a = 0.
Proof.
  intros Ha. unfold ldw, boot_mem. rewrite !lookup_insert_ne, lookup_singleton_ne by lia. done.
Qed.

Lemma sample_avail n : 0 <= n → avail sample_phys n = true → n < 704.
Proof.
  intros Hn Ha. destruct (Z.lt_ge_cases n 704) as [|Hge]; [done|]. exfalso.
  change (avail sample_phys n) with (bm_test (mm_table sample_phys) n) in Ha. unfold bm_test in Ha.
  assert (E : arr_word (mm_table sample_phys) (n / 64) = 0).
  { unfold arr_word, sample_phys. cbn [mm_table arr_words].
    rewrite !lookup_insert_ne, lookup_singleton_ne by dlia. done. }
  rewrite E, Z.testbit_0_l in Ha. discriminate.
Qed.

Lemma boot_root : has_root boot_vm.
Proof.
  split; [repeat split; reflexivity|cbn; lia|reflexivity|]. split; [exact sample_phys_wf|].
  intros n i Hn Ha Hi. pose proof (sample_avail n Hn Ha). apply boot_mem_low. lia.
Qed.

(** The tables of an address of the first gigabyte whose entry in the page
    directory is empty. *)
Lemma boot_can_map va (L : vm phys → Z → Z → Prop) : 0 <= va < 2 ^ 30 →
  L boot_vm 0x301000 0x302000 → can_map boot_vm va L.
Proof.
  intros Hva HL. assert (E4 : idx4 va = 0) by (unfold idx4; dlia).
  assert (E3 : idx3 va = 0) by (unfold idx3; dlia).
  assert (T4 : table_entry (entry (vm_mem boot_vm) (vm_cr3 boot_vm) 0) 0x301000) by (repeat split; reflexivity).
  assert (T3 : table_entry (entry (vm_mem boot_vm) 0x301000 0) 0x302000) by (repeat split; reflexivity).
  split; [unfold is_u64; lia|lia|apply lock_free_unlocked|exact boot_root|].
  unfold path3, path2. rewrite E4, E3. split.
  - intros _. exists 0x301000. split; [exact T4|]. split; [|reflexivity].
    rewrite list_elem_of_singleton. discriminate.
  - intros f3 H3. rewrite (table_entry_det _ _ _ H3 T4). split.
    + intros _. exists 0x302000. split; [exact T3|]. split; [|reflexivity].
      rewrite elem_of_cons, list_elem_of_singleton. intros [E|E]; discriminate E.
    + intros f2 H2. by rewrite (table_entry_det _ _ _ H2 T3).
Qed.

Definition zero_words (a : Z) (n : nat) (m : gmap Z Z) : gmap Z Z := foldr (fun k m => <[a + 8 * Z.of_nat k := 0]> m) m (seq 0 n).

Lemma ldw_zero_words a l m b : let z := foldr (fun k m => <[a + 8 * Z.of_nat k := 0]> m) m l in
  (ldw z b = 0 ∨ ldw z b = ldw m b) ∧ ∀ k, k ∈ l → ldw z (a + 8 * Z.of_nat k) = 0.
Proof.
  induction l as [|x l [IH1 IH2]]; cbn [foldr]; cbv zeta.
  - split; [by right|]. intros k Hk. by apply elem_of_nil in Hk.
  - split.
    + rewrite ldw_insert. destruct (_ =? b); [by left|exact IH1].
    + intros k Hk. rewrite ldw_insert. destruct (Z.eqb_spec (a + 8 * Z.of_nat x) (a + 8 * Z.of_nat k)) as [|Hne]; [done|].
      apply elem_of_cons in Hk as [->|Hk]; [done|by apply IH2].
Qed.

(** After [vm_init]: the frame 0x13F000 is the page table of the window. *)
Definition init_vm : vm phys :=
  Vm (zero_words 0x302030 10 (zero_words 0x13F000 512 (<[0x302028 := 0x13F003]> boot_mem))) 0x300000 SPINLOCK_UNLOCKED []
    (match alloc_phys_frame sample_phys with Ok (_, p) => p | _ => sample_phys end).

Lemma init_vm_eq : vm_init boot_vm = Ok init_vm.
Proof. vm_compute. reflexivity. Qed.

Lemma boot_init_path : path3 KERNEL_MAPPING_BASE (path1 KERNEL_MAPPING_BASE True) boot_vm.
Proof.
  assert (Hb : 0 <= KERNEL_MAPPING_BASE < 2 ^ 30) by (vm_compute; split; congruence).
  apply (cm_path boot_vm KERNEL_MAPPING_BASE (path1 KERNEL_MAPPING_BASE True)).
  apply (boot_can_map KERNEL_MAPPING_BASE (path1 KERNEL_MAPPING_BASE True) Hb).
  split; [|by right]. intros Hp. exfalso.
  assert (E : present (entry (vm_mem boot_vm) 0x302000 (idx2 KERNEL_MAPPING_BASE)) = false)
    by (vm_compute; reflexivity).
  rewrite E in Hp. discriminate.
Qed.

Lemma table_entryb e f :
  present e && negb (page_size e) && (frame_of e =? f) = true → table_entry e f.
Proof.
  intros Ht. apply andb_true_iff in Ht as [Ht Hf]. apply andb_true_iff in Ht as [Hp Hs].
  split; [done|]. split; [by apply negb_true_iff|by apply Z.eqb_eq].
Qed.

Lemma init_cr3 : vm_cr3 init_vm = 0x300000.
Proof. vm_compute. reflexivity. Qed.

Lemma init_kernel : kernel_pt init_vm 0x301000 0x302000 0x13F000.
Proof.
  split; rewrite ?init_cr3.
  - split; [split; [split|]|]; apply table_entryb; vm_compute; reflexivity.
  - split; discriminate.
  - split; [discriminate|split; discriminate].
  - split; [vm_compute; split; congruence|vm_compute; reflexivity].
Qed.

Lemma init_zero i : 0 <= i < 512 → entry (vm_mem init_vm) 0x13F000 i = 0.
Proof.
  intros Hi. unfold entry. cbn [vm_mem init_vm].
  set (m := zero_words 0x13F000 512 _). destruct (proj1 (ldw_zero_words 0x302030 (seq 0 10) m (0x13F000 + 8 * i))) as [E|E]; [exact E|].
  unfold zero_words at 1. rewrite E. replace i with (Z.of_nat (Z.to_nat i)) by lia.
  apply (ldw_zero_words 0x13F000 (seq 0 512) _ 0). apply elem_of_seq. lia.
Qed.

Lemma init_free i : 0 <= i < 512 → slot_free (vm_mem init_vm) 0x13F000 i.
Proof. intros Hi. unfold slot_free. by rewrite (init_zero i Hi). Qed.

(** ** Properties *)

Section properties.
Context `{HM : Mmu} {A : Type} `{HA : FrameAllocator A}.
Implicit Types s : vm A.

(** C2: no call that maps memory disturbs an existing mapping. Whatever the
    tables, the arguments and the allocator, if the call returns then every
    address that was translated before is translated to the same physical
    address afterwards: only entries that are not present are written. *)
Theorem vm_map_preserves_mappings s c s' : run_map c s = Ok s' →
  ∀ va pa, translate (vm_mem s) (vm_cr3 s) va = Some pa →
    translate (vm_mem s') (vm_cr3 s') va = Some pa.
Proof.
  intros E va pa Htr. destruct (run_map_later c s s' E) as [-> Hm].
  by apply (translate_stable (vm_mem s)).
Qed.

(** C22: [vm_map_page] takes the first free slot of the kernel window and
    nothing else, and the page it returns translates to the frame;
    it returns [NULL] exactly when the 512 slots are taken. *)
Theorem vm_map_page_spec s f3 f2 f1 frame flags :
  kernel_pt s f3 f2 f1 → frame mod 2 ^ 12 = 0 → 0 <= frame < 2 ^ 52 →
  frame_of flags = 0 → present flags = true →
  ∃ va s', vm_map_page s frame flags = Ok (va, s') ∧ kernel_pt s' f3 f2 f1 ∧
    ((∃ i, 0 <= i < 512 ∧ slot_free (vm_mem s) f1 i ∧
        (∀ k, 0 <= k < i → ¬ slot_free (vm_mem s) f1 k) ∧
        va = KERNEL_MAPPING_BASE + 4096 * i ∧
        (∀ a, a ≠ f1 + 8 * i → ldw (vm_mem s') a = ldw (vm_mem s) a) ∧
        ∀ o, 0 <= o < 4096 → translate (vm_mem s') (vm_cr3 s') (va + o) = Some (frame + o)) ∨
     (va = 0 ∧ (∀ k, 0 <= k < 512 → ¬ slot_free (vm_mem s) f1 k) ∧ vm_mem s' = vm_mem s)).
Proof.
  intros Hk Ha Hb Hf Hp. pose proof (vm_map_page_ok s f3 f2 f1 frame flags Hk) as Hw.
  apply wp_ok in Hw as ([va s'] & E & Hw). exists va, s'. split; [exact E|].
  destruct Hw as [(i & m' & Hi & Hfree & Hlow & -> & Hu & ->)|(Hall & -> & ->)].
  - assert (Ho : same_outside f1 (vm_mem s) m') by (eapply table_upd_outside; [..|exact Hu]; lia).
    pose proof (kernel_pt_upd1 s f3 f2 f1 Hk m' (vm_invlpg s) (vm_frames s) Ho) as Hk'.
    split; [exact Hk'|]. left. exists i. rewrite kernel_va_ok by done.
    split; [done|]. split; [done|]. split; [done|]. split; [done|]. split.
    + intros a Hne. apply Hu. intros k Hki. by replace k with i by lia.
    + intros o Hofs. assert (He : entry m' f1 i = Z.lor frame flags) by (apply Hu; lia).
      change m' with (vm_mem (done_vm s m' (vm_invlpg s) (vm_frames s))) in He.
      rewrite (kernel_translate _ _ _ _ Hk' i o) by (done || rewrite He, present_lor, Hp; apply orb_true_r).
      by rewrite He, frame_of_page.
  - split; [|by right]. apply (kernel_pt_upd1 s f3 f2 f1 Hk), same_outside_refl.
Qed.

Lemma vm_map_pages_mapped s f3 f2 f1 frame num flags :
  kernel_pt s f3 f2 f1 → 1 <= num <= 513 →
  frame mod 2 ^ 12 = 0 → 0 <= frame → frame + 4096 * num <= 2 ^ 52 →
  frame_of flags = 0 → present flags = true →
  ∃ va s', vm_map_pages s frame num flags = Ok (va, s') ∧ kernel_pt s' f3 f2 f1 ∧
    vm_cr3 s' = vm_cr3 s ∧ vm_frames s' = vm_frames s ∧
    ((∃ i, 0 <= i ∧ i + num <= 512 ∧ run_free (vm_mem s) f1 i num ∧
        va = KERNEL_MAPPING_BASE + 4096 * i ∧
        (∀ a, (∀ k, i <= k < i + num → a ≠ f1 + 8 * k) → ldw (vm_mem s') a = ldw (vm_mem s) a) ∧
        ∀ o, 0 <= o < 4096 * num → translate (vm_mem s') (vm_cr3 s') (va + o) = Some (frame + o)) ∨
     (va = 0 ∧ vm_mem s' = vm_mem s ∧
        ¬ (num <= 512 ∧ run_free (vm_mem s) f1 0 num) ∧
        ∀ q, 0 <= q → q + num + 1 <= 512 → ¬ run_free (vm_mem s) f1 q (num + 1))).
Proof.
  intros Hk Hn Ha Hb Hb' Hf Hp.
  pose proof (vm_map_pages_ok s f3 f2 f1 frame num flags Hk Hn ltac:(unfold is_u64; lia)) as Hw.
  apply wp_ok in Hw as ([va s'] & E & Hw). exists va, s'. split; [exact E|].
  destruct Hw as [(i & m' & Hi & Hend & Hfree & -> & Hu & ->)|(Hall & -> & ->)].
  - assert (Ho : same_outside f1 (vm_mem s) m') by (eapply table_upd_outside; [..|exact Hu]; lia).
    pose proof (kernel_pt_upd1 s f3 f2 f1 Hk m' (vm_invlpg s) (vm_frames s) Ho) as Hk'.
    split; [exact Hk'|]. split; [done|]. split; [done|]. left. exists i. rewrite kernel_va_ok by lia.
    split; [done|]. split; [done|]. split; [done|]. split; [done|]. split; [apply Hu|].
    intros o Hofs. set (k := i + o / 4096).
    assert (Hkb : i <= k < i + num) by (unfold k; dlia).
    assert (He : entry m' f1 k = Z.lor (frame + 4096 * (k - i)) flags).
    { rewrite (proj1 Hu k Hkb). change PG_SIZE with 4096. rewrite u64_id by (unfold is_u64; lia). done. }
    change m' with (vm_mem (done_vm s m' (vm_invlpg s) (vm_frames s))) in He.
    replace (KERNEL_MAPPING_BASE + 4096 * i + o) with (KERNEL_MAPPING_BASE + 4096 * k + o mod 4096)
      by (unfold k; dlia).
    rewrite (kernel_translate _ _ _ _ Hk' k) by
      (lia || (apply Z.mod_pos_bound; lia) || (rewrite He, present_lor, Hp; apply orb_true_r)).
    rewrite He, frame_of_page; try done; [f_equal; unfold k; dlia| |lia].
    change (2 ^ 12) with 4096 in *. rewrite (Z.mul_comm 4096), Z.mod_add by lia. done.
  - split; [apply (kernel_pt_upd1 s f3 f2 f1 Hk), same_outside_refl|]. split; [done|]. split; [done|]. right. split; [done|]. split; [done|].
    split.
    + intros [? ?]. apply (Hall 0). left. split; [done|]. split; [done|lia].
    + intros q Hq Hqb Hr. apply (Hall q). right. done.
Qed.

(** C23: [vm_map_pages] maps [num] consecutive frames to [num] consecutive free
    slots of the window, and writes nothing when it returns [NULL]; it does
    not return [NULL] when the run can start at slot 0, or when one more slot
    in a row is free. *)
Theorem vm_map_pages_spec s f3 f2 f1 frame num flags :
  kernel_pt s f3 f2 f1 → 1 <= num <= 513 →
  frame mod 2 ^ 12 = 0 → 0 <= frame → frame + 4096 * num <= 2 ^ 52 →
  frame_of flags = 0 → present flags = true →
  ∃ va s', vm_map_pages s frame num flags = Ok (va, s') ∧ kernel_pt s' f3 f2 f1 ∧
    vm_cr3 s' = vm_cr3 s ∧ vm_frames s' = vm_frames s ∧
    ((∃ i, 0 <= i ∧ i + num <= 512 ∧ run_free (vm_mem s) f1 i num ∧
        va = KERNEL_MAPPING_BASE + 4096 * i ∧
        (∀ a, (∀ k, i <= k < i + num → a ≠ f1 + 8 * k) → ldw (vm_mem s') a = ldw (vm_mem s) a) ∧
        ∀ o, 0 <= o < 4096 * num → translate (vm_mem s') (vm_cr3 s') (va + o) = Some (frame + o)) ∨
     (va = 0 ∧ vm_mem s' = vm_mem s ∧
        ¬ (num <= 512 ∧ run_free (vm_mem s) f1 0 num) ∧
        ∀ q, 0 <= q → q + num + 1 <= 512 → ¬ run_free (vm_mem s) f1 q (num + 1))).
Proof. apply vm_map_pages_mapped. Qed.

(** The same for 2 MB pages: [vm_map_large_pages] maps [num] consecutive
    large frames to consecutive free slots between [LG_PG_BASE] and
    [LG_PG_LIMIT], or maps nothing. *)
Theorem vm_map_large_pages_spec s f3 f2 f1 frame num flags :
  kernel_pt s f3 f2 f1 → 1 <= num <= 17 →
  frame mod 2 ^ 21 = 0 → 0 <= frame → frame + 2 ^ 21 * num <= 2 ^ 52 →
  large_frame_of flags = 0 → Z.land flags 0x1FE000 = 0 →
  present flags = true → page_size flags = true →
  ∃ va s', vm_map_large_pages s frame num flags = Ok (va, s') ∧ kernel_pt s' f3 f2 f1 ∧
    ((LG_PG_BASE <= va ∧ va + 2 ^ 21 * num <= LG_PG_LIMIT ∧ va mod 2 ^ 21 = 0 ∧
        run_free (vm_mem s) f2 (va / 2 ^ 21) num ∧
        ∀ o, 0 <= o < 2 ^ 21 * num → translate (vm_mem s') (vm_cr3 s') (va + o) = Some (frame + o)) ∨
     (va = 0 ∧ vm_mem s' = vm_mem s)).
Proof.
  intros Hk Hn Ha Hb Hb' Hf Hz Hp Hps.
  pose proof (vm_map_large_pages_ok s f3 f2 f1 frame num flags Hk Hn ltac:(unfold is_u64; lia)) as Hw.
  apply wp_ok in Hw as ([va s'] & E & Hw). exists va, s'. split; [exact E|].
  destruct Hw as [(i & m' & Hi & Hend & Hfree & -> & Hu & ->)|(Hall & -> & ->)].
  - pose proof (kernel_pt_upd2 s f3 f2 f1 Hk m' (vm_invlpg s) (vm_frames s) i (i + num) _ Hi
                  ltac:(unfold LG_HI in Hend; lia) Hu) as Hk'.
    split; [exact Hk'|]. left. rewrite large_va_ok by lia. unfold LG_LO, LG_HI in *.
    change LG_PG_BASE with (2 ^ 21 * 6). change LG_PG_LIMIT with (2 ^ 21 * 16).
    replace (2 ^ 21 * i / 2 ^ 21) with i by dlia.
    split; [lia|]. split; [lia|]. split; [dlia|]. split; [done|].
    intros o Hofs. set (k := i + o / 2 ^ 21).
    assert (Hkb : i <= k < i + num) by (unfold k; dlia).
    assert (He : entry m' f2 k = Z.lor (frame + 2 ^ 21 * (k - i)) flags).
    { rewrite (proj1 Hu k Hkb). change LARGE_PG_SIZE with (2 ^ 21).
      rewrite u64_id by (unfold is_u64; lia). done. }
    change m' with (vm_mem (done_vm s m' (vm_invlpg s) (vm_frames s))) in He.
    destruct (large_frame_of_page (frame + 2 ^ 21 * (k - i)) flags) as [Hlf Hlz]; try done; [|lia|].
    { rewrite (Z.mul_comm (2 ^ 21)), Z.mod_add by lia. done. }
    replace (2 ^ 21 * i + o) with (2 ^ 21 * k + o mod 2 ^ 21) by (unfold k; dlia).
    rewrite (large_translate _ _ _ _ Hk' k); rewrite ?He; try done.
    + rewrite Hlf. f_equal. unfold k. dlia.
    + unfold LG_LO, LG_HI. lia.
    + apply Z.mod_pos_bound. lia.
    + rewrite present_lor, Hp. apply orb_true_r.
    + rewrite page_size_lor, Hps. apply orb_true_r.
  - split; [|by right].
    apply (kernel_pt_upd2 s f3 f2 f1 Hk _ _ _ LG_LO LG_LO (fun _ => 0)); [lia|unfold LG_LO; lia|].
    apply table_upd_nil.
Qed.

(** C36: a round trip. [vm_unmap_page] on the page that [vm_map_page] returned
    gives the frame back, invalidates the page, which is not mapped any
    more, and restores the memory, when free slots hold 0. With
    flags among the bits that [PG_MASK] keeps, such as [PGT_XD], the value
    returned has those flags in it. *)
Theorem vm_map_unmap_roundtrip s f3 f2 f1 frame flags va s1 :
  kernel_pt s f3 f2 f1 → frame mod 2 ^ 12 = 0 → 0 <= frame < 2 ^ 52 →
  (∀ i, 0 <= i < 512 → slot_free (vm_mem s) f1 i → entry (vm_mem s) f1 i = 0) →
  vm_map_page s frame flags = Ok (va, s1) → va ≠ 0 →
  ∃ s2, vm_unmap_page s1 va = Ok (Z.lor frame (Z.land flags PG_MASK), s2) ∧
    (∀ a, ldw (vm_mem s2) a = ldw (vm_mem s) a) ∧ kernel_pt s2 f3 f2 f1 ∧
    translate (vm_mem s2) (vm_cr3 s2) va = None ∧ va ∈ vm_invlpg s2.
Proof.
  intros Hk Ha Hb Hzero E Hva. pose proof (vm_map_page_ok s f3 f2 f1 frame flags Hk) as Hw.
  rewrite E in Hw.
  destruct Hw as [(i & m' & Hi & Hfree & Hlow & -> & Hu & ->)|(_ & -> & _)]; [|done].
  assert (Ho : same_outside f1 (vm_mem s) m') by (eapply table_upd_outside; [..|exact Hu]; lia).
  pose proof (kernel_pt_upd1 s f3 f2 f1 Hk m' (vm_invlpg s) (vm_frames s) Ho) as Hk1.
  set (s1' := done_vm s m' (vm_invlpg s) (vm_frames s)) in *.
  pose proof (vm_unmap_page_ok s1' f3 f2 f1 i 0 Hk1 Hi ltac:(lia)) as Hun. cbv zeta in Hun.
  rewrite Z.add_0_r in Hun. rewrite kernel_va_ok by done. rewrite Hun.
  assert (Hval : entry (vm_mem s1') f1 i = Z.lor frame flags) by (apply Hu; lia).
  pose proof (kernel_pt_upd1 s1' f3 f2 f1 Hk1 (<[f1 + 8 * i := 0]> (vm_mem s1'))
    (KERNEL_MAPPING_BASE + 4096 * i :: vm_invlpg s1') (vm_frames s1')
    (same_outside_store f1 _ i 0 Hi)) as Hk2.
  eexists. split; [|split; [|split; [exact Hk2|split; [|left]]]].
  - f_equal. f_equal. rewrite Hval, Z.land_lor_distr_l. f_equal.
    change PG_MASK with (2 ^ 64 - 2 ^ 12). apply land_high_id; lia.
  - intros a. cbn [vm_mem done_vm]. rewrite ldw_insert. destruct (Z.eqb_spec (f1 + 8 * i) a) as [<-|Hne].
    + symmetry. by apply Hzero.
    + apply Hu. intros k Hki. by replace k with i by lia.
  - rewrite <- (Z.add_0_r (KERNEL_MAPPING_BASE + 4096 * i)).
    apply (kernel_translate_absent _ _ _ _ Hk2 i 0); [done|lia|].
    unfold slot_free. cbn [vm_mem done_vm]. by rewrite entry_store, Z.eqb_refl.
Qed.

(** [vm_unmap_pages] clears the slots of the pages it is given and no
    others, so that none of them is translated any more, and returns the
    first frame other than 0 that they held. *)
Theorem vm_unmap_pages_spec s f3 f2 f1 i o num :
  kernel_pt s f3 f2 f1 → 0 <= i < 512 → 0 <= o < 4096 → 1 <= num → i + num <= 512 →
  ∃ r s', vm_unmap_pages s (KERNEL_MAPPING_BASE + 4096 * i + o) num = Ok (r, s') ∧
    kernel_pt s' f3 f2 f1 ∧
    (∀ k, i <= k < i + num → entry (vm_mem s') f1 k = 0) ∧
    (∀ a, (∀ k, i <= k < i + num → a ≠ f1 + 8 * k) → ldw (vm_mem s') a = ldw (vm_mem s) a) ∧
    (∀ x, 0 <= x < 4096 * num →
       translate (vm_mem s') (vm_cr3 s') (KERNEL_MAPPING_BASE + 4096 * i + x) = None) ∧
    (Z.land (entry (vm_mem s) f1 i) PG_MASK ≠ 0 → r = Z.land (entry (vm_mem s) f1 i) PG_MASK).
Proof.
  intros Hk Hi Ho Hn Hend.
  pose proof (vm_unmap_pages_ok s f3 f2 f1 i o num Hk Hi Ho ltac:(lia) Hend) as Hw.
  apply wp_ok in Hw as ([r s'] & E & m' & inv & -> & Hu & Hr).
  assert (Hs : same_outside f1 (vm_mem s) m') by (eapply table_upd_outside; [..|exact Hu]; lia).
  pose proof (kernel_pt_upd1 s f3 f2 f1 Hk m' inv (vm_frames s) Hs) as Hk'.
  eexists _, _. split; [exact E|]. split; [exact Hk'|]. split; [apply Hu|]. split; [apply Hu|]. split.
  - intros x Hx. set (k := i + x / 4096). assert (Hkb : i <= k < i + num) by (unfold k; dlia).
    replace (KERNEL_MAPPING_BASE + 4096 * i + x) with (KERNEL_MAPPING_BASE + 4096 * k + x mod 4096)
      by (unfold k; dlia).
    apply (kernel_translate_absent _ _ _ _ Hk' k); [lia|apply Z.mod_pos_bound; lia|].
    apply empty_entry. by apply Hu.
  - intros Hne. destruct Hr as [[_ Hz]|(k & Hkb & -> & Hnz & Hz)].
    + destruct Hne. apply Hz. lia.
    + destruct (Z.eq_dec k i) as [->|]; [done|]. destruct Hne. apply Hz. lia.
Qed.

(** The calls on the two windows. *)
Inductive window_step : vm A → vm A → Prop :=
  | win_page s frame flags va s' : vm_map_page s frame flags = Ok (va, s') → window_step s s'
  | win_pages s frame num flags va s' : num <= 513 → is_u64 frame →
      vm_map_pages s frame num flags = Ok (va, s') → window_step s s'
  | win_large_page s frame flags va s' : vm_map_large_page s frame flags = Ok (va, s') → window_step s s'
  | win_large_pages s frame num flags va s' : num <= 17 → is_u64 frame →
      vm_map_large_pages s frame num flags = Ok (va, s') → window_step s s'
  | win_unmap s i o r s' : 0 <= i < 512 → 0 <= o < 4096 →
      vm_unmap_page s (KERNEL_MAPPING_BASE + 4096 * i + o) = Ok (r, s') → window_step s s'
  | win_unmap_pages s i o num r s' : 0 <= i < 512 → 0 <= o < 4096 → 0 <= num → i + num <= 512 →
      vm_unmap_pages s (KERNEL_MAPPING_BASE + 4096 * i + o) num = Ok (r, s') → window_step s s'
  | win_unmap_large s i o r s' : LG_LO <= i < LG_HI → 0 <= o < 2 ^ 21 →
      vm_unmap_large_page s (2 ^ 21 * i + o) = Ok (r, s') → window_step s s'
  | win_unmap_large_pages s i o num r s' : LG_LO <= i < LG_HI → 0 <= o < 2 ^ 21 → 0 <= num →
      i + num <= LG_HI →
      vm_unmap_large_pages s (2 ^ 21 * i + o) num = Ok (r, s') → window_step s s'.

Lemma mapped_first_kernel s f3 f2 f1 f lo hi val va r s' : kernel_pt s f3 f2 f1 →
  (f = f1 ∧ 0 <= lo) ∨ (f = f2 ∧ LG_LO <= lo) → hi <= 512 →
  mapped_first s f lo hi val va r s' ∨
    ((∀ k, lo <= k < hi → ¬ slot_free (vm_mem s) f k) ∧ nothing_mapped s r s') →
  kernel_pt s' f3 f2 f1.
Proof.
  intros Hk Hf Hhi [(i & m' & Hi & _ & _ & _ & Hu & ->)|(_ & _ & ->)].
  - destruct Hf as [[-> Hlo]|[-> Hlo]].
    + apply (kernel_pt_upd1 s f3 f2 f1 Hk). eapply table_upd_outside; [..|exact Hu]; lia.
    + apply (kernel_pt_upd2 s f3 f2 f1 Hk m' _ _ i (i + 1) (fun _ => val)); [lia|lia|done].
  - apply (kernel_pt_upd1 s f3 f2 f1 Hk), same_outside_refl.
Qed.

Lemma mapped_run_kernel s f3 f2 f1 f lo hi num frame flags size va r s' P : kernel_pt s f3 f2 f1 →
  (f = f1 ∧ 0 <= lo) ∨ (f = f2 ∧ LG_LO <= lo) → hi <= 512 →
  mapped_run s f lo hi num frame flags size va r s' ∨ (P ∧ nothing_mapped s r s') →
  kernel_pt s' f3 f2 f1.
Proof.
  intros Hk Hf Hhi [(i & m' & Hi & Hend & _ & _ & Hu & ->)|(_ & _ & ->)].
  - destruct Hf as [[-> Hlo]|[-> Hlo]].
    + apply (kernel_pt_upd1 s f3 f2 f1 Hk). eapply table_upd_outside; [..|exact Hu]; lia.
    + eapply (kernel_pt_upd2 s f3 f2 f1 Hk m' _ _ i (i + num)); [lia|lia|exact Hu].
  - apply (kernel_pt_upd1 s f3 f2 f1 Hk), same_outside_refl.
Qed.

Lemma wp_result {B} (o : outcome B) Q b : wp o Q → o = Ok b → Q b.
Proof. intros Hw ->. exact Hw. Qed.

Lemma window_step_kernel s s' f3 f2 f1 : kernel_pt s f3 f2 f1 → window_step s s' → kernel_pt s' f3 f2 f1.
Proof.
  intros Hk Hstep. destruct Hstep as [s frame flags va s' E|s frame num flags va s' Hn Hfr E|
    s frame flags va s' E|s frame num flags va s' Hn Hfr E|s i o r s' Hi Ho E|s i o num r s' Hi Ho Hn Hend E|
    s i o r s' Hi Ho E|s i o num r s' Hi Ho Hn Hend E].
  - pose proof (wp_result _ _ _ (vm_map_page_ok s f3 f2 f1 frame flags Hk) E) as Hw.
    apply (mapped_first_kernel s f3 f2 f1 f1 0 512 _ _ _ _ Hk (or_introl (conj eq_refl (Z.le_refl 0))) ltac:(lia) Hw).
  - destruct (Z.ltb_spec num 1) as [Hlt|Hge].
    { unfold vm_map_pages in E. rewrite (proj2 (Z.ltb_lt _ _) Hlt) in E. by injection E as _ <-. }
    pose proof (wp_result _ _ _ (vm_map_pages_ok s f3 f2 f1 frame num flags Hk (conj Hge Hn) Hfr) E) as Hw.
    apply (mapped_run_kernel s f3 f2 f1 f1 0 512 _ _ _ _ _ _ _ _ Hk (or_introl (conj eq_refl (Z.le_refl 0))) ltac:(lia) Hw).
  - pose proof (wp_result _ _ _ (vm_map_large_page_ok s f3 f2 f1 frame flags Hk) E) as Hw.
    apply (mapped_first_kernel s f3 f2 f1 f2 LG_LO LG_HI _ _ _ _ Hk (or_intror (conj eq_refl (Z.le_refl LG_LO))) ltac:(unfold LG_HI; lia) Hw).
  - destruct (Z.ltb_spec num 1) as [Hlt|Hge].
    { unfold vm_map_large_pages in E. rewrite (proj2 (Z.ltb_lt _ _) Hlt) in E. by injection E as _ <-. }
    pose proof (wp_result _ _ _ (vm_map_large_pages_ok s f3 f2 f1 frame num flags Hk (conj Hge Hn) Hfr) E) as Hw.
    apply (mapped_run_kernel s f3 f2 f1 f2 LG_LO LG_HI _ _ _ _ _ _ _ _ Hk (or_intror (conj eq_refl (Z.le_refl LG_LO))) ltac:(unfold LG_HI; lia) Hw).
  - pose proof (vm_unmap_page_ok s f3 f2 f1 i o Hk Hi Ho) as Hun. cbv zeta in Hun.
    rewrite Hun in E. injection E as _ <-.
    apply (kernel_pt_upd1 s f3 f2 f1 Hk). by apply same_outside_store.
  - pose proof (wp_result _ _ _ (vm_unmap_pages_ok s f3 f2 f1 i o num Hk Hi Ho Hn Hend) E) as Hw.
    destruct Hw as (m' & inv & -> & Hu & _).
    apply (kernel_pt_upd1 s f3 f2 f1 Hk). eapply table_upd_outside; [..|exact Hu]; lia.
  - pose proof (vm_unmap_large_page_ok s f3 f2 f1 i o Hk Hi Ho) as Hun. cbv zeta in Hun.
    rewrite Hun in E. injection E as _ <-. unfold LG_LO, LG_HI in Hi.
    apply (kernel_pt_upd2 s f3 f2 f1 Hk _ _ _ i (i + 1) (fun _ => 0)); [unfold LG_LO; lia|lia|].
    apply table_upd_one.
  - unfold LG_HI in Hend.
    pose proof (wp_result _ _ _ (vm_unmap_large_pages_ok s f3 f2 f1 i o num Hk Hi Ho Hn ltac:(lia)) E) as Hw.
    destruct Hw as (m' & inv & -> & Hu & _).
    apply (kernel_pt_upd2 s f3 f2 f1 Hk _ _ _ i (i + num) (fun _ => 0)); [lia|lia|done].
Qed.

(** C26: the invariant of the kernel windows. From a state where the PML4 maps
    itself and the window has its own tables, every sequence of calls that map
    and unmap pages of the two windows keeps the three tables reachable at
    their addresses and leaves the lock free. *)
Theorem kernel_window_invariant s s' f3 f2 f1 : kernel_pt s f3 f2 f1 → rtc window_step s s' →
  kernel_pt s' f3 f2 f1 ∧
  window (vm_mem s') (vm_cr3 s') kernel_pt_va f1 ∧ window (vm_mem s') (vm_cr3 s') kernel_pdt_va f2.
Proof.
  intros Hk Hr. assert (Hk' : kernel_pt s' f3 f2 f1).
  { revert Hk. induction Hr as [|x y z Hxy _ IH]; [done|]. intros Hk. by apply IH, (window_step_kernel x). }
  split; [done|]. split; [by eapply kernel_pt_window|by eapply kernel_pdt_window].
Qed.

(** [vm_init] makes the missing tables and leaves both windows empty, from
    any state where the PML4 maps itself, each table on the path is absent or
    a table of its own, and the frames of the allocator hold zeros; it
    stops with a message only when the allocator has no frame. *)
Theorem vm_init_spec s : lock_free (pg_lock s) → has_root s →
  path3 KERNEL_MAPPING_BASE (path1 KERNEL_MAPPING_BASE True) s →
  (∃ s' f3 f2 f1, vm_init s = Ok s' ∧ kernel_pt s' f3 f2 f1 ∧
     (∀ i, 0 <= i < 512 → entry (vm_mem s') f1 i = 0) ∧
     (∀ va, KERNEL_MAPPING_BASE <= va < KERNEL_MAPPING_BASE + 2 ^ 21 →
        translate (vm_mem s') (vm_cr3 s') va = None) ∧
     (∀ i, LG_LO <= i < LG_HI → entry (vm_mem s') f2 i = 0)) ∨
  (∃ m, vm_init s = Panic m ∧ no_frame m).
Proof.
  intros Hl Hr Hp. pose proof (vm_init_ok s Hl Hr Hp) as Hw.
  destruct (vm_init s) as [s'|m| |]; [left|right; by exists m|destruct Hw|destruct Hw].
  destruct Hw as (_ & f3 & f2 & f1 & [Hk Hz1 Hz2] & _). exists s', f3, f2, f1.
  split; [done|]. split; [done|]. split; [done|]. split; [|done]. intros va Hva.
  set (k := (va - KERNEL_MAPPING_BASE) / 4096).
  replace va with (KERNEL_MAPPING_BASE + 4096 * k + (va - KERNEL_MAPPING_BASE) mod 4096) by (unfold k; dlia).
  assert (0 <= k < 512) by (unfold k; dlia).
  apply (kernel_translate_absent _ _ _ _ Hk k); [done|apply Z.mod_pos_bound; lia|].
  by apply empty_entry, Hz1.
Qed.

(** [vm_map_page_unrestricted] maps the page at [vaddr] to the frame,
    making the tables that are missing, and keeps every entry that was present;
    it stops with a message exactly in the cases the code names: no frame for
    a table, or the entry taken. It needs the frames of the allocator to hold
    zeros. *)
Theorem vm_map_page_unrestricted_spec s frame flags vaddr :
  can_map s vaddr (path1 vaddr (page_taken s vaddr)) → canonical vaddr → vaddr mod 2 ^ 12 = 0 →
  frame mod 2 ^ 12 = 0 → 0 <= frame < 2 ^ 52 → frame_of flags = 0 → present flags = true →
  (∃ s', vm_map_page_unrestricted s frame flags vaddr = Ok s' ∧ lock_free (pg_lock s') ∧
     mem_extends (vm_mem s) (vm_mem s') ∧
     ∀ o, 0 <= o < 4096 → translate (vm_mem s') (vm_cr3 s') (vaddr + o) = Some (frame + o)) ∨
  (∃ m, vm_map_page_unrestricted s frame flags vaddr = Panic m ∧
     (no_frame m ∨ (m = "page table entry not available"%string ∧ page_taken s vaddr))).
Proof.
  intros Hc Hcan Hal Ha Hb Hf Hp.
  pose proof (vm_map_page_unrestricted_ok s frame flags vaddr Hc) as Hw.
  destruct (vm_map_page_unrestricted s frame flags vaddr) as [s'|m| |];
    [left|right; by exists m|destruct Hw|destruct Hw].
  destruct Hw as (f3 & f2 & f1 & Hpt & Hd). exists s'. split; [done|].
  split; [exact (md_lock _ _ _ _ _ Hd)|]. split; [exact (md_mem _ _ _ _ _ Hd)|].
  by apply (map_done_translate s s' f3 f2 f1 frame flags vaddr).
Qed.

Lemma vld_locked s va pa : translate (vm_mem s) (vm_cr3 s) va = Some pa →
  vld (locked_vm s) va = Ok (ldw (vm_mem s) pa).
Proof. intros E. unfold vld, locked_vm, with_pg_lock. cbn [vm_mem vm_cr3]. by rewrite E. Qed.
Lemma vld_locked_none s va : translate (vm_mem s) (vm_cr3 s) va = None → vld (locked_vm s) va = Fault.
Proof. intros E. unfold vld, locked_vm, with_pg_lock. cbn [vm_mem vm_cr3]. by rewrite E. Qed.

(** [vm_check_mapping] reads all four levels whether or not the tables are
    there: it prints the four entries when the upper three are present, and
    when one of them is not, it faults, holding the lock. *)
Theorem vm_check_mapping_spec s addr : is_u64 addr → lock_free (pg_lock s) →
  rec_at (vm_mem s) (vm_cr3 s) →
  (∀ f3 f2 f1, pt_at (vm_mem s) (vm_cr3 s) addr f3 f2 f1 →
     ∃ s', vm_check_mapping s addr =
       Ok ([entry (vm_mem s) (vm_cr3 s) (idx4 addr); entry (vm_mem s) f3 (idx3 addr);
            entry (vm_mem s) f2 (idx2 addr); entry (vm_mem s) f1 (idx1 addr)], s') ∧
       lock_free (pg_lock s')) ∧
  (slot_free (vm_mem s) (vm_cr3 s) (idx4 addr) ∨
   (∃ f3, pdpt_at (vm_mem s) (vm_cr3 s) addr f3 ∧ slot_free (vm_mem s) f3 (idx3 addr)) ∨
   (∃ f3 f2, pdt_at (vm_mem s) (vm_cr3 s) addr f3 f2 ∧ slot_free (vm_mem s) f2 (idx2 addr)) →
   vm_check_mapping s addr = Fault).
Proof.
  intros Ha Hl Hr. pose proof (idx_bounds addr) as (I4 & I3 & I2 & I1).
  unfold vm_check_mapping. rewrite lock_vm_bind by done.
  rewrite get_pml4t, get_pdpt, get_pdt, get_pt by done.
  rewrite pml4t_entry_idx, pdpt_entry_idx, pdt_entry_idx, pt_entry_idx. rewrite bind_ok, (vld_locked _ _ _ (translate_pml4t _ _ _ Hr I4)), !bind_ok.
  assert (Habs : ∀ b c d f3 f2 f1 i, 0 <= b < 512 → 0 <= c < 512 → 0 <= d < 512 → 0 <= i < 512 →
            table_entry (entry (vm_mem s) (vm_cr3 s) 511) f3 → table_entry (entry (vm_mem s) f3 b) f2 →
            table_entry (entry (vm_mem s) f2 c) f1 → slot_free (vm_mem s) f1 d →
            translate (vm_mem s) (vm_cr3 s) (slot (rec_va b c d 0) i) = None).
  { intros b c d f3 f2 f1 i Hb Hc Hd Hi T4 T3 T2 Hs. rewrite (rec_va_slot b c d i) by done.
    apply (translate_absent1 _ _ _ f3 f2 f1); [by apply rec_va_canonical|..].
    - by rewrite rec_va_idx4.
    - by rewrite rec_va_idx3.
    - by rewrite rec_va_idx2.
    - by rewrite rec_va_idx1. }
  split.
  - intros f3 f2 f1 Hpt. pose proof (proj1 Hpt) as Hpd. pose proof (proj1 Hpd) as Hpp.
    rewrite (vld_locked _ _ _ (translate_pdpt _ _ _ _ _ Hpp I3)), !bind_ok.
    rewrite (vld_locked _ _ _ (translate_pdt _ _ _ _ _ _ Hpd I2)), !bind_ok.
    rewrite (vld_locked _ _ _ (translate_pt _ _ _ _ _ _ _ Hpt I1)), !bind_ok.
    eexists. split; [reflexivity|]. by apply (locked_cycle s).
  - intros [H4|[(f3 & Hpp & H3)|(f3 & f2 & Hpd & H2)]].
    + rewrite vld_locked_none; [reflexivity|].
      apply (Habs 511 511 (idx4 addr) (vm_cr3 s) (vm_cr3 s) (vm_cr3 s)); done || lia.
    + rewrite (vld_locked _ _ _ (translate_pdpt _ _ _ _ _ Hpp I3)), !bind_ok.
      rewrite vld_locked_none; [reflexivity|].
      apply (Habs 511 (idx4 addr) (idx3 addr) (vm_cr3 s) (vm_cr3 s) f3); done || lia || apply Hpp.
    + pose proof (proj1 Hpd) as Hpp. rewrite (vld_locked _ _ _ (translate_pdpt _ _ _ _ _ Hpp I3)), !bind_ok.
      rewrite (vld_locked _ _ _ (translate_pdt _ _ _ _ _ _ Hpd I2)), !bind_ok.
      rewrite vld_locked_none; [reflexivity|].
      apply (Habs (idx4 addr) (idx3 addr) (idx2 addr) (vm_cr3 s) f3 f2); done || lia || apply Hpd.
Qed.
End properties.

(** ** Two defects *)

(** The window with slots 0, 2 and 3 free and the other 509 taken. *)
Definition holes_vm : vm phys :=
  with_mem init_vm (foldr (fun i m => <[0x13F000 + 8 * Z.of_nat i := 0x111003]> m) (vm_mem init_vm)
    (1%nat :: seq 4 508)).

Lemma holes_kernel : kernel_pt holes_vm 0x301000 0x302000 0x13F000.
Proof.
  assert (Hm : vm_cr3 holes_vm = 0x300000) by (vm_compute; reflexivity).
  split; rewrite ?Hm.
  - split; [split; [split|]|]; apply table_entryb; vm_compute; reflexivity.
  - split; discriminate.
  - split; [discriminate|split; discriminate].
  - split; [vm_compute; split; congruence|vm_compute; reflexivity].
Qed.

(** [vm_map_pages] misses runs that fit. After a run that is too short the
    search goes on at [j + 1], where [j] is the first slot taken, and the loop
    adds 1 once more: the slot after [j] is never the start of a run. With
    slots 2 and 3 free it reports that two pages cannot be mapped. *)
Theorem vm_map_pages_misses :
  kernel_pt holes_vm 0x301000 0x302000 0x13F000 ∧ run_free (vm_mem holes_vm) 0x13F000 2 2 ∧
  ∃ s', vm_map_pages holes_vm 0x500000 2 PGT_P = Ok (0, s').
Proof.
  split; [exact holes_kernel|]. split.
  - intros k Hk. assert (k = 2 ∨ k = 3) as [->| ->] by lia; vm_compute; reflexivity.
  - destruct (ok_value (vm_map_pages holes_vm 0x500000 2 PGT_P) (fun x => x.1 =? 0)) as ([r s'] & E & Hr);
      [vm_compute; reflexivity|].
    exists s'. rewrite E. apply Z.eqb_eq in Hr. cbn in Hr. by rewrite Hr.
Qed.

(** The boot tables, with a word left over in the frame that the allocator
    gives out next. *)
Definition stale_vm : vm phys :=
  with_mem boot_vm (<[0x13F000 + 8 * 3 := 0x12345003]> boot_mem).

(** Frames for new tables are not cleared. With a word left over in the
    next free frame, mapping the page at [0xA00000] also maps the page at
    [0xA03000], which nobody asked for, and asking for that one stops with
    "page table entry not available". *)
Theorem vm_map_page_unrestricted_stale :
  translate (vm_mem stale_vm) (vm_cr3 stale_vm) 0xA03000 = None ∧
  ∃ s', vm_map_page_unrestricted stale_vm 0x500000 (PGT_P .| PGT_RW) 0xA00000 = Ok s' ∧
    translate (vm_mem s') (vm_cr3 s') 0xA00000 = Some 0x500000 ∧
    translate (vm_mem s') (vm_cr3 s') 0xA03000 = Some 0x12345000 ∧
    vm_map_page_unrestricted s' 0x501000 (PGT_P .| PGT_RW) 0xA03000 =
      Panic "page table entry not available".
Proof.
  split; [vm_compute; reflexivity|].
  destruct (ok_value (vm_map_page_unrestricted stale_vm 0x500000 (PGT_P .| PGT_RW) 0xA00000) (fun s' =>
      bool_decide (translate (vm_mem s') (vm_cr3 s') 0xA00000 = Some 0x500000) &&
      bool_decide (translate (vm_mem s') (vm_cr3 s') 0xA03000 = Some 0x12345000) &&
      match vm_map_page_unrestricted s' 0x501000 (PGT_P .| PGT_RW) 0xA03000 with
      | Panic m => bool_decide (m = "page table entry not available"%string)
      | _ => false
      end)) as (s' & E & Hb); [vm_compute; reflexivity|].
  exists s'. split; [exact E|].
  apply andb_true_iff in Hb as [Hb H3]. apply andb_true_iff in Hb as [H1 H2].
  apply bool_decide_eq_true in H1, H2. split; [exact H1|]. split; [exact H2|].
  destruct (vm_map_page_unrestricted s' 0x501000 _ 0xA03000) as [s2|m| |];
    [discriminate H3| |discriminate H3|discriminate H3].
  apply bool_decide_eq_true in H3. rewrite H3. reflexivity.
Qed.

(** ** Witnesses *)

Lemma vm_map_preserves_mappings_witness :
  ∃ s', run_map (MapPage 0x500000 3) init_vm = Ok s' ∧
    translate (vm_mem s') (vm_cr3 s') 0x1234 = Some 0x1234.
Proof.
  destruct (ok_value (run_map (MapPage 0x500000 3) init_vm) (fun _ => true)) as (s' & E & _);
    [vm_compute; reflexivity|].
  exists s'. split; [exact E|].
  apply (vm_map_preserves_mappings init_vm (MapPage 0x500000 3) s' E). vm_compute. reflexivity.
Defined.

Lemma vm_map_page_spec_witness :
  ∃ va s', vm_map_page init_vm 0x500000 (PGT_P .| PGT_RW .| PGT_XD) = Ok (va, s') ∧
    kernel_pt s' 0x301000 0x302000 0x13F000.
Proof.
  destruct (vm_map_page_spec init_vm _ _ _ 0x500000 (PGT_P .| PGT_RW .| PGT_XD) init_kernel)
    as (va & s' & E & Hk & _); [reflexivity|lia|reflexivity|reflexivity|].
  exists va, s'. split; [exact E|exact Hk].
Defined.

Lemma vm_map_pages_spec_witness :
  ∃ va s', vm_map_pages init_vm 0x500000 20 PGT_P = Ok (va, s') ∧
    translate (vm_mem s') (vm_cr3 s') (va + 0x3456) = Some 0x503456.
Proof.
  destruct (vm_map_pages_spec init_vm _ _ _ 0x500000 20 PGT_P init_kernel)
    as (va & s' & E & _ & _ & _ & Hc); [lia|reflexivity|lia|lia|reflexivity|reflexivity|].
  exists va, s'. split; [exact E|]. destruct Hc as [(i & _ & _ & _ & _ & _ & Htr)|(_ & _ & Hno & _)].
  - apply (Htr 0x3456). lia.
  - destruct Hno. split; [lia|]. intros k Hk. apply init_free. lia.
Defined.

Lemma vm_map_large_pages_spec_witness :
  ∃ va s', vm_map_large_pages init_vm 0x4000000 3 (PGT_P .| PDT_PS) = Ok (va, s') ∧
    kernel_pt s' 0x301000 0x302000 0x13F000.
Proof.
  destruct (vm_map_large_pages_spec init_vm _ _ _ 0x4000000 3 (PGT_P .| PDT_PS) init_kernel)
    as (va & s' & E & Hk & _); [lia|reflexivity|lia|lia|reflexivity..|].
  exists va, s'. split; [exact E|exact Hk].
Defined.

Lemma vm_map_unmap_roundtrip_witness :
  ∃ va s1 s2, vm_map_page init_vm 0x500000 (PGT_P .| PGT_XD) = Ok (va, s1) ∧
    vm_unmap_page s1 va = Ok (Z.lor 0x500000 PGT_XD, s2) ∧ translate (vm_mem s2) (vm_cr3 s2) va = None.
Proof.
  pose proof (vm_map_page_ok init_vm _ _ _ 0x500000 (PGT_P .| PGT_XD) init_kernel) as Hw.
  destruct (proj1 (wp_ok _ _) Hw) as ([va s1] & E & Hw'). clear Hw. exists va, s1.
  destruct (vm_map_unmap_roundtrip init_vm _ _ _ 0x500000 (PGT_P .| PGT_XD) va s1 init_kernel)
    as (s2 & E2 & _ & _ & Htr & _); [reflexivity|lia| |exact E| |].
  - intros i Hi _. by apply init_zero.
  - destruct Hw' as [(i & m' & Hi & _ & _ & -> & _)|[Hall _]].
    + rewrite kernel_va_ok by done. change KERNEL_MAPPING_BASE with 0xA00000. lia.
    + destruct (Hall 0); [lia|]. apply init_free. lia.
  - exists s2. split; [exact E|]. split; [exact E2|exact Htr].
Defined.

Lemma vm_unmap_pages_spec_witness :
  ∃ r s', vm_unmap_pages holes_vm (KERNEL_MAPPING_BASE + 4096 * 4 + 0) 3 = Ok (r, s') ∧
    translate (vm_mem s') (vm_cr3 s') (KERNEL_MAPPING_BASE + 4096 * 4 + 8200) = None ∧
    r = 0x111000.
Proof.
  destruct (vm_unmap_pages_spec holes_vm _ _ _ 4 0 3 holes_kernel)
    as (r & s' & E & _ & _ & _ & Htr & Hr); [lia|lia|lia|lia|].
  exists r, s'. split; [exact E|]. split; [apply (Htr 8200); lia|].
  rewrite Hr; vm_compute; congruence.
Defined.

Lemma kernel_window_invariant_witness :
  ∃ s', rtc window_step init_vm s' ∧ kernel_pt s' 0x301000 0x302000 0x13F000.
Proof.
  pose proof (vm_map_page_ok init_vm _ _ _ 0x500000 3 init_kernel) as Hw.
  destruct (proj1 (wp_ok _ _) Hw) as ([va s1] & E & _). exists s1.
  assert (Hr : rtc window_step init_vm s1) by (eapply rtc_once, win_page; exact E).
  split; [exact Hr|]. exact (proj1 (kernel_window_invariant init_vm s1 _ _ _ init_kernel Hr)).
Defined.

Lemma vm_init_spec_witness :
  ∃ s' f3 f2 f1, vm_init boot_vm = Ok s' ∧ kernel_pt s' f3 f2 f1.
Proof.
  destruct (vm_init_spec boot_vm lock_free_unlocked boot_root boot_init_path)
    as [(s' & f3 & f2 & f1 & E & Hk & _)|(m & E & _)].
  - exists s', f3, f2, f1. split; [exact E|exact Hk].
  - exfalso. rewrite init_vm_eq in E. discriminate E.
Defined.

Lemma vm_map_page_unrestricted_spec_witness :
  ∃ s', vm_map_page_unrestricted boot_vm 0x500000 (PGT_P .| PGT_RW) 0x600000 = Ok s' ∧
    translate (vm_mem s') (vm_cr3 s') 0x600123 = Some 0x500123.
Proof.
  assert (Hc : can_map boot_vm 0x600000 (path1 0x600000 (page_taken boot_vm 0x600000))).
  { apply boot_can_map; [lia|]. split.
    - intros Hp. vm_compute in Hp. discriminate Hp.
    - intros f1 (Hp & _). vm_compute in Hp. discriminate Hp. }
  destruct (vm_map_page_unrestricted_spec boot_vm 0x500000 (PGT_P .| PGT_RW) 0x600000 Hc)
    as [(s' & E & _ & _ & Htr)|(m & E & _)];
    [left; lia|reflexivity|reflexivity|lia|reflexivity|reflexivity| |].
  - exists s'. split; [exact E|]. apply (Htr 0x123). lia.
  - exfalso. assert (Hr : match vm_map_page_unrestricted boot_vm 0x500000 (PGT_P .| PGT_RW) 0x600000 with
                          | Ok _ => true | _ => false end = true) by (vm_compute; reflexivity).
    rewrite E in Hr. discriminate Hr.
Defined.

Lemma vm_check_mapping_spec_witness : vm_check_mapping boot_vm 0x8000000000 = Fault.
Proof.
  destruct (vm_check_mapping_spec boot_vm 0x8000000000) as [_ Hf];
    [unfold is_u64; lia|exact lock_free_unlocked|exact (hr_rec _ boot_root)|].
  apply Hf. left. reflexivity.
Defined.
