(* ===== verification/Kernel.v ===== *)
(** * The state of the interrupt and multiprocessor code

    The static variables of [arch/x86_64/interrupt/apic.c] and
    [kernel/acpi.c], with the page tables they map pages in, what has been
    written to devices, and what has been printed. Device registers are outside the
    program: reads return what the class [Devices] says, as a function
    of what was written before. *)

From S2P Require Import Prelude Layout Spinlock Physical Mmu Paging.

Local Open Scope Z_scope.
Local Open Scope c_scope.

(** What the CPU does to the rest of the machine. *)
Inductive io_event : Type :=
  | MmioWrite (pa data : Z)
  | MmioRead (pa : Z)
  | MemStore (pa data : Z)
  | Outb (port val : Z)
  | Wrmsr (msr val : Z)
  | InterruptsSaved
  | InterruptsRestored.

(** What the machine answers: the value of a register after a history of
    events (latest first), [cpuid] leaf [0x15] and the number of the running
    CPU. *)
Class Devices := {
  mmio_in : list io_event → Z → Z;
  mmio_in_u32 h pa : is_u32 (mmio_in h pa);
  msr_in : list io_event → Z → Z;
  cpuid_15 : Z * Z * Z
}.

(** ** Static variables *)

Record irq_override := IrqOverride {
  ov_irq : Z;
  ov_flags : Z;
  ov_gsi : Z
}.
#[export] Instance irq_override_eq_dec : EqDecision irq_override.
Proof. solve_decision. Defined.

Record apic := Apic {
  lapic_addr : Z;
  ioapic_addr : Z;
  gsi_base : Z;
  num_gsi : Z;
  tsc_freq : Z;
  lapic_phys_ids : list Z
}.

Definition apic_init : apic := Apic 0xFEE00000 0xFEC00000 0 0 0 (replicate 16 0).

Definition MAX_IRQ_OVERRIDES : Z := 32.

Record acpi := Acpi {
  g_cpus : Z;
  irq_map : list irq_override;
  num_overrides : Z;
  num_ioapic : Z;
  lapic_ids : list Z
}.

Definition acpi_statics : acpi :=
  Acpi 1 (replicate 32 (IrqOverride 0 0 0)) 0 0 (replicate 16 0).

Record kernel (A : Type) := Kernel {
  k_vm : vm A;
  k_apic : apic;
  k_acpi : acpi;
  k_io : list io_event;
  k_log : list (string * list Z)
}.
Arguments Kernel {A}.
Arguments k_vm {A}.
Arguments k_apic {A}.
Arguments k_acpi {A}.
Arguments k_io {A}.
Arguments k_log {A}.

Section kernel.
Context {A : Type}.
Implicit Types k : kernel A.

Definition set_vm k (v : vm A) : kernel A := Kernel v (k_apic k) (k_acpi k) (k_io k) (k_log k).
Definition set_apic k (a : apic) : kernel A := Kernel (k_vm k) a (k_acpi k) (k_io k) (k_log k).
Definition set_acpi k (a : acpi) : kernel A := Kernel (k_vm k) (k_apic k) a (k_io k) (k_log k).
Definition add_io k (e : io_event) : kernel A :=
  Kernel (k_vm k) (k_apic k) (k_acpi k) (e :: k_io k) (k_log k).
Definition add_log k (fmt : string) (args : list Z) : kernel A :=
  Kernel (k_vm k) (k_apic k) (k_acpi k) (k_io k) ((fmt, args) :: k_log k).
End kernel.

(** [a[i]] and [a[i] = v] on an array of fixed length: an index outside is a
    [Fault]. *)
Definition list_get {B} (l : list B) (i : Z) : outcome B :=
  if i <? 0 then Fault
  else match l !! Z.to_nat i with Some b => Ok b | None => Fault end.
Definition list_set {B} (l : list B) (i : Z) (b : B) : outcome (list B) :=
  if (0 <=? i) && (i <? Z.of_nat (length l)) then Ok (<[Z.to_nat i := b]> l) else Fault.

Lemma list_get_ok {B} (l : list B) i : 0 <= i < Z.of_nat (length l) →
  ∃ b, list_get l i = Ok b ∧ l !! Z.to_nat i = Some b.
Proof.
  intros Hi. unfold list_get. destruct (Z.ltb_spec i 0); [lia|].
  destruct (lookup_lt_is_Some_2 l (Z.to_nat i) ltac:(lia)) as [b Hb]. rewrite Hb. by exists b.
Qed.
Lemma list_get_lookup {B} (l : list B) i b : 0 <= i → l !! Z.to_nat i = Some b → list_get l i = Ok b.
Proof. intros Hi Hb. unfold list_get. rewrite (proj2 (Z.ltb_ge i 0)) by done. by rewrite Hb. Qed.
Lemma list_get_fault {B} (l : list B) i : Z.of_nat (length l) <= i → list_get l i = Fault.
Proof.
  intros Hi. unfold list_get. destruct (i <? 0); [done|].
  by rewrite lookup_ge_None_2 by lia.
Qed.
Lemma list_set_ok {B} (l : list B) i b : 0 <= i < Z.of_nat (length l) →
  list_set l i b = Ok (<[Z.to_nat i := b]> l).
Proof.
  intros Hi. unfold list_set. destruct (Z.leb_spec 0 i), (Z.ltb_spec i (Z.of_nat (length l))); done || lia.
Qed.
Lemma list_set_fault {B} (l : list B) i b : Z.of_nat (length l) <= i → list_set l i b = Fault.
Proof.
  intros Hi. unfold list_set. destruct (Z.ltb_spec i (Z.of_nat (length l))); [lia|].
  by rewrite andb_false_r.
Qed.
