(* ===== verification/Apic.v ===== *)
(** * Local APIC and I/O APIC

    Models [arch/x86_64/interrupt/apic.c] and the MMIO and port accessors of
    [arch/x86_64/include/io.h]. A register access goes to the physical address
    that the page tables give for the register's address, so that
    [lapic_init] and [ioapic_init] must map the registers first. The
    registers of the I/O APIC are replayed from the events ([ioapic_reg]) to
    state what a write of a redirection entry does. *)

From S2P Require Import Prelude Layout Bits Spinlock Physical Mmu Paging PagingSpec Kernel.

Local Open Scope Z_scope.
Local Open Scope c_scope.

(** ** include/apic.h, io.h *)

Definition LAPIC_ID : Z := 0x20.
Definition LAPIC_TPR : Z := 0x80.
Definition LAPIC_EOI : Z := 0xB0.
Definition LAPIC_SPIV : Z := 0xF0.
Definition LAPIC_ICR : Z := 0x300.
Definition LAPIC_ICRH : Z := 0x310.
Definition LAPIC_LVTT : Z := 0x320.
Definition LAPIC_LVTPC : Z := 0x340.
Definition LAPIC_LVT0 : Z := 0x350.
Definition LAPIC_LVT1 : Z := 0x360.
Definition LAPIC_LVTE : Z := 0x370.
Definition LAPIC_ID_OFFSET : Z := 24.
Definition LAPIC_ICR_TM_LEVEL : Z := 0x8000.
Definition LAPIC_ICR_LEVELASSERT : Z := 0x4000.
Definition LAPIC_ICR_DM_INIT : Z := 0x500.
Definition LAPIC_ICR_DM_SIPI : Z := 0x600.

Definition IOAPIC_REGSEL : Z := 0.
Definition IOAPIC_WIN : Z := 0x10.
Definition IOAPIC_VER : Z := 0x1.
Definition IOAPIC_REDTBL (n : Z) : Z := u32 (0x10 + 2 * n).

Definition PIT_CHANNEL0 : Z := 0x40.
Definition PIT_CMD : Z := 0x43.
Definition PIC1_COMMAND : Z := 0x20.
Definition PIC2_COMMAND : Z := 0xA0.
Definition PIC1_DATA : Z := 0x21.
Definition PIC2_DATA : Z := 0xA1.
Definition PIT_IRQ : Z := 0.

Definition PAGE_FLAGS_MMIO : Z := PGT_P .| PGT_RW .| PGT_PCD .| PGT_PWT .| PGT_XD.

Section apic.
Context `{HM : Mmu} {A : Type} `{HA : FrameAllocator A} `{HD : Devices}.
Implicit Types k : kernel A.

Definition outb k (port val : Z) : kernel A := add_io k (Outb port val).

Definition mmio_write32 k (addr data : Z) : outcome (kernel A) :=
  match translate (vm_mem (k_vm k)) (vm_cr3 (k_vm k)) addr with
  | Some pa => Ok (add_io k (MmioWrite pa data))
  | None => Fault
  end.
Definition mmio_read32 k (addr : Z) : outcome (Z * kernel A) :=
  match translate (vm_mem (k_vm k)) (vm_cr3 (k_vm k)) addr with
  | Some pa => Ok (mmio_in (k_io k) pa, add_io k (MmioRead pa))
  | None => Fault
  end.

Definition lapic_write32 k (offset data : Z) : outcome (kernel A) :=
  mmio_write32 k (lapic_addr (k_apic k) +w offset) data.
Definition lapic_read32 k (offset : Z) : outcome (Z * kernel A) :=
  mmio_read32 k (lapic_addr (k_apic k) +w offset).
Definition ioapic_write32_raw k (offset data : Z) : outcome (kernel A) :=
  mmio_write32 k (ioapic_addr (k_apic k) +w offset) data.
Definition ioapic_read32_raw k (offset : Z) : outcome (Z * kernel A) :=
  mmio_read32 k (ioapic_addr (k_apic k) +w offset).

(** The [uint8_t reg] parameters truncate. *)
Definition ioapic_write32 k (reg data : Z) : outcome (kernel A) :=
  let reg := u8 reg in
  k ← ioapic_write32_raw k IOAPIC_REGSEL reg;
  ioapic_write32_raw k IOAPIC_WIN data.
Definition ioapic_read32 k (reg : Z) : outcome (Z * kernel A) :=
  let reg := u8 reg in
  k ← ioapic_write32_raw k IOAPIC_REGSEL reg;
  ioapic_read32_raw k IOAPIC_WIN.

Definition ioapic_write64 k (reg data : Z) : outcome (kernel A) :=
  let reg := u8 reg in
  k ← ioapic_write32_raw k IOAPIC_REGSEL reg;
  k ← ioapic_write32_raw k IOAPIC_WIN 0x10000;
  k ← ioapic_write32_raw k IOAPIC_REGSEL (u32 (reg + 1));
  k ← ioapic_write32_raw k IOAPIC_WIN (u32 (data >>w 32));
  k ← ioapic_write32_raw k IOAPIC_REGSEL reg;
  ioapic_write32_raw k IOAPIC_WIN (u32 (data .& 0xFFFFFFFF)).

Definition ioapic_map_gsi k (gsi vector flags : Z) : outcome (kernel A) :=
  let base := gsi_base (k_apic k) in
  if (gsi <? base) || (u32 (base + num_gsi (k_apic k)) <=? gsi) then Panic "Unsupported GSI number"
  else
    let gsi := u32 (gsi - base) in
    ioapic_write64 k (IOAPIC_REDTBL gsi) (flags .| vector).

Definition lapic_get_phys_id_raw k : outcome (Z * kernel A) :=
  '(x, k) ← lapic_read32 k LAPIC_ID;
  Ok (u8 ((x >>w LAPIC_ID_OFFSET) .& 0xF), k).

Definition lapic_get_phys_id k (cpu : Z) : outcome Z := list_get (lapic_phys_ids (k_apic k)) cpu.

Definition lapic_eoi k : outcome (kernel A) := lapic_write32 k LAPIC_EOI 0.

Definition lapic_send_ipi k (dest vector : Z) : outcome (kernel A) :=
  let k := add_io k InterruptsSaved in
  k ← lapic_write32 k LAPIC_ICRH (u32 (Z.shiftl dest LAPIC_ID_OFFSET));
  k ← lapic_write32 k LAPIC_ICR vector;
  Ok (add_io k InterruptsRestored).

Definition set_tsc_freq k (f : Z) : kernel A :=
  let a := k_apic k in
  set_apic k (Apic (lapic_addr a) (ioapic_addr a) (gsi_base a) (num_gsi a) f (lapic_phys_ids a)).
Definition set_num_gsi k (n : Z) : kernel A :=
  let a := k_apic k in
  set_apic k (Apic (lapic_addr a) (ioapic_addr a) (gsi_base a) n (tsc_freq a) (lapic_phys_ids a)).
Definition set_phys_id k (cpu id : Z) : outcome (kernel A) :=
  let a := k_apic k in
  ids ← list_set (lapic_phys_ids a) cpu id;
  Ok (set_apic k (Apic (lapic_addr a) (ioapic_addr a) (gsi_base a) (num_gsi a) (tsc_freq a) ids)).

(** The page of the registers is mapped at its own address. *)
Definition identity_map k (addr : Z) : outcome (kernel A) :=
  v ← vm_map_page_unrestricted (k_vm k) addr PAGE_FLAGS_MMIO addr;
  Ok (set_vm k v).

(** [lapic_init]: the part the first CPU runs alone, *)
Definition lapic_init_bsp k : outcome (kernel A) :=
  k ← identity_map k (lapic_addr (k_apic k));
  let '(eax, ebx, ecx) := cpuid_15 in
  if (ecx =? 0) || (ebx =? 0) then Panic "No TSC frequency info"
  else
    f ← div64 (u32 (ecx * ebx)) eax;
    Ok (add_log (set_tsc_freq k f) "TSC freq: %u" [f]).

(** the registers, *)
Definition lapic_init_writes : list (Z * Z) :=
  [(LAPIC_TPR, 0x00); (LAPIC_LVTT, 0x10000); (LAPIC_LVTPC, 0x10000); (LAPIC_LVT0, 0x08700);
   (LAPIC_LVT1, 0x00400); (LAPIC_LVTE, 0x10000); (LAPIC_SPIV, 0x0010F)].

Fixpoint lapic_writes k (l : list (Z * Z)) : outcome (kernel A) :=
  match l with
  | [] => Ok k
  | (offset, data) :: l => k ← lapic_write32 k offset data; lapic_writes k l
  end.

(** and the whole function, on the CPU with number [cpu]. *)
Definition lapic_init k (cpu : Z) : outcome (kernel A) :=
  k ← (if cpu =? 0 then lapic_init_bsp k else Ok k);
  k ← lapic_writes k lapic_init_writes;
  '(id, k) ← lapic_get_phys_id_raw k;
  set_phys_id k cpu id.

(** [for (i = 0; i < num_gsi; i++) ioapic_write64(IOAPIC_REDTBL(i), 0x10000)] *)
Definition mask_gsi_step (st : Z * kernel A) : outcome ((Z * kernel A) + kernel A) :=
  let '(i, k) := st in
  if i <? num_gsi (k_apic k) then
    k ← ioapic_write64 k (IOAPIC_REDTBL i) 0x10000;
    Ok (inl (u32 (i + 1), k))
  else Ok (inr k).

(** The redirection entry of the timer, from the flags of its override. *)
Definition pit_entry (flags : Z) : Z :=
  let entry := 0xFF00000000000000 in
  let entry := if flags .& 0x2 =? 0 then entry else entry .| 0x2000 in
  if flags .& 0x8 =? 0 then entry else entry .| 0x8000.

(** [acpi_irq_to_gsi] comes from kernel/acpi.c: its argument here, supplied by
    Acpi.v. *)
Definition ioapic_init (acpi_irq_to_gsi : kernel A → Z → outcome (Z * Z)) k : outcome (kernel A) :=
  let k := outb k PIC1_DATA 0xFF in
  let k := outb k PIC2_DATA 0xFF in
  k ← identity_map k (ioapic_addr (k_apic k));
  '(ver, k) ← ioapic_read32 k IOAPIC_VER;
  let k := set_num_gsi k (u32 (((ver >>w 16) .& 0xFF) + 1)) in
  k ← while mask_gsi_step (0, k);
  '(gsi, flags) ← acpi_irq_to_gsi k PIT_IRQ;
  ioapic_map_gsi k gsi 0x20 (pit_entry flags).
End apic.

(** ** The registers behind the events *)

(** [IOREGSEL] and the registers of an I/O APIC at the physical address
    [base], after a history of events. *)
Fixpoint ioapic_replay (base : Z) (regs0 : Z → Z) (h : list io_event) : Z * (Z → Z) :=
  match h with
  | [] => (0, regs0)
  | e :: h =>
      let '(sel, regs) := ioapic_replay base regs0 h in
      match e with
      | MmioWrite pa d =>
          if pa =? base + IOAPIC_REGSEL then (d .& 0xFF, regs)
          else if pa =? base + IOAPIC_WIN then (sel, fun r => if r =? sel then d else regs r)
          else (sel, regs)
      | _ => (sel, regs)
      end
  end.

(** A redirection entry: the two registers of line [n]. *)
Definition ioapic_entry (base : Z) (regs0 : Z → Z) (h : list io_event) (n : Z) : Z * Z :=
  let regs := (ioapic_replay base regs0 h).2 in (regs (0x10 + 2 * n), regs (0x10 + 2 * n + 1)).

(** The entry as it was, or masked. *)
Definition entry_safe (old new e : Z * Z) : Prop := e = old ∨ e.1 = 0x10000 ∨ e = new.

Section apic_proofs.
Context `{HM : Mmu} {A : Type} `{HA : FrameAllocator A} `{HD : Devices}.
Implicit Types k : kernel A.

Definition k_translate k (va : Z) : option Z := translate (vm_mem (k_vm k)) (vm_cr3 (k_vm k)) va.

(** The page at [va] is mapped to the page at [pa]. *)
Record page_mapped k (va pa : Z) : Prop := {
  pm_va : 0 <= va ∧ va + 4096 <= 2 ^ 64;
  pm_translate o : 0 <= o < 4096 → k_translate k (va + o) = Some (pa + o)
}.

(** [k'] is [k] after more events. *)
Definition io_more k k' (es : list io_event) : Prop :=
  k' = Kernel (k_vm k) (k_apic k) (k_acpi k) (es ++ k_io k) (k_log k).

Lemma io_more_nil k : io_more k k [].
Proof. by destruct k. Qed.
Lemma io_more_app k k1 k2 es1 es2 : io_more k k1 es1 → io_more k1 k2 es2 → io_more k k2 (es2 ++ es1).
Proof. intros -> ->. unfold io_more. cbn. by rewrite app_assoc. Qed.
Lemma io_more_mapped k k' es va pa : io_more k k' es → page_mapped k va pa → page_mapped k' va pa.
Proof. intros -> [H1 H2]. by split. Qed.

Lemma page_mapped_vm k k' va pa : k_vm k' = k_vm k → page_mapped k va pa → page_mapped k' va pa.
Proof. intros E [H1 H2]. split; [done|]. intros o Ho. unfold k_translate. rewrite E. by apply H2. Qed.

Lemma mmio_write32_ok k va pa o data : page_mapped k va pa → 0 <= o < 4096 →
  mmio_write32 k (va +w o) data = Ok (add_io k (MmioWrite (pa + o) data)).
Proof.
  intros [Hb Ht] Ho. unfold mmio_write32. rewrite u64_id by (unfold is_u64; lia).
  specialize (Ht o Ho). unfold k_translate in Ht. by rewrite Ht.
Qed.
Lemma mmio_read32_ok k va pa o : page_mapped k va pa → 0 <= o < 4096 →
  mmio_read32 k (va +w o) = Ok (mmio_in (k_io k) (pa + o), add_io k (MmioRead (pa + o))).
Proof.
  intros [Hb Ht] Ho. unfold mmio_read32. rewrite u64_id by (unfold is_u64; lia).
  specialize (Ht o Ho). unfold k_translate in Ht. by rewrite Ht.
Qed.
Lemma add_io_mapped k e va pa : page_mapped k va pa → page_mapped (add_io k e) va pa.
Proof. intros [H1 H2]. by split. Qed.

(** *** Writing a redirection entry *)

Definition write64_events (base reg data : Z) : list io_event :=
  [MmioWrite (base + IOAPIC_WIN) (u32 (data .& 0xFFFFFFFF)); MmioWrite (base + IOAPIC_REGSEL) reg;
   MmioWrite (base + IOAPIC_WIN) (u32 (data >>w 32)); MmioWrite (base + IOAPIC_REGSEL) (reg + 1);
   MmioWrite (base + IOAPIC_WIN) 0x10000; MmioWrite (base + IOAPIC_REGSEL) reg].

Lemma ioapic_write64_ok k base reg data : page_mapped k (ioapic_addr (k_apic k)) base →
  0 <= reg < 255 →
  ∃ k', ioapic_write64 k reg data = Ok k' ∧ io_more k k' (write64_events base reg data).
Proof.
  intros Hm Hr. unfold ioapic_write64, ioapic_write32_raw.
  rewrite (u8_id reg) by (unfold is_u8; lia). rewrite (u32_id (reg + 1)) by (unfold is_u32; lia).
  rewrite (mmio_write32_ok k _ base) by (done || (unfold IOAPIC_REGSEL; lia)). rewrite bind_ok.
  do 5 (cbn [k_apic add_io]; rewrite (mmio_write32_ok _ (ioapic_addr (k_apic k)) base)
    by (repeat apply add_io_mapped; done || (unfold IOAPIC_REGSEL, IOAPIC_WIN; lia)); rewrite ?bind_ok).
  eexists. split; reflexivity.
Qed.

Lemma land_255 x : 0 <= x < 256 → Z.land x 0xFF = x.
Proof. intros Hx. change 0xFF with (Z.ones 8). rewrite Z.land_ones by lia. apply Z.mod_small. lia. Qed.

Lemma replay_select base regs0 h d : 0 <= d < 256 →
  ioapic_replay base regs0 (MmioWrite (base + IOAPIC_REGSEL) d :: h) =
    (d, (ioapic_replay base regs0 h).2).
Proof.
  intros Hd. cbn [ioapic_replay]. destruct (ioapic_replay base regs0 h) as [sel regs].
  rewrite Z.eqb_refl, land_255 by done. reflexivity.
Qed.
Lemma replay_window base regs0 h d :
  ioapic_replay base regs0 (MmioWrite (base + IOAPIC_WIN) d :: h) =
    let '(sel, regs) := ioapic_replay base regs0 h in (sel, fun r => if r =? sel then d else regs r).
Proof.
  cbn [ioapic_replay]. destruct (ioapic_replay base regs0 h) as [sel regs].
  unfold IOAPIC_WIN, IOAPIC_REGSEL. destruct (Z.eqb_spec (base + 0x10) (base + 0)); [lia|].
  by rewrite Z.eqb_refl.
Qed.

(** The registers after the six writes. *)
Lemma write64_replay base regs0 h reg data r : 0 <= reg < 255 →
  (ioapic_replay base regs0 (write64_events base reg data ++ h)).2 r =
    if r =? reg then u32 (data .& 0xFFFFFFFF)
    else if r =? reg + 1 then u32 (data >>w 32)
    else (ioapic_replay base regs0 h).2 r.
Proof.
  intros Hr. unfold write64_events. cbn [app].
  rewrite replay_window, replay_select, replay_window, replay_select, replay_window, replay_select by lia.
  cbn [snd]. repeat zcase; lia || reflexivity.
Qed.

Lemma entry_write64 base regs0 h n m data : 0 <= n < 120 → 0 <= m →
  ioapic_entry base regs0 (write64_events base (0x10 + 2 * n) data ++ h) m =
    if m =? n then (u32 (data .& 0xFFFFFFFF), u32 (data >>w 32)) else ioapic_entry base regs0 h m.
Proof.
  intros Hn Hm. unfold ioapic_entry. rewrite !write64_replay by lia.
  repeat zcase; lia || reflexivity.
Qed.

(** Between the writes the entry is the old one or masked. *)
Lemma write64_between base regs0 h n data j : 0 <= n < 120 → (j <= 6)%nat →
  entry_safe (ioapic_entry base regs0 h n) (u32 (data .& 0xFFFFFFFF), u32 (data >>w 32))
    (ioapic_entry base regs0 (drop j (write64_events base (0x10 + 2 * n) data) ++ h) n).
Proof.
  intros Hn Hj. unfold entry_safe.
  assert (j = 0 ∨ j = 1 ∨ j = 2 ∨ j = 3 ∨ j = 4 ∨ j = 5 ∨ j = 6)%nat as Hc by lia.
  unfold write64_events. destruct Hc as [->|[->|[->|[->|[->|[->| ->]]]]]]; cbn [drop app].
  - right. right. pose proof (entry_write64 base regs0 h n n data Hn ltac:(lia)) as E.
    rewrite Z.eqb_refl in E. exact E.
  - right. left. unfold ioapic_entry.
    rewrite replay_select, replay_window, replay_select, replay_window, replay_select by lia.
    cbn [fst snd]. repeat zcase; lia || reflexivity.
  - right. left. unfold ioapic_entry.
    rewrite replay_window, replay_select, replay_window, replay_select by lia.
    cbn [fst snd]. repeat zcase; lia || reflexivity.
  - right. left. unfold ioapic_entry. rewrite replay_select, replay_window, replay_select by lia.
    cbn [fst snd]. repeat zcase; lia || reflexivity.
  - right. left. unfold ioapic_entry. rewrite replay_window, replay_select by lia.
    cbn [fst snd]. repeat zcase; lia || reflexivity.
  - left. unfold ioapic_entry. rewrite replay_select by lia. reflexivity.
  - by left.
Qed.

(** *** The global system interrupts *)

Lemma redtbl n : 0 <= n < 120 → IOAPIC_REDTBL n = 0x10 + 2 * n.
Proof. intros Hn. apply u32_id. unfold is_u32. lia. Qed.

Lemma ioapic_map_gsi_ok k base gsi vector flags : page_mapped k (ioapic_addr (k_apic k)) base →
  0 <= gsi_base (k_apic k) → 0 <= num_gsi (k_apic k) <= 120 →
  gsi_base (k_apic k) + num_gsi (k_apic k) < 2 ^ 32 →
  if bool_decide (gsi_base (k_apic k) <= gsi < gsi_base (k_apic k) + num_gsi (k_apic k)) then
    ∃ k', ioapic_map_gsi k gsi vector flags = Ok k' ∧
      io_more k k' (write64_events base (0x10 + 2 * (gsi - gsi_base (k_apic k))) (Z.lor flags vector))
  else ioapic_map_gsi k gsi vector flags = Panic "Unsupported GSI number".
Proof.
  intros Hm Hb Hn Hs. unfold ioapic_map_gsi. cbv zeta.
  rewrite (u32_id (gsi_base (k_apic k) + num_gsi (k_apic k))) by (unfold is_u32; lia).
  case_bool_decide as Hg.
  - destruct (Z.ltb_spec gsi (gsi_base (k_apic k))); [lia|].
    destruct (Z.leb_spec (gsi_base (k_apic k) + num_gsi (k_apic k)) gsi); [lia|]. cbn [orb].
    rewrite (u32_id (gsi - gsi_base (k_apic k))) by (unfold is_u32; lia). rewrite redtbl by lia.
    apply ioapic_write64_ok; [done|lia].
  - destruct (Z.ltb_spec gsi (gsi_base (k_apic k))); [done|].
    destruct (Z.leb_spec (gsi_base (k_apic k) + num_gsi (k_apic k)) gsi); [done|lia].
Qed.

Definition masked_entry : Z * Z := (0x10000, 0).

Lemma mask_gsi_ok k base : page_mapped k (ioapic_addr (k_apic k)) base →
  0 <= num_gsi (k_apic k) <= 120 →
  wp (while mask_gsi_step (0, k)) (fun k' => ∃ es, io_more k k' es ∧
    ∀ regs0 m, 0 <= m < num_gsi (k_apic k) → ioapic_entry base regs0 (k_io k') m = masked_entry).
Proof.
  intros Hm Hn.
  apply (wp_while _ (fun st => 0 <= st.1 <= num_gsi (k_apic k) ∧ ∃ es, io_more k st.2 es ∧
           ∀ regs0 m, 0 <= m < st.1 → ioapic_entry base regs0 (k_io st.2) m = masked_entry)
         (fun st => num_gsi (k_apic k) - st.1)).
  - intros [i k1] (Hi & es & Hes & Hall). cbn in Hi, Hes, Hall. unfold mask_gsi_step.
    pose proof (io_more_mapped _ _ _ _ _ Hes Hm) as Hm1.
    assert (Ha : k_apic k1 = k_apic k) by (by rewrite Hes). rewrite Ha.
    destruct (Z.ltb_spec i (num_gsi (k_apic k))).
    + rewrite redtbl by lia. rewrite <- Ha in Hm1.
      destruct (ioapic_write64_ok k1 base (0x10 + 2 * i) 0x10000 Hm1 ltac:(lia)) as (k2 & -> & H2).
      rewrite bind_ok. rewrite u32_id by (unfold is_u32; lia). split; [|cbn; lia].
      split; [cbn; lia|]. eexists. split; [exact (io_more_app _ _ _ _ _ Hes H2)|].
      intros regs0 m Hmm. cbn in Hmm. cbn [snd]. rewrite H2. cbn [k_io].
      rewrite entry_write64 by lia. destruct (Z.eqb_spec m i); [reflexivity|]. apply Hall. lia.
    + exists es. split; [done|]. intros regs0 m Hmm. apply Hall. lia.
  - split; [cbn; lia|]. exists []. split; [apply io_more_nil|]. cbn. lia.
  - cbn. lia.
Qed.

(** *** Mapping the registers *)

Lemma flags_mmio : frame_of PAGE_FLAGS_MMIO = 0 ∧ present PAGE_FLAGS_MMIO = true.
Proof. split; reflexivity. Qed.

(** A page of registers that can be mapped at its own address. *)
Record can_identity_map k (addr : Z) : Prop := {
  ci_map : can_map (k_vm k) addr (path1 addr (page_taken (k_vm k) addr));
  ci_canonical : canonical addr;
  ci_aligned : addr mod 2 ^ 12 = 0;
  ci_frame : 0 <= addr < 2 ^ 52
}.

(** Why a mapping can stop. *)
Definition map_failure k (addr : Z) (m : string) : Prop :=
  no_frame m ∨ (m = "page table entry not available"%string ∧ page_taken (k_vm k) addr).

Lemma identity_map_ok k addr : can_identity_map k addr →
  wpx (identity_map k addr) (fun k' => k' = set_vm k (k_vm k') ∧ page_mapped k' addr addr)
    (map_failure k addr) False.
Proof.
  intros [Hc Hcan Hal Hb]. unfold identity_map. destruct flags_mmio as [Hf Hp]. wp_step.
  eapply wpx_post; [exact (vm_map_page_unrestricted_ok (k_vm k) addr PAGE_FLAGS_MMIO addr Hc)|].
  intros s' (f3 & f2 & f1 & Hpt & Hd). split; [done|]. split; [lia|].
  exact (map_done_translate _ _ _ _ _ addr PAGE_FLAGS_MMIO addr Hpt Hd Hcan Hal Hal Hb Hf Hp).
Qed.

(** *** [ioapic_init] *)

(** The low half of the timer's entry: vector [0x20], active low and level
    triggered as the override says. *)
Definition pit_low (flags : Z) : Z :=
  0x20 + (if Z.testbit flags 1 then 0x2000 else 0) + (if Z.testbit flags 3 then 0x8000 else 0).

Lemma land_pow2_zero x j : 0 <= j → (Z.land x (2 ^ j) =? 0) = negb (Z.testbit x j).
Proof.
  intros Hj. destruct (Z.testbit x j) eqn:E; cbn [negb].
  - apply Z.eqb_neq. intros H0. assert (Hb : Z.testbit (Z.land x (2 ^ j)) j = true)
      by (rewrite Z.land_spec, E, Z.pow2_bits_true by lia; done).
    rewrite H0, Z.bits_0 in Hb. discriminate.
  - apply Z.eqb_eq, Z.bits_inj'. intros n Hn. rewrite Z.land_spec, Z.bits_0.
    destruct (Z.eq_dec n j) as [->|]; [by rewrite E|].
    rewrite Z.pow2_bits_false by lia. apply andb_false_r.
Qed.

Lemma pit_entry_halves flags :
  u32 (Z.land (Z.lor (pit_entry flags) 0x20) 0xFFFFFFFF) = pit_low flags ∧
  u32 (Z.shiftr (Z.lor (pit_entry flags) 0x20) 32) = 0xFF000000.
Proof.
  unfold pit_entry, pit_low. change 0x2 with (2 ^ 1). change 0x8 with (2 ^ 3).
  rewrite !land_pow2_zero by lia.
  destruct (Z.testbit flags 1), (Z.testbit flags 3); vm_compute; split; reflexivity.
Qed.

Lemma land_255_range x : 0 <= Z.land x 0xFF < 256.
Proof. change 0xFF with (Z.ones 8). rewrite Z.land_ones by lia. apply Z.mod_pos_bound. lia. Qed.

Lemma ioapic_init_ok irq_to_gsi k gsi flags :
  let addr := ioapic_addr (k_apic k) in
  let gb := gsi_base (k_apic k) in
  can_identity_map k addr → 0 <= gb → gb + 120 < 2 ^ 32 →
  (∀ h, Z.land (Z.shiftr (mmio_in h (addr + IOAPIC_WIN)) 16) 0xFF < 120) →
  (∀ k', k_acpi k' = k_acpi k → irq_to_gsi k' PIT_IRQ = Ok (gsi, flags)) →
  wpx (ioapic_init irq_to_gsi k) (fun k' => let n := num_gsi (k_apic k') in
      1 <= n <= 120 ∧ gb <= gsi < gb + n ∧ page_mapped k' addr addr ∧
      ∀ regs0 m, 0 <= m < n → ioapic_entry addr regs0 (k_io k') m =
        if m =? gsi - gb then (pit_low flags, 0xFF000000) else masked_entry)
    (fun m => map_failure k addr m ∨ m = "Unsupported GSI number"%string) False.
Proof.
  cbv zeta. intros Hc Hgb0 Hgb Hver Hirq. unfold ioapic_init.
  set (k0 := outb (outb k PIC1_DATA 0xFF) PIC2_DATA 0xFF).
  assert (Hc0 : can_identity_map k0 (ioapic_addr (k_apic k0))) by (destruct Hc; by split).
  wp_step. eapply wpx_mono; [exact (identity_map_ok k0 _ Hc0)| |intros m Hm; left; exact Hm|done].
  intros k1 [E1 M1]. unfold ioapic_read32, ioapic_write32_raw, ioapic_read32_raw.
  change (u8 IOAPIC_VER) with IOAPIC_VER.
  assert (Ha1 : k_apic k1 = k_apic k) by (by rewrite E1).
  assert (Hq1 : k_acpi k1 = k_acpi k) by (by rewrite E1).
  change (k_apic k0) with (k_apic k) in *. rewrite Ha1.
  rewrite (mmio_write32_ok k1 _ _ IOAPIC_REGSEL _ M1) by (unfold IOAPIC_REGSEL; lia). rewrite bind_ok.
  cbn [k_apic add_io]. rewrite Ha1.
  rewrite (mmio_read32_ok _ _ _ IOAPIC_WIN (add_io_mapped _ _ _ _ M1)) by (unfold IOAPIC_WIN; lia).
  rewrite bind_ok. set (v := mmio_in _ _). set (k2 := add_io _ (MmioRead _)).
  pose proof (land_255_range (Z.shiftr v 16)) as Hv. assert (Hv' := Hver (k_io (add_io k1 (MmioWrite (ioapic_addr (k_apic k) + IOAPIC_REGSEL) IOAPIC_VER)))).
  fold v in Hv'. set (n := Z.land (Z.shiftr v 16) 0xFF) in *.
  rewrite u32_id by (unfold is_u32; lia). set (k3 := set_num_gsi k2 (n + 1)).
  assert (M3 : page_mapped k3 (ioapic_addr (k_apic k3)) (ioapic_addr (k_apic k))).
  { replace (ioapic_addr (k_apic k3)) with (ioapic_addr (k_apic k)) by (cbn; by rewrite Ha1).
    by apply (page_mapped_vm k1). }
  assert (N3 : num_gsi (k_apic k3) = n + 1) by reflexivity.
  wp_step. eapply wpx_mono; [apply wp_wpx, (mask_gsi_ok k3 (ioapic_addr (k_apic k)) M3); lia| |intros m Hm; exact Hm|done].
  intros k4 (es & E4 & Hall). rewrite (Hirq k4) by (rewrite E4; exact Hq1). rewrite bind_ok.
  assert (A4 : k_apic k4 = k_apic k3) by (by rewrite E4).
  assert (M4 : page_mapped k4 (ioapic_addr (k_apic k4)) (ioapic_addr (k_apic k))).
  { rewrite A4. exact (io_more_mapped _ _ _ _ _ E4 M3). }
  assert (B4 : gsi_base (k_apic k4) = gsi_base (k_apic k)) by (rewrite A4; cbn; by rewrite Ha1).
  assert (N4 : num_gsi (k_apic k4) = n + 1) by (by rewrite A4).
  pose proof (ioapic_map_gsi_ok k4 _ gsi 0x20 (pit_entry flags) M4 ltac:(lia) ltac:(lia) ltac:(lia)) as Hg.
  rewrite B4, N4 in Hg. case_bool_decide as Hr.
  - destruct Hg as (k5 & -> & E5). assert (A5 : k_apic k5 = k_apic k4) by (by rewrite E5).
    cbn [wpx]. rewrite A5, N4. split; [lia|]. split; [done|]. split.
    + apply (io_more_mapped k4 k5 _ _ _ E5). rewrite A4 in M4. cbn in M4. by rewrite Ha1 in M4.
    + intros regs0 m Hmm. rewrite E5. cbn [k_io]. rewrite entry_write64 by lia.
      destruct (Z.eqb_spec m (gsi - gsi_base (k_apic k))).
      * destruct (pit_entry_halves flags) as [-> ->]. reflexivity.
      * apply Hall. lia.
  - rewrite Hg. by right.
Qed.

(** *** [lapic_init] *)

Lemma lapic_writes_ok k base l : page_mapped k (lapic_addr (k_apic k)) base →
  (∀ p, p ∈ l → 0 <= p.1 < 4096) →
  ∃ k', lapic_writes k l = Ok k' ∧
    io_more k k' (rev (map (fun p => MmioWrite (base + p.1) p.2) l)).
Proof.
  revert k. induction l as [|[o d] l IH]; intros k Hm Hl; cbn [lapic_writes].
  - exists k. split; [done|apply io_more_nil].
  - unfold lapic_write32. rewrite (mmio_write32_ok k _ base) by (done || apply (Hl (o, d)); left).
    rewrite bind_ok. destruct (IH (add_io k (MmioWrite (base + o) d))) as (k' & -> & H').
    + by apply add_io_mapped.
    + intros p Hp. apply Hl. by right.
    + exists k'. split; [done|]. cbn [map rev].
      apply (io_more_app k (add_io k (MmioWrite (base + o) d)) k' [MmioWrite (base + o) d]); done.
Qed.

Lemma init_offsets p : p ∈ lapic_init_writes → 0 <= p.1 < 4096.
Proof.
  intros Hp. unfold lapic_init_writes in Hp.
  repeat (apply elem_of_cons in Hp as [->|Hp]; [cbn; unfold LAPIC_TPR, LAPIC_LVTT, LAPIC_LVTPC,
    LAPIC_LVT0, LAPIC_LVT1, LAPIC_LVTE, LAPIC_SPIV; lia|]). by apply elem_of_nil in Hp.
Qed.

(** The registers and the identifier, once the page is mapped. *)
Lemma lapic_registers_ok k cpu base : page_mapped k (lapic_addr (k_apic k)) base →
  length (lapic_phys_ids (k_apic k)) = 16%nat → 0 <= cpu < 16 →
  ∃ k' id, (k1 ← lapic_writes k lapic_init_writes; '(id, k1) ← lapic_get_phys_id_raw k1; set_phys_id k1 cpu id) = Ok k' ∧
    0 <= id < 16 ∧ lapic_get_phys_id k' cpu = Ok id ∧
    k_io k' = MmioRead (base + LAPIC_ID) ::
      rev (map (fun p => MmioWrite (base + p.1) p.2) lapic_init_writes) ++ k_io k ∧
    k_vm k' = k_vm k ∧ tsc_freq (k_apic k') = tsc_freq (k_apic k) ∧ k_acpi k' = k_acpi k.
Proof.
  intros Hm Hlen Hcpu.
  destruct (lapic_writes_ok k base lapic_init_writes Hm init_offsets) as (k1 & -> & E1). rewrite bind_ok.
  unfold lapic_get_phys_id_raw, lapic_read32.
  assert (Ha : k_apic k1 = k_apic k) by (by rewrite E1). rewrite Ha.
  rewrite (mmio_read32_ok k1 _ base) by ((unfold LAPIC_ID; lia) || exact (io_more_mapped _ _ _ _ _ E1 Hm)).
  rewrite !bind_ok. set (x := mmio_in _ _). unfold set_phys_id.
  assert (Hid : 0 <= Z.land (Z.shiftr x 24) 0xF < 16).
  { change 0xF with (Z.ones 4). rewrite Z.land_ones by lia. apply Z.mod_pos_bound. lia. }
  rewrite u8_id by (unfold is_u8, LAPIC_ID_OFFSET; lia). cbn [k_apic add_io]. rewrite Ha.
  rewrite list_set_ok by lia. rewrite bind_ok. eexists _, _. split; [reflexivity|].
  split; [exact Hid|]. split; [|split].
  - unfold lapic_get_phys_id, list_get. cbn. destruct (Z.ltb_spec cpu 0); [lia|].
    by rewrite list_lookup_insert_eq by lia.
  - cbn. by rewrite E1.
  - cbn. split; [by rewrite E1|]. split; [done|by rewrite E1].
Qed.
End apic_proofs.

(** ** Properties *)

Section apic_properties.
Context `{HM : Mmu} {A : Type} `{HA : FrameAllocator A} `{HD : Devices}.
Implicit Types k : kernel A.

(** C29: [ioapic_write64] replaces a redirection entry safely. It performs six
    register writes; after them entry [n] holds the two halves of the data and
    no other entry has changed; and after any number of them the
    entry is the old one, the new one, or has its mask bit set, so that no
    interrupt is delivered with half an entry. *)
Theorem ioapic_write64_safe k base n data :
  page_mapped k (ioapic_addr (k_apic k)) base → 0 <= n < 120 →
  ∃ k' es, ioapic_write64 k (IOAPIC_REDTBL n) data = Ok k' ∧ io_more k k' es ∧ length es = 6%nat ∧
    (∀ regs0 m, 0 <= m → ioapic_entry base regs0 (k_io k') m =
       if m =? n then (u32 (data .& 0xFFFFFFFF), u32 (data >>w 32))
       else ioapic_entry base regs0 (k_io k) m) ∧
    ∀ regs0 j, (j <= 6)%nat →
      entry_safe (ioapic_entry base regs0 (k_io k) n) (u32 (data .& 0xFFFFFFFF), u32 (data >>w 32))
        (ioapic_entry base regs0 (drop j es ++ k_io k) n).
Proof.
  intros Hm Hn. rewrite redtbl by done.
  destruct (ioapic_write64_ok k base (0x10 + 2 * n) data Hm ltac:(lia)) as (k' & E & Hes).
  exists k', (write64_events base (0x10 + 2 * n) data). split; [done|]. split; [done|].
  split; [done|]. split.
  - intros regs0 m Hm0. rewrite Hes. by apply entry_write64.
  - intros regs0 j Hj. by apply write64_between.
Qed.

(** [ioapic_init] maps the registers at their own address, masks every
    line, and then routes the timer alone: its entry has vector [0x20],
    broadcast destination, and the polarity and trigger mode of its override.
    It stops with a message when the page cannot be mapped or the timer's
    interrupt is not a line of this I/O APIC. *)
Theorem ioapic_init_spec irq_to_gsi k gsi flags :
  let addr := ioapic_addr (k_apic k) in
  let gb := gsi_base (k_apic k) in
  can_identity_map k addr → 0 <= gb → gb + 120 < 2 ^ 32 →
  (∀ h, Z.land (Z.shiftr (mmio_in h (addr + IOAPIC_WIN)) 16) 0xFF < 120) →
  (∀ k', k_acpi k' = k_acpi k → irq_to_gsi k' PIT_IRQ = Ok (gsi, flags)) →
  wpx (ioapic_init irq_to_gsi k) (fun k' => let n := num_gsi (k_apic k') in
      1 <= n <= 120 ∧ gb <= gsi < gb + n ∧ page_mapped k' addr addr ∧
      ∀ regs0 m, 0 <= m < n → ioapic_entry addr regs0 (k_io k') m =
        if m =? gsi - gb then (pit_low flags, 0xFF000000) else masked_entry)
    (fun m => map_failure k addr m ∨ m = "Unsupported GSI number"%string) False.
Proof. apply ioapic_init_ok. Qed.

(** [lapic_init] on the first CPU maps the registers at their own address,
    performs the seven register writes in order, and records the low four bits
    of the identifier. It stops with a message when the page cannot be mapped
    or [cpuid] reports no crystal frequency, and divides by zero when [cpuid]
    reports the other two values and no denominator. *)
Theorem lapic_init_spec k :
  let addr := lapic_addr (k_apic k) in
  let '(eax, ebx, ecx) := cpuid_15 in
  can_identity_map k addr → length (lapic_phys_ids (k_apic k)) = 16%nat →
  wpx (lapic_init k 0) (fun k' => ∃ id, page_mapped k' addr addr ∧ 0 <= id < 16 ∧
      lapic_get_phys_id k' 0 = Ok id ∧ tsc_freq (k_apic k') = u32 (ecx * ebx) / eax ∧
      k_io k' = MmioRead (addr + LAPIC_ID) ::
        rev (map (fun p => MmioWrite (addr + p.1) p.2) lapic_init_writes) ++ k_io k)
    (fun m => map_failure k addr m ∨ (m = "No TSC frequency info"%string ∧ (ecx = 0 ∨ ebx = 0)))
    (eax = 0).
Proof.
  cbv zeta. destruct cpuid_15 as [[eax ebx] ecx] eqn:Ecpu. intros Hc Hlen.
  unfold lapic_init. cbn [Z.eqb]. unfold lapic_init_bsp. rewrite Ecpu. wp_step.
  wp_step. eapply wpx_mono; [exact (identity_map_ok k _ Hc)| |intros m Hm; left; exact Hm|intros []].
  intros k1 [E1 M1]. assert (Ha : k_apic k1 = k_apic k) by (by rewrite E1).
  destruct (Z.eqb_spec ecx 0); [right; tauto|]. destruct (Z.eqb_spec ebx 0); [right; tauto|].
  cbn [orb]. unfold div64. destruct (Z.eqb_spec eax 0); [done|]. rewrite bind_ok. cbn [wpx].
  set (k2 := add_log _ _ _).
  assert (M2 : page_mapped k2 (lapic_addr (k_apic k2)) (lapic_addr (k_apic k))).
  { cbn. rewrite Ha. by apply (page_mapped_vm k1). }
  destruct (lapic_registers_ok k2 0 _ M2) as (k' & id & -> & Hid & Hget & Hio & Hvm & Htsc & _);
    [cbn; by rewrite Ha|lia|].
  cbn [wpx]. exists id. split; [|split; [done|split; [done|split]]].
  - apply (page_mapped_vm k2); [done|]. cbn in M2. by rewrite Ha in M2.
  - by rewrite Htsc.
  - rewrite Hio. cbn. by rewrite E1.
Qed.
End apic_properties.

(** ** Witnesses *)

(** A machine with 24 lines at the I/O APIC. *)
Lemma sample_mmio_u32 (pa : Z) : is_u32 (if pa =? 0xFEC00010 then 0x170011 else 0x5000000).
Proof. unfold is_u32. destruct (pa =? 0xFEC00010); lia. Qed.

Definition sample_devices : Devices := {|
  mmio_in := fun h pa => if pa =? 0xFEC00010 then 0x170011 else 0x5000000;
  mmio_in_u32 := fun h => sample_mmio_u32;
  msr_in := fun h msr => 0;
  cpuid_15 := (2, 166, 24000000)
|}.

Definition boot_kernel : kernel phys := Kernel boot_vm apic_init acpi_statics [] [].

Lemma boot_can_map_high va (L : vm phys → Z → Z → Prop) : 2 ^ 30 <= va < 2 ^ 32 → can_map boot_vm va L.
Proof.
  intros Hva. assert (E4 : idx4 va = 0) by (unfold idx4; dlia).
  assert (E3 : 1 <= idx3 va < 4) by (unfold idx3; dlia).
  assert (T4 : table_entry (entry (vm_mem boot_vm) (vm_cr3 boot_vm) 0) 0x301000) by (repeat split; reflexivity).
  assert (Habs : present (entry (vm_mem boot_vm) 0x301000 (idx3 va)) = false).
  { assert (idx3 va = 1 ∨ idx3 va = 2 ∨ idx3 va = 3) as [->|[->| ->]] by lia; reflexivity. }
  split; [unfold is_u64; lia|lia|apply lock_free_unlocked|exact boot_root|].
  unfold path3, path2. rewrite E4. split.
  - intros _. exists 0x301000. split; [exact T4|]. split; [|reflexivity].
    rewrite list_elem_of_singleton. discriminate.
  - intros f3 H3. rewrite (table_entry_det _ _ _ H3 T4). split.
    + intros Hp. rewrite Habs in Hp. discriminate Hp.
    + intros f2 H2. by destruct (absent_no_table _ _ Habs H2).
Qed.

Lemma boot_identity va : 2 ^ 30 <= va < 2 ^ 32 → va mod 2 ^ 12 = 0 → can_identity_map boot_kernel va.
Proof. intros Hva Hal. split; [by apply boot_can_map_high|left; lia|done|lia]. Qed.

Section witnesses.
#[local] Existing Instance sample_devices.

Lemma wpx_ok {B} (o : outcome B) Q P F b : wpx o Q P F → o = Ok b → Q b.
Proof. intros Hw ->. exact Hw. Qed.

Lemma identity_map_boot : ∃ k', identity_map boot_kernel 0xFEC00000 = Ok k' ∧
  k_apic k' = apic_init ∧ page_mapped k' 0xFEC00000 0xFEC00000.
Proof.
  destruct (ok_value (identity_map boot_kernel 0xFEC00000) (fun _ => true)) as (k' & E & _);
    [vm_compute; reflexivity|].
  pose proof (wpx_ok _ _ _ _ _ (identity_map_ok boot_kernel 0xFEC00000
    (boot_identity 0xFEC00000 ltac:(lia) eq_refl)) E) as [Ek Hm].
  exists k'. split; [exact E|]. split; [rewrite Ek; reflexivity|exact Hm].
Qed.

Lemma ioapic_write64_safe_witness : ∃ k k',
  identity_map boot_kernel 0xFEC00000 = Ok k ∧
  ioapic_write64 k (IOAPIC_REDTBL 2) 0xFF00000000000020 = Ok k' ∧
  ioapic_entry 0xFEC00000 (fun _ => 0) (k_io k') 2 = (0x20, 0xFF000000).
Proof.
  destruct identity_map_boot as (k & E & Ha & Hm). exists k.
  destruct (ioapic_write64_safe k 0xFEC00000 2 0xFF00000000000020) as (k' & es & E' & _ & _ & Hr & _);
    [rewrite Ha; exact Hm|lia|].
  exists k'. split; [exact E|]. split; [exact E'|]. rewrite Hr by lia. reflexivity.
Defined.

Lemma ioapic_init_spec_witness :
  wpx (ioapic_init (fun _ _ => Ok (2, 10)) boot_kernel) (fun k' =>
      ioapic_entry 0xFEC00000 (fun _ => 0) (k_io k') 2 = (0xA020, 0xFF000000) ∨
      num_gsi (k_apic k') <= 2)
    (fun m => map_failure boot_kernel 0xFEC00000 m ∨ m = "Unsupported GSI number"%string) False.
Proof.
  eapply wpx_post;
    [apply (ioapic_init_spec (fun _ _ => Ok (2, 10)) boot_kernel 2 10
      (boot_identity 0xFEC00000 ltac:(lia) eq_refl)); [cbn; lia|cbn; lia|intros h; vm_compute; reflexivity|reflexivity]|].
  cbv zeta. intros k' (Hn & Hg & _ & He). cbn [k_apic boot_kernel apic_init gsi_base] in *.
  destruct (Z.lt_ge_cases 2 (num_gsi (k_apic k'))); [left|by right].
  specialize (He (fun _ => 0) 2 ltac:(lia)). exact He.
Defined.

Lemma lapic_init_spec_witness :
  wpx (lapic_init boot_kernel 0) (fun k' => ∃ id, lapic_get_phys_id k' 0 = Ok id ∧
      tsc_freq (k_apic k') = 1992000000)
    (fun m => map_failure boot_kernel 0xFEE00000 m ∨ m = "No TSC frequency info"%string) (2 = 0).
Proof.
  pose proof (lapic_init_spec boot_kernel) as Hs. cbv zeta in Hs.
  change (@cpuid_15 sample_devices) with (2, 166, 24000000) in Hs. cbv iota beta in Hs.
  specialize (Hs (boot_identity 0xFEE00000 ltac:(lia) eq_refl) eq_refl).
  apply (wpx_mono _ _ _ _ _ _ _ Hs).
  - intros k' (id & _ & _ & Hid & Hf & _). exists id. split; [exact Hid|]. rewrite Hf. reflexivity.
  - intros m [Hm|[Hm _]]; [left; exact Hm|right; exact Hm].
  - intros H; exact H.
Defined.
End witnesses.
