(* ===== verification/Acpi.v ===== *)
(** * ACPI tables

    Models [kernel/acpi.c] and the structures of [include/acpi.h]: the search
    for the root pointer, its checksums, the walk of the RSDT or XSDT (each
    table is mapped through [vm_map_pages], parsed and unmapped), the parsers
    of the MADT and the DMAR table, and the routing of interrupts. The bytes
    of physical memory the firmware wrote are the class [Firmware]; a byte is
    read at a virtual address through the page tables. *)

From S2P Require Import Prelude Bytes Layout Bits Spinlock Physical Mmu Paging PagingSpec Kernel Apic.

Local Open Scope Z_scope.
Local Open Scope c_scope.

(** The bytes of memory that the tables of the firmware occupy. *)
Class Firmware := {
  fw_byte : Z → Z;
  fw_byte_u8 pa : is_u8 (fw_byte pa)
}.

(** ** include/acpi.h *)

Definition SIZEOF_HEADER : Z := 36.
Definition SIZEOF_MADT : Z := 44.
Definition SIZEOF_DMAR : Z := 48.

Definition DMAR_TYPE_DRHD : Z := 0.
Definition APIC_TYPE_LAPIC : Z := 0.
Definition APIC_TYPE_IOAPIC : Z := 1.
Definition APIC_TYPE_INTERRUPT_OVERRIDE : Z := 2.

Section acpi.
Context `{HM : Mmu} {A : Type} `{HA : FrameAllocator A} `{HD : Devices} `{HF : Firmware}.
Implicit Types k : kernel A.

(** ** Little-endian reads *)

Definition rd8 k (va : Z) : outcome Z :=
  match translate (vm_mem (k_vm k)) (vm_cr3 (k_vm k)) va with
  | Some pa => Ok (fw_byte pa)
  | None => Fault
  end.

Definition rd16 k (va : Z) : outcome Z := read_le (rd8 k) 2 va.
Definition rd32 k (va : Z) : outcome Z := read_le (rd8 k) 4 va.
Definition rd64 k (va : Z) : outcome Z := read_le (rd8 k) 8 va.

(** ** Static variables *)

Definition set_g_cpus k (n : Z) (ids : list Z) : kernel A :=
  let a := k_acpi k in set_acpi k (Acpi n (irq_map a) (num_overrides a) (num_ioapic a) ids).
Definition set_overrides k (n : Z) (m : list irq_override) : kernel A :=
  let a := k_acpi k in set_acpi k (Acpi (g_cpus a) m n (num_ioapic a) (lapic_ids a)).
Definition set_num_ioapic k (n : Z) : kernel A :=
  let a := k_acpi k in set_acpi k (Acpi (g_cpus a) (irq_map a) (num_overrides a) n (lapic_ids a)).
Definition set_lapic_addr k (x : Z) : kernel A :=
  let a := k_apic k in
  set_apic k (Apic x (ioapic_addr a) (gsi_base a) (num_gsi a) (tsc_freq a) (lapic_phys_ids a)).
Definition set_ioapic k (addr base : Z) : kernel A :=
  let a := k_apic k in
  set_apic k (Apic (lapic_addr a) addr base (num_gsi a) (tsc_freq a) (lapic_phys_ids a)).

(** ** The MADT *)

(** [acpi_add_cpu] on CPU 0: the identifier of the running CPU is
    [lapic_phys_ids[0]]. [lapic_ids[g_cpus++]] is written before the count is
    checked. *)
Definition acpi_add_cpu k (info : Z) : outcome (bool * kernel A) :=
  flags ← rd32 k (info +w 4);
  if flags .& 1 =? 0 then Ok (true, k)
  else
    apic_id ← rd8 k (info +w 3);
    bsp ← lapic_get_phys_id k 0;
    if apic_id =? bsp then Ok (false, k)
    else
      let n := g_cpus (k_acpi k) in
      ids ← list_set (lapic_ids (k_acpi k)) n apic_id;
      let k := set_g_cpus k (u16 (n + 1)) ids in
      if MAX_CPUS <? g_cpus (k_acpi k) then Panic "Exceeds supported max CPUs"
      else Ok (true, k).

(** [irq_map[num_overrides] = ...; num_overrides++; ...] *)
Definition add_override k (o : irq_override) : outcome (kernel A) :=
  let n := num_overrides (k_acpi k) in
  m ← list_set (irq_map (k_acpi k)) n o;
  let k := set_overrides k (u8 (n + 1)) m in
  if MAX_IRQ_OVERRIDES <? num_overrides (k_acpi k) then Panic "Exceeds supported max overrides"
  else Ok k.

(** [ioapic_addr = ...; gsi_base = ...; num_ioapic++; ...] *)
Definition add_ioapic k (address base : Z) : outcome (kernel A) :=
  let k := set_ioapic k address base in
  let k := set_num_ioapic k (u16 (num_ioapic (k_acpi k) + 1)) in
  if 1 <? num_ioapic (k_acpi k) then Panic "Multiple IOAPIC not supported"
  else Ok k.

(** One structure of the table, at [p]. *)
Definition madt_structure k (type p : Z) : outcome (kernel A) :=
  if type =? APIC_TYPE_LAPIC then
    '(_, k) ← acpi_add_cpu k p; Ok k
  else if type =? APIC_TYPE_IOAPIC then
    address ← rd32 k (p +w 4);
    base ← rd32 k (p +w 8);
    add_ioapic k address base
  else if type =? APIC_TYPE_INTERRUPT_OVERRIDE then
    bus ← rd8 k (p +w 2);
    if negb (bus =? 0) then Panic "Only bus 0 is supported"
    else
      irq ← rd8 k (p +w 3);
      gsi ← rd32 k (p +w 4);
      flags ← rd16 k (p +w 8);
      add_override k (IrqOverride irq flags gsi)
  else Ok k.

(** [while (p < end)] of [acpi_parse_apic] *)
Definition parse_apic_step (end_ : Z) (st : Z * kernel A) : outcome ((Z * kernel A) + kernel A) :=
  let '(p, k) := st in
  if p <? end_ then
    type ← rd8 k p;
    length ← rd8 k (p +w 1);
    k ← madt_structure k type p;
    Ok (inl (p +w length, k))
  else Ok (inr k).

Definition acpi_parse_apic k (madt : Z) : outcome (kernel A) :=
  la ← rd32 k (madt +w SIZEOF_HEADER);
  let k := set_lapic_addr k la in
  length ← rd32 k (madt +w 4);
  while (parse_apic_step (madt +w length)) (madt +w SIZEOF_MADT, k).

(** ** The DMAR table *)

Definition parse_dmar_step (end_ : Z) (st : Z * kernel A) : outcome ((Z * kernel A) + kernel A) :=
  let '(p, k) := st in
  if p <? end_ then
    type ← rd16 k p;
    length ← rd16 k (p +w 2);
    let k := if type =? DMAR_TYPE_DRHD then k
             else add_log k "Unsupported remapping structure type %d" [type] in
    Ok (inl (p +w length, k))
  else Ok (inr k).

Definition acpi_parse_dmar k (dmar : Z) : outcome (kernel A) :=
  length ← rd32 k (dmar +w 4);
  while (parse_dmar_step (dmar +w length)) (dmar +w SIZEOF_DMAR, k).

Definition acpi_parse_dt k (header : Z) : outcome (kernel A) :=
  signature ← rd32 k header;
  if signature =? 0x43495041 then acpi_parse_apic k header
  else if signature =? 0x52414D44 then acpi_parse_dmar k header
  else Ok k.

(** ** The root tables *)

Definition map_2 k (page : Z) : outcome (Z * kernel A) :=
  '(va, v) ← vm_map_pages (k_vm k) page 2 (PGT_P .| PGT_XD); Ok (va, set_vm k v).
Definition unmap_2 k (va : Z) : outcome (kernel A) :=
  '(_, v) ← vm_unmap_pages (k_vm k) va 2; Ok (set_vm k v).

(** The body of the loops: the table at the physical address [address], in the
    page [page_start]. *)
Definition parse_table k (address page_start : Z) : outcome (kernel A) :=
  '(va2, k) ← map_2 k page_start;
  k ← acpi_parse_dt k (va2 +w address -w page_start);
  unmap_2 k va2.

Definition parse_rsdt_step (end_ : Z) (st : Z * kernel A) : outcome ((Z * kernel A) + kernel A) :=
  let '(sdt, k) := st in
  if sdt <? end_ then
    address ← rd32 k sdt;
    k ← parse_table k address (u32 (address .& PGT_MASK));
    Ok (inl (sdt +w 4, k))
  else Ok (inr k).

(** [rsdt & PGT_MASK] is stored in a [uint32_t]. *)
Definition acpi_parse_rsdt k (rsdt : Z) : outcome (kernel A) :=
  let page_start := u32 (rsdt .& PGT_MASK) in
  '(va, k) ← map_2 k page_start;
  let rsdt_p := va +w rsdt -w page_start in
  length ← rd32 k (rsdt_p +w 4);
  let end_ := rsdt_p +w length in
  if va +w 2 * PG_SIZE <? end_ then Panic "RSDT is too large"
  else
    k ← while (parse_rsdt_step end_) (rsdt_p +w SIZEOF_HEADER, k);
    unmap_2 k va.

Definition parse_xsdt_step (end_ : Z) (st : Z * kernel A) : outcome ((Z * kernel A) + kernel A) :=
  let '(sdt, k) := st in
  if sdt <? end_ then
    address ← rd64 k sdt;
    k ← parse_table k address ((address >>w PG_BITS) <<w PG_BITS);
    Ok (inl (sdt +w 8, k))
  else Ok (inr k).

Definition acpi_parse_xsdt k (xsdt : Z) : outcome (kernel A) :=
  let page_start := xsdt .& PGT_MASK in
  '(va, k) ← map_2 k page_start;
  let xsdt_p := va +w xsdt -w page_start in
  length ← rd32 k (xsdt_p +w 4);
  let end_ := xsdt_p +w length in
  if va +w 2 * PG_SIZE <? end_ then Panic "XSDT is too large"
  else
    k ← while (parse_xsdt_step end_) (xsdt_p +w SIZEOF_HEADER, k);
    unmap_2 k va.

(** ** The root pointer *)

(** [for (; i < hi; ++i) sum += p[i];] *)
Definition checksum_step k (p hi : Z) (st : Z * Z) : outcome ((Z * Z) + Z) :=
  let '(i, sum) := st in
  if i <? hi then
    b ← rd8 k (p +w i);
    Ok (inl (u8 (i + 1), u8 (sum + b)))
  else Ok (inr sum).

Definition acpi_parse_rsdp k (p : Z) : outcome (bool * kernel A) :=
  sum ← while (checksum_step k p 20) (0, 0);
  if negb (sum =? 0) then Panic "V1 checksum failed"
  else
    revision ← rd8 k (p +w 15);
    if revision =? 0 then
      rsdt_addr ← rd32 k (p +w 16);
      k ← acpi_parse_rsdt k rsdt_addr; Ok (true, k)
    else if revision =? 2 then
      sum ← while (checksum_step k p 34) (20, sum);
      if negb (sum =? 0) then Panic "V2 checksum failed"
      else
        rsdt_addr ← rd32 k (p +w 16);
        xsdt_addr ← rd64 k (p +w 24);
        k ← (if negb (xsdt_addr =? 0) then acpi_parse_xsdt k xsdt_addr
             else acpi_parse_rsdt k rsdt_addr);
        Ok (true, k)
    else Panic "Unsupported ACPI version".

(** ["RSD PTR "] *)
Definition RSDP_SIGNATURE : Z := 0x2052545020445352.

Definition search_rsdp_step (end_ : Z) (st : Z * kernel A) : outcome ((Z * kernel A) + (Z * kernel A)) :=
  let '(p, k) := st in
  if p <? end_ then
    signature ← rd64 k p;
    if signature =? RSDP_SIGNATURE then
      '(found, k) ← acpi_parse_rsdp k p;
      if (found : bool) then Ok (inr (p, k)) else Ok (inl (p +w 16, k))
    else Ok (inl (p +w 16, k))
  else Ok (inr (p, k)).

(** [if (rsdp != NULL)]: the pointer of the boot loader, *)
Definition try_rsdp k (rsdp : Z) : outcome (bool * kernel A) :=
  if negb (rsdp =? 0) then
    signature ← rd64 k rsdp;
    if signature =? RSDP_SIGNATURE then acpi_parse_rsdp k rsdp else Ok (false, k)
  else Ok (false, k).

(** then the BIOS area. *)
Definition search_rsdp k : outcome (kernel A) :=
  '(p, k) ← while (search_rsdp_step 0x000fffff) (0x000e0000, k);
  if 0x000fffff <=? p then Panic "Can't find RSDP" else Ok k.

(** The result tells whether the boot code of the other CPUs is copied to
    [SMP_BOOT_ADDR]. *)
Definition acpi_init k (rsdp : Z) : outcome (bool * kernel A) :=
  '(fin, k) ← try_rsdp k rsdp;
  k ← (if (fin : bool) then Ok k else search_rsdp k);
  Ok (1 <? g_cpus (k_acpi k), k).

(** ** Routing *)

Definition irq_to_gsi_step k (irq : Z) (i : Z) : outcome (Z + (Z * Z)) :=
  if i <? num_overrides (k_acpi k) then
    o ← list_get (irq_map (k_acpi k)) i;
    if ov_irq o =? irq then Ok (inr (ov_gsi o, ov_flags o))
    else Ok (inl (u8 (i + 1)))
  else Ok (inr (irq, 0)).

(** The GSI, and the flags stored when the caller asks for them. *)
Definition acpi_irq_to_gsi k (irq : Z) : outcome (Z * Z) := while (irq_to_gsi_step k irq) 0.
End acpi.

(** ** Bytes in memory *)

(** The bytes [bs] can be read from the virtual address [va] on. *)
Abbreviation bytes_at k := (bytes_in (rd8 k)).

Section bytes.
Context `{HM : Mmu} {A : Type} `{HA : FrameAllocator A} `{HD : Devices} `{HF : Firmware}.
Implicit Types k : kernel A.

Lemma rd8_vm k k' va : k_vm k' = k_vm k → rd8 k' va = rd8 k va.
Proof. unfold rd8. by intros ->. Qed.

Lemma bytes_at_vm k k' va bs : k_vm k' = k_vm k → bytes_at k va bs → bytes_at k' va bs.
Proof.
  intros E (H1 & H2 & H3). split; [done|]. split; [done|]. intros i b Hi.
  rewrite (rd8_vm k) by done. by apply H3.
Qed.
End bytes.

(** ** The MADT as a list of structures *)

Inductive madt_entry : Type :=
  | Lapic (processor_id apic_id flags : Z)
  | Ioapic (id address base : Z)
  | Override (irq gsi flags : Z)
  | ForeignOverride (bus irq gsi flags : Z)
  | Other (type : Z) (payload : list Z).

Definition encode_entry (e : madt_entry) : list Z :=
  match e with
  | Lapic p a f => [0; 8; p; a] ++ le 4 f
  | Ioapic i ad b => [1; 12; i; 0] ++ le 4 ad ++ le 4 b
  | Override irq gsi fl => [2; 10; 0; irq] ++ le 4 gsi ++ le 2 fl
  | ForeignOverride bus irq gsi fl => [2; 10; bus; irq] ++ le 4 gsi ++ le 2 fl
  | Other t pl => t :: (2 + Z.of_nat (length pl)) :: pl
  end.

Definition encode_entries (es : list madt_entry) : list Z := concat (map encode_entry es).

Definition entry_wf (e : madt_entry) : Prop :=
  match e with
  | Lapic p a f => is_u8 p ∧ is_u8 a ∧ is_u32 f
  | Ioapic i ad b => is_u8 i ∧ is_u32 ad ∧ is_u32 b
  | Override irq gsi fl => is_u8 irq ∧ is_u32 gsi ∧ is_u16 fl
  | ForeignOverride bus irq gsi fl => 0 < bus < 256 ∧ is_u8 irq ∧ is_u32 gsi ∧ is_u16 fl
  | Other t pl => 2 < t < 256 ∧ (length pl <= 253)%nat ∧ ∀ b, b ∈ pl → is_u8 b
  end.

(** The whole table, its signature first. *)
Definition encode_madt (rest : list Z) (lapic flags : Z) (es : list madt_entry) : list Z :=
  le 4 0x43495041 ++ le 4 (44 + Z.of_nat (length (encode_entries es))) ++ rest ++
  le 4 lapic ++ le 4 flags ++ encode_entries es.

Section madt.
Context `{HM : Mmu} {A : Type} `{HA : FrameAllocator A} `{HD : Devices} `{HF : Firmware}.
Implicit Types k : kernel A.

(** The branches of the parser with the structure as data: an intermediate
    step of the proofs, which separates the reading of the bytes from what is
    done with them. What the structures mean is [table_outcome] below. *)
Definition handle_entry k (e : madt_entry) : outcome (kernel A) :=
  match e with
  | Lapic _ apic_id flags =>
      if flags .& 1 =? 0 then Ok k
      else
        bsp ← lapic_get_phys_id k 0;
        if apic_id =? bsp then Ok k
        else
          ids ← list_set (lapic_ids (k_acpi k)) (g_cpus (k_acpi k)) apic_id;
          let k := set_g_cpus k (u16 (g_cpus (k_acpi k) + 1)) ids in
          if MAX_CPUS <? g_cpus (k_acpi k) then Panic "Exceeds supported max CPUs" else Ok k
  | Ioapic _ address base => add_ioapic k address base
  | Override irq gsi flags => add_override k (IrqOverride irq flags gsi)
  | ForeignOverride _ _ _ _ => Panic "Only bus 0 is supported"
  | Other _ _ => Ok k
  end.

Fixpoint handle_entries k (es : list madt_entry) : outcome (kernel A) :=
  match es with
  | [] => Ok k
  | e :: es => k ← handle_entry k e; handle_entries k es
  end.

Lemma add_ioapic_vm k ad b k' : add_ioapic k ad b = Ok k' → k_vm k' = k_vm k.
Proof. unfold add_ioapic. cbv zeta. destruct (1 <? _); [done|]. by intros [= <-]. Qed.
Lemma add_override_vm k o k' : add_override k o = Ok k' → k_vm k' = k_vm k.
Proof.
  unfold add_override. cbv zeta. destruct (list_set _ _ _) as [m| | |]; [|done..]. rewrite bind_ok.
  destruct (_ <? _); [done|]. by intros [= <-].
Qed.
Lemma handle_entry_vm k e k' : handle_entry k e = Ok k' → k_vm k' = k_vm k.
Proof.
  destruct e; cbn [handle_entry].
  - destruct (_ =? 0); [by intros [= <-]|]. destruct (lapic_get_phys_id k 0) as [b| | |]; [|done..].
    rewrite bind_ok. destruct (_ =? b); [by intros [= <-]|].
    destruct (list_set _ _ _) as [m| | |]; [|done..]. rewrite bind_ok. cbv zeta.
    destruct (_ <? _); [done|]. by intros [= <-].
  - apply add_ioapic_vm.
  - apply add_override_vm.
  - done.
  - by intros [= <-].
Qed.

(** The handler of a structure reads it back. *)
Lemma madt_structure_ok k p e : entry_wf e → bytes_at k p (encode_entry e) →
  ∃ type, rd8 k p = Ok type ∧ rd8 k (p +w 1) = Ok (Z.of_nat (length (encode_entry e))) ∧
    madt_structure k type p = handle_entry k e.
Proof.
  intros Hwf Hb.
  assert (Hhd : ∀ b, encode_entry e !! 0%nat = Some b → rd8 k p = Ok b).
  { intros b Eb. destruct Hb as (_ & _ & H3). rewrite <- (Z.add_0_r p). by apply (H3 0%nat). }
  destruct e as [pid a f|i ad b|irq gsi fl|bus irq gsi fl|t pl]; cbn [encode_entry entry_wf] in *.
  - destruct Hwf as (_ & _ & Hf). exists 0. split; [by apply Hhd|].
    split; [by apply (get_at (rd8 k) p _ 1 8 Hb)|]. unfold madt_structure. cbn [Z.eqb APIC_TYPE_LAPIC].
    unfold acpi_add_cpu. unfold rd32. rewrite (read_le_at (rd8 k) 4 p [0; 8; pid; a] f [] 4) by done.
    rewrite bind_ok. cbn [handle_entry]. destruct (f .& 1 =? 0); [done|].
    rewrite (get_at (rd8 k) p _ 3 a Hb) by done. rewrite bind_ok. rewrite !bind_assoc.
    destruct (lapic_get_phys_id k 0) as [bsp| | |]; [|done..]. rewrite !bind_ok.
    destruct (a =? bsp); [done|]. cbv zeta. rewrite bind_assoc.
    destruct (list_set _ _ _) as [ids| | |]; [|done..]. rewrite !bind_ok.
    by destruct (MAX_CPUS <? _).
  - destruct Hwf as (_ & Had & Hbs). exists 1. split; [by apply Hhd|].
    split; [by apply (get_at (rd8 k) p _ 1 12 Hb)|]. unfold madt_structure. cbn [Z.eqb Pos.eqb APIC_TYPE_LAPIC APIC_TYPE_IOAPIC].
    unfold rd32. rewrite (read_le_at (rd8 k) 4 p [1; 12; i; 0] ad (le 4 b) 4) by done. rewrite bind_ok.
    rewrite (read_le_at (rd8 k) 4 p ([1; 12; i; 0] ++ le 4 ad) b [] 8) by
      (done || (rewrite app_nil_r, <- app_assoc; exact Hb)). by rewrite bind_ok.
  - destruct Hwf as (_ & Hg & Hfl). exists 2. split; [by apply Hhd|].
    split; [by apply (get_at (rd8 k) p _ 1 10 Hb)|]. unfold madt_structure.
    cbn [Z.eqb Pos.eqb APIC_TYPE_LAPIC APIC_TYPE_IOAPIC APIC_TYPE_INTERRUPT_OVERRIDE].
    rewrite (get_at (rd8 k) p _ 2 0 Hb) by done. rewrite bind_ok. cbn [Z.eqb negb].
    rewrite (get_at (rd8 k) p _ 3 irq Hb) by done. rewrite bind_ok. unfold rd32, rd16.
    rewrite (read_le_at (rd8 k) 4 p [2; 10; 0; irq] gsi (le 2 fl) 4) by done. rewrite bind_ok.
    rewrite (read_le_at (rd8 k) 2 p ([2; 10; 0; irq] ++ le 4 gsi) fl [] 8) by
      (done || (rewrite app_nil_r, <- app_assoc; exact Hb)). by rewrite bind_ok.
  - destruct Hwf as (Hbus & _). exists 2. split; [by apply Hhd|].
    split; [by apply (get_at (rd8 k) p _ 1 10 Hb)|]. unfold madt_structure.
    cbn [Z.eqb Pos.eqb APIC_TYPE_LAPIC APIC_TYPE_IOAPIC APIC_TYPE_INTERRUPT_OVERRIDE].
    rewrite (get_at (rd8 k) p _ 2 bus Hb) by done. rewrite bind_ok. destruct (Z.eqb_spec bus 0); [lia|done].
  - destruct Hwf as (Ht & Hl & _). exists t. split; [by apply Hhd|]. split.
    + cbn [length]. rewrite (get_at (rd8 k) p _ 1 (2 + Z.of_nat (length pl)) Hb) by done. f_equal. lia.
    + unfold madt_structure, APIC_TYPE_LAPIC, APIC_TYPE_IOAPIC, APIC_TYPE_INTERRUPT_OVERRIDE.
      destruct (Z.eqb_spec t 0), (Z.eqb_spec t 1), (Z.eqb_spec t 2); lia || done.
Qed.

Lemma encode_entry_length e : entry_wf e → (2 <= length (encode_entry e) <= 255)%nat.
Proof.
  destruct e as [pid a f|i ad b|irq gsi fl|bus irq gsi fl|t pl]; cbn [encode_entry entry_wf];
    rewrite ?length_app, ?le_length; cbn [length]; rewrite ?length_app, ?le_length; lia.
Qed.

Lemma parse_entries_ok es k p : Forall entry_wf es → bytes_at k p (encode_entries es) →
  rounds (Datatypes.S (length es)) (parse_apic_step (p + Z.of_nat (length (encode_entries es)))) (p, k) =
    (k' ← handle_entries k es; Ok (inr k')).
Proof.
  revert k p. induction es as [|e es IH]; intros k p Hwf Hb.
  - cbn. rewrite Z.add_0_r. destruct (Z.ltb_spec p p); [lia|done].
  - apply Forall_cons in Hwf as [He Hes]. unfold encode_entries in *. cbn [map concat] in *.
    pose proof (encode_entry_length e He) as Hlen. pose proof Hb as (H0 & H1 & _).
    rewrite length_app in *. apply bytes_in_app in Hb as [Hbe Hbs].
    destruct (madt_structure_ok k p e He Hbe) as (type & E1 & E2 & E3).
    cbn [length handle_entries].
    set (end_ := p + Z.of_nat (length (encode_entry e) + length (concat (map encode_entry es)))) in *.
    change (rounds (Datatypes.S (Datatypes.S (length es))) (parse_apic_step end_) (p, k))
      with (x ← parse_apic_step end_ (p, k);
            match x with
            | inl s' => rounds (Datatypes.S (length es)) (parse_apic_step end_) s'
            | inr r => Ok (inr r)
            end).
    assert (Hstep : parse_apic_step end_ (p, k) =
              (k1 ← handle_entry k e; Ok (inl (p + Z.of_nat (length (encode_entry e)), k1)))).
    { unfold parse_apic_step. destruct (Z.ltb_spec p end_); [|unfold end_ in *; lia].
      rewrite E1, bind_ok, E2, bind_ok, E3. by rewrite u64_id by (unfold is_u64; lia). }
    rewrite Hstep. destruct (handle_entry k e) as [k1| | |] eqn:Ea; [|done..]. rewrite !bind_ok.
    specialize (IH k1 (p + Z.of_nat (length (encode_entry e))) Hes
      (bytes_at_vm _ _ _ _ (handle_entry_vm _ _ _ Ea) Hbs)).
    replace (p + Z.of_nat (length (encode_entry e)) + Z.of_nat (length (concat (map encode_entry es))))
      with end_ in IH by (unfold end_; lia). exact IH.
Qed.

Lemma entries_count es : Forall entry_wf es → Z.of_nat (length es) <= Z.of_nat (length (encode_entries es)).
Proof.
  induction es as [|e es IH]; intros Hwf; [done|]. apply Forall_cons in Hwf as [He Hes].
  pose proof (encode_entry_length e He). specialize (IH Hes).
  unfold encode_entries in *. cbn [map concat length] in *. rewrite length_app. lia.
Qed.

(** The table in memory. *)
Record madt_at k (madt : Z) (rest : list Z) (lapic flags : Z) (es : list madt_entry) : Prop := {
  ma_wf : Forall entry_wf es;
  ma_rest : length rest = 28%nat;
  ma_lapic : is_u32 lapic;
  ma_length : 44 + Z.of_nat (length (encode_entries es)) < 2 ^ 32;
  ma_bytes : bytes_at k madt (encode_madt rest lapic flags es)
}.

Lemma acpi_parse_apic_ok k madt rest lapic flags es : madt_at k madt rest lapic flags es →
  acpi_parse_apic k madt = handle_entries (set_lapic_addr k lapic) es.
Proof.
  intros [Hwf Hrest Hl Hlen Hb]. unfold acpi_parse_apic, rd32.
  pose proof Hb as (H0 & H1 & _). unfold encode_madt in H1.
  rewrite !length_app, !le_length, Hrest in H1. pose proof (entries_count es Hwf).
  set (L := 44 + Z.of_nat (length (encode_entries es))) in *.
  rewrite (read_le_at (rd8 k) 4 madt (le 4 0x43495041 ++ le 4 L ++ rest) lapic (le 4 flags ++ encode_entries es)
             SIZEOF_HEADER);
    [|unfold encode_madt in Hb; rewrite <- !app_assoc; exact Hb
     |rewrite !length_app, !le_length, Hrest; reflexivity|exact Hl].
  rewrite bind_ok. cbv zeta.
  rewrite (read_le_at (rd8 (set_lapic_addr k lapic)) 4 madt (le 4 0x43495041) L
             (rest ++ le 4 lapic ++ le 4 flags ++ encode_entries es) 4);
    [|exact (bytes_at_vm k (set_lapic_addr k lapic) madt _ eq_refl Hb)|reflexivity|unfold L; split; lia].
  rewrite bind_ok. unfold SIZEOF_MADT.
  rewrite (u64_id (madt + L)) by (unfold is_u64, L; lia). rewrite (u64_id (madt + 44)) by (unfold is_u64; lia).
  apply (while_rounds _ (Datatypes.S (length es))); [lia|].
  replace (madt + L) with (madt + 44 + Z.of_nat (length (encode_entries es))) by (unfold L; lia).
  apply parse_entries_ok; [done|]. apply (bytes_at_vm k); [done|].
  unfold encode_madt in Hb. fold L in Hb.
  replace (le 4 0x43495041 ++ le 4 L ++ rest ++ le 4 lapic ++ le 4 flags ++ encode_entries es) with
    ((le 4 0x43495041 ++ le 4 L ++ rest ++ le 4 lapic ++ le 4 flags) ++ encode_entries es) in Hb
    by (rewrite <- !app_assoc; reflexivity).
  apply bytes_in_app in Hb as [_ Hb]. rewrite !length_app, !le_length, Hrest in Hb. exact Hb.
Qed.

(** ** What the structures leave in the variables *)

(** The processors to start, given the identifier of the running one, and the
    overrides, in the order of the table. *)
Definition aps_of (bsp : Z) (e : madt_entry) : list Z :=
  match e with
  | Lapic _ a f => if f .& 1 =? 0 then [] else if a =? bsp then [] else [a]
  | _ => []
  end.
Definition overrides_of (e : madt_entry) : list irq_override :=
  match e with Override irq gsi fl => [IrqOverride irq fl gsi] | _ => [] end.

Record madt_inv k (ids : list Z) (ovs : list irq_override) : Prop := {
  mi_ids_len : length (lapic_ids (k_acpi k)) = 16%nat;
  mi_ids : ∀ i a, ids !! i = Some a → lapic_ids (k_acpi k) !! Datatypes.S i = Some a;
  mi_cpus : g_cpus (k_acpi k) = 1 + Z.of_nat (length ids);
  mi_cpus_max : (length ids <= 15)%nat;
  mi_map_len : length (irq_map (k_acpi k)) = 32%nat;
  mi_map : ∀ i o, ovs !! i = Some o → irq_map (k_acpi k) !! i = Some o;
  mi_num : num_overrides (k_acpi k) = Z.of_nat (length ovs);
  mi_num_max : (length ovs <= 32)%nat
}.

Lemma madt_inv_acpi k k' ids ovs : k_acpi k' = k_acpi k → madt_inv k ids ovs → madt_inv k' ids ovs.
Proof. intros E []. by split; rewrite ?E. Qed.

Lemma list_set_length {B} (l l' : list B) i b : list_set l i b = Ok l' →
  l' = <[Z.to_nat i := b]> l ∧ 0 <= i < Z.of_nat (length l).
Proof.
  unfold list_set. destruct (Z.leb_spec 0 i), (Z.ltb_spec i (Z.of_nat (length l))); try done.
  by intros [= <-].
Qed.

(** The prefix [l1] of an array, with an element stored behind it. *)
Lemma prefix_store {B} (l : list B) (l1 : list B) (d : nat) b :
  (∀ i a, l1 !! i = Some a → l !! (d + i)%nat = Some a) → (d + length l1 < length l)%nat →
  ∀ i a, (l1 ++ [b]) !! i = Some a → <[(d + length l1)%nat := b]> l !! (d + i)%nat = Some a.
Proof.
  intros Hl Hlen i a Hi. destruct (decide (i < length l1)%nat).
  - rewrite lookup_app_l in Hi by done. rewrite list_lookup_insert_ne by lia. by apply Hl.
  - rewrite lookup_app_r in Hi by lia. destruct (i - length l1)%nat as [|j] eqn:Ej; [|done].
    cbn in Hi. injection Hi as <-. replace i with (length l1) by lia.
    by rewrite list_lookup_insert_eq.
Qed.

Lemma add_cpu_ok k ids ovs a : madt_inv k ids ovs →
  (ids' ← list_set (lapic_ids (k_acpi k)) (g_cpus (k_acpi k)) a;
   if MAX_CPUS <? g_cpus (k_acpi (set_g_cpus k (u16 (g_cpus (k_acpi k) + 1)) ids'))
   then Panic "Exceeds supported max CPUs"
   else Ok (set_g_cpus k (u16 (g_cpus (k_acpi k) + 1)) ids')) =
  if bool_decide (length ids = 15)%nat then Fault
  else Ok (set_g_cpus k (2 + Z.of_nat (length ids))
             (<[(1 + length ids)%nat := a]> (lapic_ids (k_acpi k)))).
Proof.
  intros [Hlen Hids Hc Hmax _ _ _ _]. rewrite Hc. case_bool_decide as Hn.
  - by rewrite list_set_fault by lia.
  - rewrite list_set_ok by lia. rewrite bind_ok. cbv zeta. cbn [k_acpi set_g_cpus set_acpi g_cpus].
    rewrite u16_id by (unfold is_u16; lia).
    destruct (Z.ltb_spec MAX_CPUS (1 + Z.of_nat (length ids) + 1)); [unfold MAX_CPUS in *; lia|].
    f_equal. f_equal; [lia|]. f_equal. lia.
Qed.

Lemma add_override_ok k ids ovs o : madt_inv k ids ovs →
  add_override k o =
  if bool_decide (length ovs = 32)%nat then Fault
  else Ok (set_overrides k (1 + Z.of_nat (length ovs)) (<[length ovs := o]> (irq_map (k_acpi k)))).
Proof.
  intros [_ _ _ _ Hlen Hmap Hn Hmax]. unfold add_override. cbv zeta. rewrite Hn. case_bool_decide as Hb.
  - by rewrite list_set_fault by lia.
  - rewrite list_set_ok by lia. rewrite bind_ok. cbn [k_acpi set_overrides set_acpi num_overrides].
    rewrite u8_id by (unfold is_u8; lia).
    destruct (Z.ltb_spec MAX_IRQ_OVERRIDES (Z.of_nat (length ovs) + 1)); [unfold MAX_IRQ_OVERRIDES in *; lia|].
    rewrite Nat2Z.id. do 2 f_equal. lia.
Qed.

(** The messages that a table can stop with. *)
Definition madt_message (m : string) : Prop :=
  m = "Multiple IOAPIC not supported"%string ∨ m = "Only bus 0 is supported"%string.

Lemma handle_entry_ok k ids ovs bsp e : madt_inv k ids ovs → lapic_get_phys_id k 0 = Ok bsp →
  wpx (handle_entry k e) (fun k' => madt_inv k' (ids ++ aps_of bsp e) (ovs ++ overrides_of e) ∧
      lapic_get_phys_id k' 0 = Ok bsp)
    madt_message
    ((length ids = 15%nat ∧ aps_of bsp e ≠ []) ∨ (length ovs = 32%nat ∧ overrides_of e ≠ [])).
Proof.
  intros Hi Hbsp. destruct e as [pid a f|i ad b|irq gsi fl|bus irq gsi fl|t pl]; cbn [handle_entry aps_of overrides_of].
  - destruct (f .& 1 =? 0); [cbn; rewrite !app_nil_r; done|]. rewrite Hbsp, bind_ok.
    destruct (a =? bsp); [cbn; rewrite !app_nil_r; done|]. rewrite (add_cpu_ok k ids ovs a Hi).
    case_bool_decide as Hn; [by left|]. cbn [wpx]. rewrite app_nil_r. split; [|exact Hbsp].
    destruct Hi. split; cbn [k_acpi set_g_cpus set_acpi lapic_ids g_cpus irq_map num_overrides];
      rewrite ?length_insert, ?length_app; cbn [length]; try done; try lia.
    intros j x Hj. apply (prefix_store (lapic_ids (k_acpi k)) ids 1 a); [done|lia|done].
  - unfold add_ioapic. cbv zeta. destruct (1 <? _); [by left|]. cbn [wpx]. rewrite !app_nil_r.
    split; [destruct Hi; by split|exact Hbsp].
  - rewrite (add_override_ok k ids ovs _ Hi). case_bool_decide as Hn; [by right|]. cbn [wpx].
    rewrite app_nil_r. split; [|exact Hbsp].
    destruct Hi. split; cbn [k_acpi set_overrides set_acpi lapic_ids g_cpus irq_map num_overrides];
      rewrite ?length_insert, ?length_app; cbn [length]; try done; try lia.
    intros j x Hj. apply (prefix_store (irq_map (k_acpi k)) ovs 0); [done|lia|done].
  - by right.
  - cbn. rewrite !app_nil_r. done.
Qed.

Definition aps (bsp : Z) (es : list madt_entry) : list Z := concat (map (aps_of bsp) es).
Definition overrides (es : list madt_entry) : list irq_override := concat (map overrides_of es).

Lemma handle_entries_ok k es ids ovs bsp : madt_inv k ids ovs → lapic_get_phys_id k 0 = Ok bsp →
  wpx (handle_entries k es) (fun k' => madt_inv k' (ids ++ aps bsp es) (ovs ++ overrides es))
    madt_message
    ((15 < length (ids ++ aps bsp es))%nat ∨ (32 < length (ovs ++ overrides es))%nat).
Proof.
  revert k ids ovs. induction es as [|e es IH]; intros k ids ovs Hi Hbsp;
    unfold aps, overrides in *; cbn [handle_entries map concat].
  - cbn. by rewrite !app_nil_r.
  - wp_step. eapply wpx_mono; [exact (handle_entry_ok k ids ovs bsp e Hi Hbsp)| |done|].
    + intros k1 [Hi1 Hb1]. specialize (IH k1 _ _ Hi1 Hb1). rewrite <- !app_assoc in IH. exact IH.
    + rewrite !length_app. intros [[Hn Ha]|[Hn Ho]].
      * left. destruct (aps_of bsp e); [done|]. cbn [length]. lia.
      * right. destruct (overrides_of e); [done|]. cbn [length]. lia.
Qed.

(** ** What the structures mean

    Stated on the list of structures, with none of the operations of the code:
    which structure the parser stops at, if any, and what the variables hold
    when it stops at none. *)
Definition ioapics_of (e : madt_entry) : list (Z * Z) :=
  match e with Ioapic _ address base => [(address, base)] | _ => [] end.
Definition ioapics (es : list madt_entry) : list (Z * Z) := concat (map ioapics_of es).

(** A stop with a message, or a store past the end of an array. *)
Inductive trouble : Type := Message (m : string) | Out_of_bounds.

(** The structure [e] behind the structures [pre]: the 17th entry of
    [lapic_ids], the 33rd of [irq_map], a second I/O APIC, an override of
    another bus. *)
Definition trouble_at k (bsp : Z) (pre : list madt_entry) (e : madt_entry) : option trouble :=
  match e with
  | Lapic _ a f =>
      if Z.odd f && negb (a =? bsp) && (16 <=? g_cpus (k_acpi k) + Z.of_nat (length (aps bsp pre)))
      then Some Out_of_bounds else None
  | Ioapic _ _ _ =>
      if 1 <=? num_ioapic (k_acpi k) + Z.of_nat (length (ioapics pre))
      then Some (Message "Multiple IOAPIC not supported") else None
  | Override _ _ _ =>
      if 32 <=? num_overrides (k_acpi k) + Z.of_nat (length (overrides pre))
      then Some Out_of_bounds else None
  | ForeignOverride _ _ _ _ => Some (Message "Only bus 0 is supported")
  | Other _ _ => None
  end.

Fixpoint first_trouble k (bsp : Z) (pre es : list madt_entry) : option trouble :=
  match es with
  | [] => None
  | e :: es =>
      match trouble_at k bsp pre e with
      | Some t => Some t
      | None => first_trouble k bsp (pre ++ [e]) es
      end
  end.

(** The array [l] with [xs] written from the index [d] on. *)
Definition written_at {B} (d : Z) (xs l : list B) : list B :=
  take (Z.to_nat d) l ++ xs ++ drop (Z.to_nat d + length xs) l.

(** The variables behind the structures [es]. *)
Definition table_state k (lapic bsp : Z) (es : list madt_entry) : kernel A :=
  let a := k_acpi k in
  let p := k_apic k in
  let io := default (ioapic_addr p, gsi_base p) (last (ioapics es)) in
  set_acpi (set_apic k
      (Apic lapic (fst io) (snd io) (num_gsi p) (tsc_freq p) (lapic_phys_ids p)))
    (Acpi (g_cpus a + Z.of_nat (length (aps bsp es)))
       (written_at (num_overrides a) (overrides es) (irq_map a))
       (num_overrides a + Z.of_nat (length (overrides es)))
       (num_ioapic a + Z.of_nat (length (ioapics es)))
       (written_at (g_cpus a) (aps bsp es) (lapic_ids a))).

Definition table_outcome k (lapic bsp : Z) (es : list madt_entry) : outcome (kernel A) :=
  match first_trouble k bsp [] es with
  | None => Ok (table_state k lapic bsp es)
  | Some (Message m) => Panic m
  | Some Out_of_bounds => Fault
  end.

(** The counts are those of the arrays, before and behind any table. *)
Record acpi_wf k : Prop := {
  aw_ids : length (lapic_ids (k_acpi k)) = 16%nat;
  aw_cpus : 0 <= g_cpus (k_acpi k) <= 16;
  aw_map : length (irq_map (k_acpi k)) = 32%nat;
  aw_overrides : 0 <= num_overrides (k_acpi k) <= 32;
  aw_ioapic : 0 <= num_ioapic (k_acpi k) <= 1
}.

Lemma written_at_nil {B} d (l : list B) : written_at d [] l = l.
Proof. unfold written_at. cbn [length app]. by rewrite Nat.add_0_r, take_drop. Qed.

Lemma written_at_snoc {B} d (xs l : list B) x : 0 <= d → d + Z.of_nat (length xs) < Z.of_nat (length l) →
  list_set (written_at d xs l) (d + Z.of_nat (length xs)) x = Ok (written_at d (xs ++ [x]) l).
Proof.
  intros Hd Hl. unfold written_at.
  assert (Ht : length (take (Z.to_nat d) l) = Z.to_nat d) by (rewrite length_take; lia).
  destruct (lookup_lt_is_Some_2 l (Z.to_nat d + length xs)%nat ltac:(lia)) as [y Hy].
  rewrite (drop_S l y) by done. rewrite list_set_ok.
  2: { rewrite !length_app, Ht. cbn [length]. lia. }
  f_equal. replace (Z.to_nat (d + Z.of_nat (length xs))) with
    (length (take (Z.to_nat d) l) + (length xs + 0))%nat by lia.
  rewrite !insert_app_r. cbn. rewrite <- !app_assoc. cbn. rewrite length_app. cbn [length].
  do 4 f_equal. lia.
Qed.

Lemma aps_snoc bsp es e : aps bsp (es ++ [e]) = aps bsp es ++ aps_of bsp e.
Proof. unfold aps. rewrite map_app, concat_app. cbn. by rewrite app_nil_r. Qed.
Lemma overrides_snoc es e : overrides (es ++ [e]) = overrides es ++ overrides_of e.
Proof. unfold overrides. rewrite map_app, concat_app. cbn. by rewrite app_nil_r. Qed.
Lemma ioapics_snoc es e : ioapics (es ++ [e]) = ioapics es ++ ioapics_of e.
Proof. unfold ioapics. rewrite map_app, concat_app. cbn. by rewrite app_nil_r. Qed.

Lemma odd_land_1 f : (f .& 1 =? 0) = negb (Z.odd f).
Proof. change (f .& 1) with (Z.land f (Z.ones 1)). rewrite Z.land_ones by lia. rewrite Zmod_odd. by destruct (Z.odd f). Qed.

(** A structure that makes no change. *)
Lemma table_state_skip k lapic bsp es e : aps_of bsp e = [] → overrides_of e = [] → ioapics_of e = [] →
  table_state k lapic bsp (es ++ [e]) = table_state k lapic bsp es.
Proof.
  intros E1 E2 E3. unfold table_state. rewrite aps_snoc, overrides_snoc, ioapics_snoc, E1, E2, E3.
  by rewrite !app_nil_r.
Qed.

Lemma handle_entry_meaning k lapic bsp pre e : acpi_wf k → lapic_get_phys_id k 0 = Ok bsp →
  num_ioapic (k_acpi k) + Z.of_nat (length (ioapics pre)) <= 1 →
  handle_entry (table_state k lapic bsp pre) e =
    match trouble_at k bsp pre e with
    | None => Ok (table_state k lapic bsp (pre ++ [e]))
    | Some (Message m) => Panic m
    | Some Out_of_bounds => Fault
    end.
Proof.
  intros [H1 H2 H3 H4 H5] Hbsp Hio.
  destruct e as [pid a f|i ad b|irq gsi fl|bus irq gsi fl|t pl]; cbn [handle_entry trouble_at].
  - rewrite odd_land_1. destruct (Z.odd f) eqn:Ef; cbn [negb andb].
    2: { rewrite table_state_skip; cbn [aps_of]; rewrite ?odd_land_1, ?Ef; reflexivity. }
    change (lapic_get_phys_id (table_state k lapic bsp pre) 0) with (lapic_get_phys_id k 0).
    rewrite Hbsp, bind_ok. destruct (a =? bsp) eqn:Ea; cbn [negb andb].
    { rewrite table_state_skip; cbn [aps_of]; rewrite ?odd_land_1, ?Ef, ?Ea; reflexivity. }
    cbn [table_state k_acpi set_acpi lapic_ids g_cpus].
    assert (Es : aps_of bsp (Lapic pid a f) = [a]) by (cbn; by rewrite odd_land_1, Ef, Ea).
    destruct (Z.leb_spec 16 (g_cpus (k_acpi k) + Z.of_nat (length (aps bsp pre)))).
    { rewrite list_set_fault; [done|]. unfold written_at.
      rewrite !length_app, length_take, length_drop. lia. }
    rewrite written_at_snoc by lia. rewrite bind_ok. cbv zeta. rewrite u16_id by (unfold is_u16; lia).
    cbn [set_g_cpus k_acpi set_acpi g_cpus].
    destruct (Z.ltb_spec MAX_CPUS (g_cpus (k_acpi k) + Z.of_nat (length (aps bsp pre)) + 1));
      [unfold MAX_CPUS in *; lia|].
    unfold table_state. rewrite aps_snoc, overrides_snoc, ioapics_snoc, Es. cbn [overrides_of ioapics_of].
    rewrite !app_nil_r, length_app. cbn [length]. f_equal. unfold set_g_cpus. cbn. f_equal. f_equal. lia.
  - assert (Ho : ioapics (pre ++ [Ioapic i ad b]) = ioapics pre ++ [(ad, b)]) by apply ioapics_snoc.
    unfold add_ioapic. cbv zeta. cbn [set_num_ioapic set_ioapic set_apic set_acpi table_state k_acpi num_ioapic].
    rewrite u16_id by (unfold is_u16; lia).
    destruct (Z.ltb_spec 1 (num_ioapic (k_acpi k) + Z.of_nat (length (ioapics pre)) + 1)),
      (Z.leb_spec 1 (num_ioapic (k_acpi k) + Z.of_nat (length (ioapics pre)))); try lia; [done|].
    unfold table_state. rewrite aps_snoc, overrides_snoc, Ho, last_snoc.
    cbn [overrides_of aps_of length]. rewrite !app_nil_r, length_app, Nat2Z.inj_add, Z.add_assoc.
    reflexivity.
  - assert (Ho : overrides (pre ++ [Override irq gsi fl]) = overrides pre ++ [IrqOverride irq fl gsi])
      by apply overrides_snoc.
    unfold add_override. cbv zeta. cbn [table_state k_acpi set_acpi irq_map num_overrides].
    destruct (Z.leb_spec 32 (num_overrides (k_acpi k) + Z.of_nat (length (overrides pre)))).
    { rewrite list_set_fault; [done|]. unfold written_at.
      rewrite !length_app, length_take, length_drop. lia. }
    rewrite written_at_snoc by lia. rewrite bind_ok. rewrite u8_id by (unfold is_u8; lia).
    cbn [set_overrides k_acpi set_acpi num_overrides].
    destruct (Z.ltb_spec MAX_IRQ_OVERRIDES (num_overrides (k_acpi k) + Z.of_nat (length (overrides pre)) + 1));
      [unfold MAX_IRQ_OVERRIDES in *; lia|].
    unfold table_state. rewrite aps_snoc, ioapics_snoc, Ho.
    cbn [ioapics_of aps_of length]. rewrite !app_nil_r, length_app, Nat2Z.inj_add, Z.add_assoc.
    reflexivity.
  - reflexivity.
  - by rewrite table_state_skip.
Qed.

Lemma table_state_nil k lapic bsp : table_state k lapic bsp [] = set_lapic_addr k lapic.
Proof.
  unfold table_state. cbn [aps overrides ioapics map concat length last default from_option fst snd].
  rewrite !written_at_nil, !Z.add_0_r. destruct k as [v p a c s]. by destruct a.
Qed.

Lemma trouble_ioapics k bsp pre e : num_ioapic (k_acpi k) + Z.of_nat (length (ioapics pre)) <= 1 →
  trouble_at k bsp pre e = None →
  num_ioapic (k_acpi k) + Z.of_nat (length (ioapics (pre ++ [e]))) <= 1.
Proof.
  intros Hio He. rewrite ioapics_snoc, length_app.
  destruct e; cbn [ioapics_of trouble_at length] in *; try lia.
  destruct (Z.leb_spec 1 (num_ioapic (k_acpi k) + Z.of_nat (length (ioapics pre)))); [done|lia].
Qed.

Lemma handle_entries_meaning k lapic bsp es pre : acpi_wf k → lapic_get_phys_id k 0 = Ok bsp →
  num_ioapic (k_acpi k) + Z.of_nat (length (ioapics pre)) <= 1 →
  handle_entries (table_state k lapic bsp pre) es =
    match first_trouble k bsp pre es with
    | None => Ok (table_state k lapic bsp (pre ++ es))
    | Some (Message m) => Panic m
    | Some Out_of_bounds => Fault
    end.
Proof.
  intros Hk Hbsp. revert pre.
  induction es as [|e es IH]; intros pre Hio; cbn [handle_entries first_trouble].
  - by rewrite app_nil_r.
  - rewrite (handle_entry_meaning k lapic bsp pre e Hk Hbsp Hio).
    destruct (trouble_at k bsp pre e) as [[m|]|] eqn:Et; [done..|].
    rewrite bind_ok, (IH _ (trouble_ioapics _ _ _ _ Hio Et)), <- app_assoc. done.
Qed.

(** ** Routing *)

Definition override_for (irq : Z) (ovs : list irq_override) : Z * Z :=
  match List.find (fun o => ov_irq o =? irq) ovs with
  | Some o => (ov_gsi o, ov_flags o)
  | None => (irq, 0)
  end.

Lemma find_app {B} (f : B → bool) l1 l2 :
  List.find f (l1 ++ l2) = match List.find f l1 with Some x => Some x | None => List.find f l2 end.
Proof. induction l1 as [|x l1 IH]; cbn; [done|]. by destruct (f x). Qed.

Lemma find_take_none {B} (f : B → bool) l i x : List.find f (take i l) = None → l !! i = Some x →
  List.find f (take (Datatypes.S i) l) = if f x then Some x else None.
Proof.
  intros Hn Hx. rewrite (take_S_r l i x Hx), find_app, Hn. cbn. by destruct (f x).
Qed.

Lemma acpi_irq_to_gsi_ok k irq ids ovs : madt_inv k ids ovs →
  acpi_irq_to_gsi k irq = Ok (override_for irq ovs).
Proof.
  intros [_ _ _ _ Hlen Hmap Hnum Hmax]. unfold acpi_irq_to_gsi.
  set (f := fun o => ov_irq o =? irq).
  assert (Hw : wp (while (irq_to_gsi_step k irq) 0) (fun r => r = override_for irq ovs)).
  { apply (wp_while _ (fun i => 0 <= i <= Z.of_nat (length ovs) ∧
        List.find f (take (Z.to_nat i) ovs) = None) (fun i => Z.of_nat (length ovs) - i)).
    - intros i [Hi Hn]. unfold irq_to_gsi_step. rewrite Hnum.
      destruct (Z.ltb_spec i (Z.of_nat (length ovs))).
      + destruct (lookup_lt_is_Some_2 ovs (Z.to_nat i) ltac:(lia)) as [o Ho].
        assert (Hg : list_get (irq_map (k_acpi k)) i = Ok o).
        { unfold list_get. destruct (Z.ltb_spec i 0); [lia|]. by rewrite (Hmap _ _ Ho). }
        rewrite Hg, bind_ok. pose proof (find_take_none f ovs _ o Hn Ho) as Hf. unfold f at 2 in Hf.
        destruct (ov_irq o =? irq) eqn:Eo.
        * cbn. unfold override_for. fold f. rewrite <- (take_drop (Datatypes.S (Z.to_nat i)) ovs).
          by rewrite find_app, Hf.
        * rewrite u8_id by (unfold is_u8; lia). cbn. split; [|lia]. split; [lia|].
          by replace (Z.to_nat (i + 1)) with (Datatypes.S (Z.to_nat i)) by lia.
      + cbn. unfold override_for. fold f. rewrite take_ge in Hn by lia. by rewrite Hn.
    - split; [lia|done].
    - lia. }
  apply wp_ok in Hw as (r & -> & ->). done.
Qed.

(** ** A structure of length 0 *)

Lemma parse_apic_stuck k madt L lapic p type :
  rd32 k (madt +w SIZEOF_HEADER) = Ok lapic →
  rd32 k (madt +w 4) = Ok L → p = madt +w SIZEOF_MADT → p < madt +w L → is_u64 p →
  2 < type → rd8 k p = Ok type → rd8 k (p +w 1) = Ok 0 →
  acpi_parse_apic k madt = Hang.
Proof.
  intros Hla HL -> Hlt Hp Ht H0 H1. unfold acpi_parse_apic. rewrite Hla, bind_ok. cbv zeta.
  set (k1 := set_lapic_addr k lapic).
  assert (HL1 : rd32 k1 (madt +w 4) = Ok L) by exact HL. rewrite HL1, bind_ok.
  apply (while_hangs _ (fun st => st = (madt +w SIZEOF_MADT, k1))); [|done].
  intros st ->. exists (madt +w SIZEOF_MADT, k1). split; [|done]. unfold parse_apic_step.
  destruct (Z.ltb_spec (madt +w SIZEOF_MADT) (madt +w L)); [|lia].
  assert (H0' : rd8 k1 (madt +w SIZEOF_MADT) = Ok type) by exact H0.
  assert (H1' : rd8 k1 ((madt +w SIZEOF_MADT) +w 1) = Ok 0) by exact H1.
  rewrite H0', bind_ok, H1', bind_ok. unfold madt_structure, APIC_TYPE_LAPIC, APIC_TYPE_IOAPIC,
    APIC_TYPE_INTERRUPT_OVERRIDE.
  destruct (Z.eqb_spec type 0), (Z.eqb_spec type 1), (Z.eqb_spec type 2); try lia.
  rewrite bind_ok, Z.add_0_r. by rewrite u64_id.
Qed.

(** ** The search for the root pointer *)

(** The 8192 places where the pointer can be. *)
Definition rsdp_place (i : Z) : Z := 0xE0000 + 16 * i.

Lemma acpi_parse_rsdp_true k p b k' : acpi_parse_rsdp k p = Ok (b, k') → b = true.
Proof.
  unfold acpi_parse_rsdp. destruct (while _ _) as [sum| | |]; [|done..]. rewrite bind_ok.
  destruct (negb _); [done|]. destruct (rd8 _ _) as [rev| | |]; [|done..]. rewrite bind_ok.
  destruct (rev =? 0).
  - destruct (rd32 _ _) as [x| | |]; [|done..]. rewrite bind_ok.
    destruct (acpi_parse_rsdt k x) as [k1| | |]; [|done..]. rewrite bind_ok. by intros [= <- _].
  - destruct (rev =? 2); [|done]. destruct (while _ _) as [sum2| | |]; [|done..]. rewrite bind_ok.
    destruct (negb _); [done|]. destruct (rd32 _ _) as [x| | |]; [|done..]. rewrite bind_ok.
    destruct (rd64 _ _) as [y| | |]; [|done..]. rewrite bind_ok.
    destruct (if negb (y =? 0) then _ else _) as [k1| | |]; [|done..]. rewrite bind_ok.
    by intros [= <- _].
Qed.

(** The root pointer is at place [i], the first one with the signature; 8192
    stands for none. *)
Record rsdp_first k (i : Z) : Prop := {
  rf_range : 0 <= i <= 8192;
  rf_before j : 0 <= j < i → ∃ s, rd64 k (rsdp_place j) = Ok s ∧ s ≠ RSDP_SIGNATURE;
  rf_at : i < 8192 → rd64 k (rsdp_place i) = Ok RSDP_SIGNATURE
}.

(** What the loop does at the place of the pointer, or at the end. *)
Definition search_end k (i : Z) : outcome (Z * kernel A) :=
  if i =? 8192 then Ok (rsdp_place i, k)
  else '(_, k') ← acpi_parse_rsdp k (rsdp_place i); Ok (rsdp_place i, k').

Lemma search_rounds k i n : rsdp_first k i → Z.of_nat n <= i →
  rounds (Datatypes.S n) (search_rsdp_step 0x000fffff) (rsdp_place (i - Z.of_nat n), k) =
    (r ← search_end k i; Ok (inr r)).
Proof.
  intros [Hi Hbefore Hat]. induction n as [|n IH]; intros Hn.
  - rewrite Z.sub_0_r. cbn [rounds]. unfold search_rsdp_step, search_end.
    destruct (Z.ltb_spec (rsdp_place i) 0x000fffff), (Z.eqb_spec i 8192);
      unfold rsdp_place in *; try lia; [|done].
    rewrite Hat by lia. rewrite bind_ok, Z.eqb_refl.
    destruct (acpi_parse_rsdp k (0xE0000 + 16 * i)) as [[b k']| | |] eqn:E; [|done..].
    rewrite (acpi_parse_rsdp_true _ _ _ _ E). done.
  - specialize (IH ltac:(lia)). set (j := i - Z.of_nat (Datatypes.S n)).
    destruct (Hbefore j ltac:(lia)) as (s & Es & Hs).
    assert (Hstep : search_rsdp_step 0x000fffff (rsdp_place j, k) = Ok (inl (rsdp_place (j + 1), k))).
    { unfold search_rsdp_step. destruct (Z.ltb_spec (rsdp_place j) 0x000fffff); [|unfold rsdp_place in *; lia].
      rewrite Es, bind_ok. destruct (Z.eqb_spec s RSDP_SIGNATURE); [done|].
      do 3 f_equal. unfold rsdp_place. rewrite u64_id by (unfold is_u64; lia). lia. }
    change (rounds (Datatypes.S (Datatypes.S n)) (search_rsdp_step 0x000fffff) (rsdp_place j, k))
      with (x ← search_rsdp_step 0x000fffff (rsdp_place j, k);
            match x with
            | inl s' => rounds (Datatypes.S n) (search_rsdp_step 0x000fffff) s'
            | inr r => Ok (inr r)
            end).
    rewrite Hstep, bind_ok. replace (j + 1) with (i - Z.of_nat n) by lia. exact IH.
Qed.

Lemma search_rsdp_ok k i : rsdp_first k i →
  search_rsdp k =
    if i =? 8192 then Panic "Can't find RSDP"
    else '(_, k') ← acpi_parse_rsdp k (rsdp_place i); Ok k'.
Proof.
  intros Hf. pose proof (rf_range _ _ Hf) as Hi.
  pose proof (search_rounds k i (Z.to_nat i) Hf ltac:(lia)) as Hr.
  rewrite Z2Nat.id, Z.sub_diag in Hr by lia. change (rsdp_place 0) with 0xE0000 in Hr.
  unfold search_rsdp. rewrite (while_rounds _ (Datatypes.S (Z.to_nat i)) _ _ ltac:(lia) Hr). unfold search_end.
  destruct (Z.eqb_spec i 8192) as [->|Hne]; [reflexivity|].
  destruct (acpi_parse_rsdp k (rsdp_place i)) as [[b k']| | |]; [|done..]. rewrite !bind_ok.
  destruct (Z.leb_spec 0x000fffff (rsdp_place i)); [unfold rsdp_place in *; lia|done].
Qed.
End madt.

(** ** Properties *)

Section acpi_properties.
Context `{HM : Mmu} {A : Type} `{HA : FrameAllocator A} `{HD : Devices} `{HF : Firmware}.
Implicit Types k : kernel A.

(** C18: the parser of the MADT does what its structures mean. On the bytes of
    any list of well-formed structures, whatever their order, number and kind,
    it stops at the first structure that is too much, with the message or with
    the store past the array that this structure causes, and with none it
    leaves exactly the variables of [table_state]: the address of the local
    APIC, the address and first interrupt of the I/O APIC, the identifiers of
    the other enabled processors and the overrides, each behind those stored
    before, and their counts; nothing else of the kernel changes. *)
Theorem acpi_parse_apic_refines k madt rest lapic flags es bsp :
  madt_at k madt rest lapic flags es → acpi_wf k → lapic_get_phys_id k 0 = Ok bsp →
  acpi_parse_apic k madt = table_outcome k lapic bsp es.
Proof.
  intros Hm Hk Hb. rewrite (acpi_parse_apic_ok k madt rest lapic flags es Hm).
  rewrite <- (table_state_nil k lapic bsp). apply handle_entries_meaning; [done..|].
  destruct Hk. cbn. lia.
Qed.

(** C21: what the MADT leaves in the variables. With at most 15 other enabled
    processors and 32 overrides, [g_cpus] counts them, [lapic_ids] lists
    their identifiers in order, and [acpi_irq_to_gsi] gives the first override
    of an interrupt, or the interrupt itself. With more of
    either the write is out of bounds, before the check that is meant to stop
    it: no table makes the parser say that there are too many. *)
Theorem madt_spec k madt rest lapic flags es bsp :
  madt_at k madt rest lapic flags es → madt_inv k [] [] → lapic_get_phys_id k 0 = Ok bsp →
  (wpx (acpi_parse_apic k madt) (fun k' =>
      g_cpus (k_acpi k') = 1 + Z.of_nat (length (aps bsp es)) ∧
      (∀ i a, aps bsp es !! i = Some a → lapic_ids (k_acpi k') !! Datatypes.S i = Some a) ∧
      ∀ irq, acpi_irq_to_gsi k' irq = Ok (override_for irq (overrides es)))
    madt_message ((15 < length (aps bsp es))%nat ∨ (32 < length (overrides es))%nat)) ∧
  ((15 < length (aps bsp es))%nat ∨ (32 < length (overrides es))%nat →
   acpi_parse_apic k madt = Fault ∨ ∃ m, acpi_parse_apic k madt = Panic m ∧ madt_message m).
Proof.
  intros Hm Hi Hb. rewrite (acpi_parse_apic_ok k madt rest lapic flags es Hm).
  assert (Hi' : madt_inv (set_lapic_addr k lapic) [] []) by (by apply (madt_inv_acpi k)).
  pose proof (handle_entries_ok _ es [] [] bsp Hi' Hb) as Hw. cbn [app] in Hw. split.
  - eapply wpx_post; [exact Hw|]. intros k' Hk. split; [apply Hk|]. split; [apply Hk|].
    intros irq. by apply (acpi_irq_to_gsi_ok k' irq (aps bsp es)).
  - intros Hmany. destruct (handle_entries _ es) as [k'|m| |].
    + exfalso. destruct Hw as [_ _ _ H1 _ _ _ H2]. lia.
    + right. by exists m.
    + by left.
    + destruct Hw.
Qed.

(** A structure of length 0 and of a kind the parser skips makes
    [acpi_parse_apic] loop for ever. *)
Theorem acpi_parse_apic_zero_length k madt L lapic p type :
  rd32 k (madt +w SIZEOF_HEADER) = Ok lapic →
  rd32 k (madt +w 4) = Ok L → p = madt +w SIZEOF_MADT → p < madt +w L → is_u64 p →
  2 < type → rd8 k p = Ok type → rd8 k (p +w 1) = Ok 0 →
  acpi_parse_apic k madt = Hang.
Proof. apply parse_apic_stuck. Qed.

(** without a pointer from the boot loader, [acpi_init] parses the tables
    of the first place of the BIOS area that holds the signature, and
    stops when there is none; the code of the other processors is copied
    exactly when there are any. *)
Theorem acpi_init_search k i : rsdp_first k i →
  acpi_init k 0 =
    if i =? 8192 then Panic "Can't find RSDP"
    else '(_, k') ← acpi_parse_rsdp k (rsdp_place i); Ok (1 <? g_cpus (k_acpi k'), k').
Proof.
  intros Hf. unfold acpi_init, try_rsdp. cbn [Z.eqb negb]. rewrite bind_ok.
  rewrite (search_rsdp_ok k i Hf). destruct (i =? 8192); [reflexivity|].
  rewrite bind_assoc. by destruct (acpi_parse_rsdp k (rsdp_place i)) as [[b k']| | |].
Qed.

(** [acpi_init] runs before [lapic_init] ([kernel_main] calls them in that
    order), so [lapic_phys_ids[0]] still holds 0 when the processors are
    listed. On a machine whose first processor has an identifier [b] other than 0, that
    processor is listed as one to start, and a processor with identifier
    0 is taken for the running one and never started. *)
Theorem bsp_listed_as_ap k madt rest lapic flags b :
  lapic_phys_ids (k_apic k) = lapic_phys_ids apic_init → madt_inv k [] [] → b ≠ 0 →
  madt_at k madt rest lapic flags [Lapic 0 b 1; Lapic 1 0 1] →
  ∃ k', acpi_parse_apic k madt = Ok k' ∧ g_cpus (k_acpi k') = 2 ∧
    lapic_ids (k_acpi k') !! 1%nat = Some b.
Proof.
  intros Hids Hi Hb Hm. rewrite (acpi_parse_apic_ok _ _ _ _ _ _ Hm).
  assert (Hbsp : lapic_get_phys_id (set_lapic_addr k lapic) 0 = Ok 0).
  { unfold lapic_get_phys_id. cbn [k_apic set_lapic_addr set_apic lapic_phys_ids]. by rewrite Hids. }
  pose proof (handle_entries_ok (set_lapic_addr k lapic) [Lapic 0 b 1; Lapic 1 0 1] [] [] 0
    (madt_inv_acpi k (set_lapic_addr k lapic) [] [] eq_refl Hi) Hbsp) as Hw.
  assert (Ea : aps 0 [Lapic 0 b 1; Lapic 1 0 1] = [b]).
  { unfold aps. cbn. destruct (Z.eqb_spec b 0); [done|reflexivity]. }
  rewrite Ea in Hw. cbn [app] in Hw.
  assert (Hnp : ∀ m, handle_entries (set_lapic_addr k lapic) [Lapic 0 b 1; Lapic 1 0 1] ≠ Panic m).
  { intros m. cbn [handle_entries handle_entry]. change (1 .& 1 =? 0) with false. cbv iota.
    rewrite Hbsp, bind_ok. destruct (Z.eqb_spec b 0); [done|].
    rewrite (add_cpu_ok _ [] [] b (madt_inv_acpi k (set_lapic_addr k lapic) [] [] eq_refl Hi)). cbn [length].
    case_bool_decide; [done|]. rewrite bind_ok.
    change (lapic_get_phys_id (set_g_cpus (set_lapic_addr k lapic) _ _) 0) with
      (lapic_get_phys_id (set_lapic_addr k lapic) 0). rewrite Hbsp, bind_ok. discriminate. }
  destruct (handle_entries _ _) as [k'|m| |].
  - exists k'. split; [done|]. destruct Hw as [_ H1 H2 _ _ _ _ _]. split; [exact H2|].
    by apply (H1 0%nat).
  - by destruct (Hnp m).
  - cbn in Hw. lia.
  - destruct Hw.
Qed.
End acpi_properties.

(** ** Witnesses *)

(** Memory that holds the bytes [bs] at [base] and zeros elsewhere. *)
Definition memory_of (base : Z) (bs : list Z) : Firmware := {|
  fw_byte := fun pa => u8 (if pa <? base then 0 else default 0 (bs !! Z.to_nat (pa - base)));
  fw_byte_u8 := fun pa => u8_range _
|}.

Definition sample_entries : list madt_entry :=
  [Lapic 0 0 1; Lapic 1 4 1; Other 4 [0xFF; 0; 0; 1]; Lapic 2 6 0; Ioapic 1 0xFEC00000 0; Override 0 2 10].
Definition sample_madt : list Z :=
  encode_madt (replicate 28 0) 0xFEE00000 1 sample_entries.
Definition two_cpus : list madt_entry := [Lapic 0 5 1; Lapic 1 0 1].
Definition two_cpus_madt : list Z := encode_madt (replicate 28 0) 0xFEE00000 1 two_cpus.

Definition fw_sample : Firmware := memory_of 0x9000 sample_madt.
Definition fw_two : Firmware := memory_of 0x9000 two_cpus_madt.
Definition fw_zero : Firmware :=
  memory_of 0x9000 (le 4 0x43495041 ++ le 4 60 ++ replicate 36 0 ++ [9; 0]).
Definition fw_rsdp : Firmware := memory_of 0xE0030 (le 8 RSDP_SIGNATURE).

Lemma boot_madt_inv : madt_inv boot_kernel [] [].
Proof. by split; try (cbn; lia). Qed.

Lemma sample_madt_at :
  madt_at (HF := fw_sample) boot_kernel 0x9000 (replicate 28 0) 0xFEE00000 1 sample_entries.
Proof.
  split; [|reflexivity|unfold is_u32; lia|vm_compute; reflexivity|].
  - unfold sample_entries. repeat (apply Forall_cons; split); [ | | | | | |apply Forall_nil_2];
      try (cbn; unfold is_u8, is_u16, is_u32; lia).
    split; [lia|]. split; [cbn; lia|]. intros b Hb.
    repeat (apply elem_of_cons in Hb as [->|Hb]; [unfold is_u8; lia|]). by apply elem_of_nil in Hb.
  - apply bytes_inb_sound; [lia|vm_compute; reflexivity|vm_compute; reflexivity].
Qed.

Lemma acpi_parse_apic_refines_witness :
  ∃ k', acpi_parse_apic (HF := fw_sample) boot_kernel 0x9000 = Ok k' ∧ g_cpus (k_acpi k') = 2 ∧
    lapic_ids (k_acpi k') !! 1%nat = Some 4 ∧ lapic_addr (k_apic k') = 0xFEE00000.
Proof.
  rewrite (acpi_parse_apic_refines (HF := fw_sample) boot_kernel 0x9000 _ _ _ _ 0 sample_madt_at);
    [|split; cbn; lia|reflexivity].
  eexists. split; [reflexivity|]. split; [reflexivity|]. split; reflexivity.
Defined.

Lemma madt_spec_witness :
  wpx (acpi_parse_apic (HF := fw_sample) boot_kernel 0x9000) (fun k' => g_cpus (k_acpi k') = 2 ∧
    acpi_irq_to_gsi k' 0 = Ok (2, 10) ∧ acpi_irq_to_gsi k' 4 = Ok (4, 0)) madt_message False.
Proof.
  pose proof (madt_spec (HF := fw_sample) boot_kernel 0x9000 _ _ _ _ 0 sample_madt_at boot_madt_inv eq_refl) as [Hw _].
  apply (wpx_mono _ _ _ _ _ _ _ Hw).
  - intros k' (H1 & _ & H2). split; [rewrite H1; reflexivity|]. rewrite !H2. split; reflexivity.
  - intros m Hm. exact Hm.
  - intros [H|H]; revert H; vm_compute; lia.
Defined.

Lemma acpi_parse_apic_zero_length_witness :
  acpi_parse_apic (HF := fw_zero) boot_kernel 0x9000 = Hang.
Proof.
  apply (acpi_parse_apic_zero_length (HF := fw_zero) boot_kernel 0x9000 60 0 (0x9000 + 44) 9);
    [vm_compute; reflexivity|vm_compute; reflexivity|reflexivity|reflexivity|unfold is_u64; lia|lia
    |vm_compute; reflexivity|vm_compute; reflexivity].
Defined.

Lemma acpi_init_search_witness :
  acpi_init (HF := fw_rsdp) boot_kernel 0 =
    ('(_, k') ← acpi_parse_rsdp (HF := fw_rsdp) boot_kernel 0xE0030; Ok (1 <? g_cpus (k_acpi k'), k')).
Proof.
  apply (acpi_init_search (HF := fw_rsdp) boot_kernel 3). split; [lia| |intros _; vm_compute; reflexivity].
  intros j Hj. exists 0. assert (j = 0 ∨ j = 1 ∨ j = 2) as [->|[->| ->]] by lia;
    (split; [vm_compute; reflexivity|discriminate]).
Defined.

Lemma bsp_listed_as_ap_witness :
  ∃ k', acpi_parse_apic (HF := fw_two) boot_kernel 0x9000 = Ok k' ∧ lapic_ids (k_acpi k') !! 1%nat = Some 5.
Proof.
  destruct (bsp_listed_as_ap (HF := fw_two) boot_kernel 0x9000 (replicate 28 0) 0xFEE00000 1 5)
    as (k' & E & _ & Hid); [reflexivity|exact boot_madt_inv|lia| |exists k'; by split].
  split; [|reflexivity|unfold is_u32; lia|vm_compute; reflexivity|].
  - repeat (apply Forall_cons; split); [ | |apply Forall_nil_2]; cbn; unfold is_u8, is_u32; lia.
  - apply bytes_inb_sound; [lia|vm_compute; reflexivity|vm_compute; reflexivity].
Defined.
