(* ===== verification/Descriptors.v ===== *)
(** * Descriptor tables

    Models [arch/x86_64/cpu/mmu.c], the structures of
    [arch/x86_64/include/cpu.h], and [idt_init], [pic_init], [pit_init],
    [interrupt_init] and [isr_handler] of [arch/x86_64/interrupt/interrupt.c]. A
    descriptor table is an array of 64-bit words; a structure of bit fields is
    a list of positions and widths, and an assignment to a field changes those
    bits of the descriptor alone. *)

From S2P Require Import Prelude Layout Bits Spinlock Physical Mmu Paging Kernel Apic.

Local Open Scope Z_scope.
Local Open Scope c_scope.

(** ** Bit fields *)

(** A field of a packed structure: its lowest bit and its width. *)
Record bitfield := BitField {
  bf_off : Z;
  bf_len : Z
}.

Definition get_field (f : bitfield) (w : Z) : Z := Z.shiftr w (bf_off f) .& Z.ones (bf_len f).
Definition put_field (f : bitfield) (w v : Z) : Z :=
  Z.lor (Z.ldiff w (Z.shiftl (Z.ones (bf_len f)) (bf_off f)))
        (Z.shiftl (Z.land v (Z.ones (bf_len f))) (bf_off f)).

(** ** include/cpu.h *)

Definition GDT_ENTRY_NR : Z := 512.
Definition IDT_ENTRY_NR : Z := 256.
Definition GDT_START : Z := 3.

(** [sizeof(tss_t)], packed: a reserved word, three stack pointers, a reserved
    word of 64 bits, seven IST entries, two reserved words, the I/O map base. *)
Definition TSS_SIZE : Z := 4 + 3 * 8 + 8 + 7 * 8 + 8 + 2 + 2.

Module tss_desc.
Definition limit0 : bitfield := BitField 0 16.
Definition base0 : bitfield := BitField 16 24.
Definition type : bitfield := BitField 40 4.
Definition zero0 : bitfield := BitField 44 1.
Definition dpl : bitfield := BitField 45 2.
Definition p : bitfield := BitField 47 1.
Definition limit1 : bitfield := BitField 48 4.
Definition avl : bitfield := BitField 52 1.
Definition zero1 : bitfield := BitField 53 2.
Definition g : bitfield := BitField 55 1.
Definition base1 : bitfield := BitField 56 40.
Definition reserved0 : bitfield := BitField 96 32.
End tss_desc.

Module seg_desc.
Definition limit0 : bitfield := BitField 0 16.
Definition base0 : bitfield := BitField 16 24.
Definition type : bitfield := BitField 40 4.
Definition s : bitfield := BitField 44 1.
Definition dpl : bitfield := BitField 45 2.
Definition p : bitfield := BitField 47 1.
Definition limit1 : bitfield := BitField 48 4.
Definition avl : bitfield := BitField 52 1.
Definition l : bitfield := BitField 53 1.
Definition db : bitfield := BitField 54 1.
Definition g : bitfield := BitField 55 1.
Definition base1 : bitfield := BitField 56 8.
End seg_desc.

Module idt_entry.
Definition offset0 : bitfield := BitField 0 16.
Definition selector : bitfield := BitField 16 16.
Definition ist : bitfield := BitField 32 3.
Definition zero0 : bitfield := BitField 35 5.
Definition type : bitfield := BitField 40 4.
Definition zero1 : bitfield := BitField 44 1.
Definition dpl : bitfield := BitField 45 2.
Definition p : bitfield := BitField 47 1.
Definition offset1 : bitfield := BitField 48 16.
Definition offset2 : bitfield := BitField 64 32.
Definition reserved : bitfield := BitField 96 32.
End idt_entry.

(** Entry [i] of a table of segment descriptors, and an assignment to one of its fields. *)
Definition seg_get (t : u64array) (i : Z) (f : bitfield) : outcome Z :=
  w ← arr_get t i; Ok (get_field f w).
Definition seg_put (t : u64array) (i : Z) (f : bitfield) (v : Z) : outcome u64array :=
  w ← arr_get t i; arr_set t i (put_field f w v).

(** A descriptor of 16 bytes at entry [i]. *)
Definition wide_get (t : u64array) (i : Z) : outcome Z :=
  lo ← arr_get t i; hi ← arr_get t (i + 1); Ok (lo .| Z.shiftl hi 64).
Definition wide_put (t : u64array) (i : Z) (f : bitfield) (v : Z) : outcome u64array :=
  w ← wide_get t i;
  let w := put_field f w v in
  t ← arr_set t i (u64 w);
  arr_set t (i + 1) (u64 (Z.shiftr w 64)).

(** A sequence of assignments, in the order of the code. *)
Fixpoint wide_puts (t : u64array) (i : Z) (l : list (bitfield * Z)) : outcome u64array :=
  match l with
  | [] => Ok t
  | (f, v) :: l => t ← wide_put t i f v; wide_puts t i l
  end.

(** ** mmu.c *)

Record gdt_table := GdtTable {
  gdt : u64array;
  gdt_lock : spinlock
}.

Definition fill_tss_desc (t : u64array) (i tss_p : Z) : outcome u64array :=
  let limit := TSS_SIZE - 1 in
  t ← wide_puts t i [
    (tss_desc.limit0, limit .& 0xFFFF);
    (tss_desc.limit1, (limit >>w 16) .& 0xF);
    (tss_desc.base0, tss_p .& 0xFFFFFF);
    (tss_desc.base1, tss_p >>w 24);
    (tss_desc.p, 1);
    (tss_desc.type, 9);
    (tss_desc.zero0, 0);
    (tss_desc.dpl, 0);
    (tss_desc.avl, 0);
    (tss_desc.zero1, 0);
    (tss_desc.g, 0);
    (tss_desc.reserved0, 0)];
  seg_put t (i + 1) seg_desc.p 1.

(** [!gdt_ptr[i].p && !gdt_ptr[i + 1].p] *)
Definition tss_slot_free (t : u64array) (i : Z) : outcome bool :=
  p ← seg_get t i seg_desc.p;
  if negb (p =? 0) then Ok false
  else p ← seg_get t (i + 1) seg_desc.p; Ok (p =? 0).

Definition tss_slot_step (t : u64array) (tss_p : Z) (i : Z) : outcome (Z + option (Z * u64array)) :=
  if i <? GDT_ENTRY_NR - 1 then
    free ← tss_slot_free t i;
    if (free : bool) then
      t ← fill_tss_desc t i tss_p;
      Ok (inr (Some (u16 (Z.shiftl i 3), t)))
    else Ok (inl (u16 (i + 1)))
  else Ok (inr None).

Definition alloc_tss_desc (d : gdt_table) (tss_p : Z) : outcome (Z * gdt_table) :=
  l ← spin_lock (gdt_lock d);
  found ← while (tss_slot_step (gdt d) tss_p) GDT_START;
  match found with
  | Some (sel, t) => Ok (sel, GdtTable t (spin_unlock l))
  | None => Panic "out of GDT entries"
  end.

Definition get_gdt_tss_base (d : gdt_table) (sel : Z) : outcome Z :=
  entry ← wide_get (gdt d) (sel >>w 3);
  let base := get_field tss_desc.base1 entry in
  let base := (base <<w 24) .| get_field tss_desc.base0 entry in
  Ok base.

(** *** Memory types *)

Definition IA32_MTRRCAP : Z := 0xFE.
Definition IA32_MTRR_DEF_TYPE : Z := 0x2FF.
Definition IA32_MTRR_PHYSMASK (n : Z) : Z := 0x201 + Z.shiftl n 1.

Section machine.
Context {A : Type} {HD : Devices}.
Implicit Types k : kernel A.

Definition wrmsr k (msr val : Z) : kernel A := add_io k (Wrmsr msr val).

Definition mtrr_mask_step (cnt : Z) (st : Z * kernel A) : outcome ((Z * kernel A) + kernel A) :=
  let '(i, k) := st in
  if i <? cnt then Ok (inl (u8 (i + 1), wrmsr k (IA32_MTRR_PHYSMASK i) 0)) else Ok (inr k).

Definition mtrr_config k : outcome (kernel A) :=
  let k := wrmsr k IA32_MTRR_DEF_TYPE 0x6 in
  let cnt := u8 (msr_in (k_io k) IA32_MTRRCAP .& 0xFF) in
  k ← while (mtrr_mask_step cnt) (0, k);
  Ok (wrmsr k IA32_MTRR_DEF_TYPE 0x806).

(** ** interrupt.c *)

Definition INTERRUPT_GATE_TYPE : Z := 0xE.
Definition PIC1_BASE_IRQ : Z := 0x20.
Definition PIC2_BASE_IRQ : Z := 0x28.
Definition PIT_FREQ : Z := 1193182.
Definition HZ : Z := 100.

Definition idt_set_entry (t : u64array) (index type handler : Z) : outcome u64array :=
  let base := handler in
  wide_puts t (2 * index) [
    (idt_entry.offset0, u16 base);
    (idt_entry.selector, 0x8);
    (idt_entry.ist, 0);
    (idt_entry.zero0, 0);
    (idt_entry.type, type);
    (idt_entry.zero1, 0);
    (idt_entry.dpl, 0);
    (idt_entry.p, 1);
    (idt_entry.offset1, u16 (base >>w 16));
    (idt_entry.offset2, u32 (base >>w 32));
    (idt_entry.reserved, 0)].

Definition idt_step (int_table : list Z) (st : Z * u64array) : outcome ((Z * u64array) + u64array) :=
  let '(i, t) := st in
  if i <? IDT_ENTRY_NR then
    handler ← list_get int_table i;
    t ← idt_set_entry t i INTERRUPT_GATE_TYPE handler;
    Ok (inl (u16 (i + 1), t))
  else Ok (inr t).

(** [lidt]: the limit and the base the register gets. *)
Record idt_desc := IdtDesc {
  idtr_limit : Z;
  idtr_base : Z
}.

(** [int_table] is the table of entry points of [isr.S], [idt_ptr] the address of the table. *)
Definition idt_init (t : u64array) (int_table : list Z) (idt_ptr : Z) : outcome (u64array * idt_desc) :=
  t ← while (idt_step int_table) (0, t);
  Ok (t, IdtDesc (u16 (IDT_ENTRY_NR * 16 - 1)) idt_ptr).

Definition pit_init k : kernel A :=
  let k := outb k PIT_CMD 0x34 in
  let k := outb k PIT_CHANNEL0 (u8 ((PIT_FREQ / HZ) .& 0xFF)) in
  outb k PIT_CHANNEL0 (u8 ((PIT_FREQ / HZ) >>w 8)).

Definition pic_init k : kernel A :=
  let k := outb k PIC1_COMMAND 0x11 in
  let k := outb k PIC1_DATA PIC1_BASE_IRQ in
  let k := outb k PIC1_DATA 0x04 in
  let k := outb k PIC1_DATA 0x0D in
  let k := outb k PIC2_COMMAND 0x11 in
  let k := outb k PIC2_DATA PIC2_BASE_IRQ in
  let k := outb k PIC2_DATA 0x02 in
  outb k PIC2_DATA 0x09.

Definition interrupt_init k (t : u64array) (int_table : list Z) (idt_ptr : Z) :
    outcome (kernel A * u64array * idt_desc) :=
  '(t, idtr) ← idt_init t int_table idt_ptr;
  Ok (pit_init (pic_init k), t, idtr).

Definition isr_handler `{HM : Mmu} k (irq : Z) : outcome (kernel A) :=
  lapic_eoi (add_log k "interrupt %u" [irq]).
End machine.

(** ** Facts on bit fields *)

Definition field_ok (f : bitfield) : Prop := 0 <= bf_off f ∧ 0 <= bf_len f.
Definition field_apart (f g : bitfield) : Prop :=
  bf_off f + bf_len f <= bf_off g ∨ bf_off g + bf_len g <= bf_off f.

Lemma testbit_get f w n : field_ok f → 0 <= n →
  Z.testbit (get_field f w) n = (n <? bf_len f) && Z.testbit w (n + bf_off f).
Proof.
  intros [Ho Hl] Hn. unfold get_field. rewrite Z.land_spec, Z.shiftr_spec, Z.testbit_ones_nonneg by lia.
  apply andb_comm.
Qed.

Lemma testbit_put f w v n : field_ok f → 0 <= n →
  Z.testbit (put_field f w v) n =
    if (bf_off f <=? n) && (n <? bf_off f + bf_len f) then Z.testbit v (n - bf_off f) else Z.testbit w n.
Proof.
  intros [Ho Hl] Hn. unfold put_field. rewrite Z.lor_spec, Z.ldiff_spec, !Z.shiftl_spec, Z.land_spec by lia.
  destruct (Z.leb_spec (bf_off f) n); cbn [andb].
  - rewrite Z.testbit_ones_nonneg by lia. destruct (Z.ltb_spec n (bf_off f + bf_len f)), (Z.ltb_spec (n - bf_off f) (bf_len f)); try lia.
    + by rewrite andb_false_r, andb_true_r.
    + by rewrite andb_true_r, andb_false_r, orb_false_r.
  - rewrite !(Z.testbit_neg_r _ (n - bf_off f)) by lia. by rewrite andb_true_r, orb_false_r.
Qed.

Lemma get_put_eq f w v : field_ok f → get_field f (put_field f w v) = v mod 2 ^ bf_len f.
Proof.
  intros Hf. pose proof Hf as [Ho Hl]. apply Z.bits_inj'. intros n Hn.
  rewrite testbit_get, testbit_put by (done || lia). replace (n + bf_off f - bf_off f) with n by lia.
  destruct (Z.ltb_spec n (bf_len f)) as [Hlt|Hge]; cbn [andb].
  - rewrite (proj2 (Z.leb_le _ _)), (proj2 (Z.ltb_lt _ _)) by lia. cbn [andb]. by rewrite Z.mod_pow2_bits_low.
  - by rewrite Z.mod_pow2_bits_high.
Qed.

Lemma get_put_ne f g w v : field_ok f → field_ok g → field_apart f g →
  get_field g (put_field f w v) = get_field g w.
Proof.
  intros Hf Hg Ha. pose proof Hf as [Ho Hl]. pose proof Hg as [Ho' Hl']. apply Z.bits_inj'. intros n Hn.
  rewrite !testbit_get, testbit_put by (done || lia).
  destruct (Z.ltb_spec n (bf_len g)); cbn [andb]; [|done].
  destruct (Z.leb_spec (bf_off f) (n + bf_off g)), (Z.ltb_spec (n + bf_off g) (bf_off f + bf_len f)); cbn [andb]; try done.
  destruct Ha; lia.
Qed.

(** A field is below the width of the structure. *)
Definition field_in (width : Z) (f : bitfield) : Prop := field_ok f ∧ bf_off f + bf_len f <= width.

Lemma put_field_bound width f w v : field_in width f → 0 <= w < 2 ^ width → 0 <= put_field f w v < 2 ^ width.
Proof.
  intros [Hf Hin] Hw. pose proof Hf as [Ho Hl].
  assert (E : put_field f w v = put_field f w v mod 2 ^ width).
  { apply Z.bits_inj'. intros n Hn. destruct (Z.lt_ge_cases n width) as [Hlt|Hge].
    - by rewrite Z.mod_pow2_bits_low.
    - rewrite Z.mod_pow2_bits_high, testbit_put by (done || lia). destruct (Z.ltb_spec n (bf_off f + bf_len f)); [lia|].
      rewrite andb_false_r. rewrite <- (Z.mod_small w (2 ^ width)) by done. by apply Z.mod_pow2_bits_high; lia. }
  rewrite E. apply Z.mod_pos_bound. lia.
Qed.

(** ** Descriptors of 16 bytes *)

Definition wide (t : u64array) (i : Z) : Z := arr_word t i .| Z.shiftl (arr_word t (i + 1)) 64.

(** What is left when entry [i] takes the value [w]. *)
Record wide_upd (t t' : u64array) (i w : Z) : Prop := WideUpd {
  wu_len : arr_len t' = arr_len t;
  wu_wf : arr_wf t';
  wu_wide : wide t' i = w;
  wu_other j : j ≠ i → j ≠ i + 1 → arr_word t' j = arr_word t j
}.

Definition wide_fields (l : list (bitfield * Z)) : Prop := Forall (fun x => field_in 128 x.1) l.

Lemma wide_join w : 0 <= w < 2 ^ 128 → u64 w .| Z.shiftl (u64 (Z.shiftr w 64)) 64 = w.
Proof.
  intros Hw. apply Z.bits_inj'. intros n Hn.
  rewrite Z.lor_spec, Z.shiftl_spec, testbit_u64 by done. destruct (Z.ltb_spec n 64) as [Hlt|Hge]; cbn [andb].
  - by rewrite (Z.testbit_neg_r _ (n - 64)), orb_false_r by lia.
  - rewrite testbit_u64, Z.shiftr_spec by lia. replace (n - 64 + 64) with n by lia. cbn [orb].
    destruct (Z.ltb_spec (n - 64) 64); [done|]. rewrite <- (Z.mod_small w (2 ^ 128)) by done.
    by rewrite Z.mod_pow2_bits_high by lia.
Qed.

Lemma wide_range t i : arr_wf t → 0 <= wide t i < 2 ^ 128.
Proof.
  intros Hwf. pose proof (Hwf i) as H0. pose proof (Hwf (i + 1)) as H1. unfold wide, is_u64 in *.
  rewrite Z.shiftl_mul_pow2 by lia. rewrite <- Z.lxor_lor, <- Z.add_nocarry_lxor; [lia|..].
  all: apply Z.bits_inj'; intros n Hn; rewrite Z.land_spec, Z.bits_0, <- Z.shiftl_mul_pow2, Z.shiftl_spec by lia.
  all: destruct (Z.lt_ge_cases n 64); [rewrite (Z.testbit_neg_r _ (n - 64)) by lia; apply andb_false_r|].
  all: by rewrite (testbit_high (arr_word t i) n) by (done || lia).
Qed.

Lemma wide_put_ok t i f v : arr_wf t → 0 <= i → i + 1 < arr_len t → field_in 128 f →
  ∃ t', wide_put t i f v = Ok t' ∧ wide_upd t t' i (put_field f (wide t i) v).
Proof.
  intros Hwf Hi Hi1 Hf. unfold wide_put, wide_get. rewrite !arr_get_ok, !bind_ok by lia. fold (wide t i).
  pose proof (put_field_bound 128 f (wide t i) v Hf (wide_range t i Hwf)) as Hb. set (w := put_field f (wide t i) v) in *.
  destruct (arr_set_ok t i (u64 w) ltac:(lia)) as (t1 & E1 & L1 & W1). rewrite E1, bind_ok.
  destruct (arr_set_ok t1 (i + 1) (u64 (Z.shiftr w 64)) ltac:(lia)) as (t2 & E2 & L2 & W2).
  exists t2. split; [done|].
  split; [congruence| | |].
  - apply (arr_upd_wf t1 t2 (i + 1) (u64 (Z.shiftr w 64))); [|apply u64_range|by split].
    apply (arr_upd_wf t t1 i (u64 w)); [done|apply u64_range|by split].
  - unfold wide. rewrite !W2, (decide_False (P := i + 1 = i)) by lia.
    rewrite W1, !decide_True by done. by apply wide_join.
  - intros j H1 H2. rewrite W2, W1. by repeat case_decide; try lia.
Qed.

(** The value a sequence of assignments leaves. *)
Definition fill (w : Z) (l : list (bitfield * Z)) : Z := foldl (fun w x => put_field x.1 w x.2) w l.

Lemma wide_puts_ok t i l : arr_wf t → 0 <= i → i + 1 < arr_len t → Forall (fun x => field_in 128 x.1) l →
  ∃ t', wide_puts t i l = Ok t' ∧ wide_upd t t' i (fill (wide t i) l).
Proof.
  intros Hwf Hi Hi1 Hl. revert t Hwf Hi1. induction Hl as [|[f v] l Hf _ IH]; intros t Hwf Hi1.
  - exists t. by split.
  - destruct (wide_put_ok t i f v Hwf Hi Hi1 Hf) as (t1 & E1 & [L1 F1 W1 O1]).
    destruct (IH t1 F1 ltac:(lia)) as (t2 & E2 & [L2 F2 W2 O2]). exists t2. cbn [wide_puts]. rewrite E1, bind_ok.
    split; [done|]. split; [congruence|done| |].
    + by rewrite W2, W1.
    + intros j H1 H2. by rewrite O2, O1.
Qed.

(** Reads a field after a concrete sequence of assignments. *)
Ltac field_side := unfold field_ok, field_apart; cbn; lia.
Ltac read_field :=
  unfold fill; cbn [foldl fst snd]; repeat (rewrite get_put_ne by field_side); rewrite get_put_eq by field_side.
Ltac all_fields := repeat (apply Forall_cons; split; [unfold field_in, field_ok; cbn; lia|]); apply Forall_nil_2.

(** ** Task state segments *)

Definition seg_present (t : u64array) (i : Z) : bool := Z.testbit (arr_word t i) 47.
Definition pair_free (t : u64array) (i : Z) : Prop := seg_present t i = false ∧ seg_present t (i + 1) = false.

Record gdt_ok (d : gdt_table) : Prop := GdtOk {
  gdt_len : arr_len (gdt d) = GDT_ENTRY_NR;
  gdt_wf : arr_wf (gdt d);
  gdt_unlocked : lock_free (gdt_lock d)
}.

Lemma get_p w : get_field seg_desc.p w = if Z.testbit w 47 then 1 else 0.
Proof.
  apply Z.bits_inj'. intros n Hn. rewrite testbit_get by field_side. cbn [seg_desc.p bf_len bf_off].
  destruct (Z.ltb_spec n 1) as [Hlt|Hge]; cbn [andb].
  - replace n with 0 by lia. change (0 + 47) with 47. by destruct (Z.testbit w 47).
  - destruct (Z.testbit w 47); [|by rewrite Z.bits_0]. symmetry. apply (Z.bits_above_log2 1 n); cbn; lia.
Qed.

Lemma seg_get_p t i : 0 <= i < arr_len t → seg_get t i seg_desc.p = Ok (if seg_present t i then 1 else 0).
Proof. intros Hi. unfold seg_get. by rewrite arr_get_ok, bind_ok, get_p. Qed.

Lemma tss_slot_free_ok t i : 0 <= i → i + 1 < arr_len t →
  tss_slot_free t i = Ok (negb (seg_present t i) && negb (seg_present t (i + 1))).
Proof.
  intros Hi Hi1. unfold tss_slot_free. rewrite !seg_get_p, bind_ok by lia.
  destruct (seg_present t i); [done|]. cbn [negb Z.eqb andb]. rewrite bind_ok. by destruct (seg_present t (i + 1)).
Qed.

(** An assignment to a field of the second half. *)
Lemma seg_put_wide t i f v : arr_wf t → 0 <= i → i + 1 < arr_len t → field_in 64 f →
  ∃ t', seg_put t (i + 1) f v = Ok t' ∧ wide_upd t t' i (put_field (BitField (64 + bf_off f) (bf_len f)) (wide t i) v) ∧
    arr_word t' i = arr_word t i ∧ arr_word t' (i + 1) = put_field f (arr_word t (i + 1)) v.
Proof.
  intros Hwf Hi Hi1 Hf. pose proof Hf as [[Ho Hl] Hin]. unfold seg_put. rewrite arr_get_ok, bind_ok by lia.
  destruct (arr_set_ok t (i + 1) (put_field f (arr_word t (i + 1)) v) ltac:(lia)) as (t' & E & L & W).
  exists t'. split; [done|].
  assert (Wi : arr_word t' i = arr_word t i) by (rewrite W, decide_False by lia; done).
  assert (Wi1 : arr_word t' (i + 1) = put_field f (arr_word t (i + 1)) v) by (rewrite W, decide_True by lia; done).
  split; [|done]. split; [done| | |].
  - apply (arr_upd_wf t t' (i + 1) (put_field f (arr_word t (i + 1)) v)); [done| |by split].
    apply (put_field_bound 64); [done|apply Hwf].
  - unfold wide. rewrite Wi, Wi1. apply Z.bits_inj'. intros n Hn.
    rewrite Z.lor_spec, Z.shiftl_spec by done. rewrite (testbit_put (BitField _ _)) by (unfold field_ok; cbn; lia).
    cbn [bf_off bf_len].
    rewrite Z.lor_spec, Z.shiftl_spec by done. destruct (Z.lt_ge_cases n 64) as [Hlt|Hge].
    + rewrite !(Z.testbit_neg_r _ (n - 64)) by lia. destruct (Z.leb_spec (64 + bf_off f) n); [lia|done].
    + rewrite (testbit_high (arr_word t i) n) by (apply Hwf || done). cbn [orb].
      rewrite testbit_put by (unfold field_ok; lia). replace (n - 64 - bf_off f) with (n - (64 + bf_off f)) by lia.
      destruct (Z.leb_spec (bf_off f) (n - 64)), (Z.leb_spec (64 + bf_off f) n), (Z.ltb_spec (n - 64) (bf_off f + bf_len f)),
        (Z.ltb_spec n (64 + bf_off f + bf_len f)); try lia; done.
  - intros j H1 H2. rewrite W, decide_False by lia. done.
Qed.

(** The base a descriptor holds, and what the processor requires of a descriptor
    of an available 64-bit TSS that holds [size] bytes. *)
Definition tss_base (w : Z) : Z := (get_field tss_desc.base1 w <<w 24) .| get_field tss_desc.base0 w.
Definition tss_valid (w size : Z) : Prop :=
  get_field tss_desc.limit0 w + 2 ^ 16 * get_field tss_desc.limit1 w = size - 1 ∧
  get_field tss_desc.g w = 0 ∧ get_field tss_desc.type w = 9 ∧ get_field tss_desc.zero0 w = 0 ∧
  get_field tss_desc.dpl w = 0 ∧ get_field tss_desc.p w = 1.

Lemma tss_base_ok w tss_p : is_u64 tss_p → get_field tss_desc.base1 w = Z.shiftr tss_p 24 →
  get_field tss_desc.base0 w = tss_p mod 2 ^ 24 → tss_base w = tss_p.
Proof.
  intros Hp B1 B0. unfold tss_base. rewrite B1, B0. apply Z.bits_inj'. intros n Hn.
  rewrite Z.lor_spec, testbit_u64, Z.shiftl_spec by done. destruct (Z.lt_ge_cases n 24) as [Hlt|Hge].
  - rewrite (Z.testbit_neg_r _ (n - 24)), andb_false_r by lia. by rewrite Z.mod_pow2_bits_low.
  - rewrite Z.mod_pow2_bits_high, orb_false_r, Z.shiftr_spec by lia. replace (n - 24 + 24) with n by lia.
    destruct (Z.ltb_spec n 64); [done|]. by rewrite testbit_high.
Qed.

(** The assignments of [alloc_tss_desc]. *)
Definition tss_fields (tss_p : Z) : list (bitfield * Z) := [
    (tss_desc.limit0, (TSS_SIZE - 1) .& 0xFFFF); (tss_desc.limit1, ((TSS_SIZE - 1) >>w 16) .& 0xF);
    (tss_desc.base0, tss_p .& 0xFFFFFF); (tss_desc.base1, tss_p >>w 24); (tss_desc.p, 1); (tss_desc.type, 9);
    (tss_desc.zero0, 0); (tss_desc.dpl, 0); (tss_desc.avl, 0); (tss_desc.zero1, 0); (tss_desc.g, 0);
    (tss_desc.reserved0, 0)].

(** The bit of the second half that marks it used is bit 111 of the descriptor. *)
Local Abbreviation tss_word w tss_p :=
  (put_field (BitField (64 + bf_off seg_desc.p) (bf_len seg_desc.p)) (fill w (tss_fields tss_p)) 1).

Lemma tss_word_ok w tss_p : is_u64 tss_p → tss_base (tss_word w tss_p) = tss_p ∧ tss_valid (tss_word w tss_p) TSS_SIZE.
Proof.
  intros Hp. unfold tss_fields. split.
  - apply tss_base_ok; [done|rewrite get_put_ne by field_side; read_field; cbn [tss_desc.base1 tss_desc.base0 bf_len]..].
    + apply Z.mod_small. rewrite Z.shiftr_div_pow2 by lia. unfold is_u64 in Hp. split; [apply Z.div_pos; lia|].
      apply Z.div_lt_upper_bound; lia.
    + change 0xFFFFFF with (Z.ones 24). rewrite Z.land_ones by lia. apply Zmod_mod.
  - unfold tss_valid. rewrite !get_put_ne by field_side. split_and!; [|read_field; reflexivity..].
    assert (H0 : ∀ x y z, x = y → z = 0 → x + 2 ^ 16 * z = y) by (intros; subst; lia).
    apply H0; read_field; reflexivity.
Qed.

Lemma flag_set n w : 0 <= n → get_field (BitField n 1) w = 1 → Z.testbit w n = true.
Proof.
  intros Hn H. apply (f_equal (fun x => Z.testbit x 0)) in H.
  rewrite testbit_get in H by (unfold field_ok; cbn; lia). exact H.
Qed.

Lemma testbit_wide_low t i n : arr_wf t → 0 <= n < 64 → Z.testbit (wide t i) n = Z.testbit (arr_word t i) n.
Proof.
  intros Hwf Hn. unfold wide. rewrite Z.lor_spec, Z.shiftl_spec, (Z.testbit_neg_r _ (n - 64)) by lia. apply orb_false_r.
Qed.

Lemma fill_tss_desc_ok t i tss_p : arr_wf t → 0 <= i → i + 1 < arr_len t → is_u64 tss_p →
  ∃ t' w, fill_tss_desc t i tss_p = Ok t' ∧ wide_upd t t' i w ∧ tss_base w = tss_p ∧ tss_valid w TSS_SIZE ∧
    seg_present t' i = true ∧ seg_present t' (i + 1) = true.
Proof.
  intros Hwf Hi Hi1 Hp. unfold fill_tss_desc. cbv zeta.
  destruct (wide_puts_ok t i (tss_fields tss_p) Hwf Hi Hi1 ltac:(all_fields)) as (t1 & E1 & [L1 F1 W1 O1]).
  unfold tss_fields in E1. rewrite E1, bind_ok.
  destruct (seg_put_wide t1 i seg_desc.p 1 F1 Hi ltac:(lia) ltac:(unfold field_in, field_ok; cbn; lia))
    as (t2 & E2 & [L2 F2 W2 O2] & Ei & Ei1).
  rewrite W1 in W2.
  destruct (tss_word_ok (wide t i) tss_p Hp) as [Hbase Hvalid].
  exists t2, (tss_word (wide t i) tss_p). split; [exact E2|].
  split; [split; [congruence|done|exact W2|intros j H1 H2; by rewrite O2, O1]|].
  split; [done|]. split; [done|]. split.
  - unfold seg_present. rewrite <- testbit_wide_low, W2 by (done || lia).
    assert (H : get_field tss_desc.p (tss_word (wide t i) tss_p) = 1) by apply Hvalid.
    exact (flag_set 47 _ ltac:(lia) H).
  - unfold seg_present. rewrite Ei1, testbit_put by field_side. done.
Qed.

Lemma tss_slot_search t tss_p : arr_len t = GDT_ENTRY_NR → arr_wf t → is_u64 tss_p →
  wp (while (tss_slot_step t tss_p) GDT_START) (fun r =>
    (∃ i t' w, GDT_START <= i < GDT_ENTRY_NR - 1 ∧ pair_free t i ∧ (∀ j, GDT_START <= j < i → ¬ pair_free t j) ∧
       r = Some (8 * i, t') ∧ wide_upd t t' i w ∧ tss_base w = tss_p ∧ tss_valid w TSS_SIZE ∧
       seg_present t' i = true ∧ seg_present t' (i + 1) = true) ∨
    (r = None ∧ ∀ j, GDT_START <= j < GDT_ENTRY_NR - 1 → ¬ pair_free t j)).
Proof.
  intros Hlen Hwf Hp. unfold GDT_START, GDT_ENTRY_NR in *.
  apply (wp_while _ (fun i => 3 <= i <= 511 ∧ ∀ j, 3 <= j < i → ¬ pair_free t j) (fun i => 511 - i));
    [|split; [lia|intros; lia]|lia].
  intros i [Hi Hno]. unfold tss_slot_step, GDT_ENTRY_NR. destruct (Z.ltb_spec i (512 - 1)) as [Hlt|Hge].
  - rewrite tss_slot_free_ok, bind_ok by lia.
    destruct (negb (seg_present t i) && negb (seg_present t (i + 1))) eqn:Ef.
    + destruct (fill_tss_desc_ok t i tss_p Hwf ltac:(lia) ltac:(lia) Hp) as (t' & w & E & H). rewrite E, bind_ok.
      left. exists i, t', w. apply andb_true_iff in Ef as [F1%negb_true_iff F2%negb_true_iff].
      split; [lia|]. split; [by split|]. split; [done|]. split; [|tauto].
      rewrite Z.shiftl_mul_pow2, u16_id by (unfold is_u16; lia). do 2 f_equal. lia.
    + rewrite u16_id by (unfold is_u16; lia). cbn [wp wpx]. split; [|lia]. split; [lia|]. intros j Hj.
      destruct (Z.eq_dec j i) as [->|]; [|apply Hno; lia]. intros [F1 F2]. rewrite F1, F2 in Ef. done.
  - right. split; [done|]. intros j Hj. apply Hno. lia.
Qed.

Lemma get_tss_base d sel i : gdt_ok d → 0 <= i → i + 1 < GDT_ENTRY_NR → sel = 8 * i →
  get_gdt_tss_base d sel = Ok (tss_base (wide (gdt d) i)).
Proof.
  intros Hd Hi Hi1 ->. unfold get_gdt_tss_base. rewrite Z.shiftr_div_pow2 by lia.
  replace (8 * i / 2 ^ 3) with i by dlia. unfold wide_get. by rewrite !arr_get_ok, !bind_ok by (rewrite (gdt_len d Hd); lia).
Qed.

(** The selectors of the installed segments: both halves are marked. *)
Definition installed (d : gdt_table) (sel : Z) : Prop :=
  ∃ i, sel = 8 * i ∧ GDT_START <= i < GDT_ENTRY_NR - 1 ∧ seg_present (gdt d) i = true ∧ seg_present (gdt d) (i + 1) = true.

Lemma alloc_tss_desc_ok d tss_p : gdt_ok d → is_u64 tss_p →
  wpx (alloc_tss_desc d tss_p) (fun '(sel, d') => ∃ i,
      sel = 8 * i ∧ GDT_START <= i < GDT_ENTRY_NR - 1 ∧ pair_free (gdt d) i ∧
      (∀ j, GDT_START <= j < i → ¬ pair_free (gdt d) j) ∧
      gdt_ok d' ∧ installed d' sel ∧ get_gdt_tss_base d' sel = Ok tss_p ∧ tss_valid (wide (gdt d') i) TSS_SIZE ∧
      ∀ j, j ≠ i → j ≠ i + 1 → arr_word (gdt d') j = arr_word (gdt d) j)
    (fun m => m = "out of GDT entries"%string ∧ ∀ j, GDT_START <= j < GDT_ENTRY_NR - 1 → ¬ pair_free (gdt d) j) False.
Proof.
  intros Hd Hp. unfold alloc_tss_desc. rewrite (spin_lock_free _ (gdt_unlocked d Hd)), bind_ok.
  apply wpx_bind. apply (wpx_mono _ _ _ _ _ _ _ (tss_slot_search (gdt d) tss_p (gdt_len d Hd) (gdt_wf d Hd) Hp)); [|by intros m []|done].
  intros r [(i & t' & w & Hi & Hfree & Hfirst & -> & [L F W O] & Hbase & Hval & Hp1 & Hp2)|[-> Hno]]; [|by split].
  assert (Hd' : gdt_ok (GdtTable t' (spin_unlock (Spinlock (u16 (next (gdt_lock d) + 1)) (owner (gdt_lock d)))))).
  { split; cbn; [by rewrite L, (gdt_len d Hd)|done|apply lock_cycle_free, Hd]. }
  exists i. split; [done|]. split; [done|]. split; [done|]. split; [done|]. split; [exact Hd'|].
  split; [by exists i|]. split; [|split; [cbn [gdt]; by rewrite W|done]].
  unfold GDT_START, GDT_ENTRY_NR in Hi. rewrite (get_tss_base _ _ i Hd') by (unfold GDT_ENTRY_NR; lia). cbn [gdt]. by rewrite W, Hbase.
Qed.

Lemma installed_kept d d' i sel b : gdt_ok d → gdt_ok d' → GDT_START <= i < GDT_ENTRY_NR - 1 → pair_free (gdt d) i →
  (∀ j, j ≠ i → j ≠ i + 1 → arr_word (gdt d') j = arr_word (gdt d) j) →
  installed d sel → get_gdt_tss_base d sel = Ok b → installed d' sel ∧ get_gdt_tss_base d' sel = Ok b.
Proof.
  intros Hd Hd' Hi [F1 F2] Ho (j & -> & Hj & P1 & P2) E. unfold GDT_START, GDT_ENTRY_NR in *.
  assert (Hne : j ≠ i ∧ j ≠ i + 1 ∧ j + 1 ≠ i).
  { split_and!; intros E2; [subst j|subst j|subst i]; congruence. }
  assert (W1 : arr_word (gdt d') j = arr_word (gdt d) j) by (apply Ho; lia).
  assert (W2 : arr_word (gdt d') (j + 1) = arr_word (gdt d) (j + 1)) by (apply Ho; lia).
  split.
  - exists j. unfold seg_present in *. by rewrite W1, W2.
  - rewrite (get_tss_base d _ j) in E by (done || unfold GDT_ENTRY_NR; lia).
    rewrite (get_tss_base d' _ j) by (done || unfold GDT_ENTRY_NR; lia). unfold wide in *. by rewrite W1, W2.
Qed.

(** ** Interrupt gates *)

(** What the processor takes from a gate. *)
Definition gate_offset (w : Z) : Z :=
  get_field idt_entry.offset0 w + 2 ^ 16 * get_field idt_entry.offset1 w + 2 ^ 32 * get_field idt_entry.offset2 w.
Definition gate_valid (w handler : Z) : Prop :=
  gate_offset w = handler ∧ get_field idt_entry.type w = INTERRUPT_GATE_TYPE ∧ get_field idt_entry.selector w = 8 ∧
  get_field idt_entry.p w = 1 ∧ get_field idt_entry.dpl w = 0 ∧ get_field idt_entry.ist w = 0.

Definition gate_fields (base type : Z) : list (bitfield * Z) := [
    (idt_entry.offset0, u16 base); (idt_entry.selector, 0x8); (idt_entry.ist, 0); (idt_entry.zero0, 0);
    (idt_entry.type, type); (idt_entry.zero1, 0); (idt_entry.dpl, 0); (idt_entry.p, 1);
    (idt_entry.offset1, u16 (base >>w 16)); (idt_entry.offset2, u32 (base >>w 32)); (idt_entry.reserved, 0)].

Lemma gate_fields_ok w base : is_u64 base → gate_valid (fill w (gate_fields base INTERRUPT_GATE_TYPE)) base.
Proof.
  intros Hb. unfold gate_valid, gate_fields. split_and!; [|read_field; reflexivity..].
  assert (H : ∀ x y z, x = base mod 2 ^ 16 → y = base / 2 ^ 16 mod 2 ^ 16 → z = base / 2 ^ 32 →
    x + 2 ^ 16 * y + 2 ^ 32 * z = base) by (unfold is_u64 in Hb; intros x y z -> -> ->; dlia).
  apply H; read_field; cbn [idt_entry.offset0 idt_entry.offset1 idt_entry.offset2 bf_len].
  - apply Zmod_mod.
  - rewrite Z.shiftr_div_pow2 by lia. apply Zmod_mod.
  - rewrite Z.shiftr_div_pow2 by lia. unfold u32, is_u64 in *. rewrite Zmod_mod. apply Z.mod_small. dlia.
Qed.

Lemma idt_set_entry_ok t i handler : arr_wf t → 0 <= i → 2 * i + 1 < arr_len t → is_u64 handler →
  ∃ t' w, idt_set_entry t i INTERRUPT_GATE_TYPE handler = Ok t' ∧ wide_upd t t' (2 * i) w ∧ gate_valid w handler.
Proof.
  intros Hwf Hi Hi1 Hh.
  destruct (wide_puts_ok t (2 * i) (gate_fields handler INTERRUPT_GATE_TYPE) Hwf ltac:(lia) Hi1 ltac:(all_fields)) as (t1 & E1 & U).
  exists t1, (fill (wide t (2 * i)) (gate_fields handler INTERRUPT_GATE_TYPE)). split; [exact E1|]. split; [exact U|].
  by apply gate_fields_ok.
Qed.

Definition idt_filled (t : u64array) (int_table : list Z) (n : Z) : Prop :=
  ∀ i h, 0 <= i < n → int_table !! Z.to_nat i = Some h → gate_valid (wide t (2 * i)) h.

Lemma idt_init_ok t int_table idt_ptr : arr_wf t → arr_len t = 2 * IDT_ENTRY_NR →
  Z.of_nat (length int_table) = IDT_ENTRY_NR → Forall is_u64 int_table →
  wp (idt_init t int_table idt_ptr) (fun '(t', d) =>
    idt_filled t' int_table IDT_ENTRY_NR ∧ d = IdtDesc 4095 idt_ptr).
Proof.
  intros Hwf Hlen Htl Htab. unfold idt_init. apply wp_bind. unfold IDT_ENTRY_NR in *.
  apply (wp_while _ (fun '(i, t') => 0 <= i <= 256 ∧ arr_wf t' ∧ arr_len t' = 512 ∧ idt_filled t' int_table i)
    (fun st => 256 - st.1)).
  - intros [i t'] (Hi & Hwf' & Hlen' & Hf). unfold idt_step, IDT_ENTRY_NR. destruct (Z.ltb_spec i 256) as [Hlt|Hge].
    + destruct (list_get_ok int_table i ltac:(lia)) as (h & E & Hh). rewrite E, bind_ok.
      destruct (idt_set_entry_ok t' i h Hwf' ltac:(lia) ltac:(lia)) as (t1 & w & E1 & [L F W O] & Hg).
      { rewrite Forall_forall in Htab. apply Htab. by eapply list_elem_of_lookup_2. }
      rewrite E1, bind_ok, u16_id by (unfold is_u16; lia). cbn [wp wpx fst]. split; [|lia].
      split; [lia|]. split; [done|]. split; [lia|]. intros j hj Hj Ej. destruct (Z.eq_dec j i) as [->|Hne].
      * rewrite Hh in Ej. injection Ej as <-. by rewrite W.
      * unfold wide. rewrite !O by lia. apply (Hf j hj); [lia|done].
    + cbn [wp wpx]. split; [|done]. by replace 256 with i by lia.
  - split; [done|]. split; [done|]. split; [lia|]. intros j h Hj. lia.
  - cbn. lia.
Qed.

(** ** Properties *)

(** C35: [alloc_tss_desc] takes the first two consecutive entries of the GDT that
    are both free, from entry 3 on, and no other; it panics exactly when there
    are none. The descriptor it writes is one the processor accepts for an
    available 64-bit TSS of 104 bytes, [get_gdt_tss_base] of the selector it
    returns gives the address back for any 64-bit address (although the mark
    on the second half is a bit of the same descriptor), and the base of
    every segment installed before stays readable. *)
Theorem alloc_tss_desc_spec d tss_p : gdt_ok d → is_u64 tss_p →
  wpx (alloc_tss_desc d tss_p) (fun '(sel, d') => ∃ i,
      sel = 8 * i ∧ GDT_START <= i < GDT_ENTRY_NR - 1 ∧ pair_free (gdt d) i ∧
      (∀ j, GDT_START <= j < i → ¬ pair_free (gdt d) j) ∧
      gdt_ok d' ∧ installed d' sel ∧ get_gdt_tss_base d' sel = Ok tss_p ∧ tss_valid (wide (gdt d') i) TSS_SIZE ∧
      (∀ j, j ≠ i → j ≠ i + 1 → arr_word (gdt d') j = arr_word (gdt d) j) ∧
      ∀ sel' b, installed d sel' → get_gdt_tss_base d sel' = Ok b → installed d' sel' ∧ get_gdt_tss_base d' sel' = Ok b)
    (fun m => m = "out of GDT entries"%string ∧ ∀ j, GDT_START <= j < GDT_ENTRY_NR - 1 → ¬ pair_free (gdt d) j) False.
Proof.
  intros Hd Hp. apply (wpx_post _ _ _ _ _ (alloc_tss_desc_ok d tss_p Hd Hp)).
  intros [sel d'] (i & Hsel & Hi & Hfree & Hfirst & Hd' & Hins & Hget & Hval & Hsame). exists i. split_and!; try done; try lia.
  intros sel' b. by apply (installed_kept d d' i).
Qed.

(** The table of the boot code: null, code and data descriptors. *)
Definition boot_gdt : gdt_table :=
  GdtTable (U64Array 512 {[ 1 := 0x00209A0000000000; 2 := 0x0000920000000000 ]}) SPINLOCK_UNLOCKED.

Lemma boot_gdt_ok : gdt_ok boot_gdt.
Proof. split; [done|by apply arr_wfb_sound|apply lock_free_unlocked]. Qed.

Lemma alloc_tss_desc_spec_witness : ∃ d', alloc_tss_desc boot_gdt 0xFFFFFFFFC0123456 = Ok (24, d') ∧
  get_gdt_tss_base d' 24 = Ok 0xFFFFFFFFC0123456.
Proof.
  pose proof (alloc_tss_desc_spec boot_gdt 0xFFFFFFFFC0123456 boot_gdt_ok ltac:(unfold is_u64; lia)) as Hw.
  assert (Hs : match alloc_tss_desc boot_gdt 0xFFFFFFFFC0123456 with Ok x => x.1 = 24 | _ => False end) by (vm_compute; reflexivity).
  destruct (alloc_tss_desc boot_gdt 0xFFFFFFFFC0123456) as [[sel d']| | |]; [|destruct Hs..].
  cbn [fst] in Hs. subst sel. exists d'. split; [reflexivity|]. destruct Hw as (i & _ & _ & _ & _ & _ & _ & H & _). exact H.
Defined.

(** [interrupt_init]: gate [i] of the IDT is an interrupt gate the processor
    accepts, to the handler [int_table[i]] in code segment 8, for each of the
    256 vectors; the register gets the size of the table; the interrupt lines
    of the two controllers start at vectors 0x20 and 0x28, the second hangs on
    line 2 of the first; and the timer counts 1193182 / 100 between
    interrupts. *)
Theorem interrupt_init_spec {A : Type} (k : kernel A) t int_table idt_ptr : arr_wf t → arr_len t = 2 * IDT_ENTRY_NR →
  Z.of_nat (length int_table) = IDT_ENTRY_NR → Forall is_u64 int_table →
  ∃ k' t', interrupt_init k t int_table idt_ptr = Ok (k', t', IdtDesc 4095 idt_ptr) ∧
    idt_filled t' int_table IDT_ENTRY_NR ∧
    ∃ lo hi, lo + 2 ^ 8 * hi = PIT_FREQ / HZ ∧ is_u8 lo ∧ is_u8 hi ∧
    rev (k_io k') = rev (k_io k) ++ [
      Outb PIC1_COMMAND 0x11; Outb PIC1_DATA 0x20; Outb PIC1_DATA (2 ^ 2); Outb PIC1_DATA 0x0D;
      Outb PIC2_COMMAND 0x11; Outb PIC2_DATA 0x28; Outb PIC2_DATA 2; Outb PIC2_DATA 0x09;
      Outb PIT_CMD 0x34; Outb PIT_CHANNEL0 lo; Outb PIT_CHANNEL0 hi].
Proof.
  intros Hwf Hlen Htl Htab. destruct (proj1 (wp_ok _ _) (idt_init_ok t int_table idt_ptr Hwf Hlen Htl Htab)) as ([t' d] & E & Hf & ->).
  unfold interrupt_init. rewrite E, bind_ok. eexists _, t'. split; [reflexivity|]. split; [exact Hf|].
  exists 0x9B, 0x2E. split; [reflexivity|]. split; [done|]. split; [done|]. cbn [rev k_io pit_init pic_init outb add_io].
  by rewrite <- !app_assoc.
Qed.

Definition empty_kernel : kernel () :=
  Kernel (Vm ∅ 0 SPINLOCK_UNLOCKED [] tt) apic_init acpi_statics [] [].
Definition sample_handlers : list Z := (fun i => 0xFFFFFFFFC0101000 + 16 * i) <$> seqZ 0 256.

Lemma interrupt_init_spec_witness : ∃ k' t',
  interrupt_init empty_kernel (U64Array 512 ∅) sample_handlers 0xFFFFFFFFC0110000 =
    Ok (k', t', IdtDesc 4095 0xFFFFFFFFC0110000) ∧ gate_offset (wide t' 28) = 0xFFFFFFFFC01010E0.
Proof.
  assert (Hw : Forall is_u64 sample_handlers).
  { apply Forall_forall. intros x Hx. apply list_elem_of_fmap in Hx as (i & -> & Hi). apply elem_of_seqZ in Hi. unfold is_u64. lia. }
  destruct (interrupt_init_spec empty_kernel (U64Array 512 ∅) sample_handlers 0xFFFFFFFFC0110000 ltac:(by apply arr_wfb_sound)
    ltac:(done) ltac:(reflexivity) Hw) as (k' & t' & E & Hf & _).
  exists k', t'. split; [exact E|]. destruct (Hf 14 0xFFFFFFFFC01010E0 ltac:(unfold IDT_ENTRY_NR; lia) ltac:(reflexivity)) as [H _]. exact H.
Defined.

(** The variable-range registers [0 .. n-1], the latest first. *)
Fixpoint masked (n : nat) : list io_event :=
  match n with
  | O => []
  | S n => Wrmsr (IA32_MTRR_PHYSMASK (Z.of_nat n)) 0 :: masked n
  end.

Lemma mtrr_masks_ok {A : Type} (k : kernel A) cnt : is_u8 cnt →
  wp (while (mtrr_mask_step cnt) (0, k)) (fun k' =>
    k' = Kernel (k_vm k) (k_apic k) (k_acpi k) (masked (Z.to_nat cnt) ++ k_io k) (k_log k)).
Proof.
  unfold is_u8. intros Hc. apply (wp_while _ (fun '(i, k') => 0 <= i <= cnt ∧
    k' = Kernel (k_vm k) (k_apic k) (k_acpi k) (masked (Z.to_nat i) ++ k_io k) (k_log k)) (fun st => cnt - st.1)).
  - intros [i k'] [Hi ->]. unfold mtrr_mask_step. destruct (Z.ltb_spec i cnt) as [Hlt|Hge].
    + rewrite u8_id by (unfold is_u8; lia). cbn [wp wpx fst]. split; [|lia]. split; [lia|].
      replace (Z.to_nat (i + 1)) with (S (Z.to_nat i)) by lia. cbn [masked]. rewrite Z2Nat.id by lia. reflexivity.
    + cbn [wp wpx]. by replace cnt with i by lia.
  - split; [lia|]. by destruct k.
  - cbn. lia.
Qed.

(** [mtrr_config] runs to the end for every number of variable ranges the
    processor reports (8 bits): it turns the memory type ranges off with the
    default type write-back, clears the mask of each variable range once,
    while they are off, and turns them on again with nothing but the
    default. *)
Theorem mtrr_config_spec {A : Type} {HD : Devices} (k : kernel A) :
  ∃ n k', mtrr_config k = Ok k' ∧ k_vm k' = k_vm k ∧ k_apic k' = k_apic k ∧ k_acpi k' = k_acpi k ∧
    Z.of_nat n = msr_in (Wrmsr IA32_MTRR_DEF_TYPE 0x6 :: k_io k) IA32_MTRRCAP mod 2 ^ 8 ∧
    k_io k' = Wrmsr IA32_MTRR_DEF_TYPE 0x806 :: masked n ++ Wrmsr IA32_MTRR_DEF_TYPE 0x6 :: k_io k.
Proof.
  unfold mtrr_config. cbv zeta. change (k_io (wrmsr k _ _)) with (Wrmsr IA32_MTRR_DEF_TYPE 0x6 :: k_io k).
  set (m := msr_in _ _). change 0xFF with (Z.ones 8). rewrite Z.land_ones by lia.
  pose proof (Z.mod_pos_bound m (2 ^ 8) ltac:(lia)) as Hm. rewrite u8_id by exact Hm.
  destruct (proj1 (wp_ok _ _) (mtrr_masks_ok (wrmsr k IA32_MTRR_DEF_TYPE 6) (m mod 2 ^ 8) Hm)) as (k' & E & ->).
  exists (Z.to_nat (m mod 2 ^ 8)). eexists. rewrite E, bind_ok. split; [reflexivity|].
  do 3 (split; [reflexivity|]). split; [lia|reflexivity].
Qed.
