(* ===== verification/Smp.v ===== *)
(** * Starting the other processors, and the barrier

    Models [arch/x86_64/smp/smp.c], [acpi_sec_init] of [kernel/acpi.c] and the
    two places ([kernel_main] in [arch/x86_64/boot/init.c] and [ap_main])
    that meet at the barrier around [mtrr_config]. Starting is sequential
    code over the state of Kernel.v; the barrier is an interleaving of any
    number of processors, one access to [mtrr_sync] per step. *)

From S2P Require Import Prelude Layout Bits Spinlock Physical Mmu Paging PagingSpec Kernel Apic Acpi.

Local Open Scope Z_scope.
Local Open Scope c_scope.

(** ** Starting processors *)

Definition SMP_BOOT_ADDR : Z := 0x70000.
Definition LOOPS_TO_WAIT : Z := 100000000.

(** The other processors and the boot code they run ([ap_boot.S]): how many
    times the status word is read as 0 after the start-up interrupt before the
    processor sets it, if it ever does; and where the two words of the boot code
    are. *)
Class Processors := {
  starts_after : Z → option Z;
  status_offset : Z;
  stack_offset : Z
}.

Section smp.
Context `{HM : Mmu} {A : Type} `{HA : FrameAllocator A} `{HD : Devices} `{HP : Processors}.
Implicit Types k : kernel A.

(** [BOOT_STATUS()] and [BOOT_STACK()] as addresses. *)
Definition BOOT_STATUS : Z := SMP_BOOT_ADDR + status_offset.
Definition BOOT_STACK : Z := SMP_BOOT_ADDR + stack_offset.

Definition mem_store k (addr data : Z) : outcome (kernel A) :=
  match translate (vm_mem (k_vm k)) (vm_cr3 (k_vm k)) addr with
  | Some pa => Ok (add_io k (MemStore pa data))
  | None => Fault
  end.

(** [while (!BOOT_STATUS() && cnt++ < LOOPS_TO_WAIT)]: the status has been read
    [cnt] times before. *)
Definition poll_step (lapic : Z) (cnt : Z) : outcome (Z + Z) :=
  let status := match starts_after lapic with Some n => n <=? cnt | None => false end in
  if status then Ok (inr cnt)
  else if cnt <? LOOPS_TO_WAIT then Ok (inl (cnt +w 1)) else Ok (inr (cnt +w 1)).

Definition smp_boot_cpu k (lapic : Z) : outcome (bool * kernel A) :=
  '(stack, fr) ← alloc_frame (vm_frames (k_vm k));
  let k := set_vm k (with_frames (k_vm k) fr) in
  if stack =? 0 then Panic "running out of memory"
  else
    '(va, v) ← vm_map_page (k_vm k) stack (PGT_P .| PGT_RW .| PGT_XD);
    let k := set_vm k v in
    if va =? 0 then Panic "running out of va mapping"
    else
      k ← mem_store k BOOT_STATUS 0;
      k ← mem_store k BOOT_STACK (va +w PG_SIZE);
      k ← lapic_send_ipi k lapic (LAPIC_ICR_TM_LEVEL .| LAPIC_ICR_LEVELASSERT .| LAPIC_ICR_DM_INIT);
      k ← lapic_send_ipi k lapic (LAPIC_ICR_DM_SIPI .| ((SMP_BOOT_ADDR >>w 12) .& 0xFF));
      cnt ← while (poll_step lapic) 0;
      Ok (negb (LOOPS_TO_WAIT <=? cnt), k).

(** [for (i = 1; i < g_cpus; i++)] of [acpi_sec_init] *)
Definition sec_init_step (st : Z * Z * kernel A) : outcome ((Z * Z * kernel A) + (Z * kernel A)) :=
  let '(i, count, k) := st in
  if i <? g_cpus (k_acpi k) then
    id ← list_get (lapic_ids (k_acpi k)) i;
    '(ok, k) ← smp_boot_cpu k id;
    if (ok : bool) then Ok (inl (u16 (i + 1), count, k))
    else Ok (inl (u16 (i + 1), u16 (count + 1), add_log k "%s: Failed to boot cpu %u" [id]))
  else Ok (inr (count, k)).

Definition acpi_sec_init k : outcome (kernel A) :=
  '(count, k) ← while sec_init_step (1, 0, k);
  Ok (set_g_cpus k (u16 (g_cpus (k_acpi k) - count)) (lapic_ids (k_acpi k))).

(** *** What starting needs and keeps *)

Record smp_ready k (f3 f2 f1 : Z) : Prop := {
  sr_window : kernel_pt (k_vm k) f3 f2 f1;
  sr_pool : alloc_wf (vm_frames (k_vm k));
  sr_lapic : page_mapped k (lapic_addr (k_apic k)) (lapic_addr (k_apic k));
  sr_status : k_translate k BOOT_STATUS = Some BOOT_STATUS;
  sr_stack : k_translate k BOOT_STACK = Some BOOT_STACK
}.

(** The processor sets its status while it is polled. *)
Definition started (lapic : Z) : bool :=
  match starts_after lapic with Some n => n <? LOOPS_TO_WAIT | None => false end.

Lemma poll_ok lapic : wp (while (poll_step lapic) 0) (fun cnt => negb (LOOPS_TO_WAIT <=? cnt) = started lapic).
Proof.
  set (late := fun c => match starts_after lapic with Some n => c <= n | None => True end).
  apply (wp_while _ (fun cnt => 0 <= cnt <= LOOPS_TO_WAIT ∧ (cnt = 0 ∨ late cnt)) (fun cnt => LOOPS_TO_WAIT - cnt)).
  - intros cnt [Hc Hl]. unfold poll_step, started, late in *. unfold LOOPS_TO_WAIT in *.
    destruct (starts_after lapic) as [n|].
    + destruct (Z.leb_spec n cnt).
      * destruct (Z.leb_spec 100000000 cnt), (Z.ltb_spec n 100000000); cbn; try reflexivity; lia.
      * destruct (Z.ltb_spec cnt 100000000).
        -- rewrite u64_id by (unfold is_u64; lia). cbn. lia.
        -- rewrite u64_id by (unfold is_u64; lia). cbn.
           destruct (Z.leb_spec 100000000 (cnt + 1)), (Z.ltb_spec n 100000000); cbn; try reflexivity; lia.
    + destruct (Z.ltb_spec cnt 100000000).
      * rewrite u64_id by (unfold is_u64; lia). cbn. lia.
      * rewrite u64_id by (unfold is_u64; lia). cbn.
        destruct (Z.leb_spec 100000000 (cnt + 1)); cbn; try reflexivity; lia.
  - unfold LOOPS_TO_WAIT. split; [lia|by left].
  - unfold LOOPS_TO_WAIT. lia.
Qed.

(** Nothing that was mapped is lost when the page tables only gain entries. *)
Lemma later_translate k v va pa : later (k_vm k) v → k_translate k va = Some pa →
  k_translate (set_vm k v) va = Some pa.
Proof.
  intros [Ec Hm] Ht. unfold k_translate in *. cbn [k_vm set_vm]. rewrite Ec.
  exact (translate_stable _ _ _ _ _ Hm Ht).
Qed.
Lemma later_page_mapped k v va pa : later (k_vm k) v → page_mapped k va pa → page_mapped (set_vm k v) va pa.
Proof. intros Hl [H1 H2]. split; [done|]. intros o Ho. by apply later_translate, H2. Qed.

Lemma mem_store_ok k addr pa data : k_translate k addr = Some pa →
  mem_store k addr data = Ok (add_io k (MemStore pa data)).
Proof. unfold k_translate, mem_store. by intros ->. Qed.

Lemma lapic_send_ipi_ok k dest vector : page_mapped k (lapic_addr (k_apic k)) (lapic_addr (k_apic k)) →
  lapic_send_ipi k dest vector = Ok (Kernel (k_vm k) (k_apic k) (k_acpi k)
    ([InterruptsRestored; MmioWrite (lapic_addr (k_apic k) + LAPIC_ICR) vector;
      MmioWrite (lapic_addr (k_apic k) + LAPIC_ICRH) (u32 (Z.shiftl dest LAPIC_ID_OFFSET));
      InterruptsSaved] ++ k_io k) (k_log k)).
Proof.
  intros Hm. unfold lapic_send_ipi, lapic_write32. cbv zeta. cbn [k_apic add_io].
  rewrite (mmio_write32_ok (add_io k InterruptsSaved) _ _ LAPIC_ICRH _ (add_io_mapped _ _ _ _ Hm))
    by (unfold LAPIC_ICRH; lia).
  rewrite bind_ok. cbn [k_apic add_io].
  rewrite (mmio_write32_ok _ (lapic_addr (k_apic k)) (lapic_addr (k_apic k)) LAPIC_ICR)
    by ((unfold LAPIC_ICR; lia) || (repeat apply add_io_mapped; exact Hm)).
  reflexivity.
Qed.

(** What one start writes, latest first, for a stack page at [va]. *)
Definition boot_events (la lapic va : Z) : list io_event :=
  [InterruptsRestored; MmioWrite (la + LAPIC_ICR) 0x670;
   MmioWrite (la + LAPIC_ICRH) (u32 (Z.shiftl lapic LAPIC_ID_OFFSET)); InterruptsSaved;
   InterruptsRestored; MmioWrite (la + LAPIC_ICR) 0xC500;
   MmioWrite (la + LAPIC_ICRH) (u32 (Z.shiftl lapic LAPIC_ID_OFFSET)); InterruptsSaved;
   MemStore BOOT_STACK (va +w PG_SIZE); MemStore BOOT_STATUS 0].

Definition smp_message (m : string) : Prop :=
  m = "running out of memory"%string ∨ m = "running out of va mapping"%string.

Lemma page_flags_stack : frame_of (PGT_P .| PGT_RW .| PGT_XD) = 0 ∧ present (PGT_P .| PGT_RW .| PGT_XD) = true.
Proof. split; reflexivity. Qed.

Lemma smp_boot_cpu_ok k f3 f2 f1 lapic : smp_ready k f3 f2 f1 →
  wpx (smp_boot_cpu k lapic) (fun '(b, k') =>
      b = started lapic ∧ smp_ready k' f3 f2 f1 ∧ k_acpi k' = k_acpi k ∧ k_apic k' = k_apic k ∧ later (k_vm k) (k_vm k') ∧
      ∃ va stack, 4096 <= va ∧ 4096 <= stack ∧ k_translate k' va = Some stack ∧
        k_io k' = boot_events (lapic_addr (k_apic k)) lapic va ++ k_io k)
    smp_message False.
Proof.
  intros [Hk Hp Hl Hst Hsk]. unfold smp_boot_cpu.
  destruct (alloc_frame_law _ Hp) as (r & fr & -> & Hp' & _ & Hr). rewrite bind_ok. cbv zeta.
  destruct (Z.eqb_spec r 0) as [|Hr0]; [by left|].
  destruct Hr as [(n & -> & Hn & _)|(Hr & _)]; [|destruct (Hr0 Hr)].
  cbn [k_vm set_vm]. set (v0 := with_frames (k_vm k) fr).
  assert (Hk0 : kernel_pt v0 f3 f2 f1) by (destruct Hk; by split).
  pose proof (vm_map_page_ok v0 f3 f2 f1 (4096 * n) (PGT_P .| PGT_RW .| PGT_XD) Hk0) as Hw.
  destruct (proj1 (wp_ok _ _) Hw) as ([va v] & Emap & Hw'). clear Hw. rename Hw' into Hw.
  pose proof (map_page_later v0 _ _ _ Emap) as Hlater. cbn in Hlater.
  rewrite Emap, bind_ok. destruct (Z.eqb_spec va 0) as [|Hva0]; [by right|].
  destruct Hw as [(i & m' & Hi & Hfree & Hlow & Hva & Hu & Hv)|(_ & Hva & _)]; [|destruct (Hva0 Hva)].
  assert (Ho : same_outside f1 (vm_mem v0) m') by (eapply table_upd_outside; [..|exact Hu]; lia).
  pose proof (kernel_pt_upd1 v0 f3 f2 f1 Hk0 m' (vm_invlpg v0) (vm_frames v0) Ho) as Hk1.
  rewrite <- Hv in Hk1. assert (Hpv : alloc_wf (vm_frames v)) by (rewrite Hv; exact Hp'). set (k1 := set_vm (set_vm k v0) v).
  assert (Hl1 : page_mapped k1 (lapic_addr (k_apic k)) (lapic_addr (k_apic k))).
  { apply (later_page_mapped (set_vm k v0)); [exact Hlater|]. destruct Hl as [Hla Hlb]; by split. }
  assert (Hst1 : k_translate k1 BOOT_STATUS = Some BOOT_STATUS) by (by apply (later_translate (set_vm k v0))).
  assert (Hsk1 : k_translate k1 BOOT_STACK = Some BOOT_STACK) by (by apply (later_translate (set_vm k v0))).
  rewrite (mem_store_ok k1 _ _ _ Hst1), bind_ok.
  rewrite (mem_store_ok (add_io k1 (MemStore BOOT_STATUS 0)) _ _ _ Hsk1), bind_ok.
  set (k2 := add_io (add_io k1 _) _).
  rewrite (lapic_send_ipi_ok k2 lapic) by (repeat apply add_io_mapped; exact Hl1). rewrite bind_ok.
  set (k3 := Kernel _ _ _ _ _).
  assert (Hl3 : page_mapped k3 (lapic_addr (k_apic k3)) (lapic_addr (k_apic k3)))
    by (by apply (page_mapped_vm k1)).
  rewrite (lapic_send_ipi_ok k3 lapic _ Hl3). rewrite bind_ok.
  wp_step. eapply wpx_mono; [apply wp_wpx, (poll_ok lapic)| |intros m Hm; exact Hm|intros Hm; exact Hm].
  intros cnt Hcnt. cbn [wpx]. split; [exact Hcnt|]. split; [|split; [reflexivity|split; [reflexivity|split; [exact Hlater|]]]].
  - split; [exact Hk1| |apply (page_mapped_vm k1); [reflexivity|exact Hl1]|exact Hst1|exact Hsk1].
    exact Hpv.
  - exists va, (4096 * n). split; [rewrite Hva, kernel_va_ok by done; change KERNEL_MAPPING_BASE with 0xA00000; lia|].
    split; [lia|]. split; [|reflexivity].
    assert (He : entry (vm_mem v) f1 i = Z.lor (4096 * n) (PGT_P .| PGT_RW .| PGT_XD))
      by (rewrite Hv; apply Hu; lia).
    pose proof (kernel_translate v f3 f2 f1 Hk1 i 0 Hi ltac:(lia)) as Ht. rewrite He in Ht.
    destruct page_flags_stack as [Hf Hpr].
    rewrite present_lor, Hpr, orb_true_r, frame_of_page in Ht by (done || lia || (change (2 ^ 12) with 4096; rewrite Z.mul_comm, Z.mod_mul; lia)).
    unfold k_translate. cbn [k_vm]. rewrite Hva, kernel_va_ok by done.
    specialize (Ht eq_refl). rewrite !Z.add_0_r in Ht. exact Ht.
Qed.

(** *** Starting all of them *)

Definition failed (ids : list Z) : Z := Z.of_nat (length (List.filter (fun id => negb (started id)) ids)).

(** The identifiers that [acpi_sec_init] starts, in order. *)
Definition to_start k : list Z :=
  take (Z.to_nat (g_cpus (k_acpi k)) - 1) (drop 1 (lapic_ids (k_acpi k))).

Lemma failed_app l1 l2 : failed (l1 ++ l2) = failed l1 + failed l2.
Proof. unfold failed. rewrite List.filter_app, length_app. lia. Qed.

Lemma failed_le l : 0 <= failed l <= Z.of_nat (length l).
Proof.
  unfold failed. split; [lia|]. apply inj_le.
  induction l as [|x l IH]; cbn; [lia|]. destruct (negb (started x)); cbn; lia.
Qed.

Lemma smp_ready_same k k' f3 f2 f1 : k_vm k' = k_vm k → k_apic k' = k_apic k →
  smp_ready k f3 f2 f1 → smp_ready k' f3 f2 f1.
Proof.
  intros E1 E2 [H1 H2 H3 H4 H5]. split; unfold k_translate in *; rewrite ?E1, ?E2; try done.
  by apply (page_mapped_vm k).
Qed.

Lemma sec_init_loop_ok k f3 f2 f1 : smp_ready k f3 f2 f1 →
  1 <= g_cpus (k_acpi k) <= 16 → length (lapic_ids (k_acpi k)) = 16%nat →
  wpx (while sec_init_step (1, 0, k)) (fun '(count, k') => count = failed (to_start k) ∧
      smp_ready k' f3 f2 f1 ∧ k_acpi k' = k_acpi k ∧ later (k_vm k) (k_vm k')) smp_message False.
Proof.
  intros Hr Hn Hlen. set (n := g_cpus (k_acpi k)) in *. set (ids := lapic_ids (k_acpi k)) in *.
  apply (wpx_while _ (fun st => 1 <= st.1.1 <= n ∧ smp_ready st.2 f3 f2 f1 ∧ k_acpi st.2 = k_acpi k ∧
      later (k_vm k) (k_vm st.2) ∧ st.1.2 = failed (take (Z.to_nat st.1.1 - 1) (drop 1 ids))) (fun st => n - st.1.1)).
  - intros [[i count] k1] (Hi & Hr1 & Ha & Hl & Hc). cbn [fst snd] in *. unfold sec_init_step. rewrite Ha. fold n ids.
    destruct (Z.ltb_spec i n).
    + destruct (list_get_ok ids i ltac:(lia)) as (id & -> & Hid). rewrite bind_ok.
      wp_step. eapply wpx_post; [exact (smp_boot_cpu_ok k1 f3 f2 f1 id Hr1)|].
      intros [b k2] (-> & Hr2 & Ha2 & _ & Hl2 & _). pose proof (later_trans _ _ _ Hl Hl2) as Hlt.
      assert (Hnext : failed (take (Z.to_nat (i + 1) - 1) (drop 1 ids)) =
                      count + if started id then 0 else 1).
      { replace (Z.to_nat (i + 1) - 1)%nat with (Datatypes.S (Z.to_nat i - 1)) by lia.
        rewrite (take_S_r _ _ id) by (rewrite lookup_drop; replace (1 + (Z.to_nat i - 1))%nat with (Z.to_nat i) by lia; done).
        rewrite failed_app, <- Hc. unfold failed at 1. cbn. by destruct (started id). }
      pose proof (failed_le (take (Z.to_nat i - 1) (drop 1 ids))) as Hfl.
      assert (Z.of_nat (length (take (Z.to_nat i - 1) (drop 1 ids))) <= 16).
      { rewrite length_take, length_drop. lia. }
      destruct (started id) eqn:Es; cbn [wpx fst snd]; rewrite (u16_id (i + 1)) by (unfold is_u16; lia).
      * split; [|lia]. split; [lia|]. split; [done|]. split; [congruence|]. split; [exact Hlt|]. rewrite Hnext. lia.
      * split; [|lia]. split; [lia|]. split; [by apply (smp_ready_same k2)|].
        split; [cbn; congruence|]. split; [exact Hlt|]. rewrite Hnext, u16_id by (unfold is_u16; lia). lia.
    + cbn [wpx]. split; [|done]. rewrite Hc. unfold to_start. fold n ids. by replace i with n by lia.
  - cbn [fst snd]. split; [lia|]. done.
  - cbn. lia.
Qed.

Lemma acpi_sec_init_ok k f3 f2 f1 : smp_ready k f3 f2 f1 →
  1 <= g_cpus (k_acpi k) <= 16 → length (lapic_ids (k_acpi k)) = 16%nat →
  wpx (acpi_sec_init k) (fun k' => smp_ready k' f3 f2 f1 ∧ later (k_vm k) (k_vm k') ∧
      g_cpus (k_acpi k') = 1 + Z.of_nat (length (List.filter started (to_start k)))) smp_message False.
Proof.
  intros Hr Hn Hlen. unfold acpi_sec_init. wp_step.
  eapply wpx_post; [exact (sec_init_loop_ok k f3 f2 f1 Hr Hn Hlen)|].
  intros [count k'] (-> & Hr' & Ha & Hlt). cbn [wpx]. split; [by apply (smp_ready_same k')|]. split; [exact Hlt|].
  cbn [k_acpi set_g_cpus set_acpi g_cpus]. rewrite Ha.
  assert (Hcount : ∀ l, Z.of_nat (length (List.filter started l)) = Z.of_nat (length l) - failed l).
  { intros l. induction l as [|x l IH]; cbn; [done|]. unfold failed in *. cbn.
    destruct (started x); cbn [negb length]; lia. }
  rewrite Hcount. pose proof (failed_le (to_start k)) as Hf.
  assert (Hl : Z.of_nat (length (to_start k)) = g_cpus (k_acpi k) - 1).
  { unfold to_start. rewrite length_take, length_drop. lia. }
  rewrite u16_id by (unfold is_u16; lia). lia.
Qed.
End smp.

(** ** The barrier around [mtrr_config] *)

(** Where a processor is: before [mtrr_sync++]; in the first loop; about to
    run [mtrr_config]; before [mtrr_sync--]; in the second loop; past it. *)
Inductive mtrr_pc : Type := Arriving | WaitAll | Configuring | Leaving | WaitNone | Past.

Record mtrr_sys := MtrrSys {
  mtrr_sync : Z;
  mtrr_pcs : list mtrr_pc
}.

(** One step of a processor; [n] is [g_cpus]. The increments and decrements
    are inside [mtrr_lock] (Spinlock.v shows its mutual exclusion), so each is
    one step. *)
Inductive mtrr_step (n : Z) : mtrr_sys → mtrr_sys → Prop :=
  | mtrr_arrive x cpus c : cpus !! c = Some Arriving →
      mtrr_step n (MtrrSys x cpus) (MtrrSys (u8 (x + 1)) (<[c := WaitAll]> cpus))
  | mtrr_spin_all x cpus c : cpus !! c = Some WaitAll → x ≠ n →
      mtrr_step n (MtrrSys x cpus) (MtrrSys x cpus)
  | mtrr_seen_all x cpus c : cpus !! c = Some WaitAll → x = n →
      mtrr_step n (MtrrSys x cpus) (MtrrSys x (<[c := Configuring]> cpus))
  | mtrr_configured x cpus c : cpus !! c = Some Configuring →
      mtrr_step n (MtrrSys x cpus) (MtrrSys x (<[c := Leaving]> cpus))
  | mtrr_leave x cpus c : cpus !! c = Some Leaving →
      mtrr_step n (MtrrSys x cpus) (MtrrSys (u8 (x - 1)) (<[c := WaitNone]> cpus))
  | mtrr_spin_none x cpus c : cpus !! c = Some WaitNone → x ≠ 0 →
      mtrr_step n (MtrrSys x cpus) (MtrrSys x cpus)
  | mtrr_seen_none x cpus c : cpus !! c = Some WaitNone → x = 0 →
      mtrr_step n (MtrrSys x cpus) (MtrrSys x (<[c := Past]> cpus)).

Definition mtrr_start (n : nat) : mtrr_sys := MtrrSys 0 (replicate n Arriving).
Definition mtrr_reachable (n : nat) (s : mtrr_sys) : Prop := rtc (mtrr_step (Z.of_nat n)) (mtrr_start n) s.

(** A processor that has incremented the counter and not yet decremented it. *)
Definition counted (p : mtrr_pc) : bool :=
  match p with WaitAll | Configuring | Leaving => true | _ => false end.
(** A processor that has seen the counter at its maximum. *)
Definition passed (p : mtrr_pc) : bool :=
  match p with Configuring | Leaving | WaitNone | Past => true | _ => false end.

Definition count_in (f : mtrr_pc → bool) (l : list mtrr_pc) : nat := length (List.filter f l).

Lemma count_in_insert f l c p q : l !! c = Some p →
  (count_in f (<[c := q]> l) + (if f p then 1 else 0) = count_in f l + (if f q then 1 else 0))%nat.
Proof.
  unfold count_in. revert c. induction l as [|x l IH]; intros [|c] Hc; try discriminate Hc.
  - injection Hc as ->. change (<[0%nat := q]> (p :: l)) with (q :: l). cbn [List.filter].
    destruct (f p), (f q); cbn [length]; lia.
  - specialize (IH c Hc). change (<[Datatypes.S c := q]> (x :: l)) with (x :: <[c := q]> l).
    cbn [List.filter]. destruct (f x); cbn [length]; lia.
Qed.

Lemma count_in_full f l p : count_in f l = length l → p ∈ l → f p = true.
Proof.
  unfold count_in. intros Hc Hp. induction l as [|x l IH]; [by apply elem_of_nil in Hp|].
  cbn in Hc. assert (Hle : (length (List.filter f l) <= length l)%nat)
    by (clear; induction l as [|y l IH]; cbn; [lia|destruct (f y); cbn; lia]).
  destruct (f x) eqn:E; cbn in Hc; [|lia].
  apply elem_of_cons in Hp as [->|Hp]; [done|]. apply IH; [lia|done].
Qed.

Record mtrr_inv (n : nat) (s : mtrr_sys) : Prop := {
  mv_length : length (mtrr_pcs s) = n;
  mv_sync : mtrr_sync s = Z.of_nat (count_in counted (mtrr_pcs s));
  mv_passed p : p ∈ mtrr_pcs s → passed p = true → Arriving ∉ mtrr_pcs s
}.

Lemma count_in_le f l : (count_in f l <= length l)%nat.
Proof. unfold count_in. induction l as [|x l IH]; cbn; [lia|]. destruct (f x); cbn; lia. Qed.

Lemma elem_of_insert_cases (l : list mtrr_pc) c q p : p ∈ <[c := q]> l → p = q ∨ p ∈ l.
Proof.
  intros Hp. apply list_elem_of_lookup in Hp as [j Hj]. destruct (decide (c = j)) as [->|Hne].
  - pose proof (lookup_lt_Some _ _ _ Hj) as Hl. rewrite length_insert in Hl.
    rewrite list_lookup_insert_eq in Hj by done. injection Hj as <-. by left.
  - rewrite list_lookup_insert_ne in Hj by done. right. by eapply list_elem_of_lookup_2.
Qed.

Lemma mtrr_step_inv n s s' : (n <= 255)%nat → mtrr_inv n s → mtrr_step (Z.of_nat n) s s' → mtrr_inv n s'.
Proof.
  intros Hn [Hl Hs Hp] Hstep. destruct Hstep as [x cpus c Hc|x cpus c Hc Hx|x cpus c Hc Hx|x cpus c Hc|
    x cpus c Hc|x cpus c Hc Hx|x cpus c Hc Hx]; cbn [mtrr_sync mtrr_pcs] in *; try by split.
  - pose proof (count_in_insert counted cpus c Arriving WaitAll Hc) as E. cbn [counted] in E.
    pose proof (count_in_le counted (<[c := WaitAll]> cpus)) as Hle. rewrite length_insert in Hle.
    pose proof (list_elem_of_lookup_2 _ _ _ Hc) as Hin. split; cbn [mtrr_sync mtrr_pcs].
    + by rewrite length_insert.
    + rewrite u8_id by (unfold is_u8; lia). lia.
    + intros p Hpin Hpass. exfalso. apply elem_of_insert_cases in Hpin as [->|Hpin]; [discriminate|].
      by apply (Hp p Hpin Hpass).
  - pose proof (count_in_insert counted cpus c WaitAll Configuring Hc) as E. cbn [counted] in E. split; cbn [mtrr_sync mtrr_pcs].
    + by rewrite length_insert.
    + lia.
    + intros p _ _ Hin. apply elem_of_insert_cases in Hin as [?|Hin]; [done|].
      assert (Hfull : count_in counted cpus = length cpus) by lia.
      by pose proof (count_in_full counted cpus Arriving Hfull Hin).
  - pose proof (count_in_insert counted cpus c Configuring Leaving Hc) as E. cbn [counted] in E.
    pose proof (list_elem_of_lookup_2 _ _ _ Hc) as Hin. split; cbn [mtrr_sync mtrr_pcs].
    + by rewrite length_insert.
    + lia.
    + intros p _ _ Ha. apply elem_of_insert_cases in Ha as [?|Ha]; [done|]. by apply (Hp Configuring).
  - pose proof (count_in_insert counted cpus c Leaving WaitNone Hc) as E. cbn [counted] in E.
    pose proof (count_in_le counted cpus) as Hle.
    pose proof (list_elem_of_lookup_2 _ _ _ Hc) as Hin. split; cbn [mtrr_sync mtrr_pcs].
    + by rewrite length_insert.
    + rewrite u8_id by (unfold is_u8; lia). lia.
    + intros p _ _ Ha. apply elem_of_insert_cases in Ha as [?|Ha]; [done|]. by apply (Hp Leaving).
  - pose proof (count_in_insert counted cpus c WaitNone Past Hc) as E. cbn [counted] in E.
    pose proof (list_elem_of_lookup_2 _ _ _ Hc) as Hin. split; cbn [mtrr_sync mtrr_pcs].
    + by rewrite length_insert.
    + lia.
    + intros p _ _ Ha. apply elem_of_insert_cases in Ha as [?|Ha]; [done|]. by apply (Hp WaitNone).
Qed.

Lemma mtrr_reachable_inv n s : (n <= 255)%nat → mtrr_reachable n s → mtrr_inv n s.
Proof.
  intros Hn Hr. pattern s. refine (rtc_ind_r _ (mtrr_start n) _ _ s Hr).
  - split; cbn [mtrr_sync mtrr_pcs].
    + apply length_replicate.
    + clear. induction n; cbn in *; done.
    + intros p Hp Hpass. apply elem_of_replicate in Hp as [-> _]. discriminate.
  - intros s1 s2 _ Hs Hi. by apply (mtrr_step_inv n s1).
Qed.

(** ** Properties *)

(** C31: [mtrr_config] only runs when every processor has arrived: whenever a
    processor is past the first loop, none is still on its way to the
    barrier, for any number of processors up to 255 and any interleaving. *)
Theorem mtrr_barrier_safe n s : (n <= 255)%nat → mtrr_reachable n s →
  ∀ p, p ∈ mtrr_pcs s → passed p = true → Arriving ∉ mtrr_pcs s.
Proof. intros Hn Hr. apply (mv_passed n), mtrr_reachable_inv; done. Qed.

(** The state where processor 0 has been through and processor 1 has not
    looked at the counter in time. *)
Definition mtrr_stuck (s : mtrr_sys) : Prop :=
  mtrr_pcs s = [WaitNone; WaitAll] ∧ mtrr_sync s = 1.

Lemma stuck_step s s' : mtrr_stuck s → mtrr_step 2 s s' → s' = s.
Proof.
  intros [Hp Hx] Hstep. destruct Hstep as [x cpus c Hc|x cpus c Hc Hn|x cpus c Hc Hn|x cpus c Hc|
    x cpus c Hc|x cpus c Hc Hn|x cpus c Hc Hn]; cbn in *; subst; try done;
    destruct c as [|[|c]]; cbn in Hc; discriminate.
Qed.

(** C32: the barrier can block for ever. With two processors there is a
    reachable state (one of them passes both increments, configures and
    decrements the counter before the other reads it) from which every step
    leads back to it: both processors spin, neither ever leaves. *)
Theorem mtrr_barrier_deadlock :
  ∃ s, mtrr_reachable 2 s ∧ (∀ s', rtc (mtrr_step 2) s s' → s' = s) ∧
    ∀ p, p ∈ mtrr_pcs s → p ≠ Past.
Proof.
  exists (MtrrSys 1 [WaitNone; WaitAll]). split; [|split].
  - apply (rtc_l _ _ (MtrrSys 1 [WaitAll; Arriving])); [by apply (mtrr_arrive 2 0 [Arriving; Arriving] 0)|].
    apply (rtc_l _ _ (MtrrSys 2 [WaitAll; WaitAll])); [by apply (mtrr_arrive 2 1 [WaitAll; Arriving] 1)|].
    apply (rtc_l _ _ (MtrrSys 2 [Configuring; WaitAll])); [by apply (mtrr_seen_all 2 2 [WaitAll; WaitAll] 0)|].
    apply (rtc_l _ _ (MtrrSys 2 [Leaving; WaitAll])); [by apply (mtrr_configured 2 2 [Configuring; WaitAll] 0)|].
    apply rtc_once. by apply (mtrr_leave 2 2 [Leaving; WaitAll] 0).
  - intros s' Hr. remember (MtrrSys 1 [WaitNone; WaitAll]) as s eqn:Es.
    induction Hr as [s|s s1 s2 H1 _ IH]; [done|].
    assert (E : s1 = s) by (apply stuck_step; [subst; by split|done]). subst s1. by apply IH.
  - intros p Hp. repeat (apply elem_of_cons in Hp as [->|Hp]; [discriminate|]). by apply elem_of_nil in Hp.
Qed.

(** [acpi_sec_init] starts the listed processors one after the other and
    counts those that answer: afterwards [g_cpus] is 1 plus the
    number of listed processors that set their status while they are polled. It
    stops with a message only when a stack cannot be allocated or mapped. *)
Theorem acpi_sec_init_spec `{HM : Mmu} {A : Type} `{HA : FrameAllocator A}
    `{HP : Processors} (k : kernel A) f3 f2 f1 :
  smp_ready k f3 f2 f1 → 1 <= g_cpus (k_acpi k) <= 16 → length (lapic_ids (k_acpi k)) = 16%nat →
  wpx (acpi_sec_init k) (fun k' => smp_ready k' f3 f2 f1 ∧
      g_cpus (k_acpi k') = 1 + Z.of_nat (length (List.filter started (to_start k)))) smp_message False.
Proof.
  intros Hr Hn Hlen. apply (wpx_post _ _ _ _ _ (acpi_sec_init_ok k f3 f2 f1 Hr Hn Hlen)).
  intros k' (H & _ & Hg). by split.
Qed.

(** ** Witnesses *)

Lemma mtrr_barrier_safe_witness :
  ∃ s, mtrr_reachable 1 s ∧ Configuring ∈ mtrr_pcs s ∧ Arriving ∉ mtrr_pcs s.
Proof.
  assert (Hr : mtrr_reachable 1 (MtrrSys 1 [Configuring])).
  { apply (rtc_l _ _ (MtrrSys 1 [WaitAll])); [by apply (mtrr_arrive 1 0 [Arriving] 0)|].
    apply rtc_once. by apply (mtrr_seen_all 1 1 [WaitAll] 0). }
  exists (MtrrSys 1 [Configuring]). split; [exact Hr|]. split; [left|].
  apply (mtrr_barrier_safe 1 _ ltac:(lia) Hr Configuring); [left|reflexivity].
Defined.

(** Tables with the kernel window and the page of the local APIC in place. *)
Definition smp_mem : gmap Z Z := {[
  0x300000 := 0x301003; 0x300FF8 := 0x1000000000300003;
  0x301000 := 0x302003; 0x301018 := 0x306003;
  0x302000 := 0x83; 0x302028 := 0x305003;
  0x306FB8 := 0x307003; 0x307000 := 0x80000000FEE0001B ]}.

Definition smp_kernel : kernel phys :=
  Kernel (Vm smp_mem 0x300000 SPINLOCK_UNLOCKED [] sample_phys) apic_init
    (Acpi 3 (replicate 32 (IrqOverride 0 0 0)) 0 1 ([0; 4; 6] ++ replicate 13 0)) [] [].

(** Processor 4 starts, processor 6 does not. *)
Definition sample_processors : Processors := {|
  starts_after := fun id => if id =? 4 then Some 12345 else None;
  status_offset := 0x100;
  stack_offset := 0x108
|}.

Lemma smp_kernel_ready : smp_ready (HP := sample_processors) smp_kernel 0x301000 0x302000 0x305000.
Proof.
  split; [split|exact sample_phys_wf|split|vm_compute; reflexivity|vm_compute; reflexivity].
  - split; [split; [split|]|]; apply table_entryb; vm_compute; reflexivity.
  - split; discriminate.
  - split; [discriminate|split; discriminate].
  - exact lock_free_unlocked.
  - split; [discriminate|vm_compute; discriminate].
  - intros o Ho. cbn [k_apic smp_kernel apic_init lapic_addr]. unfold k_translate.
    assert (E4 : idx4 (0xFEE00000 + o) = 0) by (unfold idx4; dlia).
    assert (E3 : idx3 (0xFEE00000 + o) = 3) by (unfold idx3; dlia).
    assert (E2 : idx2 (0xFEE00000 + o) = 503) by (unfold idx2; dlia).
    assert (E1 : idx1 (0xFEE00000 + o) = 0) by (unfold idx1; dlia).
    rewrite (translate_4k _ _ _ 0x301000 0x306000 0x307000); rewrite ?E4, ?E3, ?E2, ?E1.
    + change (frame_of (entry (vm_mem (k_vm smp_kernel)) 0x307000 0)) with 0xFEE00000. f_equal. dlia.
    + left. lia.
    + apply table_entryb. vm_compute. reflexivity.
    + apply table_entryb. vm_compute. reflexivity.
    + apply table_entryb. vm_compute. reflexivity.
    + vm_compute. reflexivity.
Qed.

Lemma acpi_sec_init_spec_witness :
  wpx (acpi_sec_init (HP := sample_processors) smp_kernel)
    (fun k' => g_cpus (k_acpi k') = 2) smp_message False.
Proof.
  pose proof (acpi_sec_init_spec (HP := sample_processors) smp_kernel _ _ _
    smp_kernel_ready) as Hs.
  eapply wpx_post; [apply Hs; [cbn; lia|reflexivity]|].
  intros k' [_ Hc]. rewrite Hc. vm_compute. reflexivity.
Defined.
