(* ===== verification/Percpu.v ===== *)
(** * Per-CPU data

    Models [arch/x86_64/cpu/percpu.c]: each CPU gets pages of its own for the
    variables of the section [.percpu], a data segment for them and the base
    in the FS register. The file works on the state of Kernel.v over the page
    allocator of Physical.v. *)

From S2P Require Import Prelude Layout Bits Spinlock Physical Mmu Paging PagingSpec Kernel Apic Acpi Descriptors Smp.

Local Open Scope Z_scope.
Local Open Scope c_scope.

(** What the linker script gives the code: [_percpu_pages_plus_one] and the
    address of [pcpu_id] in its section. *)
Class Linker := {
  percpu_pages_plus_one : Z;
  pcpu_id_addr : Z
}.

Record percpu := PerCpu {
  pc_kernel : kernel phys;
  pc_gdt : gdt_table;
  percpu_virt : list Z;
  pcpu_counter : Z;
  (** the base of FS on the CPU that runs *)
  fs_base : Z
}.

Definition IA32_FS_BASE : Z := 0xC0000100.

Fixpoint seg_puts (t : u64array) (i : Z) (l : list (bitfield * Z)) : outcome u64array :=
  match l with
  | [] => Ok t
  | (f, v) :: l => t ← seg_put t i f v; seg_puts t i l
  end.

Section percpu.
Context {HM : Mmu} {HL : Linker}.

(** The word of memory at [addr]: what was stored there last. *)
Fixpoint last_store (h : list io_event) (pa : Z) : option Z :=
  match h with
  | [] => None
  | MemStore a v :: h => if a =? pa then Some v else last_store h pa
  | _ :: h => last_store h pa
  end.

(** [percpu_read(pcpu_id)] *)
Definition get_pcpu_id (k : kernel phys) (base : Z) : outcome Z :=
  match translate (vm_mem (k_vm k)) (vm_cr3 (k_vm k)) (base +w pcpu_id_addr) with
  | Some pa => match last_store (k_io k) pa with Some v => Ok v | None => Fault end
  | None => Fault
  end.

(** [percpu_write(pcpu_id, pcpu_counter++)], the only constructor of the program. *)
Definition pcpu_id_ctor (s : percpu) : outcome percpu :=
  k ← mem_store (pc_kernel s) (fs_base s +w pcpu_id_addr) (pcpu_counter s);
  Ok (PerCpu k (pc_gdt s) (percpu_virt s) (u16 (pcpu_counter s + 1)) (fs_base s)).

(** [for (i = GDT_START; i < GDT_ENTRY_NR; i++) if (!gdt_ptr[i].p) break;] *)
Definition percpu_slot_step (t : u64array) (i : Z) : outcome (Z + Z) :=
  if i <? GDT_ENTRY_NR then
    p ← seg_get t i seg_desc.p;
    if p =? 0 then Ok (inr i) else Ok (inl (u16 (i + 1)))
  else Ok (inr i).

Definition percpu_segment (limit : Z) : list (bitfield * Z) := [
  (seg_desc.limit0, limit .& 0xFFFF);
  (seg_desc.limit1, (limit >>w 16) .& 0xF);
  (seg_desc.s, 1);
  (seg_desc.type, 2);
  (seg_desc.dpl, 0);
  (seg_desc.p, 1);
  (seg_desc.avl, 0);
  (seg_desc.l, 0);
  (seg_desc.db, 1);
  (seg_desc.g, 0)].

Definition percpu_init (s : percpu) : outcome percpu :=
  let pages := percpu_pages_plus_one in
  if pages =? 1 then Ok s
  else
    let pages := pages -w 1 in
    let limit := pages *w PG_SIZE -w 1 in
    i ← while (percpu_slot_step (gdt (pc_gdt s))) GDT_START;
    if i =? GDT_ENTRY_NR then Panic "out of GDT entries"
    else
      let k := pc_kernel s in
      '(start_frame, f) ← alloc_phys_frames (vm_frames (k_vm k)) pages;
      let k := set_vm k (with_frames (k_vm k) f) in
      if start_frame =? 0 then Panic "out of physical memory"
      else
        '(start_virt, v) ← vm_map_pages (k_vm k) start_frame pages (PGT_P .| PGT_RW .| PGT_XD);
        let k := set_vm k v in
        if start_virt =? 0 then Panic "out of virtual addresses"
        else
          virt ← list_set (percpu_virt s) (pcpu_counter s) start_virt;
          t ← seg_puts (gdt (pc_gdt s)) i (percpu_segment limit);
          let k := wrmsr k IA32_FS_BASE start_virt in
          pcpu_id_ctor (PerCpu k (GdtTable t (gdt_lock (pc_gdt s))) virt (pcpu_counter s) start_virt).
End percpu.

(** ** One word of the table *)

Lemma seg_put_ok t i f v : arr_wf t → 0 <= i < arr_len t → field_in 64 f →
  ∃ t', seg_put t i f v = Ok t' ∧ arr_upd t t' i (put_field f (arr_word t i) v) ∧ arr_wf t'.
Proof.
  intros Hwf Hi Hf. unfold seg_put. rewrite arr_get_ok, bind_ok by done.
  destruct (arr_set_ok t i (put_field f (arr_word t i) v) Hi) as (t' & E & Hu). exists t'. split; [done|]. split; [done|].
  apply (arr_upd_wf t t' i (put_field f (arr_word t i) v)); [done| |done].
  apply (put_field_bound 64); [done|apply Hwf].
Qed.

Lemma seg_puts_ok t i l : arr_wf t → 0 <= i < arr_len t → Forall (fun x => field_in 64 x.1) l →
  ∃ t', seg_puts t i l = Ok t' ∧ arr_upd t t' i (fill (arr_word t i) l) ∧ arr_wf t'.
Proof.
  intros Hwf Hi Hl. revert t Hwf Hi. induction Hl as [|[f v] l Hf _ IH]; intros t Hwf Hi.
  - exists t. split; [done|]. split; [|done]. split; [done|]. intros j. destruct (decide (i = j)) as [->|]; reflexivity.
  - destruct (seg_put_ok t i f v Hwf Hi Hf) as (t1 & E1 & [L1 W1] & F1).
    destruct (IH t1 F1 ltac:(by rewrite L1)) as (t2 & E2 & [L2 W2] & F2). exists t2. cbn [seg_puts]. rewrite E1, bind_ok.
    split; [done|]. split; [|done]. split; [congruence|]. intros j. rewrite W2, !W1, (decide_True (P := i = i)) by done.
    destruct (decide (i = j)); reflexivity.
Qed.

(** A data segment of [limit + 1] bytes, with the limit cut to its 20 bits. *)
Definition data_segment (w limit : Z) : Prop :=
  get_field seg_desc.limit0 w + 2 ^ 16 * get_field seg_desc.limit1 w = limit mod 2 ^ 20 ∧
  get_field seg_desc.s w = 1 ∧ get_field seg_desc.type w = 2 ∧ get_field seg_desc.dpl w = 0 ∧
  get_field seg_desc.p w = 1 ∧ get_field seg_desc.g w = 0.

Lemma percpu_segment_ok w limit : 0 <= limit → data_segment (fill w (percpu_segment limit)) limit.
Proof.
  intros Hl. unfold data_segment, percpu_segment. split_and!; [|read_field; reflexivity..].
  assert (H : ∀ x y, x = limit mod 2 ^ 16 → y = limit / 2 ^ 16 mod 2 ^ 4 → x + 2 ^ 16 * y = limit mod 2 ^ 20).
  { intros x y -> ->. dlia. }
  apply H; read_field; cbn [seg_desc.limit0 seg_desc.limit1 bf_len].
  - change 0xFFFF with (Z.ones 16). rewrite Z.land_ones by lia. apply Zmod_mod.
  - change 0xF with (Z.ones 4). rewrite Z.land_ones, Z.shiftr_div_pow2 by lia. apply Zmod_mod.
Qed.

Lemma percpu_slot_ok t : arr_len t = GDT_ENTRY_NR →
  wp (while (percpu_slot_step t) GDT_START) (fun i => GDT_START <= i <= GDT_ENTRY_NR ∧
    (∀ j, GDT_START <= j < i → seg_present t j = true) ∧ (i < GDT_ENTRY_NR → seg_present t i = false)).
Proof.
  intros Hlen. unfold GDT_START, GDT_ENTRY_NR in *.
  apply (wp_while _ (fun i => 3 <= i <= 512 ∧ ∀ j, 3 <= j < i → seg_present t j = true) (fun i => 512 - i));
    [|split; [lia|intros; lia]|lia].
  intros i [Hi Hall]. unfold percpu_slot_step, GDT_ENTRY_NR. destruct (Z.ltb_spec i 512) as [Hlt|Hge].
  - rewrite seg_get_p, bind_ok by lia. destruct (seg_present t i) eqn:E; cbn [Z.eqb wp wpx].
    + rewrite u16_id by (unfold is_u16; lia). split; [|lia]. split; [lia|]. intros j Hj.
      destruct (Z.eq_dec j i) as [->|]; [done|apply Hall; lia].
    + split; [lia|]. by split.
  - cbn [wp wpx]. split; [lia|]. split; [done|lia].
Qed.

(** ** What the CPUs own *)

Section owned.
Context {HM : Mmu} {HL : Linker}.

Definition pages : Z := percpu_pages_plus_one - 1.

(** The CPU whose FS base is [base] has the number [id]: its variable lies in a
    frame that is in use, and holds it. *)
Definition owned (s : percpu) (base id : Z) : Prop := ∃ pa,
  translate (vm_mem (k_vm (pc_kernel s))) (vm_cr3 (k_vm (pc_kernel s))) (base +w pcpu_id_addr) = Some pa ∧
  0 <= pa ∧ page_free (vm_frames (k_vm (pc_kernel s))) (pa / 4096) = false ∧ last_store (k_io (pc_kernel s)) pa = Some id.

Record percpu_ready (s : percpu) (f3 f2 f1 : Z) : Prop := PercpuReady {
  pr_gdt : gdt_ok (pc_gdt s);
  pr_pt : kernel_pt (k_vm (pc_kernel s)) f3 f2 f1;
  pr_phys : phys_wf (vm_frames (k_vm (pc_kernel s)));
  pr_virt : Z.of_nat (length (percpu_virt s)) = MAX_CPUS
}.

Definition percpu_message (m : string) : Prop :=
  m = "out of GDT entries"%string ∨ m = "out of physical memory"%string ∨ m = "out of virtual addresses"%string.

(** What [percpu_init] leaves. *)
Record percpu_added (s s' : percpu) (f3 f2 f1 i n : Z) : Prop := PercpuAdded {
  pa_entry : GDT_START <= i < GDT_ENTRY_NR ∧ seg_present (gdt (pc_gdt s)) i = false ∧
    (∀ j, GDT_START <= j < i → seg_present (gdt (pc_gdt s)) j = true);
  pa_segment : data_segment (arr_word (gdt (pc_gdt s')) i) (4096 * pages - 1);
  pa_others j : j ≠ i → arr_word (gdt (pc_gdt s')) j = arr_word (gdt (pc_gdt s)) j;
  pa_free m : n <= m < n + pages → page_free (vm_frames (k_vm (pc_kernel s))) m = true;
  pa_taken m : 0 <= m → page_free (vm_frames (k_vm (pc_kernel s'))) m =
    page_free (vm_frames (k_vm (pc_kernel s))) m && negb ((n <=? m) && (m <? n + pages));
  pa_mapped o : 0 <= o < 4096 * pages →
    translate (vm_mem (k_vm (pc_kernel s'))) (vm_cr3 (k_vm (pc_kernel s'))) (fs_base s' + o) = Some (4096 * n + o);
  pa_virt : percpu_virt s' = <[Z.to_nat (pcpu_counter s) := fs_base s']> (percpu_virt s);
  pa_counter : pcpu_counter s' = pcpu_counter s + 1;
  pa_ready : percpu_ready s' f3 f2 f1;
  pa_cr3 : vm_cr3 (k_vm (pc_kernel s')) = vm_cr3 (k_vm (pc_kernel s));
  pa_low : 256 <= n;
  pa_base : 0 <= fs_base s' ∧ fs_base s' + 4096 * pages < 2 ^ 64;
  pa_keeps va pa : translate (vm_mem (k_vm (pc_kernel s))) (vm_cr3 (k_vm (pc_kernel s))) va = Some pa →
    translate (vm_mem (k_vm (pc_kernel s'))) (vm_cr3 (k_vm (pc_kernel s'))) va = Some pa;
  pa_io : k_io (pc_kernel s') =
    MemStore (4096 * n + pcpu_id_addr) (pcpu_counter s) :: Wrmsr IA32_FS_BASE (fs_base s') :: k_io (pc_kernel s);
  pa_tables : k_apic (pc_kernel s') = k_apic (pc_kernel s) ∧ k_acpi (pc_kernel s') = k_acpi (pc_kernel s);
  pa_own : owned s' (fs_base s') (pcpu_counter s);
  pa_kept base id : owned s base id → owned s' base id
}.

(** Mapping a run keeps every translation. *)
Lemma run_keeps (v v' : vm phys) f1 i num va pa : run_free (vm_mem v) f1 i num →
  (∀ a, (∀ k, i <= k < i + num → a ≠ f1 + 8 * k) → ldw (vm_mem v') a = ldw (vm_mem v) a) →
  translate (vm_mem v) (vm_cr3 v) va = Some pa → translate (vm_mem v') (vm_cr3 v) va = Some pa.
Proof.
  intros Hf Ho. apply translate_stable. intros a Ha. apply Ho. intros k Hk ->.
  specialize (Hf k Hk). unfold slot_free, entry in Hf. congruence.
Qed.

Lemma pages_eq : 1 <= pages <= 512 → percpu_pages_plus_one -w 1 = pages.
Proof. unfold pages. intros Hp. apply u64_id. unfold is_u64. lia. Qed.
Lemma limit_eq : 1 <= pages <= 512 → pages *w PG_SIZE -w 1 = 4096 * pages - 1.
Proof.
  intros Hp. change PG_SIZE with 4096. rewrite (u64_id (pages * 4096)) by (unfold is_u64; lia).
  rewrite u64_id by (unfold is_u64; lia). lia.
Qed.

Lemma set_vm_twice (k : kernel phys) a b : set_vm (set_vm k a) b = set_vm k b.
Proof. reflexivity. Qed.

Lemma kernel_pt_frames (v : vm phys) f3 f2 f1 f : kernel_pt v f3 f2 f1 → kernel_pt (with_frames v f) f3 f2 f1.
Proof. by intros [H1 H2 H3 H4]. Qed.

(** The state at the end, when there are an entry [i], frames from [n] and room
    in the window, for the page tables [v] and the table [t]. *)
Definition percpu_end (s : percpu) (v : vm phys) (t : u64array) (va n : Z) : percpu :=
  PerCpu (add_io (wrmsr (set_vm (pc_kernel s) v) IA32_FS_BASE va) (MemStore (4096 * n + pcpu_id_addr) (pcpu_counter s)))
    (GdtTable t (gdt_lock (pc_gdt s))) (<[Z.to_nat (pcpu_counter s) := va]> (percpu_virt s)) (u16 (pcpu_counter s + 1)) va.

Section finish.
Context (s : percpu) (f3 f2 f1 i n va slot : Z) (p' : phys) (v : vm phys) (t : u64array).
Hypothesis Hs : percpu_ready s f3 f2 f1.
Hypothesis Hcnt : 0 <= pcpu_counter s < MAX_CPUS.
Hypothesis Haddr : 0 <= pcpu_id_addr <= 4096 * pages - 2.
Let v0 := k_vm (pc_kernel s).
Hypothesis Hentry : GDT_START <= i < GDT_ENTRY_NR ∧ seg_present (gdt (pc_gdt s)) i = false ∧
  (∀ j, GDT_START <= j < i → seg_present (gdt (pc_gdt s)) j = true).
Hypothesis Hn : 256 <= n ∧ n + pages <= 2 ^ 24.
Hypothesis Hfree : ∀ m, n <= m < n + pages → page_free (vm_frames v0) m = true.
Hypothesis Hupd : phys_upd (vm_frames v0) p' (in_range n (n + pages)) false.
Hypothesis Hv : kernel_pt v f3 f2 f1.
Hypothesis Hvf : vm_frames v = p'.
Hypothesis Hcr3 : vm_cr3 v = vm_cr3 v0.
Hypothesis Hva : 0 <= va ∧ va + 4096 * pages < 2 ^ 64.
Hypothesis Hrun : run_free (vm_mem v0) f1 slot pages.
Hypothesis Hother : ∀ a, (∀ k, slot <= k < slot + pages → a ≠ f1 + 8 * k) → ldw (vm_mem v) a = ldw (vm_mem v0) a.
Hypothesis Hmap : ∀ o, 0 <= o < 4096 * pages → translate (vm_mem v) (vm_cr3 v) (va + o) = Some (4096 * n + o).
Hypothesis Ht : arr_upd (gdt (pc_gdt s)) t i (fill (arr_word (gdt (pc_gdt s)) i) (percpu_segment (4096 * pages - 1))).
Hypothesis Htwf : arr_wf t.

Lemma taken_ok m : 0 <= m → page_free (vm_frames v) m = page_free (vm_frames v0) m && negb ((n <=? m) && (m <? n + pages)).
Proof using Hvf Hupd.
  intros Hm. rewrite Hvf, (upd_free _ _ _ _ Hupd) by done. unfold in_range.
  destruct ((n <=? m) && (m <? n + pages)); [by rewrite andb_false_r|by rewrite andb_true_r].
Qed.

Lemma own_addr : u64 (va + pcpu_id_addr) = va + pcpu_id_addr.
Proof using Haddr Hva. apply u64_id. unfold is_u64. lia. Qed.

Lemma owned_new : owned (percpu_end s v t va n) va (pcpu_counter s).
Proof using All.
  exists (4096 * n + pcpu_id_addr). unfold percpu_end. cbn [pc_kernel k_vm k_io add_io wrmsr set_vm].
  rewrite own_addr. split; [apply Hmap; lia|]. split; [lia|]. split.
  - rewrite taken_ok by dlia. rewrite (proj2 (Z.leb_le _ _)), (proj2 (Z.ltb_lt _ _)) by dlia. apply andb_false_r.
  - cbn [last_store]. by rewrite Z.eqb_refl.
Qed.

Lemma owned_kept base id : owned s base id → owned (percpu_end s v t va n) base id.
Proof using All.
  intros (pa & Htr & Hpa & Hused & Hst). exists pa. unfold percpu_end. cbn [pc_kernel k_vm k_io add_io wrmsr set_vm].
  assert (Hne : 4096 * n + pcpu_id_addr ≠ pa).
  { intros <-. rewrite Hfree in Hused by dlia. discriminate Hused. }
  split; [rewrite Hcr3; by apply (run_keeps v0 v f1 slot pages)|]. split; [done|]. split.
  - rewrite taken_ok by dlia. unfold v0. by rewrite Hused.
  - cbn [last_store]. by rewrite (proj2 (Z.eqb_neq _ _) Hne).
Qed.

Lemma end_added : percpu_added s (percpu_end s v t va n) f3 f2 f1 i n.
Proof using All.
  assert (Hready : percpu_ready (percpu_end s v t va n) f3 f2 f1).
  { destruct Hs as [[G1 G2 G3] P1 P2 P3]. split; cbn [pc_gdt pc_kernel percpu_virt percpu_end k_vm add_io wrmsr set_vm].
    - split; cbn [gdt gdt_lock]; [by rewrite (proj1 Ht)|done|done].
    - exact Hv.
    - rewrite Hvf. apply Hupd.
    - by rewrite length_insert. }
  split; try done.
  - cbn [percpu_end pc_gdt gdt]. rewrite (proj2 Ht), decide_True by done. apply percpu_segment_ok. lia.
  - intros j Hj. cbn [percpu_end pc_gdt gdt]. by rewrite (proj2 Ht), decide_False by done.
  - intros m Hm. by apply taken_ok.
  - unfold percpu_end. cbn [pcpu_counter]. apply u16_id. unfold is_u16, MAX_CPUS in *. lia.
  - lia.
  - intros va' pa. cbn [percpu_end pc_kernel k_vm add_io wrmsr set_vm]. rewrite Hcr3. by apply (run_keeps v0 v f1 slot pages).
  - apply owned_new.
  - apply owned_kept.
Qed.

(** The constructor of the number. *)
Lemma ctor_ok : pcpu_id_ctor (PerCpu (wrmsr (set_vm (pc_kernel s) v) IA32_FS_BASE va) (GdtTable t (gdt_lock (pc_gdt s)))
    (<[Z.to_nat (pcpu_counter s) := va]> (percpu_virt s)) (pcpu_counter s) va) = Ok (percpu_end s v t va n).
Proof using Haddr Hva Hmap.
  unfold pcpu_id_ctor, mem_store. cbn [pc_kernel k_vm k_io add_io wrmsr set_vm fs_base pcpu_counter]. rewrite own_addr, Hmap by lia.
  reflexivity.
Qed.
End finish.

(** Why each of the messages is given: no entry of the GDT is left, no run of frames that the allocator
    is sure to find, or no run of slots that the search is sure to find. *)
Definition percpu_stop (s : percpu) (f1 : Z) (msg : string) : Prop :=
  (msg = "out of GDT entries"%string ∧ ∀ j, GDT_START <= j < GDT_ENTRY_NR → seg_present (gdt (pc_gdt s)) j = true) ∨
  (msg = "out of physical memory"%string ∧ ∀ q, ¬ slack_run (vm_frames (k_vm (pc_kernel s))) pages q) ∨
  (msg = "out of virtual addresses"%string ∧ ¬ run_free (vm_mem (k_vm (pc_kernel s))) f1 0 pages).

Lemma percpu_init_stops s f3 f2 f1 : percpu_ready s f3 f2 f1 → 0 <= pcpu_counter s < MAX_CPUS → 1 <= pages <= 512 →
  0 <= pcpu_id_addr <= 4096 * pages - 2 →
  wpx (percpu_init s) (fun s' => ∃ i n, percpu_added s s' f3 f2 f1 i n) (percpu_stop s f1)
    (∀ q, ¬ slack_run (vm_frames (k_vm (pc_kernel s))) pages q).
Proof.
  intros Hs Hcnt Hpg Haddr. unfold percpu_init. cbv zeta.
  destruct (Z.eqb_spec percpu_pages_plus_one 1) as [E1|_]; [unfold pages in Hpg; lia|].
  rewrite pages_eq, limit_eq by done. apply wpx_bind.
  apply (wpx_mono _ _ _ _ _ _ _ (percpu_slot_ok (gdt (pc_gdt s)) (gdt_len _ (pr_gdt _ _ _ _ Hs)))); [|by intros m []|by intros []].
  intros i (Hi & Hbefore & Hfree). destruct (Z.eqb_spec i GDT_ENTRY_NR) as [->|Hne]; [by left|].
  assert (Hlt : i < GDT_ENTRY_NR) by lia. apply wpx_bind.
  apply (wpx_mono _ _ _ _ _ _ _ (alloc_phys_frames_ok _ pages (pr_phys _ _ _ _ Hs) ltac:(lia))); [|by intros m []|done].
  intros [r p'] [(n & -> & Hn & Hrun & Hu)|(-> & Hno & _)]; [|right; by left].
  destruct (Z.eqb_spec (4096 * n) 0); [lia|]. cbn [k_vm set_vm].
  pose proof (kernel_pt_frames _ _ _ _ p' (pr_pt _ _ _ _ Hs)) as Hk.
  destruct (vm_map_pages_mapped _ f3 f2 f1 (4096 * n) pages (PGT_P .| PGT_RW .| PGT_XD) Hk) as (va & v & E & Hv & Hc & Hf & Hmap);
    [lia|change (2 ^ 12) with 4096; rewrite Z.mul_comm; by apply Z.mod_mul|lia|lia|reflexivity|reflexivity|].
  rewrite E, bind_ok. destruct Hmap as [(slot & Hs0 & Hs1 & Hsf & -> & Hother & Htr)|(-> & _ & Hno & _)]; [|right; right; split; [done|intros Hf0; apply Hno; by split; [lia|]]].
  destruct (Z.eqb_spec (KERNEL_MAPPING_BASE + 4096 * slot) 0) as [E0|_]; [unfold KERNEL_MAPPING_BASE in E0; change MALLOC_END with 0xA00000 in E0; lia|].
  rewrite list_set_ok, bind_ok by (rewrite (pr_virt _ _ _ _ Hs); lia).
  destruct (seg_puts_ok (gdt (pc_gdt s)) i (percpu_segment (4096 * pages - 1)) (gdt_wf _ (pr_gdt _ _ _ _ Hs))) as (t & Et & Ht & Htwf);
    [rewrite (gdt_len _ (pr_gdt _ _ _ _ Hs)); unfold GDT_START in Hi; lia|all_fields|].
  rewrite Et, bind_ok, set_vm_twice. unfold GDT_START, KERNEL_MAPPING_BASE in *. change MALLOC_END with 0xA00000 in *.
  rewrite (ctor_ok s n _ v t); try done; try lia.
  exists i, n. apply (end_added s f3 f2 f1 i n _ slot p' v t); try done; try lia.
  split; [unfold GDT_START; lia|]. split; [by apply Hfree|done].
Qed.

Lemma percpu_init_ok s f3 f2 f1 : percpu_ready s f3 f2 f1 → 0 <= pcpu_counter s < MAX_CPUS → 1 <= pages <= 512 →
  0 <= pcpu_id_addr <= 4096 * pages - 2 →
  wpx (percpu_init s) (fun s' => ∃ i n, percpu_added s s' f3 f2 f1 i n) percpu_message
    (∀ q, ¬ slack_run (vm_frames (k_vm (pc_kernel s))) pages q).
Proof.
  intros Hs Hc Hp Ha. eapply wpx_mono; [exact (percpu_init_stops s f3 f2 f1 Hs Hc Hp Ha)|done| |done].
  intros msg [[-> _]|[[-> _]|[-> _]]]; [by left|by right; left|by right; right].
Qed.
End owned.

Section theorem.
Context {HM : Mmu} {HL : Linker}.

Lemma owned_get s base id : owned s base id → get_pcpu_id (pc_kernel s) base = Ok id.
Proof. intros (pa & Htr & _ & _ & Hst). unfold get_pcpu_id. by rewrite Htr, Hst. Qed.

(** C27: [percpu_init] on the CPU number [pcpu_counter], for at most 512 pages of
    per-CPU data and fewer than [MAX_CPUS] CPUs: it takes the first free
    entry of the GDT for a data segment and changes no other; it takes a run
    of frames that were free and no other, maps them in order from the new FS
    base and records the base in [percpu_virt]; the CPU then reads its own number,
    and every CPU that was set up before still reads its own. It stops
    with one of its three messages when an entry, frames or room in the window
    are missing, and faults at most when there is no run of free frames with the slack
    [alloc_phys_frames] needs. *)
Theorem percpu_init_spec s f3 f2 f1 : percpu_ready s f3 f2 f1 → 0 <= pcpu_counter s < MAX_CPUS →
  1 <= pages <= 512 → 0 <= pcpu_id_addr <= 4096 * pages - 2 →
  wpx (percpu_init s) (fun s' => (∃ i n, percpu_added s s' f3 f2 f1 i n) ∧
      get_pcpu_id (pc_kernel s') (fs_base s') = Ok (pcpu_counter s) ∧
      ∀ base id, owned s base id → get_pcpu_id (pc_kernel s') base = Ok id)
    percpu_message (∀ q, ¬ slack_run (vm_frames (k_vm (pc_kernel s))) pages q).
Proof.
  intros Hs Hc Hp Ha. apply (wpx_post _ _ _ _ _ (percpu_init_ok s f3 f2 f1 Hs Hc Hp Ha)).
  intros s' (i & n & H). split; [by exists i, n|]. split; [apply owned_get, H|].
  intros base id Ho. by apply owned_get, (pa_kept _ _ _ _ _ _ _ H).
Qed.
End theorem.

Definition sample_linker : Linker := {| percpu_pages_plus_one := 2; pcpu_id_addr := 0x10 |}.
Definition boot_percpu : percpu :=
  PerCpu (Kernel (with_frames init_vm ample_phys) apic_init acpi_statics [] []) boot_gdt (replicate 16 0) 0 0.

Lemma boot_percpu_ready : percpu_ready boot_percpu 0x301000 0x302000 0x13F000.
Proof.
  split; [exact boot_gdt_ok|apply kernel_pt_frames, init_kernel|exact ample_phys_wf|reflexivity].
Qed.

Lemma percpu_init_spec_witness : ∃ s', percpu_init (HL := sample_linker) boot_percpu = Ok s' ∧
  get_pcpu_id (HL := sample_linker) (pc_kernel s') (fs_base s') = Ok 0.
Proof.
  pose proof (percpu_init_spec (HL := sample_linker) boot_percpu _ _ _ boot_percpu_ready ltac:(cbn; unfold MAX_CPUS; lia)
    ltac:(unfold pages; cbn; lia) ltac:(unfold pages; cbn; lia)) as Hw.
  assert (Hs : match percpu_init (HL := sample_linker) boot_percpu with Ok _ => true | _ => false end = true) by (vm_compute; reflexivity).
  destruct (percpu_init (HL := sample_linker) boot_percpu) as [s'| | |]; [|discriminate Hs..].
  exists s'. split; [reflexivity|]. destruct Hw as (_ & H & _). exact H.
Defined.
