(* ===== verification/Vmcs.v ===== *)
(** * Fields of the virtual-machine control structure

    The encodings of [arch/x86_64/include/virt/virt_internal.h] and the model-specific
    registers of [arch/x86_64/include/msr.h], the writes of the
    control structure, and the conditions the processor checks at a VM entry. *)

From S2P Require Import Prelude Bits.

Local Open Scope Z_scope.
Local Open Scope c_scope.

(** ** virt_internal.h *)

(** exit information 32-bit fields *)
Definition VMCS_INSTR_ERROR : Z := 0x4400.
Definition VMCS_EXIT_REASON : Z := 0x4402.
Definition VMCS_EXIT_INT_INFO : Z := 0x4404.
Definition VMCS_EXIT_INT_CODE : Z := 0x4406.
Definition VMCS_EXIT_IDT_INFO : Z := 0x4408.
Definition VMCS_EXIT_IDT_CODE : Z := 0x440A.
Definition VMCS_INSTR_LENGTH : Z := 0x440C.
Definition VMCS_INSTR_INFO : Z := 0x440E.

(** exit information 64-bit fields *)
Definition VMCS_PHY_ADDR : Z := 0x2400.

(** exit information natural-width fields *)
Definition VMCS_EXIT_QUAL : Z := 0x6400.
Definition VMCS_LINEAR_ADDR : Z := 0x640A.

(** guest 64-bit fields *)
Definition VMCS_GUEST_LP : Z := 0x2800.
Definition VMCS_GUEST_EFER : Z := 0x2806.
Definition VMCS_GUEST_PAT : Z := 0x2804.
Definition VMCS_GUEST_PDPTE0 : Z := 0x280A.
Definition VMCS_GUEST_PDPTE1 : Z := 0x280C.
Definition VMCS_GUEST_PDPTE2 : Z := 0x280E.
Definition VMCS_GUEST_PDPTE3 : Z := 0x2810.
Definition VMCS_GUEST_DEBUGCTL : Z := 0x2802.
Definition VMCS_GUEST_PERF : Z := 0x2808.
Definition VMCS_GUEST_BNDCFGS : Z := 0x2812.

(** guest 32-bit fields *)
Definition VMCS_GUEST_CS_LMT : Z := 0x4802.
Definition VMCS_GUEST_DS_LMT : Z := 0x4806.
Definition VMCS_GUEST_ES_LMT : Z := 0x4800.
Definition VMCS_GUEST_SS_LMT : Z := 0x4804.
Definition VMCS_GUEST_FS_LMT : Z := 0x4808.
Definition VMCS_GUEST_GS_LMT : Z := 0x480A.
Definition VMCS_GUEST_LDTR_LMT : Z := 0x480C.
Definition VMCS_GUEST_TR_LMT : Z := 0x480E.
Definition VMCS_GUEST_GDTR_LMT : Z := 0x4810.
Definition VMCS_GUEST_IDTR_LMT : Z := 0x4812.
Definition VMCS_GUEST_CS_ACC : Z := 0x4816.
Definition VMCS_GUEST_DS_ACC : Z := 0x481A.
Definition VMCS_GUEST_ES_ACC : Z := 0x4814.
Definition VMCS_GUEST_SS_ACC : Z := 0x4818.
Definition VMCS_GUEST_FS_ACC : Z := 0x481C.
Definition VMCS_GUEST_GS_ACC : Z := 0x481E.
Definition VMCS_GUEST_LDTR_ACC : Z := 0x4820.
Definition VMCS_GUEST_TR_ACC : Z := 0x4822.
Definition VMCS_GUEST_ACTIVE : Z := 0x4826.
Definition VMCS_GUEST_INT : Z := 0x4824.
Definition VMCS_GUEST_SMBASE : Z := 0x4828.
Definition VMCS_GUEST_SYS_CS : Z := 0x482A.
Definition VMCS_GUEST_TIMER : Z := 0x482E.

(** guest 16-bit fields *)
Definition VMCS_GUEST_CS_SEL : Z := 0x802.
Definition VMCS_GUEST_DS_SEL : Z := 0x806.
Definition VMCS_GUEST_ES_SEL : Z := 0x800.
Definition VMCS_GUEST_SS_SEL : Z := 0x804.
Definition VMCS_GUEST_FS_SEL : Z := 0x808.
Definition VMCS_GUEST_GS_SEL : Z := 0x80A.
Definition VMCS_GUEST_LDTR_SEL : Z := 0x80C.
Definition VMCS_GUEST_TR_SEL : Z := 0x80E.
Definition VMCS_GUEST_STATUS : Z := 0x810.
Definition VMCS_GUEST_PML : Z := 0x812.

(** guest natural-width fields *)
Definition VMCS_GUEST_CS_BASE : Z := 0x6808.
Definition VMCS_GUEST_DS_BASE : Z := 0x680C.
Definition VMCS_GUEST_ES_BASE : Z := 0x6806.
Definition VMCS_GUEST_SS_BASE : Z := 0x680A.
Definition VMCS_GUEST_FS_BASE : Z := 0x680E.
Definition VMCS_GUEST_GS_BASE : Z := 0x6810.
Definition VMCS_GUEST_LDTR_BASE : Z := 0x6812.
Definition VMCS_GUEST_TR_BASE : Z := 0x6814.
Definition VMCS_GUEST_GDTR_BASE : Z := 0x6816.
Definition VMCS_GUEST_IDTR_BASE : Z := 0x6818.
Definition VMCS_GUEST_RFLAGS : Z := 0x6820.
Definition VMCS_GUEST_CR0 : Z := 0x6800.
Definition VMCS_GUEST_CR3 : Z := 0x6802.
Definition VMCS_GUEST_CR4 : Z := 0x6804.
Definition VMCS_GUEST_DR7 : Z := 0x681A.
Definition VMCS_GUEST_DEBUG : Z := 0x6822.
Definition VMCS_GUEST_RIP : Z := 0x681E.
Definition VMCS_GUEST_RSP : Z := 0x681C.
Definition VMCS_GUEST_SYS_ESP : Z := 0x6824.
Definition VMCS_GUEST_SYS_EIP : Z := 0x6826.

(** host natural-width fields *)
Definition VMCS_HOST_CR0 : Z := 0x6C00.
Definition VMCS_HOST_CR3 : Z := 0x6C02.
Definition VMCS_HOST_CR4 : Z := 0x6C04.
Definition VMCS_HOST_FS_BASE : Z := 0x6C06.
Definition VMCS_HOST_GS_BASE : Z := 0x6C08.
Definition VMCS_HOST_TR_BASE : Z := 0x6C0A.
Definition VMCS_HOST_GDTR_BASE : Z := 0x6C0C.
Definition VMCS_HOST_IDTR_BASE : Z := 0x6C0E.
Definition VMCS_HOST_RSP : Z := 0x6C14.
Definition VMCS_HOST_RIP : Z := 0x6C16.

(** host 64-bit fields *)
Definition VMCS_HOST_PAT : Z := 0x2C00.
Definition VMCS_HOST_EFER : Z := 0x2C02.

(** host 16-bit fields *)
Definition VMCS_HOST_CS_SEL : Z := 0xC02.
Definition VMCS_HOST_DS_SEL : Z := 0xC06.
Definition VMCS_HOST_ES_SEL : Z := 0xC00.
Definition VMCS_HOST_SS_SEL : Z := 0xC04.
Definition VMCS_HOST_FS_SEL : Z := 0xC08.
Definition VMCS_HOST_GS_SEL : Z := 0xC0A.
Definition VMCS_HOST_TR_SEL : Z := 0xC0C.

(** control 32-bit fields *)
Definition VMCS_CTRL_PIN : Z := 0x4000.
Definition VMCS_CTRL_PPROC : Z := 0x4002.
Definition VMCS_CTRL_SPROC : Z := 0x401E.
Definition VMCS_CTRL_EXP_MAP : Z := 0x4004.
Definition VMCS_CTRL_EXIT : Z := 0x400C.
Definition VMCS_CTRL_EXIT_SCNT : Z := 0x400E.
Definition VMCS_CTRL_EXIT_LCNT : Z := 0x4010.
Definition VMCS_CTRL_ENTRY : Z := 0x4012.
Definition VMCS_CTRL_ENTRY_LCNT : Z := 0x4014.
Definition VMCS_CTRL_ENTRY_INT : Z := 0x4016.
Definition VMCS_CTRL_CR3_CNT : Z := 0x400A.
Definition VMCS_CTRL_PF_MASK : Z := 0x4006.
Definition VMCS_CTRL_PF_MATCH : Z := 0x4008.

(** control 64-bit fields *)
Definition VMCS_CTRL_IOMAP_A : Z := 0x2000.
Definition VMCS_CTRL_IOMAP_B : Z := 0x2002.
Definition VMCS_CTRL_EPTP : Z := 0x201A.

(** control natural-width fields *)
Definition VMCS_CTRL_CR0_MASK : Z := 0x6000.
Definition VMCS_CTRL_CR4_MASK : Z := 0x6002.
Definition VMCS_CTRL_CR0_RD : Z := 0x6004.
Definition VMCS_CTRL_CR4_RD : Z := 0x6006.

(** ** msr.h *)

Definition IA32_FEATURE_CONTROL : Z := 0x3A.
Definition IA32_PAT : Z := 0x277.
Definition IA32_VMX_BASIC : Z := 0x480.
Definition IA32_VMX_PINBASED_CTLS : Z := 0x481.
Definition IA32_VMX_PROCBASED_CTLS : Z := 0x482.
Definition IA32_VMX_EXIT_CTLS : Z := 0x483.
Definition IA32_VMX_ENTRY_CTLS : Z := 0x484.
Definition IA32_VMX_CR0_FIXED0 : Z := 0x486.
Definition IA32_VMX_CR0_FIXED1 : Z := 0x487.
Definition IA32_VMX_CR4_FIXED0 : Z := 0x488.
Definition IA32_VMX_CR4_FIXED1 : Z := 0x489.
Definition IA32_VMX_PROCBASED_CTLS2 : Z := 0x48B.
Definition IA32_VMX_TRUE_PINBASED_CTLS : Z := 0x48D.
Definition IA32_VMX_TRUE_PROCBASED_CTLS : Z := 0x48E.
Definition IA32_VMX_TRUE_EXIT_CTLS : Z := 0x48F.
Definition IA32_VMX_TRUE_ENTRY_CTLS : Z := 0x490.
Definition IA32_EFER : Z := 0xC0000080.
Definition IA32_GS_BASE : Z := 0xC0000101.

(** ** Writing fields *)

(** The current control structure: the operand of the last [vmwrite] to each
    field. *)
Definition vmcs : Type := gmap Z Z.
Definition vmwrite (c : vmcs) (encoding val : Z) : vmcs := <[encoding := val]> c.

(** A sequence of [vmwrite]s, in the order of the code. *)
Definition vmwrites (c : vmcs) (l : list (Z * Z)) : vmcs := foldl (fun c x => vmwrite c x.1 x.2) c l.

(** The last value a sequence writes to a field. *)
Fixpoint last_write (l : list (Z * Z)) (e : Z) : option Z :=
  match l with
  | [] => None
  | (e', v) :: l => match last_write l e with
                    | Some v' => Some v'
                    | None => if e' =? e then Some v else None
                    end
  end.

Lemma vmwrites_lookup c l e : vmwrites c l !! e = match last_write l e with Some v => Some v | None => c !! e end.
Proof.
  revert c. induction l as [|[e' v] l IH]; intros c; [done|]. cbn [vmwrites foldl fst snd last_write].
  change (vmwrites (vmwrite c e' v) l !! e = match match last_write l e with Some v' => Some v' | None => if e' =? e then Some v else None end with
    Some v0 => Some v0 | None => c !! e end).
  rewrite IH. destruct (last_write l e); [done|]. unfold vmwrite.
  destruct (Z.eqb_spec e' e) as [->|Hne]; [apply (lookup_insert_eq (M := gmap Z))|by apply (lookup_insert_ne (M := gmap Z))].
Qed.

Lemma vmwrites_app c l l' : vmwrites c (l ++ l') = vmwrites (vmwrites c l) l'.
Proof. apply foldl_app. Qed.

(** ** What the processor makes of the fields

    The manual gives the width of a field by bits 13 and 14 of its encoding, and a
    write stores that many bits of its operand. *)
Definition field_width (e : Z) : Z :=
  match Z.land (Z.shiftr e 13) 3 with 0 => 16 | 2 => 32 | _ => 64 end.
Definition vmfield (c : vmcs) (e : Z) : Z := default 0 (c !! e) mod 2 ^ field_width e.

(** [v] has every bit of [must] and no bit outside [may], where [scope] holds. *)
Definition bits_between (scope : Z → bool) (must may v : Z) : Prop :=
  ∀ n, 0 <= n < 64 → scope n = true →
    (Z.testbit must n = true → Z.testbit v n = true) ∧ (Z.testbit v n = true → Z.testbit may n = true).

(** A word of controls against its capability register: the low half has the
    bits that must be 1, the high half those that may be. *)
Definition control_ok (cap v : Z) : Prop :=
  ∀ n, 0 <= n < 32 →
    (Z.testbit cap n = true → Z.testbit v n = true) ∧ (Z.testbit v n = true → Z.testbit cap (n + 32) = true).

(** *** Segments *)

Definition ar_type (ar : Z) : Z := ar .& 0xF.
Definition ar_s (ar : Z) : bool := Z.testbit ar 4.
Definition ar_dpl (ar : Z) : Z := Z.shiftr ar 5 .& 3.
Definition ar_p (ar : Z) : bool := Z.testbit ar 7.
Definition ar_l (ar : Z) : bool := Z.testbit ar 13.
Definition ar_g (ar : Z) : bool := Z.testbit ar 15.
Definition ar_unusable (ar : Z) : bool := Z.testbit ar 16.
Definition ar_reserved (ar : Z) : bool := (Z.shiftr ar 8 .& 0xF =? 0) && (Z.shiftr ar 17 =? 0).

(** The granularity fits the limit. *)
Definition limit_ok (lmt ar : Z) : bool :=
  ((lmt .& 0xFFF =? 0xFFF) || negb (ar_g ar)) && ((Z.shiftr lmt 20 =? 0) || ar_g ar).

Section checks.
Variable c : vmcs.
Local Abbreviation rd := (vmfield c).

Definition base_ok (base : Z) : bool := Z.shiftr base 32 =? 0.

(** A segment in use that holds data: the type is accessed data (or, for all but the
    stack, readable code). *)
Definition data_ok (ar : Z) : bool :=
  (ar_type ar =? 1) || (ar_type ar =? 3) || (ar_type ar =? 5) || (ar_type ar =? 7) ||
  (ar_type ar =? 11) || (ar_type ar =? 15).
Definition segment_ok (base lmt ar : Z) : bool :=
  negb (ar_unusable ar) && ar_s ar && ar_p ar && ar_reserved ar && limit_ok lmt ar && base_ok base.

Definition cs_ok : bool :=
  let ar := rd VMCS_GUEST_CS_ACC in
  segment_ok (rd VMCS_GUEST_CS_BASE) (rd VMCS_GUEST_CS_LMT) ar &&
  ((ar_type ar =? 9) || (ar_type ar =? 11)) && (ar_dpl ar =? ar_dpl (rd VMCS_GUEST_SS_ACC)) && negb (ar_l ar).
Definition ss_ok : bool :=
  let ar := rd VMCS_GUEST_SS_ACC in
  segment_ok (rd VMCS_GUEST_SS_BASE) (rd VMCS_GUEST_SS_LMT) ar &&
  ((ar_type ar =? 3) || (ar_type ar =? 7)) && (ar_dpl ar =? 0).
Definition ds_ok (base lmt acc : Z) : bool :=
  segment_ok (rd base) (rd lmt) (rd acc) && data_ok (rd acc).
(** The task register holds a busy 32-bit TSS, the local descriptor table nothing. *)
Definition tr_ok : bool :=
  let ar := rd VMCS_GUEST_TR_ACC in
  negb (Z.testbit (rd VMCS_GUEST_TR_SEL) 2) && negb (ar_unusable ar) && ((ar_type ar =? 3) || (ar_type ar =? 11)) &&
  negb (ar_s ar) && ar_p ar && ar_reserved ar && limit_ok (rd VMCS_GUEST_TR_LMT) ar && (rd VMCS_GUEST_TR_BASE =? 0).
Definition ldtr_ok : bool := ar_unusable (rd VMCS_GUEST_LDTR_ACC).

Definition segments_ok : bool :=
  cs_ok && ss_ok && ds_ok VMCS_GUEST_DS_BASE VMCS_GUEST_DS_LMT VMCS_GUEST_DS_ACC &&
  ds_ok VMCS_GUEST_ES_BASE VMCS_GUEST_ES_LMT VMCS_GUEST_ES_ACC &&
  ds_ok VMCS_GUEST_FS_BASE VMCS_GUEST_FS_LMT VMCS_GUEST_FS_ACC &&
  ds_ok VMCS_GUEST_GS_BASE VMCS_GUEST_GS_LMT VMCS_GUEST_GS_ACC && tr_ok && ldtr_ok.

(** The rest of the guest state, for a guest that enters without paging
    and without a pending event. *)
Definition guest_misc_ok : bool :=
  (rd VMCS_GUEST_RFLAGS =? 2) && (rd VMCS_GUEST_LP =? UINT64_MAX) && (rd VMCS_GUEST_ACTIVE =? 0) &&
  (rd VMCS_GUEST_INT =? 0) && (rd VMCS_GUEST_DEBUG =? 0) && (rd VMCS_GUEST_EFER =? 0) &&
  (rd VMCS_GUEST_DEBUGCTL =? 0) && (rd VMCS_GUEST_DR7 =? 0) && (rd VMCS_GUEST_CR3 =? 0) &&
  (rd VMCS_GUEST_GDTR_LMT =? 0xFFFF) && (rd VMCS_GUEST_IDTR_LMT =? 0xFFFF) && (Z.shiftr (rd VMCS_GUEST_RIP) 32 =? 0).

(** The guest state as a whole, for the fixed bits of CR0 and CR4; with unrestricted
    guest, PE (bit 0) and PG (bit 31) of CR0 are free. *)
Record guest_state_ok (rdmsr : Z → Z) : Prop := GuestStateOk {
  gs_cr0 : bits_between (fun n => negb (n =? 0) && negb (n =? 31)) (rdmsr IA32_VMX_CR0_FIXED0) (rdmsr IA32_VMX_CR0_FIXED1)
    (rd VMCS_GUEST_CR0);
  gs_pe : Z.testbit (rd VMCS_GUEST_CR0) 0 = true;
  gs_pg : Z.testbit (rd VMCS_GUEST_CR0) 31 = false;
  gs_cr4 : bits_between (fun _ => true) (rdmsr IA32_VMX_CR4_FIXED0) (rdmsr IA32_VMX_CR4_FIXED1) (rd VMCS_GUEST_CR4);
  gs_segments : segments_ok = true;
  gs_misc : guest_misc_ok = true
}.

(** *** What the manual asks of addresses and of the registers that are loaded *)

Definition canonical (a : Z) : Prop := 0 <= a < 2 ^ 47 ∨ 2 ^ 64 - 2 ^ 47 <= a < 2 ^ 64.

(** Each byte of the page attribute table is one of the memory types. *)
Definition pat_ok (v : Z) : Prop := ∀ i, 0 <= i < 8 → Z.shiftr v (8 * i) .& 0xFF ∈ [0; 1; 4; 5; 6; 7].

(** A 64-bit processor: LME and LMA are set, and only SCE and NXE beside them. *)
Definition efer_ok (v : Z) : Prop := ∀ n, 0 <= n < 64 →
  (n = 8 ∨ n = 10 → Z.testbit v n = true) ∧ (Z.testbit v n = true → n ∈ [0; 8; 10; 11]).

(** The bits of a control register that VMX operation fixes. *)
Definition fixed_ok (fixed0 fixed1 v : Z) : Prop := ∀ n, 0 <= n < 64 →
  (Z.testbit fixed0 n = true → Z.testbit v n = true) ∧ (Z.testbit v n = true → Z.testbit fixed1 n = true).

(** The fields of the host for SYSENTER, which virt_internal.h does not name. *)
Definition HOST_SYSENTER_ESP : Z := 0x6C10.
Definition HOST_SYSENTER_EIP : Z := 0x6C12.
Definition sysenter_ok : Prop := canonical (rd HOST_SYSENTER_ESP) ∧ canonical (rd HOST_SYSENTER_EIP).

(** The selectors are of ring 0 and of the GDT, a code and a task segment among them. *)
Definition host_selector_ok (e : Z) : bool := rd e .& 7 =? 0.
Definition host_selectors_ok : Prop :=
  (∀ e, e ∈ [VMCS_HOST_CS_SEL; VMCS_HOST_DS_SEL; VMCS_HOST_ES_SEL; VMCS_HOST_SS_SEL; VMCS_HOST_FS_SEL;
             VMCS_HOST_GS_SEL; VMCS_HOST_TR_SEL] → host_selector_ok e = true) ∧
  rd VMCS_HOST_CS_SEL ≠ 0 ∧ rd VMCS_HOST_TR_SEL ≠ 0.

(** What the processor checks of the state that it loads at an exit to a 64-bit host. *)
Record host_state_ok (rdmsr : Z → Z) : Prop := HostStateOk {
  hs_cr0 : fixed_ok (rdmsr IA32_VMX_CR0_FIXED0) (rdmsr IA32_VMX_CR0_FIXED1) (rd VMCS_HOST_CR0);
  hs_cr4 : fixed_ok (rdmsr IA32_VMX_CR4_FIXED0) (rdmsr IA32_VMX_CR4_FIXED1) (rd VMCS_HOST_CR4);
  hs_pae : Z.testbit (rd VMCS_HOST_CR4) 5 = true;
  hs_cr3 : rd VMCS_HOST_CR3 < 2 ^ 52;
  hs_efer : efer_ok (rd VMCS_HOST_EFER);
  hs_pat : pat_ok (rd VMCS_HOST_PAT);
  hs_bases e : e ∈ [VMCS_HOST_FS_BASE; VMCS_HOST_GS_BASE; VMCS_HOST_TR_BASE; VMCS_HOST_GDTR_BASE; VMCS_HOST_IDTR_BASE] → canonical (rd e);
  hs_rip : canonical (rd VMCS_HOST_RIP);
  hs_sysenter : sysenter_ok;
  hs_selectors : host_selectors_ok
}.

(** What it checks of the registers that the entry loads for the guest. *)
Definition guest_loads_ok : Prop :=
  pat_ok (rd VMCS_GUEST_PAT) ∧
  ∀ e, e ∈ [VMCS_GUEST_GDTR_BASE; VMCS_GUEST_IDTR_BASE; VMCS_GUEST_SYS_ESP; VMCS_GUEST_SYS_EIP] → canonical (rd e).
End checks.

Lemma fixed_ok_set fixed0 fixed1 v : (∀ n, Z.testbit fixed0 n = true → Z.testbit fixed1 n = true) →
  fixed_ok fixed0 fixed1 ((v .| fixed0) .& fixed1).
Proof.
  intros H n Hn. rewrite Z.land_spec, Z.lor_spec. split.
  - intros H0. by rewrite H0, orb_true_r, (H n H0).
  - by intros [_ H1]%andb_true_iff.
Qed.
Lemma canonical_u64 a : canonical a → is_u64 a.
Proof. unfold canonical, is_u64. lia. Qed.
