(* ===== verification/Virt.v ===== *)
(** * Setting up a guest

    Models the part of [arch/x86_64/virt/virt.c] that fills the control
    structure of a virtual machine: [virt_guest_setup], [virt_host_setup] and
    [virt_control_setup]. The registers and model-specific registers of the
    processor are arguments. *)

From S2P Require Import Prelude Layout Bits Spinlock Physical Mmu Paging Kernel Apic Descriptors Percpu Vmcs.

Local Open Scope Z_scope.
Local Open Scope c_scope.

(** [vm_struct_t] without its lock. *)
Record vm_struct := VmStruct {
  vm_id : Z;
  name : list Z;
  img_paddr : Z;
  img_size : Z;
  vm_num_cpus : Z;
  vm_ram_size : Z;
  input : Z;
  entry_point : Z;
  gdtr : Z;
  vmcs_paddr : list Z;
  extra_paddr : Z;
  extra_size : Z;
  vm_lock : spinlock
}.

(** The processor that runs. *)
Class Processor := {
  rdmsr : Z → Z;
  reg_cr0 : Z; reg_cr3 : Z; reg_cr4 : Z;
  reg_cs : Z; reg_ds : Z; reg_es : Z; reg_ss : Z; reg_fs : Z; reg_gs : Z; reg_tr : Z;
  reg_gdtr_base : Z; reg_idtr_base : Z; reg_rsp : Z;
  (** the address of [virt_main] *)
  virt_main : Z;
  (** [ecx] of leaf 1 of [cpuid] *)
  cpuid_1_ecx : Z
}.

Section virt.
Context {HP : Processor}.

Definition virt_guest_setup (vm : vm_struct) (c : vmcs) : vmcs :=
  let cr0 := rdmsr IA32_VMX_CR0_FIXED0 in
  let cr0 := cr0 .& rdmsr IA32_VMX_CR0_FIXED1 in
  let cr0 := cr0 .& 0x7FFFFFFF in
  let cr4 := rdmsr IA32_VMX_CR4_FIXED0 in
  let cr4 := cr4 .& rdmsr IA32_VMX_CR4_FIXED1 in
  vmwrites c [
    (VMCS_GUEST_RFLAGS, 0x2); (VMCS_GUEST_CR3, 0); (VMCS_GUEST_DR7, 0);
    (VMCS_GUEST_CR0, cr0);
    (VMCS_GUEST_CR4, cr4);
    (VMCS_GUEST_CS_SEL, 0x10); (VMCS_GUEST_CS_BASE, 0); (VMCS_GUEST_CS_LMT, 0xFFFFFFFF); (VMCS_GUEST_CS_ACC, 0xC09B);
    (VMCS_GUEST_DS_SEL, 0x18); (VMCS_GUEST_DS_BASE, 0); (VMCS_GUEST_DS_LMT, 0xFFFFFFFF); (VMCS_GUEST_DS_ACC, 0xC093);
    (VMCS_GUEST_ES_SEL, 0x18); (VMCS_GUEST_ES_BASE, 0); (VMCS_GUEST_ES_LMT, 0xFFFFFFFF); (VMCS_GUEST_ES_ACC, 0xC093);
    (VMCS_GUEST_SS_SEL, 0x18); (VMCS_GUEST_SS_BASE, 0); (VMCS_GUEST_SS_LMT, 0xFFFFFFFF); (VMCS_GUEST_SS_ACC, 0xC093);
    (VMCS_GUEST_FS_SEL, 0x18); (VMCS_GUEST_FS_BASE, 0); (VMCS_GUEST_FS_LMT, 0xFFFFFFFF); (VMCS_GUEST_FS_ACC, 0xC093);
    (VMCS_GUEST_GS_SEL, 0x18); (VMCS_GUEST_GS_BASE, 0); (VMCS_GUEST_GS_LMT, 0xFFFFFFFF); (VMCS_GUEST_GS_ACC, 0xC093);
    (VMCS_GUEST_LDTR_SEL, 0); (VMCS_GUEST_LDTR_BASE, 0); (VMCS_GUEST_LDTR_LMT, 0xFFFFF); (VMCS_GUEST_LDTR_ACC, 0x10082);
    (VMCS_GUEST_TR_SEL, 0); (VMCS_GUEST_TR_BASE, 0); (VMCS_GUEST_TR_LMT, 0xFFFFF); (VMCS_GUEST_TR_ACC, 0x408B);
    (VMCS_GUEST_GDTR_BASE, gdtr vm); (VMCS_GUEST_GDTR_LMT, 0xFFFF); (VMCS_GUEST_IDTR_BASE, 0); (VMCS_GUEST_IDTR_LMT, 0xFFFF);
    (VMCS_GUEST_LP, UINT64_MAX); (VMCS_GUEST_ACTIVE, 0); (VMCS_GUEST_INT, 0); (VMCS_GUEST_DEBUG, 0);
    (VMCS_GUEST_SMBASE, 0); (VMCS_GUEST_SYS_CS, 0); (VMCS_GUEST_SYS_ESP, 0); (VMCS_GUEST_SYS_EIP, 0);
    (VMCS_GUEST_TIMER, 0); (VMCS_GUEST_STATUS, 0); (VMCS_GUEST_PML, 0); (VMCS_GUEST_PDPTE0, 0);
    (VMCS_GUEST_PDPTE1, 0); (VMCS_GUEST_PDPTE2, 0); (VMCS_GUEST_PDPTE3, 0); (VMCS_GUEST_DEBUGCTL, 0);
    (VMCS_GUEST_PERF, 0); (VMCS_GUEST_BNDCFGS, 0); (VMCS_GUEST_EFER, 0); (VMCS_GUEST_PAT, rdmsr IA32_PAT);
    (VMCS_GUEST_RSP, 0);
    (VMCS_GUEST_RIP, entry_point vm)].

Definition virt_host_setup (d : gdt_table) (c : vmcs) : outcome vmcs :=
  let c := vmwrites c [
    (VMCS_HOST_CR0, reg_cr0); (VMCS_HOST_CR3, reg_cr3); (VMCS_HOST_CR4, reg_cr4);
    (VMCS_HOST_CS_SEL, reg_cs); (VMCS_HOST_DS_SEL, reg_ds); (VMCS_HOST_ES_SEL, reg_es); (VMCS_HOST_SS_SEL, reg_ss);
    (VMCS_HOST_FS_SEL, reg_fs); (VMCS_HOST_FS_BASE, rdmsr IA32_FS_BASE);
    (VMCS_HOST_GS_SEL, reg_gs); (VMCS_HOST_GS_BASE, rdmsr IA32_GS_BASE);
    (VMCS_HOST_TR_SEL, reg_tr)] in
  base ← get_gdt_tss_base d reg_tr;
  let stack := (reg_rsp .& PG_MASK) +w PG_SIZE in
  Ok (vmwrites c [
    (VMCS_HOST_TR_BASE, base);
    (VMCS_HOST_GDTR_BASE, reg_gdtr_base);
    (VMCS_HOST_IDTR_BASE, reg_idtr_base);
    (VMCS_HOST_EFER, rdmsr IA32_EFER); (VMCS_HOST_PAT, rdmsr IA32_PAT);
    (VMCS_HOST_RSP, stack);
    (VMCS_HOST_RIP, virt_main)]).

(** [if (!get_bit64(msr, n)) panic(m)] *)
Definition require_bit (msr n : Z) (m : string) : outcome unit :=
  b ← get_bit64 msr n; if b =? 0 then Panic m else Ok tt.

Definition virt_control_setup (ept_p : Z) (c : vmcs) : outcome vmcs :=
  true_ctls ← get_bit64 (rdmsr IA32_VMX_BASIC) 55;
  let '(pin_msr, proc_msr, exit_msr, entry_msr) :=
    if negb (true_ctls =? 0) then
      (rdmsr IA32_VMX_TRUE_PINBASED_CTLS, rdmsr IA32_VMX_TRUE_PROCBASED_CTLS,
       rdmsr IA32_VMX_TRUE_EXIT_CTLS, rdmsr IA32_VMX_TRUE_ENTRY_CTLS)
    else
      (rdmsr IA32_VMX_PINBASED_CTLS, rdmsr IA32_VMX_PROCBASED_CTLS,
       rdmsr IA32_VMX_EXIT_CTLS, rdmsr IA32_VMX_ENTRY_CTLS) in
  _ ← require_bit exit_msr 52 "Load/save IA32_EFER on VM exit not supported";
  _ ← require_bit exit_msr 53 "Load/save IA32_EFER on VM exit not supported";
  _ ← require_bit exit_msr 41 "Host address-space size on VM exit not supported";
  let c := vmwrites c [
    (VMCS_CTRL_EXIT, exit_msr .| 0x300200); (VMCS_CTRL_EXIT_SCNT, 0); (VMCS_CTRL_EXIT_LCNT, 0)] in
  ia32e ← get_bit64 entry_msr 9;
  if negb (ia32e =? 0) then Panic "32-bit VM entry not supported"
  else
    _ ← require_bit entry_msr 47 "Load IA32_EFER not supported";
    _ ← require_bit entry_msr 46 "Load IA32_PAT not supported";
    let c := vmwrites c [
      (VMCS_CTRL_ENTRY, entry_msr .| 0xC000); (VMCS_CTRL_ENTRY_LCNT, 0); (VMCS_CTRL_ENTRY_INT, 0);
      (VMCS_CTRL_PIN, pin_msr)] in
    _ ← require_bit proc_msr 63 "Secondary controls is not supported";
    let proc_msr := proc_msr .| (1 <<w 31) in
    let c := vmwrites c [(VMCS_CTRL_PPROC, proc_msr)] in
    let proc2_msr := rdmsr IA32_VMX_PROCBASED_CTLS2 in
    _ ← require_bit proc2_msr 33 "EPT not supported";
    _ ← require_bit proc2_msr 39 "Unrestricted guest not supported";
    Ok (vmwrites c [
      (VMCS_CTRL_SPROC, proc2_msr .| 0x82);
      (VMCS_CTRL_EXP_MAP, 0); (VMCS_CTRL_IOMAP_A, 0); (VMCS_CTRL_IOMAP_B, 0); (VMCS_CTRL_CR0_MASK, 0);
      (VMCS_CTRL_CR0_RD, 0); (VMCS_CTRL_CR3_CNT, 0); (VMCS_CTRL_PF_MASK, 0); (VMCS_CTRL_PF_MATCH, 0);
      (VMCS_CTRL_CR4_MASK, 0x2000); (VMCS_CTRL_CR4_RD, 0);
      (VMCS_CTRL_EPTP, ept_p .| 0x6 .| (Z.shiftl 3 3))]).
End virt.

(** ** The guest state *)

Lemma vmfield_written c l e v : last_write l e = Some v → vmfield (vmwrites c l) e = v mod 2 ^ field_width e.
Proof. intros H. unfold vmfield. by rewrite vmwrites_lookup, H. Qed.
Lemma vmfield_kept c l e : last_write l e = None → vmfield (vmwrites c l) e = vmfield c e.
Proof. intros H. unfold vmfield. by rewrite vmwrites_lookup, H. Qed.

(** Reads a field after a concrete sequence of writes. *)
Ltac read_vmcs := erewrite vmfield_written by reflexivity.
(** Reads all fields of a decidable condition, whose values are constants. *)
Lemma vmfield_eq c l e : vmfield (vmwrites c l) e =
  match last_write l e with Some v => v | None => default 0 (c !! e) end mod 2 ^ field_width e.
Proof. unfold vmfield. rewrite vmwrites_lookup. by destruct (last_write l e). Qed.

Section guest.
Context {HP : Processor}.

(** What the manual says of the registers that report the fixed bits. *)
Record fixed_bits_reported : Prop := FixedBits {
  fx_cr0 : ∀ n, Z.testbit (rdmsr IA32_VMX_CR0_FIXED0) n = true → Z.testbit (rdmsr IA32_VMX_CR0_FIXED1) n = true;
  fx_cr4 : ∀ n, Z.testbit (rdmsr IA32_VMX_CR4_FIXED0) n = true → Z.testbit (rdmsr IA32_VMX_CR4_FIXED1) n = true;
  fx_pe : Z.testbit (rdmsr IA32_VMX_CR0_FIXED0) 0 = true;
  fx_cr0_high : is_u32 (rdmsr IA32_VMX_CR0_FIXED0);
  fx_range msr : is_u64 (rdmsr msr)
}.

Lemma testbit_mod64 v n : 0 <= n < 64 → Z.testbit (v mod 2 ^ 64) n = Z.testbit v n.
Proof. intros Hn. apply Z.mod_pow2_bits_low. lia. Qed.

Lemma testbit_above k w n : 0 <= k <= n → 0 <= w < 2 ^ k → Z.testbit w n = false.
Proof. intros Hn Hw. rewrite <- (Z.mod_small w (2 ^ k)) by done. by apply Z.mod_pow2_bits_high. Qed.

Lemma land_fixed a b n : (Z.testbit a n = true → Z.testbit b n = true) → Z.testbit (a .& b) n = Z.testbit a n.
Proof. intros H. rewrite Z.land_spec. destruct (Z.testbit a n); [by rewrite H|done]. Qed.

Lemma mask_31 n : 0 <= n < 64 → Z.testbit 0x7FFFFFFF n = (n <? 31).
Proof. intros Hn. change 0x7FFFFFFF with (Z.ones 31). rewrite Z.testbit_ones_nonneg; [done|lia|lia]. Qed.

End guest.

(** ** The controls *)

Section controls.
Context {HP : Processor}.

(** The capability registers of the five words of controls. *)
Definition true_ctls : bool := Z.testbit (rdmsr IA32_VMX_BASIC) 55.
Definition cap (tr fa : Z) : Z := rdmsr (if true_ctls then tr else fa).
Definition pin_cap : Z := cap IA32_VMX_TRUE_PINBASED_CTLS IA32_VMX_PINBASED_CTLS.
Definition proc_cap : Z := cap IA32_VMX_TRUE_PROCBASED_CTLS IA32_VMX_PROCBASED_CTLS.
Definition exit_cap : Z := cap IA32_VMX_TRUE_EXIT_CTLS IA32_VMX_EXIT_CTLS.
Definition entry_cap : Z := cap IA32_VMX_TRUE_ENTRY_CTLS IA32_VMX_ENTRY_CTLS.
Definition proc2_cap : Z := rdmsr IA32_VMX_PROCBASED_CTLS2.

(** As the manual says, a control that must be 1 may be 1. *)
Definition cap_reported (m : Z) : Prop :=
  is_u64 m ∧ ∀ n, 0 <= n < 32 → Z.testbit m n = true → Z.testbit m (n + 32) = true.

(** Everything the set-up asks of the processor. *)
Definition supported : Prop :=
  Z.testbit exit_cap 52 = true ∧ Z.testbit exit_cap 53 = true ∧ Z.testbit exit_cap 41 = true ∧
  Z.testbit entry_cap 9 = false ∧ Z.testbit entry_cap 47 = true ∧ Z.testbit entry_cap 46 = true ∧
  Z.testbit proc_cap 63 = true ∧ Z.testbit proc2_cap 33 = true ∧ Z.testbit proc2_cap 39 = true.

(** The controls of the new guest: each word is one the processor accepts, and the features the
    hypervisor relies on are on. *)
Record controls_ok (ept_p : Z) (c : vmcs) : Prop := ControlsOk {
  co_pin : control_ok pin_cap (vmfield c VMCS_CTRL_PIN);
  co_proc : control_ok proc_cap (vmfield c VMCS_CTRL_PPROC);
  co_proc2 : control_ok proc2_cap (vmfield c VMCS_CTRL_SPROC);
  co_exit : control_ok exit_cap (vmfield c VMCS_CTRL_EXIT);
  co_entry : control_ok entry_cap (vmfield c VMCS_CTRL_ENTRY);
  co_secondary : Z.testbit (vmfield c VMCS_CTRL_PPROC) 31 = true;
  co_ept : Z.testbit (vmfield c VMCS_CTRL_SPROC) 1 = true;
  co_unrestricted : Z.testbit (vmfield c VMCS_CTRL_SPROC) 7 = true;
  co_host_64 : Z.testbit (vmfield c VMCS_CTRL_EXIT) 9 = true;
  co_guest_32 : Z.testbit (vmfield c VMCS_CTRL_ENTRY) 9 = false;
  co_load_efer : Z.testbit (vmfield c VMCS_CTRL_ENTRY) 15 = true ∧ Z.testbit (vmfield c VMCS_CTRL_EXIT) 21 = true;
  co_load_pat : Z.testbit (vmfield c VMCS_CTRL_ENTRY) 14 = true;
  co_counts : vmfield c VMCS_CTRL_EXIT_SCNT = 0 ∧ vmfield c VMCS_CTRL_EXIT_LCNT = 0 ∧
    vmfield c VMCS_CTRL_ENTRY_LCNT = 0 ∧ vmfield c VMCS_CTRL_ENTRY_INT = 0 ∧ vmfield c VMCS_CTRL_CR3_CNT = 0;
  co_eptp : vmfield c VMCS_CTRL_EPTP .& 0x7 = 6 ∧ Z.shiftr (vmfield c VMCS_CTRL_EPTP) 3 .& 0x7 = 3 ∧
    frame_of (vmfield c VMCS_CTRL_EPTP) = ept_p
}.

Lemma get_bit64_testbit w n : 0 <= n < 64 → get_bit64 w n = Ok (if Z.testbit w n then 1 else 0).
Proof.
  intros Hn. unfold get_bit64, shl64. rewrite (proj2 (Z.leb_le _ _)), (proj2 (Z.ltb_lt _ _)) by lia.
  cbn [andb]. rewrite bind_ok, one_shl_u64, land_pow2_pos by lia. by destruct (Z.testbit w n).
Qed.

Lemma require_ok msr n m : 0 <= n < 64 → require_bit msr n m = if Z.testbit msr n then Ok tt else Panic m.
Proof. intros Hn. unfold require_bit. rewrite get_bit64_testbit, bind_ok by done. by destruct (Z.testbit msr n). Qed.

(** The bits of a mask, by evaluation. *)
Lemma mask_bits m (l : list Z) n : 0 <= n < 32 → Z.testbit m n = true →
  forallb (fun k => negb (Z.testbit m k) || existsb (Z.eqb k) l) (seqZ 0 32) = true → n ∈ l.
Proof.
  intros Hn Hb Hall. rewrite forallb_forall in Hall. specialize (Hall n).
  rewrite Hb in Hall. cbn [negb orb] in Hall. apply existsb_exists in Hall as (x & Hx & E%Z.eqb_eq).
  - subst x. by apply list_elem_of_In.
  - apply list_elem_of_In, elem_of_seqZ. lia.
Qed.

Lemma control_lor m mask v (l : list Z) : cap_reported m → v = (m .| mask) mod 2 ^ 32 →
  forallb (fun k => negb (Z.testbit mask k) || existsb (Z.eqb k) l) (seqZ 0 32) = true →
  (∀ k, k ∈ l → Z.testbit m (k + 32) = true) → control_ok m v.
Proof.
  intros [Hm Hrep] -> Hmask Hl n Hn. rewrite Z.mod_pow2_bits_low, Z.lor_spec by lia. split; [by intros ->|].
  intros [Hb|Hb]%orb_true_iff; [by apply Hrep|]. apply Hl. by apply (mask_bits mask).
Qed.

Lemma control_plain m v : cap_reported m → v = m mod 2 ^ 32 → control_ok m v.
Proof. intros [Hm Hrep] -> n Hn. rewrite Z.mod_pow2_bits_low by lia. split; [done|by apply Hrep]. Qed.

(** What [virt_control_setup] writes on a processor that supports it all. *)
Definition control_writes (ept_p : Z) : list (Z * Z) :=
  [(VMCS_CTRL_EXIT, exit_cap .| 0x300200); (VMCS_CTRL_EXIT_SCNT, 0); (VMCS_CTRL_EXIT_LCNT, 0);
   (VMCS_CTRL_ENTRY, entry_cap .| 0xC000); (VMCS_CTRL_ENTRY_LCNT, 0); (VMCS_CTRL_ENTRY_INT, 0);
   (VMCS_CTRL_PIN, pin_cap); (VMCS_CTRL_PPROC, proc_cap .| (1 <<w 31)); (VMCS_CTRL_SPROC, proc2_cap .| 0x82);
   (VMCS_CTRL_EXP_MAP, 0); (VMCS_CTRL_IOMAP_A, 0); (VMCS_CTRL_IOMAP_B, 0); (VMCS_CTRL_CR0_MASK, 0);
   (VMCS_CTRL_CR0_RD, 0); (VMCS_CTRL_CR3_CNT, 0); (VMCS_CTRL_PF_MASK, 0); (VMCS_CTRL_PF_MATCH, 0);
   (VMCS_CTRL_CR4_MASK, 0x2000); (VMCS_CTRL_CR4_RD, 0); (VMCS_CTRL_EPTP, ept_p .| 0x6 .| (Z.shiftl 3 3))].

Record caps_reported : Prop := CapsReported {
  cr_pin : cap_reported pin_cap;
  cr_proc : cap_reported proc_cap;
  cr_exit : cap_reported exit_cap;
  cr_entry : cap_reported entry_cap;
  cr_proc2 : cap_reported proc2_cap
}.

Lemma eptp_ok ept_p : 0 <= ept_p < 2 ^ 52 → ept_p mod 2 ^ 12 = 0 →
  let v := (ept_p .| 0x6 .| (Z.shiftl 3 3)) mod 2 ^ 64 in
  v .& 0x7 = 6 ∧ Z.shiftr v 3 .& 0x7 = 3 ∧ frame_of v = ept_p.
Proof.
  intros Hr Ha. cbv zeta. rewrite <- Z.lor_assoc. change (6 .| Z.shiftl 3 3) with 30.
  assert (Hv : (ept_p .| 30) mod 2 ^ 64 = ept_p .| 30).
  { apply u64_id, is_u64_lor; unfold is_u64; lia. }
  rewrite Hv. change 7 with (Z.ones 3). split; [|split].
  - rewrite Z.land_lor_distr_l, (Z.land_ones ept_p) by lia.
    replace (ept_p mod 2 ^ 3) with 0 by dlia. reflexivity.
  - rewrite Z.shiftr_lor, Z.land_lor_distr_l, (Z.land_ones (Z.shiftr ept_p 3)), Z.shiftr_div_pow2 by lia.
    replace (ept_p / 2 ^ 3 mod 2 ^ 3) with 0 by dlia. reflexivity.
  - by apply frame_of_page.
Qed.

Lemma u32_bit m k n : 0 <= n < 32 → Z.testbit ((m .| k) mod 2 ^ 32) n = Z.testbit m n || Z.testbit k n.
Proof. intros Hn. by rewrite Z.mod_pow2_bits_low, Z.lor_spec by lia. Qed.

(** Why the set-up stops. *)
Definition control_messages : list string := [
  "Load/save IA32_EFER on VM exit not supported"; "Host address-space size on VM exit not supported";
  "32-bit VM entry not supported"; "Load IA32_EFER not supported"; "Load IA32_PAT not supported";
  "Secondary controls is not supported"; "EPT not supported"; "Unrestricted guest not supported"]%string.

Ltac stop_here := eexists; split; [|reflexivity]; unfold control_messages; rewrite !elem_of_cons; tauto.

Lemma control_setup_ok ept_p c :
  (supported → virt_control_setup ept_p c = Ok (vmwrites c (control_writes ept_p))) ∧
  (¬ supported → ∃ m, m ∈ control_messages ∧ virt_control_setup ept_p c = Panic m).
Proof.
  unfold virt_control_setup. rewrite get_bit64_testbit, bind_ok by lia.
  fold true_ctls.
  assert (E : (if negb ((if true_ctls then 1 else 0) =? 0) then
      (rdmsr IA32_VMX_TRUE_PINBASED_CTLS, rdmsr IA32_VMX_TRUE_PROCBASED_CTLS,
       rdmsr IA32_VMX_TRUE_EXIT_CTLS, rdmsr IA32_VMX_TRUE_ENTRY_CTLS)
    else
      (rdmsr IA32_VMX_PINBASED_CTLS, rdmsr IA32_VMX_PROCBASED_CTLS,
       rdmsr IA32_VMX_EXIT_CTLS, rdmsr IA32_VMX_ENTRY_CTLS)) = (pin_cap, proc_cap, exit_cap, entry_cap)).
  { unfold pin_cap, proc_cap, exit_cap, entry_cap, cap. by destruct true_ctls. }
  rewrite E. cbv zeta. fold proc2_cap. rewrite !require_ok, !get_bit64_testbit by lia. split.
  - intros (S1 & S2 & S3 & S4 & S5 & S6 & S7 & S8 & S9).
    rewrite S1, S2, S3, S4, S5, S6, S7, S8, S9, !bind_ok. change (negb (0 =? 0)) with false. cbv iota. rewrite ?bind_ok.
    by rewrite <- !vmwrites_app.
  - unfold supported. intros Hno.
    destruct (Z.testbit exit_cap 52) eqn:S1; [|stop_here]. rewrite bind_ok.
    destruct (Z.testbit exit_cap 53) eqn:S2; [|stop_here]. rewrite bind_ok.
    destruct (Z.testbit exit_cap 41) eqn:S3; [|stop_here]. rewrite !bind_ok.
    destruct (Z.testbit entry_cap 9) eqn:S4; [stop_here|]. change (negb (0 =? 0)) with false. cbv iota.
    destruct (Z.testbit entry_cap 47) eqn:S5; [|stop_here]. rewrite bind_ok.
    destruct (Z.testbit entry_cap 46) eqn:S6; [|stop_here]. rewrite bind_ok.
    destruct (Z.testbit proc_cap 63) eqn:S7; [|stop_here]. rewrite bind_ok.
    destruct (Z.testbit proc2_cap 33) eqn:S8; [|stop_here]. rewrite bind_ok.
    destruct (Z.testbit proc2_cap 39) eqn:S9; [|stop_here]. by destruct Hno.
Qed.

(** What [virt_host_setup] writes, for a task segment at [base]. *)
Definition host_writes (base : Z) : list (Z * Z) := [
    (VMCS_HOST_CR0, reg_cr0); (VMCS_HOST_CR3, reg_cr3); (VMCS_HOST_CR4, reg_cr4);
    (VMCS_HOST_CS_SEL, reg_cs); (VMCS_HOST_DS_SEL, reg_ds); (VMCS_HOST_ES_SEL, reg_es); (VMCS_HOST_SS_SEL, reg_ss);
    (VMCS_HOST_FS_SEL, reg_fs); (VMCS_HOST_FS_BASE, rdmsr IA32_FS_BASE);
    (VMCS_HOST_GS_SEL, reg_gs); (VMCS_HOST_GS_BASE, rdmsr IA32_GS_BASE);
    (VMCS_HOST_TR_SEL, reg_tr);
    (VMCS_HOST_TR_BASE, base);
    (VMCS_HOST_GDTR_BASE, reg_gdtr_base);
    (VMCS_HOST_IDTR_BASE, reg_idtr_base);
    (VMCS_HOST_EFER, rdmsr IA32_EFER); (VMCS_HOST_PAT, rdmsr IA32_PAT);
    (VMCS_HOST_RSP, (reg_rsp .& PG_MASK) +w PG_SIZE);
    (VMCS_HOST_RIP, virt_main)].

Lemma host_setup_writes d c base : get_gdt_tss_base d reg_tr = Ok base →
  virt_host_setup d c = Ok (vmwrites c (host_writes base)).
Proof. intros E. unfold virt_host_setup. cbv zeta. by rewrite E, bind_ok, <- vmwrites_app. Qed.
End controls.

(** ** The host state *)

(** The registers hold selectors of the GDT. *)
Definition ring0_registers {HP : Processor} : Prop :=
  (∀ s, s ∈ [reg_cs; reg_ds; reg_es; reg_ss; reg_fs; reg_gs; reg_tr] → is_u16 s ∧ s .& 7 = 0) ∧ reg_cs ≠ 0.

(** The hypervisor runs in 64-bit mode: what the processor holds then, CR0 and CR4 apart. *)
Record long_mode {HP : Processor} : Prop := LongMode {
  lm_cr3 : 0 <= reg_cr3 < 2 ^ 52;
  lm_pae : Z.testbit (rdmsr IA32_VMX_CR4_FIXED1) 5 = true;
  lm_efer : efer_ok (rdmsr IA32_EFER);
  lm_pat : pat_ok (rdmsr IA32_PAT);
  lm_bases : canonical (rdmsr IA32_FS_BASE) ∧ canonical (rdmsr IA32_GS_BASE) ∧ canonical reg_gdtr_base ∧ canonical reg_idtr_base;
  lm_main : canonical virt_main
}.

(** CR0 and CR4 have the fixed bits, and PAE is on. *)
Definition control_regs_ok {HP : Processor} : Prop :=
  (is_u64 reg_cr0 ∧ fixed_ok (rdmsr IA32_VMX_CR0_FIXED0) (rdmsr IA32_VMX_CR0_FIXED1) reg_cr0) ∧
  (is_u64 reg_cr4 ∧ fixed_ok (rdmsr IA32_VMX_CR4_FIXED0) (rdmsr IA32_VMX_CR4_FIXED1) reg_cr4) ∧ Z.testbit reg_cr4 5 = true.

(** Each field of the host has the value of its register; the stack is the page that is in use, from its top. *)
Definition host_values {HP : Processor} (base : Z) (c : vmcs) : Prop :=
  (vmfield c VMCS_HOST_CR0 = reg_cr0 ∧ vmfield c VMCS_HOST_CR3 = reg_cr3 ∧ vmfield c VMCS_HOST_CR4 = reg_cr4) ∧
  (vmfield c VMCS_HOST_CS_SEL = reg_cs ∧ vmfield c VMCS_HOST_DS_SEL = reg_ds ∧ vmfield c VMCS_HOST_ES_SEL = reg_es ∧
   vmfield c VMCS_HOST_SS_SEL = reg_ss ∧ vmfield c VMCS_HOST_FS_SEL = reg_fs ∧ vmfield c VMCS_HOST_GS_SEL = reg_gs ∧
   vmfield c VMCS_HOST_TR_SEL = reg_tr) ∧
  (vmfield c VMCS_HOST_FS_BASE = rdmsr IA32_FS_BASE ∧ vmfield c VMCS_HOST_GS_BASE = rdmsr IA32_GS_BASE ∧
   vmfield c VMCS_HOST_TR_BASE = base ∧ vmfield c VMCS_HOST_GDTR_BASE = reg_gdtr_base ∧ vmfield c VMCS_HOST_IDTR_BASE = reg_idtr_base) ∧
  (vmfield c VMCS_HOST_EFER = rdmsr IA32_EFER ∧ vmfield c VMCS_HOST_PAT = rdmsr IA32_PAT) ∧
  vmfield c VMCS_HOST_RSP = 4096 * (reg_rsp / 4096) + 4096 ∧ vmfield c VMCS_HOST_RIP = virt_main.

(** ** The state as a whole *)

Section ready.
Context {HP : Processor}.

Lemma guest_setup_ok vm c ept_p base : fixed_bits_reported → is_u32 (entry_point vm) →
  guest_state_ok (vmwrites (vmwrites (virt_guest_setup vm c) (control_writes ept_p)) (host_writes base)) rdmsr.
Proof.
  intros [F0 F4 Fpe Fhigh Fr] Hrip. unfold virt_guest_setup, control_writes, host_writes. cbv zeta.
  rewrite <- !vmwrites_app. cbn [app]. split.
  - read_vmcs. change (field_width VMCS_GUEST_CR0) with 64. intros n Hn Hs.
    rewrite testbit_mod64, Z.land_spec, mask_31, land_fixed by auto.
    apply andb_true_iff in Hs as [_ Hs]. apply negb_true_iff, Z.eqb_neq in Hs.
    assert (Hhi : Z.testbit (rdmsr IA32_VMX_CR0_FIXED0) n = true → n < 31).
    { intros Hb. destruct (Z.lt_ge_cases n 31) as [|Hge]; [done|].
      assert (n ≠ 31) by done. by rewrite (testbit_above 32) in Hb by (done || lia). }
    split; [intros Hb; rewrite Hb; by apply Z.ltb_lt, Hhi|]. intros [Hb _]%andb_true_iff. by apply F0.
  - read_vmcs. change (field_width VMCS_GUEST_CR0) with 64. rewrite testbit_mod64, !Z.land_spec, Fpe, (F0 0 Fpe) by lia. done.
  - read_vmcs. change (field_width VMCS_GUEST_CR0) with 64. rewrite testbit_mod64, !Z.land_spec by lia. apply andb_false_r.
  - read_vmcs. change (field_width VMCS_GUEST_CR4) with 64. intros n Hn _. rewrite testbit_mod64, land_fixed by auto.
    split; [done|apply F4].
  - unfold segments_ok, cs_ok, ss_ok, ds_ok, tr_ok, ldtr_ok, base_ok. rewrite !vmfield_eq. vm_compute. reflexivity.
  - unfold guest_misc_ok. erewrite (vmfield_written _ _ VMCS_GUEST_RIP) by reflexivity.
    assert (Hr : Z.shiftr (entry_point vm mod 2 ^ field_width VMCS_GUEST_RIP) 32 = 0).
    { change (field_width VMCS_GUEST_RIP) with 64. unfold is_u32 in Hrip. rewrite Z.mod_small, Z.shiftr_div_pow2 by lia. by apply Z.div_small. }
    rewrite Hr, !vmfield_eq. vm_compute. reflexivity.
Qed.

Lemma control_writes_ok ept_p base c : caps_reported → 0 <= ept_p < 2 ^ 52 → ept_p mod 2 ^ 12 = 0 → supported →
  controls_ok ept_p (vmwrites (vmwrites c (control_writes ept_p)) (host_writes base)).
Proof.
  intros [Hpin Hproc Hexit Hentry Hproc2] Hr Ha (S1 & S2 & S3 & S4 & S5 & S6 & S7 & S8 & S9).
  unfold control_writes, host_writes. rewrite <- vmwrites_app. cbn [app].
  split; repeat (erewrite vmfield_written by reflexivity);
    try (change (2 ^ field_width _) with (2 ^ 32) in * ).
  - by apply control_plain.
  - apply (control_lor _ (1 <<w 31) _ [31]); [done|reflexivity|reflexivity|]. by intros k ->%list_elem_of_singleton.
  - apply (control_lor _ 0x82 _ [1; 7]); [done|reflexivity|reflexivity|].
    intros k Hk. rewrite !elem_of_cons in Hk. destruct Hk as [->|[->|[]%elem_of_nil]]; done.
  - apply (control_lor _ 0x300200 _ [9; 20; 21]); [done|reflexivity|reflexivity|].
    intros k Hk. rewrite !elem_of_cons in Hk. destruct Hk as [->|[->|[->|[]%elem_of_nil]]]; done.
  - apply (control_lor _ 0xC000 _ [14; 15]); [done|reflexivity|reflexivity|].
    intros k Hk. rewrite !elem_of_cons in Hk. destruct Hk as [->|[->|[]%elem_of_nil]]; done.
  - change (field_width _) with 32. rewrite u32_bit by lia. apply orb_true_r.
  - change (field_width _) with 32. rewrite u32_bit by lia. apply orb_true_r.
  - change (field_width _) with 32. rewrite u32_bit by lia. apply orb_true_r.
  - change (field_width _) with 32. rewrite u32_bit by lia. apply orb_true_r.
  - change (field_width _) with 32. rewrite u32_bit, S4 by lia. reflexivity.
  - change (field_width _) with 32. rewrite !u32_bit by lia. by rewrite !orb_true_r.
  - change (field_width _) with 32. rewrite u32_bit by lia. apply orb_true_r.
  - done.
  - by apply eptp_ok.
Qed.


Lemma host_values_ok c base : ring0_registers → long_mode → control_regs_ok → (∀ msr, is_u64 (rdmsr msr)) →
  canonical base → is_u64 reg_rsp → reg_rsp + 4096 < 2 ^ 64 → host_values base (vmwrites c (host_writes base)).
Proof.
  intros [Hsel _] [L1 L2 L3 L4 (L5 & L6 & L7 & L8) L9] ((C0 & _) & (C4 & _) & _) Hm Hb Hr Hr4.
  assert (H16 : ∀ s, s ∈ [reg_cs; reg_ds; reg_es; reg_ss; reg_fs; reg_gs; reg_tr] → s mod 2 ^ 16 = s).
  { intros s Hs. destruct (Hsel s Hs) as [Hu _]. by apply Z.mod_small. }
  assert (H64 : ∀ v, is_u64 v → v mod 2 ^ 64 = v) by (intros v Hv; by apply Z.mod_small).
  assert (HR : is_u64 ((reg_rsp .& PG_MASK) +w PG_SIZE) ∧ (reg_rsp .& PG_MASK) +w PG_SIZE = 4096 * (reg_rsp / 4096) + 4096).
  { change PG_MASK with (2 ^ 64 - 2 ^ 12). change PG_SIZE with 4096. unfold is_u64 in Hr.
    rewrite land_high_ones by (unfold is_u64; lia). change (2 ^ 12) with 4096. rewrite u64_id by (unfold is_u64; dlia). unfold is_u64. dlia. }
  unfold host_values, host_writes.
  split_and!; read_vmcs; first
    [change (field_width _) with 16; apply H16; rewrite !elem_of_cons; tauto
    |change (field_width _) with 64; rewrite H64; [solve [reflexivity|apply HR]|]].
  all: first [assumption|apply HR|apply Hm|by apply canonical_u64|unfold is_u64; lia].
Qed.

Lemma host_selectors_of c base : ring0_registers → reg_tr ≠ 0 → host_values base c → host_selectors_ok c.
Proof.
  intros [Hsel Hcs] Htr (_ & (S1 & S2 & S3 & S4 & S5 & S6 & S7) & _). split; [|by rewrite S1, S7]. intros e He. unfold host_selector_ok.
  rewrite !elem_of_cons in He. destruct He as [->|[->|[->|[->|[->|[->|[->|[]%elem_of_nil]]]]]]]; rewrite ?S1, ?S2, ?S3, ?S4, ?S5, ?S6, ?S7;
    apply Z.eqb_eq, Hsel; rewrite !elem_of_cons; tauto.
Qed.

(** The checks of the host state depend on what the structure held for SYSENTER, nothing else. *)
Lemma host_state_iff c0 c base : ring0_registers → reg_tr ≠ 0 → long_mode → control_regs_ok → canonical base → host_values base c →
  vmfield c HOST_SYSENTER_ESP = vmfield c0 HOST_SYSENTER_ESP → vmfield c HOST_SYSENTER_EIP = vmfield c0 HOST_SYSENTER_EIP →
  host_state_ok c rdmsr ↔ sysenter_ok c0.
Proof.
  intros Hring Htr [L1 L2 L3 L4 (L5 & L6 & L7 & L8) L9] ((_ & C0) & (_ & C4) & Cp) Hb Hv E1 E2.
  pose proof (host_selectors_of c base Hring Htr Hv) as Hsel.
  destruct Hv as ((V0 & V3 & V4) & _ & (B1 & B2 & B3 & B4 & B5) & (VE & VP) & _ & VR). split.
  - intros [_ _ _ _ _ _ _ _ [S1 S2] _]. unfold sysenter_ok. by rewrite <- E1, <- E2.
  - intros [S1 S2]. split; rewrite ?V0, ?V3, ?V4, ?VE, ?VP, ?VR; try assumption; [lia| |].
    + intros e He. rewrite !elem_of_cons in He. destruct He as [->|[->|[->|[->|[->|[]%elem_of_nil]]]]]; congruence.
    + unfold sysenter_ok. by rewrite E1, E2.
Qed.

Lemma guest_loads_of vm c ept_p base : canonical (gdtr vm) → is_u64 (rdmsr IA32_PAT) → pat_ok (rdmsr IA32_PAT) →
  guest_loads_ok (vmwrites (vmwrites (virt_guest_setup vm c) (control_writes ept_p)) (host_writes base)).
Proof.
  intros Hg Hu Hp. unfold virt_guest_setup, control_writes, host_writes. cbv zeta. rewrite <- !vmwrites_app. cbn [app]. split.
  - read_vmcs. change (field_width _) with 64. by rewrite Z.mod_small.
  - intros e He. rewrite !elem_of_cons in He. destruct He as [->|[->|[->|[->|[]%elem_of_nil]]]]; read_vmcs; change (field_width _) with 64.
    + rewrite Z.mod_small; [done|by apply canonical_u64].
    + left. done.
    + left. done.
    + left. done.
Qed.
End ready.

(** *** The three functions in their order *)

(** What the processor checks of the control structure when the guest is entered: the guest state, the controls
    and the host state, where the fields of the host for SYSENTER are still what the structure [c0]
    held; and the values that the host gets back. *)
Record vm_entry_ok {HP : Processor} (c0 : vmcs) (vm : vm_struct) (ept_p base : Z) (c : vmcs) : Prop := VmEntryOk {
  ve_guest : guest_state_ok c rdmsr; ve_loads : guest_loads_ok c; ve_controls : controls_ok ept_p c;
  ve_host : host_state_ok c rdmsr ↔ sysenter_ok c0; ve_values : host_values base c;
  ve_rip : vmfield c VMCS_GUEST_RIP = entry_point vm
}.

Lemma vm_entry_setup {HP : Processor} vm d c ept_p base :
  fixed_bits_reported → caps_reported → is_u32 (entry_point vm) → canonical (gdtr vm) → 0 <= ept_p < 2 ^ 52 → ept_p mod 2 ^ 12 = 0 →
  ring0_registers → reg_tr ≠ 0 → long_mode → control_regs_ok →
  get_gdt_tss_base d reg_tr = Ok base → canonical base → is_u64 reg_rsp → reg_rsp + 4096 < 2 ^ 64 →
  (supported → ∃ c1 c2, virt_control_setup ept_p (virt_guest_setup vm c) = Ok c1 ∧ virt_host_setup d c1 = Ok c2 ∧
     vm_entry_ok c vm ept_p base c2) ∧
  (¬ supported → ∃ m, m ∈ control_messages ∧ virt_control_setup ept_p (virt_guest_setup vm c) = Panic m).
Proof.
  intros Hfix Hcaps Hrip Hgdtr Hept Hal Hring Htr Hlong Hregs Eb Hb Hrsp Hrsp4.
  destruct (control_setup_ok ept_p (virt_guest_setup vm c)) as [Hyes Hno]. split; [|exact Hno]. intros Hs.
  eexists _, _. split; [by apply Hyes|]. split; [by apply host_setup_writes|].
  pose proof (host_values_ok (vmwrites (virt_guest_setup vm c) (control_writes ept_p)) base Hring Hlong Hregs (fx_range Hfix) Hb Hrsp Hrsp4) as Hv.
  split; [by apply guest_setup_ok| |by apply control_writes_ok| |exact Hv|].
  - apply guest_loads_of; [exact Hgdtr|apply (fx_range Hfix)|apply Hlong].
  - apply (host_state_iff c _ base Hring Htr Hlong Hregs Hb Hv); unfold virt_guest_setup; cbv zeta;
      rewrite !vmfield_kept by reflexivity; reflexivity.
  - rewrite vmfield_kept by reflexivity. rewrite vmfield_kept by reflexivity. unfold virt_guest_setup. cbv zeta.
    read_vmcs. apply Z.mod_small. unfold is_u32 in Hrip. change (field_width _) with 64. lia.
Qed.

(** ** Properties *)

(** C17: After [virt_guest_setup], [virt_control_setup] and [virt_host_setup], in
    the order of [virt_percpu_init], the control structure passes the checks of a VM
    entry that the manual lists for what the three functions write. The guest
    starts in 32-bit protected mode without paging at [entry_point], with CR0 and
    CR4 within the fixed bits, flat segments whose access rights and limits
    agree, canonical table bases, a valid page attribute table and no event pending; each of the five words of controls has all
    bits that must be 1 and none that must be 0, with EPT, unrestricted guest,
    the 64-bit host and the loads of EFER and PAT on and a 4-level write-back
    EPT at [ept_p]; every field of the host has the value of its register (CR0, CR3, CR4, the selectors, the
    bases, EFER, PAT), the base of its own TSS (what [alloc_tss_desc] was given), the top of
    the page its stack is in and the address of [virt_main]. The host state passes all its checks (fixed bits of CR0 and CR4, PAE, CR3,
    EFER, PAT, canonical bases and entry point, ring-0 selectors) exactly
    when the two fields for SYSENTER, that the code never writes, happened to hold
    canonical addresses. On a
    processor that lacks one of the features, [virt_control_setup] stops with
    one of its messages. *)
Theorem vm_entry_ready {HP : Processor} vm d c ept_p base :
  fixed_bits_reported → caps_reported → is_u32 (entry_point vm) → canonical (gdtr vm) → 0 <= ept_p < 2 ^ 52 → ept_p mod 2 ^ 12 = 0 →
  ring0_registers → reg_tr ≠ 0 → long_mode → control_regs_ok →
  get_gdt_tss_base d reg_tr = Ok base → canonical base → is_u64 reg_rsp → reg_rsp + 4096 < 2 ^ 64 →
  (supported → ∃ c1 c2, virt_control_setup ept_p (virt_guest_setup vm c) = Ok c1 ∧ virt_host_setup d c1 = Ok c2 ∧
     guest_state_ok c2 rdmsr ∧ guest_loads_ok c2 ∧ controls_ok ept_p c2 ∧ (host_state_ok c2 rdmsr ↔ sysenter_ok c) ∧
     host_values base c2 ∧ vmfield c2 VMCS_GUEST_RIP = entry_point vm) ∧
  (¬ supported → ∃ m, m ∈ control_messages ∧ virt_control_setup ept_p (virt_guest_setup vm c) = Panic m).
Proof.
  intros Hfix Hcaps Hrip Hgdtr Hept Hal Hring Htr Hlong Hregs Eb Hb Hrsp Hrsp4.
  destruct (vm_entry_setup vm d c ept_p base Hfix Hcaps Hrip Hgdtr Hept Hal Hring Htr Hlong Hregs Eb Hb Hrsp Hrsp4) as [Hyes Hno].
  split; [|exact Hno]. intros Hs. destruct (Hyes Hs) as (c1 & c2 & E1 & E2 & [H1 H2 H3 H4 H5 H6]). by exists c1, c2.
Qed.

(** A processor with the values a current one reports. *)
Definition sample_msrs (msr : Z) : Z :=
  if msr =? IA32_VMX_BASIC then 0x00DA100000000004
  else if msr =? IA32_VMX_CR0_FIXED0 then 0x80000021
  else if msr =? IA32_VMX_CR0_FIXED1 then 0xFFFFFFFF
  else if msr =? IA32_VMX_CR4_FIXED0 then 0x2000
  else if msr =? IA32_VMX_CR4_FIXED1 then 0x3767FF
  else if msr =? IA32_VMX_TRUE_PINBASED_CTLS then 0x7F00000016
  else if msr =? IA32_VMX_TRUE_PROCBASED_CTLS then 0xFFF9FFFE04006172
  else if msr =? IA32_VMX_TRUE_EXIT_CTLS then 0x01FFFFFF00036DFB
  else if msr =? IA32_VMX_TRUE_ENTRY_CTLS then 0x0003FFFF000011FB
  else if msr =? IA32_VMX_PROCBASED_CTLS2 then 0x00553CFE00000000
  else if msr =? IA32_PAT then 0x0007040600070406
  else if msr =? IA32_EFER then 0xD01
  else 0.
Definition sample_processor : Processor := {|
  rdmsr := sample_msrs;
  reg_cr0 := 0x80010031; reg_cr3 := 0x300000; reg_cr4 := 0x2020;
  reg_cs := 8; reg_ds := 16; reg_es := 16; reg_ss := 16; reg_fs := 24; reg_gs := 16; reg_tr := 32;
  reg_gdtr_base := 0xFFFFFFFFC0100000; reg_idtr_base := 0xFFFFFFFFC0110000; reg_rsp := 0xA05F80;
  virt_main := 0xFFFFFFFFC0101000; cpuid_1_ecx := 0x7FFAFBFF
|}.

Lemma cap_check m : (0 <=? m) && (m <? 2 ^ 64) &&
  forallb (fun k => negb (Z.testbit m k) || Z.testbit m (k + 32)) (seqZ 0 32) = true → cap_reported m.
Proof.
  intros [[H1%Z.leb_le H2%Z.ltb_lt]%andb_true_iff Hall]%andb_true_iff. split; [by split|]. intros n Hn Hb.
  rewrite forallb_forall in Hall. specialize (Hall n). rewrite Hb in Hall. apply Hall.
  apply list_elem_of_In, elem_of_seqZ. lia.
Qed.

Lemma sample_range msr : is_u64 (sample_msrs msr).
Proof. unfold sample_msrs. repeat (destruct (_ =? _); [unfold is_u64; lia|]). unfold is_u64. lia. Qed.

Lemma sub_mask a b : 0 <= a → Z.land a b = a → ∀ n, Z.testbit a n = true → Z.testbit b n = true.
Proof. intros Ha E n H. rewrite <- E, Z.land_spec in H. by apply andb_true_iff in H as [_ H]. Qed.

Lemma sample_fixed : fixed_bits_reported (HP := sample_processor).
Proof.
  split.
  - apply sub_mask; [done|reflexivity].
  - apply sub_mask; [done|reflexivity].
  - reflexivity.
  - done.
  - exact sample_range.
Qed.

Lemma sample_caps : caps_reported (HP := sample_processor).
Proof. split; apply cap_check; reflexivity. Qed.

(** The descriptor of per-CPU data is in entry 3, the TSS goes to entries 4 and 5. *)
Definition sample_gdt : gdt_table :=
  let d := GdtTable (U64Array 512 {[ 1 := 0x00209A0000000000; 2 := 0x0000920000000000; 3 := 0x0040920000001FFF ]}) SPINLOCK_UNLOCKED in
  match alloc_tss_desc d 0xA01080 with Ok (_, d') => d' | _ => d end.

Definition sample_vm : vm_struct :=
  VmStruct 0 [] 0x40000000 0x800000 0 2 0x90000 0x100000 0x91000 [] 0x50000000 0x400000 SPINLOCK_UNLOCKED.

Lemma sample_ring0 : ring0_registers (HP := sample_processor).
Proof.
  split; [|done]. intros s Hs. rewrite !elem_of_cons in Hs.
  destruct Hs as [->|[->|[->|[->|[->|[->|[->|[]%elem_of_nil]]]]]]]; (split; [unfold is_u16; cbn; lia|reflexivity]).
Qed.

Lemma sample_efer : efer_ok 0xD01.
Proof.
  intros n Hn. split; [by intros [->| ->]|]. intros Hb.
  destruct (Z.lt_ge_cases n 32) as [Hlt|]; [|by rewrite (testbit_above 32) in Hb by lia].
  apply (mask_bits 0xD01); [lia|done|reflexivity].
Qed.

Lemma sample_pat : pat_ok 0x0007040600070406.
Proof.
  intros i Hi. assert (H : i = 0 ∨ i = 1 ∨ i = 2 ∨ i = 3 ∨ i = 4 ∨ i = 5 ∨ i = 6 ∨ i = 7) by lia.
  repeat destruct H as [->|H]; [..|subst i]; rewrite !elem_of_cons; vm_compute; tauto.
Qed.

Lemma sample_long : long_mode (HP := sample_processor).
Proof.
  split; [cbn; lia|reflexivity|exact sample_efer|exact sample_pat| |right; cbn; lia].
  split_and!; [left; by vm_compute|left; by vm_compute|right; cbn; lia|right; cbn; lia].
Qed.

Lemma sample_control_regs : control_regs_ok (HP := sample_processor).
Proof.
  split_and!; [unfold is_u64; cbn; lia| |unfold is_u64; cbn; lia| |reflexivity];
    intros n Hn; split; apply sub_mask; done || reflexivity.
Qed.

Lemma vm_entry_ready_witness : ∃ c1 c2, virt_control_setup (HP := sample_processor) 0x7000 (virt_guest_setup (HP := sample_processor) sample_vm ∅) = Ok c1 ∧
  virt_host_setup (HP := sample_processor) sample_gdt c1 = Ok c2 ∧ vmfield c2 VMCS_GUEST_RIP = 0x100000 ∧ vmfield c2 VMCS_HOST_RSP = 0xA06000 ∧
  host_state_ok c2 sample_msrs.
Proof.
  destruct (vm_entry_ready (HP := sample_processor) sample_vm sample_gdt ∅ 0x7000 0xA01080 sample_fixed sample_caps ltac:(unfold is_u32; cbn; lia)
    ltac:(left; cbn; lia) ltac:(lia) ltac:(reflexivity) sample_ring0 ltac:(done) sample_long sample_control_regs ltac:(vm_compute; reflexivity) ltac:(left; lia)
    ltac:(unfold is_u64; cbn; lia) ltac:(cbn; lia)) as [Hyes _].
  destruct Hyes as (c1 & c2 & E1 & E2 & _ & _ & _ & Hhost & Hv & Hrip); [repeat split|].
  destruct Hv as (_ & _ & _ & _ & Hsp & _).
  exists c1, c2. split; [exact E1|]. split; [exact E2|]. split; [exact Hrip|]. split; [exact Hsp|].
  apply Hhost. split; left; vm_compute; (split; [intros H; discriminate H|reflexivity]).
Defined.
