(* ===== verification/Screen.v ===== *)
(** * Console output

    Models [utils/screen.c]: the cursor and the text frame buffer
    ([_putchar]), the formatter ([vprintf], with its function parameter
    [putc]) and [printf] under its lock. Also [utils/string.c].

    A C string is the list of its character codes, without the final NUL:
    reading the position after the last character gives 0, reading further is
    a [Fault]. *)

From S2P Require Import Prelude Spinlock.

Local Open Scope Z_scope.
Local Open Scope c_scope.

(** ** Strings *)

(** [s[i]] *)
Definition char_at (s : list Z) (i : Z) : outcome Z :=
  if i <? 0 then Fault
  else match s !! Z.to_nat i with
       | Some c => Ok c
       | None => if i =? Z.of_nat (length s) then Ok 0 else Fault
       end.

Definition c_string (s : list Z) : Prop := ∀ c, c ∈ s → 0 < c < 256.

Definition strlen_step (str : list Z) (len : Z) : outcome (Z + Z) :=
  c ← char_at str len;
  if c =? 0 then Ok (inr len) else Ok (inl (len +w 1)).

Definition strlen (str : list Z) : outcome Z := while (strlen_step str) 0.

(** [while (n > 0)] of [strncmp]: [i] characters have been compared, [c1] and
    [c2] are the last ones. *)
Definition strncmp_step (s1 s2 : list Z) (st : Z * Z * Z * Z) : outcome ((Z * Z * Z * Z) + Z) :=
  let '(i, n, c1, c2) := st in
  if 0 <? n then
    c1 ← char_at s1 i;
    c2 ← char_at s2 i;
    if (c1 =? 0) || negb (c1 =? c2) then Ok (inr (c1 - c2))
    else Ok (inl (i + 1, n -w 1, c1, c2))
  else Ok (inr (c1 - c2)).

Definition strncmp (s1 s2 : list Z) (n : Z) : outcome Z := while (strncmp_step s1 s2) (0, n, 0, 0).

(** A string literal; the final newline is written out. *)
Definition chars (s : string) : list Z :=
  map (fun c => Z.of_N (Ascii.N_of_ascii c)) (String.list_ascii_of_string s).

(** ** The screen *)

Definition COLUMNS : Z := 80.
Definition LINES : Z := 24.
Definition ATTRIBUTE : Z := 7.

(** The cursor, the lock, and the bytes written, by their offset from
    [frameBuf]. *)
Record screen := Screen {
  xpos : Z;
  ypos : Z;
  frame_bytes : gmap Z Z;
  scr_lock : spinlock
}.

Definition screen_init : screen := Screen 0 0 ∅ SPINLOCK_UNLOCKED.

(** [newline:] *)
Definition newline (s : screen) : screen :=
  let y := u16 (ypos s + 1) in
  Screen 0 (if LINES <=? y then 0 else y) (frame_bytes s) (scr_lock s).

Definition _putchar (s : screen) (c : Z) : outcome screen :=
  if (c =? 10) || (c =? 13) then Ok (newline s)
  else
    let o := (xpos s + ypos s * COLUMNS) * 2 in
    let s := Screen (u16 (xpos s + 1)) (ypos s)
               (<[o + 1 := ATTRIBUTE]> (<[o := c .& 0xFF]> (frame_bytes s))) (scr_lock s) in
    Ok (if COLUMNS <=? xpos s then newline s else s).

(** ** The formatter *)

(** A variadic argument: a number or a string pointer. Reading one of the other
    kind, or one that is not there, is undefined. *)
Inductive arg : Type :=
  | ANum (x : Z)
  | AStr (s : option (list Z)).

Definition va_u32 (args : list arg) : outcome (Z * list arg) :=
  match args with ANum x :: args => Ok (u32 x, args) | _ => Fault end.
Definition va_u64 (args : list arg) : outcome (Z * list arg) :=
  match args with ANum x :: args => Ok (u64 x, args) | _ => Fault end.
Definition va_str (args : list arg) : outcome (option (list Z) * list arg) :=
  match args with AStr s :: args => Ok (s, args) | _ => Fault end.

(** The 32-bit pattern of an [int32_t]. *)
Definition int32 (x : Z) : Z := if x <? 2 ^ 31 then x else x - 2 ^ 32.

Definition base10_u32_divisors : list Z :=
  [1000000000; 100000000; 10000000; 1000000; 100000; 10000; 1000; 100; 10; 1].

Section vprintf.
Context {S : Type} (putc : S → Z → outcome S).

(** The local variables of a directive. *)
Record directive := Directive {
  precision : Z;
  width : Z;
  upper : bool;
  padding : Z;
  ells : Z;
  mode_precision : bool
}.

(** [HANDLE_OPTIONS(q, max_w, end_i)] *)
Definition handle_options (d : directive) (q i max_w end_i : Z) (st : bool * bool * S) :
    outcome (bool * bool * S) :=
  let '(print_padding, print_digits, s) := st in
  let print_digits := print_digits || negb (q =? 0) || (i =? end_i) in
  let zero := (q =? 0) && negb print_digits in
  let print_padding := print_padding || (zero && (u32 (max_w - width d) <=? i)) in
  let print_digits := print_digits || (zero && (u32 (max_w - precision d) <=? i)) in
  s ← (if (q =? 0) && print_padding && negb print_digits then putc s (padding d) else Ok s);
  Ok (print_padding, print_digits, s).

(** One round of the loop over hexadecimal digits. *)
Definition hex_step (d : directive) (x w : Z) (st : Z * bool * bool * S) :
    outcome ((Z * bool * bool * S) + S) :=
  let '(i, pp, pd, s) := st in
  if i <? w then
    let li := (x >>w (Z.shiftl (w - 1 - i) 2)) .& 0x0F in
    '(pp, pd, s) ← handle_options d li i w (w - 1) (pp, pd, s);
    s ← (if (pd : bool) then
           if 9 <? li then putc s ((if upper d then 65 else 97) + li - 0x0A)
           else putc s (48 + li)
         else Ok s);
    Ok (inl (i + 1, pp, pd, s))
  else Ok (inr s).

Definition put_hex (d : directive) (x : Z) (s : S) : outcome S :=
  while (hex_step d x (if ells d =? 2 then 16 else 8)) (0, false, false, s).

(** One round of the loop over decimal digits. *)
Definition dec_step (d : directive) (st : Z * Z * bool * bool * S) :
    outcome ((Z * Z * bool * bool * S) + S) :=
  let '(i, x, pp, pd, s) := st in
  if i <? 10 then
    let div := nth (Z.to_nat i) base10_u32_divisors 1 in
    let q := x / div in
    let x := x mod div in
    '(pp, pd, s) ← handle_options d q i 10 9 (pp, pd, s);
    s ← (if (pd : bool) then putc s (48 + q) else Ok s);
    Ok (inl (i + 1, x, pp, pd, s))
  else Ok (inr s).

Definition put_dec (d : directive) (x : Z) (s : S) : outcome S :=
  while (dec_step d) (0, x, false, false, s).

(** [%d]: negating the smallest integer overflows. *)
Definition put_int (d : directive) (x : Z) (s : S) : outcome S :=
  if x <? 0 then
    s ← putc s 45;
    if x =? - 2 ^ 31 then Fault else put_dec d (- x) s
  else put_dec d x s.

(** The loops of [%s]. *)
Definition str_step (str : list Z) (limited : bool) (st : Z * Z * S) : outcome ((Z * Z * S) + S) :=
  let '(i, prec, s) := st in
  c ← char_at str i;
  if c =? 0 then Ok (inr s)
  else if limited && negb (0 <? prec) then Ok (inr s)
  else s ← putc s c; Ok (inl (i + 1, u32 (prec - 1), s)).

Fixpoint put_chars (l : list Z) (s : S) : outcome S :=
  match l with
  | [] => Ok s
  | c :: l => s ← putc s c; put_chars l s
  end.

(** ["(null)"] *)
Definition null_chars : list Z := [40; 110; 117; 108; 108; 41].

Definition put_str (d : directive) (str : option (list Z)) (s : S) : outcome S :=
  match str with
  | Some str => while (str_step str (0 <? precision d)) (0, precision d, s)
  | None => put_chars null_chars s
  end.

(** The default branch: a digit is part of the precision, the padding
    character or the width; anything else is ignored. *)
Definition directive_digit (d : directive) (c : Z) : directive :=
  if (48 <=? c) && (c <=? 57) then
    if mode_precision d then
      Directive (u32 (precision d * 10 + (c - 48))) (width d) (upper d) (padding d) (ells d) true
    else if (width d =? 0) && (c =? 48) then
      Directive (precision d) (width d) (upper d) 48 (ells d) false
    else
      Directive (precision d) (u32 (width d * 10 + (c - 48))) (upper d) (padding d) (ells d) false
  else d.

(** One round of the loop over [*fmt] inside a directive: [inr] is
    [directive_finished], or the end of the loop. *)
Definition directive_step (fmt : list Z) (st : Z * directive * list arg * S) :
    outcome ((Z * directive * list arg * S) + (Z * list arg * S)) :=
  let '(i, d, args, s) := st in
  c ← char_at fmt i;
  if c =? 0 then Ok (inr (i, args, s))
  else if (c =? 120) || (c =? 88) then
    let d := Directive (precision d) (width d) (upper d && negb (c =? 120)) (padding d) (ells d)
               (mode_precision d) in
    '(x, args) ← (if ells d =? 2 then va_u64 args else va_u32 args);
    s ← put_hex d x s; Ok (inr (i, args, s))
  else if c =? 117 then '(x, args) ← va_u32 args; s ← put_dec d x s; Ok (inr (i, args, s))
  else if c =? 100 then '(x, args) ← va_u32 args; s ← put_int d (int32 x) s; Ok (inr (i, args, s))
  else if c =? 115 then '(str, args) ← va_str args; s ← put_str d str s; Ok (inr (i, args, s))
  else if c =? 37 then s ← putc s 37; Ok (inr (i, args, s))
  else if c =? 108 then
    Ok (inl (i + 1, Directive (precision d) (width d) (upper d) (padding d) (u32 (ells d + 1))
                      (mode_precision d), args, s))
  else if c =? 46 then
    Ok (inl (i + 1, Directive (precision d) (width d) (upper d) (padding d) (ells d) true, args, s))
  else Ok (inl (i + 1, directive_digit d c, args, s)).

Definition fresh_directive : directive := Directive 0 0 true 32 0 false.

(** One round of the outer loop. *)
Definition vprintf_step (fmt : list Z) (st : Z * list arg * S) :
    outcome ((Z * list arg * S) + (list arg * S)) :=
  let '(i, args, s) := st in
  c ← char_at fmt i;
  if c =? 0 then Ok (inr (args, s))
  else if c =? 37 then
    '(i, args, s) ← while (directive_step fmt) (i + 1, fresh_directive, args, s);
    Ok (inl (i + 1, args, s))
  else
    s ← putc s c;
    Ok (inl (i + 1, args, s)).

Definition vprintf (fmt : list Z) (args : list arg) (s : S) : outcome (list arg * S) :=
  while (vprintf_step fmt) (0, args, s).
End vprintf.

Definition with_scr_lock (s : screen) (l : spinlock) : screen :=
  Screen (xpos s) (ypos s) (frame_bytes s) l.

Definition printf (s : screen) (fmt : list Z) (args : list arg) : outcome screen :=
  l ← spin_lock (scr_lock s);
  '(_, s) ← vprintf _putchar fmt args (with_scr_lock s l);
  Ok (with_scr_lock s (spin_unlock (scr_lock s))).

(** ** Strings *)

Lemma char_at_ok s i c : s !! Z.to_nat i = Some c → 0 <= i → char_at s i = Ok c.
Proof. intros Hc Hi. unfold char_at. destruct (Z.ltb_spec i 0); [lia|]. by rewrite Hc. Qed.
Lemma char_at_end s : char_at s (Z.of_nat (length s)) = Ok 0.
Proof.
  unfold char_at. destruct (Z.ltb_spec (Z.of_nat (length s)) 0); [lia|].
  rewrite lookup_ge_None_2 by lia. by rewrite Z.eqb_refl.
Qed.
(** A decision procedure, for concrete strings. *)
Lemma c_string_dec s : forallb (fun c => (0 <? c) && (c <? 256)) s = true → c_string s.
Proof.
  intros H c Hc. rewrite forallb_forall in H. specialize (H c ltac:(by apply list_elem_of_In)). lia.
Qed.
Lemma char_at_past s i : Z.of_nat (length s) < i → char_at s i = Fault.
Proof.
  intros Hi. unfold char_at. destruct (i <? 0); [done|]. rewrite lookup_ge_None_2 by lia.
  destruct (Z.eqb_spec i (Z.of_nat (length s))); [lia|done].
Qed.

(** A position inside a C string holds a character, its end holds 0. *)
Lemma char_at_cases s i : c_string s → 0 <= i <= Z.of_nat (length s) →
  ∃ c, char_at s i = Ok c ∧ (c = 0 ↔ i = Z.of_nat (length s)) ∧
    (i < Z.of_nat (length s) → s !! Z.to_nat i = Some c).
Proof.
  intros Hs Hi. destruct (Z.eq_dec i (Z.of_nat (length s))) as [->|Hne].
  - exists 0. split; [apply char_at_end|]. split; [done|lia].
  - destruct (lookup_lt_is_Some_2 s (Z.to_nat i) ltac:(lia)) as [c Hc]. exists c.
    split; [apply char_at_ok; done || lia|]. split; [|done].
    pose proof (Hs c (list_elem_of_lookup_2 _ _ _ Hc)). lia.
Qed.

Lemma strlen_ok s : c_string s → Z.of_nat (length s) < 2 ^ 64 → strlen s = Ok (Z.of_nat (length s)).
Proof.
  intros Hs Hl. assert (Hw : wp (strlen s) (fun r => r = Z.of_nat (length s))).
  { apply (wp_while (strlen_step s) (fun len => 0 <= len <= Z.of_nat (length s))
      (fun len => Z.of_nat (length s) - len) _ 0); [|lia|lia].
    intros len Hb. unfold strlen_step. destruct (char_at_cases s len Hs Hb) as (c & -> & Hc & _).
    rewrite bind_ok. destruct (Z.eqb_spec c 0) as [->|]; [by apply Hc|].
    rewrite u64_id by (unfold is_u64; lia). cbn. lia. }
  apply wp_ok in Hw as (r & -> & ->). done.
Qed.

(** The first [n] characters, the final NUL included. *)
Definition prefix_z (s : list Z) (n : Z) : list Z := take (Z.to_nat n) (s ++ [0]).

Lemma take_snoc_eq (l1 l2 : list Z) j c1 c2 : l1 !! j = Some c1 → l2 !! j = Some c2 →
  take j l1 = take j l2 → c1 = c2 → take (Datatypes.S j) l1 = take (Datatypes.S j) l2.
Proof. intros H1 H2 E ->. by rewrite (take_S_r _ _ _ H1), (take_S_r _ _ _ H2), E. Qed.

Lemma char_nul s i c : c_string s → 0 <= i <= Z.of_nat (length s) → char_at s i = Ok c →
  (s ++ [0]) !! Z.to_nat i = Some c.
Proof.
  intros Hs Hi Hc. destruct (char_at_cases s i Hs Hi) as (c' & E & H0 & Hl). rewrite E in Hc.
  injection Hc as <-. destruct (Z.eq_dec i (Z.of_nat (length s))) as [->|].
  - rewrite (proj2 H0 eq_refl), lookup_app_r by lia. by rewrite Nat2Z.id, Nat.sub_diag.
  - rewrite lookup_app_l by lia. apply Hl. lia.
Qed.

Lemma strncmp_ok s1 s2 n : c_string s1 → c_string s2 → 0 <= n < 2 ^ 64 →
  wp (strncmp s1 s2 n) (fun r => r = 0 ↔ prefix_z s1 n = prefix_z s2 n).
Proof.
  intros H1 H2 Hn.
  apply (wp_while (strncmp_step s1 s2) (fun '(i, m, c1, c2) => 0 <= i ∧ m = n - i ∧ 0 <= m ∧ c1 = c2 ∧
      i <= Z.of_nat (length s1) ∧ i <= Z.of_nat (length s2) ∧
      take (Z.to_nat i) (s1 ++ [0]) = take (Z.to_nat i) (s2 ++ [0])) (fun st => st.1.1.2) _ (0, n, 0, 0)).
  - intros [[[i m] c1] c2] (Hi & -> & Hm & <- & Hl1 & Hl2 & Heq). unfold strncmp_step.
    destruct (Z.ltb_spec 0 (n - i)).
    + destruct (char_at_cases s1 i H1 ltac:(lia)) as (d1 & E1 & Z1 & _).
      destruct (char_at_cases s2 i H2 ltac:(lia)) as (d2 & E2 & Z2 & _).
      pose proof (char_nul s1 i d1 H1 ltac:(lia) E1) as L1. pose proof (char_nul s2 i d2 H2 ltac:(lia) E2) as L2.
      rewrite E1, bind_ok, E2, bind_ok. unfold prefix_z.
      destruct (Z.eqb_spec d1 d2) as [<-|Hne]; cbn [negb].
      * rewrite orb_false_r. destruct (Z.eqb_spec d1 0) as [->|Hd].
        -- cbn. split; [intros _|lia]. pose proof (proj1 Z1 eq_refl). pose proof (proj1 Z2 eq_refl).
           rewrite (take_ge (s1 ++ [0])) in * by (rewrite length_app; cbn; lia).
           pose proof (take_snoc_eq _ _ _ _ _ L1 L2 Heq eq_refl) as Hall.
           rewrite !take_ge in Hall by (rewrite length_app; cbn; lia).
           rewrite Hall, !take_ge by (rewrite length_app; cbn; lia). done.
        -- rewrite u64_id by (unfold is_u64; lia). cbn. split; [|lia].
           split; [lia|]. split; [lia|]. split; [lia|]. split; [done|].
           assert (i ≠ Z.of_nat (length s1)) by (intros E; by apply Hd, Z1).
           assert (i ≠ Z.of_nat (length s2)) by (intros E; by apply Hd, Z2).
           split; [lia|]. split; [lia|]. replace (Z.to_nat (i + 1)) with (Datatypes.S (Z.to_nat i)) by lia.
           by apply (take_snoc_eq _ _ _ d1 d1).
      * rewrite orb_true_r. cbn. split; [lia|]. intros Hp. exfalso. apply Hne.
        assert (Hx : take (Z.to_nat n) (s1 ++ [0]) !! Z.to_nat i = take (Z.to_nat n) (s2 ++ [0]) !! Z.to_nat i)
          by (by rewrite Hp).
        rewrite !lookup_take_lt, L1, L2 in Hx by lia. by injection Hx.
    + cbn. split; [intros _|lia]. unfold prefix_z. by replace n with i by lia.
  - split; [lia|]. split; [lia|]. split; [lia|]. split; [done|]. split; [lia|]. split; [lia|]. done.
  - cbn. lia.
Qed.

(** ** What a formatter run keeps *)

Section keeps.
Context {S : Type} (putc : S → Z → outcome S) (I : S → Prop).
Context (Hputc : ∀ s c, I s → wlp (putc s c) I).

Lemma handle_options_keeps d q i max_w end_i pp pd s : I s →
  wlp (handle_options putc d q i max_w end_i (pp, pd, s)) (fun '(_, _, s') => I s').
Proof using Hputc.
  intros Hs. unfold handle_options. cbv zeta. apply wlp_bind.
  destruct (_ && _ && _); [eapply wlp_mono; [by apply Hputc|]|apply wlp_ret]; intros; by try apply wlp_ret.
Qed.

Lemma wlp_if {B} (b : bool) (o1 o2 : outcome B) Q : wlp o1 Q → wlp o2 Q → wlp (if b then o1 else o2) Q.
Proof. by destruct b. Qed.

Lemma put_hex_keeps d x s : I s → wlp (put_hex putc d x s) I.
Proof using Hputc.
  intros Hs. apply (wlp_while _ (fun st => I st.2)); [|done]. intros [[[i pp] pd] s1] H1. cbn in H1.
  unfold hex_step. apply wlp_if; [|by apply wlp_ret]. cbv zeta. apply wlp_bind.
  eapply wlp_mono; [by apply handle_options_keeps|]. intros [[pp' pd'] s2] H2. apply wlp_bind.
  eapply wlp_mono; [|intros s3 H3; apply wlp_ret; exact H3].
  repeat apply wlp_if; by first [apply Hputc|apply wlp_ret].
Qed.

Lemma put_dec_keeps d x s : I s → wlp (put_dec putc d x s) I.
Proof using Hputc.
  intros Hs. apply (wlp_while _ (fun st => I st.2)); [|done]. intros [[[[i y] pp] pd] s1] H1. cbn in H1.
  unfold dec_step. apply wlp_if; [|by apply wlp_ret]. cbv zeta. apply wlp_bind.
  eapply wlp_mono; [by apply handle_options_keeps|]. intros [[pp' pd'] s2] H2. apply wlp_bind.
  eapply wlp_mono; [|intros s3 H3; apply wlp_ret; exact H3].
  apply wlp_if; by first [apply Hputc|apply wlp_ret].
Qed.

Lemma put_int_keeps d x s : I s → wlp (put_int putc d x s) I.
Proof using Hputc.
  intros Hs. unfold put_int. apply wlp_if; [|by apply put_dec_keeps]. apply wlp_bind.
  eapply wlp_mono; [by apply Hputc|]. intros s1 H1. apply wlp_if; [by intros ? ?|by apply put_dec_keeps].
Qed.

Lemma put_chars_keeps l s : I s → wlp (put_chars putc l s) I.
Proof using Hputc.
  revert s. induction l as [|c l IH]; intros s Hs; cbn [put_chars]; [by apply wlp_ret|].
  apply wlp_bind. eapply wlp_mono; [by apply Hputc|]. intros s1 H1. by apply IH.
Qed.

Lemma put_str_keeps d str s : I s → wlp (put_str putc d str s) I.
Proof using Hputc.
  intros Hs. unfold put_str. destruct str as [str|]; [|by apply put_chars_keeps].
  apply (wlp_while _ (fun st => I st.2)); [|done]. intros [[i p] s1] H1. cbn in H1.
  unfold str_step. apply wlp_bind. intros c _. repeat (apply wlp_if; [by apply wlp_ret|]).
  apply wlp_bind. eapply wlp_mono; [by apply Hputc|]. intros s2 H2. by apply wlp_ret.
Qed.

Lemma vprintf_keeps fmt args s : I s → wlp (vprintf putc fmt args s) (fun '(_, s') => I s').
Proof using Hputc.
  intros Hs. apply (wlp_while _ (fun st => I st.2)); [|done]. intros [[i a] s1] H1. cbn in H1.
  unfold vprintf_step. apply wlp_bind. intros c _. apply wlp_if; [by apply wlp_ret|]. apply wlp_if.
  - apply wlp_bind. eapply wlp_mono.
    + apply (wlp_while _ (fun st => I st.2) (fun '(_, _, s') => I s')); [|done].
      intros [[[j d] a1] s2] H2. cbn in H2. unfold directive_step. apply wlp_bind. intros c' _.
      apply wlp_if; [by apply wlp_ret|]. apply wlp_if.
      { cbv zeta. apply wlp_bind. intros [x a2] _. apply wlp_bind.
        eapply wlp_mono; [by apply put_hex_keeps|]. intros s3 H3. by apply wlp_ret. }
      apply wlp_if.
      { apply wlp_bind. intros [x a2] _. apply wlp_bind.
        eapply wlp_mono; [by apply put_dec_keeps|]. intros s3 H3. by apply wlp_ret. }
      apply wlp_if.
      { apply wlp_bind. intros [x a2] _. apply wlp_bind.
        eapply wlp_mono; [by apply put_int_keeps|]. intros s3 H3. by apply wlp_ret. }
      apply wlp_if.
      { apply wlp_bind. intros [x a2] _. apply wlp_bind.
        eapply wlp_mono; [by apply put_str_keeps|]. intros s3 H3. by apply wlp_ret. }
      apply wlp_if.
      { apply wlp_bind. eapply wlp_mono; [by apply Hputc|]. intros s3 H3. by apply wlp_ret. }
      repeat apply wlp_if; by apply wlp_ret.
    + intros [[j a1] s2] H2. by apply wlp_ret.
  - apply wlp_bind. eapply wlp_mono; [by apply Hputc|]. intros s2 H2. by apply wlp_ret.
Qed.
End keeps.

(** ** Numbers *)

(** [n] digits of [x], the most significant first. *)
Fixpoint fixed_digits (base : Z) (n : nat) (x : Z) : list Z :=
  match n with
  | O => []
  | Datatypes.S n => x / base ^ Z.of_nat n :: fixed_digits base n (x mod base ^ Z.of_nat n)
  end.

(** Without the zeros in front; one digit stays. *)
Fixpoint strip_zeros (ds : list Z) : list Z :=
  match ds with
  | [] => []
  | [q] => [q]
  | q :: ds' => if q =? 0 then strip_zeros ds' else q :: ds'
  end.

Definition digits_value (base : Z) (ds : list Z) : Z := foldl (fun v d => v * base + d) 0 ds.

(** [ds] is the usual way to write [x]. *)
Record numeral (base x : Z) (ds : list Z) : Prop := Numeral {
  num_value : digits_value base ds = x;
  num_digits : Forall (fun d => 0 <= d < base) ds;
  num_canonical : ds = [0] ∨ ∃ d ds', ds = d :: ds' ∧ d ≠ 0
}.

(** What the code makes of the digits, for any variables of a directive: at
    least [precision] digits, filled with zeros, in a field of at least [width]
    characters, filled with the padding character. The code goes through [w]
    columns, and a precision or a width above them counts as none: this is
    its behaviour, not the meaning of the directive, which the file [Format]
    states. *)
Definition number_text (d : directive) (w : Z) (text : list Z) : list Z :=
  let prec := if precision d <=? w then precision d else 0 in
  let wid := if width d <=? w then width d else 0 in
  let k := Z.max (Z.of_nat (length text)) prec in
  replicate (Z.to_nat (wid - k)) (padding d) ++
  replicate (Z.to_nat (k - Z.of_nat (length text))) 48 ++ text.

Definition dec_char (q : Z) : Z := 48 + q.
Definition hex_char (upper : bool) (q : Z) : Z :=
  if 9 <? q then (if upper then 65 else 97) + q - 0x0A else 48 + q.

(** The columns as the code goes through them, [length ds] of [w] left. *)
Fixpoint emit (d : directive) (chr : Z → Z) (w : Z) (ds : list Z) (pp pd : bool) : list Z :=
  match ds with
  | [] => []
  | q :: ds =>
      let i := w - 1 - Z.of_nat (length ds) in
      let pd1 := pd || negb (q =? 0) || (i =? w - 1) in
      let zero := (q =? 0) && negb pd1 in
      let pp := pp || (zero && (u32 (w - width d) <=? i)) in
      let pd := pd1 || (zero && (u32 (w - precision d) <=? i)) in
      (if (q =? 0) && pp && negb pd then [padding d] else []) ++
      (if pd then [chr q] else []) ++ emit d chr w ds pp pd
  end.

Lemma emit_digits d chr w ds pp : emit d chr w ds pp true = map chr ds.
Proof.
  revert pp. induction ds as [|q ds IH]; intros pp; cbn [emit map]; [done|].
  cbn [orb negb]. rewrite !andb_false_r. cbn. by rewrite IH.
Qed.

Lemma strip_cons q q' ds :
  strip_zeros (q :: q' :: ds) = if q =? 0 then strip_zeros (q' :: ds) else q :: q' :: ds.
Proof. reflexivity. Qed.

Lemma strip_length ds : (length (strip_zeros ds) <= length ds)%nat.
Proof.
  induction ds as [|q [|q' ds] IH]; [done|done|]. rewrite strip_cons.
  destruct (q =? 0); cbn [length] in *; lia.
Qed.

Lemma strip_nonempty ds : ds ≠ [] → (1 <= length (strip_zeros ds))%nat.
Proof.
  intros Hds. induction ds as [|q [|q' ds] IH]; [done|cbn; lia|].
  rewrite strip_cons.
  destruct (q =? 0); [by apply IH|cbn; lia].
Qed.

Lemma strip_pad ds : ds = replicate (length ds - length (strip_zeros ds)) 0 ++ strip_zeros ds.
Proof.
  induction ds as [|q [|q' ds] IH]; [done|done|].
  rewrite strip_cons.
  destruct (Z.eqb_spec q 0) as [->|]; [|by rewrite Nat.sub_diag].
  pose proof (strip_length (q' :: ds)) as Hl.
  replace (length (0%Z :: q' :: ds) - length (strip_zeros (q' :: ds)))%nat
    with (Datatypes.S (length (q' :: ds) - length (strip_zeros (q' :: ds)))) by (cbn [length] in *; lia).
  cbn [replicate app]. by rewrite <- IH.
Qed.

(** A column count that is not above [w] is reached at its column; one that is
    wraps around and is never reached. *)
Lemma column_reached w n c i : 0 <= w < 2 ^ 16 → is_u32 c → i = w - 1 - n → 0 <= i < w → 0 <= n →
  (u32 (w - c) <=? i) = (n + 1 <=? (if c <=? w then c else 0)).
Proof.
  intros Hw Hc -> Hi Hn. destruct (Z.leb_spec c w).
  - rewrite u32_id by ulia. destruct (Z.leb_spec (w - c) (w - 1 - n)), (Z.leb_spec (n + 1) c); done || lia.
  - unfold u32. rewrite <- (Z_mod_plus_full _ 1), Z.mod_small by ulia.
    destruct (Z.leb_spec (w - c + 1 * 2 ^ 32) (w - 1 - n)), (Z.leb_spec (n + 1) 0); done || ulia.
Qed.

Lemma emit_text d chr w ds : 0 <= w < 2 ^ 16 → is_u32 (width d) → is_u32 (precision d) → chr 0 = 48 →
  let prec := if precision d <=? w then precision d else 0 in
  let wid := if width d <=? w then width d else 0 in
  let n := Z.of_nat (length ds) in
  n <= w → prec <= n → ds ≠ [] →
  emit d chr w ds (n <? wid) false =
    let k := Z.max (Z.of_nat (length (strip_zeros ds))) prec in
    replicate (Z.to_nat (Z.min n wid - k)) (padding d) ++
    replicate (Z.to_nat (k - Z.of_nat (length (strip_zeros ds)))) 48 ++ map chr (strip_zeros ds).
Proof.
  intros Hw Hwid Hprec Hchr prec wid. induction ds as [|q ds IH]; [done|]. cbv zeta. intros Hn Hp _.
  cbn [emit]. cbn [length] in Hn, Hp. set (n := Z.of_nat (length ds)) in *.
  assert (Hn0 : n = Z.of_nat (length ds)) by done. clearbody n.
  assert (Hlen : Z.of_nat (length (q :: ds)) = n + 1) by (cbn [length]; lia). rewrite Hlen.
  rewrite !(column_reached w n) by (done || lia). fold wid prec. cbn [orb].
  destruct ds as [|q' ds'].
  { cbn [length] in *. change (Z.of_nat 0) with 0 in Hn0. subst n. cbn [strip_zeros map length].
    rewrite (proj2 (Z.eqb_eq (w - 1 - 0) (w - 1))) by lia. rewrite !orb_true_r. cbn [orb negb].
    rewrite !andb_false_r, !orb_false_r. cbn [app emit].
    replace (Z.to_nat (Z.min _ _ - _)) with 0%nat by lia. by replace (Z.to_nat (Z.max _ _ - _)) with 0%nat by lia. }
  assert (Hn1 : 1 <= n) by (cbn [length] in Hn0; lia).
  rewrite strip_cons.
  set (tl := q' :: ds') in *.
  rewrite (proj2 (Z.eqb_neq (w - 1 - n) (w - 1))) by lia. rewrite orb_false_r.
  destruct (Z.eqb_spec q 0) as [->|Hq]; cbn [negb andb orb].
  2: { cbn [app]. rewrite emit_digits, Hlen.
       replace (Z.to_nat (Z.min _ _ - _)) with 0%nat by lia.
       by replace (Z.to_nat (Z.max _ _ - _)) with 0%nat by lia. }
  pose proof (strip_length tl) as Hsl.
  destruct (Z.leb_spec (n + 1) prec) as [Hfull|Hmore].
  - cbn [negb andb]. rewrite andb_false_r. cbn [app]. rewrite emit_digits, (strip_pad tl) at 1.
    rewrite map_app, fmap_replicate, Hchr.
    replace (Z.to_nat (Z.min _ _ - _)) with 0%nat by lia.
    replace (Z.to_nat (Z.max _ _ - _)) with (Datatypes.S (length tl - length (strip_zeros tl))) by lia. done.
  - cbn [negb app]. rewrite andb_true_r.
    replace ((n + 1 <? wid) || (n + 1 <=? wid)) with (n <? wid)
      by (destruct (Z.ltb_spec n wid), (Z.ltb_spec (n + 1) wid), (Z.leb_spec (n + 1) wid); done || lia).
    rewrite IH by (done || lia). rewrite app_assoc. f_equal.
    destruct (Z.ltb_spec n wid).
    + change [padding d] with (replicate 1 (padding d)). rewrite <- replicate_add. f_equal. lia.
    + cbn [app]. f_equal. lia.
Qed.

Lemma fixed_digits_length base n x : length (fixed_digits base n x) = n.
Proof. revert x. induction n as [|n IH]; intros x; cbn; [done|]. by rewrite IH. Qed.

Lemma fixed_digits_value base n x v : 1 < base → 0 <= x < base ^ Z.of_nat n →
  foldl (fun v d => v * base + d) v (fixed_digits base n x) = v * base ^ Z.of_nat n + x.
Proof.
  intros Hb. revert x v. induction n as [|n IH]; intros x v Hx; cbn [fixed_digits foldl].
  - change (base ^ Z.of_nat 0) with 1 in *. lia.
  - assert (0 < base ^ Z.of_nat n) by (apply Z.pow_pos_nonneg; lia).
    rewrite IH by (apply Z.mod_pos_bound; lia). rewrite Nat2Z.inj_succ, Z.pow_succ_r by lia.
    pose proof (Z.div_mod x (base ^ Z.of_nat n)). nia.
Qed.

Lemma fixed_digits_range base n x : 1 < base → 0 <= x < base ^ Z.of_nat n →
  Forall (fun d => 0 <= d < base) (fixed_digits base n x).
Proof.
  intros Hb. revert x. induction n as [|n IH]; intros x Hx; cbn [fixed_digits]; [done|].
  assert (0 < base ^ Z.of_nat n) by (apply Z.pow_pos_nonneg; lia).
  rewrite Nat2Z.inj_succ, Z.pow_succ_r in Hx by lia. constructor.
  - split; [apply Z.div_pos; lia|apply Z.div_lt_upper_bound; nia].
  - apply IH, Z.mod_pos_bound. lia.
Qed.

Lemma strip_canonical ds : ds ≠ [] →
  strip_zeros ds = [0] ∨ ∃ d ds', strip_zeros ds = d :: ds' ∧ d ≠ 0.
Proof.
  intros Hds. induction ds as [|q [|q' ds] IH]; [done| |].
  - destruct (Z.eq_dec q 0) as [->|Hq]; [by left|right; by exists q, []].
  - rewrite strip_cons. destruct (Z.eqb_spec q 0) as [->|Hq]; [by apply IH|right; by exists q, (q' :: ds)].
Qed.

Lemma value_replicate base n : foldl (fun v d => v * base + d) 0 (replicate n 0) = 0.
Proof. induction n as [|n IH]; [done|exact IH]. Qed.

Lemma strip_numeral base n x : (0 < n)%nat → 1 < base → 0 <= x < base ^ Z.of_nat n →
  numeral base x (strip_zeros (fixed_digits base n x)).
Proof.
  intros Hn Hb Hx. set (ds := fixed_digits base n x). pose proof (strip_pad ds) as Hp. split.
  - transitivity (digits_value base ds).
    + rewrite Hp at 2. unfold digits_value. by rewrite foldl_app, value_replicate.
    + unfold digits_value, ds. rewrite fixed_digits_value by done. lia.
  - pose proof (fixed_digits_range base n x Hb Hx) as Hr. fold ds in Hr. rewrite Hp in Hr.
    by apply Forall_app in Hr as [_ ?].
  - apply strip_canonical. intros E. pose proof (fixed_digits_length base n x) as Hl. fold ds in Hl.
    rewrite E in Hl. cbn in Hl. lia.
Qed.

Section numbers.
Context {S : Type} (putc : S → Z → outcome S).

Lemma put_chars_app l1 l2 s :
  put_chars putc (l1 ++ l2) s = (s ← put_chars putc l1 s; put_chars putc l2 s).
Proof. revert s. induction l1 as [|c l1 IH]; intros s; cbn; [done|]. destruct (putc s c); cbn; auto. Qed.

Lemma div_of_index n : (n < 10)%nat →
  nth (Z.to_nat (9 - Z.of_nat n)) base10_u32_divisors 1 = 10 ^ Z.of_nat n.
Proof. intros Hn. do 10 (destruct n as [|n]; [reflexivity|]). lia. Qed.

Lemma dec_rounds d n x pp pd s : (n <= 10)%nat →
  rounds (Datatypes.S n) (dec_step putc d) (10 - Z.of_nat n, x, pp, pd, s) =
    (r ← put_chars putc (emit d dec_char 10 (fixed_digits 10 n x) pp pd) s; Ok (inr r)).
Proof.
  revert x pp pd s. induction n as [|n IH]; intros x pp pd s Hn; [done|].
  rewrite rounds_S.
  unfold dec_step at 2. rewrite Nat2Z.inj_succ.
  replace (10 - Z.succ (Z.of_nat n)) with (9 - Z.of_nat n) by lia.
  cbv beta iota zeta. destruct (Z.ltb_spec (9 - Z.of_nat n) 10); [|lia].
  rewrite div_of_index by lia. cbn [fixed_digits emit]. rewrite fixed_digits_length.
  replace (10 - 1 - Z.of_nat n) with (9 - Z.of_nat n) by lia. change (10 - 1) with 9.
  set (q := x / 10 ^ Z.of_nat n). set (y := x mod 10 ^ Z.of_nat n).
  unfold handle_options. cbv beta iota zeta.
  set (pd1 := pd || negb (q =? 0) || (9 - Z.of_nat n =? 9)).
  set (pp2 := pp || _). set (pd2 := pd1 || _).
  replace (9 - Z.of_nat n + 1) with (10 - Z.of_nat n) by lia.
  destruct ((q =? 0) && pp2 && negb pd2); [cbn [app put_chars]; destruct (putc s (padding d)) as [s1| | |];
    rewrite ?bind_ok; [|done..]|rewrite app_nil_l, !bind_ok; set (s1 := s)];
  (destruct pd2; [cbn [app put_chars]; change (dec_char q) with (48 + q);
     destruct (putc s1 (48 + q)) as [s2| | |]; [|done..]; rewrite !bind_ok; by apply IH; lia
    |rewrite app_nil_l, !bind_ok; by apply IH; lia]).
Qed.

Lemma put_dec_emit d x s :
  put_dec putc d x s = put_chars putc (emit d dec_char 10 (fixed_digits 10 10 x) false false) s.
Proof. apply (while_rounds _ 11); [lia|]. by apply (dec_rounds d 10). Qed.
Lemma hex_digit x n : 0 <= n → (x >>w Z.shiftl n 2) .& 0x0F = x / 16 ^ n mod 16.
Proof.
  intros Hn. change 0x0F with (Z.ones 4). rewrite Z.land_ones, Z.shiftl_mul_pow2 by lia.
  rewrite Z.shiftr_div_pow2 by lia. rewrite Z.mul_comm, Z.pow_mul_r by lia. done.
Qed.

Lemma hex_head x n : 0 <= n → x mod 16 ^ Z.succ n / 16 ^ n = x / 16 ^ n mod 16.
Proof.
  intros Hn. assert (0 < 16 ^ n) by (apply Z.pow_pos_nonneg; lia).
  rewrite Z.pow_succ_r, (Z.mul_comm 16), Z.rem_mul_r by lia.
  rewrite (Z.mul_comm (16 ^ n)), Z.div_add by lia. rewrite Z.div_small by (apply Z.mod_pos_bound; lia). lia.
Qed.

Lemma hex_tail x n : 0 <= n → (x mod 16 ^ Z.succ n) mod 16 ^ n = x mod 16 ^ n.
Proof.
  intros Hn. assert (0 < 16 ^ n) by (apply Z.pow_pos_nonneg; lia).
  rewrite Z.pow_succ_r, (Z.mul_comm 16), Z.rem_mul_r by lia.
  rewrite (Z.mul_comm (16 ^ n)), Z.mod_add by lia. apply Z.mod_mod. lia.
Qed.

Lemma hex_rounds d w x n pp pd s : (Z.of_nat n <= w) →
  rounds (Datatypes.S n) (hex_step putc d x w) (w - Z.of_nat n, pp, pd, s) =
    (r ← put_chars putc (emit d (hex_char (upper d)) w (fixed_digits 16 n (x mod 16 ^ Z.of_nat n)) pp pd) s;
     Ok (inr r)).
Proof.
  revert pp pd s. induction n as [|n IH]; intros pp pd s Hn.
  - rewrite rounds_S. unfold hex_step. change (Z.of_nat 0) with 0. rewrite Z.sub_0_r, Z.ltb_irrefl. done.
  - rewrite rounds_S. unfold hex_step at 2. rewrite Nat2Z.inj_succ in *.
    replace (w - Z.succ (Z.of_nat n)) with (w - 1 - Z.of_nat n) by lia.
    cbv beta iota zeta. destruct (Z.ltb_spec (w - 1 - Z.of_nat n) w); [|lia].
    replace (w - 1 - (w - 1 - Z.of_nat n)) with (Z.of_nat n) by lia.
    rewrite hex_digit by lia. cbn [fixed_digits emit]. rewrite fixed_digits_length, hex_head, hex_tail by lia.
    set (q := x / 16 ^ Z.of_nat n mod 16).
    unfold handle_options. cbv beta iota zeta.
    set (pd1 := pd || negb (q =? 0) || (w - 1 - Z.of_nat n =? w - 1)).
    set (pp2 := pp || _). set (pd2 := pd1 || _).
    replace (w - 1 - Z.of_nat n + 1) with (w - Z.of_nat n) by lia.
    destruct ((q =? 0) && pp2 && negb pd2); [cbn [app put_chars]; destruct (putc s (padding d)) as [s1| | |];
      rewrite ?bind_ok; [|done..]|rewrite app_nil_l, !bind_ok; set (s1 := s)];
    (destruct pd2; [cbn [app put_chars]; change (hex_char (upper d) q) with
         (if 9 <? q then (if upper d then 65 else 97) + q - 0x0A else 48 + q);
       destruct (9 <? q); (destruct (putc s1 _) as [s2| | |]; [|done..]); rewrite !bind_ok; by apply IH; lia
      |rewrite app_nil_l, !bind_ok; by apply IH; lia]).
Qed.

Definition hex_columns (d : directive) : Z := if ells d =? 2 then 16 else 8.

Lemma put_hex_emit d x s :
  put_hex putc d x s =
    put_chars putc (emit d (hex_char (upper d)) (hex_columns d)
      (fixed_digits 16 (Z.to_nat (hex_columns d)) (x mod 16 ^ hex_columns d)) false false) s.
Proof.
  unfold put_hex. change (if ells d =? 2 then 16 else 8) with (hex_columns d).
  assert (0 <= hex_columns d <= 16) as Hw by (unfold hex_columns; destruct (ells d =? 2); lia).
  apply (while_rounds _ (Datatypes.S (Z.to_nat (hex_columns d)))); [lia|].
  pose proof (hex_rounds d (hex_columns d) x (Z.to_nat (hex_columns d)) false false s ltac:(lia)) as Hr.
  rewrite Z2Nat.id, Z.sub_diag in Hr by lia. exact Hr.
Qed.
End numbers.

Section directives.
Context {S : Type} (putc : S → Z → outcome S).

Lemma emit_number d chr w ds : 0 <= w < 2 ^ 16 → is_u32 (width d) → is_u32 (precision d) → chr 0 = 48 →
  Z.of_nat (length ds) = w → ds ≠ [] →
  emit d chr w ds false false = number_text d w (map chr (strip_zeros ds)).
Proof.
  intros Hw Hwid Hp Hchr Hlen Hds. unfold number_text. rewrite length_map.
  pose proof (emit_text d chr w ds Hw Hwid Hp Hchr) as E. cbv zeta in E. rewrite Hlen in E.
  assert (∀ c, (if c <=? w then c else 0) <= w) as Hle by (intros c; destruct (Z.leb_spec c w); lia).
  rewrite (proj2 (Z.ltb_ge w _)) in E by apply Hle. rewrite E by (done || lia || apply Hle).
  by rewrite Z.min_r by apply Hle.
Qed.

Lemma put_dec_text d x s : is_u32 (width d) → is_u32 (precision d) → is_u32 x →
  ∃ ds, numeral 10 x ds ∧ put_dec putc d x s = put_chars putc (number_text d 10 (map dec_char ds)) s.
Proof.
  intros Hw Hp Hx. exists (strip_zeros (fixed_digits 10 10 x)). split.
  - apply strip_numeral; [lia|lia|]. change (10 ^ Z.of_nat 10) with 10000000000. ulia.
  - rewrite put_dec_emit, emit_number; [done|lia|done|done|done|by rewrite fixed_digits_length|done].
Qed.

Lemma put_hex_text d x s : is_u32 (width d) → is_u32 (precision d) → 0 <= x < 16 ^ hex_columns d →
  ∃ ds, numeral 16 x ds ∧
    put_hex putc d x s = put_chars putc (number_text d (hex_columns d) (map (hex_char (upper d)) ds)) s.
Proof.
  intros Hw Hp Hx.
  assert (1 <= hex_columns d <= 16) as Hc by (unfold hex_columns; destruct (ells d =? 2); lia).
  exists (strip_zeros (fixed_digits 16 (Z.to_nat (hex_columns d)) x)). split.
  - apply strip_numeral; [lia|lia|]. by rewrite Z2Nat.id by lia.
  - rewrite put_hex_emit, Z.mod_small by done. rewrite emit_number; [done|lia|done|done|done| |].
    + rewrite fixed_digits_length. lia.
    + intros E. apply (f_equal length) in E. rewrite fixed_digits_length in E. cbn in E. lia.
Qed.

(** The text of [%d]; the sign comes before the padding. *)
Lemma put_int_text d x s : is_u32 (width d) → is_u32 (precision d) → - 2 ^ 31 < x < 2 ^ 31 →
  ∃ ds, numeral 10 (Z.abs x) ds ∧
    put_int putc d x s =
      put_chars putc ((if x <? 0 then [45] else []) ++ number_text d 10 (map dec_char ds)) s.
Proof.
  intros Hw Hp Hx. exists (strip_zeros (fixed_digits 10 10 (Z.abs x))). split.
  { apply strip_numeral; [lia|lia|]. change (10 ^ Z.of_nat 10) with 10000000000. lia. }
  assert (Hn : ∀ y s, put_dec putc d y s =
      put_chars putc (number_text d 10 (map dec_char (strip_zeros (fixed_digits 10 10 y)))) s).
  { intros y s1. rewrite put_dec_emit, emit_number; [done|lia|done|done|done|by rewrite fixed_digits_length|done]. }
  unfold put_int. destruct (Z.ltb_spec x 0).
  - destruct (Z.eqb_spec x (- 2 ^ 31)); [lia|]. rewrite Z.abs_neq by lia. cbn [app put_chars].
    destruct (putc s 45) as [s1| | |]; [|done..]. rewrite !bind_ok. apply Hn.
  - rewrite Z.abs_eq by lia. apply Hn.
Qed.

Lemma put_chars_wp l s (I : S → Prop) : (∀ s c, I s → wp (putc s c) I) → I s → wp (put_chars putc l s) I.
Proof.
  intros Hp. revert s. induction l as [|c l IH]; intros s Hs; cbn [put_chars]; [done|].
  apply wp_bind. apply (wp_mono _ _ _ (Hp s c Hs)). intros s1 H1. by apply IH.
Qed.

(** [%s] prints the string, up to [precision] characters when there is one. *)
Lemma put_str_rounds str n limited prec s : c_string str → (n <= length str)%nat → is_u32 prec →
  rounds (Datatypes.S n) (str_step putc str limited) (Z.of_nat (length str - n), prec, s) =
    (r ← put_chars putc (let l := drop (length str - n) str in
                         if limited then take (Z.to_nat prec) l else l) s; Ok (inr r)).
Proof.
  intros Hc. revert prec s. induction n as [|n IH]; intros prec s Hn Hp; rewrite rounds_S.
  - unfold str_step. rewrite Nat.sub_0_r, char_at_end. cbn. rewrite drop_all. by destruct limited; rewrite ?take_nil.
  - unfold str_step at 2. cbv beta iota zeta.
    destruct (lookup_lt_is_Some_2 str (length str - Datatypes.S n) ltac:(lia)) as [c El].
    rewrite (char_at_ok str _ c) by (rewrite ?Nat2Z.id; done || lia). rewrite bind_ok.
    pose proof (Hc c (list_elem_of_lookup_2 _ _ _ El)). destruct (Z.eqb_spec c 0); [lia|].
    rewrite (drop_S _ _ _ El). replace (Datatypes.S (length str - Datatypes.S n)) with (length str - n)%nat by lia.
    destruct limited; cbn [andb].
    + destruct (Z.ltb_spec 0 prec); cbn [negb].
      * replace (Z.to_nat prec) with (Datatypes.S (Z.to_nat (prec - 1))) by ulia. cbn [take put_chars].
        destruct (putc s c) as [s1| | |]; [|done..]. rewrite !bind_ok, u32_id by ulia.
        replace (Z.of_nat (length str - Datatypes.S n) + 1) with (Z.of_nat (length str - n)) by lia.
        apply IH; [lia|ulia].
      * replace (Z.to_nat prec) with 0%nat by ulia. done.
    + cbn [put_chars]. destruct (putc s c) as [s1| | |]; [|done..]. rewrite !bind_ok.
      replace (Z.of_nat (length str - Datatypes.S n) + 1) with (Z.of_nat (length str - n)) by lia.
      apply (IH (u32 (prec - 1))); [lia|apply u32_range].
Qed.

Lemma put_str_text d str s : c_string str → Z.of_nat (length str) < 2 ^ 64 → is_u32 (precision d) →
  put_str putc d (Some str) s =
    put_chars putc (if 0 <? precision d then take (Z.to_nat (precision d)) str else str) s.
Proof.
  intros Hc Hl Hp. unfold put_str. apply (while_rounds _ (Datatypes.S (length str))); [lia|].
  pose proof (put_str_rounds str (length str) (0 <? precision d) (precision d) s Hc ltac:(lia) Hp) as E.
  rewrite Nat.sub_diag in E. change (Z.of_nat 0) with 0 in E. rewrite drop_0 in E. exact E.
Qed.
End directives.

(** ** What a format prints

    For every format, those whose meaning the code misses included: the options
    are read as the code reads them and the fields are those of [number_text].
    What a format should print is in the file [Format]. *)

Definition digits (base columns x : Z) : list Z :=
  strip_zeros (fixed_digits base (Z.to_nat columns) x).

(** A character of a directive that does not end it. *)
Definition option_char (c : Z) : bool := negb (existsb (Z.eqb c) [0; 120; 88; 117; 100; 115; 37]).

Definition read_option (d : directive) (c : Z) : directive :=
  if c =? 108 then
    Directive (precision d) (width d) (upper d) (padding d) (u32 (ells d + 1)) (mode_precision d)
  else if c =? 46 then
    Directive (precision d) (width d) (upper d) (padding d) (ells d) true
  else directive_digit d c.

(** [converts d c args text args']: the directive with the options [d] and the
    conversion character [c] prints [text] and takes its argument. *)
Inductive converts (d : directive) : Z → list arg → list Z → list arg → Prop :=
  | converts_hex c x args : c = 120 ∨ c = 88 →
      converts d c (ANum x :: args)
        (number_text d (hex_columns d)
           (map (hex_char (upper d && negb (c =? 120))) (digits 16 (hex_columns d) (x mod 16 ^ hex_columns d)))) args
  | converts_unsigned x args :
      converts d 117 (ANum x :: args) (number_text d 10 (map dec_char (digits 10 10 (u32 x)))) args
  | converts_signed x args : int32 (u32 x) ≠ - 2 ^ 31 →
      converts d 100 (ANum x :: args)
        ((if int32 (u32 x) <? 0 then [45] else []) ++
         number_text d 10 (map dec_char (digits 10 10 (Z.abs (int32 (u32 x)))))) args
  | converts_string str args : c_string str → Z.of_nat (length str) < 2 ^ 64 →
      converts d 115 (AStr (Some str) :: args)
        (if 0 <? precision d then take (Z.to_nat (precision d)) str else str) args
  | converts_null args : converts d 115 (AStr None :: args) null_chars args
  | converts_percent args : converts d 37 args [37] args.

(** [renders fmt args text args']: the format prints [text] and leaves the
    arguments [args'] unused. *)
Inductive renders : list Z → list arg → list Z → list arg → Prop :=
  | renders_end args : renders [] args [] args
  | renders_char c fmt args text args' : 0 < c → c ≠ 37 →
      renders fmt args text args' → renders (c :: fmt) args (c :: text) args'
  | renders_directive opts c fmt args t1 args1 t2 args2 :
      forallb option_char opts = true →
      converts (foldl read_option fresh_directive opts) c args t1 args1 →
      renders fmt args1 t2 args2 →
      renders (37 :: opts ++ c :: fmt) args (t1 ++ t2) args2.

Lemma char_at_drop fmt i c rest : 0 <= i → drop (Z.to_nat i) fmt = c :: rest →
  char_at fmt i = Ok c ∧ drop (Z.to_nat (i + 1)) fmt = rest.
Proof.
  intros Hi Hd. split.
  - apply char_at_ok; [|done]. rewrite <- (Nat.add_0_r (Z.to_nat i)), <- lookup_drop, Hd. done.
  - replace (Z.to_nat (i + 1)) with (Z.to_nat i + 1)%nat by lia. by rewrite <- drop_drop, Hd.
Qed.

Lemma char_at_dropped fmt i : 0 <= i <= Z.of_nat (length fmt) → drop (Z.to_nat i) fmt = [] →
  char_at fmt i = Ok 0.
Proof.
  intros Hi Hd. apply (f_equal length) in Hd. rewrite length_drop in Hd. cbn in Hd.
  replace i with (Z.of_nat (length fmt)) by lia. apply char_at_end.
Qed.

Lemma read_option_u32 d c : is_u32 (width d) ∧ is_u32 (precision d) →
  is_u32 (width (read_option d c)) ∧ is_u32 (precision (read_option d c)).
Proof.
  intros [Hw Hp]. unfold read_option, directive_digit.
  repeat (match goal with |- context [if ?b then _ else _] => destruct b end; cbn [width precision];
    try (split; (assumption || apply u32_range))).
Qed.

Section rendering.
Context {S : Type} (putc : S → Z → outcome S).

Lemma option_step fmt i d args s c rest : 0 <= i → drop (Z.to_nat i) fmt = c :: rest → option_char c = true →
  directive_step putc fmt (i, d, args, s) = Ok (inl (i + 1, read_option d c, args, s)).
Proof.
  intros Hi Hd Hc. destruct (char_at_drop fmt i c rest Hi Hd) as [Ec _].
  unfold directive_step. rewrite Ec, bind_ok. unfold option_char in Hc. cbn [existsb] in Hc.
  rewrite !negb_orb, !andb_true_iff in Hc. destruct Hc as (H0 & H1 & H2 & H3 & H4 & H5 & H6 & _).
  rewrite negb_true_iff in *. rewrite H0, H1, H2, H3, H4, H5, H6. cbn [orb].
  unfold read_option. destruct (c =? 108); [done|]. by destruct (c =? 46).
Qed.

Lemma put_dec_digits d x s : is_u32 (width d) → is_u32 (precision d) →
  put_dec putc d x s = put_chars putc (number_text d 10 (map dec_char (digits 10 10 x))) s.
Proof.
  intros Hw Hp. rewrite put_dec_emit, emit_number; [done|lia|done|done|done|by rewrite fixed_digits_length|done].
Qed.

Lemma put_hex_digits d x s : is_u32 (width d) → is_u32 (precision d) →
  put_hex putc d x s = put_chars putc (number_text d (hex_columns d)
    (map (hex_char (upper d)) (digits 16 (hex_columns d) (x mod 16 ^ hex_columns d)))) s.
Proof.
  intros Hw Hp. assert (1 <= hex_columns d <= 16) as Hc by (unfold hex_columns; destruct (ells d =? 2); lia).
  rewrite put_hex_emit, emit_number; [done|lia|done|done|done| |].
  - rewrite fixed_digits_length. lia.
  - intros E. apply (f_equal length) in E. rewrite fixed_digits_length in E. cbn in E. lia.
Qed.

Lemma put_int_digits d x s : is_u32 (width d) → is_u32 (precision d) → x ≠ - 2 ^ 31 →
  put_int putc d x s = put_chars putc ((if x <? 0 then [45] else []) ++
    number_text d 10 (map dec_char (digits 10 10 (Z.abs x)))) s.
Proof.
  intros Hw Hp Hx. unfold put_int. destruct (Z.ltb_spec x 0).
  - destruct (Z.eqb_spec x (- 2 ^ 31)); [lia|]. rewrite Z.abs_neq by lia. cbn [app put_chars].
    destruct (putc s 45) as [s1| | |]; [|done..]. rewrite !bind_ok. by apply put_dec_digits.
  - rewrite Z.abs_eq by lia. by apply put_dec_digits.
Qed.

Lemma conversion_step fmt i d args s c rest text args' : 0 <= i → drop (Z.to_nat i) fmt = c :: rest →
  is_u32 (width d) → is_u32 (precision d) → converts d c args text args' →
  directive_step putc fmt (i, d, args, s) = (s' ← put_chars putc text s; Ok (inr (i, args', s'))).
Proof.
  intros Hi Hd Hw Hp Hc. destruct (char_at_drop fmt i c rest Hi Hd) as [Ec _].
  unfold directive_step. rewrite Ec, bind_ok. clear Ec Hd.
  destruct Hc as [c x args Hc|x args|x args Hx|str args Hs Hl|args|args]; cbn [Z.eqb Pos.eqb orb].
  - replace (c =? 0) with false by (symmetry; apply Z.eqb_neq; lia).
    replace ((c =? 120) || (c =? 88)) with true by (destruct Hc as [-> | ->]; done).
    cbv zeta iota.
    unfold va_u64, va_u32. change (ells (Directive _ _ _ _ (ells d) _)) with (ells d).
    destruct (ells d =? 2) eqn:El; rewrite bind_ok;
      rewrite put_hex_digits by done; unfold hex_columns; cbn [ells upper]; rewrite El.
    + unfold u64. change (2 ^ 64) with (16 ^ 16). by rewrite Z.mod_mod by done.
    + unfold u32. change (2 ^ 32) with (16 ^ 8). by rewrite Z.mod_mod by done.
  - unfold va_u32. rewrite bind_ok. by rewrite put_dec_digits.
  - unfold va_u32. rewrite bind_ok. by rewrite put_int_digits.
  - unfold va_str. rewrite bind_ok. by rewrite put_str_text.
  - unfold va_str. by rewrite bind_ok.
  - cbn [put_chars]. destruct (putc s 37); done.
Qed.

Lemma directive_rounds fmt opts c rest i d args s text args' n : 0 <= i →
  drop (Z.to_nat i) fmt = opts ++ c :: rest → forallb option_char opts = true →
  is_u32 (width d) ∧ is_u32 (precision d) → converts (foldl read_option d opts) c args text args' →
  (length opts < n)%nat →
  rounds n (directive_step putc fmt) (i, d, args, s) =
    (s' ← put_chars putc text s; Ok (inr (i + Z.of_nat (length opts), args', s'))).
Proof.
  revert i d n. induction opts as [|o opts IH]; intros i d n Hi Hd Ho Hu Hc Hn;
    (destruct n as [|n]; [lia|]); rewrite rounds_S; cbn [foldl app] in *.
  - destruct Hu. rewrite (conversion_step fmt i d args s c rest text args') by done.
    destruct (put_chars putc text s); [|done..]. cbn. by rewrite Z.add_0_r.
  - cbn [forallb] in Ho. apply andb_true_iff in Ho as [Ho1 Ho2].
    rewrite (option_step fmt i d args s o (opts ++ c :: rest)), bind_ok by done.
    destruct (char_at_drop fmt i o (opts ++ c :: rest) Hi Hd) as [_ Hd'].
    rewrite (IH (i + 1)) by (done || lia || (cbn [length] in Hn; lia) || by apply read_option_u32).
    cbn [length]. by replace (i + 1 + Z.of_nat (length opts)) with (i + Z.of_nat (Datatypes.S (length opts))) by lia.
Qed.

Lemma fresh_u32 : is_u32 (width fresh_directive) ∧ is_u32 (precision fresh_directive).
Proof. done. Qed.

(** The rounds of the outer loop over a part of the format that renders. *)
Lemma vprintf_rounds fmt0 fmt rest args text args' i s : Z.of_nat (length fmt0) < 2 ^ 64 →
  renders fmt args text args' → 0 <= i <= Z.of_nat (length fmt0) → drop (Z.to_nat i) fmt0 = fmt ++ rest →
  ∃ k, (k <= length fmt)%nat ∧ ∀ m,
    rounds (k + m) (vprintf_step putc fmt0) (i, args, s) =
      (s' ← put_chars putc text s;
       rounds m (vprintf_step putc fmt0) (i + Z.of_nat (length fmt), args', s')).
Proof.
  intros Hl Hr. revert i s.
  induction Hr as [args|c fmt args text args' Hc Hc' Hr IH|opts c fmt args t1 args1 t2 args2 Ho Hc Hr IH];
    intros i s Hi Hd; cbn [app] in Hd.
  - exists O. split; [done|]. intros m. cbn. by rewrite Z.add_0_r.
  - destruct (char_at_drop fmt0 i c (fmt ++ rest) ltac:(lia) Hd) as [Ec Hd'].
    apply (f_equal length) in Hd as Hlen. rewrite length_drop in Hlen. cbn [length] in *.
    assert (Hs : vprintf_step putc fmt0 (i, args, s) = (s1 ← putc s c; Ok (inl (i + 1, args, s1)))).
    { unfold vprintf_step. rewrite Ec, bind_ok. destruct (Z.eqb_spec c 0); [lia|].
      by destruct (Z.eqb_spec c 37); [lia|]. }
    destruct (putc s c) as [s1| | |] eqn:Ep.
    2-4: exists 1%nat; split; [lia|]; intros m; cbn [Nat.add]; rewrite rounds_S, Hs; cbn [put_chars];
      by rewrite Ep.
    destruct (IH (i + 1) s1 ltac:(lia) Hd') as (k & Hk & Hm). exists (Datatypes.S k). split; [lia|].
    intros m. cbn [Nat.add]. rewrite rounds_S, Hs. cbn [put_chars]. rewrite Ep, !bind_ok, Hm.
    by replace (i + 1 + Z.of_nat (length fmt)) with (i + Z.of_nat (Datatypes.S (length fmt))) by lia.
  - rewrite <- app_assoc in Hd. cbn [app] in Hd.
    destruct (char_at_drop fmt0 i 37 (opts ++ c :: fmt ++ rest) ltac:(lia) Hd) as [Ec Hd'].
    apply (f_equal length) in Hd as Hlen. rewrite length_drop in Hlen. cbn [length] in *.
    rewrite !length_app in *. cbn [length] in *. rewrite !length_app in *.
    assert (Hs : vprintf_step putc fmt0 (i, args, s) =
        (s1 ← put_chars putc t1 s; Ok (inl (i + 1 + Z.of_nat (length opts) + 1, args1, s1)))).
    { unfold vprintf_step. rewrite Ec, bind_ok. change (37 =? 0) with false. change (37 =? 37) with true.
      cbv iota. rewrite (while_rounds _ (Datatypes.S (length opts)) _
        (s' ← put_chars putc t1 s; Ok (i + 1 + Z.of_nat (length opts), args1, s'))).
      - by destruct (put_chars putc t1 s).
      - lia.
      - rewrite (directive_rounds fmt0 opts c (fmt ++ rest) (i + 1) fresh_directive args s t1 args1)
          by (done || lia || apply fresh_u32). by destruct (put_chars putc t1 s). }
    setoid_rewrite put_chars_app. destruct (put_chars putc t1 s) as [s1| | |] eqn:Ep.
    2-4: exists 1%nat; split; [lia|]; intros m; cbn [Nat.add]; by rewrite rounds_S, Hs.
    destruct (IH (i + 1 + Z.of_nat (length opts) + 1) s1) as (k & Hk & Hm); [lia| |].
    { replace (Z.to_nat (i + 1 + Z.of_nat (length opts) + 1))
        with (Z.to_nat (i + 1) + (length opts + 1))%nat by lia.
      by rewrite <- drop_drop, Hd', <- drop_drop, drop_app_length. }
    exists (Datatypes.S k). split; [lia|]. intros m. cbn [Nat.add]. rewrite rounds_S, Hs, !bind_ok, Hm.
    by replace (i + 1 + Z.of_nat (length opts) + 1 + Z.of_nat (length fmt))
      with (i + Z.of_nat (Datatypes.S (length opts + Datatypes.S (length fmt)))) by lia.
Qed.

Lemma vprintf_ok fmt args text args' s : Z.of_nat (length fmt) < 2 ^ 64 → renders fmt args text args' →
  vprintf putc fmt args s = (s' ← put_chars putc text s; Ok (args', s')).
Proof.
  intros Hl Hr.
  destruct (vprintf_rounds fmt fmt [] args text args' 0 s) as (k & Hk & Hm); [done|done|lia| |].
  { by rewrite app_nil_r. }
  apply (while_rounds _ (k + 1)); [lia|]. rewrite Hm. destruct (put_chars putc text s) as [s'| | |]; [|done..].
  rewrite !bind_ok, rounds_S. unfold vprintf_step at 2. by rewrite char_at_end.
Qed.

(** The inner loop on a directive that the end of the format cuts off. *)
Lemma directive_cut fmt opts i d args s n : 0 <= i <= Z.of_nat (length fmt) →
  drop (Z.to_nat i) fmt = opts → forallb option_char opts = true → (length opts < n)%nat →
  rounds n (directive_step putc fmt) (i, d, args, s) = Ok (inr (Z.of_nat (length fmt), args, s)).
Proof.
  revert i d n. induction opts as [|o opts IH]; intros i d n Hi Hd Ho Hn;
    (destruct n as [|n]; [lia|]); rewrite rounds_S;
    (apply (f_equal length) in Hd as Hlen); rewrite length_drop in Hlen; cbn [length] in *.
  - unfold directive_step at 2. rewrite char_at_dropped by done. cbn. repeat f_equal. lia.
  - cbn [forallb] in Ho. apply andb_true_iff in Ho as [Ho1 Ho2].
    destruct (char_at_drop fmt i o opts ltac:(lia) Hd) as [_ Hd'].
    rewrite (option_step fmt i d args s o opts), bind_ok by (done || lia). apply IH; done || lia.
Qed.

Lemma vprintf_cut fmt opts args text args' s :
  Z.of_nat (length (fmt ++ 37 :: opts)) < 2 ^ 64 → renders fmt args text args' →
  forallb option_char opts = true →
  vprintf putc (fmt ++ 37 :: opts) args s = (_ ← put_chars putc text s; Fault).
Proof.
  intros Hl Hr Ho. set (fmt0 := fmt ++ 37 :: opts) in *.
  destruct (vprintf_rounds fmt0 fmt (37 :: opts) args text args' 0 s) as (k & Hk & Hm); [done|done|lia|done|].
  assert (Hlen : length fmt0 = (length fmt + Datatypes.S (length opts))%nat)
    by (unfold fmt0; by rewrite length_app).
  apply (while_rounds _ (k + 2)); [lia|]. rewrite Hm. destruct (put_chars putc text s) as [s'| | |]; [|done..].
  rewrite !bind_ok, rounds_S. unfold vprintf_step at 2. rewrite Z.add_0_l.
  destruct (char_at_drop fmt0 (Z.of_nat (length fmt)) 37 opts ltac:(lia)) as [-> Hd].
  { unfold fmt0. by rewrite Nat2Z.id, drop_app_length. }
  rewrite bind_ok. change (37 =? 0) with false. change (37 =? 37) with true. cbv iota.
  rewrite (while_rounds _ (Datatypes.S (length opts)) _ (Ok (Z.of_nat (length fmt0), args', s'))) by
    (lia || (rewrite (directive_cut fmt0 opts) by (done || lia); done)).
  rewrite !bind_ok, rounds_S. unfold vprintf_step at 2. by rewrite char_at_past by lia.
Qed.
End rendering.

(** ** The console *)

(** The cursor is on the screen and only its bytes have been written. *)
Definition SCREEN_BYTES : Z := COLUMNS * LINES * 2.
Record screen_ok (s : screen) : Prop := ScreenOk {
  sc_x : 0 <= xpos s < COLUMNS;
  sc_y : 0 <= ypos s < LINES;
  sc_bytes : ∀ o b, frame_bytes s !! o = Some b → 0 <= o < SCREEN_BYTES ∧ is_u8 b
}.

Lemma newline_ok s : 0 <= ypos s < LINES →
  (∀ o b, frame_bytes s !! o = Some b → 0 <= o < SCREEN_BYTES ∧ is_u8 b) → screen_ok (newline s).
Proof.
  unfold LINES. intros Hy Hb. unfold newline. rewrite u16_id by ulia. split; cbn [xpos ypos frame_bytes].
  - unfold COLUMNS. lia.
  - unfold LINES. destruct (Z.leb_spec 24 (ypos s + 1)); lia.
  - exact Hb.
Qed.

Lemma putchar_ok s c : screen_ok s → wp (_putchar s c) (fun s' => screen_ok s' ∧ scr_lock s' = scr_lock s).
Proof.
  intros [Hx Hy Hb]. unfold _putchar. destruct ((c =? 10) || (c =? 13)).
  { split; [by apply newline_ok|done]. }
  cbv zeta. set (s1 := Screen _ _ _ _).
  assert (H1 : ∀ o b, frame_bytes s1 !! o = Some b → 0 <= o < SCREEN_BYTES ∧ is_u8 b).
  { intros o b. cbn [frame_bytes s1]. unfold SCREEN_BYTES, COLUMNS, LINES in *. rewrite !lookup_insert.
    case_decide as E1; [intros [= <-]; split; [lia|unfold ATTRIBUTE; ulia]|].
    case_decide as E2; [intros [= <-]; split; [lia|]|apply Hb].
    change 0xFF with (Z.ones 8). rewrite Z.land_ones by lia. apply Z.mod_pos_bound. lia. }
  assert (Ex : xpos s1 = xpos s + 1) by (cbn; rewrite u16_id; [done|unfold COLUMNS in *; ulia]).
  cbn [wp wpx]. change (wp (Ok (if COLUMNS <=? xpos s1 then newline s1 else s1))
    (fun s' => screen_ok s' ∧ scr_lock s' = scr_lock s)). rewrite Ex.
  destruct (Z.leb_spec COLUMNS (xpos s + 1)); (split; [|done]).
  - by apply newline_ok.
  - split; [rewrite Ex; unfold COLUMNS in *; lia|exact Hy|exact H1].
Qed.

Lemma with_lock_ok s l : screen_ok s → screen_ok (with_scr_lock s l).
Proof. intros [Hx Hy Hb]. by split. Qed.

(** What a line of text leaves on the screen. *)
Record displayed (s s' : screen) (text : list Z) : Prop := Displayed {
  dis_chars : ∀ j c, text !! j = Some c →
    frame_bytes s' !! ((xpos s + Z.of_nat j + ypos s * COLUMNS) * 2) = Some (c mod 256) ∧
    frame_bytes s' !! ((xpos s + Z.of_nat j + ypos s * COLUMNS) * 2 + 1) = Some ATTRIBUTE;
  dis_rest : ∀ o, ¬ ((xpos s + ypos s * COLUMNS) * 2 <= o < (xpos s + Z.of_nat (length text) + ypos s * COLUMNS) * 2) →
    frame_bytes s' !! o = frame_bytes s !! o;
  dis_cursor : xpos s' = xpos s + Z.of_nat (length text) ∧ ypos s' = ypos s
}.

(** A line that fits before the last column. *)
Definition one_line (s : screen) (text : list Z) : Prop :=
  xpos s + Z.of_nat (length text) < COLUMNS ∧ Forall (fun c => c ≠ 10 ∧ c ≠ 13) text.

Lemma putchar_plain s c : screen_ok s → c ≠ 10 → c ≠ 13 → xpos s + 1 < COLUMNS →
  ∃ s1, _putchar s c = Ok s1 ∧ screen_ok s1 ∧ displayed s s1 [c].
Proof.
  intros Hs H10 H13 Hx. destruct (proj1 (wp_ok _ _) (putchar_ok s c Hs)) as (s1 & E & H1 & _).
  exists s1. split; [done|]. split; [done|]. destruct Hs as [Hx0 Hy Hb].
  unfold _putchar in E. destruct (Z.eqb_spec c 10); [done|]. destruct (Z.eqb_spec c 13); [done|].
  cbn [orb] in E. cbv zeta in E. cbn [xpos] in E. rewrite u16_id in E by (unfold COLUMNS in *; ulia).
  destruct (Z.leb_spec COLUMNS (xpos s + 1)); [lia|]. injection E as <-.
  split; cbn [frame_bytes xpos ypos length].
  - intros [|j] c' Hc; [|done]. injection Hc as <-. rewrite Z.add_0_r. change 0xFF with (Z.ones 8).
    rewrite Z.land_ones by lia. rewrite lookup_insert_ne by lia. by rewrite !lookup_insert_eq.
  - intros o Ho. rewrite !lookup_insert_ne by lia. done.
  - lia.
Qed.

Lemma put_line text s : screen_ok s → one_line s text →
  ∃ s', put_chars _putchar text s = Ok s' ∧ screen_ok s' ∧ displayed s s' text.
Proof.
  revert s. induction text as [|c text IH]; intros s Hs [Hx Ht]; cbn [put_chars].
  - exists s. split; [done|]. split; [done|]. split; [done|done|cbn; lia].
  - apply Forall_cons in Ht as [[H10 H13] Ht]. cbn [length] in Hx.
    destruct (putchar_plain s c Hs H10 H13 ltac:(lia)) as (s1 & -> & H1 & [Dc Dr [Dx Dy]]).
    cbn [length] in *. rewrite bind_ok.
    destruct (IH s1 H1) as (s' & E & H' & [Tc Tr [Tx Ty]]); [split; [lia|done]|].
    exists s'. split; [done|]. split; [done|]. rewrite Dx, Dy in *. split; cbn [length].
    + intros [|j] c' Hc.
      * rewrite !Tr by lia. by apply (Dc 0%nat).
      * specialize (Tc j c' Hc). replace (xpos s + Z.of_nat (Datatypes.S j))
          with (xpos s + Z.of_nat 1 + Z.of_nat j) by lia. exact Tc.
    + intros o Ho. rewrite Tr by lia. apply Dr. lia.
    + lia.
Qed.

Lemma putchar_total s c (I : screen → Prop) :
  (∀ s', screen_ok s' ∧ scr_lock s' = scr_lock s → I s') → screen_ok s → wp (_putchar s c) I.
Proof. intros HI Hs. apply (wp_mono _ _ _ (putchar_ok s c Hs)). exact HI. Qed.

Lemma printf_any s fmt args : screen_ok s → lock_free (scr_lock s) →
  wlp (printf s fmt args) (fun s' => screen_ok s' ∧ lock_free (scr_lock s')).
Proof.
  intros Hs Hl. unfold printf. rewrite spin_lock_free, bind_ok by done. apply wlp_bind.
  set (l := Spinlock _ _). eapply wlp_mono.
  - apply (vprintf_keeps _putchar (fun s' => screen_ok s' ∧ scr_lock s' = l)).
    + intros s1 c [H1 <-]. apply wp_wlp. by apply putchar_total.
    + split; [by apply with_lock_ok|done].
  - intros [a s1] [H1 E]. apply wlp_ret. split; [by apply with_lock_ok|]. cbn. rewrite E.
    by apply lock_cycle_free.
Qed.

Lemma printf_renders s fmt args text args' : screen_ok s → lock_free (scr_lock s) →
  Z.of_nat (length fmt) < 2 ^ 64 → renders fmt args text args' →
  ∃ s', printf s fmt args = Ok s' ∧ screen_ok s' ∧ lock_free (scr_lock s') ∧
    (one_line s text → displayed s s' text).
Proof.
  intros Hs Hl Hlen Hr. unfold printf. rewrite spin_lock_free, bind_ok by done.
  set (l := Spinlock _ _). rewrite (vprintf_ok _putchar fmt args text args') by done.
  assert (H0 : screen_ok (with_scr_lock s l)) by by apply with_lock_ok.
  destruct (proj1 (wp_ok _ _) (put_chars_wp _putchar text (with_scr_lock s l)
    (fun s' => screen_ok s' ∧ scr_lock s' = l) ltac:(intros s1 c [H1 <-]; by apply putchar_total)
    (conj H0 eq_refl))) as (s1 & E & H1 & El).
  rewrite E, !bind_ok. exists (with_scr_lock s1 (spin_unlock (scr_lock s1))).
  split; [done|]. split; [by apply with_lock_ok|]. split; [cbn; rewrite El; by apply lock_cycle_free|].
  intros Hone. destruct (put_line text (with_scr_lock s l) H0 Hone) as (s2 & E2 & _ & [Dc Dr Dx]).
  rewrite E in E2. injection E2 as <-. by split.
Qed.

Lemma screen_init_ok : screen_ok screen_init.
Proof. split; [done|done|]. intros o b E. discriminate E. Qed.

(** ** Properties *)

(** ["n=%4u %08llX %s"] *)
Definition sample_format : list Z :=
  [110; 61; 37; 52; 117; 32; 37; 48; 56; 108; 108; 88; 32; 37; 115].
Definition sample_args : list arg := [ANum 42; ANum 0xBEEF; AStr (Some [111; 107])].
(** ["n=  42 0000BEEF ok"] *)
Definition sample_text : list Z :=
  [110; 61; 32; 32; 52; 50; 32; 48; 48; 48; 48; 66; 69; 69; 70; 32; 111; 107].

Lemma sample_renders : renders sample_format sample_args sample_text [].
Proof.
  apply renders_char; [lia|lia|]. apply renders_char; [lia|lia|].
  apply (renders_directive [52] 117 _ _ [32; 32; 52; 50] [ANum 0xBEEF; AStr (Some [111; 107])]); [done| |].
  { pose proof (converts_unsigned (foldl read_option fresh_directive [52]) 42
      [ANum 0xBEEF; AStr (Some [111; 107])]) as H. vm_compute in H |- *. exact H. }
  apply renders_char; [lia|lia|].
  apply (renders_directive [48; 56; 108; 108] 88 _ _ [48; 48; 48; 48; 66; 69; 69; 70] [AStr (Some [111; 107])]);
    [done| |].
  { pose proof (converts_hex (foldl read_option fresh_directive [48; 56; 108; 108]) 88 0xBEEF
      [AStr (Some [111; 107])] (or_intror eq_refl)) as H. vm_compute in H |- *. exact H. }
  apply renders_char; [lia|lia|].
  apply (renders_directive [] 115 _ _ [111; 107] [] []); [done| |apply renders_end].
  apply (converts_string (foldl read_option fresh_directive []) [111; 107] []); [|done].
  by apply c_string_dec.
Qed.

(** The number directives print the number. [%u] and [%X] hand out the
    usual numeral of the argument: its digits have that value, each is below
    the base, and the first is not 0 unless it is the only one; [%d] puts the
    sign first. The numeral is filled with zeros up to the precision and with
    the padding character up to the width ([number_text]); a width or precision
    above the 10, 8 or 16 columns of the code counts as none. *)
Theorem number_directives_spec {S : Type} (putc : S → Z → outcome S) d s :
  is_u32 (width d) → is_u32 (precision d) →
  (∀ x, is_u32 x → ∃ ds, numeral 10 x ds ∧
     put_dec putc d x s = put_chars putc (number_text d 10 (map dec_char ds)) s) ∧
  (∀ x, - 2 ^ 31 < x < 2 ^ 31 → ∃ ds, numeral 10 (Z.abs x) ds ∧
     put_int putc d x s =
       put_chars putc ((if x <? 0 then [45] else []) ++ number_text d 10 (map dec_char ds)) s) ∧
  (∀ x, 0 <= x < 16 ^ hex_columns d → ∃ ds, numeral 16 x ds ∧
     put_hex putc d x s =
       put_chars putc (number_text d (hex_columns d) (map (hex_char (upper d)) ds)) s).
Proof.
  intros Hw Hp. split; [|split]; intros x Hx.
  - by apply put_dec_text.
  - by apply put_int_text.
  - by apply put_hex_text.
Qed.

Lemma number_directives_spec_witness :
  (∃ ds, numeral 10 1234 ds ∧
     put_dec (fun s c => Ok (s ++ [c])) (Directive 0 6 true 48 0 false) 1234 [] =
       put_chars (fun s c => Ok (s ++ [c]))
         (number_text (Directive 0 6 true 48 0 false) 10 (map dec_char ds)) []) ∧
  put_dec (fun s c => Ok (s ++ [c])) (Directive 0 6 true 48 0 false) 1234 [] =
    Ok [48; 48; 49; 50; 51; 52].
Proof.
  split; [|vm_compute; reflexivity].
  destruct (number_directives_spec (fun s c => Ok (s ++ [c])) (Directive 0 6 true 48 0 false) [])
    as [Hd _]; [split; reflexivity || discriminate|split; reflexivity || discriminate|].
  apply (Hd 1234). split; [discriminate|reflexivity].
Defined.

(** C33: Console output stays on the console. Whatever the format and the
    arguments, [printf] that returns has moved the cursor only inside the 80x24
    screen, written only the 3840 bytes of the frame buffer and released its
    lock. When the format renders to a text it does return; a text of one line
    then appears at the cursor, character by character with its attribute, and
    nothing else on the screen changes. *)
Theorem printf_spec s : screen_ok s → lock_free (scr_lock s) →
  (∀ fmt args, wlp (printf s fmt args) (fun s' => screen_ok s' ∧ lock_free (scr_lock s'))) ∧
  (∀ fmt args text rest, Z.of_nat (length fmt) < 2 ^ 64 → renders fmt args text rest →
    ∃ s', printf s fmt args = Ok s' ∧ screen_ok s' ∧ lock_free (scr_lock s') ∧
      (one_line s text → displayed s s' text)).
Proof.
  intros Hs Hl. split; intros.
  - by apply printf_any.
  - by eapply printf_renders.
Qed.

Lemma printf_spec_witness :
  ∃ s', printf screen_init sample_format sample_args = Ok s' ∧ screen_ok s' ∧
    lock_free (scr_lock s') ∧ (one_line screen_init sample_text → displayed screen_init s' sample_text).
Proof.
  destruct (printf_spec screen_init screen_init_ok lock_free_unlocked) as [_ H].
  apply (H sample_format sample_args sample_text []); [reflexivity|exact sample_renders].
Defined.

(** A format that ends inside a directive makes the formatter read past
    the end of the string: after the text before the directive, [vprintf]
    steps over the terminating NUL and reads on, for every output function
    that returns. *)
Theorem vprintf_cut_directive {S : Type} (putc : S → Z → outcome S) fmt opts args text rest s :
  Z.of_nat (length (fmt ++ 37 :: opts)) < 2 ^ 64 → renders fmt args text rest →
  forallb option_char opts = true →
  vprintf putc (fmt ++ 37 :: opts) args s = (_ ← put_chars putc text s; Fault).
Proof. intros Hl Hr Ho. by apply (vprintf_cut putc fmt opts args text rest). Qed.

(** ["100%"] *)
Lemma vprintf_cut_directive_witness :
  vprintf (fun s c => Ok (s ++ [c])) [49; 48; 48; 37] [] [] = Fault.
Proof.
  rewrite (vprintf_cut_directive (fun s c => Ok (s ++ [c])) [49; 48; 48] [] [] [49; 48; 48] []);
    [reflexivity|reflexivity| |reflexivity].
  repeat (apply renders_char; [lia|lia|]). apply renders_end.
Defined.

(** [strlen] returns the length of the string, and [strncmp] is 0 exactly
    when the first [n] characters of the two strings, their NUL included, are
    equal; both return on every C string. *)
Theorem string_functions_spec s1 s2 n :
  c_string s1 → c_string s2 → Z.of_nat (length s1) < 2 ^ 64 → is_u64 n →
  strlen s1 = Ok (Z.of_nat (length s1)) ∧
  ∃ r, strncmp s1 s2 n = Ok r ∧ (r = 0 ↔ prefix_z s1 n = prefix_z s2 n).
Proof.
  intros H1 H2 Hl Hn. split; [by apply strlen_ok|].
  apply (proj1 (wp_ok _ _) (strncmp_ok s1 s2 n H1 H2 Hn)).
Qed.

(** ["RSD PTR "] and ["RSDT"] *)
Lemma string_functions_spec_witness :
  strlen [82; 83; 68] = Ok 3 ∧
  ∃ r, strncmp [82; 83; 68] [82; 83; 68; 84] 3 = Ok r ∧
    (r = 0 ↔ prefix_z [82; 83; 68] 3 = prefix_z [82; 83; 68; 84] 3).
Proof.
  apply (string_functions_spec [82; 83; 68] [82; 83; 68; 84] 3);
    [apply c_string_dec; reflexivity..|reflexivity|split; [discriminate|reflexivity]].
Defined.
