(* ===== verification/Format.v ===== *)
(** * Formats

    What the formats of [printf] mean, after the C standard, and that the
    formatter of [utils/screen.c] prints it. A format is a list of pieces,
    ordinary characters and directives; [spell] writes it as a C string and
    [says] gives the text it stands for. Neither mentions a definition of the
    formatter: how a directive is read, how a number is split into digits and
    how a field is filled are stated anew. *)

From S2P Require Import Prelude Spinlock Screen.

Local Open Scope Z_scope.
Local Open Scope c_scope.

(** ** Pieces *)











(** ** Meaning *)





(** ** Numerals *)










(** ** Reading a directive *)













(** ** The formatter prints what a format says *)







(** ** Properties *)




Tactic Notation "numeral_of" constr(ds) constr(q) :=
  split; [reflexivity|repeat (apply Forall_cons; split; [lia|]); by apply Forall_nil
         |right; exists q, ds; split; [reflexivity|lia]].



(** What the formatter prints where it leaves the standard: a width above the
    ten columns of a decimal number does not fill the field, and the blanks of
    a field stand between the sign and the digits. *)
Theorem fields_outside_the_standard :
  vprintf (fun s c => Ok (s ++ [c])) (chars "%12u") [ANum 42] [] = Ok ([], chars "42") ∧
  vprintf (fun s c => Ok (s ++ [c])) (chars "%5d") [ANum (-42)] [] = Ok ([], chars "-   42").
Proof. split; vm_compute; reflexivity. Qed.
