(* ===== verification/Render.v ===== *)
(** * Formats by evaluation

    [render] computes the text a format prints, so that the text of a format of the
    source is found by evaluation; [prints] is what a text does to the screen,
    one [printf] after the other. *)

From S2P Require Import Prelude Spinlock Screen.

Local Open Scope Z_scope.
Local Open Scope c_scope.

(** ** The text of a format *)

(** The text of one directive, and the arguments left. *)
Definition convert (d : directive) (c : Z) (args : list arg) : option (list Z * list arg) :=
  if (c =? 120) || (c =? 88) then
    match args with
    | ANum x :: args => Some (number_text d (hex_columns d)
        (map (hex_char (upper d && negb (c =? 120))) (digits 16 (hex_columns d) (x mod 16 ^ hex_columns d))), args)
    | _ => None
    end
  else if c =? 117 then
    match args with ANum x :: args => Some (number_text d 10 (map dec_char (digits 10 10 (u32 x))), args) | _ => None end
  else if c =? 115 then
    match args with
    | AStr (Some str) :: args => Some (if 0 <? precision d then take (Z.to_nat (precision d)) str else str, args)
    | AStr None :: args => Some (null_chars, args)
    | _ => None
    end
  else if c =? 37 then Some ([37], args)
  else None.

(** Outside a directive, or in one with the options read so far. *)
Fixpoint render (mode : option directive) (fmt : list Z) (args : list arg) : option (list Z * list arg) :=
  match fmt, mode with
  | [], None => Some ([], args)
  | [], Some _ => None
  | c :: fmt, None =>
      if c =? 37 then render (Some fresh_directive) fmt args
      else if 0 <? c then '(text, args) ← render None fmt args; Some (c :: text, args) else None
  | c :: fmt, Some d =>
      if option_char c then render (Some (read_option d c)) fmt args
      else '(t1, args) ← convert d c args; '(t2, args) ← render None fmt args; Some (t1 ++ t2, args)
  end%stdpp.

(** Every string among the arguments is one of C. *)
Definition arg_ok (a : arg) : Prop :=
  match a with AStr (Some str) => c_string str ∧ Z.of_nat (length str) < 2 ^ 64 | _ => True end.

Lemma convert_sound d c args text rest : Forall arg_ok args → convert d c args = Some (text, rest) →
  converts d c args text rest ∧ Forall arg_ok rest.
Proof.
  intros Ha. unfold convert.
  destruct ((c =? 120) || (c =? 88)) eqn:Ehex.
  { destruct args as [|[x|str] args]; try done. intros [= <- <-]. apply Forall_cons in Ha as [_ Ha]. split; [|done].
    apply converts_hex. by apply orb_true_iff in Ehex as [?%Z.eqb_eq|?%Z.eqb_eq]; [left|right]. }
  destruct (Z.eqb_spec c 117) as [->|_].
  { destruct args as [|[x|str] args]; try done. intros [= <- <-]. apply Forall_cons in Ha as [_ Ha]. split; [constructor|done]. }
  destruct (Z.eqb_spec c 115) as [->|_].
  { destruct args as [|[x|[str|]] args]; try done; intros [= <- <-]; apply Forall_cons in Ha as [Hs Ha]; (split; [|done]).
    - destruct Hs. by constructor.
    - constructor. }
  destruct (Z.eqb_spec c 37) as [->|_]; [|done]. intros [= <- <-]. split; [constructor|done].
Qed.

Lemma render_sound mode fmt args text rest : Forall arg_ok args → render mode fmt args = Some (text, rest) →
  match mode with
  | None => renders fmt args text rest
  | Some d => ∃ opts c fmt' t1 args1 t2, fmt = opts ++ c :: fmt' ∧ forallb option_char opts = true ∧
      converts (foldl read_option d opts) c args t1 args1 ∧ renders fmt' args1 t2 rest ∧ text = t1 ++ t2
  end.
Proof.
  revert mode args text rest. induction fmt as [|c fmt IH]; intros mode args text rest Ha; cbn [render].
  { destruct mode; [done|]. intros [= <- <-]. constructor. }
  destruct mode as [d|].
  - destruct (option_char c) eqn:Ec.
    + intros E. destruct (IH _ _ _ _ Ha E) as (opts & c' & fmt' & t1 & args1 & t2 & -> & Ho & Hc & Hr & ->).
      exists (c :: opts), c', fmt', t1, args1, t2. split; [done|]. split; [by cbn; rewrite Ec|]. done.
    + destruct (convert d c args) as [[t1 args1]|] eqn:E1; [|done]. cbn.
      destruct (render None fmt args1) as [[t2 args2]|] eqn:E2; [|done]. cbn. intros [= <- <-].
      destruct (convert_sound _ _ _ _ _ Ha E1) as [Hc Ha1]. exists [], c, fmt, t1, args1, t2.
      split; [done|]. split; [done|]. split; [exact Hc|]. split; [exact (IH None _ _ _ Ha1 E2)|done].
  - destruct (Z.eqb_spec c 37) as [->|Hne].
    + intros E. destruct (IH _ _ _ _ Ha E) as (opts & c' & fmt' & t1 & args1 & t2 & -> & Ho & Hc & Hr & ->).
      by apply (renders_directive opts c' fmt' args t1 args1 t2 rest).
    + destruct (Z.ltb_spec 0 c); [|done]. destruct (render None fmt args) as [[t2 args2]|] eqn:E2; [|done].
      cbn. intros [= <- <-]. apply renders_char; [done|done|]. exact (IH None _ _ _ Ha E2).
Qed.

(** ** What a text does to the screen *)

Lemma putchar_lock s l c : _putchar (with_scr_lock s l) c = (s' ← _putchar s c; Ok (with_scr_lock s' l)).
Proof.
  unfold _putchar. destruct ((c =? 10) || (c =? 13)); [done|]. cbv zeta. cbn [xpos ypos with_scr_lock].
  by destruct (COLUMNS <=? u16 (xpos s + 1)).
Qed.
Lemma put_chars_lock text s l : put_chars _putchar text (with_scr_lock s l) = (s' ← put_chars _putchar text s; Ok (with_scr_lock s' l)).
Proof.
  revert s. induction text as [|c text IH]; intros s; cbn [put_chars]; [done|]. rewrite putchar_lock.
  destruct (_putchar s c) as [s1| | |]; [|done..]. rewrite !bind_ok. apply IH.
Qed.

(** The screen is in order and nobody holds its lock. *)
Definition console_ok (s : screen) : Prop := screen_ok s ∧ lock_free (scr_lock s).
(** The characters of [text] went to the screen, in order. *)
Definition prints (s : screen) (text : list Z) (s' : screen) : Prop :=
  console_ok s' ∧ ∃ s1, put_chars _putchar text s = Ok s1 ∧ s' = with_scr_lock s1 (scr_lock s').

Lemma prints_app s t1 s1 t2 s2 : prints s t1 s1 → prints s1 t2 s2 → prints s (t1 ++ t2) s2.
Proof.
  intros [_ (u1 & E1 & Eu1)] [H2 (u2 & E2 & Eu2)]. split; [exact H2|]. rewrite Eu1 in E2. rewrite put_chars_lock in E2.
  rewrite put_chars_app, E1, bind_ok. destruct (put_chars _putchar t2 u1) as [u| | |]; [|discriminate E2..].
  exists u. split; [done|]. rewrite bind_ok in E2. injection E2 as <-. rewrite Eu2 at 1. done.
Qed.

(** The text stands on the line of the cursor, and a newline after it moves the cursor down. *)
Lemma prints_line s text s' : screen_ok s → one_line s text → prints s text s' → displayed s s' text.
Proof.
  intros Hs Ho [_ (s1 & E & ->)]. destruct (put_line text s Hs Ho) as (s2 & E2 & _ & [Dc Dr Dx]).
  rewrite E in E2. injection E2 as <-. by split.
Qed.

Lemma printf_prints s fmt args text rest : console_ok s → Z.of_nat (length fmt) < 2 ^ 64 → Forall arg_ok args →
  render None fmt args = Some (text, rest) → ∃ s', printf s fmt args = Ok s' ∧ prints s text s'.
Proof.
  intros [Hs Hl] Hlen Ha Hr. apply (render_sound None) in Hr; [|done].
  destruct (printf_renders s fmt args text rest Hs Hl Hlen Hr) as (s' & E & Hs' & Hl' & _). exists s'. split; [exact E|].
  split; [by split|]. unfold printf in E. rewrite (spin_lock_free _ Hl), bind_ok in E.
  rewrite (vprintf_ok _putchar fmt args text rest _ Hlen Hr), put_chars_lock in E.
  destruct (put_chars _putchar text s) as [s1| | |]; [|discriminate E..]. exists s1. split; [done|].
  rewrite !bind_ok in E. injection E as <-. done.
Qed.

(** A CPU that already has the lock waits for itself. *)
Lemma printf_locked s fmt args : owner (scr_lock s) ≠ next (scr_lock s) → printf s fmt args = Hang.
Proof. intros H. unfold printf. by rewrite spin_lock_taken. Qed.

Tactic Notation "by_printf" uconstr(text) "as" simple_intropattern(p) :=
  match goal with |- context [printf ?s ?fmt ?args] =>
    let H := fresh in
    assert (H : ∃ s', printf s fmt args = Ok s' ∧ prints s text s')
      by (apply (printf_prints s fmt args text []); [assumption|reflexivity|repeat constructor; assumption|reflexivity]);
    destruct H as p
  end.
