(* ===== verification/CList.v ===== *)
(** * Memory cells and circular doubly linked lists

    Models [include/utils/list.h] over a store of 64-bit words: a [struct
    list_head] at address [p] is the word at [p] ([next]) and the word at
    [p + 8] ([prev]). Bytes are read and written inside the words, so a byte
    and a pointer at the same place are the same memory. *)

From S2P Require Import Prelude.

Local Open Scope Z_scope.
Local Open Scope c_scope.

(** ** The store *)

(** The words written so far (zero elsewhere) and the address ranges [[lo, hi)]
    that may be accessed. *)
Record store := Store {
  st_words : gmap Z Z;
  st_regions : list (Z * Z)
}.

Definition in_region (a : Z) (r : Z * Z) : bool := (r.1 <=? a) && (a + 8 <=? r.2).
Definition valid (s : store) (a : Z) : bool :=
  (a mod 8 =? 0) && existsb (in_region a) (st_regions s).

Definition word (s : store) (a : Z) : Z := default 0 (st_words s !! a).
Definition upd (s : store) (a v : Z) : store := Store (<[a := v]> (st_words s)) (st_regions s).

Definition ld (s : store) (a : Z) : outcome Z := if valid s a then Ok (word s a) else Fault.
Definition st (s : store) (a v : Z) : outcome store := if valid s a then Ok (upd s a v) else Fault.

(** The byte at [a] of the little-endian word that holds it. *)
Definition word_at (a : Z) : Z := a - a mod 8.
Definition byte_of (w k : Z) : Z := Z.land (Z.shiftr w (8 * k)) 0xFF.
Definition put_byte (w k v : Z) : Z :=
  Z.lor (Z.ldiff w (Z.shiftl 0xFF (8 * k))) (Z.shiftl (Z.land v 0xFF) (8 * k)).

Definition byte (s : store) (a : Z) : Z := byte_of (word s (word_at a)) (a mod 8).
Definition upd8 (s : store) (a v : Z) : store :=
  upd s (word_at a) (put_byte (word s (word_at a)) (a mod 8) v).
Definition ld8 (s : store) (a : Z) : outcome Z := if valid s (word_at a) then Ok (byte s a) else Fault.
Definition st8 (s : store) (a v : Z) : outcome store :=
  if valid s (word_at a) then Ok (upd8 s a v) else Fault.

(** ** The operations *)

Definition INIT_LIST_HEAD (s : store) (list : Z) : outcome store :=
  s ← st s list list;
  st s (list +w 8) list.

Definition __list_del_entry (s : store) (prev next : Z) : outcome store :=
  s ← st s (next +w 8) prev;
  st s prev next.

Definition list_del (s : store) (entry : Z) : outcome store :=
  prev ← ld s (entry +w 8);
  next ← ld s entry;
  __list_del_entry s prev next.

Definition __list_add (s : store) (new prev next : Z) : outcome store :=
  s ← st s (next +w 8) new;
  s ← st s new next;
  s ← st s (new +w 8) prev;
  st s prev new.

Definition list_add (s : store) (new head : Z) : outcome store :=
  next ← ld s head;
  __list_add s new head next.

Definition list_add_tail (s : store) (new head : Z) : outcome store :=
  prev ← ld s (head +w 8);
  __list_add s new prev head.

(** [list_first_entry], [list_next_entry]: the list head is the first member of
    the structures it is embedded in. *)
Definition list_first_entry (s : store) (ptr : Z) : outcome Z := ld s ptr.
Definition list_next_entry (s : store) (pos : Z) : outcome Z := ld s pos.

Definition list_empty (s : store) (head : Z) : outcome bool :=
  next ← ld s head; Ok (next =? head).

(** [list_for_each_entry] with a body that does not leave the loop. *)
Definition for_each_step {B} (s : store) (head : Z) (body : Z → B → outcome B) (st : Z * B) :
    outcome ((Z * B) + B) :=
  let '(pos, b) := st in
  if pos =? head then Ok (inr b)
  else
    b ← body pos b;
    pos ← list_next_entry s pos;
    Ok (inl (pos, b)).

Definition list_for_each_entry {B} (s : store) (head : Z) (body : Z → B → outcome B) (b : B) : outcome B :=
  pos ← list_first_entry s head;
  while (for_each_step s head body) (pos, b).

(** ** Facts on the store *)

Lemma word_upd s a v b : word (upd s a v) b = if a =? b then v else word s b.
Proof.
  unfold word, upd. cbn. rewrite lookup_insert. destruct (Z.eqb_spec a b), (decide (a = b)); done.
Qed.
Lemma word_upd_eq s a v : word (upd s a v) a = v.
Proof. by rewrite word_upd, Z.eqb_refl. Qed.
Lemma word_upd_ne s a v b : a ≠ b → word (upd s a v) b = word s b.
Proof. intros Hne. rewrite word_upd. by destruct (Z.eqb_spec a b). Qed.
Lemma valid_upd s a v b : valid (upd s a v) b = valid s b.
Proof. reflexivity. Qed.

Lemma ld_ok s a : valid s a = true → ld s a = Ok (word s a).
Proof. intros Hv. unfold ld. by rewrite Hv. Qed.
Lemma st_ok s a v : valid s a = true → st s a v = Ok (upd s a v).
Proof. intros Hv. unfold st. by rewrite Hv. Qed.
Lemma ld8_ok s a : valid s (word_at a) = true → ld8 s a = Ok (byte s a).
Proof. intros Hv. unfold ld8. by rewrite Hv. Qed.
Lemma st8_ok s a v : valid s (word_at a) = true → st8 s a v = Ok (upd8 s a v).
Proof. intros Hv. unfold st8. by rewrite Hv. Qed.

Lemma byte_of_put w k v : 0 <= k → byte_of (put_byte w k v) k = v mod 256.
Proof.
  intros Hk. change 256 with (2 ^ 8). rewrite <- Z.land_ones by lia.
  unfold byte_of, put_byte. change 0xFF with (Z.ones 8). apply Z.bits_inj'. intros n Hn.
  rewrite Z.land_spec, Z.shiftr_spec, Z.lor_spec, Z.ldiff_spec, !Z.shiftl_spec by lia.
  replace (n + 8 * k - 8 * k) with n by lia. rewrite !Z.land_spec.
  destruct (Z.testbit (Z.ones 8) n), (Z.testbit v n), (Z.testbit w (n + 8 * k)); done.
Qed.

Lemma byte_of_put_ne w k v j : 0 <= k → 0 <= j → k ≠ j → byte_of (put_byte w k v) j = byte_of w j.
Proof.
  intros Hk Hj Hne. unfold byte_of, put_byte. change 0xFF with (Z.ones 8).
  apply Z.bits_inj'. intros n Hn.
  rewrite !Z.land_spec, !Z.shiftr_spec, Z.lor_spec, Z.ldiff_spec, !Z.shiftl_spec by lia.
  destruct (Z.lt_ge_cases n 8); [|rewrite (Z.ones_spec_high 8 n) by lia; by rewrite !andb_false_r].
  rewrite (Z.ones_spec_low 8 n), !andb_true_r by lia.
  assert (Z.testbit (Z.ones 8) (n + 8 * j - 8 * k) = false) as E.
  { destruct (Z.lt_ge_cases (n + 8 * j - 8 * k) 0); [by apply Z.testbit_neg_r|].
    apply Z.ones_spec_high. lia. }
  rewrite Z.land_spec, E, andb_false_r, orb_false_r. by rewrite andb_true_r.
Qed.

Lemma word_at_eq a : a mod 8 = 0 → word_at a = a.
Proof. intros H. unfold word_at. lia. Qed.

Lemma byte_upd8 s a v b : byte (upd8 s a v) b = if a =? b then v mod 256 else byte s b.
Proof.
  unfold byte, upd8. rewrite word_upd.
  pose proof (Z.mod_pos_bound a 8 ltac:(lia)). pose proof (Z.mod_pos_bound b 8 ltac:(lia)).
  destruct (Z.eqb_spec (word_at a) (word_at b)) as [E|Hne].
  - destruct (Z.eqb_spec a b) as [<-|Hab]; [by apply byte_of_put; lia|].
    rewrite <- E. apply byte_of_put_ne; try lia. intros Hm. apply Hab. unfold word_at in E. lia.
  - by destruct (Z.eqb_spec a b) as [->|].
Qed.

Lemma byte_upd s a v b : a mod 8 = 0 → ¬ (a <= b < a + 8) → byte (upd s a v) b = byte s b.
Proof.
  intros Ha Hb. unfold byte. rewrite word_upd_ne; [done|]. unfold word_at.
  pose proof (Z.mod_pos_bound b 8). lia.
Qed.

Lemma word_upd8 s a v b : word_at a ≠ b → word (upd8 s a v) b = word s b.
Proof. apply word_upd_ne. Qed.

Lemma byte_same s s' a : word s' (word_at a) = word s (word_at a) → byte s' a = byte s a.
Proof. intros E. unfold byte. by rewrite E. Qed.

(** ** Representation *)

Definition nxt (s : store) (p : Z) : Z := word s p.
Definition prv (s : store) (p : Z) : Z := word s (p + 8).

(** The elements after [x], linked one to the next. *)
Fixpoint seg (s : store) (x : Z) (l : list Z) : Prop :=
  match l with
  | [] => True
  | z :: l => nxt s x = z ∧ prv s z = x ∧ seg s z l
  end.

(** The circular list at [h] holds [l]. *)
Definition dlist (s : store) (h : Z) (l : list Z) : Prop :=
  seg s h l ∧ nxt s (List.last l h) = h ∧ prv s h = List.last l h.

(** Nodes: their two words may be accessed, and do not overlap. *)
Definition node (s : store) (p : Z) : Prop :=
  valid s p = true ∧ valid s (p + 8) = true ∧ 0 <= p ∧ p + 16 <= 2 ^ 64.
Definition apart (p q : Z) : Prop := p + 16 <= q ∨ q + 16 <= p.
Definition nodes (s : store) (l : list Z) : Prop :=
  Forall (node s) l ∧ ∀ p q, p ∈ l → q ∈ l → p = q ∨ apart p q.

(** The words of the nodes of [l]. *)
Definition in_cells (l : list Z) (a : Z) : Prop := ∃ p, p ∈ l ∧ (a = p ∨ a = p + 8).
Definition same_but (s s' : store) (l : list Z) : Prop :=
  st_regions s' = st_regions s ∧ ∀ a, ¬ in_cells l a → word s' a = word s a.

Lemma last_cons (l : list Z) x y : List.last (y :: l) x = List.last l y.
Proof.
  revert x y. induction l as [|z l IH]; intros x y; [done|].
  change (List.last (y :: z :: l) x) with (List.last (z :: l) x). by rewrite !IH.
Qed.

Lemma seg_app s x l1 z l2 :
  seg s x (l1 ++ z :: l2) ↔ seg s x l1 ∧ nxt s (List.last l1 x) = z ∧ prv s z = List.last l1 x ∧ seg s z l2.
Proof.
  revert x. induction l1 as [|y l1 IH]; intros x; cbn [app seg]; [cbn; tauto|].
  rewrite IH, last_cons. tauto.
Qed.

Lemma last_in (l : list Z) x : List.last l x ∈ x :: l.
Proof.
  revert x. induction l as [|y l IH]; intros x; [left|]. rewrite last_cons. right. apply IH.
Qed.

Lemma seg_frame s s' x l : NoDup (x :: l) → seg s x l →
  (∀ p, p ∈ l → prv s' p = prv s p) →
  (∀ p, p ∈ x :: l → p ≠ List.last l x → nxt s' p = nxt s p) → seg s' x l.
Proof.
  revert x. induction l as [|z l IH]; intros x Hd Hs Hp Hn; [done|].
  destruct Hs as (H1 & H2 & H3). cbn [seg]. apply NoDup_cons in Hd as [Hx Hd].
  rewrite last_cons in Hn. split; [|split].
  - rewrite Hn; [done|left|]. intros E. apply Hx. rewrite E. apply last_in.
  - rewrite Hp; [done|left].
  - apply IH; [done|done| |].
    + intros p Hpl. apply Hp. by right.
    + intros p Hpl. apply Hn. by right.
Qed.

Lemma u64_8 p : 0 <= p → p + 16 <= 2 ^ 64 → p +w 8 = p + 8.
Proof. intros. apply u64_id. ulia. Qed.

Lemma node_upd s a v p : node (upd s a v) p ↔ node s p.
Proof. reflexivity. Qed.

Lemma nodes_sub s l l' : nodes s l → (∀ p, p ∈ l' → p ∈ l) → nodes s l'.
Proof.
  intros [Hv Ha] Hs. split; [|intros p q Hp Hq; apply Ha; by apply Hs].
  rewrite Forall_forall in *. intros p Hp. by apply Hv, Hs.
Qed.

Lemma nodes_node s l p : nodes s l → p ∈ l → node s p.
Proof. intros [Hv _]. rewrite Forall_forall in Hv. apply Hv. Qed.

Lemma nodes_same s s' l : st_regions s' = st_regions s → nodes s l → nodes s' l.
Proof.
  intros E [Hv Ha]. split; [|done]. rewrite Forall_forall in *. intros p Hp.
  destruct (Hv p Hp) as (H1 & H2 & H3 & H4). unfold node, valid in *. by rewrite E.
Qed.

Lemma in_cells_cell l p : p ∈ l → in_cells l p ∧ in_cells l (p + 8).
Proof. intros Hp. split; exists p; auto. Qed.

(** Evaluate words of a store after updates of node words. *)
Ltac word_step :=
  unfold nxt, prv; rewrite ?word_upd;
  repeat (match goal with |- context [Z.eqb ?a ?b] => destruct (Z.eqb_spec a b) end);
  try done; try (exfalso; unfold apart in *; lia).

Lemma list_add_ok s h l new : nodes s (new :: h :: l) → NoDup (new :: h :: l) → dlist s h l →
  ∃ s', list_add s new h = Ok s' ∧ dlist s' h (new :: l) ∧ same_but s s' (new :: h :: l).
Proof.
  intros Hn Hd (Hs & Hl & Hp). set (n := nxt s h).
  assert (Hin : n ∈ h :: l).
  { destruct l as [|z l]; [unfold n; change (nxt s h = h) in Hl; rewrite Hl; left|]. destruct Hs as [E _]. unfold n. rewrite E. right. left. }
  destruct (nodes_node _ _ n Hn ltac:(by right)) as (V1 & V2 & V3 & V4).
  destruct (nodes_node _ _ h Hn ltac:(right; left)) as (U1 & U2 & U3 & U4).
  destruct (nodes_node _ _ new Hn ltac:(left)) as (W1 & W2 & W3 & W4).
  set (s' := upd (upd (upd (upd s (n + 8) new) new n) (new + 8) h) h new).
  exists s'. split.
  { unfold list_add, __list_add. rewrite ld_ok, bind_ok by done. change (word s h) with n.
    rewrite !u64_8 by lia. rewrite st_ok, bind_ok by done. rewrite st_ok, bind_ok by done.
    rewrite st_ok, bind_ok by done. by rewrite st_ok by done. }
  apply NoDup_cons in Hd as [Hd1 Hd]. apply NoDup_cons in Hd as [Hd2 Hd].
  destruct Hn as [_ Hsep].
  assert (Hnh : apart new h) by (destruct (Hsep new h) as [E|]; [left|right; left|exfalso; apply Hd1; rewrite E; left|done]).
  assert (Hnn : apart new n) by (destruct (Hsep new n) as [E|]; [left|by right|congruence|done]).
  split.
  - destruct l as [|z l].
    + assert (n = h) as En by exact Hl. split; [|split].
      * cbn [seg]. unfold s'. split; [|split; [|done]]; word_step.
      * cbn [List.last]. unfold s'. rewrite En. word_step.
      * cbn [List.last]. unfold s'. rewrite En. word_step.
    + destruct Hs as (E1 & E2 & E3). assert (n = z) as En by exact E1.
      assert (Hz : apart z h).
      { destruct (Hsep z h) as [E|]; [right; right; left|right; left|exfalso; apply Hd2; rewrite E; left|done]. }
      assert (Hout : ∀ p, p ∈ z :: l → nxt s' p = nxt s p ∧ (p ≠ z → prv s' p = prv s p)).
      { intros p Hpl. unfold s'. rewrite En in *.
        assert (apart p h) by (destruct (Hsep p h) as [E|]; [by right; right|right; left|exfalso; apply Hd2; by rewrite <- E|done]).
        assert (apart p new) by (destruct (Hsep p new) as [E|]; [by right; right|left|exfalso; apply Hd1; rewrite <- E; by right|done]).
        destruct (Hsep p z) as [->|]; [by right; right|right; right; left| |].
        - split; [word_step|done].
        - split; [word_step|intros _; word_step]. }
      split; [|split].
      * cbn [seg]. split; [unfold s'; word_step|]. split; [unfold s'; word_step|].
        split; [unfold s'; rewrite En in *; word_step|]. split; [unfold s'; rewrite En in *; word_step|].
        apply (seg_frame s); [done|done| |].
        -- intros p Hpl. apply Hout; [by right|]. intros ->. by apply NoDup_cons in Hd as [? _].
        -- intros p Hpl _. by apply Hout.
      * rewrite !last_cons in *. rewrite (proj1 (Hout _ (last_in l z))). exact Hl.
      * rewrite !last_cons in *. unfold s'. rewrite En in *. unfold prv in *. rewrite <- Hp. word_step.
  - split; [reflexivity|]. intros a Ha.
    assert (∀ p, p ∈ new :: h :: l → a ≠ p ∧ a ≠ p + 8) as Hne.
    { intros p Hpl. split; intros ->; apply Ha; by apply in_cells_cell. }
    destruct (Hne new ltac:(left)), (Hne h ltac:(right; left)), (Hne n ltac:(by right)).
    unfold s'. by rewrite !word_upd_ne by done.
Qed.

Lemma last_app (l1 l2 : list Z) x z : List.last (l1 ++ z :: l2) x = List.last l2 z.
Proof.
  revert x. induction l1 as [|y l1 IH]; intros x; cbn [app]; [apply last_cons|].
  rewrite last_cons. apply IH.
Qed.

Lemma nodup_split (l1 : list Z) x l2 : NoDup (l1 ++ x :: l2) →
  NoDup (l1 ++ l2) ∧ NoDup l1 ∧ NoDup (x :: l2) ∧ ∀ q, q ∈ l1 → q ∉ x :: l2.
Proof.
  rewrite !NoDup_app. intros (H1 & H2 & H3). split_and!; try assumption.
  - intros q Hq Hq2. apply (H2 q Hq). by right.
  - by apply NoDup_cons in H3 as [_ ?].
Qed.

Lemma list_del_ok s h l1 x l2 : nodes s (h :: l1 ++ x :: l2) → NoDup (h :: l1 ++ x :: l2) →
  dlist s h (l1 ++ x :: l2) →
  ∃ s', list_del s x = Ok s' ∧ dlist s' h (l1 ++ l2) ∧ same_but s s' (h :: l1 ++ l2).
Proof.
  intros Hn Hd (Hs & Hl & Hp). rewrite last_app in Hl, Hp. apply seg_app in Hs as (S1 & P1 & P2 & S2).
  set (p := List.last l1 h) in *. set (n := nxt s x).
  assert (Hpin : p ∈ h :: l1) by apply last_in.
  assert (Hx : x ∈ h :: l1 ++ x :: l2) by (right; apply elem_of_app; right; left).
  assert (Hsub : ∀ q, q ∈ h :: l1 ++ l2 → q ∈ h :: l1 ++ x :: l2).
  { intros q. rewrite !elem_of_cons, !elem_of_app, !elem_of_cons. tauto. }
  assert (Hp' : p ∈ h :: l1 ++ l2).
  { rewrite !elem_of_cons, !elem_of_app in *. tauto. }
  assert (Hn' : n ∈ h :: l1 ++ l2).
  { destruct l2 as [|z l2]; [unfold n; change (nxt s x = h) in Hl; rewrite Hl; left|].
    destruct S2 as [E _]. unfold n. rewrite E, elem_of_cons, elem_of_app, elem_of_cons. tauto. }
  destruct (nodes_node _ _ x Hn Hx) as (V1 & V2 & V3 & V4).
  destruct (nodes_node _ _ p Hn (Hsub _ Hp')) as (U1 & U2 & U3 & U4).
  destruct (nodes_node _ _ n Hn (Hsub _ Hn')) as (W1 & W2 & W3 & W4).
  set (s' := upd (upd s (n + 8) p) p n). exists s'. split.
  { unfold list_del, __list_del_entry. rewrite u64_8 by lia. rewrite !ld_ok, !bind_ok by done.
    change (word s (x + 8)) with (prv s x). rewrite P2. change (word s x) with n.
    rewrite u64_8 by lia. rewrite st_ok, bind_ok by done. by rewrite st_ok by done. }
  destruct (nodup_split (h :: l1) x l2 Hd) as (Hd' & Hd1 & Hd2 & Hdx).
  destruct Hn as [_ Hsep].
  assert (Hnx : ∀ q, q ∈ h :: l1 ++ l2 → q ≠ p → nxt s' q = nxt s q).
  { intros q Hq Hne. destruct (Hsep q p ltac:(auto) ltac:(auto)); [done|].
    destruct (Hsep q n ltac:(auto) ltac:(auto)) as [->|]; unfold s'; word_step. }
  assert (Hpv : ∀ q, q ∈ h :: l1 ++ l2 → q ≠ n → prv s' q = prv s q).
  { intros q Hq Hne. destruct (Hsep q n ltac:(auto) ltac:(auto)); [done|].
    destruct (Hsep q p ltac:(auto) ltac:(auto)) as [->|]; unfold s'; word_step. }
  assert (Hnp : nxt s' p = n) by (unfold s'; word_step).
  assert (Hpn : prv s' n = p).
  { destruct (Hsep p n ltac:(auto) ltac:(auto)) as [<-|]; unfold s'; word_step. }
  split.
  2: { split; [reflexivity|]. intros a Ha. unfold s'. rewrite !word_upd_ne; [done| |];
       intros <-; apply Ha; by apply in_cells_cell. }
  assert (S1' : n ∉ l1 → seg s' h l1).
  { intros Hnot. apply (seg_frame s); [done|done| |].
    - intros q Hq. apply Hpv; [rewrite elem_of_cons, elem_of_app; tauto|by intros ->].
    - intros q Hq Hne. apply Hnx; [|done]. rewrite elem_of_cons, elem_of_app in *. tauto. }
  destruct l2 as [|z l2].
  - rewrite app_nil_r in *. change (nxt s x = h) in Hl. fold n in Hl. rewrite Hl in *.
    apply NoDup_cons in Hd1 as [Hh _]. split; [by apply S1'|]. fold p. by split.
  - destruct S2 as (E1 & E2 & E3). fold n in E1. rewrite E1 in *. rewrite last_cons in *.
    assert (Hz : (z ∉ h :: l1) ∧ NoDup (z :: l2) ∧ ∀ q, q ∈ h :: l1 → (q ∉ z :: l2)).
    { destruct (nodup_split (h :: l1) z l2 Hd') as (_ & _ & Hdz & Hsepz). split; [|done].
      intros Hin. apply (Hsepz z Hin). left. }
    destruct Hz as (Hz & Hdz & Hsepz).
    assert (Hin : ∀ q, q ∈ z :: l2 → q ∈ h :: l1 ++ z :: l2 ∧ q ≠ p).
    { intros q Hq. split; [|intros ->; by apply (Hsepz p)]. rewrite elem_of_cons, elem_of_app. tauto. }
    split; [|split].
    + apply seg_app. fold p. split; [apply S1'; intros ?; apply Hz; by right|]. split; [done|]. split; [done|].
      apply (seg_frame s); [done|done| |].
      * intros q Hq. apply Hpv; [apply Hin; by right|]. intros ->. by apply NoDup_cons in Hdz as [? _].
      * intros q Hq _. by apply Hnx; apply Hin.
    + rewrite last_app, Hnx; [done| |]; apply Hin, last_in.
    + rewrite last_app, Hpv; [done|left|]. intros ->. apply Hz. left.
Qed.

(** A change elsewhere keeps a list. *)
Lemma dlist_same s s' h l : dlist s h l → (∀ p, p ∈ h :: l → nxt s' p = nxt s p ∧ prv s' p = prv s p) →
  dlist s' h l.
Proof.
  intros (Hs & Hl & Hp) He. split; [|split].
  - clear Hl Hp. revert h Hs He. induction l as [|z l IH]; intros h Hs He; [done|].
    destruct Hs as (H1 & H2 & H3). cbn [seg]. split; [|split].
    + by rewrite (proj1 (He h ltac:(left))).
    + by rewrite (proj2 (He z ltac:(right; left))).
    + apply IH; [done|]. intros p Hpl. apply He. by right.
  - by rewrite (proj1 (He _ (last_in l h))).
  - by rewrite (proj2 (He h ltac:(left))).
Qed.

Lemma dlist_first s h l : dlist s h l → nxt s h = List.hd h l.
Proof. intros (Hs & Hl & _). destruct l as [|z l]; [done|]. by destruct Hs. Qed.

Lemma INIT_LIST_HEAD_ok s h : node s h →
  ∃ s', INIT_LIST_HEAD s h = Ok s' ∧ dlist s' h [] ∧ same_but s s' [h].
Proof.
  intros (V1 & V2 & V3 & V4). unfold INIT_LIST_HEAD. rewrite st_ok, bind_ok, u64_8 by (done || lia).
  rewrite st_ok by done. eexists. split; [done|]. split.
  - split; [done|]. cbn [List.last]. split; word_step.
  - split; [done|]. intros a Ha. rewrite !word_upd_ne; [done| |]; intros <-; apply Ha;
      by apply in_cells_cell; left.
Qed.
