(* ===== verification/Malloc.v ===== *)
(** * The heap of the hypervisor

    Models [kernel/mm/malloc.c]: a buddy allocator over the 4 MB at
    [MALLOC_BASE]. The buckets [bsystem] are a list of counts and sizes; their
    list heads and the blocks are memory of the store of CList.v, so a
    preamble byte and the list pointer of a free block share their bytes, as
    in the code. *)

From S2P Require Import Prelude Layout Spinlock Physical Mmu Paging Kernel Screen CList.

Local Open Scope Z_scope.
Local Open Scope c_scope.

(** ** State *)

(** [buddy_bucket_t] without its list head. *)
Record bucket := Bucket {
  count : Z;
  size : Z
}.

(** [sizeof(buddy_bucket_t)]: the list head of bucket [i] is at [24 * i]. *)
Definition BUCKET_SIZE : Z := 24.

(** The static variables of malloc.c with the memory they govern; [h_bsystem] is the
    address of [bsystem], which the linker chooses. *)
Record heap := Heap {
  h_mem : store;
  h_bsystem : Z;
  h_buckets : list bucket;
  mem_base : Z;
  mm_lock : spinlock;
  h_screen : screen
}.

Definition set_mem (h : heap) (m : store) : heap :=
  Heap m (h_bsystem h) (h_buckets h) (mem_base h) (mm_lock h) (h_screen h).
Definition set_buckets (h : heap) (b : list bucket) : heap :=
  Heap (h_mem h) (h_bsystem h) b (mem_base h) (mm_lock h) (h_screen h).
Definition set_lock (h : heap) (l : spinlock) : heap :=
  Heap (h_mem h) (h_bsystem h) (h_buckets h) (mem_base h) l (h_screen h).
Definition set_screen (h : heap) (s : screen) : heap :=
  Heap (h_mem h) (h_bsystem h) (h_buckets h) (mem_base h) (mm_lock h) s.

(** [bsystem[i]]; [&bsystem[i].ptr]; [bsystem[i].count = c] *)
Definition bsystem (h : heap) (i : Z) : outcome bucket := list_get (h_buckets h) i.
Definition ptr (h : heap) (i : Z) : Z := h_bsystem h + BUCKET_SIZE * i.
Definition set_count (h : heap) (i c : Z) : outcome heap :=
  b ← bsystem h i;
  l ← list_set (h_buckets h) i (Bucket (u32 c) (size b));
  Ok (set_buckets h l).
(** [bsystem[i].count += d] *)
Definition add_count (h : heap) (i d : Z) : outcome heap :=
  b ← bsystem h i; set_count h i (count b + d).

Definition on_mem (h : heap) (f : store → outcome store) : outcome heap :=
  m ← f (h_mem h); Ok (set_mem h m).

Definition print (h : heap) (fmt : list Z) (args : list arg) : outcome heap :=
  s ← printf (h_screen h) fmt args; Ok (set_screen h s).

(** ** Sizes *)

Definition next_power2_step (v : Z) (st : Z * Z) : outcome ((Z * Z) + Z) :=
  let '(p, cnt) := st in
  if p <? v then Ok (inl (u32 (Z.shiftl p 1), u8 (cnt + 1))) else Ok (inr cnt).

Definition next_power2 (v : Z) : outcome Z :=
  if v <? BUDDY_MIN_BLK then Ok BUDDY_MIN_ORDER
  else while (next_power2_step v) (Z.shiftl 1 BUDDY_MIN_ORDER, BUDDY_MIN_ORDER).

(** ** Free *)

(** One round of the loop of [buddy_try_merge]; [inr] leaves the loop. *)
Definition try_merge_step (st : Z * Z * Z * heap) : outcome ((Z * Z * Z * heap) + (Z * heap)) :=
  let '(blt, entry, merge_count, h) := st in
  if entry <? BUDDY_ENTRIES - 1 then
    b ← bsystem h entry;
    let buddy_addr := blt -w mem_base h in
    let buddy_addr := Z.lxor buddy_addr (size b) in
    let buddy_addr := buddy_addr +w mem_base h in
    tag ← ld8 (h_mem h) (u64 (buddy_addr + size b - 1));
    if tag =? entry then
      let buddy := buddy_addr in
      h ← (if 0 <? merge_count then
             h ← add_count h entry (-1);
             on_mem h (fun m => list_del m blt)
           else Ok h);
      h ← add_count h entry (-1);
      h ← on_mem h (fun m => list_del m buddy);
      let entry := u8 (entry + 1) in
      let merged := if blt <? buddy then blt else buddy in
      b ← bsystem h entry;
      h ← on_mem h (fun m => st8 m (u64 (merged + size b - 1)) entry);
      h ← on_mem h (fun m => list_add m merged (ptr h entry));
      h ← add_count h entry 1;
      Ok (inl (merged, entry, u8 (merge_count + 1), h))
    else Ok (inr (merge_count, h))
  else Ok (inr (merge_count, h)).

Definition buddy_try_merge (h : heap) (blt entry : Z) : outcome (Z * heap) :=
  b ← bsystem h entry;
  if count b =? 0 then Ok (0, h) else while try_merge_step (blt, entry, 0, h).

Definition lock_heap (h : heap) : outcome heap :=
  l ← spin_lock (mm_lock h); Ok (set_lock h l).
Definition unlock_heap (h : heap) : heap := set_lock h (spin_unlock (mm_lock h)).

Definition free (h : heap) (ptr' : Z) : outcome heap :=
  h ← lock_heap h;
  let addr := ptr' -w 8 in
  entry ← ld8 (h_mem h) addr;
  b ← bsystem h entry;
  tag ← ld8 (h_mem h) (u64 (addr + size b - 1));
  if negb (tag =? USED) then
    h ← print h (chars "%s: double free memory %llX" ++ [10]) [AStr (Some (chars "free")); ANum ptr'];
    Ok (unlock_heap h)
  else
    '(merged, h) ← buddy_try_merge h addr entry;
    if negb (merged =? 0) then Ok (unlock_heap h)
    else
      h ← on_mem h (fun m => st8 m (u64 (addr + size b - 1)) entry);
      h ← on_mem h (fun m => list_add m addr (ptr h entry));
      h ← add_count h entry 1;
      Ok (unlock_heap h).

(** ** Malloc *)

(** [buddy_split(&bsystem[i])] *)
Definition buddy_split (h : heap) (i : Z) : outcome heap :=
  blt ← list_first_entry (h_mem h) (ptr h i);
  h ← on_mem h (fun m => list_del m blt);
  h ← add_count h i (-1);
  let i := i - 1 in
  h ← add_count h i 2;
  b ← bsystem h i;
  let new_blt := blt +w size b in
  h ← on_mem h (fun m => list_add m new_blt (ptr h i));
  h ← on_mem h (fun m => list_add m blt (ptr h i));
  let post := new_blt -w 1 in
  let entry := u8 i in
  h ← on_mem h (fun m => st8 m post entry);
  let post := post +w size b in
  on_mem h (fun m => st8 m post entry).

(** [while (bsystem[entry].count == 0)] *)
Definition find_bucket_step (h : heap) (st : Z * Z) : outcome ((Z * Z) + (Z * Z)) :=
  let '(entry, split_count) := st in
  b ← bsystem h entry;
  if count b =? 0 then
    let entry := u8 (entry + 1) in
    if BUDDY_ENTRIES <=? entry then Panic "out of memory"
    else Ok (inl (entry, u8 (split_count + 1)))
  else Ok (inr (entry, split_count)).

(** [while (split_count--)] *)
Definition split_step (st : Z * Z * heap) : outcome ((Z * Z * heap) + (Z * heap)) :=
  let '(entry, split_count, h) := st in
  if split_count =? 0 then Ok (inr (entry, h))
  else
    h ← buddy_split h entry;
    Ok (inl (u8 (entry - 1), split_count - 1, h)).

Definition malloc (h : heap) (size' : Z) : outcome (Z * heap) :=
  order ← next_power2 (u32 (size' + 9));
  let entry := u8 (order - BUDDY_MIN_ORDER) in
  h ← lock_heap h;
  b ← bsystem h entry;
  '(entry, h) ← (if count b =? 0 then
                   '(entry, split_count) ← while (find_bucket_step h) (entry, 0);
                   while split_step (entry, split_count, h)
                 else Ok (entry, h));
  blt ← list_first_entry (h_mem h) (ptr h entry);
  h ← on_mem h (fun m => list_del m blt);
  h ← add_count h entry (-1);
  let pre := blt in
  b ← bsystem h entry;
  let post := u64 (pre + size b - 1) in
  h ← on_mem h (fun m => st8 m pre entry);
  let pre := pre +w 8 in
  h ← on_mem h (fun m => st8 m post USED);
  Ok (pre, unlock_heap h).

(** ** Checks and initialisation *)

(** The body of [list_for_each_entry] in [check_buddy_table]. *)
Definition check_block (m : store) (size' entry : Z) (blt : Z) (st : Z * screen) : outcome (Z * screen) :=
  let '(counter, s) := st in
  tag ← ld8 m (u64 (blt + size' - 1));
  s ← (if negb (tag =? entry) then
         printf s (chars "ERROR: postamble not set for %llX" ++ [10]) [ANum blt]
       else Ok s);
  Ok (u8 (counter + 1), s).

Definition check_bucket_step (st : Z * Z * heap) : outcome ((Z * Z * heap) + (Z * heap)) :=
  let '(entry, total, h) := st in
  b ← bsystem h entry;
  h ← print h (chars "Count: %u") [ANum (count b)];
  h ← print h (chars "  Order: %u" ++ [10]) [ANum (entry + BUDDY_MIN_ORDER)];
  let total := u32 (total + u32 (count b * size b)) in
  '(counter, s) ← list_for_each_entry (h_mem h) (ptr h entry) (check_block (h_mem h) (size b) entry)
                    (0, h_screen h);
  let h := set_screen h s in
  h ← (if negb (counter =? count b) then print h (chars "Count is incorrect!") [] else Ok h);
  let entry := u8 (entry + 1) in
  if BUDDY_ENTRIES <=? entry then Ok (inr (total, h)) else Ok (inl (entry, total, h)).

Definition check_buddy_table (h : heap) : outcome heap :=
  h ← lock_heap h;
  '(total, h) ← while check_bucket_step (0, 0, h);
  h ← print h (chars "Total free memory: %u" ++ [10]) [ANum total];
  Ok (unlock_heap h).

(** [for (i = 0; i < list_count; i++)] of [malloc_init] *)
Definition init_bucket_step (list_count : Z) (st : Z * heap) : outcome ((Z * heap) + heap) :=
  let '(i, h) := st in
  if i <? list_count then
    l ← list_set (h_buckets h) i (Bucket 0 (u32 (Z.shiftl 1 (i + BUDDY_MIN_ORDER))));
    let h := set_buckets h l in
    h ← on_mem h (fun m => INIT_LIST_HEAD m (ptr h i));
    Ok (inl (i + 1, h))
  else Ok (inr h).

(** The end of [malloc_init]: the pool becomes one block. *)
Definition init_pool (h : heap) (list_count : Z) : outcome heap :=
  let h := Heap (h_mem h) (h_bsystem h) (h_buckets h) MALLOC_BASE (mm_lock h) (h_screen h) in
  let initial := mem_base h in
  let list_count := list_count - 1 in
  h ← set_count h list_count 1;
  h ← on_mem h (fun m => list_add m initial (ptr h list_count));
  b ← bsystem h list_count;
  on_mem h (fun m => st8 m (u64 (mem_base h + size b - 1)) list_count).

Section malloc_init.
Context {HM : Mmu}.

(** [for (i = 0; i < pages; i++)] over large pages *)
Definition map_pool_step (pages : Z) (st : Z * Z * Z * vm phys) : outcome ((Z * Z * Z * vm phys) + vm phys) :=
  let '(i, paddr, vaddr, v) := st in
  if i <? pages then
    v ← vm_map_large_page_unrestricted v paddr (PGT_P .| PGT_RW .| PGT_XD .| PDT_PS) vaddr;
    Ok (inl (i + 1, paddr +w LARGE_PG_SIZE, vaddr +w LARGE_PG_SIZE, v))
  else Ok (inr v).

(** With [BUDDY_MAX_ORDER] the pool is two large pages: the branch for small
    pages is not compiled in. *)
Definition malloc_init (v : vm phys) (h : heap) : outcome (vm phys * heap) :=
  let list_count := u8 (BUDDY_MAX_ORDER - BUDDY_MIN_ORDER + 1) in
  h ← while (init_bucket_step list_count) (0, h);
  let pages := Z.shiftl 1 (BUDDY_MAX_ORDER - PG_BITS) in
  '(paddr, f) ← alloc_phys_frames_aligned (vm_frames v) pages LARGE_PG_SIZE;
  let v := Vm (vm_mem v) (vm_cr3 v) (pg_lock v) (vm_invlpg v) f in
  if paddr =? 0 then Panic "out of physical memory"
  else
    let pages := Z.shiftl 1 (BUDDY_MAX_ORDER - LARGE_PG_BITS) in
    v ← while (map_pool_step pages) (0, paddr, MALLOC_BASE, v);
    h ← init_pool h list_count;
    Ok (v, h).
End malloc_init.
