(* ===== verification/Buddy.v ===== *)
(** * The buddy system

    An abstract view of the heap of [kernel/mm/malloc.c]: the blocks that make
    up the pool, each with its bucket and whether it is free, and what
    allocating and freeing do to them. MallocSpec.v shows that the code
    implements it. *)

From S2P Require Import Prelude Layout.

Local Open Scope Z_scope.

(** The size of the blocks of bucket [e]. *)
Definition SZ (e : Z) : Z := 2 ^ (e + BUDDY_MIN_ORDER).

(** From the address of a block: its bucket, and whether it is free. *)
Abbreviation blocks := (gmap Z (Z * bool)).

(** The blocks are aligned to their size and tile the pool. *)
Record pool_ok (B : blocks) : Prop := PoolOk {
  po_block a e f : B !! a = Some (e, f) →
    0 <= e < BUDDY_ENTRIES ∧ MALLOC_BASE <= a ∧ a + SZ e <= MALLOC_END ∧ (SZ e | a - MALLOC_BASE);
  po_disjoint a e f a' e' f' : B !! a = Some (e, f) → B !! a' = Some (e', f') → a ≠ a' →
    a + SZ e <= a' ∨ a' + SZ e' <= a;
  po_cover x : MALLOC_BASE <= x < MALLOC_END → ∃ a e f, B !! a = Some (e, f) ∧ a <= x < a + SZ e
}.

(** The block that makes a block of the next bucket together with the one at [a]. *)
Definition buddy_of (a e : Z) : Z := MALLOC_BASE + Z.lxor (a - MALLOC_BASE) (SZ e).

(** No two free blocks could be merged. *)
Definition coalesced (B : blocks) : Prop :=
  ∀ a e, B !! a = Some (e, true) → e < BUDDY_ENTRIES - 1 → B !! buddy_of a e ≠ Some (e, true).

(** Cut the block at [a] of bucket [j] in two, [n] times, keeping the low half. *)
Fixpoint split_blocks (n : nat) (a j : Z) (B : blocks) : blocks :=
  match n with
  | O => B
  | Datatypes.S n =>
      split_blocks n a (j - 1) (<[a := (j - 1, true)]> (<[a + SZ (j - 1) := (j - 1, true)]> B))
  end.

(** Allocate a block of bucket [e] at the free block [a] of bucket [j]. *)
Definition take_block (a j e : Z) (B : blocks) : blocks :=
  <[a := (e, false)]> (split_blocks (Z.to_nat (j - e)) a j B).

(** Free the block at [a] of bucket [e], merging it as far as its buddies are free. *)
Fixpoint merge_blocks (n : nat) (B : blocks) (a e : Z) : blocks :=
  match n with
  | O => <[a := (e, true)]> B
  | Datatypes.S n =>
      if decide (e < BUDDY_ENTRIES - 1 ∧ B !! buddy_of a e = Some (e, true)) then
        merge_blocks n (delete (buddy_of a e) (delete a B)) (Z.min a (buddy_of a e)) (e + 1)
      else <[a := (e, true)]> B
  end.

Definition release_block (B : blocks) (a e : Z) : blocks :=
  merge_blocks (Z.to_nat (BUDDY_ENTRIES - 1)) B a e.

(** ** Sizes and buddies *)

Lemma SZ_pos e : 0 <= e → 0 < SZ e.
Proof. intros He. apply Z.pow_pos_nonneg; unfold BUDDY_MIN_ORDER; lia. Qed.

Lemma SZ_succ e : 0 <= e → SZ (e + 1) = 2 * SZ e.
Proof.
  intros He. unfold SZ. replace (e + 1 + BUDDY_MIN_ORDER) with (Z.succ (e + BUDDY_MIN_ORDER)) by lia.
  apply Z.pow_succ_r. unfold BUDDY_MIN_ORDER. lia.
Qed.

Lemma SZ_div e e' : 0 <= e <= e' → (SZ e | SZ e').
Proof.
  intros He. exists (2 ^ (e' - e)). unfold SZ, BUDDY_MIN_ORDER. rewrite <- Z.pow_add_r by lia. f_equal. lia.
Qed.

Lemma SZ_mono e e' : 0 <= e <= e' → SZ e <= SZ e'.
Proof. intros He. apply Z.pow_le_mono_r; lia. Qed.

Lemma SZ_min e : 0 <= e → 32 <= SZ e.
Proof. intros He. change 32 with (SZ 0). apply SZ_mono. lia. Qed.

Lemma SZ_max e : 0 <= e < BUDDY_ENTRIES → SZ e <= 2 ^ 22.
Proof. intros He. change (2 ^ 22) with (SZ 17). apply SZ_mono. unfold BUDDY_ENTRIES, BUDDY_MAX_ORDER, BUDDY_MIN_ORDER in He. lia. Qed.

Lemma lxor_even q : Z.even q = true → Z.lxor q 1 = q + 1.
Proof.
  intros Hq. symmetry. apply Z.add_nocarry_lxor. change 1 with (Z.ones 1) at 1. rewrite Z.land_ones by lia.
  change (2 ^ 1) with 2. rewrite Zmod_even. by rewrite Hq.
Qed.

Lemma lxor_one q : Z.lxor q 1 = if Z.even q then q + 1 else q - 1.
Proof.
  destruct (Z.even q) eqn:E; [by apply lxor_even|].
  replace q with (q - 1 + 1) at 1 by lia. rewrite <- lxor_even by (by rewrite Z.even_sub, E).
  by rewrite Z.lxor_assoc, Z.lxor_nilpotent, Z.lxor_0_r.
Qed.

Lemma buddy_quot q e : 0 <= e →
  buddy_of (MALLOC_BASE + SZ e * q) e = MALLOC_BASE + SZ e * (if Z.even q then q + 1 else q - 1).
Proof.
  intros He. unfold buddy_of. f_equal. rewrite <- lxor_one.
  replace (MALLOC_BASE + SZ e * q - MALLOC_BASE) with (SZ e * q) by lia.
  unfold SZ. assert (0 <= e + BUDDY_MIN_ORDER) by (unfold BUDDY_MIN_ORDER; lia).
  rewrite (Z.mul_comm _ q), (Z.mul_comm _ (Z.lxor _ _)), <- !Z.shiftl_mul_pow2, Z.shiftl_lxor by done.
  by rewrite Z.shiftl_1_l.
Qed.

(** A block and its buddy are the two halves of a block of the next bucket. *)
Lemma buddy_cases a e : 0 <= e → (SZ e | a - MALLOC_BASE) →
  (SZ (e + 1) | Z.min a (buddy_of a e) - MALLOC_BASE) ∧
  (buddy_of a e = a + SZ e ∨ buddy_of a e = a - SZ e) ∧
  (SZ e | buddy_of a e - MALLOC_BASE) ∧ buddy_of (buddy_of a e) e = a.
Proof.
  intros He [q Hq]. assert (a = MALLOC_BASE + SZ e * q) as -> by lia.
  rewrite buddy_quot, SZ_succ by done. pose proof (SZ_pos e He).
  rewrite <- Z.negb_odd. pose proof (Z.div2_odd q) as Hd. destruct (Z.odd q) eqn:E; cbn [negb Z.b2z] in *.
  - split; [exists (Z.div2 q); rewrite Z.min_r; lia|]. split; [right; lia|]. split; [exists (q - 1); lia|].
    rewrite buddy_quot by done. assert (Z.even (q - 1) = true) as -> by (rewrite Hd, Z.add_simpl_r, Z.even_mul; done).
    f_equal. f_equal. lia.
  - split; [exists (Z.div2 q); rewrite Z.min_l; lia|]. split; [left; lia|]. split; [exists (q + 1); lia|].
    rewrite buddy_quot by done.
    assert (Z.even (q + 1) = false) as -> by (rewrite <- Z.negb_odd, Z.odd_add, E; done).
    f_equal. f_equal. lia.
Qed.

(** A block of the next bucket at [a]: its halves are at [a] and its buddy. *)
Lemma buddy_low a e : 0 <= e → (SZ (e + 1) | a - MALLOC_BASE) → buddy_of a e = a + SZ e.
Proof.
  intros He [q Hq]. rewrite SZ_succ in Hq by done.
  assert (a = MALLOC_BASE + SZ e * (2 * q)) as -> by lia. rewrite buddy_quot by done.
  rewrite Z.even_mul. cbn [Z.even orb]. lia.
Qed.

(** ** The tiling *)

Lemma po_range B a e f : pool_ok B → B !! a = Some (e, f) → 0 <= e.
Proof. intros HB E. apply (po_block B HB) in E. lia. Qed.

(** An aligned block with a byte in common with a bigger aligned interval lies inside it. *)
Lemma dyadic_inside a e b e' x : 0 <= e <= e' →
  (SZ e | a - MALLOC_BASE) → (SZ e' | b - MALLOC_BASE) → a <= x < a + SZ e → b <= x < b + SZ e' →
  b <= a ∧ a + SZ e <= b + SZ e'.
Proof.
  intros He [q Hq] [r Hr] Ha Hb. pose proof (SZ_pos e ltac:(lia)).
  destruct (SZ_div e e' He) as [k Hk]. assert (0 < k) by (pose proof (SZ_pos e' ltac:(lia)); nia).
  rewrite Hk in *. assert (r * k <= q < (r + 1) * k) by nia. nia.
Qed.

(** The block that holds the last byte of the buddy of a block: it ends there,
    and it is the buddy if it is of the same bucket. *)
Lemma buddy_end B a e f : pool_ok B → B !! a = Some (e, f) → e < BUDDY_ENTRIES - 1 →
  ∃ c k g, B !! c = Some (k, g) ∧ c + SZ k = buddy_of a e + SZ e ∧ c ≠ a ∧
    (k = e → c = buddy_of a e).
Proof.
  intros HB Ha He. destruct (po_block B HB _ _ _ Ha) as (Her & Hlo & Hhi & Hal).
  destruct (buddy_cases a e ltac:(lia) Hal) as (Hmin & Hb & Hbal & _). set (b := buddy_of a e) in *.
  pose proof (SZ_pos e ltac:(lia)) as Hp. pose proof (SZ_succ e ltac:(lia)) as HS.
  assert (Hrange : MALLOC_BASE <= Z.min a b ∧ Z.min a b + SZ (e + 1) <= MALLOC_END).
  { destruct Hmin as [q Hq]. destruct (SZ_div (e + 1) 17) as [k Hk].
    { unfold BUDDY_ENTRIES, BUDDY_MAX_ORDER, BUDDY_MIN_ORDER in *. lia. }
    change MALLOC_END with (MALLOC_BASE + SZ 17) in *. rewrite Hk in *. pose proof (SZ_pos (e + 1) ltac:(lia)).
    assert (0 <= q) by (destruct Hb as [-> | ->] in *; nia).
    assert (q < k) by (destruct Hb as [-> | ->] in *; nia). nia. }
  destruct (po_cover B HB (b + SZ e - 1)) as (c & k & g & Hc & Hx); [lia|].
  destruct (po_block B HB _ _ _ Hc) as (Hkr & Hclo & Hchi & Hcal).
  exists c, k, g. split; [done|].
  destruct (Z.le_gt_cases k e) as [Hke|Hke].
  - destruct (dyadic_inside c k b e (b + SZ e - 1)) as [H1 H2]; [lia|done|done|lia|lia|].
    split; [lia|]. split; [|intros ->; lia]. intros ->. destruct Hb as [-> | ->]; [lia|].
    rewrite Hc in Ha. injection Ha as -> _. lia.
  - exfalso. destruct (dyadic_inside b e c k (b + SZ e - 1)) as [H1 H2]; [lia|done|done|lia|lia|].
    destruct (dyadic_inside (Z.min a b) (e + 1) c k (b + SZ e - 1)) as [H3 H4]; [lia|done|done|lia|lia|].
    destruct (Z.eq_dec c a) as [->|Hne]; [rewrite Hc in Ha; injection Ha as -> _; lia|].
    destruct (po_disjoint B HB _ _ _ _ _ _ Hc Ha Hne); lia.
Qed.

Lemma po_flag B a e f g : pool_ok B → B !! a = Some (e, f) → pool_ok (<[a := (e, g)]> B).
Proof.
  intros HB Ha.
  assert (Hl : ∀ c k h, <[a := (e, g)]> B !! c = Some (k, h) → ∃ h', B !! c = Some (k, h')).
  { intros c k h. rewrite lookup_insert. case_decide as E; [|by exists h]. intros [= <- <-]. subst. by exists f. }
  split.
  - intros c k h Hc. apply Hl in Hc as [h' Hc]. by apply (po_block B HB) in Hc.
  - intros c k h c' k' h' Hc Hc'. apply Hl in Hc as [? Hc], Hc' as [? Hc']. by apply (po_disjoint B HB _ _ _ _ _ _ Hc Hc').
  - intros x Hx. destruct (po_cover B HB x Hx) as (c & k & h & Hc & Hxc). destruct (decide (a = c)) as [<-|Hne].
    + exists a, e, g. rewrite lookup_insert_eq. rewrite Ha in Hc. injection Hc as <- <-. done.
    + exists c, k, h. by rewrite lookup_insert_ne.
Qed.

(** Cutting a block in two. *)
Lemma po_split B a e f g h : pool_ok B → B !! a = Some (e + 1, f) → 0 <= e →
  pool_ok (<[a := (e, g)]> (<[a + SZ e := (e, h)]> B)) ∧ B !! (a + SZ e) = None.
Proof.
  intros HB Ha He. pose proof (SZ_pos e He) as Hp. pose proof (SZ_succ e He) as HS.
  destruct (po_block B HB _ _ _ Ha) as (Her & Hlo & Hhi & q & Hq).
  assert (Hnone : B !! (a + SZ e) = None).
  { destruct (B !! (a + SZ e)) as [[k i]|] eqn:E; [|done].
    destruct (po_block B HB _ _ _ E) as (Hk & _). pose proof (SZ_pos k ltac:(lia)).
    destruct (po_disjoint B HB _ _ _ _ _ _ Ha E); lia. }
  split; [|done]. set (B' := <[a := (e, g)]> _).
  assert (Hl : ∀ c k i, B' !! c = Some (k, i) →
    (c = a ∧ k = e) ∨ (c = a + SZ e ∧ k = e) ∨ (c ≠ a ∧ c ≠ a + SZ e ∧ B !! c = Some (k, i))).
  { intros c k i. unfold B'. rewrite !lookup_insert. case_decide as E1; [intros [= <- <-]; by left|].
    case_decide as E2; [intros [= <- <-]; right; by left|]. intros Hc. right. right. done. }
  split.
  - intros c k i Hc. apply Hl in Hc as [[-> ->]|[[-> ->]|(_ & _ & Hc)]].
    + split; [lia|]. split; [lia|]. split; [lia|]. exists (2 * q). lia.
    + split; [lia|]. split; [lia|]. split; [lia|]. exists (2 * q + 1). lia.
    + by apply (po_block B HB) in Hc.
  - assert (Hout : ∀ c k i, B !! c = Some (k, i) → c ≠ a → c + SZ k <= a ∨ a + SZ (e + 1) <= c).
    { intros c k i Hc Hne. destruct (po_disjoint B HB _ _ _ _ _ _ Hc Ha Hne); lia. }
    intros c k i c' k' i' Hc Hc' Hne.
    apply Hl in Hc as [[-> ->]|[[-> ->]|(Hn1 & Hn2 & Hc)]]; apply Hl in Hc' as [[-> ->]|[[-> ->]|(Hn3 & Hn4 & Hc')]];
      try lia; try (specialize (Hout _ _ _ Hc Hn1); lia); try (specialize (Hout _ _ _ Hc' Hn3); lia).
    by apply (po_disjoint B HB _ _ _ _ _ _ Hc Hc').
  - intros x Hx. destruct (po_cover B HB x Hx) as (c & k & i & Hc & Hxc). destruct (decide (c = a)) as [->|Hne].
    + rewrite Ha in Hc. injection Hc as <- <-. destruct (Z.lt_ge_cases x (a + SZ e)).
      * exists a, e, g. unfold B'. rewrite lookup_insert_eq. split; [done|lia].
      * exists (a + SZ e), e, h. unfold B'. rewrite lookup_insert_ne, lookup_insert_eq by lia. split; [done|lia].
    + exists c, k, i. unfold B'. rewrite !lookup_insert_ne; [done|congruence|congruence].
Qed.

(** Merging a block with its buddy. *)
Lemma po_merge B a e f g h : pool_ok B → B !! a = Some (e, f) → B !! buddy_of a e = Some (e, g) →
  e < BUDDY_ENTRIES - 1 →
  pool_ok (<[Z.min a (buddy_of a e) := (e + 1, h)]> (delete (buddy_of a e) (delete a B))).
Proof.
  intros HB Ha Hb He1. set (b := buddy_of a e) in *.
  destruct (po_block B HB _ _ _ Ha) as (He & Halo & Hahi & Haal).
  destruct (po_block B HB _ _ _ Hb) as (_ & Hblo & Hbhi & Hbal).
  destruct (buddy_cases a e ltac:(lia) Haal) as (Hmin & Hab & _ & _). fold b in Hmin, Hab.
  pose proof (SZ_pos e ltac:(lia)) as Hp. pose proof (SZ_succ e ltac:(lia)) as HS.
  set (m := Z.min a b) in *.
  assert (Hm : m = a ∧ b = a + SZ e ∨ m = b ∧ a = b + SZ e) by (unfold m; lia).
  set (B' := <[m := _]> _).
  assert (Hl : ∀ c k i, B' !! c = Some (k, i) → (c = m ∧ k = e + 1) ∨ (c ≠ a ∧ c ≠ b ∧ B !! c = Some (k, i))).
  { intros c k i. unfold B'. rewrite lookup_insert. case_decide as E1; [intros [= <- <-]; by left|].
    rewrite !lookup_delete_Some. intros (Hcb & Hca & Hc). right. split; [done|]. by split. }
  split.
  - intros c k i Hc. apply Hl in Hc as [[-> ->]|(_ & _ & Hc)]; [|by apply (po_block B HB) in Hc].
    split; [lia|]. split; [lia|]. split; [lia|done].
  - assert (Hout : ∀ c k i, B !! c = Some (k, i) → c ≠ a → c ≠ b → c + SZ k <= m ∨ m + SZ (e + 1) <= c).
    { intros c k i Hc Hca Hcb. destruct (po_block B HB _ _ _ Hc) as (Hk & _). pose proof (SZ_pos k ltac:(lia)).
      destruct (po_disjoint B HB _ _ _ _ _ _ Hc Ha Hca), (po_disjoint B HB _ _ _ _ _ _ Hc Hb Hcb); lia. }
    intros c k i c' k' i' Hc Hc' Hne.
    apply Hl in Hc as [[-> ->]|(Hn1 & Hn2 & Hc)]; apply Hl in Hc' as [[-> ->]|(Hn3 & Hn4 & Hc')]; [lia| | |].
    + specialize (Hout _ _ _ Hc' Hn3 Hn4). lia.
    + specialize (Hout _ _ _ Hc Hn1 Hn2). lia.
    + by apply (po_disjoint B HB _ _ _ _ _ _ Hc Hc').
  - intros x Hx. destruct (po_cover B HB x Hx) as (c & k & i & Hc & Hxc).
    destruct (decide (c = a ∨ c = b)) as [Hcab|Hcab].
    + exists m, (e + 1), h. unfold B'. rewrite lookup_insert_eq. split; [done|].
      destruct Hcab as [-> | ->]; [rewrite Ha in Hc|rewrite Hb in Hc]; injection Hc as <- <-; lia.
    + exists c, k, i. unfold B'. rewrite lookup_insert_ne by (unfold m; lia). rewrite !lookup_delete_ne by lia. done.
Qed.

(** ** Allocating *)

Lemma split_ok n B a j f : pool_ok B → B !! a = Some (j, f) → Z.of_nat n <= j →
  (n = O ∨ f = true) →
  pool_ok (split_blocks n a j B) ∧ (∃ g, split_blocks n a j B !! a = Some (j - Z.of_nat n, g)) ∧
  (∀ i, j - Z.of_nat n <= i < j → split_blocks n a j B !! (a + SZ i) = Some (i, true) ∧ B !! (a + SZ i) = None) ∧
  (∀ c, c ≠ a → (∀ i, j - Z.of_nat n <= i < j → c ≠ a + SZ i) → split_blocks n a j B !! c = B !! c).
Proof.
  revert B j f. induction n as [|n IH]; intros B j f HB Ha Hn Hf; cbn [split_blocks].
  { split; [done|]. split; [exists f; rewrite Ha; f_equal; f_equal; lia|]. split; [lia|done]. }
  replace j with (j - 1 + 1) in Ha by lia. rewrite Nat2Z.inj_succ in *.
  destruct (po_split B a (j - 1) f true true HB Ha ltac:(lia)) as [HB1 Hnone].
  pose proof (SZ_pos (j - 1) ltac:(lia)).
  set (B1 := <[a := (j - 1, true)]> (<[a + SZ (j - 1) := (j - 1, true)]> B)) in *.
  assert (H1 : B1 !! a = Some (j - 1, true)) by apply lookup_insert_eq.
  assert (H2 : B1 !! (a + SZ (j - 1)) = Some (j - 1, true))
    by (unfold B1; rewrite lookup_insert_ne by lia; apply lookup_insert_eq).
  assert (H3 : ∀ c, c ≠ a → c ≠ a + SZ (j - 1) → B1 !! c = B !! c)
    by (intros c Hc1 Hc2; unfold B1; by rewrite !lookup_insert_ne by congruence).
  destruct (IH B1 (j - 1) true HB1 H1 ltac:(lia) ltac:(by right)) as (I1 & (g & I2) & I3 & I4).
  split; [done|]. split; [exists g; rewrite I2; f_equal; f_equal; lia|].
  assert (Hlt : ∀ i, 0 <= i < j - 1 → SZ i ≠ SZ (j - 1)).
  { intros i Hi. pose proof (SZ_mono (i + 1) (j - 1) ltac:(lia)). rewrite SZ_succ in * by lia.
    pose proof (SZ_pos i ltac:(lia)). lia. }
  split.
  - intros i Hi. destruct (Z.eq_dec i (j - 1)) as [->|Hne].
    + split; [|done]. rewrite I4; [done|lia|]. intros k Hk E. apply (Hlt k); lia.
    + pose proof (Hlt i ltac:(lia)). pose proof (SZ_pos i ltac:(lia)). destruct (I3 i ltac:(lia)) as [E1 E2].
      split; [done|]. rewrite <- H3 by lia. done.
  - intros c Hc Hci. rewrite I4; [apply H3; [done|]|done|]; [apply Hci; lia|]. intros k Hk. apply Hci. lia.
Qed.

Section take.
Context (B : blocks) (a j e : Z) (HB : pool_ok B) (Ha : B !! a = Some (j, true)) (He : 0 <= e <= j).

Lemma take_ok : pool_ok (take_block a j e B).
Proof using HB Ha He.
  destruct (split_ok (Z.to_nat (j - e)) B a j true HB Ha ltac:(lia) ltac:(by right)) as (H1 & (g & H2) & _).
  unfold take_block. replace (j - Z.of_nat (Z.to_nat (j - e))) with e in H2 by lia. by apply (po_flag _ _ _ g).
Qed.

Lemma take_here : take_block a j e B !! a = Some (e, false).
Proof. apply lookup_insert_eq. Qed.

Lemma take_half i : e <= i < j → take_block a j e B !! (a + SZ i) = Some (i, true) ∧ B !! (a + SZ i) = None.
Proof using HB Ha He.
  intros Hi. pose proof (SZ_pos i ltac:(lia)).
  destruct (split_ok (Z.to_nat (j - e)) B a j true HB Ha ltac:(lia) ltac:(by right)) as (_ & _ & H3 & _).
  unfold take_block. rewrite lookup_insert_ne by lia. apply H3. lia.
Qed.

Lemma take_other c : c ≠ a → (∀ i, e <= i < j → c ≠ a + SZ i) → take_block a j e B !! c = B !! c.
Proof using HB Ha He.
  intros Hc Hi.
  destruct (split_ok (Z.to_nat (j - e)) B a j true HB Ha ltac:(lia) ltac:(by right)) as (_ & _ & _ & H4).
  unfold take_block. rewrite lookup_insert_ne by done. apply H4; [done|]. intros k Hk. apply Hi. lia.
Qed.

Lemma take_cases c : c = a ∨ (∃ i, e <= i < j ∧ c = a + SZ i) ∨ (c ≠ a ∧ ∀ i, e <= i < j → c ≠ a + SZ i).
Proof using He.
  destruct (Z.eq_dec c a) as [->|Hne]; [by left|right].
  assert (∀ n, (n <= Z.to_nat (j - e))%nat → (∃ i, j - Z.of_nat n <= i < j ∧ c = a + SZ i) ∨
    (∀ i, j - Z.of_nat n <= i < j → c ≠ a + SZ i)) as Hn.
  { induction n as [|n IH]; intros Hn; [right; lia|]. destruct (IH ltac:(lia)) as [(i & Hi & E)|Hall].
    - left. exists i. split; [lia|done].
    - destruct (Z.eq_dec c (a + SZ (j - Z.of_nat (Datatypes.S n)))) as [E|Hne'].
      + left. eexists. split; [|exact E]. lia.
      + right. intros i Hi. destruct (Z.eq_dec i (j - Z.of_nat (Datatypes.S n))) as [->|]; [done|]. apply Hall. lia. }
  destruct (Hn (Z.to_nat (j - e)) ltac:(lia)) as [(i & Hi & E)|Hall].
  - left. exists i. split; [lia|done].
  - right. split; [done|]. intros i Hi. apply Hall. lia.
Qed.

Lemma take_coalesced : coalesced B → coalesced (take_block a j e B).
Proof using HB Ha He.
  intros HC c k Hc Hk. destruct (po_block B HB _ _ _ Ha) as (Hj & _ & _ & Hal).
  assert (Hbud : ∀ i, e <= i < j → buddy_of (a + SZ i) i = a).
  { intros i Hi. assert (SZ (i + 1) | a - MALLOC_BASE) as Hd.
    { apply (Z.divide_trans _ (SZ j)); [apply SZ_div; lia|done]. }
    rewrite <- (buddy_low a i) by (done || lia). apply buddy_cases; [lia|].
    apply (Z.divide_trans _ (SZ (i + 1))); [apply SZ_div; lia|done]. }
  destruct (take_cases c) as [->|[(i & Hi & ->)|(Hne & Hni)]].
  - rewrite take_here in Hc. discriminate Hc.
  - rewrite (proj1 (take_half i Hi)) in Hc. injection Hc as <-. rewrite Hbud by done.
    rewrite take_here. congruence.
  - rewrite take_other in Hc by done. intros Hb.
    destruct (po_block B HB _ _ _ Hc) as (Hk0 & _ & _ & Hcal).
    destruct (take_cases (buddy_of c k)) as [E|[(i & Hi & E)|(Hne' & Hni')]].
    + rewrite E, take_here in Hb. discriminate Hb.
    + rewrite E in Hb. rewrite (proj1 (take_half i Hi)) in Hb. injection Hb as ->.
      apply Hne. rewrite <- (Hbud k Hi), <- E. symmetry. apply buddy_cases; [lia|done].
    + rewrite take_other in Hb by done. by apply (HC c k).
Qed.
End take.

(** ** Freeing *)

Lemma merge_stop n B a e : ¬ (e < BUDDY_ENTRIES - 1 ∧ B !! buddy_of a e = Some (e, true)) →
  merge_blocks n B a e = <[a := (e, true)]> B.
Proof. intros H. destruct n; cbn [merge_blocks]; [done|]. by rewrite decide_False. Qed.

Lemma buddy_ne a e : 0 <= e → (SZ e | a - MALLOC_BASE) → buddy_of a e ≠ a.
Proof. intros He Hal. destruct (buddy_cases a e He Hal) as (_ & [-> | ->] & _); pose proof (SZ_pos e He); lia. Qed.

(** The result does not depend on the entry of the freed block itself. *)
Lemma merge_self n B B' a e : delete a B = delete a B' → 0 <= e → (SZ e | a - MALLOC_BASE) →
  merge_blocks n B a e = merge_blocks n B' a e.
Proof.
  intros E He Hal.
  assert (Hb : B !! buddy_of a e = B' !! buddy_of a e).
  { pose proof (buddy_ne a e He Hal). rewrite <- (lookup_delete_ne B a), <- (lookup_delete_ne B' a), E by done. done. }
  assert (Hi : <[a := (e, true)]> B = <[a := (e, true)]> B').
  { by rewrite <- (insert_delete_eq B), <- (insert_delete_eq B'), E. }
  destruct n; cbn [merge_blocks]; [done|]. rewrite Hb, E. by case_decide.
Qed.

(** Freeing a block that was just cut out puts the pieces together again. *)
Lemma merge_split n m B a j f g : pool_ok B → B !! a = Some (j, f) → Z.of_nat n <= j →
  (n = O ∨ f = true) →
  merge_blocks (n + m) (<[a := (j - Z.of_nat n, g)]> (split_blocks n a j B)) a (j - Z.of_nat n) =
    merge_blocks m B a j.
Proof.
  revert m B j f. induction n as [|n IH]; intros m B j f HB Ha Hn Hf; cbn [split_blocks].
  { rewrite Z.sub_0_r. destruct (po_block B HB _ _ _ Ha) as (Hj & _ & _ & Hal). apply merge_self; [|lia|done].
    apply delete_insert_eq. }
  destruct (po_block B HB _ _ _ Ha) as (Hj & _ & _ & Hal).
  replace j with (j - 1 + 1) in Ha by lia. rewrite Nat2Z.inj_succ in *.
  destruct (po_split B a (j - 1) f true true HB Ha ltac:(lia)) as [HB1 Hnone].
  pose proof (SZ_pos (j - 1) ltac:(lia)).
  set (B1 := <[a := (j - 1, true)]> (<[a + SZ (j - 1) := (j - 1, true)]> B)) in *.
  assert (H1 : B1 !! a = Some (j - 1, true)) by apply lookup_insert_eq.
  replace (j - Z.succ (Z.of_nat n)) with (j - 1 - Z.of_nat n) by lia.
  replace (Datatypes.S n + m)%nat with (n + Datatypes.S m)%nat by lia.
  rewrite (IH (Datatypes.S m) B1 (j - 1) true HB1 H1 ltac:(lia) ltac:(by right)). cbn [merge_blocks].
  assert (Hbud : buddy_of a (j - 1) = a + SZ (j - 1)).
  { apply buddy_low; [lia|]. replace (j - 1 + 1) with j by lia. done. }
  rewrite Hbud. rewrite decide_True.
  2: { split; [lia|]. unfold B1. rewrite lookup_insert_ne by lia. apply lookup_insert_eq. }
  rewrite Z.min_l by lia. replace (j - 1 + 1) with j by lia. apply merge_self; [|lia|done].
  apply map_eq. intros c. unfold B1. repeat rewrite ?lookup_delete, ?lookup_insert.
  repeat case_decide; try done; congruence.
Qed.

Lemma release_take B a j e : pool_ok B → coalesced B → B !! a = Some (j, true) → 0 <= e <= j →
  release_block (take_block a j e B) a e = B.
Proof.
  intros HB HC Ha He. destruct (po_block B HB _ _ _ Ha) as (Hj & _ & _ & Hal).
  unfold release_block, take_block.
  pose proof (merge_split (Z.to_nat (j - e)) (Z.to_nat (BUDDY_ENTRIES - 1) - Z.to_nat (j - e)) B a j true false
    HB Ha ltac:(lia) ltac:(by right)) as Hm.
  replace (j - Z.of_nat (Z.to_nat (j - e))) with e in Hm by lia.
  replace (Z.to_nat (j - e) + (Z.to_nat (BUDDY_ENTRIES - 1) - Z.to_nat (j - e)))%nat
    with (Z.to_nat (BUDDY_ENTRIES - 1)) in Hm by lia.
  rewrite Hm, merge_stop; [by apply insert_id|]. intros [H1 H2]. by apply (HC a j Ha H1).
Qed.

(** The rest of the merging, from a state of the loop. *)
Definition coalesced_but (B : blocks) (a : Z) : Prop :=
  ∀ c k, c ≠ a → B !! c = Some (k, true) → k < BUDDY_ENTRIES - 1 → buddy_of c k ≠ a →
    B !! buddy_of c k ≠ Some (k, true).

Lemma stop_coalesced B a e f : pool_ok B → B !! a = Some (e, f) → coalesced_but B a →
  ¬ (e < BUDDY_ENTRIES - 1 ∧ B !! buddy_of a e = Some (e, true)) → coalesced (<[a := (e, true)]> B).
Proof.
  intros HB Ha HC Hno c k Hc Hk Hb. destruct (po_block B HB _ _ _ Ha) as (He & _ & _ & Hal).
  destruct (buddy_cases a e ltac:(lia) Hal) as (_ & _ & _ & Hinv). pose proof (buddy_ne a e ltac:(lia) Hal).
  destruct (decide (c = a)) as [->|Hca].
  - rewrite lookup_insert_eq in Hc. injection Hc as <-. rewrite lookup_insert_ne in Hb by congruence. by apply Hno.
  - rewrite lookup_insert_ne in Hc by congruence. destruct (decide (buddy_of c k = a)) as [E|Hne].
    + rewrite E, lookup_insert_eq in Hb. injection Hb as ->. apply Hno. split; [done|].
      destruct (po_block B HB _ _ _ Hc) as (Hk0 & _ & _ & Hcal).
      destruct (buddy_cases c k ltac:(lia) Hcal) as (_ & _ & _ & Hcinv). by rewrite <- E, Hcinv.
    + rewrite lookup_insert_ne in Hb by congruence. by apply (HC c k).
Qed.

Lemma merge_ok n B a e f : pool_ok B → B !! a = Some (e, f) → coalesced_but B a →
  BUDDY_ENTRIES - 1 - e <= Z.of_nat n →
  pool_ok (merge_blocks n B a e) ∧ coalesced (merge_blocks n B a e).
Proof.
  revert B a e f. induction n as [|n IH]; intros B a e f HB Ha HC Hn.
  - rewrite merge_stop by lia. split; [by apply (po_flag _ _ _ f)|]. apply (stop_coalesced B a e f); [done..|lia].
  - destruct (decide (e < BUDDY_ENTRIES - 1 ∧ B !! buddy_of a e = Some (e, true))) as [[Hlt Hb]|Hno].
    2: { rewrite merge_stop by done. split; [by apply (po_flag _ _ _ f)|]. by apply (stop_coalesced B a e f). }
    destruct (po_block B HB _ _ _ Ha) as (He & _ & _ & Hal).
    destruct (buddy_cases a e ltac:(lia) Hal) as (Hmin & Hab & _).
    pose proof (po_merge B a e f true true HB Ha Hb Hlt) as HB1.
    cbn [merge_blocks]. rewrite decide_True by done. set (m := Z.min a (buddy_of a e)) in *.
    rewrite (merge_self n _ (<[m := (e + 1, true)]> (delete (buddy_of a e) (delete a B)))); [|by rewrite delete_insert_eq|lia|done].
    apply (IH _ _ _ true HB1); [apply lookup_insert_eq| |lia].
    intros c k Hc Hck Hk Hne. rewrite lookup_insert_ne in * by congruence.
    apply lookup_delete_Some in Hck as [Hcb Hck]. apply lookup_delete_Some in Hck as [Hca Hck].
    intros Hx. apply lookup_delete_Some in Hx as [Hx1 Hx]. apply lookup_delete_Some in Hx as [Hx2 Hx].
    by apply (HC c k).
Qed.

Lemma release_ok B a e f : pool_ok B → B !! a = Some (e, f) → coalesced B →
  pool_ok (release_block B a e) ∧ coalesced (release_block B a e).
Proof.
  intros HB Ha HC. apply (merge_ok _ B a e f); [done|done| |].
  - intros c k Hc Hck Hk Hne. by apply HC.
  - apply po_block in Ha; [|done]. lia.
Qed.

(** Freeing a block leaves the other allocated blocks as they are. *)
Lemma merge_live n B a e c k f : pool_ok B → B !! a = Some (e, f) → c ≠ a → B !! c = Some (k, false) →
  merge_blocks n B a e !! c = Some (k, false).
Proof.
  revert B a e f. induction n as [|n IH]; intros B a e f HB Ha Hne Hc; [cbn; by rewrite lookup_insert_ne|].
  cbn [merge_blocks]. case_decide as H; [|by rewrite lookup_insert_ne]. destruct H as [Hlt Hb].
  destruct (po_block B HB _ _ _ Ha) as (He & _ & _ & Hal).
  destruct (buddy_cases a e ltac:(lia) Hal) as (Hmin & Hab & _).
  pose proof (po_merge B a e f true true HB Ha Hb Hlt) as HB1. set (m := Z.min a (buddy_of a e)) in *.
  assert (Hcb : c ≠ buddy_of a e) by (intros ->; rewrite Hb in Hc; discriminate).
  rewrite (merge_self n _ (<[m := (e + 1, true)]> (delete (buddy_of a e) (delete a B)))); [|by rewrite delete_insert_eq|lia|done].
  apply (IH _ _ _ true HB1); [apply lookup_insert_eq|unfold m; lia|].
  rewrite lookup_insert_ne by (unfold m; lia). by rewrite !lookup_delete_ne by done.
Qed.
