(* ===== verification/MallocSpec.v ===== *)
(** * The heap implements the buddy system

    The representation of the blocks of Buddy.v in the memory and the buckets
    of Malloc.v, what each operation of malloc.c does to it, and the
    properties of [malloc] and [free]. *)

From S2P Require Import Prelude Layout Spinlock Physical Mmu Paging Kernel Screen CList Malloc Buddy.

Local Open Scope Z_scope.
Local Open Scope c_scope.

(** ** Free lists in memory *)

(** Where a block can start. *)
Definition chunk (a : Z) : Prop :=
  MALLOC_BASE <= a ∧ a + 32 <= MALLOC_END ∧ (32 | a - MALLOC_BASE).

Definition bucket_index (e : Z) : Prop := 0 <= e < BUDDY_ENTRIES.

(** [bsystem] is aligned and lies outside the pool. *)
Definition bsystem_ok (bs : Z) : Prop :=
  (8 | bs) ∧ 0 <= bs ∧ bs + BUDDY_ENTRIES * BUCKET_SIZE <= 2 ^ 64 ∧
  (bs + BUDDY_ENTRIES * BUCKET_SIZE <= MALLOC_BASE ∨ MALLOC_END <= bs).

(** Bucket [e] has the list [fl e]. *)
Record mem_lists (m : store) (bs : Z) (fl : Z → list Z) : Prop := MemLists {
  ml_regions : st_regions m = [(MALLOC_BASE, MALLOC_END); (bs, bs + BUDDY_ENTRIES * BUCKET_SIZE)];
  ml_bsystem : bsystem_ok bs;
  ml_list e : bucket_index e → dlist m (bs + BUCKET_SIZE * e) (fl e);
  ml_nodup e : bucket_index e → NoDup (fl e);
  ml_chunk e a : bucket_index e → a ∈ fl e → chunk a;
  ml_apart e e' a : bucket_index e → bucket_index e' → a ∈ fl e → a ∈ fl e' → e = e'
}.

(** The buckets have the counts [cnt]. *)
Definition bk_ok (l : list bucket) (cnt : Z → Z) : Prop :=
  length l = Z.to_nat BUDDY_ENTRIES ∧
  ∀ e, bucket_index e → l !! Z.to_nat e = Some (Bucket (cnt e) (SZ e)).

Definition fupd {A} (f : Z → A) (e : Z) (x : A) : Z → A := fun k => if k =? e then x else f k.

Lemma fupd_eq {A} (f : Z → A) e x : fupd f e x e = x.
Proof. unfold fupd. by rewrite Z.eqb_refl. Qed.
Lemma fupd_ne {A} (f : Z → A) e x k : k ≠ e → fupd f e x k = f k.
Proof. intros Hne. unfold fupd. by destruct (Z.eqb_spec k e). Qed.

(** The bytes of the pool outside [P] are the same. *)
Definition frame (P : Z → Prop) (m m' : store) : Prop :=
  ∀ b, MALLOC_BASE <= b < MALLOC_END → ¬ P b → byte m' b = byte m b.

Definition in_nodes (l : list Z) (b : Z) : Prop := ∃ p, p ∈ l ∧ p <= b < p + 16.

Lemma frame_trans P Q m1 m2 m3 : frame P m1 m2 → frame Q m2 m3 → frame (fun b => P b ∨ Q b) m1 m3.
Proof. intros H1 H2 b Hb Hn. rewrite H2, H1; [done|done|tauto|done|tauto]. Qed.
Lemma frame_weaken (P Q : Z → Prop) m m' : frame P m m' → (∀ b, P b → Q b) → frame Q m m'.
Proof. intros H HPQ b Hb Hn. apply H; auto. Qed.
Lemma frame_refl P m : frame P m m.
Proof. intros b _ _. done. Qed.

(** The accessible memory. *)
Definition heap_layout (m : store) (bs : Z) : Prop :=
  st_regions m = [(MALLOC_BASE, MALLOC_END); (bs, bs + BUDDY_ENTRIES * BUCKET_SIZE)] ∧ bsystem_ok bs.

Lemma layout_valid m bs a : heap_layout m bs → (8 | a) → bs <= a → a + 8 <= bs + BUDDY_ENTRIES * BUCKET_SIZE →
  valid m a = true.
Proof.
  intros [Hreg _] [k ->] Hlo Hhi. unfold valid. rewrite Z.mod_mul, Z.eqb_refl by lia.
  rewrite Hreg. cbn [existsb]. unfold in_region at 2. cbn [fst snd].
  rewrite (proj2 (Z.leb_le _ _) Hlo), (proj2 (Z.leb_le _ _) Hhi). apply orb_true_r.
Qed.

Lemma layout_head m bs e : heap_layout m bs → bucket_index e → node m (bs + BUCKET_SIZE * e).
Proof.
  intros Hlay He. unfold bucket_index in He. destruct (proj2 Hlay) as ((k & Hk) & Hlo & Hhi & _).
  unfold BUCKET_SIZE in *. assert (8 | bs + 24 * e) by (exists (k + 3 * e); lia).
  split; [apply (layout_valid m bs); unfold BUCKET_SIZE; (done || lia)|]. split; [|lia].
  apply (layout_valid m bs); unfold BUCKET_SIZE; [done| |lia|lia]. apply Z.divide_add_r; [done|by exists 1].
Qed.

Section lists.
Context (m : store) (bs : Z) (fl : Z → list Z) (Hm : mem_lists m bs fl).

Lemma pool_valid a : (8 | a) → MALLOC_BASE <= a → a + 8 <= MALLOC_END → valid m a = true.
Proof using Hm.
  intros [k ->] Hlo Hhi. unfold valid. rewrite Z.mod_mul, Z.eqb_refl by lia.
  rewrite (ml_regions _ _ _ Hm). cbn [existsb]. unfold in_region at 1. cbn [fst snd].
  rewrite (proj2 (Z.leb_le _ _) Hlo), (proj2 (Z.leb_le _ _) Hhi). done.
Qed.

Lemma base_8 : (8 | MALLOC_BASE).
Proof. by exists 0xC0000. Qed.

Lemma chunk_8 a : chunk a → (8 | a).
Proof using. intros (_ & _ & k & Hk). destruct base_8 as [j Hj]. exists (4 * k + j). lia. Qed.

Lemma chunk_node a : chunk a → node m a.
Proof using Hm.
  intros Hc. pose proof (chunk_8 a Hc) as H8. destruct Hc as (Hlo & Hhi & _).
  split; [apply pool_valid; [done|lia|lia]|]. split; [|unfold MALLOC_BASE in *; change MALLOC_END with 0xA00000 in *; lia].
  apply pool_valid; [|lia|lia]. apply Z.divide_add_r; [done|by exists 1].
Qed.

Lemma head_node e : bucket_index e → node m (bs + BUCKET_SIZE * e).
Proof using Hm. apply layout_head. split; [apply (ml_regions _ _ _ Hm)|apply (ml_bsystem _ _ _ Hm)]. Qed.

Lemma chunks_apart a b : chunk a → chunk b → a = b ∨ a + 32 <= b ∨ b + 32 <= a.
Proof using. intros (_ & _ & i & Hi) (_ & _ & j & Hj). destruct (Z.eq_dec i j); [left|right]; lia. Qed.

Lemma head_apart e a : bucket_index e → chunk a → apart (bs + BUCKET_SIZE * e) a.
Proof using Hm.
  intros He (Hlo & Hhi & _). unfold bucket_index in He. pose proof (ml_bsystem _ _ _ Hm) as (_ & _ & _ & Hd).
  unfold apart, BUCKET_SIZE in *. lia.
Qed.

(** The nodes of one list, and a chunk that may be added. *)
Lemma list_nodes e (l : list Z) : bucket_index e → (∀ a, a ∈ l → chunk a) → nodes m (bs + BUCKET_SIZE * e :: l).
Proof using Hm.
  intros He Hl. split.
  - rewrite Forall_forall. intros p Hp. apply elem_of_cons in Hp as [->|Hp]; [by apply head_node|by apply chunk_node, Hl].
  - intros p q Hp Hq. apply elem_of_cons in Hp as [->|Hp], Hq as [->|Hq].
    + by left.
    + right. apply head_apart; [done|by apply Hl].
    + right. pose proof (head_apart e p He (Hl p Hp)). unfold apart in *. lia.
    + destruct (chunks_apart p q (Hl p Hp) (Hl q Hq)) as [->|]; [by left|right; unfold apart; lia].
Qed.

Lemma head_notin e (l : list Z) : bucket_index e → (∀ a, a ∈ l → chunk a) → bs + BUCKET_SIZE * e ∉ l.
Proof using Hm.
  intros He Hl Hin. pose proof (head_apart e _ He (Hl _ Hin)) as Ha. unfold apart in Ha. lia.
Qed.

(** A store that differs in the nodes of one list only keeps the other lists. *)
Lemma other_list m' e k (l : list Z) : bucket_index e → bucket_index k → k ≠ e → (∀ a, a ∈ l → chunk a) →
  (∀ a, a ∈ l → a ∉ fl k) → same_but m m' (bs + BUCKET_SIZE * e :: l) →
  dlist m' (bs + BUCKET_SIZE * k) (fl k).
Proof using Hm.
  intros He Hk Hne Hl Hsep [_ Hsame]. apply (dlist_same m); [by apply (ml_list _ _ _ Hm)|].
  assert (Hap : ∀ p q, p ∈ bs + BUCKET_SIZE * k :: fl k → q ∈ bs + BUCKET_SIZE * e :: l → apart p q).
  { intros p q Hp Hq. apply elem_of_cons in Hp as [->|Hp], Hq as [->|Hq].
    - unfold bucket_index, apart, BUCKET_SIZE in *. lia.
    - apply head_apart; [done|by apply Hl].
    - pose proof (head_apart e p He (ml_chunk _ _ _ Hm k p Hk Hp)). unfold apart in *. lia.
    - destruct (chunks_apart p q (ml_chunk _ _ _ Hm k p Hk Hp) (Hl q Hq)) as [->|]; [|unfold apart; lia].
      by destruct (Hsep q Hq). }
  intros p Hp. unfold nxt, prv. split; apply Hsame; intros (q & Hq & Hc);
    specialize (Hap p q Hp Hq); unfold apart in Hap; lia.
Qed.

Lemma same_but_frame m' e (l : list Z) : bucket_index e → (∀ a, a ∈ l → chunk a) →
  same_but m m' (bs + BUCKET_SIZE * e :: l) → frame (in_nodes l) m m'.
Proof using Hm.
  intros He Hl [_ Hsame] b Hb Hn. apply byte_same, Hsame. intros (p & Hp & Hc).
  pose proof (Z.mod_pos_bound b 8 ltac:(lia)). unfold word_at in Hc.
  apply elem_of_cons in Hp as [->|Hp].
  - unfold bucket_index in He. pose proof (ml_bsystem _ _ _ Hm) as ((j & Hj) & _ & _ & Hd). destruct base_8 as [i Hi].
    change MALLOC_END with (MALLOC_BASE + 0x400000) in *. unfold BUCKET_SIZE, BUDDY_ENTRIES, BUDDY_MAX_ORDER, BUDDY_MIN_ORDER in *. lia.
  - apply Hn. exists p. split; [done|]. destruct (chunk_8 p (Hl p Hp)) as [j Hj]. 
    pose proof (Z.div_mod b 8 ltac:(lia)). lia.
Qed.
End lists.

Lemma same_but_incl m m' (l l' : list Z) : same_but m m' l → (∀ p, p ∈ l → p ∈ l') → same_but m m' l'.
Proof.
  intros [Hr Hs] Hi. split; [done|]. intros a Ha. apply Hs. intros (p & Hp & Hc). apply Ha. exists p. auto.
Qed.

Lemma del_lists m bs fl e l1 x l2 : mem_lists m bs fl → bucket_index e → fl e = l1 ++ x :: l2 →
  ∃ m', list_del m x = Ok m' ∧ mem_lists m' bs (fupd fl e (l1 ++ l2)) ∧ frame (in_nodes (l1 ++ l2)) m m'.
Proof.
  intros Hm He Hfl.
  assert (Hc : ∀ a, a ∈ l1 ++ x :: l2 → chunk a) by (rewrite <- Hfl; intros a; by apply (ml_chunk _ _ _ Hm)).
  assert (Hsub : ∀ a, a ∈ l1 ++ l2 → a ∈ l1 ++ x :: l2).
  { intros a. rewrite !elem_of_app, elem_of_cons. tauto. }
  assert (Hc' : ∀ a, a ∈ l1 ++ l2 → chunk a) by auto.
  pose proof (ml_nodup _ _ _ Hm e He) as Hd. rewrite Hfl in Hd.
  destruct (list_del_ok m (bs + BUCKET_SIZE * e) l1 x l2) as (m' & E & Hl & Hsame).
  - by apply (list_nodes m bs fl Hm).
  - apply NoDup_cons. split; [by apply (head_notin m bs fl Hm)|done].
  - rewrite <- Hfl. by apply (ml_list _ _ _ Hm).
  - exists m'. split; [done|]. split; [|by apply (same_but_frame m bs fl Hm m' e)].
    assert (Hk : ∀ k a, bucket_index k → a ∈ fupd fl e (l1 ++ l2) k → a ∈ fl k).
    { intros k a Hk. destruct (Z.eq_dec k e) as [->|]; [rewrite fupd_eq, Hfl; auto|by rewrite fupd_ne]. }
    split.
    + rewrite (proj1 Hsame). apply (ml_regions _ _ _ Hm).
    + apply (ml_bsystem _ _ _ Hm).
    + intros k Hkb. destruct (Z.eq_dec k e) as [->|Hne]; [by rewrite fupd_eq|]. rewrite fupd_ne by done.
      apply (other_list m bs fl Hm m' e k (l1 ++ l2)); try done. intros a Ha Ha'.
      apply Hne. apply (ml_apart _ _ _ Hm k e a); try done. rewrite Hfl. auto.
    + intros k Hkb. destruct (Z.eq_dec k e) as [->|Hne]; [|rewrite fupd_ne by done; by apply (ml_nodup _ _ _ Hm)].
      rewrite fupd_eq. by apply (nodup_split l1 x l2).
    + intros k a Hkb Ha. apply (ml_chunk _ _ _ Hm k); auto.
    + intros k k' a Hkb Hkb' Ha Ha'. apply (ml_apart _ _ _ Hm k k' a); auto.
Qed.

Lemma add_lists m bs fl e x : mem_lists m bs fl → bucket_index e → chunk x →
  (∀ k, bucket_index k → x ∉ fl k) →
  ∃ m', list_add m x (bs + BUCKET_SIZE * e) = Ok m' ∧ mem_lists m' bs (fupd fl e (x :: fl e)) ∧
    frame (in_nodes (x :: fl e)) m m'.
Proof.
  intros Hm He Hx Hnot.
  assert (Hc : ∀ a, a ∈ x :: fl e → chunk a).
  { intros a Ha. apply elem_of_cons in Ha as [->|Ha]; [done|by apply (ml_chunk _ _ _ Hm e)]. }
  assert (Hd : NoDup (x :: fl e)) by (apply NoDup_cons; split; [by apply Hnot|by apply (ml_nodup _ _ _ Hm)]).
  assert (Hperm : ∀ p, p ∈ x :: bs + BUCKET_SIZE * e :: fl e ↔ p ∈ bs + BUCKET_SIZE * e :: x :: fl e).
  { intros p. rewrite !elem_of_cons. tauto. }
  destruct (list_add_ok m (bs + BUCKET_SIZE * e) (fl e) x) as (m' & E & Hl & Hsame).
  - apply (nodes_sub m (bs + BUCKET_SIZE * e :: x :: fl e)); [by apply (list_nodes m bs fl Hm)|]. intros p. apply Hperm.
  - pose proof (head_notin m bs fl Hm e _ He Hc) as Hh. rewrite !NoDup_cons, !elem_of_cons in *.
    destruct Hd as [Hd1 Hd2]. split; [intros [->|]; tauto|]. split; [tauto|done].
  - by apply (ml_list _ _ _ Hm).
  - exists m'. split; [done|].
    assert (Hsame' : same_but m m' (bs + BUCKET_SIZE * e :: x :: fl e)).
    { apply (same_but_incl _ _ _ _ Hsame). intros p. apply Hperm. }
    split; [|by apply (same_but_frame m bs fl Hm m' e)].
    assert (Hk : ∀ k a, bucket_index k → a ∈ fupd fl e (x :: fl e) k → a ∈ fl k ∨ k = e ∧ a = x).
    { intros k a Hk. destruct (Z.eq_dec k e) as [->|]; [rewrite fupd_eq, elem_of_cons; tauto|rewrite fupd_ne by done; tauto]. }
    split.
    + rewrite (proj1 Hsame). apply (ml_regions _ _ _ Hm).
    + apply (ml_bsystem _ _ _ Hm).
    + intros k Hkb. destruct (Z.eq_dec k e) as [->|Hne]; [by rewrite fupd_eq|]. rewrite fupd_ne by done.
      apply (other_list m bs fl Hm m' e k (x :: fl e)); try done. intros a Ha Ha'.
      apply elem_of_cons in Ha as [->|Ha]; [by apply (Hnot k)|]. apply Hne. by apply (ml_apart _ _ _ Hm k e a).
    + intros k Hkb. destruct (Z.eq_dec k e) as [->|Hne]; [by rewrite fupd_eq|].
      rewrite fupd_ne by done. by apply (ml_nodup _ _ _ Hm).
    + intros k a Hkb Ha. apply Hk in Ha as [Ha|[-> ->]]; [by apply (ml_chunk _ _ _ Hm k)|done|done].
    + intros k k' a Hkb Hkb' Ha Ha'. apply Hk in Ha as [Ha|[-> ->]]; apply Hk in Ha' as [Ha'|[-> Hax]]; try done.
      * by apply (ml_apart _ _ _ Hm k k' a).
      * subst a. by destruct (Hnot k Hkb).
      * by destruct (Hnot k' Hkb').
Qed.

Lemma word_at_pool b : MALLOC_BASE <= b < MALLOC_END →
  (8 | word_at b) ∧ MALLOC_BASE <= word_at b ∧ word_at b + 8 <= MALLOC_END.
Proof.
  intros Hb. pose proof (Z.mod_pos_bound b 8 ltac:(lia)).
  assert (H8 : (8 | word_at b)) by (exists (b / 8); unfold word_at; pose proof (Z.div_mod b 8); lia).
  split; [done|]. destruct base_8 as [i Hi], H8 as [j Hj]. change MALLOC_END with (8 * 0x140000) in *.
  unfold word_at in *. lia.
Qed.

Lemma pool_byte m bs fl b : mem_lists m bs fl → MALLOC_BASE <= b < MALLOC_END → valid m (word_at b) = true.
Proof. intros Hm Hb. destruct (word_at_pool b Hb) as (H8 & Hlo & Hhi). by apply (pool_valid m bs fl Hm). Qed.

Lemma byte_lists m bs fl b v : mem_lists m bs fl → MALLOC_BASE <= b < MALLOC_END → is_u8 v →
  (∀ e a, bucket_index e → a ∈ fl e → ¬ (a <= b < a + 16)) →
  st8 m b v = Ok (upd8 m b v) ∧ mem_lists (upd8 m b v) bs fl ∧ frame (fun x => x = b) m (upd8 m b v) ∧
  byte (upd8 m b v) b = v.
Proof.
  intros Hm Hb Hv Hout. pose proof (Z.mod_pos_bound b 8 ltac:(lia)). destruct base_8 as [i Hi].
  destruct (word_at_pool b Hb) as (H8 & Hw).
  split; [by apply st8_ok, (pool_byte m bs fl)|]. split; [|split].
  - destruct Hm as [Hr Hbs Hl Hn Hc Ha]. split; try done. intros e He.
    apply (dlist_same m); [by apply Hl|]. intros p Hp. unfold nxt, prv.
    assert (word_at b ≠ p ∧ word_at b ≠ p + 8) as [N1 N2].
    { apply elem_of_cons in Hp as [->|Hp].
      - destruct Hbs as ((j & Hj) & _ & _ & Hd). unfold bucket_index, BUCKET_SIZE in *. lia.
      - specialize (Hout e p He Hp). specialize (Hc e p He Hp). destruct Hc as (_ & _ & j & Hj). unfold word_at in *. lia. }
    by rewrite !word_upd8.
  - intros x Hx Hne. rewrite byte_upd8. by destruct (Z.eqb_spec b x).
  - rewrite byte_upd8, Z.eqb_refl. by apply Z.mod_small.
Qed.

(** ** Counts *)

Lemma bk_get h cnt e : bk_ok (h_buckets h) cnt → bucket_index e → bsystem h e = Ok (Bucket (cnt e) (SZ e)).
Proof.
  intros [_ Hb] He. unfold bsystem, list_get. unfold bucket_index in *. destruct (Z.ltb_spec e 0); [lia|].
  by rewrite Hb.
Qed.

Lemma bk_fault h cnt e : bk_ok (h_buckets h) cnt → BUDDY_ENTRIES <= e → bsystem h e = Fault.
Proof.
  intros [Hl _] He. apply list_get_fault. rewrite Hl. change (Z.of_nat (Z.to_nat BUDDY_ENTRIES)) with BUDDY_ENTRIES. lia.
Qed.

Lemma bk_count l cnt e d : bk_ok l cnt → bucket_index e → is_u32 (cnt e + d) →
  ∃ l', (∀ m bs base lk sc, add_count (Heap m bs l base lk sc) e d = Ok (Heap m bs l' base lk sc)) ∧
    bk_ok l' (fupd cnt e (cnt e + d)).
Proof.
  intros Hb He Hd. exists (<[Z.to_nat e := Bucket (cnt e + d) (SZ e)]> l).
  assert (Hin : 0 <= e < Z.of_nat (length l)).
  { destruct Hb as [-> _]. unfold bucket_index in He. change (Z.of_nat (Z.to_nat BUDDY_ENTRIES)) with BUDDY_ENTRIES. lia. }
  split.
  - intros m bs base lk sc. unfold add_count, set_count.
    rewrite (bk_get (Heap m bs l base lk sc) cnt e Hb He), !bind_ok. cbn [count size].
    rewrite u32_id by done. cbn [h_buckets]. by rewrite list_set_ok.
  - destruct Hb as [Hl Hb]. split; [by rewrite length_insert|]. intros k Hk. unfold bucket_index in Hk, He.
    destruct (Z.eq_dec k e) as [->|Hne].
    + rewrite fupd_eq. apply list_lookup_insert_eq. lia.
    + rewrite fupd_ne by done. rewrite list_lookup_insert_ne by lia. by apply Hb.
Qed.

Lemma ml_ext m bs fl fl' : mem_lists m bs fl → (∀ e, bucket_index e → fl e = fl' e) → mem_lists m bs fl'.
Proof.
  intros [H1 H2 H3 H4 H5 H6] He. split; [done|done| | | |].
  - intros e Hb. rewrite <- He by done. by apply H3.
  - intros e Hb. rewrite <- He by done. by apply H4.
  - intros e a Hb. rewrite <- He by done. by apply H5.
  - intros e e' a Hb Hb'. rewrite <- (He e), <- (He e') by done. by apply H6.
Qed.

Lemma bk_ext l cnt cnt' : bk_ok l cnt → (∀ e, bucket_index e → cnt e = cnt' e) → bk_ok l cnt'.
Proof. intros [Hl Hb] He. split; [done|]. intros e Hi. by rewrite <- He, Hb. Qed.

(** There are at most 2^17 chunks. *)
Lemma chunks_bound (l : list Z) : NoDup l → (∀ a, a ∈ l → chunk a) → Z.of_nat (length l) <= 2 ^ 17.
Proof.
  intros Hd Hc. assert (Hsub : l ⊆+ ((fun i => MALLOC_BASE + 32 * i) <$> seqZ 0 (2 ^ 17))).
  { apply NoDup_submseteq; [done|]. intros a Ha. destruct (Hc a Ha) as (Hlo & Hhi & k & Hk).
    apply list_elem_of_fmap. exists k. split; [lia|]. apply elem_of_seqZ.
    change MALLOC_END with (MALLOC_BASE + 32 * 2 ^ 17) in Hhi. lia. }
  apply submseteq_length in Hsub. rewrite length_fmap, length_seqZ in Hsub. lia.
Qed.

Lemma lists_bound m bs fl e : mem_lists m bs fl → bucket_index e → Z.of_nat (length (fl e)) <= 2 ^ 17.
Proof.
  intros Hm He. apply chunks_bound; [by apply (ml_nodup _ _ _ Hm)|]. intros a. by apply (ml_chunk _ _ _ Hm).
Qed.

(** ** Splitting *)

Definition lengths (fl : Z → list Z) : Z → Z := fun e => Z.of_nat (length (fl e)).

Definition tag_place (b : Z) : Prop := MALLOC_BASE <= b < MALLOC_END ∧ (32 | b + 1 - MALLOC_BASE).

Lemma tag_outside b p : tag_place b → chunk p → ¬ (p <= b < p + 16).
Proof. intros [_ [i Hi]] (_ & _ & j & Hj). lia. Qed.

Lemma SZ_32 e : 0 <= e → (32 | SZ e).
Proof. intros He. change 32 with (SZ 0). apply SZ_div. lia. Qed.

Lemma block_chunk a e : bucket_index e → MALLOC_BASE <= a → a + SZ e <= MALLOC_END → (SZ e | a - MALLOC_BASE) →
  chunk a ∧ tag_place (a + SZ e - 1).
Proof.
  intros He Hlo Hhi Hal. unfold bucket_index in He. pose proof (SZ_min e ltac:(lia)). pose proof (SZ_32 e ltac:(lia)) as H32.
  assert (32 | a - MALLOC_BASE) by (by apply (Z.divide_trans _ (SZ e))).
  split; [split; [done|]; split; [lia|done]|]. split; [lia|].
  replace (a + SZ e - 1 + 1 - MALLOC_BASE) with (a - MALLOC_BASE + SZ e) by lia. by apply Z.divide_add_r.
Qed.

Lemma set_mem_eq m bs l base lk sc m' : set_mem (Heap m bs l base lk sc) m' = Heap m' bs l base lk sc.
Proof. reflexivity. Qed.
Lemma on_mem_ok m bs l base lk sc f m' : f m = Ok m' →
  on_mem (Heap m bs l base lk sc) f = Ok (Heap m' bs l base lk sc).
Proof. intros E. unfold on_mem. cbn [h_mem]. by rewrite E. Qed.

Lemma pool_u64 x : MALLOC_BASE <= x <= MALLOC_END → u64 x = x.
Proof. intros Hx. apply u64_id. unfold is_u64, MALLOC_BASE in *. change MALLOC_END with 0xA00000 in Hx. lia. Qed.

Lemma split_lists m bs l lk sc fl a rest j :
  mem_lists m bs fl → bk_ok l (lengths fl) → bucket_index j → 1 <= j → fl j = a :: rest →
  a + SZ j <= MALLOC_END → (SZ j | a - MALLOC_BASE) → (∀ k, bucket_index k → a + SZ (j - 1) ∉ fl k) →
  let b := a + SZ (j - 1) in
  ∃ m' l', buddy_split (Heap m bs l MALLOC_BASE lk sc) j = Ok (Heap m' bs l' MALLOC_BASE lk sc) ∧
    mem_lists m' bs (fupd (fupd fl j rest) (j - 1) (a :: b :: fl (j - 1))) ∧
    bk_ok l' (lengths (fupd (fupd fl j rest) (j - 1) (a :: b :: fl (j - 1)))) ∧
    byte m' (b - 1) = j - 1 ∧ byte m' (a + SZ j - 1) = j - 1 ∧
    frame (fun x => in_nodes (fl j ++ b :: fl (j - 1)) x ∨ x = b - 1 ∨ x = a + SZ j - 1) m m'.
Proof.
  intros Hm Hl Hj Hj1 Hfl Hhi Hal Hnot b.
  assert (Hjm : bucket_index (j - 1)) by (unfold bucket_index in *; lia).
  assert (Ha : chunk a) by (apply (ml_chunk _ _ _ Hm j); [done|rewrite Hfl; left]).
  pose proof (SZ_succ (j - 1) ltac:(lia)) as HS. replace (j - 1 + 1) with j in HS by lia.
  pose proof (SZ_min (j - 1) ltac:(lia)) as Hmin.
  assert (Hal' : (SZ (j - 1) | a - MALLOC_BASE)) by (apply (Z.divide_trans _ (SZ j)); [apply SZ_div; lia|done]).
  destruct (block_chunk a (j - 1) Hjm) as [_ Ht1]; [apply Ha|lia|done|].
  destruct (block_chunk b (j - 1) Hjm) as [Hb Ht2]; [destruct Ha; unfold b; lia|unfold b; lia| |].
  { unfold b. replace (a + SZ (j - 1) - MALLOC_BASE) with (a - MALLOC_BASE + SZ (j - 1)) by lia.
    apply Z.divide_add_r; [done|apply Z.divide_refl]. }
  fold b in Ht1. replace (b + SZ (j - 1) - 1) with (a + SZ j - 1) in Ht2 by (unfold b; lia).
  pose proof (lists_bound m bs fl j Hm Hj) as Bj. pose proof (lists_bound m bs fl (j - 1) Hm Hjm) as Bj1.
  rewrite Hfl in Bj. cbn [length] in Bj.
  destruct (bk_count l (lengths fl) j (-1) Hl Hj) as (l1 & C1 & Hl1).
  { unfold lengths. rewrite Hfl. cbn [length]. unfold is_u32. lia. }
  destruct (del_lists m bs fl j [] a rest Hm Hj Hfl) as (m1 & D1 & M1 & F1). cbn [app] in M1, F1.
  set (fl1 := fupd fl j rest) in *.
  assert (Hne : j - 1 ≠ j) by lia.
  assert (Efl1 : fl1 (j - 1) = fl (j - 1)) by (unfold fl1; by rewrite fupd_ne).
  assert (Hb1 : ∀ k, bucket_index k → b ∉ fl1 k).
  { intros k Hk Hin. apply (Hnot k Hk). unfold fl1, fupd in Hin. destruct (Z.eqb_spec k j) as [->|]; [rewrite Hfl; by right|done]. }
  destruct (bk_count l1 _ (j - 1) 2 Hl1 Hjm) as (l2 & C2 & Hl2).
  { rewrite fupd_ne by done. unfold lengths, is_u32. lia. }
  destruct (add_lists m1 bs fl1 (j - 1) b M1 Hjm Hb Hb1) as (m2 & D2 & M2 & F2).
  set (fl2 := fupd fl1 (j - 1) (b :: fl1 (j - 1))) in *.
  assert (Ha2 : ∀ k, bucket_index k → a ∉ fl2 k).
  { intros k Hk Hin. pose proof (ml_nodup _ _ _ Hm j Hj) as Hd. rewrite Hfl, NoDup_cons in Hd.
    unfold fl2, fl1, fupd in Hin. assert (Haj : a ∈ fl j) by (rewrite Hfl; left).
    destruct (Z.eqb_spec k (j - 1)) as [->|].
    - destruct (Z.eqb_spec (j - 1) j); [lia|]. apply elem_of_cons in Hin as [E|Hin]; [unfold b in E; lia|].
      pose proof (ml_apart _ _ _ Hm _ _ _ Hjm Hj Hin Haj). lia.
    - destruct (Z.eqb_spec k j); [tauto|]. by pose proof (ml_apart _ _ _ Hm _ _ _ Hk Hj Hin Haj). }
  destruct (add_lists m2 bs fl2 (j - 1) a M2 Hjm Ha Ha2) as (m3 & D3 & M3 & F3).
  set (fl3 := fupd fl2 (j - 1) (a :: fl2 (j - 1))) in *.
  assert (Efl3 : fl3 (j - 1) = a :: b :: fl (j - 1)) by (unfold fl3, fl2; by rewrite !fupd_eq, Efl1).
  assert (Hu8 : is_u8 (j - 1)).
  { unfold bucket_index in Hjm. unfold is_u8, BUDDY_ENTRIES, BUDDY_MAX_ORDER, BUDDY_MIN_ORDER in *. lia. }
  assert (Hout : ∀ t, tag_place t → ∀ e x, bucket_index e → x ∈ fl3 e → ¬ (x <= t < x + 16)).
  { intros t Ht e x He Hx. apply (tag_outside t x Ht). by apply (ml_chunk _ _ _ M3 e). }
  destruct (byte_lists m3 bs fl3 (b - 1) (j - 1) M3 (proj1 Ht1) Hu8 (Hout _ Ht1)) as (D4 & M4 & F4 & T4).
  destruct (byte_lists _ bs fl3 (a + SZ j - 1) (j - 1) M4 (proj1 Ht2) Hu8 (Hout _ Ht2)) as (D5 & M5 & F5 & T5).
  eexists _, l2. split; [|split; [|split; [|split; [|split]]]].
  - unfold buddy_split, list_first_entry, ptr. cbn [h_mem h_bsystem].
    pose proof (ml_list _ _ _ Hm j Hj) as Hdl. pose proof (dlist_first _ _ _ Hdl) as Hfirst.
    rewrite Hfl in Hfirst. cbn [hd] in Hfirst.
    rewrite ld_ok, bind_ok by (apply (head_node m bs fl Hm j Hj)). change (word m (bs + BUCKET_SIZE * j)) with (nxt m (bs + BUCKET_SIZE * j)).
    rewrite Hfirst. rewrite (on_mem_ok m bs l MALLOC_BASE lk sc _ m1 D1), bind_ok.
    rewrite C1, bind_ok, C2, bind_ok, (bk_get (Heap m1 bs l2 MALLOC_BASE lk sc) _ (j - 1) Hl2 Hjm), bind_ok. cbn [size h_mem h_bsystem].
    assert (Hr : a + SZ j <= MALLOC_END ∧ MALLOC_BASE <= a) by (destruct Ha; lia).
    rewrite (pool_u64 (a + SZ (j - 1))) by lia. fold b.
    rewrite (on_mem_ok _ _ _ _ _ _ _ m2 D2), bind_ok. cbn [h_bsystem].
    rewrite (on_mem_ok _ _ _ _ _ _ _ m3 D3), bind_ok. rewrite (u8_id (j - 1)) by done.
    rewrite (pool_u64 (b - 1)) by (unfold b; lia). rewrite (on_mem_ok _ _ _ _ _ _ _ _ D4), bind_ok.
    replace (b - 1 + SZ (j - 1)) with (a + SZ j - 1) by (unfold b; lia). rewrite pool_u64 by lia.
    by rewrite (on_mem_ok _ _ _ _ _ _ _ _ D5).
  - apply (ml_ext _ _ fl3); [exact M5|]. intros e He. unfold fl3, fl2, fupd. destruct (Z.eqb_spec e (j - 1)); [|done].
    by rewrite Z.eqb_refl, Efl1.
  - apply (bk_ext _ _ _ Hl2). intros e He. unfold lengths, fl1, fupd.
    destruct (Z.eqb_spec e (j - 1)) as [->|].
    + destruct (Z.eqb_spec (j - 1) j); [lia|]. cbn [length]. lia.
    + destruct (Z.eqb_spec e j) as [->|]; [|done]. rewrite Hfl. cbn [length]. lia.
  - etransitivity; [|exact T4]. apply F5; [apply Ht1|]. unfold b. lia.
  - exact T5.
  - assert (Hin : ∀ L b, (∀ p, p ∈ L → p ∈ fl j ++ a + SZ (j - 1) :: fl (j - 1)) → in_nodes L b →
      in_nodes (fl j ++ a + SZ (j - 1) :: fl (j - 1)) b) by (intros L x HL (p & Hp & Hx); exists p; auto).
    apply (frame_weaken _ _ _ _ (frame_trans _ _ _ _ _ (frame_trans _ _ _ _ _ (frame_trans _ _ _ _ _
      (frame_trans _ _ _ _ _ F1 F2) F3) F4) F5)). fold b in Hin.
    intros x [[[[Hx|Hx]|Hx]|Hx]|Hx]; [left; revert Hx; apply Hin..|right; left; exact Hx|right; right; exact Hx].
    + intros p Hp. rewrite Hfl, elem_of_app, elem_of_cons. tauto.
    + intros p Hp. rewrite Efl1, elem_of_cons in Hp. rewrite elem_of_app, elem_of_cons. tauto.
    + intros p Hp. unfold fl2 in Hp. rewrite fupd_eq, Efl1, !elem_of_cons in Hp.
      rewrite Hfl, elem_of_app, !elem_of_cons. tauto.
Qed.

(** ** The representation *)

(** The heap holds the blocks [B], with the free ones in the lists [fl]. *)
Record heap_rep (h : heap) (B : blocks) (fl : Z → list Z) : Prop := HeapRep {
  hr_lists : mem_lists (h_mem h) (h_bsystem h) fl;
  hr_counts : bk_ok (h_buckets h) (lengths fl);
  hr_base : mem_base h = MALLOC_BASE;
  hr_free e a : bucket_index e → a ∈ fl e ↔ B !! a = Some (e, true);
  hr_tag a e (f : bool) : B !! a = Some (e, f) → byte (h_mem h) (a + SZ e - 1) = if f then e else USED;
  hr_pre a e : B !! a = Some (e, false) → byte (h_mem h) a = e;
  hr_pool : pool_ok B
}.

(** The bytes of the allocated blocks are the same. *)
Definition live_same (B : blocks) (m m' : store) : Prop :=
  ∀ c k x, B !! c = Some (k, false) → c <= x < c + SZ k → byte m' x = byte m x.

Lemma live_same_trans B B' m1 m2 m3 : live_same B m1 m2 → live_same B' m2 m3 →
  (∀ c k, B !! c = Some (k, false) → B' !! c = Some (k, false)) → live_same B m1 m3.
Proof. intros H1 H2 HB c k x Hc Hx. rewrite (H2 c k x), (H1 c k x); auto. Qed.

Section rep.
Context (h : heap) (B : blocks) (fl : Z → list Z) (Hr : heap_rep h B fl).

Lemma rep_block a e f : B !! a = Some (e, f) →
  bucket_index e ∧ MALLOC_BASE <= a ∧ a + SZ e <= MALLOC_END ∧ (SZ e | a - MALLOC_BASE) ∧
  chunk a ∧ tag_place (a + SZ e - 1).
Proof using Hr.
  intros Ha. destruct (po_block B (hr_pool _ _ _ Hr) _ _ _ Ha) as (He & Hlo & Hhi & Hal).
  destruct (block_chunk a e He Hlo Hhi Hal). by split_and!.
Qed.

Lemma rep_index a e f : B !! a = Some (e, f) → bucket_index e.
Proof using Hr. intros Ha. by apply rep_block in Ha as [? _]. Qed.

(** The bytes of a block are not in the nodes of the others. *)
Lemma rep_outside c k f x : B !! c = Some (k, f) → c <= x < c + SZ k →
  ∀ p e, bucket_index e → p ∈ fl e → p ≠ c → ¬ (p <= x < p + 16).
Proof using Hr.
  intros Hc Hx p e He Hp Hne Hpx. apply (hr_free _ _ _ Hr e p He) in Hp.
  pose proof (SZ_min e ltac:(unfold bucket_index in He; lia)).
  destruct (po_disjoint B (hr_pool _ _ _ Hr) _ _ _ _ _ _ Hp Hc Hne); lia.
Qed.

Lemma rep_live c k x : B !! c = Some (k, false) → c <= x < c + SZ k →
  (∀ p e, bucket_index e → p ∈ fl e → ¬ (p <= x < p + 16)) ∧
  (∀ a e, B !! a = Some (e, true) → ¬ (a <= x < a + SZ e)).
Proof using Hr.
  intros Hc Hx. split.
  - intros p e He Hp. assert (p ≠ c) as Hne.
    { intros ->. apply (hr_free _ _ _ Hr e c He) in Hp. rewrite Hc in Hp. discriminate Hp. }
    by apply (rep_outside c k false x Hc Hx p e).
  - intros a e Ha Hax. assert (a ≠ c) as Hne by (intros ->; rewrite Hc in Ha; discriminate Ha).
    destruct (po_disjoint B (hr_pool _ _ _ Hr) _ _ _ _ _ _ Ha Hc Hne); lia.
Qed.

(** Two blocks do not end at the same place. *)
Lemma rep_end c k f a e g x : B !! c = Some (k, f) → B !! a = Some (e, g) → c ≠ a →
  a <= x < a + SZ e → c + SZ k - 1 ≠ x.
Proof using Hr.
  intros Hc Ha Hne Hx. destruct (rep_block _ _ _ Hc) as (Hk & _). pose proof (SZ_min k ltac:(unfold bucket_index in Hk; lia)).
  destruct (po_disjoint B (hr_pool _ _ _ Hr) _ _ _ _ _ _ Hc Ha Hne); lia.
Qed.

Lemma rep_first e : bucket_index e →
  list_first_entry (h_mem h) (ptr h e) = Ok (hd (ptr h e) (fl e)).
Proof using Hr.
  intros He. unfold list_first_entry. pose proof (hr_lists _ _ _ Hr) as Hm.
  rewrite ld_ok by (apply (head_node _ _ _ Hm e He)). f_equal.
  apply (dlist_first _ _ _ (ml_list _ _ _ Hm e He)).
Qed.

Lemma rep_bucket e : bucket_index e → bsystem h e = Ok (Bucket (Z.of_nat (length (fl e))) (SZ e)).
Proof using Hr. intros He. apply (bk_get h _ e (hr_counts _ _ _ Hr) He). Qed.

Lemma rep_empty e : bucket_index e → (Z.of_nat (length (fl e)) =? 0) = true ↔ fl e = [].
Proof using. intros He. rewrite Z.eqb_eq. destruct (fl e); cbn [length]; split; (done || lia). Qed.

Lemma rep_cons e : bucket_index e → fl e ≠ [] → ∃ a rest, fl e = a :: rest ∧ B !! a = Some (e, true).
Proof using Hr.
  intros He Hne. destruct (fl e) as [|a rest] eqn:E; [done|]. exists a, rest. split; [done|].
  apply (hr_free _ _ _ Hr e a He). rewrite E. left.
Qed.
End rep.

(** The fields that the heap operations leave alone. *)
Definition same_rest (h h' : heap) : Prop :=
  h_bsystem h' = h_bsystem h ∧ mm_lock h' = mm_lock h ∧ h_screen h' = h_screen h.

Lemma same_rest_trans h1 h2 h3 : same_rest h1 h2 → same_rest h2 h3 → same_rest h1 h3.
Proof. intros (? & ? & ?) (? & ? & ?). split_and!; congruence. Qed.

Lemma split_rep h B fl j a rest : heap_rep h B fl → bucket_index j → 1 <= j → fl j = a :: rest →
  ∃ h' fl', buddy_split h j = Ok h' ∧
    heap_rep h' (<[a := (j - 1, true)]> (<[a + SZ (j - 1) := (j - 1, true)]> B)) fl' ∧
    fl' = fupd (fupd fl j rest) (j - 1) (a :: a + SZ (j - 1) :: fl (j - 1)) ∧ live_same B (h_mem h) (h_mem h') ∧ same_rest h h'.
Proof.
  intros Hr Hj Hj1 Hfl.
  assert (Ha : B !! a = Some (j, true)) by (apply (hr_free _ _ _ Hr j a Hj); rewrite Hfl; left).
  destruct (rep_block h B fl Hr _ _ _ Ha) as (_ & Hlo & Hhi & Hal & Hch & _).
  assert (Ha' : B !! a = Some (j - 1 + 1, true)) by (rewrite Ha; repeat f_equal; lia).
  destruct (po_split B a (j - 1) true true true (hr_pool _ _ _ Hr) Ha' ltac:(lia)) as [HB' Hnone].
  pose proof (SZ_succ (j - 1) ltac:(lia)) as HS. replace (j - 1 + 1) with j in HS by lia.
  pose proof (SZ_min (j - 1) ltac:(lia)) as Hmin. set (b := a + SZ (j - 1)) in *.
  destruct h as [m bs l base lk sc]. pose proof (hr_base _ _ _ Hr) as Hbase. cbn [mem_base] in Hbase. subst base.
  destruct (split_lists m bs l lk sc fl a rest j) as (m' & l' & E & Hm' & Hl' & T1 & T2 & F);
    [exact (hr_lists _ _ _ Hr)|exact (hr_counts _ _ _ Hr)|done..| |].
  { intros k Hk Hin. apply (hr_free _ _ _ Hr k _ Hk) in Hin. fold b in Hin. rewrite Hnone in Hin. discriminate Hin. }
  fold b in Hm', Hl', T1, F. set (fl' := fupd (fupd fl j rest) (j - 1) (a :: b :: fl (j - 1))) in *.
  assert (Hjm : bucket_index (j - 1)) by (unfold bucket_index in *; lia).
  assert (Hnodes : ∀ x, in_nodes (fl j ++ b :: fl (j - 1)) x →
    b <= x < b + 16 ∨ ∃ p e, bucket_index e ∧ p ∈ fl e ∧ p <= x < p + 16).
  { intros x (p & Hp & Hx). apply elem_of_app in Hp as [Hp|Hp]; [right; by exists p, j|].
    apply elem_of_cons in Hp as [->|Hp]; [by left|right; by exists p, (j - 1)]. }
  assert (Htags : ∀ c k f, B !! c = Some (k, f) → c ≠ a → byte m' (c + SZ k - 1) = byte m (c + SZ k - 1)).
  { intros c k f Hc Hne. destruct (rep_block _ _ _ Hr _ _ _ Hc) as (Hk & _ & _ & _ & _ & Ht).
    apply F; [apply Ht|]. intros [Hn|[E1|E1]].
    - apply Hnodes in Hn as [Hb|(p & e & He & Hp & Hx)].
      + by apply (rep_end _ _ _ Hr c k f a j true (c + SZ k - 1) Hc Ha Hne); [lia|].
      + apply (tag_outside _ p Ht); [by apply (ml_chunk _ _ _ (hr_lists _ _ _ Hr) e)|done].
    - apply (rep_end _ _ _ Hr c k f a j true _ Hc Ha Hne) in E1; [done|lia].
    - apply (rep_end _ _ _ Hr c k f a j true _ Hc Ha Hne) in E1; [done|lia]. }
  assert (Hlive : live_same B m m').
  { intros c k x Hc Hx. destruct (rep_live _ _ _ Hr c k x Hc Hx) as [L1 L2]. specialize (L2 a j Ha).
    destruct (rep_block _ _ _ Hr _ _ _ Hc) as (_ & Hclo & Hchi & _).
    apply F; [lia|]. intros [Hn|[E1|E1]]; [|lia|lia].
    apply Hnodes in Hn as [Hb|(p & e & He & Hp & Hxp)]; [lia|by apply (L1 p e)]. }
  eexists _, fl'. split; [exact E|]. split; [|split; [|split; [exact Hlive|done]]].
  2: { reflexivity. }
  split; cbn [h_mem h_bsystem h_buckets mem_base]; [done|done|done| | | |done].
  - intros e x He. unfold fl'. destruct (Z.eq_dec e (j - 1)) as [->|Hne].
    + rewrite fupd_eq, !elem_of_cons, !lookup_insert, (hr_free _ _ _ Hr _ x Hjm).
      destruct (decide (a = x)) as [<-|]; [split; [done|by left]|].
      destruct (decide (b = x)) as [<-|]; [split; [done|right; by left]|].
      split; [intros [E1|[E1|?]]; [congruence|congruence|done]|intros ?; right; by right].
    + rewrite fupd_ne, !lookup_insert by done. unfold fupd. destruct (Z.eqb_spec e j) as [->|Hne'].
      * pose proof (hr_free _ _ _ Hr j x Hj) as Hx. rewrite Hfl, elem_of_cons in Hx.
        pose proof (ml_nodup _ _ _ (hr_lists _ _ _ Hr) j Hj) as Hd. rewrite Hfl, NoDup_cons in Hd.
        destruct (decide (a = x)) as [<-|]; [split; [tauto|intros [= E1]; lia]|].
        destruct (decide (b = x)) as [<-|]; [split; [intros Hin; rewrite Hnone in Hx; discriminate (proj1 Hx (or_intror Hin))|intros [= E1]; lia]|].
        rewrite <- Hx. split; [by right|intros [E1|?]; [congruence|done]].
      * rewrite (hr_free _ _ _ Hr e x He).
        destruct (decide (a = x)) as [<-|]; [rewrite Ha; split; intros [= E1]; lia|].
        destruct (decide (b = x)) as [<-|]; [rewrite Hnone; split; [done|intros [= E1]; lia]|done].
  - intros c k f. rewrite !lookup_insert. case_decide as E1; [intros [= <- <-]; subst c; exact T1|].
    case_decide as E2; [intros [= <- <-]; subst c;
    replace (b + SZ (j - 1) - 1) with (a + SZ j - 1) by (unfold b; lia); exact T2|].
    intros Hc. rewrite (Htags c k f) by congruence. by apply (hr_tag _ _ _ Hr).
  - intros c k. rewrite !lookup_insert. case_decide as E1; [done|]. case_decide as E2; [done|].
    intros Hc. rewrite (Hlive c k c Hc) by (apply (rep_block _ _ _ Hr) in Hc as (Hk & _);
      pose proof (SZ_min k ltac:(unfold bucket_index in Hk; lia)); lia).
    by apply (hr_pre _ _ _ Hr).
Qed.

(** ** Allocating *)

Lemma SZ_bound e : bucket_index e → 32 <= SZ e <= 2 ^ 22.
Proof. intros He. unfold bucket_index in He. split; [apply SZ_min; lia|by apply SZ_max]. Qed.

Lemma u8_index e : bucket_index e → is_u8 e.
Proof. unfold bucket_index, is_u8, BUDDY_ENTRIES, BUDDY_MAX_ORDER, BUDDY_MIN_ORDER. lia. Qed.

(** The end of [malloc]: take the first block of a bucket. *)
Definition take_first (h : heap) (entry : Z) : outcome (Z * heap) :=
  blt ← list_first_entry (h_mem h) (ptr h entry);
  h ← on_mem h (fun m => list_del m blt);
  h ← add_count h entry (-1);
  b ← bsystem h entry;
  h ← on_mem h (fun m => st8 m blt entry);
  h ← on_mem h (fun m => st8 m (u64 (blt + size b - 1)) USED);
  Ok (blt +w 8, unlock_heap h).

Lemma take_rep h B fl e a rest : heap_rep h B fl → bucket_index e → fl e = a :: rest →
  ∃ h', take_first h e = Ok (a + 8, unlock_heap h') ∧ heap_rep h' (<[a := (e, false)]> B) (fupd fl e rest) ∧
    live_same B (h_mem h) (h_mem h') ∧ same_rest h h'.
Proof.
  intros Hr He Hfl.
  assert (Ha : B !! a = Some (e, true)) by (apply (hr_free _ _ _ Hr e a He); rewrite Hfl; left).
  destruct (rep_block h B fl Hr _ _ _ Ha) as (_ & Hlo & Hhi & Hal & Hch & Htp).
  pose proof (SZ_bound e He) as Hs. pose proof (rep_first _ _ _ Hr e He) as Hfirst. rewrite Hfl in Hfirst.
  pose proof (hr_lists _ _ _ Hr) as Hm. pose proof (ml_nodup _ _ _ Hm e He) as Hd. rewrite Hfl, NoDup_cons in Hd.
  destruct h as [m bs l base lk sc]. pose proof (hr_base _ _ _ Hr) as Hbase. cbn [mem_base] in Hbase. subst base.
  cbn [h_mem h_bsystem] in *.
  destruct (del_lists m bs fl e [] a rest Hm He Hfl) as (m1 & D1 & M1 & F1). cbn [app] in M1, F1.
  destruct (bk_count l (lengths fl) e (-1) (hr_counts _ _ _ Hr) He) as (l1 & C1 & Hl1).
  { pose proof (lists_bound m bs fl e Hm He). unfold lengths. rewrite Hfl in *. cbn [length] in *. unfold is_u32. lia. }
  set (fl1 := fupd fl e rest) in *.
  assert (Hin1 : ∀ k x, bucket_index k → x ∈ fl1 k → x ∈ fl k ∧ x ≠ a).
  { intros k x Hk Hx. unfold fl1, fupd in Hx. destruct (Z.eqb_spec k e) as [->|Hne].
    - split; [rewrite Hfl; by right|]. intros ->. tauto.
    - split; [done|]. intros ->. apply Hne. apply (ml_apart _ _ _ Hm k e a); [done..|rewrite Hfl; left]. }
  destruct (byte_lists m1 bs fl1 a e M1 ltac:(lia) (u8_index e He)) as (D2 & M2 & F2 & T2).
  { intros k x Hk Hx. apply Hin1 in Hx as [Hx Hne]; [|done].
    by apply (rep_outside _ _ _ Hr a e true a Ha ltac:(lia) x k). }
  destruct (byte_lists _ bs fl1 (a + SZ e - 1) USED M2 ltac:(lia) ltac:(done)) as (D3 & M3 & F3 & T3).
  { intros k x Hk Hx. apply (tag_outside _ x Htp). by apply (ml_chunk _ _ _ M2 k). }
  set (m3 := upd8 (upd8 m1 a e) (a + SZ e - 1) USED) in *.
  assert (F : frame (fun x => in_nodes rest x ∨ x = a ∨ x = a + SZ e - 1) m m3).
  { apply (frame_weaken _ _ _ _ (frame_trans _ _ _ _ _ (frame_trans _ _ _ _ _ F1 F2) F3)). tauto. }
  assert (Hrest : ∀ x, in_nodes rest x → ∃ p, p ∈ fl e ∧ p ≠ a ∧ p <= x < p + 16).
  { intros x (p & Hp & Hx). exists p. split; [rewrite Hfl; by right|]. split; [intros ->; tauto|done]. }
  exists (Heap m3 bs l1 MALLOC_BASE lk sc). fold fl1. split; [|split; [|split; [|done]]].
  - unfold take_first. cbn [h_mem]. rewrite Hfirst, bind_ok. cbn [hd].
    rewrite (on_mem_ok _ _ _ _ _ _ _ m1 D1), bind_ok, C1, bind_ok.
    rewrite (bk_get (Heap m1 bs l1 MALLOC_BASE lk sc) _ e Hl1 He), bind_ok. cbn [size].
    rewrite (on_mem_ok _ _ _ _ _ _ _ _ D2), bind_ok, (pool_u64 (a + SZ e - 1)) by lia.
    rewrite (on_mem_ok _ _ _ _ _ _ _ _ D3), bind_ok, pool_u64 by lia. done.
  - split; cbn [h_mem h_bsystem h_buckets mem_base]; [done| |done| | | |apply (po_flag B a e true); [apply Hr|done]].
    + apply (bk_ext _ _ _ Hl1). intros k Hk. unfold lengths, fl1, fupd. destruct (Z.eqb_spec k e) as [->|]; [|done].
      rewrite Hfl. cbn [length]. lia.
    + intros k x Hk. rewrite lookup_insert. unfold fl1, fupd. pose proof (hr_free _ _ _ Hr k x Hk) as Hx.
      destruct (decide (a = x)) as [<-|Hne].
      * split; [|done]. destruct (Z.eqb_spec k e) as [->|Hke]; [tauto|]. intros Hin. apply Hx in Hin.
        rewrite Ha in Hin. injection Hin as E. by destruct Hke.
      * rewrite <- Hx. destruct (Z.eqb_spec k e) as [->|]; [|done]. rewrite Hfl, elem_of_cons.
        split; [by right|intros [E|?]; [by destruct Hne|done]].
    + intros c k f. rewrite lookup_insert. case_decide as E; [intros [= <- <-]; subst c; exact T3|]. intros Hc.
      destruct (rep_block _ _ _ Hr _ _ _ Hc) as (Hk & _ & _ & _ & _ & Ht). pose proof (SZ_bound k Hk).
      assert (Hne : c ≠ a) by congruence.
      rewrite (F (c + SZ k - 1)); [by apply (hr_tag _ _ _ Hr)|apply Ht|].
      intros [Hn|Hx].
      * apply Hrest in Hn as (p & Hp & _ & Hx). by apply (tag_outside _ p Ht); [apply (ml_chunk _ _ _ Hm e)|].
      * by apply (rep_end _ _ _ Hr c k f a e true (c + SZ k - 1) Hc Ha Hne); [lia|].
    + intros c k. rewrite lookup_insert. case_decide as E; [intros [= <-]; subst c|].
      * etransitivity; [apply F3; lia|exact T2].
      * intros Hc. destruct (rep_block _ _ _ Hr _ _ _ Hc) as (Hk & Hclo & Hchi & _). pose proof (SZ_bound k Hk).
        destruct (rep_live _ _ _ Hr c k c Hc ltac:(lia)) as [L1 L2]. specialize (L2 a e Ha).
        rewrite (F c); [by apply (hr_pre _ _ _ Hr)|lia|]. intros [Hn|Hx]; [|lia].
        apply Hrest in Hn as (p & Hp & _ & Hx). by apply (L1 p e).
  - intros c k x Hc Hx. destruct (rep_block _ _ _ Hr _ _ _ Hc) as (Hk & Hclo & Hchi & _).
    destruct (rep_live _ _ _ Hr c k x Hc Hx) as [L1 L2]. specialize (L2 a e Ha).
    apply F; [lia|]. intros [Hn|Hxa]; [|lia]. apply Hrest in Hn as (p & Hp & _ & Hxp). by apply (L1 p e).
Qed.

(** [next_power2]: the least order, from the smallest, that holds [v]. *)
Lemma next_power2_ok v : 0 <= v <= 2 ^ 31 →
  ∃ c, next_power2 v = Ok c ∧ BUDDY_MIN_ORDER <= c <= 31 ∧ v <= 2 ^ c ∧ (c = BUDDY_MIN_ORDER ∨ 2 ^ (c - 1) < v).
Proof.
  intros Hv. unfold next_power2, BUDDY_MIN_BLK, BUDDY_MIN_ORDER. change (Z.shiftl 1 5) with (2 ^ 5).
  destruct (Z.ltb_spec v (2 ^ 5)) as [Hlt|Hge].
  { exists 5. split; [done|]. split; [lia|]. split; [lia|by left]. }
  apply wp_ok.
  apply (wp_while (next_power2_step v)
    (fun '(p, cnt) => p = 2 ^ cnt ∧ 5 <= cnt <= 31 ∧ (cnt = 5 ∨ 2 ^ (cnt - 1) < v)) (fun st => 31 - st.2) _ (2 ^ 5, 5)).
  - intros [p cnt] (-> & Hc & Hlow). unfold next_power2_step.
    destruct (Z.ltb_spec (2 ^ cnt) v) as [Hlt'|Hge'].
    + assert (cnt < 31) by (destruct (Z.eq_dec cnt 31) as [->|]; lia).
      assert (E : u32 (Z.shiftl (2 ^ cnt) 1) = 2 ^ (cnt + 1)).
      { rewrite Z.shiftl_mul_pow2, Z.pow_1_r, Z.mul_comm, <- Z.pow_succ_r by lia.
        pose proof (Z.pow_le_mono_r 2 (Z.succ cnt) 31 ltac:(lia) ltac:(lia)).
        pose proof (Z.pow_pos_nonneg 2 (Z.succ cnt) ltac:(lia) ltac:(lia)). apply u32_id. unfold is_u32. lia. }
      rewrite E, u8_id by (unfold is_u8; lia). split; [|cbn [snd]; lia].
      split; [done|]. split; [lia|]. right. by replace (cnt + 1 - 1) with cnt by lia.
    + done.
  - split; [done|]. split; [lia|by left].
  - cbn [snd]. lia.
Qed.

(** Above 2^31 the 32-bit power wraps around to 0 before it reaches [v]. *)
Lemma next_power2_hangs v : 2 ^ 31 < v → next_power2 v = Hang.
Proof.
  intros Hv. unfold next_power2, BUDDY_MIN_BLK, BUDDY_MIN_ORDER. change (Z.shiftl 1 5) with (2 ^ 5).
  destruct (Z.ltb_spec v (2 ^ 5)); [lia|].
  apply (while_hangs _ (fun st => st.1 = 0 ∨ ∃ k, 5 <= k <= 31 ∧ st.1 = 2 ^ k)).
  - intros [p cnt] Hp. cbn [fst] in Hp. unfold next_power2_step. eexists. split.
    + destruct (Z.ltb_spec p v) as [|Hge]; [done|]. exfalso. destruct Hp as [->|(k & Hk & ->)]; [lia|].
      pose proof (Z.pow_le_mono_r 2 k 31 ltac:(lia) ltac:(lia)). lia.
    + cbn [fst]. destruct Hp as [->|(k & Hk & ->)]; [by left|].
      rewrite Z.shiftl_mul_pow2, Z.pow_1_r, Z.mul_comm, <- Z.pow_succ_r by lia.
      destruct (Z.eq_dec k 31) as [->|Hne]; [by left|]. right. exists (Z.succ k). split; [lia|]. apply u32_id.
      pose proof (Z.pow_le_mono_r 2 (Z.succ k) 31 ltac:(lia) ltac:(lia)).
      pose proof (Z.pow_pos_nonneg 2 (Z.succ k) ltac:(lia) ltac:(lia)). unfold is_u32. lia.
  - right. exists 5. split; [lia|done].
Qed.

(** The bucket for an allocation of [size] bytes. *)
Definition entry_for (size e : Z) : Prop :=
  size + 9 <= SZ e ∧ (e = 0 ∨ SZ (e - 1) < size + 9).

Lemma order_ok size' : 0 <= size' <= 2 ^ 31 - 9 →
  ∃ e, next_power2 (u32 (size' + 9)) = Ok (e + BUDDY_MIN_ORDER) ∧ 0 <= e <= 26 ∧ entry_for size' e.
Proof.
  intros Hs. rewrite u32_id by (unfold is_u32; lia).
  destruct (next_power2_ok (size' + 9)) as (c & E & Hc & Hle & Hlow); [lia|].
  exists (c - BUDDY_MIN_ORDER). unfold entry_for, SZ, BUDDY_MIN_ORDER in *.
  replace (c - 5 + 5) with c by lia. replace (c - 5 - 1 + 5) with (c - 1) by lia.
  split; [done|]. split; [lia|]. split; [done|]. destruct Hlow as [->|]; [by left|by right].
Qed.

Section find.
Context (h : heap) (B : blocks) (fl : Z → list Z) (Hr : heap_rep h B fl) (e : Z) (He : bucket_index e).

(** The search for a bucket that is not empty. *)
Lemma find_ok : fl e = [] →
  wpx (while (find_bucket_step h) (e, 0))
    (fun '(j, n) => bucket_index j ∧ e <= j ∧ n = j - e ∧ fl j ≠ [] ∧ ∀ k, e <= k < j → fl k = [])
    (fun m => m = "out of memory"%string ∧ ∀ k, e <= k < BUDDY_ENTRIES → fl k = []) False.
Proof using Hr He.
  intros Hemp. apply (wpx_while (find_bucket_step h)
    (fun '(j, n) => bucket_index j ∧ e <= j ∧ n = j - e ∧ ∀ k, e <= k < j → fl k = [])
    (fun st => BUDDY_ENTRIES - st.1)).
  - intros [j n] (Hj & Hej & -> & Hall). unfold find_bucket_step. rewrite (rep_bucket _ _ _ Hr j Hj), bind_ok.
    cbn [count]. pose proof (u8_index j Hj) as Hu. unfold bucket_index in *.
    destruct (Z.eqb_spec (Z.of_nat (length (fl j))) 0) as [E0|E0].
    + assert (Ej : fl j = []) by (destruct (fl j); [done|cbn [length] in E0; lia]).
      assert (Hall' : ∀ k, e <= k < j + 1 → fl k = []).
      { intros k Hk. destruct (Z.eq_dec k j) as [->|]; [done|]. apply Hall. lia. }
      rewrite u8_id by (unfold is_u8, BUDDY_ENTRIES, BUDDY_MAX_ORDER, BUDDY_MIN_ORDER in *; lia).
      destruct (Z.leb_spec BUDDY_ENTRIES (j + 1)).
      * split; [done|]. intros k Hk. apply Hall'. lia.
      * cbn [wpx fst]. rewrite u8_id by (unfold is_u8, BUDDY_ENTRIES, BUDDY_MAX_ORDER, BUDDY_MIN_ORDER in *; lia).
        split; [|lia]. split; [lia|]. split; [lia|]. split; [lia|done].
    + split; [done|]. split; [done|]. split; [done|]. split; [|done]. intros E. by rewrite E in E0.
  - split; [done|]. split; [lia|]. split; [lia|]. intros k Hk. lia.
  - cbn [fst]. unfold bucket_index, BUDDY_ENTRIES, BUDDY_MAX_ORDER, BUDDY_MIN_ORDER in *. lia.
Qed.

(** The lists when the first block of bucket [j], at [a], has been cut down to bucket [i]: the
    upper halves are in the buckets between. *)
Definition split_lists_at (a j i k : Z) : list Z :=
  if k =? i then a :: (if i =? j then tl (fl j) else [a + SZ i])
  else if k =? j then tl (fl j) else if (i <? k) && (k <? j) then [a + SZ k] else fl k.

(** Splitting down to bucket [e]. *)
Lemma split_down_ok j a rest : bucket_index j → e <= j → fl j = a :: rest → (∀ k, e <= k < j → fl k = []) →
  wp (while split_step (j, j - e, h)) (fun '(i, h') => i = e ∧ ∃ fl',
    heap_rep h' (split_blocks (Z.to_nat (j - e)) a j B) fl' ∧ (∀ k, fl' k = split_lists_at a j e k) ∧
    live_same B (h_mem h) (h_mem h') ∧ same_rest h h').
Proof using Hr He.
  intros Hj Hej Hfl Hemp.
  assert (Ha : B !! a = Some (j, true)) by (apply (hr_free _ _ _ Hr j a Hj); rewrite Hfl; left).
  apply (wp_while split_step
    (fun '(i, n, h') => bucket_index i ∧ e <= i <= j ∧ n = i - e ∧ ∃ B' fl', heap_rep h' B' fl' ∧ (∀ k, fl' k = split_lists_at a j i k) ∧
      split_blocks (Z.to_nat n) a i B' = split_blocks (Z.to_nat (j - e)) a j B ∧
      live_same B (h_mem h) (h_mem h') ∧ same_rest h h' ∧
      (∀ c k, B !! c = Some (k, false) → B' !! c = Some (k, false)))
    (fun st => st.1.2) _ (j, j - e, h)).
  - intros [[i n] h'] (Hi & Hei & -> & B' & fl' & Hr' & Hlists & Hsp & Hlive & Hrest & Hkeep).
    pose proof (Hlists i) as Hfl'. unfold split_lists_at in Hfl'. rewrite Z.eqb_refl in Hfl'.
    unfold split_step. destruct (Z.eqb_spec (i - e) 0) as [E0|E0].
    + cbn [wp wpx]. assert (i = e) as -> by lia. split; [done|]. exists fl'.
      rewrite <- Hsp. rewrite Z.sub_diag. done.
    + destruct (split_rep h' B' fl' i a _ Hr' Hi ltac:(unfold bucket_index in *; lia) Hfl')
        as (h'' & fl'' & -> & Hr'' & Hfl'' & Hlive'' & Hrest'').
      rewrite bind_ok. cbn [wp wpx fst snd]. assert (Hi1 : bucket_index (i - 1)) by (unfold bucket_index in *; lia).
      rewrite (u8_id (i - 1)) by (by apply u8_index). split; [|lia].
      split; [done|]. split; [lia|]. split; [lia|]. eexists _, fl''. split; [exact Hr''|]. split.
      { intros k. rewrite Hfl''. unfold fupd. rewrite !Hlists. unfold split_lists_at. rewrite (Hemp (i - 1)) by lia.
        repeat match goal with
        | |- context [?x =? ?y] => destruct (Z.eqb_spec x y)
        | |- context [?x <? ?y] => destruct (Z.ltb_spec x y)
        end; subst; cbn [andb]; try lia; try done. }
      split; [|split; [|split]].
      * rewrite <- Hsp. by replace (Z.to_nat (i - e)) with (Datatypes.S (Z.to_nat (i - e - 1))) by lia.
      * by apply (live_same_trans B B' _ (h_mem h')).
      * by apply (same_rest_trans _ h').
      * intros c k Hc. apply Hkeep in Hc.
        assert (Ha' : B' !! a = Some (i, true)) by (apply (hr_free _ _ _ Hr' i a Hi); rewrite Hfl'; left).
        destruct (po_split B' a (i - 1) true true true (hr_pool _ _ _ Hr')) as [_ Hnone];
          [rewrite Ha'; repeat f_equal; lia|unfold bucket_index in *; lia|].
        rewrite !lookup_insert_ne; [done|congruence|congruence].
  - split; [done|]. split; [lia|]. split; [done|]. exists B, fl. split_and!; try done. intros k. unfold split_lists_at.
    rewrite Z.eqb_refl, Hfl. cbn [tl]. destruct (Z.eqb_spec k j) as [->|]; [done|].
    destruct (Z.ltb_spec j k), (Z.ltb_spec k j); try lia; done.
  - cbn [fst snd]. unfold bucket_index, BUDDY_ENTRIES, BUDDY_MAX_ORDER, BUDDY_MIN_ORDER in *. lia.
Qed.
End find.

Lemma lock_heap_ok h : lock_free (mm_lock h) →
  lock_heap h = Ok (set_lock h (Spinlock (u16 (next (mm_lock h) + 1)) (owner (mm_lock h)))).
Proof. intros Hl. unfold lock_heap. by rewrite spin_lock_free. Qed.

Lemma rep_lock h B fl l : heap_rep h B fl → heap_rep (set_lock h l) B fl.
Proof. intros [H1 H2 H3 H4 H5 H6 H7]. by split. Qed.
Lemma rep_unlock h B fl : heap_rep h B fl → heap_rep (unlock_heap h) B fl.
Proof. apply rep_lock. Qed.

(** The lock is free again after a call that kept it. *)
Lemma unlock_free h h' : lock_free (mm_lock h) →
  mm_lock h' = Spinlock (u16 (next (mm_lock h) + 1)) (owner (mm_lock h)) → lock_free (mm_lock (unlock_heap h')).
Proof. intros Hl E. unfold unlock_heap. cbn [set_lock mm_lock]. rewrite E. by apply lock_cycle_free. Qed.

(** The lists after the first block of bucket [j], at [a], has been cut down to [e] and taken. *)
Definition take_lists (a j e : Z) (fl : Z → list Z) (k : Z) : list Z :=
  if k =? j then tl (fl j) else if (e <=? k) && (k <? j) then [a + SZ k] else fl k.

(** What [malloc] returns. *)
Definition malloc_result (h : heap) (B : blocks) (fl : Z → list Z) (e : Z) (r : Z * heap) : Prop :=
  ∃ j a fl', bucket_index j ∧ e <= j ∧ (∀ k, e <= k < j → fl k = []) ∧ B !! a = Some (j, true) ∧
    r.1 = a + 8 ∧ heap_rep r.2 (take_block a j e B) fl' ∧ live_same B (h_mem h) (h_mem r.2) ∧
    lock_free (mm_lock r.2) ∧ h_screen r.2 = h_screen h ∧ h_bsystem r.2 = h_bsystem h ∧
    head (fl j) = Some a ∧ ∀ k, fl' k = take_lists a j e fl k.

Lemma malloc_entry_ok h B fl size' e : heap_rep h B fl → lock_free (mm_lock h) → bucket_index e →
  next_power2 (u32 (size' + 9)) = Ok (e + BUDDY_MIN_ORDER) →
  wpx (malloc h size') (malloc_result h B fl e)
    (fun m => m = "out of memory"%string ∧ ∀ k, e <= k < BUDDY_ENTRIES → fl k = []) False.
Proof.
  intros Hr0 Hl He En. pose proof He as He0. unfold bucket_index in He0. unfold malloc. rewrite En, bind_ok.
  replace (e + BUDDY_MIN_ORDER - BUDDY_MIN_ORDER) with e by lia. rewrite u8_id by (by apply u8_index).
  rewrite lock_heap_ok, bind_ok by done. set (h1 := set_lock h _).
  assert (Hr : heap_rep h1 B fl) by by apply rep_lock.
  assert (Hm1 : h_mem h1 = h_mem h) by reflexivity.
  rewrite (rep_bucket _ _ _ Hr e He), bind_ok. cbn [count].
  apply wpx_bind. apply (wpx_mono _ (fun '(i, h') => i = e ∧ ∃ j a fl', bucket_index j ∧ e <= j ∧
      (∀ k, e <= k < j → fl k = []) ∧ (B !! a = Some (j, true) ∧ head (fl j) = Some a) ∧
      heap_rep h' (split_blocks (Z.to_nat (j - e)) a j B) fl' ∧ (∀ k, fl' k = split_lists_at fl a j e k) ∧
      live_same B (h_mem h1) (h_mem h') ∧ same_rest h1 h') _
      (fun m => m = "out of memory"%string ∧ ∀ k, e <= k < BUDDY_ENTRIES → fl k = []) _ False);
    [| |done|done].
  - destruct (Z.eqb_spec (Z.of_nat (length (fl e))) 0) as [E0|E0].
    + assert (Hemp : fl e = []) by (destruct (fl e); [done|cbn [length] in E0; lia]).
      apply wpx_bind. apply (wpx_mono _ _ _ _ _ _ _ (find_ok h1 B fl Hr e He Hemp)); [|done|done].
      intros [j n] (Hj & Hej & -> & Hne & Hall).
      destruct (rep_cons h1 B fl Hr j Hj Hne) as (a & rest & Hfl & Ha).
      apply wp_wpx. apply (wp_mono _ _ _ (split_down_ok h1 B fl Hr e He j a rest Hj Hej Hfl Hall)).
      intros [i h'] (-> & fl' & Hr' & Hfl' & Hlive & Hrest). split; [done|].
      exists j, a, fl'. by rewrite Hfl.
    + cbn [wpx]. split; [done|].
      assert (Hne : fl e ≠ []) by (intros E; by rewrite E in E0).
      destruct (rep_cons h1 B fl Hr e He Hne) as (a & rest & Hfl & Ha). exists e, a, fl.
      rewrite Z.sub_diag. split_and!; try done; try lia; [by rewrite Hfl|]. intros k. unfold split_lists_at.
      rewrite Z.eqb_refl. destruct (Z.eqb_spec k e) as [->|]; [by rewrite Hfl|].
      destruct (Z.ltb_spec e k), (Z.ltb_spec k e); try lia; done.
  - intros [i h'] (-> & j & a & fl' & Hj & Hej & Hall & [Ha Hhead] & Hr' & Hlists & Hlive & Hrest).
    pose proof (Hlists e) as Hfl'. unfold split_lists_at in Hfl'. rewrite Z.eqb_refl in Hfl'.
    change (wpx (take_first h' e) (malloc_result h B fl e)
      (fun m => m = "out of memory"%string ∧ ∀ k, e <= k < BUDDY_ENTRIES → fl k = []) False).
    destruct (take_rep h' _ fl' e a _ Hr' He Hfl') as (h'' & -> & Hr'' & Hlive' & Hrest').
    destruct (same_rest_trans _ _ _ Hrest Hrest') as (S1 & S2 & S3).
    cbn [wpx]. exists j, a, (fupd fl' e (if e =? j then tl (fl j) else [a + SZ e])). split_and!; try done.
    + by apply rep_unlock.
    + rewrite <- Hm1. apply (live_same_trans B _ _ (h_mem h') _ Hlive Hlive').
      intros c k Hc. rewrite (proj2 (proj2 (proj2 (split_ok (Z.to_nat (j - e)) B a j true (hr_pool _ _ _ Hr0) Ha ltac:(lia) ltac:(by right))))); [done|congruence|].
      intros i Hi ->. pose proof (take_half B a j e (hr_pool _ _ _ Hr0) Ha ltac:(unfold bucket_index in He; lia) i ltac:(lia)) as [_ Hno].
      rewrite Hno in Hc. discriminate Hc.
    + by apply (unlock_free h).
    + intros k. unfold fupd. rewrite Hlists. unfold split_lists_at, take_lists.
      destruct (Z.eqb_spec k e) as [->|], (Z.eqb_spec e j) as [->|]; rewrite ?Z.eqb_refl; try done.
      * destruct (Z.eqb_spec e j); [lia|]. destruct (Z.leb_spec e e), (Z.ltb_spec e j); try lia; done.
      * destruct (Z.eqb_spec k j); [done|]. destruct (Z.ltb_spec j k), (Z.ltb_spec k j), (Z.leb_spec j k); try lia; done.
      * destruct (Z.eqb_spec k j); [done|]. destruct (Z.ltb_spec e k), (Z.ltb_spec k j), (Z.leb_spec e k); try lia; done.
Qed.

Lemma malloc_ok h B fl size' : heap_rep h B fl → lock_free (mm_lock h) → 0 <= size' <= 2 ^ 22 - 9 →
  ∃ e, bucket_index e ∧ entry_for size' e ∧
    wpx (malloc h size') (malloc_result h B fl e)
      (fun m => m = "out of memory"%string ∧ ∀ k, e <= k < BUDDY_ENTRIES → fl k = []) False.
Proof.
  intros Hr Hl Hs. destruct (order_ok size') as (e & En & Hrange & Hent); [lia|].
  assert (He : bucket_index e).
  { unfold bucket_index, BUDDY_ENTRIES, BUDDY_MAX_ORDER, BUDDY_MIN_ORDER. split; [lia|].
    destruct (Z.lt_ge_cases e 18) as [|Hge]; [done|]. destruct Hent as [_ [->|Hlow]]; [lia|].
    pose proof (SZ_mono 17 (e - 1) ltac:(lia)). change (SZ 17) with (2 ^ 22) in *. lia. }
  exists e. split; [done|]. split; [done|]. by apply malloc_entry_ok.
Qed.

(** ** Freeing *)

(** Take a node out of its list, and put one in, with the counts. *)
Lemma unlink_ok m bs l base lk sc fl e x : mem_lists m bs fl → bk_ok l (lengths fl) → bucket_index e → x ∈ fl e →
  ∃ m' l' L, add_count (Heap m bs l base lk sc) e (-1) = Ok (Heap m bs l' base lk sc) ∧ list_del m x = Ok m' ∧
    mem_lists m' bs (fupd fl e L) ∧ bk_ok l' (lengths (fupd fl e L)) ∧
    (∀ y, y ∈ L ↔ y ∈ fl e ∧ y ≠ x) ∧ frame (in_nodes (fl e)) m m'.
Proof.
  intros Hm Hl He Hx. destruct (list_elem_of_split _ _ Hx) as (l1 & l2 & Hfl).
  destruct (del_lists m bs fl e l1 x l2 Hm He Hfl) as (m' & D & M & F).
  pose proof (lists_bound m bs fl e Hm He) as Bd. rewrite Hfl, length_app in Bd. cbn [length] in Bd.
  destruct (bk_count l (lengths fl) e (-1) Hl He) as (l' & C & Hl').
  { unfold lengths, is_u32. rewrite Hfl, length_app. cbn [length]. lia. }
  exists m', l', (l1 ++ l2). split; [apply C|]. split; [done|]. split; [done|]. split; [|split].
  - apply (bk_ext _ _ _ Hl'). intros k Hk. unfold lengths, fupd. destruct (Z.eqb_spec k e) as [->|]; [|done].
    rewrite Hfl, !length_app. cbn [length]. lia.
  - intros y. rewrite Hfl, !elem_of_app, elem_of_cons. pose proof (ml_nodup _ _ _ Hm e He) as Hd.
    rewrite Hfl in Hd. destruct (nodup_split l1 x l2 Hd) as (_ & _ & Hd2 & Hd3). apply NoDup_cons in Hd2 as [Hd2 _].
    assert (Hnx : x ∉ l1) by (intros Hin; apply (Hd3 x Hin); left).
    split; [intros [Hy|Hy]; (split; [tauto|]); intros ->; done|]. intros [[?|[?|?]] ?]; tauto.
  - apply (frame_weaken _ _ _ _ F). intros y (p & Hp & Hy). exists p. split; [|done].
    rewrite Hfl, !elem_of_app, elem_of_cons in *. tauto.
Qed.

Lemma link_ok m bs l base lk sc fl e x : mem_lists m bs fl → bk_ok l (lengths fl) → bucket_index e → chunk x →
  (∀ k, bucket_index k → x ∉ fl k) →
  ∃ m' l', list_add m x (bs + BUCKET_SIZE * e) = Ok m' ∧
    add_count (Heap m' bs l base lk sc) e 1 = Ok (Heap m' bs l' base lk sc) ∧
    mem_lists m' bs (fupd fl e (x :: fl e)) ∧ bk_ok l' (lengths (fupd fl e (x :: fl e))) ∧
    frame (in_nodes (x :: fl e)) m m'.
Proof.
  intros Hm Hl He Hx Hnot. destruct (add_lists m bs fl e x Hm He Hx Hnot) as (m' & D & M & F).
  pose proof (lists_bound m bs fl e Hm He) as Bd.
  destruct (bk_count l (lengths fl) e 1 Hl He) as (l' & C & Hl'); [unfold lengths, is_u32; lia|].
  exists m', l'. split; [done|]. split; [apply C|]. split; [done|]. split; [|done].
  apply (bk_ext _ _ _ Hl'). intros k Hk. unfold lengths, fupd. destruct (Z.eqb_spec k e) as [->|]; [|done].
  cbn [length]. lia.
Qed.

(** Mark the block at [a] free: the end of [free] when nothing was merged. *)
Lemma mark_rep h B fl a e : heap_rep h B fl → B !! a = Some (e, false) →
  ∃ m' l' fl', st8 (h_mem h) (a + SZ e - 1) e = Ok (upd8 (h_mem h) (a + SZ e - 1) e) ∧
    list_add (upd8 (h_mem h) (a + SZ e - 1) e) a (ptr h e) = Ok m' ∧
    add_count (set_mem h m') e 1 = Ok (set_buckets (set_mem h m') l') ∧
    heap_rep (set_buckets (set_mem h m') l') (<[a := (e, true)]> B) fl' ∧
    live_same (delete a B) (h_mem h) m'.
Proof.
  intros Hr Ha. destruct (rep_block h B fl Hr _ _ _ Ha) as (He & Hlo & Hhi & Hal & Hch & Htp).
  pose proof (SZ_bound e He) as Hs. pose proof (hr_lists _ _ _ Hr) as Hm.
  assert (Hnot : ∀ k, bucket_index k → a ∉ fl k).
  { intros k Hk Hin. apply (hr_free _ _ _ Hr k a Hk) in Hin. rewrite Ha in Hin. discriminate Hin. }
  destruct (byte_lists (h_mem h) (h_bsystem h) fl (a + SZ e - 1) e Hm ltac:(lia) (u8_index e He)) as (D1 & M1 & F1 & T1).
  { intros k x Hk Hx. apply (tag_outside _ x Htp). by apply (ml_chunk _ _ _ Hm k). }
  destruct (link_ok _ _ (h_buckets h) (mem_base h) (mm_lock h) (h_screen h) fl e a M1 (hr_counts _ _ _ Hr) He Hch Hnot)
    as (m' & l' & D2 & C & M2 & Hl' & F2).
  set (fl' := fupd fl e (a :: fl e)) in *. exists m', l', fl'.
  assert (F : frame (fun x => x = a + SZ e - 1 ∨ in_nodes (a :: fl e) x) (h_mem h) m')
    by apply (frame_trans _ _ _ _ _ F1 F2).
  assert (Hkeep : ∀ c k f x, B !! c = Some (k, f) → c ≠ a → c <= x < c + SZ k → (f = false ∨ tag_place x) →
    byte m' x = byte (h_mem h) x).
  { intros c k f x Hc Hne Hx Hf. destruct (rep_block _ _ _ Hr _ _ _ Hc) as (Hk & Hclo & Hchi & _).
    assert (Hax : ¬ (a <= x < a + SZ e)).
    { destruct (po_disjoint B (hr_pool _ _ _ Hr) _ _ _ _ _ _ Hc Ha Hne); lia. }
    apply F; [lia|]. intros [Hx'|(p & Hp & Hx')]; [lia|].
    apply elem_of_cons in Hp as [->|Hp]; [lia|]. destruct Hf as [->|Ht].
    - by apply (proj1 (rep_live _ _ _ Hr c k x Hc Hx) p e).
    - by apply (tag_outside x p Ht); [apply (ml_chunk _ _ _ Hm e)|]. }
  split; [done|]. split; [exact D2|]. split; [exact C|]. split.
  - split; cbn [h_mem h_bsystem h_buckets mem_base set_buckets set_mem]; [done|done|apply (hr_base _ _ _ Hr)| | | |].
    + intros k x Hk. rewrite lookup_insert. unfold fl', fupd. pose proof (hr_free _ _ _ Hr k x Hk) as Hx.
      destruct (decide (a = x)) as [<-|Hne].
      * destruct (Z.eqb_spec k e) as [->|Hke]; [split; [done|left]|]. rewrite Hx, Ha. split; intros [= E]; by destruct Hke.
      * rewrite <- Hx. destruct (Z.eqb_spec k e) as [->|]; [|done]. rewrite elem_of_cons.
        split; [intros [E|?]; [by destruct Hne|done]|by right].
    + intros c k f. rewrite lookup_insert. case_decide as E.
      * intros [= <- <-]. subst c. etransitivity; [apply F2; [apply Htp|]|exact T1].
        intros (p & Hp & Hx). apply (tag_outside _ p Htp); [|done].
        apply elem_of_cons in Hp as [->|Hp]; [done|by apply (ml_chunk _ _ _ Hm e)].
      * intros Hc. destruct (rep_block _ _ _ Hr _ _ _ Hc) as (Hk & _ & _ & _ & _ & Ht). pose proof (SZ_bound k Hk).
        rewrite (Hkeep c k f); [by apply (hr_tag _ _ _ Hr)|done|congruence|lia|by right].
    + intros c k. rewrite lookup_insert. case_decide as E; [done|]. intros Hc.
      destruct (rep_block _ _ _ Hr _ _ _ Hc) as (Hk & _). pose proof (SZ_bound k Hk).
      rewrite (Hkeep c k false); [by apply (hr_pre _ _ _ Hr)|done|congruence|lia|by left].
    + apply (po_flag B a e false); [apply Hr|done].
  - intros c k x Hc Hx. apply lookup_delete_Some in Hc as [Hne Hc]. apply (Hkeep c k false); [done|done|done|by left].
Qed.

(** The work of one round of the merge loop. *)
Definition merge_pair (h : heap) (linked : bool) (blt buddy entry merged : Z) : outcome heap :=
  h ← (if linked then
         h ← add_count h entry (-1);
         on_mem h (fun m => list_del m blt)
       else Ok h);
  h ← add_count h entry (-1);
  h ← on_mem h (fun m => list_del m buddy);
  b ← bsystem h (entry + 1);
  h ← on_mem h (fun m => st8 m (u64 (merged + size b - 1)) (entry + 1));
  h ← on_mem h (fun m => list_add m merged (ptr h (entry + 1)));
  add_count h (entry + 1) 1.

(** Taking both halves out of their list. *)
Lemma unlink_pair m bs l base lk sc fl e a b (f : bool) : mem_lists m bs fl → bk_ok l (lengths fl) → bucket_index e →
  (f = true ↔ a ∈ fl e) → b ∈ fl e → a ≠ b → (∀ k, bucket_index k → k ≠ e → a ∉ fl k) →
  ∃ m' l' fl',
    (∀ R (K : heap → outcome R),
      (h ← (if f then
              h ← add_count (Heap m bs l base lk sc) e (-1);
              on_mem h (fun m => list_del m a)
            else Ok (Heap m bs l base lk sc));
       h ← add_count h e (-1);
       h ← on_mem h (fun m => list_del m b);
       K h) = K (Heap m' bs l' base lk sc)) ∧
    mem_lists m' bs fl' ∧ bk_ok l' (lengths fl') ∧
    (∀ k x, bucket_index k → x ∈ fl' k ↔ x ∈ fl k ∧ x ≠ a ∧ x ≠ b) ∧ frame (in_nodes (fl e)) m m'.
Proof.
  intros Hm Hl He Hf Hb Hne Hother.
  assert (H1 : ∃ m1 l1 fl1, (if f then h ← add_count (Heap m bs l base lk sc) e (-1); on_mem h (fun m => list_del m a)
      else Ok (Heap m bs l base lk sc)) = Ok (Heap m1 bs l1 base lk sc) ∧ mem_lists m1 bs fl1 ∧ bk_ok l1 (lengths fl1) ∧
      (∀ k x, bucket_index k → x ∈ fl1 k ↔ x ∈ fl k ∧ x ≠ a) ∧ frame (in_nodes (fl e)) m m1).
  { destruct f.
    - destruct (unlink_ok m bs l base lk sc fl e a Hm Hl He (proj1 Hf eq_refl)) as (m1 & l1 & L & C & D & M & Hl1 & HL & F).
      exists m1, l1, (fupd fl e L). rewrite C, bind_ok, (on_mem_ok _ _ _ _ _ _ _ m1 D). split; [done|].
      split; [done|]. split; [done|]. split; [|done]. intros k x Hk. unfold fupd.
      destruct (Z.eqb_spec k e) as [->|Hke]; [apply HL|]. split; [|tauto].
      intros Hx. split; [done|]. intros ->. by apply (Hother k Hk).
    - exists m, l, fl. split; [done|]. split; [done|]. split; [done|]. split; [|apply frame_refl].
      intros k x Hk. split; [|tauto]. intros Hx. split; [done|]. intros ->.
      destruct (Z.eq_dec k e) as [->|Hke]; [|by apply (Hother k Hk)]. apply Hf in Hx. discriminate Hx. }
  destruct H1 as (m1 & l1 & fl1 & -> & M1 & Hl1 & Hfl1 & F1).
  assert (Hb1 : b ∈ fl1 e) by (apply Hfl1; [done|by split; [|congruence]]).
  destruct (unlink_ok m1 bs l1 base lk sc fl1 e b M1 Hl1 He Hb1) as (m2 & l2 & L & C & D & M & Hl2 & HL & F).
  exists m2, l2, (fupd fl1 e L). split.
  { intros R K. by rewrite bind_ok, C, bind_ok, (on_mem_ok _ _ _ _ _ _ _ m2 D). }
  split; [done|]. split; [done|]. split.
  - intros k x Hk. unfold fupd. destruct (Z.eqb_spec k e) as [->|Hke]; [rewrite HL, Hfl1 by done; tauto|].
    rewrite Hfl1 by done. split; [|tauto]. intros [Hx Hxa]. split; [done|]. split; [done|]. intros ->.
    apply Hke. by apply (ml_apart _ _ _ Hm k e b).
  - apply (frame_weaken _ _ _ _ (frame_trans _ _ _ _ _ F1 F)). intros x [Hx|(p & Hp & Hx)]; [done|].
    exists p. split; [by apply Hfl1 in Hp as [? _]|done].
Qed.

Lemma merge_rep h B fl a e (f : bool) : heap_rep h B fl → B !! a = Some (e, f) → e < BUDDY_ENTRIES - 1 →
  B !! buddy_of a e = Some (e, true) →
  let m := Z.min a (buddy_of a e) in
  ∃ h' fl', merge_pair h f a (buddy_of a e) e m = Ok h' ∧
    heap_rep h' (<[m := (e + 1, true)]> (delete (buddy_of a e) (delete a B))) fl' ∧
    live_same (delete a B) (h_mem h) (h_mem h') ∧ same_rest h h'.
Proof.
  intros Hr Ha He1 Hb. set (b := buddy_of a e) in *. intros mg.
  destruct (rep_block h B fl Hr _ _ _ Ha) as (He & Halo & Hahi & Haal & Hach & _).
  destruct (rep_block h B fl Hr _ _ _ Hb) as (_ & Hblo & Hbhi & Hbal & Hbch & _).
  pose proof (po_merge B a e f true true (hr_pool _ _ _ Hr) Ha Hb He1) as HB'. fold b mg in HB'.
  pose proof (buddy_ne a e ltac:(unfold bucket_index in He; lia) Haal) as Hne. fold b in Hne.
  destruct (buddy_cases a e ltac:(unfold bucket_index in He; lia) Haal) as (Hmal & Hab & _ & _). fold b mg in Hmal, Hab.
  pose proof (SZ_bound e He) as Hs. pose proof (SZ_succ e ltac:(unfold bucket_index in He; lia)) as HS.
  assert (Hmg : mg = a ∧ b = a + SZ e ∨ mg = b ∧ a = b + SZ e) by (unfold mg; lia).
  assert (He' : bucket_index (e + 1)) by (unfold bucket_index in *; lia).
  destruct (block_chunk mg (e + 1) He') as [Hmch Hmt]; [lia|lia|done|].
  set (t := mg + SZ (e + 1) - 1) in *.
  assert (Hf : f = true ↔ a ∈ fl e).
  { rewrite (hr_free _ _ _ Hr e a He), Ha. split; [by intros ->|by intros [= ->]]. }
  destruct h as [m bs l base lk sc]. pose proof (hr_base _ _ _ Hr) as Hbase. cbn [mem_base] in Hbase. subst base.
  pose proof (hr_lists _ _ _ Hr) as Hm. cbn [h_mem h_bsystem] in Hm.
  destruct (unlink_pair m bs l MALLOC_BASE lk sc fl e a b f Hm (hr_counts _ _ _ Hr) He Hf) as (m1 & l1 & fl1 & E1 & M1 & Hl1 & Hfl1 & F1);
    [by apply (hr_free _ _ _ Hr e b He)|done| |].
  { intros k Hk Hke Hin. apply (hr_free _ _ _ Hr k a Hk) in Hin. rewrite Ha in Hin. by injection Hin as [= ->]. }
  destruct (byte_lists m1 bs fl1 t (e + 1) M1 (proj1 Hmt) (u8_index _ He')) as (D2 & M2 & F2 & T2).
  { intros k x Hk Hx. apply (tag_outside t x Hmt). by apply (ml_chunk _ _ _ M1 k). }
  assert (Hmnot : ∀ k, bucket_index k → mg ∉ fl1 k).
  { intros k Hk Hin. apply Hfl1 in Hin; [|done]. destruct Hmg as [[-> _]|[-> _]]; tauto. }
  destruct (link_ok _ bs l1 MALLOC_BASE lk sc fl1 (e + 1) mg M2 Hl1 He' Hmch Hmnot) as (m3 & l3 & D3 & C3 & M3 & Hl3 & F3).
  set (fl3 := fupd fl1 (e + 1) (mg :: fl1 (e + 1))) in *.
  assert (Hkeep : ∀ c k g x, B !! c = Some (k, g) → c ≠ a → c ≠ b → c <= x < c + SZ k → (g = false ∨ tag_place x) →
    byte m3 x = byte m x).
  { intros c k g x Hc Hca Hcb Hx Hg. destruct (rep_block _ _ _ Hr _ _ _ Hc) as (Hk & Hclo & Hchi & _).
    assert (Hmx : ¬ (mg <= x < mg + SZ (e + 1))).
    { destruct (po_disjoint B (hr_pool _ _ _ Hr) _ _ _ _ _ _ Hc Ha Hca), (po_disjoint B (hr_pool _ _ _ Hr) _ _ _ _ _ _ Hc Hb Hcb); lia. }
    assert (Hout : ∀ p k', bucket_index k' → p ∈ fl k' → ¬ (p <= x < p + 16)).
    { intros p k' Hk' Hp. destruct Hg as [->|Ht].
      - by apply (proj1 (rep_live _ _ _ Hr c k x Hc Hx) p k').
      - apply (tag_outside x p Ht). by apply (ml_chunk _ _ _ Hm k'). }
    rewrite F3, F2, F1; [done|lia| |lia|lia|lia|].
    - intros (p & Hp & Hxp). by apply (Hout p e).
    - intros (p & Hp & Hxp). apply elem_of_cons in Hp as [->|Hp]; [lia|]. apply Hfl1 in Hp as [Hp _]; [|done].
      by apply (Hout p (e + 1)). }
  exists (Heap m3 bs l3 MALLOC_BASE lk sc), fl3. split; [|split; [|split; [|done]]].
  - unfold merge_pair. refine (eq_trans (E1 _ _) _).
    rewrite (bk_get (Heap m1 bs l1 MALLOC_BASE lk sc) _ (e + 1) Hl1 He'), bind_ok. cbn [size].
    rewrite pool_u64 by lia. rewrite (on_mem_ok _ _ _ _ _ _ _ _ D2), bind_ok.
    rewrite (on_mem_ok _ _ _ _ _ _ _ m3 D3), bind_ok. exact C3.
  - split; cbn [h_mem h_bsystem h_buckets mem_base]; [done|done|done| | | |done].
    + intros k x Hk. rewrite lookup_insert. unfold fl3, fupd.
      assert (Hx : x ∈ fl1 k ↔ delete b (delete a B) !! x = Some (k, true)).
      { rewrite Hfl1, (hr_free _ _ _ Hr k x Hk), !lookup_delete_Some by done.
        split; [intros (? & ? & ?)|intros (? & ? & ?)]; split_and!; congruence. }
      destruct (decide (mg = x)) as [<-|Hnx].
      * destruct (Z.eqb_spec k (e + 1)) as [->|Hke]; [split; [done|left]|].
        split; [intros Hin; by destruct (Hmnot k Hk)|intros [= E]; lia].
      * rewrite <- Hx. destruct (Z.eqb_spec k (e + 1)) as [->|]; [|done]. rewrite elem_of_cons.
        split; [intros [E|?]; [congruence|done]|by right].
    + intros c k g. rewrite lookup_insert. case_decide as E.
      * intros [= <- <-]. subst c. etransitivity; [apply F3; [apply Hmt|]|exact T2].
        intros (p & Hp & Hx). apply (tag_outside t p Hmt); [|done].
        apply elem_of_cons in Hp as [->|Hp]; [done|by apply (ml_chunk _ _ _ M1 (e + 1))].
      * rewrite !lookup_delete_Some. intros (Hcb & Hca & Hc).
        destruct (rep_block _ _ _ Hr _ _ _ Hc) as (Hk & _ & _ & _ & _ & Ht). pose proof (SZ_bound k Hk).
        rewrite (Hkeep c k g); [by apply (hr_tag _ _ _ Hr)|done|congruence|congruence|lia|by right].
    + intros c k. rewrite lookup_insert. case_decide as E; [done|].
      rewrite !lookup_delete_Some. intros (Hcb & Hca & Hc).
      destruct (rep_block _ _ _ Hr _ _ _ Hc) as (Hk & _). pose proof (SZ_bound k Hk).
      rewrite (Hkeep c k false); [by apply (hr_pre _ _ _ Hr)|done|congruence|congruence|lia|by left].
  - intros c k x Hc Hx. apply lookup_delete_Some in Hc as [Hca Hc].
    assert (c ≠ b) by (intros ->; rewrite Hb in Hc; discriminate Hc).
    apply (Hkeep c k false); [done|congruence|done|done|by left].
Qed.

(** What the tag at the end of the buddy says. *)
Lemma buddy_tag h B fl a e f : heap_rep h B fl → B !! a = Some (e, f) → e < BUDDY_ENTRIES - 1 →
  MALLOC_BASE <= buddy_of a e ∧ buddy_of a e + SZ e <= MALLOC_END ∧
  (byte (h_mem h) (buddy_of a e + SZ e - 1) = e ↔ B !! buddy_of a e = Some (e, true)).
Proof.
  intros Hr Ha He1. destruct (rep_block h B fl Hr _ _ _ Ha) as (He & Halo & Hahi & Haal & _).
  destruct (buddy_end B a e f (hr_pool _ _ _ Hr) Ha He1) as (c & k & g & Hc & Hend & Hca & Hk).
  destruct (rep_block h B fl Hr _ _ _ Hc) as (Hke & Hclo & Hchi & _).
  assert (Hlo : MALLOC_BASE <= buddy_of a e).
  { unfold buddy_of. enough (0 <= Z.lxor (a - MALLOC_BASE) (SZ e)) by lia. apply Z.lxor_nonneg.
    pose proof (SZ_bound e He). lia. }
  split; [done|]. split; [lia|]. rewrite <- Hend, (hr_tag _ _ _ Hr c k g Hc). unfold bucket_index in *. split.
  - intros E. destruct g.
    + subst k. by rewrite <- (Hk eq_refl).
    + unfold USED, BUDDY_ENTRIES, BUDDY_MAX_ORDER, BUDDY_MIN_ORDER in *. lia.
  - intros Hb. assert (c = buddy_of a e) as E.
    { destruct (Z.eq_dec c (buddy_of a e)) as [|Hne]; [done|].
      pose proof (SZ_bound e He). pose proof (SZ_bound k Hke).
      destruct (po_disjoint B (hr_pool _ _ _ Hr) _ _ _ _ _ _ Hc Hb Hne); lia. }
    rewrite E, Hb in Hc. by injection Hc as <- <-.
Qed.

Lemma try_merge_step_ok h B fl a e mc : heap_rep h B fl → 0 <= mc < 255 → B !! a = Some (e, 0 <? mc) →
  try_merge_step (a, e, mc, h) =
    if decide (e < BUDDY_ENTRIES - 1 ∧ B !! buddy_of a e = Some (e, true)) then
      h' ← merge_pair h (0 <? mc) a (buddy_of a e) e (Z.min a (buddy_of a e));
      Ok (inl (Z.min a (buddy_of a e), e + 1, mc + 1, h'))
    else Ok (inr (mc, h)).
Proof.
  intros Hr Hmc Ha. destruct (rep_block h B fl Hr _ _ _ Ha) as (He & Halo & Hahi & Haal & _).
  pose proof (SZ_bound e He) as Hs. unfold try_merge_step.
  destruct (Z.ltb_spec e (BUDDY_ENTRIES - 1)) as [He1|He1]; [|rewrite decide_False by lia; done].
  destruct (buddy_tag h B fl a e _ Hr Ha He1) as (Hblo & Hbhi & Htag).
  rewrite (rep_bucket _ _ _ Hr e He), bind_ok. cbn [size]. rewrite (hr_base _ _ _ Hr).
  assert (Hlx : u64 (Z.lxor (u64 (a - MALLOC_BASE)) (SZ e) + MALLOC_BASE) = buddy_of a e).
  { rewrite (u64_id (a - MALLOC_BASE)) by (unfold is_u64, MALLOC_BASE in *; change MALLOC_END with 0xA00000 in *; lia).
    unfold buddy_of in *. rewrite Z.add_comm. apply pool_u64. lia. }
  rewrite Hlx, pool_u64 by lia. rewrite ld8_ok, bind_ok by (apply (pool_byte _ _ _ _ (hr_lists _ _ _ Hr)); lia).
  destruct (Z.eqb_spec (byte (h_mem h) (buddy_of a e + SZ e - 1)) e) as [E|E].
  - apply Htag in E. rewrite decide_True by done.
    assert (He' : bucket_index (e + 1)) by (unfold bucket_index in *; lia).
    rewrite (u8_id (e + 1)) by (by apply u8_index). rewrite (u8_id (mc + 1)) by (unfold is_u8; lia).
    replace (if a <? buddy_of a e then a else buddy_of a e) with (Z.min a (buddy_of a e))
      by (destruct (Z.ltb_spec a (buddy_of a e)); lia).
    unfold merge_pair. destruct (0 <? mc).
    all: repeat (rewrite ?bind_assoc; match goal with |- (?o ≫= _) = (?o ≫= _) => destruct o as [?x| | |]; [|done..]; rewrite ?bind_ok end).
    all: done.
  - rewrite decide_False; [done|]. intros [_ Hb]. by apply E, Htag.
Qed.

(** The merge loop from the block being freed. *)
Definition merged (h : heap) (B : blocks) (a e mc : Z) (h' : heap) : Prop :=
  (mc = 0 ∧ h' = h ∧ ¬ (e < BUDDY_ENTRIES - 1 ∧ B !! buddy_of a e = Some (e, true))) ∨
  (0 < mc ∧ (∃ fl', heap_rep h' (release_block B a e) fl') ∧ live_same (delete a B) (h_mem h) (h_mem h') ∧
    same_rest h h').

Lemma merge_loop_ok h B fl a e : heap_rep h B fl → B !! a = Some (e, false) →
  wp (while try_merge_step (a, e, 0, h)) (fun '(mc, h') => merged h B a e mc h').
Proof.
  intros Hr Ha. pose proof (rep_index h B fl Hr _ _ _ Ha) as He0.
  apply (wp_while try_merge_step
    (fun '(c, k, mc, h') => ∃ B' fl' n, heap_rep h' B' fl' ∧ B' !! c = Some (k, 0 <? mc) ∧ 0 <= mc ∧ k = e + mc ∧
      BUDDY_ENTRIES - 1 - k <= Z.of_nat n ∧ merge_blocks n B' c k = release_block B a e ∧
      (mc = 0 → c = a ∧ h' = h ∧ B' = B) ∧
      live_same (delete a B) (h_mem h) (h_mem h') ∧ same_rest h h' ∧
      (∀ x i, delete a B !! x = Some (i, false) → delete c B' !! x = Some (i, false)))
    (fun st => BUDDY_ENTRIES - st.1.1.2) _ (a, e, 0, h)).
  - intros [[[c k] mc] h'] (B' & fl' & n & Hr' & Hc & Hmc & -> & Hn & Hm & H0 & Hlive & Hrest & Hkeep).
    pose proof (rep_index h' B' fl' Hr' _ _ _ Hc) as Hk. unfold bucket_index in Hk, He0.
    rewrite (try_merge_step_ok h' B' fl') by
      (done || unfold BUDDY_ENTRIES, BUDDY_MAX_ORDER, BUDDY_MIN_ORDER in *; lia).
    case_decide as Hd.
    + destruct Hd as [He1 Hb].
      destruct (merge_rep h' B' fl' c (e + mc) (0 <? mc) Hr' Hc He1 Hb) as (h'' & fl'' & -> & Hr'' & Hlive'' & Hrest'').
      rewrite bind_ok. cbn [wp wpx fst snd]. split; [|lia].
      destruct (rep_block h' B' fl' Hr' _ _ _ Hc) as (_ & _ & _ & Hcal & _).
      destruct (buddy_cases c (e + mc) ltac:(lia) Hcal) as (Hmal & _). set (mg := Z.min c (buddy_of c (e + mc))) in *.
      destruct n as [|n]; [unfold BUDDY_ENTRIES, BUDDY_MAX_ORDER, BUDDY_MIN_ORDER in *; lia|].
      cbn [merge_blocks] in Hm. rewrite decide_True in Hm by done. fold mg in Hm.
      eexists _, fl'', n. split; [exact Hr''|]. split.
      { rewrite lookup_insert_eq. destruct (Z.ltb_spec 0 (mc + 1)); [repeat f_equal; lia|lia]. }
      split; [lia|]. split; [lia|]. split; [lia|]. split.
      { rewrite <- Hm. replace (e + (mc + 1)) with (e + mc + 1) by lia. replace (e + mc + 1) with (e + mc + 1) by lia.
        apply merge_self; [by rewrite delete_insert_eq|lia|]. by replace (e + mc + 1) with (e + mc + 1) by lia. }
      split; [lia|]. split; [|split; [by apply (same_rest_trans _ h')|]].
      * apply (live_same_trans _ (delete c B') _ (h_mem h') _ Hlive Hlive''). exact Hkeep.
      * intros x i Hx. apply Hkeep in Hx. apply lookup_delete_Some in Hx as [Hxc Hx].
        assert (x ≠ buddy_of c (e + mc)) by (intros ->; rewrite Hb in Hx; discriminate Hx).
        rewrite delete_insert_eq. rewrite !lookup_delete_ne; [done|congruence|congruence|unfold mg; lia].
    + cbn [wp wpx]. destruct (Z.eq_dec mc 0) as [->|Hne].
      * left. destruct (H0 eq_refl) as (-> & -> & ->). rewrite Z.add_0_r in Hd. done.
      * right. split; [lia|]. split; [|done]. exists fl'. rewrite <- Hm, merge_stop by done.
        rewrite insert_id; [done|]. rewrite Hc. destruct (Z.ltb_spec 0 mc); [done|lia].
  - exists B, fl, (Z.to_nat (BUDDY_ENTRIES - 1)). unfold bucket_index in He0.
    split_and!; try done; lia.
  - cbn [fst snd]. unfold bucket_index, BUDDY_ENTRIES, BUDDY_MAX_ORDER, BUDDY_MIN_ORDER in *. lia.
Qed.

Lemma try_merge_ok h B fl a e : heap_rep h B fl → B !! a = Some (e, false) →
  wp (buddy_try_merge h a e) (fun '(mc, h') => merged h B a e mc h').
Proof.
  intros Hr Ha. pose proof (rep_index h B fl Hr _ _ _ Ha) as He. unfold buddy_try_merge.
  rewrite (rep_bucket h B fl Hr e He), bind_ok. cbn [count].
  destruct (Z.eqb_spec (Z.of_nat (length (fl e))) 0) as [E|E]; [|by apply (merge_loop_ok h B fl)].
  left. split; [done|]. split; [done|]. intros [_ Hb]. apply (hr_free _ _ _ Hr e _ He) in Hb.
  destruct (fl e); [by apply elem_of_nil in Hb|cbn [length] in E; lia].
Qed.

(** What [free] leaves. *)
Definition free_result (h : heap) (B : blocks) (a e : Z) (h' : heap) : Prop :=
  (∃ fl', heap_rep h' (release_block B a e) fl') ∧ live_same (delete a B) (h_mem h) (h_mem h') ∧
  lock_free (mm_lock h') ∧ h_screen h' = h_screen h ∧ h_bsystem h' = h_bsystem h.

Lemma free_ok h B fl a e : heap_rep h B fl → lock_free (mm_lock h) → B !! a = Some (e, false) →
  ∃ h', free h (a + 8) = Ok h' ∧ free_result h B a e h'.
Proof.
  intros Hr0 Hl Ha. destruct (rep_block h B fl Hr0 _ _ _ Ha) as (He & Halo & Hahi & Haal & _ & Ht).
  pose proof (SZ_bound e He) as Hs. unfold free. rewrite lock_heap_ok, bind_ok by done.
  set (h1 := set_lock h _). assert (Hr : heap_rep h1 B fl) by by apply rep_lock.
  assert (Ea : (a + 8) -w 8 = a) by (replace (a + 8 - 8) with a by lia; apply pool_u64; lia). rewrite Ea.
  rewrite ld8_ok, bind_ok by (apply (pool_byte _ _ _ _ (hr_lists _ _ _ Hr)); lia).
  rewrite (hr_pre _ _ _ Hr a e Ha), (rep_bucket _ _ _ Hr e He), bind_ok. cbn [size]. rewrite pool_u64 by lia.
  rewrite ld8_ok, bind_ok by (apply (pool_byte _ _ _ _ (hr_lists _ _ _ Hr)); lia).
  rewrite (hr_tag _ _ _ Hr a e false Ha). change (negb (USED =? USED)) with false. cbv iota.
  apply wp_ok. apply wp_bind. apply (wp_mono _ _ _ (try_merge_ok h1 B fl a e Hr Ha)).
  intros [mc h'] [(-> & -> & Hno)|(Hmc & (fl' & Hr') & Hlive & (S1 & S2 & S3))].
  - change (negb (0 =? 0)) with false. cbv iota.
    destruct (mark_rep h1 B fl a e Hr Ha) as (m' & l' & fl' & D1 & D2 & C & Hr' & Hlive).
    unfold on_mem. cbv beta. rewrite D1, !bind_ok. cbn [h_mem set_mem].
    change (ptr (set_mem h1 (upd8 (h_mem h1) (a + SZ e - 1) e)) e) with (ptr h1 e).
    rewrite D2, !bind_ok. change (set_mem (set_mem h1 (upd8 (h_mem h1) (a + SZ e - 1) e)) m') with (set_mem h1 m').
    rewrite C, bind_ok. cbn [wp wpx]. split; [|split; [exact Hlive|]].
    + exists fl'. unfold release_block. rewrite merge_stop by done. by apply rep_unlock.
    + split; [by apply (unlock_free h)|done].
  - destruct (Z.eqb_spec mc 0); [lia|]. cbn [negb wp wpx]. split; [exists fl'; by apply rep_unlock|].
    split; [exact Hlive|]. split; [by apply (unlock_free h)|]. split; [exact S3|exact S1].
Qed.
