(* ===== verification/MallocProps.v ===== *)
(** * Properties of the heap

    The heap that [malloc_init] sets up, and the theorems on [malloc] and
    [free], one call at a time and over every sequence of calls. *)

From S2P Require Import Prelude Layout Spinlock Physical Mmu Paging PagingSpec Kernel Screen CList Malloc Buddy MallocSpec.

Local Open Scope Z_scope.
Local Open Scope c_scope.

(** ** The initial heap *)

(** One free block, the whole pool. *)
Definition initial_blocks : blocks := {[ MALLOC_BASE := (BUDDY_ENTRIES - 1, true) ]}.

Lemma initial_pool : pool_ok initial_blocks.
Proof.
  assert (Hl : ∀ a e f, initial_blocks !! a = Some (e, f) → a = MALLOC_BASE ∧ e = 17).
  { intros a e f H. unfold initial_blocks in H. apply lookup_singleton_Some in H as [<- [= <- _]]. done. }
  split.
  - intros a e f H. apply Hl in H as [-> ->]. split; [done|]. split; [done|]. split; [done|]. by exists 0.
  - intros a e f a' e' f' H H'. apply Hl in H as [-> _], H' as [-> _]. done.
  - intros x Hx. exists MALLOC_BASE, 17, true. split; [apply lookup_singleton_eq|exact Hx].
Qed.

Lemma initial_coalesced : coalesced initial_blocks.
Proof.
  intros a e H He. unfold initial_blocks in H. apply lookup_singleton_Some in H as [_ [= <-]]. lia.
Qed.

(** Before [malloc_init]: the static variables, wherever the linker put them. *)
Definition heap_start (h : heap) : Prop :=
  heap_layout (h_mem h) (h_bsystem h) ∧ length (h_buckets h) = Z.to_nat BUDDY_ENTRIES.

Lemma same_but_trans m1 m2 m3 l l' : same_but m1 m2 l → same_but m2 m3 l' → same_but m1 m3 (l ++ l').
Proof.
  intros [H1 H2] [H3 H4]. split; [congruence|]. intros a Ha.
  rewrite H4, H2; [done|intros (p & Hp & Hc)..]; apply Ha; exists p; rewrite elem_of_app; tauto.
Qed.

(** The loop over the buckets. *)
Lemma init_buckets_ok h : heap_start h →
  wp (while (init_bucket_step BUDDY_ENTRIES) (0, h)) (fun h' =>
    mem_lists (h_mem h') (h_bsystem h') (fun _ => []) ∧ bk_ok (h_buckets h') (fun _ => 0) ∧
    mm_lock h' = mm_lock h ∧ h_screen h' = h_screen h ∧ h_bsystem h' = h_bsystem h).
Proof.
  intros [Hlay Hlen].
  apply (wp_while (init_bucket_step BUDDY_ENTRIES)
    (fun '(i, h') => 0 <= i <= BUDDY_ENTRIES ∧ heap_layout (h_mem h') (h_bsystem h') ∧
      length (h_buckets h') = Z.to_nat BUDDY_ENTRIES ∧
      (∀ k, 0 <= k < i → dlist (h_mem h') (h_bsystem h' + BUCKET_SIZE * k) [] ∧
        h_buckets h' !! Z.to_nat k = Some (Bucket 0 (SZ k))) ∧
      mm_lock h' = mm_lock h ∧ h_screen h' = h_screen h ∧ h_bsystem h' = h_bsystem h)
    (fun st => BUDDY_ENTRIES - st.1) _ (0, h)).
  - intros [i h'] (Hi & Hlay' & Hlen' & Hk & Hrest). unfold init_bucket_step.
    destruct (Z.ltb_spec i BUDDY_ENTRIES) as [Hlt|Hge].
    + assert (Hib : bucket_index i) by (unfold bucket_index; lia).
      rewrite list_set_ok, bind_ok by (rewrite Hlen'; change (Z.of_nat (Z.to_nat BUDDY_ENTRIES)) with BUDDY_ENTRIES; lia).
      destruct (INIT_LIST_HEAD_ok (h_mem h') (h_bsystem h' + BUCKET_SIZE * i)) as (m' & E & Hd & Hs).
      { by apply layout_head. }
      unfold on_mem. cbn [h_mem set_buckets]. cbv beta.
      change (ptr _ i) with (h_bsystem h' + BUCKET_SIZE * i). rewrite E, !bind_ok. cbn [wp wpx fst].
      split; [|lia]. split; [lia|]. cbn [set_mem set_buckets h_mem h_bsystem h_buckets mm_lock h_screen].
      split; [split; [rewrite (proj1 Hs); apply Hlay'|apply Hlay']|]. split; [by rewrite length_insert|].
      split; [|done]. intros k Hki. destruct (Z.eq_dec k i) as [->|Hne].
      * split; [done|]. rewrite list_lookup_insert_eq by lia. repeat f_equal.
        unfold SZ. rewrite Z.shiftl_1_l. apply u32_id.
        pose proof (SZ_bound i Hib) as Hs2. unfold SZ in Hs2. unfold is_u32. lia.
      * destruct (Hk k ltac:(lia)) as [Hdk Hbk]. rewrite list_lookup_insert_ne by lia. split; [|done].
        apply (dlist_same (h_mem h')); [done|]. intros p Hp. apply list_elem_of_singleton in Hp as ->.
        unfold nxt, prv. split; apply Hs; intros (q & Hq & Hc); apply list_elem_of_singleton in Hq as ->;
          unfold BUCKET_SIZE in *; lia.
    + assert (i = BUDDY_ENTRIES) as -> by lia. cbn [wp wpx]. split; [|split; [|done]].
      * destruct Hlay' as [Hreg Hbs]. split; [done|done| | | |].
        -- intros e He. by apply Hk.
        -- intros e He. constructor.
        -- intros e a He Ha. by apply elem_of_nil in Ha.
        -- intros e e' a He He' Ha. by apply elem_of_nil in Ha.
      * split; [done|]. intros e He. by apply Hk.
  - split; [done|]. split; [done|]. split; [done|]. split; [intros k Hk; lia|done].
  - cbn [fst]. done.
Qed.

Definition initial_lists (e : Z) : list Z := if e =? BUDDY_ENTRIES - 1 then [MALLOC_BASE] else [].

Lemma init_pool_ok m bs l base lk sc : mem_lists m bs (fun _ => []) → bk_ok l (fun _ => 0) →
  ∃ m' l', init_pool (Heap m bs l base lk sc) BUDDY_ENTRIES = Ok (Heap m' bs l' MALLOC_BASE lk sc) ∧
    heap_rep (Heap m' bs l' MALLOC_BASE lk sc) initial_blocks initial_lists.
Proof.
  intros Hm Hl. assert (H17 : bucket_index (BUDDY_ENTRIES - 1)) by done.
  destruct (block_chunk MALLOC_BASE 17 ltac:(done) ltac:(done) ltac:(done) ltac:(by exists 0)) as [Hch Ht].
  change (MALLOC_BASE + SZ 17 - 1) with 0x9FFFFF in Ht.
  destruct (bk_count l _ (BUDDY_ENTRIES - 1) 1 Hl H17 ltac:(done)) as (l' & C & Hl').
  destruct (add_lists m bs (fun _ => []) (BUDDY_ENTRIES - 1) MALLOC_BASE Hm H17 Hch) as (m1 & D1 & M1 & F1).
  { intros k _ Hin. by apply elem_of_nil in Hin. }
  set (fl := fupd _ _ _) in M1.
  destruct (byte_lists m1 bs fl 0x9FFFFF (BUDDY_ENTRIES - 1) M1 (proj1 Ht) ltac:(done)) as (D2 & M2 & F2 & T2).
  { intros k x Hk Hx. apply (tag_outside _ x Ht). by apply (ml_chunk _ _ _ M1 k). }
  exists (upd8 m1 0x9FFFFF (BUDDY_ENTRIES - 1)), l'. split.
  - specialize (C m bs MALLOC_BASE lk sc). unfold add_count in C.
    rewrite (bk_get (Heap m bs l MALLOC_BASE lk sc) _ _ Hl H17), bind_ok in C. cbn [count] in C.
    unfold init_pool. cbv zeta. cbn [h_mem h_bsystem h_buckets mm_lock h_screen mem_base].
    change (0 + 1) with 1 in C. rewrite C, bind_ok.
    rewrite (on_mem_ok _ _ _ _ _ _ _ m1 D1), bind_ok.
    rewrite (bk_get (Heap m1 bs l' MALLOC_BASE lk sc) _ _ Hl' H17), bind_ok. cbn [size mem_base].
    change (u64 (MALLOC_BASE + SZ (BUDDY_ENTRIES - 1) - 1)) with 0x9FFFFF.
    apply (on_mem_ok _ _ _ _ _ _ _ _ D2).
  - assert (Hlk : ∀ a e f, initial_blocks !! a = Some (e, f) ↔ a = MALLOC_BASE ∧ e = 17 ∧ f = true).
    { intros a e f. unfold initial_blocks. rewrite lookup_singleton_Some. split; [by intros [<- [= <- <-]]|by intros (-> & -> & ->)]. }
    split; cbn [h_mem h_bsystem h_buckets mem_base]; [exact M2| |done| | | |exact initial_pool].
    + apply (bk_ext _ _ _ Hl'). intros e He. unfold lengths, initial_lists, fupd. by destruct (e =? BUDDY_ENTRIES - 1).
    + intros e a He. rewrite Hlk. unfold initial_lists. destruct (Z.eqb_spec e (BUDDY_ENTRIES - 1)) as [->|Hne].
      * rewrite list_elem_of_singleton. split; [by intros ->|by intros (-> & _)].
      * split; [intros Hin; by apply elem_of_nil in Hin|]. intros (_ & -> & _). done.
    + intros a e f H. apply Hlk in H as (-> & -> & ->). exact T2.
    + intros a e H. by apply Hlk in H as (_ & _ & [=]).
Qed.

Lemma malloc_init_ok {HM : Mmu} v h v' h' : heap_start h → malloc_init v h = Ok (v', h') →
  heap_rep h' initial_blocks initial_lists ∧ mm_lock h' = mm_lock h ∧ h_bsystem h' = h_bsystem h.
Proof.
  intros Hs E. unfold malloc_init in E. cbv zeta in E.
  change (u8 (BUDDY_MAX_ORDER - BUDDY_MIN_ORDER + 1)) with BUDDY_ENTRIES in E.
  destruct (proj1 (wp_ok _ _) (init_buckets_ok h Hs)) as (h1 & E1 & Hm & Hb & Hl & Hsc & Hbs).
  rewrite E1, bind_ok in E. destruct h1 as [m bs l base lk sc]. cbn [h_mem h_bsystem h_buckets mm_lock h_screen] in *.
  destruct (alloc_phys_frames_aligned _ _ _) as [[paddr f]| | |]; try discriminate E. rewrite bind_ok in E.
  destruct (paddr =? 0); [discriminate E|].
  destruct (while (map_pool_step _) _) as [v2| | |]; try discriminate E. rewrite bind_ok in E.
  destruct (init_pool_ok m bs l base lk sc Hm Hb) as (m' & l' & E2 & Hr).
  rewrite E2, bind_ok in E. injection E as _ <-. done.
Qed.

(** ** Sequences of calls *)

(** The heap, and the pointers handed out and not yet freed, with the sizes asked
    for. Between two calls the program may write to the bytes it was given. *)
Definition heap_sys : Type := heap * gmap Z Z.

Inductive heap_step : heap_sys → heap_sys → Prop :=
  | step_malloc h L size' p h' : 0 <= size' <= 2 ^ 22 - 9 → malloc h size' = Ok (p, h') →
      heap_step (h, L) (h', <[p := size']> L)
  | step_free h L p size' h' : L !! p = Some size' → free h p = Ok h' → heap_step (h, L) (h', delete p L)
  | step_write h L p size' i v m' : L !! p = Some size' → 0 <= i < size' → is_u8 v →
      st8 (h_mem h) (p + i) v = Ok m' → heap_step (h, L) (set_mem h m', L).

(** What every sequence of calls keeps. *)
Definition heap_inv (s : heap_sys) : Prop :=
  lock_free (mm_lock s.1) ∧ ∃ B fl, heap_rep s.1 B fl ∧ coalesced B ∧
    ∀ p size', s.2 !! p = Some size' → ∃ e, B !! (p - 8) = Some (e, false) ∧ 0 <= size' ∧ size' + 9 <= SZ e.

Lemma malloc_inv h L size' p h' : heap_inv (h, L) → 0 <= size' <= 2 ^ 22 - 9 → malloc h size' = Ok (p, h') →
  heap_inv (h', <[p := size']> L).
Proof.
  intros (Hl & B & fl & Hr & HC & HL) Hs E. cbn [fst snd] in *.
  destruct (malloc_ok h B fl size' Hr Hl Hs) as (e & He & [Hfit _] & Hw). rewrite E in Hw.
  destruct Hw as (j & a & fl' & Hj & Hej & _ & Ha & Hp & Hr' & _ & Hl' & _). cbn [fst snd] in *. subst p.
  split; [done|]. exists (take_block a j e B), fl'. split; [done|]. unfold bucket_index in He.
  split; [by apply take_coalesced; [apply Hr|..]; try lia|].
  intros q size'' Hq. cbn [snd] in Hq. apply lookup_insert_Some in Hq as [[<- <-]|[Hne Hq]].
  - exists e. replace (a + 8 - 8) with a by lia. split; [apply take_here|]. split; [lia|done].
  - destruct (HL q size'' Hq) as (k & Hk & Hk'). exists k. split; [|done].
    rewrite take_other; [done|apply Hr|done|lia|intros E2; rewrite E2, Ha in Hk; discriminate Hk|].
    intros i Hi E2. rewrite E2 in Hk.
    rewrite (proj2 (take_half B a j e (hr_pool _ _ _ Hr) Ha ltac:(lia) i Hi)) in Hk. discriminate Hk.
Qed.

Lemma free_inv h L p size' h' : heap_inv (h, L) → L !! p = Some size' → free h p = Ok h' →
  heap_inv (h', delete p L).
Proof.
  intros (Hl & B & fl & Hr & HC & HL) Hp E. cbn [fst snd] in *. destruct (HL p size' Hp) as (e & Ha & _).
  destruct (free_ok h B fl (p - 8) e Hr Hl Ha) as (h2 & E2 & (fl' & Hr') & _ & Hl' & _).
  replace (p - 8 + 8) with p in E2 by lia. rewrite E in E2. injection E2 as <-.
  split; [done|]. exists (release_block B (p - 8) e), fl'. split; [done|].
  split; [by apply (release_ok B (p - 8) e false); [apply Hr|..]|].
  intros q size'' Hq. cbn [snd] in Hq. apply lookup_delete_Some in Hq as [Hne Hq]. destruct (HL q size'' Hq) as (k & Hk & Hk').
  exists k. split; [|done]. apply (merge_live _ B (p - 8) e (q - 8) k false); [apply Hr|done|lia|done].
Qed.

Lemma write_inv h L p size' i v m' : heap_inv (h, L) → L !! p = Some size' → 0 <= i < size' → is_u8 v →
  st8 (h_mem h) (p + i) v = Ok m' → heap_inv (set_mem h m', L).
Proof.
  intros (Hl & B & fl & Hr & HC & HL) Hp Hi Hv E. cbn [fst snd] in *. destruct (HL p size' Hp) as (e & Ha & Hs & Hfit).
  destruct (rep_block h B fl Hr _ _ _ Ha) as (He & Halo & Hahi & _).
  destruct (byte_lists (h_mem h) (h_bsystem h) fl (p + i) v (hr_lists _ _ _ Hr) ltac:(lia) Hv) as (D & M & F & _).
  { intros k x Hk Hx. by apply (proj1 (rep_live _ _ _ Hr (p - 8) e (p + i) Ha ltac:(lia)) x k). }
  rewrite D in E. injection E as <-. split; [done|]. exists B, fl. split; [|by split].
  assert (Hblk : ∀ c k f, B !! c = Some (k, f) → c + SZ k - 1 ≠ p + i ∧ (f = false → c ≠ p + i)).
  { intros c k f Hc. destruct (Z.eq_dec c (p - 8)) as [->|Hne].
    - rewrite Ha in Hc. injection Hc as <- <-. lia.
    - destruct (rep_block h B fl Hr _ _ _ Hc) as (Hk & _). pose proof (SZ_bound k Hk).
      split; [by apply (rep_end h B fl Hr c k f (p - 8) e false); [..|lia]|].
      intros ->. destruct (po_disjoint B (hr_pool _ _ _ Hr) _ _ _ _ _ _ Hc Ha Hne); lia. }
  destruct Hr as [R1 R2 R3 R4 R5 R6 R7]. split; cbn [h_mem h_bsystem h_buckets mem_base set_mem fst]; try done.
  - intros c k f Hc. rewrite byte_upd8. destruct (Z.eqb_spec (p + i) (c + SZ k - 1)) as [E|]; [|by apply R5].
    by destruct (proj1 (Hblk c k f Hc)).
  - intros c k Hc. rewrite byte_upd8. destruct (Z.eqb_spec (p + i) c) as [E|]; [|by apply R6].
    by destruct (proj2 (Hblk c k false Hc) eq_refl).
Qed.

Lemma heap_reachable_inv s s' : heap_inv s → rtc heap_step s s' → heap_inv s'.
Proof.
  intros Hs Hr. induction Hr as [s|s1 s2 s3 H12 _ IH]; [done|]. apply IH. destruct H12.
  - by eapply malloc_inv.
  - by eapply free_inv.
  - by eapply write_inv.
Qed.

Lemma initial_inv h : heap_rep h initial_blocks initial_lists → lock_free (mm_lock h) → heap_inv (h, ∅).
Proof.
  intros Hr Hl. split; [done|]. exists initial_blocks, initial_lists. split; [done|].
  split; [exact initial_coalesced|]. intros p size' H. cbn [snd] in H. by rewrite lookup_empty in H.
Qed.

(** ** A heap to run *)

(** The linker's choice here: [bsystem] in the kernel's data. *)
Definition sample_bsystem : Z := 0xFFFFFFFFC0300000.
Definition sample_heap : heap :=
  Heap (Store ∅ [(MALLOC_BASE, MALLOC_END); (sample_bsystem, sample_bsystem + BUDDY_ENTRIES * BUCKET_SIZE)])
    sample_bsystem (replicate 18 (Bucket 0 0)) 0 SPINLOCK_UNLOCKED screen_init.

Definition ample_vm : vm phys := Vm boot_mem 0x300000 SPINLOCK_UNLOCKED [] ample_phys.

Definition boot_heap : outcome heap :=
  match malloc_init ample_vm sample_heap with Ok (_, h) => Ok h | _ => Fault end.

Lemma sample_start : heap_start sample_heap.
Proof.
  split; [|done]. split; [done|]. split; [by exists (sample_bsystem / 8)|]. split; [done|]. split; [done|]. right. done.
Qed.

Lemma boot_init : ∃ v h, malloc_init ample_vm sample_heap = Ok (v, h).
Proof.
  assert (H : match malloc_init ample_vm sample_heap with Ok _ => true | _ => false end = true) by (vm_compute; reflexivity).
  destruct (malloc_init ample_vm sample_heap) as [[v h]|m| |]; [|discriminate H..]. by exists v, h.
Qed.

Lemma boot_heap_ok : ∃ h, boot_heap = Ok h ∧ heap_rep h initial_blocks initial_lists ∧ lock_free (mm_lock h).
Proof.
  destruct boot_init as (v & h & E). unfold boot_heap. rewrite E.
  destruct (malloc_init_ok ample_vm sample_heap v h sample_start E) as (Hr & Hl & _).
  exists h. split; [done|]. split; [exact Hr|]. rewrite Hl. apply lock_free_unlocked.
Qed.

Lemma initial_not_empty e : bucket_index e → ¬ (∀ k, e <= k < BUDDY_ENTRIES → initial_lists k = []).
Proof.
  unfold bucket_index. change BUDDY_ENTRIES with 18. intros He Hall. specialize (Hall 17 ltac:(lia)). discriminate Hall.
Qed.

(** ** Properties *)

(** C5: [malloc] allocates from the smallest bucket that serves the request.
    For a size up to 2^22 - 9 it never faults or hangs: it panics ("out of
    memory") exactly with every bucket from [e] up empty, where [e] is the
    least bucket whose blocks hold the size and 9 bytes of bookkeeping;
    otherwise it takes the block [a] at the head of the list of the first bucket [j] from [e]
    up that is not empty, cuts it down to [e], and returns the address 8 bytes
    into it. The new state represents exactly these blocks, with the lists of the buckets
    exactly known: the rest of the list in bucket [j], the upper half of each cut
    alone in its bucket, every other list as it was; no byte of another
    allocated block has changed, and the lock is free. *)
Theorem malloc_spec h B fl size' : heap_rep h B fl → lock_free (mm_lock h) → 0 <= size' <= 2 ^ 22 - 9 →
  ∃ e, bucket_index e ∧ size' + 9 <= SZ e ∧ (e = 0 ∨ SZ (e - 1) < size' + 9) ∧
    wpx (malloc h size')
      (fun '(p, h') => ∃ j a fl', bucket_index j ∧ e <= j ∧ (∀ k, e <= k < j → fl k = []) ∧
         head (fl j) = Some a ∧ B !! a = Some (j, true) ∧ p = a + 8 ∧ heap_rep h' (take_block a j e B) fl' ∧
         (∀ k, fl' k = if k =? j then tail (fl j) else if (e <=? k) && (k <? j) then [a + SZ k] else fl k) ∧
         live_same B (h_mem h) (h_mem h') ∧ lock_free (mm_lock h'))
      (fun m => m = "out of memory"%string ∧ ∀ k, e <= k < BUDDY_ENTRIES → fl k = []) False.
Proof.
  intros Hr Hl Hs. destruct (malloc_ok h B fl size' Hr Hl Hs) as (e & He & [Hfit Hleast] & Hw).
  exists e. split; [done|]. split; [done|]. split; [done|]. apply (wpx_post _ _ _ _ _ Hw).
  intros [p h'] (j & a & fl' & H). cbn [fst snd] in H. exists j, a, fl'. tauto.
Qed.

Lemma malloc_spec_witness :
  ∃ h p h' fl', boot_heap = Ok h ∧ malloc h 100 = Ok (p, h') ∧ p = MALLOC_BASE + 8 ∧
    heap_rep h' (take_block MALLOC_BASE 17 2 initial_blocks) fl'.
Proof.
  destruct boot_heap_ok as (h & E & Hr & Hl).
  destruct (malloc_spec h initial_blocks initial_lists 100 Hr Hl ltac:(lia)) as (e & He & Hfit & Hleast & Hw).
  assert (Ee : e = 2).
  { unfold bucket_index in He. destruct (Z.lt_trichotomy e 2) as [Hlt|[->|Hgt]]; [|done|].
    - pose proof (SZ_mono e 1 ltac:(lia)). change (SZ 1) with 64 in *. lia.
    - destruct Hleast as [->|Hleast]; [lia|]. pose proof (SZ_mono 2 (e - 1) ltac:(lia)). change (SZ 2) with 128 in *. lia. }
  subst e. destruct (malloc h 100) as [[p h']|m| |] eqn:E2; [| |destruct Hw..].
  - destruct Hw as (j & a & fl' & _ & _ & _ & _ & Ha & -> & Hr' & _).
    unfold initial_blocks in Ha. apply lookup_singleton_Some in Ha as [<- [= <-]].
    exists h, (MALLOC_BASE + 8), h', fl'. split; [exact E|]. split; [exact E2|]. split; [reflexivity|exact Hr'].
  - destruct Hw as [_ Hall]. by destruct (initial_not_empty _ He Hall).
Defined.

(** C20: [free] of an allocated block returns, and merges it with its buddies as
    far as they are free ([release_block]); where no two free blocks could be
    merged before, none can after; no byte of another allocated block has
    changed, every other allocated block stays allocated, and the lock is
    free. *)
Theorem free_spec h B fl a e : heap_rep h B fl → lock_free (mm_lock h) → B !! a = Some (e, false) →
  ∃ h' fl', free h (a + 8) = Ok h' ∧ heap_rep h' (release_block B a e) fl' ∧
    (coalesced B → coalesced (release_block B a e)) ∧ live_same (delete a B) (h_mem h) (h_mem h') ∧
    (∀ c k, c ≠ a → B !! c = Some (k, false) → release_block B a e !! c = Some (k, false)) ∧
    lock_free (mm_lock h').
Proof.
  intros Hr Hl Ha. destruct (free_ok h B fl a e Hr Hl Ha) as (h' & E & (fl' & Hr') & Hlive & Hl' & _).
  exists h', fl'. split; [done|]. split; [done|]. split; [|split; [done|split; [|done]]].
  - intros HC. by apply (release_ok B a e false (hr_pool _ _ _ Hr) Ha HC).
  - intros c k Hne Hc. by apply (merge_live _ B a e c k false (hr_pool _ _ _ Hr) Ha Hne Hc).
Qed.

(** C37: A round trip: freeing what [malloc] just returned puts the heap back to
    the same blocks, however many blocks were cut on the way. *)
Theorem malloc_free_roundtrip h B fl size' p h1 : heap_rep h B fl → coalesced B → lock_free (mm_lock h) →
  0 <= size' <= 2 ^ 22 - 9 → malloc h size' = Ok (p, h1) →
  ∃ h2 fl2, free h1 p = Ok h2 ∧ heap_rep h2 B fl2 ∧ lock_free (mm_lock h2).
Proof.
  intros Hr HC Hl Hs E. destruct (malloc_ok h B fl size' Hr Hl Hs) as (e & He & _ & Hw). rewrite E in Hw.
  destruct Hw as (j & a & fl' & Hj & Hej & _ & Ha & Hp & Hr1 & _ & Hl1 & _). cbn [fst snd] in *. subst p.
  destruct (free_ok h1 _ fl' a e Hr1 Hl1 (take_here B a j e)) as (h2 & E2 & (fl2 & Hr2) & _ & Hl2 & _).
  unfold bucket_index in He. rewrite (release_take B a j e (hr_pool _ _ _ Hr) HC Ha ltac:(lia)) in Hr2.
  by exists h2, fl2.
Qed.

(** The first call after boot cuts the pool. *)
Lemma malloc_boot_at h size' e : heap_rep h initial_blocks initial_lists → lock_free (mm_lock h) →
  bucket_index e → next_power2 (u32 (size' + 9)) = Ok (e + BUDDY_MIN_ORDER) →
  ∃ h1 fl', malloc h size' = Ok (MALLOC_BASE + 8, h1) ∧
    heap_rep h1 (take_block MALLOC_BASE 17 e initial_blocks) fl' ∧ lock_free (mm_lock h1).
Proof.
  intros Hr Hl He En. pose proof (malloc_entry_ok h initial_blocks initial_lists size' e Hr Hl He En) as Hw.
  remember (malloc h size') as r eqn:Em. destruct r as [[p h1]|m| |]; [| |destruct Hw..].
  - destruct Hw as (j & a & fl' & _ & _ & _ & Ha & Hp & Hr' & _ & Hl' & _). cbn [fst snd] in *. subst p.
    unfold initial_blocks in Ha. apply lookup_singleton_Some in Ha as [<- [= <-]].
    exists h1, fl'. split; [done|]. split; [exact Hr'|exact Hl'].
  - destruct Hw as [_ Hall]. by destruct (initial_not_empty _ He Hall).
Qed.

Lemma malloc_boot size' e : bucket_index e → next_power2 (u32 (size' + 9)) = Ok (e + BUDDY_MIN_ORDER) →
  ∃ h h1 fl', boot_heap = Ok h ∧ heap_rep h initial_blocks initial_lists ∧ lock_free (mm_lock h) ∧
    malloc h size' = Ok (MALLOC_BASE + 8, h1) ∧ heap_rep h1 (take_block MALLOC_BASE 17 e initial_blocks) fl' ∧
    lock_free (mm_lock h1).
Proof.
  intros He En. destruct boot_heap_ok as (h & E & Hr & Hl).
  destruct (malloc_boot_at h size' e Hr Hl He En) as (h1 & fl' & H1 & H2).
  exists h, h1, fl'. split; [exact E|]. split; [exact Hr|]. split; [exact Hl|]. split; [exact H1|exact H2].
Qed.

Lemma free_spec_witness : ∃ h1 h' fl', free h1 (MALLOC_BASE + 8) = Ok h' ∧
  heap_rep h' (release_block (take_block MALLOC_BASE 17 0 initial_blocks) MALLOC_BASE 0) fl' ∧ lock_free (mm_lock h').
Proof.
  assert (He : bucket_index 0) by done.
  destruct (malloc_boot 10 0 He ltac:(reflexivity)) as (h & h1 & fl & _ & _ & _ & _ & Hr & Hl).
  destruct (free_spec h1 _ fl MALLOC_BASE 0 Hr Hl (take_here initial_blocks MALLOC_BASE 17 0))
    as (h' & fl2 & E2 & Hr2 & _ & _ & _ & Hl2).
  exists h1, h', fl2. split; [exact E2|]. split; [exact Hr2|exact Hl2].
Defined.

Lemma malloc_free_roundtrip_witness : ∃ h p h1 h2 fl2, malloc h 3000 = Ok (p, h1) ∧ free h1 p = Ok h2 ∧
  heap_rep h2 initial_blocks fl2.
Proof.
  assert (He : bucket_index 7) by done.
  destruct (malloc_boot 3000 7 He ltac:(reflexivity)) as (h & h1 & fl & _ & Hr & Hl & E & _).
  destruct (malloc_free_roundtrip h initial_blocks initial_lists 3000 _ h1 Hr initial_coalesced Hl ltac:(lia) E)
    as (h2 & fl2 & E2 & Hr2 & _).
  exists h, (MALLOC_BASE + 8), h1, h2, fl2. split; [exact E|]. split; [exact E2|exact Hr2].
Defined.

(** ** The whole life of the heap *)

(** What the program relies on at any time: the pointers it holds. *)
Record heap_safe (s : heap_sys) : Prop := HeapSafe {
  safe_inside p n : s.2 !! p = Some n → MALLOC_BASE + 8 <= p ∧ p + n < MALLOC_END ∧ (8 | p);
  safe_apart p n q k : s.2 !! p = Some n → s.2 !! q = Some k → p ≠ q → p + n <= q - 8 ∨ q + k <= p - 8;
  safe_free p n : s.2 !! p = Some n → ∃ h', free s.1 p = Ok h';
  safe_malloc n : 0 <= n <= 2 ^ 22 - 9 →
    wpx (malloc s.1 n) (fun '(p, h') => s.2 !! p = None) (fun m => m = "out of memory"%string) False
}.

Lemma heap_inv_safe s : heap_inv s → heap_safe s.
Proof.
  destruct s as [h L]. intros (Hl & B & fl & Hr & _ & HL). cbn [fst snd] in *. split; cbn [fst snd].
  - intros p n Hp. destruct (HL p n Hp) as (e & Ha & Hn & Hfit).
    destruct (rep_block h B fl Hr _ _ _ Ha) as (He & Hlo & Hhi & Hal & _). split; [lia|]. split; [lia|].
    unfold bucket_index in He.
    assert (H8 : (8 | p - 8 - MALLOC_BASE)).
    { apply (Z.divide_trans _ (SZ e)); [|done]. apply (Z.divide_trans _ 32); [by exists 4|by apply SZ_32; lia]. }
    destruct H8 as [i Hi], base_8 as [j Hj]. exists (i + j + 1). lia.
  - intros p n q k Hp Hq Hne. destruct (HL p n Hp) as (e & Ha & Hn & Hfit), (HL q k Hq) as (e' & Ha' & Hk & Hfit').
    destruct (po_disjoint B (hr_pool _ _ _ Hr) _ _ _ _ _ _ Ha Ha' ltac:(lia)); lia.
  - intros p n Hp. destruct (HL p n Hp) as (e & Ha & _).
    destruct (free_ok h B fl (p - 8) e Hr Hl Ha) as (h' & E & _). exists h'.
    by replace (p - 8 + 8) with p in E by lia.
  - intros n Hn. destruct (malloc_ok h B fl n Hr Hl Hn) as (e & He & _ & Hw).
    refine (wpx_mono _ _ _ _ _ _ _ Hw _ _ id); [|by intros m [-> _]].
    intros [p h'] (j & a & fl' & _ & _ & _ & Ha & Hp & _). cbn [fst snd] in *. subst p.
    destruct (L !! (a + 8)) as [n'|] eqn:E; [|done]. destruct (HL _ _ E) as (e' & Ha' & _).
    replace (a + 8 - 8) with a in Ha' by lia. rewrite Ha in Ha'. discriminate Ha'.
Qed.

(** C15: From [malloc_init] on, after any sequence of calls of [malloc] and
    [free] (of a pointer handed out and not yet freed) and of writes of the
    program to the bytes it was given: the pointers handed out lie in the pool,
    8-aligned; the bytes behind them and the 8 bytes before them belong to no
    other pointer; each can be freed without a fault; and [malloc] of up to
    2^22 - 9 bytes neither faults nor hangs and returns a pointer that is
    not in use, or panics for lack of memory. *)
Theorem heap_safety {HM : Mmu} v h0 v' h s : heap_start h0 → lock_free (mm_lock h0) →
  malloc_init v h0 = Ok (v', h) → rtc heap_step (h, ∅) s → heap_safe s.
Proof.
  intros Hs Hl E Hr. apply heap_inv_safe. apply (heap_reachable_inv (h, ∅)); [|done].
  destruct (malloc_init_ok v h0 v' h Hs E) as (Hrep & Hlock & _). apply initial_inv; [done|by rewrite Hlock].
Qed.

Lemma size_100 : 0 <= 100 <= 2 ^ 22 - 9.
Proof. lia. Qed.

Lemma heap_safety_witness : ∃ h p h1, malloc h 100 = Ok (p, h1) ∧ heap_safe (h1, <[p := 100]> ∅).
Proof.
  assert (He : bucket_index 2) by done.
  destruct boot_init as (v & h & E). pose proof (malloc_init_ok ample_vm sample_heap v h sample_start E) as (Hr & Hl & _).
  destruct (malloc_boot_at h 100 2 Hr ltac:(rewrite Hl; apply lock_free_unlocked) He ltac:(reflexivity)) as (h1 & fl' & Em & _).
  exists h, (MALLOC_BASE + 8), h1. split; [exact Em|].
  apply (heap_safety ample_vm sample_heap v h (h1, <[MALLOC_BASE + 8 := 100]> ∅) sample_start lock_free_unlocked E).
  exact (rtc_once _ _ (step_malloc h ∅ 100 _ h1 size_100 Em)).
Defined.

(** ** Calls the checks do not catch *)

(** C38: A size above 2^22 - 9 is not checked. Up to 2^31 - 9 the loop of
    [next_power2] ends with an order that has no bucket, and [malloc] reads
    past the array [bsystem]; beyond, it never ends, since no 32-bit power
    of two is that large; and for the last 9 sizes the sum [size + 9] wraps
    around, so that [malloc] hands out a block of 32 bytes. *)
Theorem malloc_oversize h B fl size' : heap_rep h B fl → lock_free (mm_lock h) → 2 ^ 22 - 9 < size' < 2 ^ 32 →
  (size' <= 2 ^ 31 - 9 → malloc h size' = Fault) ∧
  (2 ^ 31 - 9 < size' < 2 ^ 32 - 9 → malloc h size' = Hang) ∧
  (2 ^ 32 - 9 <= size' → ∀ p h', malloc h size' = Ok (p, h') →
     ∃ B' fl', heap_rep h' B' fl' ∧ B' !! (p - 8) = Some (0, false)).
Proof.
  intros Hr Hl Hs. split; [|split].
  - intros Hle. destruct (order_ok size' ltac:(lia)) as (e & En & He & Hfit & _). unfold malloc. rewrite En, bind_ok.
    replace (e + BUDDY_MIN_ORDER - BUDDY_MIN_ORDER) with e by lia.
    rewrite u8_id by (unfold is_u8; lia). rewrite lock_heap_ok, bind_ok by done.
    rewrite (bk_fault (set_lock h _) (lengths fl) e); [reflexivity|apply Hr|].
    change BUDDY_ENTRIES with 18. destruct (Z.lt_ge_cases e 18); [|lia].
    pose proof (SZ_mono e 17 ltac:(lia)). change (SZ 17) with (2 ^ 22) in *. lia.
  - intros Hle. unfold malloc. rewrite u32_id by (unfold is_u32; lia). by rewrite next_power2_hangs by lia.
  - intros Hle p h' E. assert (He : bucket_index 0) by done.
    assert (En : next_power2 (u32 (size' + 9)) = Ok (0 + BUDDY_MIN_ORDER)).
    { assert (E9 : u32 (size' + 9) = size' + 9 - 2 ^ 32) by (unfold u32; dlia).
      rewrite E9. unfold next_power2. by rewrite (proj2 (Z.ltb_lt _ _)) by (change BUDDY_MIN_BLK with 32; lia). }
    pose proof (malloc_entry_ok h B fl size' 0 Hr Hl He En) as Hw. rewrite E in Hw.
    destruct Hw as (j & a & fl' & _ & _ & _ & _ & Hp & Hr' & _). cbn [fst snd] in *. subst p.
    exists (take_block a j 0 B), fl'. split; [done|]. replace (a + 8 - 8) with a by lia. apply take_here.
Qed.

Lemma malloc_oversize_witness : ∃ h, malloc h 4194296 = Fault.
Proof.
  destruct boot_heap_ok as (h & E & Hr & Hl). exists h.
  apply (malloc_oversize h initial_blocks initial_lists 4194296 Hr Hl ltac:(lia)). lia.
Defined.

Lemma dlist_next s h l1 a l2 : dlist s h (l1 ++ a :: l2) → nxt s a = hd h l2.
Proof.
  intros (Hs & Hl & _). rewrite last_app in Hl. apply seg_app in Hs as (_ & _ & _ & S2).
  destruct l2 as [|b l2]; [done|]. by destruct S2.
Qed.

Lemma byte_word s a : (8 | a) → byte s a = word s a mod 256.
Proof.
  intros [k ->]. unfold byte, byte_of. rewrite word_at_eq by (by apply Z.mod_mul). rewrite Z.mod_mul by done.
  rewrite Z.shiftr_0_r. change 0xFF with (Z.ones 8). by rewrite Z.land_ones by lia.
Qed.

(** [free] recognises a block that is already free by the byte at its end,
    but finds that end through the byte at its start, where the free list has
    put the low byte of its pointer to the next block [b] (or to the head in
    [bsystem], for the last block). Where that byte is 18 or more, [free]
    reads past the array [bsystem] instead of reporting the double free. *)
Theorem double_free_unchecked h B fl a e l1 l2 : heap_rep h B fl → lock_free (mm_lock h) →
  bucket_index e → fl e = l1 ++ a :: l2 →
  BUDDY_ENTRIES <= hd (ptr h e) l2 mod 256 → free h (a + 8) = Fault.
Proof.
  intros Hr Hl He Hfl Hb. pose proof (hr_lists _ _ _ Hr) as Hm.
  assert (Hc : chunk a) by (apply (ml_chunk _ _ _ Hm e); [done|rewrite Hfl; apply elem_of_app; right; left]).
  pose proof (chunk_8 a Hc) as H8. destruct Hc as (Hlo & Hhi & _).
  pose proof (ml_list _ _ _ Hm e He) as Hd. rewrite Hfl in Hd.
  unfold free. rewrite lock_heap_ok, bind_ok by done. set (h1 := set_lock h _).
  replace (a + 8 - 8) with a by lia. rewrite pool_u64 by lia.
  rewrite ld8_ok, bind_ok by (apply (pool_byte _ _ _ _ Hm); lia).
  rewrite byte_word by done. change (word (h_mem h1) a) with (nxt (h_mem h) a). rewrite (dlist_next _ _ _ _ _ Hd).
  change (h_bsystem h + BUCKET_SIZE * e) with (ptr h e).
  by rewrite (bk_fault h1 (lengths fl)) by (done || apply Hr).
Qed.

(** The pool that malloc_init leaves: its only block is the last of its list. *)
Lemma double_free_unchecked_witness : ∃ h, free h (MALLOC_BASE + 8) = Fault.
Proof.
  assert (He : bucket_index 17) by done. destruct boot_heap_ok as (h & E & Hr & Hl). exists h.
  apply (double_free_unchecked h initial_blocks initial_lists MALLOC_BASE 17 [] [] Hr Hl He); [reflexivity|].
  unfold boot_heap in E. destruct boot_init as (v & h' & E'). rewrite E' in E. injection E as <-.
  pose proof (malloc_init_ok ample_vm sample_heap v h' sample_start E') as (_ & _ & Hbs).
  cbn [hd]. unfold ptr. rewrite Hbs. vm_compute. discriminate.
Defined.
