(* ===== verification/BootInfo.v ===== *)
(** * The configuration of the guests

    [boot_info_t] of [include/boot_info.h] and [parse_boot_info] of
    [kernel/boot_info.c]: the configuration module is mapped, the arrays of the
    guests are allocated on the heap, and the values that are fixed for now are
    filled in. *)

From S2P Require Import Prelude Layout Bits Spinlock Physical Mmu Paging PagingSpec Kernel Screen CList Malloc Buddy MallocSpec MallocProps.

Local Open Scope Z_scope.
Local Open Scope c_scope.

Definition BOOT_STRING_MAX : Z := 32.

(** [boot_info_t]: the arrays behind its pointers are lists. *)
Record boot_info := BootInfo {
  config_paddr : Z;
  config_size : Z;
  num_mod : Z;
  mod_str : list (list Z);
  mod_paddr : list Z;
  mod_size : list Z;
  num_cpus : list Z;
  ram_size : list Z
}.

Definition set_num_mod (info : boot_info) (n : Z) : boot_info :=
  BootInfo (config_paddr info) (config_size info) n (mod_str info) (mod_paddr info) (mod_size info) (num_cpus info) (ram_size info).
Definition set_config (info : boot_info) (paddr size : Z) : boot_info :=
  BootInfo paddr size (num_mod info) (mod_str info) (mod_paddr info) (mod_size info) (num_cpus info) (ram_size info).
Definition set_mod_paddr (info : boot_info) (l : list Z) : boot_info :=
  BootInfo (config_paddr info) (config_size info) (num_mod info) (mod_str info) l (mod_size info) (num_cpus info) (ram_size info).
Definition set_mod_size (info : boot_info) (l : list Z) : boot_info :=
  BootInfo (config_paddr info) (config_size info) (num_mod info) (mod_str info) (mod_paddr info) l (num_cpus info) (ram_size info).

(** What [malloc] leaves in the arrays: their memory is not cleared. *)
Record junk := Junk {
  junk_str : list Z;
  junk64 : Z;
  junk16 : Z;
  junk32 : Z
}.

Definition LINUX_NAME : list Z := [108; 105; 110; 117; 120].
Definition INITRD_NAME : list Z := [105; 110; 105; 116; 114; 100].

(** [x = malloc(size); if (x == NULL) panic(msg)] *)
Definition malloc_or (h : heap) (size : Z) (msg : string) : outcome heap :=
  '(p, h) ← malloc h (u32 size);
  if p =? 0 then Panic msg else Ok h.

(** The array in the block: it has the entries of [esize] bytes that fit in the
    [size] bytes asked for, with what [malloc] left there. *)
Definition malloc_array {B} (h : heap) (esize size : Z) (b : B) (msg : string) : outcome (list B * heap) :=
  h ← malloc_or h size msg;
  Ok (replicate (Z.to_nat (u32 size / esize)) b, h).

Section boot_info.
Context `{HM : Mmu} {A : Type} `{HA : FrameAllocator A}.


(** [pages] is 8 bits wide. *)
Definition config_pages (size : Z) : Z :=
  if size mod PG_SIZE =? 0 then u8 (size >>w PG_BITS) else u8 ((size >>w PG_BITS) +w 1).

Definition parse_boot_info (j : junk) v (h : heap) (info : boot_info) : outcome (vm A * heap * boot_info) :=
  if negb (config_paddr info .& ~w PG_MASK =? 0) then Panic "Config module not aligned to 4KB"
  else
    let pages := config_pages (config_size info) in
    '(addr, v) ← vm_map_pages v (config_paddr info) pages (PGT_P .| PGT_XD);
    if addr =? 0 then Panic "Failed to map config module"
    else if num_mod info =? 0 then Panic "Missing VM images"
    else
      let n := num_mod info in
      '(strs, h) ← malloc_array h 8 (8 * n) (junk_str j) "Failed malloc for mod_str";
      '(paddrs, h) ← malloc_array h 8 (8 * n) (junk64 j) "Failed malloc for mod_paddr";
      '(sizes, h) ← malloc_array h 8 (8 * n) (junk64 j) "Failed malloc for mod_size";
      '(cpus, h) ← malloc_array h 2 (2 * n) (junk16 j) "Failed malloc for num_cpus";
      '(rams, h) ← malloc_array h 4 (4 * n) (junk32 j) "Failed malloc for ram_size";
      '(_, h) ← malloc h BOOT_STRING_MAX;
      strs ← list_set strs 0 LINUX_NAME;
      cpus ← list_set cpus 0 1;
      rams ← list_set rams 0 2;
      '(_, h) ← malloc h BOOT_STRING_MAX;
      strs ← list_set strs 1 INITRD_NAME;
      '(_, v) ← vm_unmap_pages v addr pages;
      Ok (v, h, BootInfo (config_paddr info) (config_size info) n strs paddrs sizes cpus rams).
End boot_info.

(** ** What it leaves *)

Definition heap_ok (h : heap) : Prop := ∃ B fl, heap_rep h B fl ∧ lock_free (mm_lock h).

Lemma malloc_any h size : heap_ok h → 0 <= size <= 2 ^ 22 - 9 →
  wpx (malloc h size) (fun '(p, h') => p ≠ 0 ∧ heap_ok h') (fun m => m = "out of memory"%string) False.
Proof.
  intros (B & fl & Hr & Hl) Hs. destruct (malloc_ok h B fl size Hr Hl Hs) as (e & _ & _ & Hw).
  apply (wpx_mono _ _ _ _ _ _ _ Hw); [|by intros m [-> _]|done].
  intros [p h'] (i & a & fl' & _ & _ & _ & Ha & Hp & Hr' & _ & Hl' & _). cbn [fst snd] in *.
  destruct (rep_block _ B fl Hr _ _ _ Ha) as (_ & Hlo & _). unfold MALLOC_BASE in Hlo.
  split; [lia|]. exists (take_block a i e B), fl'. split; [exact Hr'|exact Hl'].
Qed.

Lemma malloc_or_ok h size msg : heap_ok h → 0 <= size <= 2 ^ 22 - 9 →
  wpx (malloc_or h size msg) heap_ok (fun m => m = "out of memory"%string) False.
Proof.
  intros Hh Hs. unfold malloc_or. rewrite u32_id by (unfold is_u32; lia). apply wpx_bind.
  apply (wpx_post _ _ _ _ _ (malloc_any h size Hh Hs)). intros [p h'] [Hp Hh'].
  destruct (Z.eqb_spec p 0); [done|exact Hh'].
Qed.

(** The arrays of [parse_boot_info] for [n] modules. *)
Record info_ok (info : boot_info) (n : Z) : Prop := InfoOk {
  io_num : num_mod info = n;
  io_range : 1 <= n <= 2 ^ 14;
  io_str : Z.of_nat (length (mod_str info)) = n;
  io_paddr : Z.of_nat (length (mod_paddr info)) = n;
  io_size : Z.of_nat (length (mod_size info)) = n;
  io_cpus : Z.of_nat (length (num_cpus info)) = n;
  io_ram : Z.of_nat (length (ram_size info)) = n;
  io_names s : s ∈ mod_str info → c_string s ∧ Z.of_nat (length s) < BOOT_STRING_MAX;
  io_counts c : c ∈ num_cpus info → is_u16 c
}.


Definition boot_message (info : boot_info) (m : string) : Prop :=
  m = "Failed to map config module"%string ∨ (m = "Missing VM images"%string ∧ num_mod info = 0) ∨ m = "out of memory"%string.

Section spec.
Context `{HM : Mmu} {A : Type} `{HA : FrameAllocator A}.

Lemma config_pages_ok size : 1 <= size <= 255 * 4096 →
  1 <= config_pages size <= 255 ∧ size <= 4096 * config_pages size < size + 4096.
Proof.
  intros Hs. unfold config_pages. rewrite shiftr_12. change PG_SIZE with 4096.
  destruct (Z.eqb_spec (size mod 4096) 0) as [E|E].
  - rewrite u8_id by (unfold is_u8; dlia). dlia.
  - rewrite (u64_id (size / 4096 + 1)), u8_id by (unfold is_u8, is_u64; dlia). dlia.
Qed.

(** The arrays, for two modules or more. *)
Lemma arrays_ok (j : junk) info : c_string (junk_str j) → Z.of_nat (length (junk_str j)) < BOOT_STRING_MAX → is_u16 (junk16 j) →
  2 <= num_mod info <= 2 ^ 14 → let n := Z.to_nat (num_mod info) in
  info_ok (BootInfo (config_paddr info) (config_size info) (num_mod info)
    (<[1%nat := INITRD_NAME]> (<[0%nat := LINUX_NAME]> (replicate n (junk_str j)))) (replicate n (junk64 j)) (replicate n (junk64 j))
    (<[0%nat := 1]> (replicate n (junk16 j))) (<[0%nat := 2]> (replicate n (junk32 j)))) (num_mod info).
Proof.
  intros Hstr Hlen Hj Hn n. split; cbn; rewrite ?length_insert, ?length_replicate; try lia.
  - intros s Hs. apply list_elem_of_lookup in Hs as [i Hi].
    apply list_lookup_insert_Some in Hi as [(_ & <- & _)|[_ Hi]]; [split; [|done]|].
    { intros c Hc. repeat (apply elem_of_cons in Hc as [->|Hc]; [lia|]). by apply elem_of_nil in Hc. }
    apply list_lookup_insert_Some in Hi as [(_ & <- & _)|[_ Hi]]; [split; [|done]|].
    { intros c Hc. repeat (apply elem_of_cons in Hc as [->|Hc]; [lia|]). by apply elem_of_nil in Hc. }
    apply lookup_replicate in Hi as [-> _]. done.
  - intros c Hc. apply list_elem_of_lookup in Hc as [i Hi].
    apply list_lookup_insert_Some in Hi as [(_ & <- & _)|[_ Hi]]; [unfold is_u16; lia|].
    by apply lookup_replicate in Hi as [-> _].
Qed.

Record parsed (v : vm A) (info : boot_info) (f3 f2 f1 : Z) (v' : vm A) (h' : heap) (info' : boot_info) : Prop := Parsed {
  pa_kernel : kernel_pt v' f3 f2 f1;
  pa_memory a : ldw (vm_mem v') a = ldw (vm_mem v) a;
  pa_frames : vm_frames v' = vm_frames v;
  pa_heap : heap_ok h';
  pa_info : info_ok info' (num_mod info);
  pa_config : config_paddr info' = config_paddr info ∧ config_size info' = config_size info;
  pa_names : mod_str info' !! 0%nat = Some LINUX_NAME ∧ mod_str info' !! 1%nat = Some INITRD_NAME;
  pa_first : num_cpus info' !! 0%nat = Some 1 ∧ ram_size info' !! 0%nat = Some 2
}.

(** The array writes on [n] entries. *)
Lemma array_set {B} (b x : B) n i : 0 <= i < Z.of_nat n → list_set (replicate n b) i x = Ok (<[Z.to_nat i := x]> (replicate n b)).
Proof. intros Hi. apply list_set_ok. rewrite length_replicate. lia. Qed.

Lemma parse_boot_info_ok j (v : vm A) f3 f2 f1 h info :
  kernel_pt v f3 f2 f1 → (∀ i, 0 <= i < 512 → slot_free (vm_mem v) f1 i → entry (vm_mem v) f1 i = 0) → heap_ok h →
  c_string (junk_str j) → Z.of_nat (length (junk_str j)) < BOOT_STRING_MAX → is_u16 (junk16 j) →
  config_paddr info mod 2 ^ 12 = 0 → 0 <= config_paddr info < 2 ^ 32 → 1 <= config_size info <= 255 * 4096 →
  0 <= num_mod info <= 2 ^ 14 → num_mod info ≠ 1 →
  wpx (parse_boot_info j v h info) (fun '(v', h', info') => parsed v info f3 f2 f1 v' h' info') (boot_message info) False.
Proof.
  intros Hk Hz Hh J1 J2 J3 Hal Hc Hs Hn Hn1. unfold parse_boot_info.
  change (~w PG_MASK) with (Z.ones 12). rewrite Z.land_ones, Hal by lia. cbn [Z.eqb negb].
  destruct (config_pages_ok _ Hs) as [Hp Hps]. generalize dependent (config_pages (config_size info)). intros pages Hp Hps.
  destruct (vm_map_pages_mapped v f3 f2 f1 (config_paddr info) pages (PGT_P .| PGT_XD) Hk ltac:(lia) Hal ltac:(lia) ltac:(lia)
    eq_refl eq_refl) as (va & v1 & E & Hk1 & Hcr & Hfr & Hva). rewrite E, bind_ok. cbv zeta.
  destruct Hva as [(i & Hi0 & Hi & Hfree & -> & Hout & _)|(-> & _)]; [|by left].
  destruct (Z.eqb_spec (KERNEL_MAPPING_BASE + 4096 * i) 0) as [E0|_]; [assert (0 < KERNEL_MAPPING_BASE) by reflexivity; lia|].
  destruct (Z.eqb_spec (num_mod info) 0) as [E0|Hn0]; [by right; left|].
  assert (Hm : ∀ m, m = "out of memory"%string → boot_message info m) by (intros m ->; by right; right).
  set (n := num_mod info) in *.
  assert (Hor : ∀ {B C} h0 es (b : C) msg (k : list C * heap → outcome B) Q, heap_ok h0 → 0 < es <= 8 →
    (∀ h1, heap_ok h1 → wpx (k (replicate (Z.to_nat n) b, h1)) Q (boot_message info) False) →
    wpx (malloc_array h0 es (es * n) b msg ≫= k) Q (boot_message info) False).
  { intros B C h0 es b msg k Q Hh0 He Hcont. unfold malloc_array. rewrite bind_assoc. apply wpx_bind.
    apply (wpx_mono _ _ _ _ _ _ _ (malloc_or_ok h0 (es * n) msg Hh0 ltac:(nia))); [|exact Hm|done].
    intros h1 Hh1. rewrite bind_ok, u32_id, Z.mul_comm, Z.div_mul by (unfold is_u32; nia). by apply Hcont. }
  assert (Hst : ∀ {B} h0 (k : Z * heap → outcome B) Q, heap_ok h0 →
    (∀ p1 h1, heap_ok h1 → wpx (k (p1, h1)) Q (boot_message info) False) → wpx (malloc h0 BOOT_STRING_MAX ≫= k) Q (boot_message info) False).
  { intros B h0 k Q Hh0 Hcont. apply wpx_bind.
    apply (wpx_mono _ _ _ _ _ _ _ (malloc_any h0 BOOT_STRING_MAX Hh0 ltac:(unfold BOOT_STRING_MAX; lia))); [|exact Hm|done].
    intros [p1 h1] [_ Hh1]. by apply Hcont. }
  apply Hor; [done|lia|]. intros h1 Hh1. apply Hor; [done|lia|]. intros h2 Hh2. apply Hor; [done|lia|]. intros h3 Hh3.
  apply Hor; [done|lia|]. intros h4 Hh4. apply Hor; [done|lia|]. intros h5 Hh5. apply Hst; [done|]. intros p6 h6 Hh6.
  rewrite !array_set, !bind_ok by lia. apply Hst; [done|]. intros p7 h7 Hh7.
  rewrite list_set_ok, bind_ok by (rewrite length_insert, length_replicate; lia).
  pose proof (vm_unmap_pages_ok v1 f3 f2 f1 i 0 pages Hk1 ltac:(lia) ltac:(lia) ltac:(lia) ltac:(lia)) as Hu.
  rewrite Z.add_0_r in Hu. apply wpx_bind, wp_wpx.
  apply (wp_mono _ _ _ Hu). intros [r v2] (m' & inv & -> & Hupd & _). cbn [wpx].
  assert (Hmem : ∀ a, ldw m' a = ldw (vm_mem v) a).
  { intros a. destruct (decide (a = f1 + 8 * ((a - f1) / 8) ∧ i <= (a - f1) / 8 < i + pages)) as [[Ha Hki]|Hno].
    - rewrite Ha. generalize dependent ((a - f1) / 8). intros k _ Hki.
      change (entry m' f1 k = entry (vm_mem v) f1 k). rewrite (proj1 Hupd) by done. symmetry. apply Hz; [lia|]. by apply Hfree.
    - rewrite (proj2 Hupd), Hout; [done|..]; intros k Hki ->; apply Hno; dlia. }
  split.
  - assert (Ho : same_outside f1 (vm_mem v1) m') by (eapply table_upd_outside; [..|exact Hupd]; lia).
    apply (kernel_pt_upd1 v1 f3 f2 f1 Hk1 m' _ _ Ho).
  - exact Hmem.
  - cbn [done_vm vm_frames]. exact Hfr.
  - exact Hh7.
  - apply arrays_ok; [done|done|done|lia].
  - split; reflexivity.
  - assert (E2 : Z.to_nat (num_mod info) = Datatypes.S (Datatypes.S (Z.to_nat (num_mod info - 2)))) by lia.
    cbn [mod_str]. unfold n. rewrite E2. split; reflexivity.
  - assert (E2 : Z.to_nat (num_mod info) = Datatypes.S (Z.to_nat (num_mod info - 1))) by lia. cbn [num_cpus ram_size]. unfold n. rewrite E2. split; reflexivity.
Qed.
End spec.

(** C39: [parse_boot_info], for a configuration of 1 to 255 pages and for no module
    or at least two: either it returns with the page tables as before (what it
    maps it unmaps), the heap well formed, and arrays whose allocations hold
    exactly [num_mod] entries, of which the first two names, the first number of CPUs and the first amount of
    memory are set; or it stops because the kernel window is full, because there
    is no module, or because the heap is. *)
Theorem parse_boot_info_spec `{HM : Mmu} {A : Type} `{HA : FrameAllocator A} j (v : vm A) f3 f2 f1 h info :
  kernel_pt v f3 f2 f1 → (∀ i, 0 <= i < 512 → slot_free (vm_mem v) f1 i → entry (vm_mem v) f1 i = 0) → heap_ok h →
  c_string (junk_str j) → Z.of_nat (length (junk_str j)) < BOOT_STRING_MAX → is_u16 (junk16 j) →
  config_paddr info mod 2 ^ 12 = 0 → 0 <= config_paddr info < 2 ^ 32 → 1 <= config_size info <= 255 * 4096 →
  0 <= num_mod info <= 2 ^ 14 → num_mod info ≠ 1 →
  wpx (parse_boot_info j v h info) (fun '(v', h', info') => parsed v info f3 f2 f1 v' h' info') (boot_message info) False.
Proof. apply parse_boot_info_ok. Qed.

Definition sample_junk : junk := Junk [63] 0xAAAA 7 9.
Definition two_modules : boot_info := BootInfo 0x500000 64 2 [] [] [] [] [].
Definition sample_parse (h : heap) : outcome (vm phys * heap * boot_info) := parse_boot_info sample_junk init_vm h two_modules.

Lemma sample_parse_runs : match boot_heap with Ok h => match sample_parse h with Ok _ => true | _ => false end | _ => false end = true.
Proof. vm_compute. reflexivity. Qed.

Lemma parse_boot_info_spec_witness : ∃ h r, boot_heap = Ok h ∧ sample_parse h = Ok r ∧
  mod_str r.2 !! 1%nat = Some INITRD_NAME ∧ num_cpus r.2 !! 0%nat = Some 1 ∧ heap_ok r.1.2.
Proof.
  destruct boot_heap_ok as (h & E & Hr & Hl). pose proof sample_parse_runs as Hrun. rewrite E in Hrun.
  assert (Hh : heap_ok h) by (exists initial_blocks, initial_lists; split; [exact Hr|exact Hl]).
  assert (Hj : c_string (junk_str sample_junk)) by (apply c_string_dec; reflexivity).
  pose proof (parse_boot_info_spec sample_junk init_vm _ _ _ h two_modules init_kernel (fun i Hi _ => init_zero i Hi) Hh Hj eq_refl
    ltac:(vm_compute; split; congruence) eq_refl ltac:(vm_compute; split; congruence) ltac:(vm_compute; split; congruence)
    ltac:(vm_compute; split; congruence) ltac:(discriminate)) as Hw.
  fold (sample_parse h) in Hw. remember (sample_parse h) as r eqn:Er.
  destruct r as [[[v' h'] info']|m| |]; [|discriminate Hrun..]. destruct Hw as [_ _ _ P1 _ _ [_ P2] [P3 _]].
  exists h, (v', h', info'). split; [exact E|]. split; [by symmetry|]. split; [exact P2|]. split; [exact P3|exact P1].
Defined.
