(* ===== verification/Boot.v ===== *)
(** * What the boot loader hands over

    Models the loops of [kernel_main] ([arch/x86_64/boot/init.c]) over the
    tags of the multiboot information: the first fills the page allocator with
    the available memory, the second withdraws the modules and counts them,
    the third, after [parse_boot_info], gives each guest the module with its
    name. The memory of the tags ([struct multiboot_tag] and the others of
    [include/multiboot2.h]) is read byte by byte. *)

From S2P Require Import Prelude Bytes Layout Bits Spinlock Physical Kernel Screen BootInfo.

Local Open Scope Z_scope.
Local Open Scope c_scope.

Definition MULTIBOOT2_BOOTLOADER_MAGIC : Z := 0x36d76289.
Definition MULTIBOOT_TAG_TYPE_END : Z := 0.
Definition MULTIBOOT_TAG_TYPE_MODULE : Z := 3.
Definition MULTIBOOT_TAG_TYPE_MMAP : Z := 6.
Definition MULTIBOOT_TAG_TYPE_FRAMEBUFFER : Z := 8.
Definition MULTIBOOT_TAG_TYPE_ACPI_OLD : Z := 14.
Definition MULTIBOOT_TAG_TYPE_ACPI_NEW : Z := 15.
Definition MULTIBOOT_MEMORY_AVAILABLE : Z := 1.

(** The symbols of the linker script: where the image is, and the pages of its parts. *)
Class Image := {
  boot_start : Z;
  boot_pages : Z;
  kernel_code_pages : Z;
  kernel_ro_pages : Z;
  kernel_rw_pages : Z
}.

(** What the first loop changes: the page allocator, [mem_limit], [rsdp] and [frameBuf]. *)
Record scan := Scan {
  s_phys : phys;
  mem_limit : Z;
  rsdp : Z;
  frame_buf : Z
}.

Section boot.
Context (get : Z → outcome Z).

(** [tag->type], [tag->size], and the tag after it. *)
Definition tag_type (tag : Z) : outcome Z := read_le get 4 tag.
Definition tag_size (tag : Z) : outcome Z := read_le get 4 (tag +w 4).
Definition next_tag (tag : Z) : outcome Z :=
  size ← tag_size tag;
  Ok (tag +w (u32 (size + 7) .& 0xFFFFFFF8)).

(** One entry of the memory map. *)
Definition mmap_step (tag : Z) (st : Z * phys * Z) : outcome ((Z * phys * Z) + (phys * Z)) :=
  let '(mmap, p, limit) := st in
  size ← tag_size tag;
  if mmap <? tag +w size then
    type ← read_le get 4 (mmap +w 16);
    '(p, limit) ← (if type =? MULTIBOOT_MEMORY_AVAILABLE then
                     addr ← read_le get 8 mmap;
                     len ← read_le get 8 (mmap +w 8);
                     p ← physical_free_range p addr len;
                     let mem_end := addr +w len in
                     Ok (p, if limit <? mem_end then mem_end else limit)
                   else Ok (p, limit));
    entry_size ← read_le get 4 (tag +w 8);
    Ok (inl (mmap +w entry_size, p, limit))
  else Ok (inr (p, limit)).

Definition scan_tag (tag type : Z) (s : scan) : outcome scan :=
  if type =? MULTIBOOT_TAG_TYPE_MMAP then
    '(p, limit) ← while (mmap_step tag) (tag +w 16, s_phys s, mem_limit s);
    Ok (Scan p limit (rsdp s) (frame_buf s))
  else if type =? MULTIBOOT_TAG_TYPE_FRAMEBUFFER then
    addr ← read_le get 8 (tag +w 8);
    Ok (Scan (s_phys s) (mem_limit s) (rsdp s) addr)
  else if (type =? MULTIBOOT_TAG_TYPE_ACPI_OLD) || (type =? MULTIBOOT_TAG_TYPE_ACPI_NEW) then
    Ok (Scan (s_phys s) (mem_limit s) (tag +w 8) (frame_buf s))
  else Ok s.

Definition scan_step (st : Z * scan) : outcome ((Z * scan) + scan) :=
  let '(tag, s) := st in
  type ← tag_type tag;
  if type =? MULTIBOOT_TAG_TYPE_END then Ok (inr s)
  else
    s ← scan_tag tag type s;
    tag ← next_tag tag;
    Ok (inl (tag, s)).

(** The characters from [a] on, up to a NUL and [n] at most: all that [strncmp] looks at. *)
Fixpoint read_string (n : nat) (a : Z) : outcome (list Z) :=
  match n with
  | O => Ok []
  | Datatypes.S n =>
      c ← get a;
      if c =? 0 then Ok [] else r ← read_string n (a +w 1); Ok (c :: r)
  end.

Definition CONFIG_NAME : list Z := [99; 111; 110; 102; 105; 103].

(** A module: the configuration, or a file of the guests. *)
Definition mark_module (tag : Z) (info : boot_info) (p : phys) : outcome (boot_info * phys) :=
  mod_start ← read_le get 4 (tag +w 8);
  mod_end ← read_le get 4 (tag +w 12);
  cmdline ← read_string 7 (tag +w 16);
  r ← strncmp cmdline CONFIG_NAME 7;
  let info := if r =? 0 then set_config info mod_start (u32 (mod_end - mod_start))
              else set_num_mod info (u16 (num_mod info + 1)) in
  p ← physical_take_range p mod_start (u32 (mod_end - mod_start));
  Ok (info, p).

Definition module_step (st : Z * boot_info * phys) : outcome ((Z * boot_info * phys) + (boot_info * phys)) :=
  let '(tag, info, p) := st in
  type ← tag_type tag;
  if type =? MULTIBOOT_TAG_TYPE_END then Ok (inr (info, p))
  else
    '(info, p) ← (if type =? MULTIBOOT_TAG_TYPE_MODULE then mark_module tag info p else Ok (info, p));
    tag ← next_tag tag;
    Ok (inl (tag, info, p)).

(** [for (mod_index = 0; ...)]: the modules with the name of this one. *)
Definition locate_step (mod_start size : Z) (cmdline : list Z) (st : Z * boot_info) : outcome ((Z * boot_info) + boot_info) :=
  let '(i, info) := st in
  if i <? num_mod info then
    s ← list_get (mod_str info) i;
    r ← strncmp s cmdline BOOT_STRING_MAX;
    info ← (if r =? 0 then
              a ← list_set (mod_paddr info) i mod_start;
              b ← list_set (mod_size info) i size;
              Ok (set_mod_size (set_mod_paddr info a) b)
            else Ok info);
    Ok (inl (u16 (i + 1), info))
  else Ok (inr info).

Definition locate_module (tag : Z) (info : boot_info) : outcome boot_info :=
  mod_start ← read_le get 4 (tag +w 8);
  mod_end ← read_le get 4 (tag +w 12);
  cmdline ← read_string 32 (tag +w 16);
  while (locate_step mod_start (u32 (mod_end - mod_start)) cmdline) (0, info).

Definition assign_modules_step (st : Z * boot_info) : outcome ((Z * boot_info) + boot_info) :=
  let '(tag, info) := st in
  type ← tag_type tag;
  if type =? MULTIBOOT_TAG_TYPE_END then Ok (inr info)
  else
    info ← (if type =? MULTIBOOT_TAG_TYPE_MODULE then locate_module tag info else Ok info);
    tag ← next_tag tag;
    Ok (inl (tag, info)).

(** The third loop of [kernel_main]. *)
Definition assign_modules (mbi : Z) (info : boot_info) : outcome boot_info :=
  while assign_modules_step (mbi +w 8, info).

Context {HI : Image}.

(** [kernel_main] up to [interrupt_init]: [inl] is an early return, with what it has printed. *)
Definition kernel_main_memory (magic mbi fb : Z) (p : phys) (info : boot_info) :
    outcome ((string * list Z) + (scan * boot_info)) :=
  if negb (magic =? MULTIBOOT2_BOOTLOADER_MAGIC) then Ok (inl ("Invalid magic number: %X"%string, [u32 magic]))
  else
    size ← read_le get 4 mbi;
    if PG_SIZE <? size then Ok (inl ("Multiboot struct is too big: %u"%string, [size]))
    else
      s ← while scan_step (mbi +w 8, Scan p 0 0 fb);
      p ← physical_set_limit (s_phys s) (mem_limit s);
      p ← physical_take_range p 0 PG_SIZE;
      p ← physical_take_range p boot_start
            ((boot_pages +w kernel_code_pages +w kernel_ro_pages +w kernel_rw_pages) *w PG_SIZE);
      '(info, p) ← while module_step (mbi +w 8, info, p);
      if config_size info =? 0 then Panic "Missing config module"
      else Ok (inr (Scan p (mem_limit s) (rsdp s) (frame_buf s), info)).
End boot.

(** ** The tags as data *)

(** An entry of the memory map; [me_rest] is what an entry holds past [type]. *)
Record mmap_entry := MmapEntry {
  me_addr : Z;
  me_len : Z;
  me_type : Z;
  me_rest : list Z
}.

Inductive mb_tag : Type :=
  | MmapTag (entry_size version : Z) (es : list mmap_entry)
  | ModuleTag (mod_start mod_end : Z) (cmdline : list Z)
  | FramebufferTag (addr : Z) (rest : list Z)
  | AcpiTag (new : bool) (rsdp : list Z)
  | OtherTag (type : Z) (payload : list Z).

Definition encode_mmap (e : mmap_entry) : list Z := le 8 (me_addr e) ++ le 8 (me_len e) ++ le 4 (me_type e) ++ me_rest e.

Definition tag_code (t : mb_tag) : Z :=
  match t with
  | MmapTag _ _ _ => MULTIBOOT_TAG_TYPE_MMAP
  | ModuleTag _ _ _ => MULTIBOOT_TAG_TYPE_MODULE
  | FramebufferTag _ _ => MULTIBOOT_TAG_TYPE_FRAMEBUFFER
  | AcpiTag new _ => if new then MULTIBOOT_TAG_TYPE_ACPI_NEW else MULTIBOOT_TAG_TYPE_ACPI_OLD
  | OtherTag type _ => type
  end.

Definition tag_body (t : mb_tag) : list Z :=
  match t with
  | MmapTag entry_size version es => le 4 entry_size ++ le 4 version ++ concat (map encode_mmap es)
  | ModuleTag mod_start mod_end cmdline => le 4 mod_start ++ le 4 mod_end ++ cmdline ++ [0]
  | FramebufferTag addr rest => le 8 addr ++ rest
  | AcpiTag _ rsdp => rsdp
  | OtherTag _ payload => payload
  end.

Definition tag_length (t : mb_tag) : Z := 8 + Z.of_nat (length (tag_body t)).
Definition encode_tag (t : mb_tag) : list Z := le 4 (tag_code t) ++ le 4 (tag_length t) ++ tag_body t.

Definition round8 (n : Z) : Z := (n + 7) / 8 * 8.

Definition available (e : mmap_entry) : bool := me_type e =? MULTIBOOT_MEMORY_AVAILABLE.

(** An available range reaches a page boundary and ends below 64 GB. *)
Definition mmap_wf (entry_size : Z) (e : mmap_entry) : Prop :=
  is_u64 (me_addr e) ∧ is_u64 (me_len e) ∧ is_u32 (me_type e) ∧ Z.of_nat (length (me_rest e)) = entry_size - 20 ∧
  (available e = true → me_addr e + me_len e <= 2 ^ 36 ∧ (me_addr e + 4095) / 4096 <= (me_addr e + me_len e) / 4096).

Definition tag_wf (t : mb_tag) : Prop :=
  tag_length t < 2 ^ 31 ∧
  match t with
  | MmapTag entry_size version es => 20 <= entry_size < 2 ^ 32 ∧ Forall (mmap_wf entry_size) es
  | ModuleTag mod_start mod_end cmdline => 0 <= mod_start ∧ mod_start <= mod_end < 2 ^ 32 ∧ c_string cmdline
  | FramebufferTag addr _ => is_u64 addr
  | AcpiTag _ _ => True
  | OtherTag type _ => 0 < type < 2 ^ 32 ∧ type ∉ [3; 6; 8; 14; 15]
  end.

(** The tags lie from [a] on, each at a multiple of 8 after the one before, and then the end tag. *)
Fixpoint tags_at (get : Z → outcome Z) (a : Z) (ts : list mb_tag) : Prop :=
  match ts with
  | [] => bytes_in get a (le 4 MULTIBOOT_TAG_TYPE_END)
  | t :: ts => tag_wf t ∧ bytes_in get a (encode_tag t) ∧ tags_at get (a + round8 (tag_length t)) ts
  end.

(** The available ranges, and the modules, in order. *)
Definition ranges_of (es : list mmap_entry) : list (Z * Z) :=
  (fun e => (me_addr e, me_len e)) <$> filter (fun e => available e) es.
Definition tag_ranges (t : mb_tag) : list (Z * Z) := match t with MmapTag _ _ es => ranges_of es | _ => [] end.
Definition avail_ranges (ts : list mb_tag) : list (Z * Z) := concat (map tag_ranges ts).
Definition tag_modules (t : mb_tag) : list (Z * Z * list Z) := match t with ModuleTag s e c => [(s, e, c)] | _ => [] end.
Definition modules (ts : list mb_tag) : list (Z * Z * list Z) := concat (map tag_modules ts).

(** Page [n] lies wholly in the range [r], or touches it. *)
Definition whole (n : Z) (r : Z * Z) : bool := (r.1 <=? 4096 * n) && (4096 * n + 4096 <=? r.1 + r.2).
Definition touched (n : Z) (r : Z * Z) : bool := (r.1 / 4096 <=? n) && (n <? (r.1 + r.2 + 4095) / 4096).
Definition mem_end (limit : Z) (l : list (Z * Z)) : Z := foldl (fun m r => Z.max m (r.1 + r.2)) limit l.

(** The pointers the first loop leaves. *)
Fixpoint rsdp_of (a : Z) (ts : list mb_tag) (r : Z) : Z :=
  match ts with
  | [] => r
  | t :: ts => rsdp_of (a + round8 (tag_length t)) ts (match t with AcpiTag _ _ => a + 8 | _ => r end)
  end.
Definition frame_buf_of (ts : list mb_tag) (fb : Z) : Z :=
  foldl (fun fb t => match t with FramebufferTag addr _ => addr | _ => fb end) fb ts.

(** What a module is to the second loop. *)
Definition count_module (info : boot_info) (m : Z * Z * list Z) : boot_info :=
  let '(s, e, cmdline) := m in
  if decide (cmdline = CONFIG_NAME) then set_config info s (e - s) else set_num_mod info (u16 (num_mod info + 1)).

Section tags.
Context (get : Z → outcome Z).

Lemma land_align8 y : is_u32 y → Z.land y 0xFFFFFFF8 = y / 8 * 8.
Proof.
  intros Hy. change (y / 8 * 8) with (y / 2 ^ 3 * 2 ^ 3). rewrite <- Z.shiftr_div_pow2, <- Z.shiftl_mul_pow2 by lia.
  apply Z.bits_inj'. intros n Hn. rewrite Z.land_spec. change 0xFFFFFFF8 with (Z.shiftl (Z.ones 29) 3).
  destruct (Z.lt_ge_cases n 3) as [H3|H3].
  - rewrite !Z.shiftl_spec_low by lia. by rewrite andb_false_r.
  - rewrite !Z.shiftl_spec_high, Z.shiftr_spec by lia. replace (n - 3 + 3) with n by lia.
    destruct (Z.lt_ge_cases n 32).
    + rewrite Z.ones_spec_low by lia. apply andb_true_r.
    + rewrite <- (Z.mod_small y (2 ^ 32)) by exact Hy. by rewrite Z.mod_pow2_bits_high by lia.
Qed.

Lemma tag_header a t : tag_wf t → bytes_in get a (encode_tag t) →
  tag_type get a = Ok (tag_code t) ∧ tag_size get a = Ok (tag_length t) ∧
  bytes_in get (a + 8) (tag_body t).
Proof.
  intros [Hlen Hwf] Hb. unfold tag_length in *. split; [|split].
  - unfold tag_type. apply (read_le_ok get 4); [|by apply (bytes_in_app get _ _ _ Hb)].
    change (2 ^ (8 * Z.of_nat 4)) with (2 ^ 32). destruct t as [| | |[]|]; try (split; [discriminate|reflexivity]). cbn [tag_code]. lia.
  - unfold tag_size, encode_tag in *. apply (read_le_at get 4 a _ _ _ 4 Hb); [done|].
    change (2 ^ (8 * Z.of_nat 4)) with (2 ^ 32). unfold tag_length. lia.
  - unfold encode_tag in Hb. rewrite app_assoc in Hb. apply bytes_in_app in Hb as [_ Hb].
    by rewrite length_app, !le_length in Hb.
Qed.

Lemma next_tag_ok a t : tag_wf t → bytes_in get a (encode_tag t) → a + round8 (tag_length t) < 2 ^ 64 →
  next_tag get a = Ok (a + round8 (tag_length t)).
Proof.
  intros Ht Hb Hn. destruct (tag_header a t Ht Hb) as (_ & E & _). unfold next_tag. rewrite E, bind_ok.
  destruct Ht as [Hlen _]. pose proof Hb as (Ha & _ & _). unfold round8 in *.
  assert (0 <= tag_length t) by (unfold tag_length; lia).
  rewrite (u32_id (tag_length t + 7)) by (unfold is_u32; lia). rewrite land_align8 by (unfold is_u32; lia).
  rewrite u64_id by (unfold is_u64; dlia). done.
Qed.

Lemma tags_start a ts : tags_at get a ts → 0 <= a < 2 ^ 64.
Proof. destruct ts as [|t ts]; [intros (H1 & H2 & _)|intros (_ & (H1 & H2 & _) & _)]; lia. Qed.

(** The tags are fewer than the addresses. *)
Lemma tags_count a ts : tags_at get a ts → a + 8 * Z.of_nat (length ts) < 2 ^ 64.
Proof.
  revert a. induction ts as [|t ts IH]; intros a H; [cbn; apply tags_start in H; lia|].
  destruct H as (Ht & _ & Hts). apply IH in Hts. unfold round8, tag_length in Hts. cbn [length]. dlia.
Qed.

(** ** The first loop *)

Definition freed (l : list (Z * Z)) (p p' : phys) : Prop :=
  phys_wf p' ∧ ∀ n, 0 <= n → page_free p' n = page_free p n || existsb (whole n) l.

Lemma freed_nil p : phys_wf p → freed [] p p.
Proof. intros Hp. split; [done|]. intros n _. by rewrite orb_false_r. Qed.

Lemma freed_app l1 l2 p p1 p2 : freed l1 p p1 → freed l2 p1 p2 → freed (l1 ++ l2) p p2.
Proof.
  intros [_ H1] [Hp H2]. split; [done|]. intros n Hn. by rewrite H2, H1, existsb_app, orb_assoc by done.
Qed.

Lemma free_entry_ok p addr len : phys_wf p → 0 <= addr → 0 <= len → addr + len <= 2 ^ 36 →
  (addr + 4095) / 4096 <= (addr + len) / 4096 →
  ∃ p', physical_free_range p addr len = Ok p' ∧ freed [(addr, len)] p p'.
Proof.
  intros Hp Ha Hl He Hpg. destruct (physical_free_range_ok p addr len Hp Ha Hl ltac:(lia) Hpg) as (p' & E & Hu).
  exists p'. split; [done|]. split; [apply Hu|]. intros n Hn. rewrite (upd_free _ _ _ _ Hu) by done.
  cbn [existsb]. rewrite orb_false_r. unfold whole, in_range. cbn [fst snd].
  assert (((addr + 4095) / 4096 <=? n) && (n <? (addr + len) / 4096) =
    (addr <=? 4096 * n) && (4096 * n + 4096 <=? addr + len)) as ->.
  { apply eq_true_iff_eq. rewrite !andb_true_iff, !Z.leb_le, Z.ltb_lt. dlia. }
  destruct (_ && _); [by rewrite orb_true_r|by rewrite orb_false_r].
Qed.

Definition encode_mmaps (es : list mmap_entry) : list Z := concat (map encode_mmap es).

Lemma encode_mmap_length esz e : mmap_wf esz e → Z.of_nat (length (encode_mmap e)) = esz.
Proof. intros (_ & _ & _ & H & _). unfold encode_mmap. rewrite !length_app, !le_length. lia. Qed.

Lemma encode_mmaps_length esz es : Forall (mmap_wf esz) es → Z.of_nat (length (encode_mmaps es)) = esz * Z.of_nat (length es).
Proof.
  induction 1 as [|e es He _ IH]; [cbn; lia|]. unfold encode_mmaps in *. cbn [map concat length].
  rewrite length_app. pose proof (encode_mmap_length esz e He). lia.
Qed.

(** One entry. *)
Lemma mmap_round tag size esz e mmap p limit :
  mmap_wf esz e → phys_wf p → 0 <= limit → tag_size get tag = Ok size → read_le get 4 (tag +w 8) = Ok esz →
  is_u64 (tag + size) → mmap < tag + size → mmap + esz < 2 ^ 64 → bytes_in get mmap (encode_mmap e) →
  ∃ p', mmap_step get tag (mmap, p, limit) = Ok (inl (mmap + esz, p', mem_end limit (ranges_of [e]))) ∧
    freed (ranges_of [e]) p p' ∧ 0 <= mem_end limit (ranges_of [e]).
Proof.
  intros Hwf Hp Hlim Es Ez Hts Hlt Hend Hb. pose proof Hb as (Hm & _ & _).
  assert (Hesz : 0 <= esz) by (rewrite <- (encode_mmap_length esz e Hwf); lia).
  destruct Hwf as (Ha & Hl & Ht & _ & Hav). unfold is_u64 in Ha, Hl.
  assert (E8 : read_le get 8 mmap = Ok (me_addr e)).
  { apply (read_le_ok get 8); [by unfold is_u64 in *|]. by apply (bytes_in_app get _ _ _ Hb). }
  assert (El : read_le get 8 (mmap +w 8) = Ok (me_len e)) by (by apply (read_le_at get 8 mmap _ _ _ 8 Hb)).
  assert (Et : read_le get 4 (mmap +w 16) = Ok (me_type e)).
  { unfold encode_mmap in Hb. rewrite app_assoc in Hb. by apply (read_le_at get 4 mmap _ _ _ 16 Hb). }
  unfold mmap_step. rewrite Es, bind_ok, (u64_id (tag + size)) by done.
  destruct (Z.ltb_spec mmap (tag + size)); [|lia]. rewrite Et, bind_ok, Ez.
  unfold ranges_of, available in *. destruct (Z.eqb_spec (me_type e) MULTIBOOT_MEMORY_AVAILABLE) as [E1|E1].
  - destruct (Hav eq_refl) as [Hmax Hpg]. rewrite E8, bind_ok, El, bind_ok.
    destruct (free_entry_ok p (me_addr e) (me_len e) Hp ltac:(lia) ltac:(lia) Hmax Hpg) as (p' & E & Hf).
    rewrite E, !bind_ok. rewrite (u64_id (me_addr e + me_len e)) by (unfold is_u64; lia).
    rewrite (u64_id (mmap + esz)) by (unfold is_u64; lia).
    exists p'. rewrite filter_cons_True by (by rewrite E1). cbn [filter list_filter fmap list_fmap mem_end foldl fst snd].
    split; [|split; [done|lia]]. repeat f_equal. destruct (Z.ltb_spec limit (me_addr e + me_len e)); lia.
  - rewrite !bind_ok. rewrite (u64_id (mmap + esz)) by (unfold is_u64; lia). exists p.
    rewrite filter_cons_False by (by intros H0%Is_true_true%Z.eqb_eq). split; [done|]. split; [by apply freed_nil|done].
Qed.

Lemma ranges_cons e es : ranges_of (e :: es) = ranges_of [e] ++ ranges_of es.
Proof. unfold ranges_of. by rewrite (filter_app _ [e] es), fmap_app. Qed.

Lemma mem_end_app limit l1 l2 : mem_end limit (l1 ++ l2) = mem_end (mem_end limit l1) l2.
Proof. apply foldl_app. Qed.

Lemma mmap_loop es tag size esz mmap p limit :
  Forall (mmap_wf esz) es → phys_wf p → 0 <= limit → tag_size get tag = Ok size → read_le get 4 (tag +w 8) = Ok esz →
  is_u64 (tag + size) → 20 <= esz → mmap + Z.of_nat (length (encode_mmaps es)) = tag + size → bytes_in get mmap (encode_mmaps es) →
  ∃ p', rounds (Datatypes.S (length es)) (mmap_step get tag) (mmap, p, limit) = Ok (inr (p', mem_end limit (ranges_of es))) ∧
    freed (ranges_of es) p p' ∧ 0 <= mem_end limit (ranges_of es).
Proof.
  intros Hwf Hp Hlim Es Ez Hts Hesz. revert mmap p limit Hp Hlim. induction es as [|e es IH]; intros mmap p limit Hp Hlim Hend Hb.
  - exists p. cbn [length encode_mmaps map concat] in Hend. split; [|split; [by apply freed_nil|done]].
    rewrite rounds_S. unfold mmap_step. rewrite Es, bind_ok, (u64_id (tag + size)) by done.
    destruct (Z.ltb_spec mmap (tag + size)); [lia|]. reflexivity.
  - apply Forall_cons in Hwf as [He Hes]. unfold encode_mmaps in *. cbn [map concat] in *.
    rewrite length_app in Hend. pose proof (encode_mmap_length esz e He) as Hlen. apply bytes_in_app in Hb as [Hbe Hbs].
    rewrite Hlen in Hbs. pose proof Hbs as (_ & Hlast & _). unfold is_u64 in Hts.
    destruct (mmap_round tag size esz e mmap p limit He Hp Hlim Es Ez Hts ltac:(lia) ltac:(lia) Hbe) as (p1 & E1 & F1 & L1).
    destruct (IH Hes (mmap + esz) p1 (mem_end limit (ranges_of [e])) (proj1 F1) L1 ltac:(lia) Hbs) as (p2 & E2 & F2 & L2).
    exists p2. rewrite ranges_cons, mem_end_app. split; [|split; [by apply (freed_app _ _ p p1)|done]].
    cbn [length]. rewrite rounds_S, E1, bind_ok. exact E2.
Qed.

Record scanned (a : Z) (ts : list mb_tag) (s s' : scan) : Prop := Scanned {
  sc_phys : freed (avail_ranges ts) (s_phys s) (s_phys s');
  sc_limit : mem_limit s' = mem_end (mem_limit s) (avail_ranges ts);
  sc_rsdp : rsdp s' = rsdp_of a ts (rsdp s);
  sc_frame : frame_buf s' = frame_buf_of ts (frame_buf s)
}.

Lemma tag_code_end t : tag_wf t → tag_code t ≠ MULTIBOOT_TAG_TYPE_END.
Proof. intros [_ Ht]. unfold MULTIBOOT_TAG_TYPE_END. destruct t as [| | |[]|]; cbn [tag_code]; [done..|]. lia. Qed.

Lemma scan_tag_ok a t s : tag_wf t → bytes_in get a (encode_tag t) → phys_wf (s_phys s) → 0 <= mem_limit s →
  ∃ s', scan_tag get a (tag_code t) s = Ok s' ∧ scanned a [t] s s' ∧ 0 <= mem_limit s'.
Proof.
  intros Ht Hb Hp Hlim. destruct (tag_header a t Ht Hb) as (_ & Es & Hbody). pose proof Hb as (Ha & Hend & _).
  assert (Hl : Z.of_nat (length (encode_tag t)) = tag_length t)
    by (unfold encode_tag, tag_length; rewrite !length_app, !le_length; lia). rewrite Hl in Hend.
  pose proof Hbody as (_ & Hend' & _).
  assert (Hlen : 8 <= tag_length t) by (unfold tag_length; lia). destruct Ht as [Hmax Ht].
  assert (Hsame : tag_ranges t = [] → (∀ x, rsdp_of a [t] x = x) → (∀ x, frame_buf_of [t] x = x) → scanned a [t] s s).
  { intros H1 H2 H3. split; rewrite ?H2, ?H3; try done; unfold avail_ranges; cbn [map concat]; rewrite H1;
      [by apply freed_nil|done]. }
  unfold scan_tag. destruct t as [esz ver es|ms me c|addr rest|new rd|type pl]; cbn [tag_code] in *.
  - cbn [Z.eqb MULTIBOOT_TAG_TYPE_MMAP Pos.eqb]. destruct Ht as [Hesz Hwf]. cbn [tag_body] in *.
    assert (Ez : read_le get 4 (a +w 8) = Ok esz).
    { rewrite u64_id by (unfold is_u64; lia). apply (read_le_ok get 4); [cbn; lia|]. by apply (bytes_in_app get _ _ _ Hbody). }
    unfold tag_length in *. cbn [tag_body] in *. rewrite !length_app, !le_length in *.
    rewrite app_assoc in Hbody. apply bytes_in_app in Hbody as [_ Hes]. rewrite length_app, !le_length in Hes.
    replace (a + 8 + Z.of_nat (4 + 4)) with (a + 16) in Hes by lia. fold (encode_mmaps es) in *.
    destruct (mmap_loop es a _ esz (a + 16) (s_phys s) (mem_limit s) Hwf Hp Hlim Es Ez) as (p' & E & F & L);
      [unfold is_u64; lia|lia|lia|done|].
    rewrite (u64_id (a + 16)) by (unfold is_u64; lia).
    assert (Hcount : Z.of_nat (length es) <= Z.of_nat (length (encode_mmaps es))) by (rewrite (encode_mmaps_length esz es Hwf); nia).
    rewrite (while_rounds (mmap_step get a) (Datatypes.S (length es)) _ (Ok (p', mem_end (mem_limit s) (ranges_of es))) ltac:(lia) E).
    rewrite bind_ok. eexists. split; [reflexivity|]. split; [|done].
      split; cbn [s_phys mem_limit rsdp frame_buf rsdp_of]; try done; unfold avail_ranges; cbn [map concat tag_ranges]; by rewrite app_nil_r.
  - exists s. split; [reflexivity|]. split; [by apply Hsame|done].
  - cbn [tag_body] in Hbody. assert (E8 : read_le get 8 (a +w 8) = Ok addr).
    { rewrite u64_id by (unfold is_u64; lia). apply (read_le_ok get 8); [done|]. by apply (bytes_in_app get _ _ _ Hbody). }
    rewrite E8. eexists. split; [reflexivity|]. split; [|done]. split; cbn; try done. by apply freed_nil.
  - eexists. split; [by destruct new|]. rewrite u64_id by (unfold is_u64; lia). split; [|done].
    split; cbn; try done. by apply freed_nil.
  - exists s. split; [|split; [by apply Hsame|done]]. destruct Ht as [Ht Hno].
    assert (H : ∀ x, x ∈ [3; 6; 8; 14; 15] → type ≠ x) by (intros x Hx ->; done).
    unfold MULTIBOOT_TAG_TYPE_MMAP, MULTIBOOT_TAG_TYPE_FRAMEBUFFER, MULTIBOOT_TAG_TYPE_ACPI_OLD, MULTIBOOT_TAG_TYPE_ACPI_NEW.
    destruct (Z.eqb_spec type 6) as [E6|_]; [by destruct (H 6 ltac:(repeat constructor))|].
    destruct (Z.eqb_spec type 8) as [E8|_]; [by destruct (H 8 ltac:(repeat constructor))|].
    destruct (Z.eqb_spec type 14) as [E14|_]; [by destruct (H 14 ltac:(repeat constructor))|].
    destruct (Z.eqb_spec type 15) as [E15|_]; [by destruct (H 15 ltac:(repeat constructor))|]. done.
Qed.

Lemma scanned_cons a t ts s s1 s2 : scanned a [t] s s1 → scanned (a + round8 (tag_length t)) ts s1 s2 → scanned a (t :: ts) s s2.
Proof.
  intros [P1 L1 R1 F1] [P2 L2 R2 F2]. unfold avail_ranges in *. cbn [map concat rsdp_of] in *. rewrite app_nil_r in *. split.
  - by apply (freed_app _ _ _ (s_phys s1)).
  - unfold avail_ranges. cbn [map concat]. by rewrite mem_end_app, L2, L1.
  - cbn [rsdp_of]. by rewrite R2, R1.
  - unfold frame_buf_of in *. cbn [foldl] in *. by rewrite F2, F1.
Qed.

(** The address after the tag [t] is in range. *)
Lemma tag_next a t ts : tags_at get a (t :: ts) → next_tag get a = Ok (a + round8 (tag_length t)).
Proof.
  intros (Ht & Hb & Hts). apply next_tag_ok; [done|done|]. apply tags_start in Hts. lia.
Qed.

Lemma end_type a : tags_at get a [] → tag_type get a = Ok MULTIBOOT_TAG_TYPE_END.
Proof. intros H. by apply (read_le_ok get 4). Qed.

Lemma scan_loop ts a s : tags_at get a ts → phys_wf (s_phys s) → 0 <= mem_limit s →
  ∃ s', rounds (Datatypes.S (length ts)) (scan_step get) (a, s) = Ok (inr s') ∧ scanned a ts s s' ∧ 0 <= mem_limit s'.
Proof.
  revert a s. induction ts as [|t ts IH]; intros a s H Hp Hlim.
  - exists s. split; [|split; [split; try done; by apply freed_nil|done]].
    rewrite rounds_S. unfold scan_step. cbv beta iota. by rewrite (end_type a H), bind_ok.
  - pose proof (tag_next a t ts H) as En. destruct H as (Ht & Hb & Hts).
    destruct (scan_tag_ok a t s Ht Hb Hp Hlim) as (s1 & E1 & S1 & L1).
    destruct (IH _ s1 Hts (proj1 (sc_phys _ _ _ _ S1)) L1) as (s2 & E2 & S2 & L2).
    exists s2. split; [|split; [by apply (scanned_cons a t ts s s1)|done]].
    assert (E : scan_step get (a, s) = Ok (inl (a + round8 (tag_length t), s1))).
    { unfold scan_step. destruct (tag_header a t Ht Hb) as (-> & _ & _). rewrite bind_ok.
      destruct (Z.eqb_spec (tag_code t) MULTIBOOT_TAG_TYPE_END) as [E0|_]; [by destruct (tag_code_end t Ht)|].
      by rewrite E1, bind_ok, En, bind_ok. }
    cbn [length]. rewrite rounds_S, E, bind_ok. exact E2.
Qed.

Lemma scan_ok ts a s : tags_at get a ts → phys_wf (s_phys s) → 0 <= mem_limit s →
  ∃ s', while (scan_step get) (a, s) = Ok s' ∧ scanned a ts s s' ∧ 0 <= mem_limit s'.
Proof.
  intros H Hp Hlim. destruct (scan_loop ts a s H Hp Hlim) as (s' & E & S' & L'). exists s'. split; [|done].
  pose proof (tags_count a ts H). pose proof (tags_start a ts H).
  apply (while_rounds _ (Datatypes.S (length ts)) _ (Ok s')); [lia|done].
Qed.

(** ** Strings of the tags *)

Lemma read_string_ok n a s rest : c_string s → bytes_in get a (s ++ 0 :: rest) → read_string get n a = Ok (take n s).
Proof.
  revert a s. induction n as [|n IH]; intros a s Hs Hb; [done|]. cbn [read_string]. destruct s as [|c s].
  - apply bytes_in_cons in Hb as [-> _]. reflexivity.
  - pose proof Hb as (Ha & He & _). cbn [app length] in He. cbn [app] in Hb. apply bytes_in_cons in Hb as [-> Hb]. rewrite bind_ok.
    assert (0 < c < 256) by (apply Hs; left). destruct (Z.eqb_spec c 0); [lia|].
    rewrite u64_id by (unfold is_u64; lia). rewrite (IH (a + 1) s); [done| |done]. intros x Hx. apply Hs. by right.
Qed.

(** [strncmp] of a string against one shorter than [n] tells whether they are equal. *)
Lemma prefix_equal s1 s2 n : c_string s1 → c_string s2 → Z.of_nat (length s2) < n →
  prefix_z (take (Z.to_nat n) s1) n = prefix_z s2 n ↔ s1 = s2.
Proof.
  intros H1 H2 Hn. unfold prefix_z. rewrite (take_ge (s2 ++ [0])) by (rewrite length_app; cbn; lia).
  destruct (Nat.le_gt_cases (Z.to_nat n) (length s1)) as [Hge|Hlt].
  - rewrite take_app_le by (rewrite length_take; lia). rewrite take_take, Nat.min_id. split; [|intros ->; lia].
    intros E. assert (Hin : 0 ∈ take (Z.to_nat n) s1) by (rewrite E; apply elem_of_app; right; by left).
    apply (subseteq_take (Z.to_nat n) s1) in Hin. specialize (H1 0 Hin). lia.
  - rewrite (take_ge s1) by lia. rewrite take_ge by (rewrite length_app; cbn; lia). split; [|by intros ->].
    intros E. by apply app_inj_tail in E as [-> _].
Qed.

Lemma take_c_string n s : c_string s → c_string (take n s).
Proof. intros H c Hc. apply H. by apply (subseteq_take n s) in Hc. Qed.

(** ** The second loop *)

Definition taken (l : list (Z * Z)) (p p' : phys) : Prop :=
  phys_wf p' ∧ mm_limit p' = mm_limit p ∧ ∀ n, 0 <= n → page_free p' n = page_free p n && negb (existsb (touched n) l).

Lemma taken_nil p : phys_wf p → taken [] p p.
Proof. intros Hp. split; [done|]. split; [done|]. intros n _. by rewrite andb_true_r. Qed.

Lemma taken_app l1 l2 p p1 p2 : taken l1 p p1 → taken l2 p1 p2 → taken (l1 ++ l2) p p2.
Proof.
  intros (_ & L1 & H1) (Hp & L2 & H2). split; [done|]. split; [congruence|]. intros n Hn.
  by rewrite H2, H1, existsb_app, negb_orb, andb_assoc by done.
Qed.

Lemma take_range_taken p b l : phys_wf p → 0 <= b → 0 <= l → b + l <= 2 ^ 36 →
  ∃ p', physical_take_range p b l = Ok p' ∧ taken [(b, l)] p p'.
Proof.
  intros Hp Hb Hl He. destruct (physical_take_range_ok p b l Hp Hb Hl ltac:(lia)) as (p' & E & Hu).
  exists p'. split; [done|]. split; [apply Hu|]. split; [apply Hu|]. intros n Hn. rewrite (upd_free _ _ _ _ Hu) by done.
  cbn [existsb]. rewrite orb_false_r. unfold touched, in_range. cbn [fst snd].
  destruct (_ && _); [by rewrite andb_false_r|by rewrite andb_true_r].
Qed.

Definition mod_range (m : Z * Z * list Z) : Z * Z := (m.1.1, m.1.2 - m.1.1).

(** The fields of a module tag. *)
Lemma module_fields a ms me c : tag_wf (ModuleTag ms me c) → bytes_in get a (encode_tag (ModuleTag ms me c)) →
  read_le get 4 (a +w 8) = Ok ms ∧ read_le get 4 (a +w 12) = Ok me ∧
  (∀ n, read_string get n (a +w 16) = Ok (take n c)) ∧ u32 (me - ms) = me - ms.
Proof.
  intros Ht Hb. destruct (tag_header a _ Ht Hb) as (_ & _ & Hbody). cbn [tag_body] in Hbody.
  pose proof Hbody as (Ha & He & _). rewrite !length_app, !le_length in He. destruct Ht as (_ & Hs & Hms & Hc).
  assert (0 <= a) by (destruct Hb as (H & _); lia).
  pose proof (bytes_in_app get _ _ _ Hbody) as [B1 B2]. rewrite le_length in B2.
  pose proof (bytes_in_app get _ _ _ B2) as [B3 B4]. rewrite le_length in B4.
  rewrite !u64_id by (unfold is_u64; cbn in He; lia).
  split; [by apply (read_le_ok get 4); [cbn; lia|]|]. split.
  { replace (a + 12) with (a + 8 + Z.of_nat 4) by lia. by apply (read_le_ok get 4); [cbn; lia|]. }
  split; [|apply u32_id; unfold is_u32; lia].
  intros n. replace (a + 16) with (a + 8 + Z.of_nat 4 + Z.of_nat 4) by lia. by apply (read_string_ok n _ c []).
Qed.

Lemma config_string : c_string CONFIG_NAME.
Proof. apply c_string_dec. reflexivity. Qed.

Lemma mark_module_ok a ms me c info p : tag_wf (ModuleTag ms me c) → bytes_in get a (encode_tag (ModuleTag ms me c)) → phys_wf p →
  ∃ p', mark_module get a info p = Ok (count_module info (ms, me, c), p') ∧ taken [mod_range (ms, me, c)] p p'.
Proof.
  intros Ht Hb Hp. destruct (module_fields a ms me c Ht Hb) as (E1 & E2 & E3 & E4). destruct Ht as (_ & Hs & Hms & Hc).
  unfold mark_module. rewrite E1, bind_ok, E2, bind_ok, E3, bind_ok, E4.
  pose proof (strncmp_ok (take 7 c) CONFIG_NAME 7 (take_c_string 7 c Hc) config_string ltac:(lia)) as Hcmp.
  apply wp_ok in Hcmp as (r & -> & Hr). rewrite bind_ok.
  pose proof (prefix_equal c CONFIG_NAME 7 Hc config_string ltac:(cbn; lia)) as Hpre.
  destruct (take_range_taken p ms (me - ms) Hp Hs ltac:(lia) ltac:(lia)) as (p' & -> & Htk).
  exists p'. split; [|done]. rewrite bind_ok. f_equal. f_equal. unfold count_module.
  destruct (Z.eqb_spec r 0) as [E0|E0], (decide (c = CONFIG_NAME)) as [Ec|Ec]; try done.
  - by destruct Ec; apply Hpre, Hr.
  - by destruct E0; apply Hr, Hpre.
Qed.

Definition marked (ts : list mb_tag) (info info' : boot_info) (p p' : phys) : Prop :=
  info' = foldl count_module info (modules ts) ∧ taken (mod_range <$> modules ts) p p'.

(** Any other tag is passed over. *)
Lemma module_code t : tag_wf t → tag_modules t = [] → tag_code t ≠ MULTIBOOT_TAG_TYPE_MODULE.
Proof.
  intros [_ Ht] Hm. unfold MULTIBOOT_TAG_TYPE_MODULE. destruct t as [| | |[]|type pl]; cbn [tag_code]; try done.
  intros ->. destruct Ht as [_ Ht]. apply Ht. left.
Qed.

Lemma module_round a t info p : tag_wf t → bytes_in get a (encode_tag t) → phys_wf p →
  ∃ info' p', (if tag_code t =? MULTIBOOT_TAG_TYPE_MODULE then mark_module get a info p else Ok (info, p)) = Ok (info', p') ∧
    marked [t] info info' p p'.
Proof.
  intros Ht Hb Hp. destruct (tag_modules t) as [|m l] eqn:Em.
  - pose proof (module_code t Ht Em) as Hc. exists info, p. destruct (Z.eqb_spec (tag_code t) MULTIBOOT_TAG_TYPE_MODULE); [done|].
    split; [done|]. unfold marked, modules. cbn [map concat]. rewrite Em. split; [done|by apply taken_nil].
  - destruct t as [|ms me c| | |]; try discriminate Em. destruct (mark_module_ok a ms me c info p Ht Hb Hp) as (p' & E & Htk).
    exists (count_module info (ms, me, c)), p'. split; [exact E|]. split; [done|exact Htk].
Qed.

Lemma module_loop ts a info p : tags_at get a ts → phys_wf p →
  ∃ info' p', rounds (Datatypes.S (length ts)) (module_step get) (a, info, p) = Ok (inr (info', p')) ∧ marked ts info info' p p'.
Proof.
  revert a info p. induction ts as [|t ts IH]; intros a info p H Hp.
  - exists info, p. split; [|split; [done|by apply taken_nil]].
    rewrite rounds_S. unfold module_step. cbv beta iota. by rewrite (end_type a H), bind_ok.
  - pose proof (tag_next a t ts H) as En. destruct H as (Ht & Hb & Hts).
    destruct (module_round a t info p Ht Hb Hp) as (info1 & p1 & E1 & [I1 T1]).
    destruct (IH _ info1 p1 Hts (proj1 T1)) as (info2 & p2 & E2 & [I2 T2]).
    assert (E : module_step get (a, info, p) = Ok (inl (a + round8 (tag_length t), info1, p1))).
    { unfold module_step. destruct (tag_header a t Ht Hb) as (-> & _ & _). rewrite bind_ok.
      destruct (Z.eqb_spec (tag_code t) MULTIBOOT_TAG_TYPE_END) as [E0|_]; [by destruct (tag_code_end t Ht)|].
      by rewrite E1, bind_ok, En, bind_ok. }
    exists info2, p2. cbn [length]. rewrite rounds_S, E, bind_ok. split; [exact E2|].
    unfold marked, modules in *. cbn [map concat] in *. rewrite app_nil_r in *. rewrite foldl_app, fmap_app. subst.
    split; [done|]. by apply (taken_app _ _ p p1).
Qed.

Lemma modules_ok ts a info p : tags_at get a ts → phys_wf p →
  ∃ info' p', while (module_step get) (a, info, p) = Ok (info', p') ∧ marked ts info info' p p'.
Proof.
  intros H Hp. destruct (module_loop ts a info p H Hp) as (info' & p' & E & M). exists info', p'. split; [|done].
  pose proof (tags_count a ts H). pose proof (tags_start a ts H).
  apply (while_rounds _ (Datatypes.S (length ts)) _ (Ok (info', p'))); [lia|done].
Qed.

(** ** The third loop *)

(** The module whose name is [s]: the last one counts. *)
Definition named (s : list Z) (ms : list (Z * Z * list Z)) : option (Z * Z * list Z) := last (filter (fun m => m.2 = s) ms).

(** An array of the guests after the modules [ms]: the entry of a name is [f] of the module of that name. *)
Definition filled (strs : list (list Z)) (ms : list (Z * Z * list Z)) (f : Z * Z * list Z → Z) (l l' : list Z) : Prop :=
  length l' = length l ∧ ∀ k s, strs !! k = Some s →
    l' !! k = match named s ms with Some m => Some (f m) | None => l !! k end.

Definition mod_base (m : Z * Z * list Z) : Z := m.1.1.
Definition mod_bytes (m : Z * Z * list Z) : Z := m.1.2 - m.1.1.

Definition located (ms : list (Z * Z * list Z)) (info info' : boot_info) : Prop := ∃ a b,
  info' = set_mod_size (set_mod_paddr info a) b ∧
  filled (mod_str info) ms mod_base (mod_paddr info) a ∧ filled (mod_str info) ms mod_bytes (mod_size info) b.

Lemma named_app s ms1 ms2 : named s (ms1 ++ ms2) = match named s ms2 with Some m => Some m | None => named s ms1 end.
Proof. unfold named. by rewrite filter_app, last_app. Qed.

Lemma filled_nil strs f l : filled strs [] f l l.
Proof. by split. Qed.

Lemma filled_app strs ms1 ms2 f l l1 l2 : filled strs ms1 f l l1 → filled strs ms2 f l1 l2 → filled strs (ms1 ++ ms2) f l l2.
Proof.
  intros [L1 H1] [L2 H2]. split; [congruence|]. intros k s Hs. rewrite (H2 k s Hs), named_app.
  destruct (named s ms2); [done|]. by apply H1.
Qed.

Lemma located_nil info : located [] info info.
Proof. exists (mod_paddr info), (mod_size info). split; [by destruct info|]. split; apply filled_nil. Qed.

Lemma located_app ms1 ms2 info info1 info2 : located ms1 info info1 → located ms2 info1 info2 → located (ms1 ++ ms2) info info2.
Proof.
  intros (a1 & b1 & -> & A1 & B1) (a2 & b2 & -> & A2 & B2). cbn in A2, B2. exists a2, b2. split; [done|].
  split; [by apply (filled_app _ _ _ _ _ a1)|by apply (filled_app _ _ _ _ _ b1)].
Qed.

(** The entries below [i] have been compared with the name [c]. *)
Definition below (strs : list (list Z)) (c : list Z) (x : Z) (l l' : list Z) (i : Z) : Prop :=
  length l' = length l ∧ ∀ k s, strs !! k = Some s →
    l' !! k = if decide (s = c ∧ Z.of_nat k < i) then Some x else l !! k.

Lemma below_skip strs c x l l' i s : below strs c x l l' i → 0 <= i → strs !! Z.to_nat i = Some s → s ≠ c → below strs c x l l' (i + 1).
Proof.
  intros [L H] Hi Hs Hne. split; [done|]. intros k s' Hs'. rewrite (H k s' Hs').
  destruct (decide (s' = c ∧ Z.of_nat k < i)) as [[Hc Hk]|Hno], (decide (s' = c ∧ Z.of_nat k < i + 1)) as [Hy|Hno']; try done.
  - destruct Hno'. split; [done|lia].
  - destruct Hy as [-> Hk]. assert (Ek : k = Z.to_nat i) by (destruct (Z.lt_ge_cases (Z.of_nat k) i); [by destruct Hno|lia]).
    subst k. rewrite Hs in Hs'. by injection Hs'.
Qed.

Lemma below_set strs c x l l' i : below strs c x l l' i → 0 <= i < Z.of_nat (length l) → strs !! Z.to_nat i = Some c →
  below strs c x l (<[Z.to_nat i := x]> l') (i + 1).
Proof.
  intros [L H] Hi Hs. split; [by rewrite length_insert|]. intros k s' Hs'. destruct (decide (k = Z.to_nat i)) as [->|Hne].
  - rewrite Hs in Hs'. injection Hs' as <-. rewrite list_lookup_insert_eq by lia. by rewrite decide_True by (split; [done|lia]).
  - rewrite list_lookup_insert_ne by done. rewrite (H k s' Hs').
    destruct (decide (s' = c ∧ Z.of_nat k < i)) as [[Hc Hk]|Hno], (decide (s' = c ∧ Z.of_nat k < i + 1)) as [Hy|Hno']; try done.
    + destruct Hno'. split; [done|lia].
    + destruct Hy as [-> Hk]. destruct Hno. split; [done|lia].
Qed.

Lemma locate_loop_ok info n ms size c : info_ok info n → c_string c →
  wp (while (locate_step ms size (take 32 c)) (0, info)) (fun info' => ∃ a b, info' = set_mod_size (set_mod_paddr info a) b ∧
    below (mod_str info) c ms (mod_paddr info) a n ∧ below (mod_str info) c size (mod_size info) b n).
Proof.
  intros Hi Hc. pose proof (io_range _ _ Hi) as Hn.
  apply (wp_while _ (fun '(i, info') => 0 <= i <= n ∧ ∃ a b, info' = set_mod_size (set_mod_paddr info a) b ∧
    below (mod_str info) c ms (mod_paddr info) a i ∧ below (mod_str info) c size (mod_size info) b i) (fun st => n - st.1)).
  - intros [i info'] (Hin & a & b & -> & [La Ha] & [Lb Hb]). unfold locate_step. cbn [num_mod set_mod_size set_mod_paddr mod_str].
    rewrite (io_num _ _ Hi). destruct (Z.ltb_spec i n) as [Hlt|Hge].
    2:{ cbn. exists a, b. replace n with i by lia. split; [done|]. split; by split. }
    destruct (list_get_ok (mod_str info) i) as (s & -> & Hs); [rewrite (io_str _ _ Hi); lia|]. rewrite bind_ok.
    assert (Hss : c_string s ∧ Z.of_nat (length s) < BOOT_STRING_MAX) by (apply (io_names _ _ Hi); by apply list_elem_of_lookup_2 in Hs).
    destruct Hss as [Hsc Hsl].
    pose proof (strncmp_ok s (take 32 c) BOOT_STRING_MAX Hsc (take_c_string 32 c Hc) ltac:(unfold BOOT_STRING_MAX; lia)) as Hcmp.
    apply wp_ok in Hcmp as (r & -> & Hr). rewrite bind_ok.
    pose proof (prefix_equal c s BOOT_STRING_MAX Hc Hsc Hsl) as Hpre. change (Z.to_nat BOOT_STRING_MAX) with 32%nat in Hpre.
    destruct (Z.eqb_spec r 0) as [E0|E0].
    + assert (s = c) as -> by (symmetry; apply Hpre; symmetry; by apply Hr).
      cbn [mod_paddr mod_size set_mod_size set_mod_paddr].
      rewrite (list_set_ok a), bind_ok by (rewrite La, (io_paddr _ _ Hi); lia).
      rewrite (list_set_ok b), bind_ok by (rewrite Lb, (io_size _ _ Hi); lia). rewrite bind_ok, u16_id by (unfold is_u16; lia).
      split; [|cbn; lia]. split; [lia|]. eexists _, _. split; [reflexivity|].
      split; (apply below_set; [by split| |done]); [rewrite (io_paddr _ _ Hi)|rewrite (io_size _ _ Hi)]; lia.
    + assert (s ≠ c) by (intros ->; apply E0, Hr; symmetry; by apply Hpre).
      rewrite bind_ok, u16_id by (unfold is_u16; lia). split; [|cbn; lia]. split; [lia|]. exists a, b. split; [done|].
      split; (apply (below_skip _ _ _ _ _ _ s); [by split|lia|done|done]).
  - split; [lia|]. exists (mod_paddr info), (mod_size info). split; [by destruct info|].
    split; (split; [done|]); intros k s _; rewrite decide_False by lia; done.
  - cbn. lia.
Qed.

Lemma below_filled strs ms me c (f : Z * Z * list Z → Z) l l' n : below strs c (f (ms, me, c)) l l' n → Z.of_nat (length strs) = n →
  filled strs [(ms, me, c)] f l l'.
Proof.
  intros [L H] Hn. split; [done|]. intros k s Hs. rewrite (H k s Hs). pose proof (lookup_lt_Some _ _ _ Hs).
  unfold named. destruct (decide (s = c)) as [->|Hne].
  - rewrite decide_True by (split; [done|lia]). by rewrite filter_cons_True.
  - rewrite decide_False by (by intros [? _]). rewrite filter_cons_False by (cbn; congruence). done.
Qed.

Lemma located_info_ok ms info info' n : located ms info info' → info_ok info n → info_ok info' n.
Proof.
  intros (a & b & -> & [La _] & [Lb _]) []. split; cbn; try done; congruence.
Qed.

Lemma locate_module_ok a ms me c info n : tag_wf (ModuleTag ms me c) → bytes_in get a (encode_tag (ModuleTag ms me c)) → info_ok info n →
  ∃ info', locate_module get a info = Ok info' ∧ located [(ms, me, c)] info info'.
Proof.
  intros Ht Hb Hi. destruct (module_fields a ms me c Ht Hb) as (E1 & E2 & E3 & E4). destruct Ht as (_ & _ & _ & Hc).
  unfold locate_module. rewrite E1, bind_ok, E2, bind_ok, E3, bind_ok, E4.
  pose proof (locate_loop_ok info n ms (me - ms) c Hi Hc) as Hw. apply wp_ok in Hw as (info' & E & a' & b' & -> & A & B).
  rewrite E. eexists. split; [reflexivity|]. exists a', b'. split; [done|]. pose proof (io_str _ _ Hi).
  split; by apply (below_filled _ _ _ _ _ _ _ n).
Qed.

Lemma assign_round a t info n : tag_wf t → bytes_in get a (encode_tag t) → info_ok info n →
  ∃ info', (if tag_code t =? MULTIBOOT_TAG_TYPE_MODULE then locate_module get a info else Ok info) = Ok info' ∧
    located (modules [t]) info info'.
Proof.
  intros Ht Hb Hi. unfold modules. cbn [map concat]. rewrite app_nil_r. destruct (tag_modules t) as [|m l] eqn:Em.
  - pose proof (module_code t Ht Em) as Hc. exists info. destruct (Z.eqb_spec (tag_code t) MULTIBOOT_TAG_TYPE_MODULE); [done|].
    split; [done|]. apply located_nil.
  - destruct t as [|ms me c| | |]; try discriminate Em. injection Em as <- <-.
    by apply (locate_module_ok a ms me c info n).
Qed.

Lemma assign_loop ts a info n : tags_at get a ts → info_ok info n →
  ∃ info', rounds (Datatypes.S (length ts)) (assign_modules_step get) (a, info) = Ok (inr info') ∧ located (modules ts) info info'.
Proof.
  revert a info. induction ts as [|t ts IH]; intros a info H Hi.
  - exists info. split; [|apply located_nil].
    rewrite rounds_S. unfold assign_modules_step. cbv beta iota. by rewrite (end_type a H), bind_ok.
  - pose proof (tag_next a t ts H) as En. destruct H as (Ht & Hb & Hts).
    destruct (assign_round a t info n Ht Hb Hi) as (info1 & E1 & L1).
    destruct (IH _ info1 Hts (located_info_ok _ _ _ _ L1 Hi)) as (info2 & E2 & L2).
    assert (E : assign_modules_step get (a, info) = Ok (inl (a + round8 (tag_length t), info1))).
    { unfold assign_modules_step. destruct (tag_header a t Ht Hb) as (-> & _ & _). rewrite bind_ok.
      destruct (Z.eqb_spec (tag_code t) MULTIBOOT_TAG_TYPE_END) as [E0|_]; [by destruct (tag_code_end t Ht)|].
      by rewrite E1, bind_ok, En, bind_ok. }
    exists info2. cbn [length]. rewrite rounds_S, E, bind_ok. split; [exact E2|].
    change (t :: ts) with ([t] ++ ts). unfold modules in *. rewrite map_app, concat_app. by apply (located_app _ _ _ info1).
Qed.

Lemma assign_modules_ok ts mbi info n : tags_at get (mbi + 8) ts → 0 <= mbi → info_ok info n →
  ∃ info', assign_modules get mbi info = Ok info' ∧ located (modules ts) info info'.
Proof.
  intros H Hm Hi. pose proof (tags_count _ ts H). pose proof (tags_start _ ts H).
  destruct (assign_loop ts (mbi + 8) info n H Hi) as (info' & E & L). exists info'. split; [|done].
  unfold assign_modules. rewrite u64_id by (unfold is_u64; lia).
  apply (while_rounds _ (Datatypes.S (length ts)) _ (Ok info')); [lia|done].
Qed.
End tags.

(** ** The memory of the machine *)

Definition image_pages {HI : Image} : Z := boot_pages + kernel_code_pages + kernel_ro_pages + kernel_rw_pages.
Definition image_ok {HI : Image} : Prop :=
  0 <= boot_start ∧ 0 <= boot_pages ∧ 0 <= kernel_code_pages ∧ 0 <= kernel_ro_pages ∧ 0 <= kernel_rw_pages ∧
  boot_start + 4096 * image_pages <= 2 ^ 36.

(** What the hypervisor keeps: page 0, its image and the modules. *)
Definition reserved {HI : Image} (ts : list mb_tag) : list (Z * Z) :=
  (0, 4096) :: (boot_start, image_pages * 4096) :: (mod_range <$> modules ts).

Section memory.
Context (get : Z → outcome Z) {HI : Image}.

Lemma mem_end_le limit l : limit <= 2 ^ 36 → Forall (fun r => r.1 + r.2 <= 2 ^ 36) l → mem_end limit l <= 2 ^ 36.
Proof.
  revert limit. induction l as [|r l IH]; intros limit Hl Hall; [done|]. apply Forall_cons in Hall as [Hr Hl']. cbn. apply IH; [lia|done].
Qed.

Lemma ranges_le a ts : tags_at get a ts → Forall (fun r => r.1 + r.2 <= 2 ^ 36) (avail_ranges ts).
Proof.
  revert a. induction ts as [|t ts IH]; intros a H; [constructor|]. destruct H as ([_ Ht] & _ & Hts).
  unfold avail_ranges. cbn [map concat]. apply Forall_app. split; [|by apply (IH _ Hts)].
  destruct t as [esz ver es| | | |]; cbn [tag_ranges]; try constructor. destruct Ht as [_ Hes]. unfold ranges_of.
  apply Forall_fmap, Forall_forall. intros e He. apply list_elem_of_filter in He as [Hav He].
  rewrite Forall_forall in Hes. destruct (Hes e He) as (_ & _ & _ & _ & H). cbn. by apply H, Is_true_true.
Qed.

Lemma memory_ok mbi size fb p info ts : image_ok → phys_wf p → 0 <= mbi → read_le get 4 mbi = Ok size → size <= PG_SIZE →
  tags_at get (mbi + 8) ts →
  let info' := foldl count_module info (modules ts) in
  wpx (kernel_main_memory get MULTIBOOT2_BOOTLOADER_MAGIC mbi fb p info) (fun r => ∃ s, r = inr (s, info') ∧
      phys_wf (s_phys s) ∧ mm_limit (s_phys s) = mem_end 0 (avail_ranges ts) / 4096 ∧
      (∀ n, 0 <= n → page_free (s_phys s) n =
        (page_free p n || existsb (whole n) (avail_ranges ts)) && negb (existsb (touched n) (reserved ts))) ∧
      rsdp s = rsdp_of (mbi + 8) ts 0 ∧ frame_buf s = frame_buf_of ts fb ∧ config_size info' ≠ 0)
    (fun m => m = "Missing config module"%string ∧ config_size info' = 0) False.
Proof.
  intros (G1 & G2 & G3 & G4 & G5 & G6) Hp Hm Esz Hsz Hts info'. unfold kernel_main_memory. rewrite Z.eqb_refl. cbn [negb]. rewrite Esz, bind_ok.
  destruct (Z.ltb_spec PG_SIZE size); [lia|]. pose proof (tags_start _ _ _ Hts) as Hst.
  rewrite (u64_id (mbi + 8)) by (unfold is_u64; lia).
  destruct (scan_ok get ts (mbi + 8) (Scan p 0 0 fb) Hts Hp ltac:(cbn; lia)) as (s & -> & [[Ps F] Ls Rs Fs] & L0). rewrite bind_ok.
  cbn [s_phys mem_limit rsdp frame_buf] in *.
  pose proof (mem_end_le 0 (avail_ranges ts) ltac:(lia) (ranges_le _ _ Hts)) as Hle. rewrite <- Ls in Hle.
  destruct (physical_set_limit_ok (s_phys s) (mem_limit s) Ps ltac:(lia)) as (p1 & -> & P1 & T1 & M1). rewrite bind_ok.
  destruct (take_range_taken p1 0 4096 P1 ltac:(lia) ltac:(lia) ltac:(lia)) as (p2 & E2 & T2).
  change PG_SIZE with 4096. rewrite E2, bind_ok. unfold image_pages in G6.
  rewrite (u64_id (boot_pages + kernel_code_pages)), (u64_id (boot_pages + kernel_code_pages + kernel_ro_pages)),
    (u64_id (boot_pages + kernel_code_pages + kernel_ro_pages + kernel_rw_pages)) by (unfold is_u64; lia).
  fold image_pages in *. rewrite (u64_id (image_pages * 4096)) by (unfold is_u64, image_pages in *; lia).
  assert (Hg : 0 <= image_pages * 4096 ∧ boot_start + image_pages * 4096 <= 2 ^ 36) by (unfold image_pages in *; lia).
  destruct (take_range_taken p2 boot_start (image_pages * 4096) (proj1 T2) G1 (proj1 Hg) (proj2 Hg)) as (p3 & -> & T3).
  rewrite bind_ok. destruct (modules_ok get ts (mbi + 8) info p3 Hts (proj1 T3)) as (info1 & p4 & -> & I4 & T4). rewrite bind_ok.
  fold info' in I4. subst info1. pose proof (taken_app _ _ _ _ _ T2 (taken_app _ _ _ _ _ T3 T4)) as (W & M & Tk).
  destruct (Z.eqb_spec (config_size info') 0) as [E0|E0]; [done|]. cbn [wpx].
  eexists. split; [reflexivity|]. cbn [s_phys mem_limit rsdp frame_buf]. split; [exact W|]. split; [by rewrite M, M1, Ls|].
  split; [|done]. intros n Hn. rewrite Tk by done. unfold page_free at 1. rewrite T1. fold (page_free (s_phys s) n). by rewrite F.
Qed.
End memory.

(** C3: the memory the hypervisor starts with. On the multiboot information of any
    list of well-formed tags, [kernel_main] reaches [interrupt_init] with the
    page allocator exact: a page is free if it was free or lies wholly in an
    available range of the memory map, and touches none of page 0, the image
    and the modules; the limit is the end of the highest available range. The
    ACPI and frame buffer tags that count are the last ones, and the
    configuration and the number of modules are those of the module tags. It
    stops if, and only if, no module named config (of some size) is there. *)
Theorem boot_memory_spec (get : Z → outcome Z) {HI : Image} mbi size fb p info ts :
  image_ok → phys_wf p → 0 <= mbi → read_le get 4 mbi = Ok size → size <= PG_SIZE → tags_at get (mbi + 8) ts →
  let info' := foldl count_module info (modules ts) in
  wpx (kernel_main_memory get MULTIBOOT2_BOOTLOADER_MAGIC mbi fb p info) (fun r => ∃ s, r = inr (s, info') ∧
      phys_wf (s_phys s) ∧ mm_limit (s_phys s) = mem_end 0 (avail_ranges ts) / 4096 ∧
      (∀ n, 0 <= n → page_free (s_phys s) n =
        (page_free p n || existsb (whole n) (avail_ranges ts)) && negb (existsb (touched n) (reserved ts))) ∧
      rsdp s = rsdp_of (mbi + 8) ts 0 ∧ frame_buf s = frame_buf_of ts fb ∧ config_size info' ≠ 0)
    (fun m => m = "Missing config module"%string ∧ config_size info' = 0) False.
Proof. apply memory_ok. Qed.

(** the third loop of [kernel_main] gives each name of the configuration the
    place and the size of the last module with that name, and changes nothing
    else; a name without a module keeps what [parse_boot_info] left. *)
Theorem assign_modules_spec (get : Z → outcome Z) mbi info n ts :
  0 <= mbi → tags_at get (mbi + 8) ts → info_ok info n →
  ∃ info', assign_modules get mbi info = Ok info' ∧ info_ok info' n ∧ mod_str info' = mod_str info ∧
    ∀ i s, mod_str info !! i = Some s →
      mod_paddr info' !! i = (match named s (modules ts) with Some m => Some m.1.1 | None => mod_paddr info !! i end) ∧
      mod_size info' !! i = (match named s (modules ts) with Some m => Some (m.1.2 - m.1.1) | None => mod_size info !! i end).
Proof.
  intros Hm Hts Hi. destruct (assign_modules_ok get ts mbi info n Hts Hm Hi) as (info' & E & L).
  exists info'. split; [done|]. split; [by apply (located_info_ok _ _ _ _ L)|].
  destruct L as (a & b & -> & [_ A] & [_ B]). split; [done|]. intros i s Hs. cbn. split; [by apply A|by apply B].
Qed.

(** A machine with 128 MB, a configuration and a guest of two files. *)
Definition sample_tags : list mb_tag := [
  OtherTag 2 [71; 82; 85; 66; 0];
  ModuleTag 0x500000 0x500040 CONFIG_NAME;
  ModuleTag 0x600000 0xA00000 LINUX_NAME;
  ModuleTag 0xA00000 0xA80000 INITRD_NAME;
  MmapTag 24 0 [MmapEntry 0 0x9F000 1 [0; 0; 0; 0]; MmapEntry 0x9F000 0x61000 2 [0; 0; 0; 0]; MmapEntry 0x100000 0x7F00000 1 [0; 0; 0; 0]];
  FramebufferTag 0xB8000 (replicate 14 0);
  AcpiTag false (replicate 20 7) ].

Definition pad8 (l : list Z) : list Z := l ++ replicate (Z.to_nat (round8 (Z.of_nat (length l)) - Z.of_nat (length l))) 0.
Definition sample_info_bytes : list Z :=
  let tags := concat (map (fun t => pad8 (encode_tag t)) sample_tags) ++ le 4 0 ++ le 4 8 in
  le 4 (8 + Z.of_nat (length tags)) ++ le 4 0 ++ tags.

Definition sample_get (a : Z) : outcome Z :=
  if a <? 0x10000 then Fault
  else match sample_info_bytes !! Z.to_nat (a - 0x10000) with Some b => Ok b | None => Fault end.

Definition sample_image : Image := {|
  boot_start := 0x100000; boot_pages := 8; kernel_code_pages := 20; kernel_ro_pages := 5; kernel_rw_pages := 40
|}.
Definition no_info : boot_info := BootInfo 0 0 0 [] [] [] [] [].

(** [tags_at] decided for concrete tags. *)
Fixpoint tags_inb (get : Z → outcome Z) (a : Z) (ts : list mb_tag) : bool :=
  match ts with
  | [] => (0 <=? a) && (a + 4 <? 2 ^ 64) && bytes_inb get a (le 4 MULTIBOOT_TAG_TYPE_END)
  | t :: ts => (0 <=? a) && (a + Z.of_nat (length (encode_tag t)) <? 2 ^ 64) && bytes_inb get a (encode_tag t) &&
      tags_inb get (a + round8 (tag_length t)) ts
  end.

Lemma tags_inb_sound get a ts : Forall tag_wf ts → tags_inb get a ts = true → tags_at get a ts.
Proof.
  intros Hwf. revert a. induction Hwf as [|t ts Ht _ IH]; intros a H; cbn [tags_inb] in H.
  - apply andb_true_iff in H as [[H1%Z.leb_le H2%Z.ltb_lt]%andb_true_iff H3]. by apply bytes_inb_sound.
  - apply andb_true_iff in H as [[[H1%Z.leb_le H2%Z.ltb_lt]%andb_true_iff H3]%andb_true_iff H4].
    split; [exact Ht|]. split; [by apply bytes_inb_sound|by apply IH].
Qed.

Ltac tag_wf_one :=
  split; [vm_compute; reflexivity|];
  lazymatch goal with
  | |- True => exact I
  | |- is_u64 _ => unfold is_u64; lia
  | |- _ ∧ Forall _ _ => split; [lia|]; repeat apply Forall_cons_2; [..|apply Forall_nil_2];
      (split; [unfold is_u64; cbn; lia|split; [unfold is_u64; cbn; lia|split; [unfold is_u32; cbn; lia|split; [reflexivity|]]]]);
      intros _; cbn [me_addr me_len]; (split; [lia|vm_compute; discriminate])
  | |- _ ∧ _ ∧ c_string _ => split; [lia|]; split; [lia|]; apply c_string_dec; reflexivity
  | |- _ ∧ _ ∉ _ => split; [lia|]; intros H; repeat (apply elem_of_cons in H as [H|H]; [discriminate H|]); by apply elem_of_nil in H
  end.
Ltac tags_wf := repeat apply Forall_cons_2; [..|apply Forall_nil_2]; tag_wf_one.

Lemma sample_tags_at : tags_at sample_get 0x10008 sample_tags.
Proof. apply tags_inb_sound; [unfold sample_tags; tags_wf|vm_compute; reflexivity]. Qed.

Lemma sample_image_ok : image_ok (HI := sample_image).
Proof. vm_compute. repeat split; congruence. Qed.

Lemma boot_memory_spec_witness :
  ∃ s info', kernel_main_memory sample_get (HI := sample_image) MULTIBOOT2_BOOTLOADER_MAGIC 0x10000 0 phys_init no_info = Ok (inr (s, info')) ∧
    num_mod info' = 2 ∧ config_paddr info' = 0x500000 ∧ rsdp s = 0x100E0 ∧ mm_limit (s_phys s) = 0x8000 ∧
    page_free (s_phys s) 0x400 = true ∧ page_free (s_phys s) 0x500 = false.
Proof.
  pose proof (boot_memory_spec sample_get (HI := sample_image) 0x10000 (Z.of_nat (length sample_info_bytes)) 0 phys_init no_info sample_tags
    sample_image_ok phys_init_wf ltac:(lia) ltac:(vm_compute; reflexivity) ltac:(vm_compute; discriminate) sample_tags_at) as H.
  cbv zeta in H. remember (kernel_main_memory sample_get MULTIBOOT2_BOOTLOADER_MAGIC 0x10000 0 phys_init no_info) as r eqn:Er.
  destruct r as [r|m| |]; [|destruct H as [_ H]; vm_compute in H; discriminate H|destruct H..].
  destruct H as (s & -> & _ & L & F & R & _). exists s, (foldl count_module no_info (modules sample_tags)).
  split; [reflexivity|]. split; [vm_compute; reflexivity|]. split; [vm_compute; reflexivity|]. rewrite R, L, !F by lia.
  split; [vm_compute; reflexivity|]. split; [vm_compute; reflexivity|]. split; vm_compute; reflexivity.
Defined.

(** What [parse_boot_info] leaves for two modules. *)
Definition parsed_info : boot_info := BootInfo 0x500000 64 2 [LINUX_NAME; INITRD_NAME] [0; 0] [0; 0] [1; 7] [2; 7].

Lemma parsed_info_ok : info_ok parsed_info 2.
Proof.
  split; try done.
  - intros s Hs. cbn [parsed_info mod_str] in Hs.
    apply elem_of_cons in Hs as [->|Hs]; [split; [apply c_string_dec; reflexivity|reflexivity]|].
    apply elem_of_cons in Hs as [->|Hs]; [split; [apply c_string_dec; reflexivity|reflexivity]|]. by apply elem_of_nil in Hs.
  - intros c Hc. cbn [parsed_info num_cpus] in Hc. unfold is_u16.
    apply elem_of_cons in Hc as [->|Hc]; [lia|]. apply elem_of_cons in Hc as [->|Hc]; [lia|]. by apply elem_of_nil in Hc.
Qed.

Lemma assign_modules_spec_witness :
  ∃ info', assign_modules sample_get 0x10000 parsed_info = Ok info' ∧ mod_paddr info' !! 0%nat = Some 0x600000 ∧
    mod_size info' !! 1%nat = Some 0x80000.
Proof.
  destruct (assign_modules_spec sample_get 0x10000 parsed_info 2 sample_tags ltac:(lia) sample_tags_at parsed_info_ok)
    as (info' & E & _ & _ & H).
  exists info'. split; [exact E|]. destruct (H 0%nat LINUX_NAME eq_refl) as [-> _]. destruct (H 1%nat INITRD_NAME eq_refl) as [_ ->].
  split; vm_compute; reflexivity.
Defined.
