(* ===== verification/VirtInit.v ===== *)
(** * Assigning CPUs to guests

    Models [virt_init] of [arch/x86_64/virt/virt.c]: the check of the
    processor, the array of guests on the heap, and the table [cpu_to_vm] that
    gives each CPU to at most one guest. *)

From S2P Require Import Prelude Layout Bits Spinlock Physical Mmu Paging Kernel Screen Descriptors Percpu Vmcs Virt CList Malloc Buddy MallocSpec MallocProps BootInfo.

Local Open Scope Z_scope.
Local Open Scope c_scope.

Definition VM_NONE : Z := 0xFFFF.
Definition LINUX_ENTRY_POINT : Z := 0x100000.
(** [sizeof(vm_struct_t)]: the members with their padding. *)
Definition VM_STRUCT_SIZE : Z := 40 + 2 * 8 + 2 * 4 + 3 * 8 + 8 * MAX_CPUS + 3 * 8.

(** The static variables of virt.c and the heap; [vm_structs] is the array behind
    the pointer. *)
Record virt := VirtState {
  v_heap : heap;
  vm_structs : list vm_struct;
  cpu_to_vm : list Z;
  vmcs_mem_type : Z;
  vmcs_rev : Z
}.

(** [for (i = 0; i < MAX_CPUS; i++) cpu_to_vm[i] = VM_NONE] *)
Definition clear_cpus_step (st : Z * list Z) : outcome ((Z * list Z) + list Z) :=
  let '(i, l) := st in
  if i <? MAX_CPUS then l ← list_set l i VM_NONE; Ok (inl (u16 (i + 1), l)) else Ok (inr l).

(** [for (j = 0; j < info->num_cpus[i]; j++) cpu_to_vm[cur_cpu++] = i] *)
Definition assign_step (n i : Z) (st : Z * Z * list Z) : outcome ((Z * Z * list Z) + (Z * list Z)) :=
  let '(j, cur_cpu, l) := st in
  if j <? n then l ← list_set l cur_cpu i; Ok (inl (u16 (j + 1), u16 (cur_cpu + 1), l)) else Ok (inr (cur_cpu, l)).

(** The members [virt_init] writes before and after it has assigned the CPUs. *)
Definition init_vm_struct (vm : vm_struct) (i : Z) (s : list Z) (paddr sz ram : Z) : vm_struct :=
  VmStruct i s paddr sz 0 ram (input vm) (entry_point vm) (gdtr vm) (vmcs_paddr vm) (extra_paddr vm) (extra_size vm)
    SPINLOCK_UNLOCKED.
Definition set_entry (vm : vm_struct) (entry : Z) : vm_struct :=
  VmStruct (vm_id vm) (name vm) (img_paddr vm) (img_size vm) (vm_num_cpus vm) (vm_ram_size vm) (input vm) entry (gdtr vm)
    (vmcs_paddr vm) (extra_paddr vm) (extra_size vm) (vm_lock vm).
Definition set_extra (vm : vm_struct) (paddr sz : Z) : vm_struct :=
  VmStruct (vm_id vm) (name vm) (img_paddr vm) (img_size vm) (vm_num_cpus vm) (vm_ram_size vm) (input vm) (entry_point vm)
    (gdtr vm) (vmcs_paddr vm) paddr sz (vm_lock vm).

(** One round of the loop over the modules: a guest takes two, its kernel and its ramdisk. *)
Definition virt_init_step (info : boot_info) (g_cpus : Z) (st : Z * Z * list vm_struct * list Z) :
    outcome ((Z * Z * list vm_struct * list Z) + (list vm_struct * list Z)) :=
  let '(i, cur_cpu, vms, cpus) := st in
  if i <? num_mod info then
    vm ← list_get vms i;
    s ← list_get (mod_str info) i;
    len ← strlen s;
    if BOOT_STRING_MAX <? len + 1 then Fault
    else
      paddr ← list_get (mod_paddr info) i;
      sz ← list_get (mod_size info) i;
      ram ← list_get (ram_size info) i;
      vms ← list_set vms i (init_vm_struct vm i s paddr sz ram);
      n ← list_get (num_cpus info) i;
      if g_cpus <? cur_cpu + n then Panic "Number of VM CPUs exceeds the available amount"
      else
        '(cur_cpu, cpus) ← while (assign_step n i) (0, cur_cpu, cpus);
        vm ← list_get vms i;
        vms ← list_set vms i (set_entry vm LINUX_ENTRY_POINT);
        let i := u16 (i + 1) in
        vm ← list_get vms (i - 1);
        paddr ← list_get (mod_paddr info) i;
        sz ← list_get (mod_size info) i;
        vms ← list_set vms (i - 1) (set_extra vm paddr sz);
        Ok (inl (u16 (i + 1), cur_cpu, vms, cpus))
  else Ok (inr (vms, cpus)).

Section virt_init.
Context {HP : Processor}.

(** [junk] is what the memory of [vm_structs] holds before it is written. *)
Definition virt_init (junk : vm_struct) (info : boot_info) (g_cpus : Z) (v : virt) : outcome (boot_info * virt) :=
  vmx ← get_bit64 cpuid_1_ecx 5;
  if vmx =? 0 then Panic "VMX not supported"
  else
    let msr := rdmsr IA32_VMX_BASIC in
    let rev := u32 msr in
    size_4k ← get_bit64 msr 44;
    if size_4k =? 0 then Panic "VMXON/VMCS size not 4KB"
    else
      let mem_type := (msr >>w 50) .& 0xF in
      let mem_type := if mem_type =? 0 then PGT_PCD else 0 in
      cpus ← while clear_cpus_step (0, cpu_to_vm v);
      let info := set_num_mod info (u16 (num_mod info - 1)) in
      '(p, h) ← malloc (v_heap v) (u32 (num_mod info * VM_STRUCT_SIZE));
      if p =? 0 then Panic "Failed malloc for vm_structs"
      else
        '(vms, cpus) ← while (virt_init_step info g_cpus) (0, 0, replicate (Z.to_nat (num_mod info)) junk, cpus);
        Ok (info, VirtState h vms cpus mem_type rev).
End virt_init.

(** ** The table of CPUs *)

(** The indices of the first [k] guests, and the CPUs they get. *)
Definition guest_ids (k : nat) : list Z := (fun x => 2 * Z.of_nat x) <$> seq 0 k.
Definition cpus_of (info : boot_info) (i : Z) : Z := default 0 (num_cpus info !! Z.to_nat i).
Definition assigned (info : boot_info) (l : list Z) : list Z :=
  concat (map (fun i => replicate (Z.to_nat (cpus_of info i)) i) l).
Definition cpu_table (info : boot_info) (k : nat) : list Z :=
  assigned info (guest_ids k) ++ replicate (Z.to_nat MAX_CPUS - length (assigned info (guest_ids k))) VM_NONE.

Lemma guest_ids_S k : guest_ids (S k) = guest_ids k ++ [2 * Z.of_nat k].
Proof. unfold guest_ids. by rewrite seq_S, fmap_app. Qed.

Lemma assigned_snoc info l i : assigned info (l ++ [i]) = assigned info l ++ replicate (Z.to_nat (cpus_of info i)) i.
Proof. unfold assigned. rewrite map_app, concat_app. cbn [map concat]. by rewrite app_nil_r. Qed.

Lemma insert_replicate (pre : list Z) j r (i x : Z) :
  <[(length pre + j)%nat := i]> (pre ++ replicate j i ++ replicate (S r) x) = pre ++ replicate (S j) i ++ replicate r x.
Proof.
  rewrite insert_app_r. f_equal.
  replace j with (length (replicate j i) + 0)%nat at 1 by (rewrite length_replicate; lia).
  rewrite insert_app_r. change (<[0%nat := i]> (replicate (S r) x)) with ([i] ++ replicate r x).
  by rewrite app_assoc, <- replicate_S_end.
Qed.

Lemma clear_cpus_ok l : Z.of_nat (length l) = MAX_CPUS →
  while clear_cpus_step (0, l) = Ok (replicate (Z.to_nat MAX_CPUS) VM_NONE).
Proof.
  unfold MAX_CPUS. intros Hl. apply (while_rounds _ 17); [done|].
  do 16 (destruct l as [|? l]; [discriminate Hl|]). destruct l; [reflexivity|]. cbn [length] in Hl. lia.
Qed.

Lemma assign_ok n i pre r : 0 <= n < 2 ^ 16 → n <= Z.of_nat r → Z.of_nat (length pre) + Z.of_nat r < 2 ^ 16 →
  wp (while (assign_step n i) (0, Z.of_nat (length pre), pre ++ replicate r VM_NONE)) (fun '(cur, l) =>
    cur = Z.of_nat (length pre) + n ∧ l = (pre ++ replicate (Z.to_nat n) i) ++ replicate (r - Z.to_nat n) VM_NONE).
Proof.
  intros Hn Hr Hlen.
  apply (wp_while _ (fun '(j, cur, l) => 0 <= j <= n ∧ cur = Z.of_nat (length pre) + j ∧
      l = pre ++ replicate (Z.to_nat j) i ++ replicate (r - Z.to_nat j) VM_NONE) (fun st => n - st.1.1)).
  - intros [[j cur] l] (Hj & -> & ->). unfold assign_step. destruct (Z.ltb_spec j n) as [Hlt|Hge].
    + rewrite list_set_ok by (rewrite !length_app, !length_replicate; lia). rewrite bind_ok.
      rewrite !u16_id by (unfold is_u16; lia). cbn [wp wpx fst]. split; [|lia]. split; [lia|]. split; [lia|].
      replace (Z.to_nat (Z.of_nat (length pre) + j)) with (length pre + Z.to_nat j)%nat by lia.
      replace (r - Z.to_nat j)%nat with (S (r - Z.to_nat (j + 1))) by lia. rewrite insert_replicate.
      by replace (Z.to_nat (j + 1)) with (S (Z.to_nat j)) by lia.
    + cbn [wp wpx]. replace j with n by lia. by rewrite app_assoc.
  - split; [lia|]. split; [lia|]. cbn [replicate app]. by rewrite Nat.sub_0_r.
  - cbn. lia.
Qed.

(** ** The guests *)

(** Guest [i] takes modules [i] and [i + 1]. *)
Definition guest_set (info : boot_info) (vms : list vm_struct) (i : Z) : Prop := ∃ vm s paddr sz epaddr esz,
  vms !! Z.to_nat i = Some vm ∧ vm_id vm = i ∧
  mod_str info !! Z.to_nat i = Some s ∧ name vm = s ∧
  mod_paddr info !! Z.to_nat i = Some paddr ∧ img_paddr vm = paddr ∧ mod_size info !! Z.to_nat i = Some sz ∧ img_size vm = sz ∧
  mod_paddr info !! Z.to_nat (i + 1) = Some epaddr ∧ extra_paddr vm = epaddr ∧
  mod_size info !! Z.to_nat (i + 1) = Some esz ∧ extra_size vm = esz ∧
  ram_size info !! Z.to_nat i = Some (vm_ram_size vm) ∧
  vm_num_cpus vm = 0 ∧ entry_point vm = LINUX_ENTRY_POINT ∧ vm_lock vm = SPINLOCK_UNLOCKED.

Lemma guest_ids_in k i : i ∈ guest_ids k ↔ ∃ x, i = 2 * Z.of_nat x ∧ (x < k)%nat.
Proof.
  unfold guest_ids. rewrite list_elem_of_fmap. split; intros (x & H1 & H2); exists x; [|split; [done|]].
  - split; [done|]. apply elem_of_seq in H2. lia.
  - apply elem_of_seq. lia.
Qed.

Lemma assigned_mono info k k' : (k <= k')%nat → (length (assigned info (guest_ids k)) <= length (assigned info (guest_ids k')))%nat.
Proof.
  induction 1 as [|k' _ IH]; [done|]. rewrite guest_ids_S, assigned_snoc, length_app. lia.
Qed.

(** The three values of a guest, written one after the other. *)
Definition guest_of (junk : vm_struct) (i : Z) (s : list Z) (paddr sz ram epaddr esz : Z) : vm_struct :=
  set_extra (set_entry (init_vm_struct junk i s paddr sz ram) LINUX_ENTRY_POINT) epaddr esz.

(** Guest [i] as a whole, when the array was not written before. *)
Definition guest_made (junk : vm_struct) (info : boot_info) (vms : list vm_struct) (i : Z) : Prop := ∃ s paddr sz ram epaddr esz,
  vms !! Z.to_nat i = Some (guest_of junk i s paddr sz ram epaddr esz) ∧
  mod_str info !! Z.to_nat i = Some s ∧ mod_paddr info !! Z.to_nat i = Some paddr ∧ mod_size info !! Z.to_nat i = Some sz ∧
  ram_size info !! Z.to_nat i = Some ram ∧ mod_paddr info !! Z.to_nat (i + 1) = Some epaddr ∧ mod_size info !! Z.to_nat (i + 1) = Some esz.

Lemma guest_made_set junk info vms i : guest_made junk info vms i → guest_set info vms i.
Proof.
  intros (s & paddr & sz & ram & epaddr & esz & H & H1 & H2 & H3 & H4 & H5 & H6).
  exists (guest_of junk i s paddr sz ram epaddr esz), s, paddr, sz, epaddr, esz. by split_and!.
Qed.

Section round.
Context (junk : vm_struct) (info : boot_info) (n g : Z) (Hinfo : info_ok info n) (Hg : 0 <= g <= MAX_CPUS).
Let info' := set_num_mod info (n - 1).

Definition last_guest : nat := Z.to_nat (n / 2).

Definition round_inv (st : Z * Z * list vm_struct * list Z) : Prop :=
  let '(i, cur, vms, cpus) := st in ∃ k,
    i = 2 * Z.of_nat k ∧ (k <= last_guest)%nat ∧ cur = Z.of_nat (length (assigned info (guest_ids k))) ∧ cur <= g ∧
    cpus = cpu_table info k ∧ Z.of_nat (length vms) = n - 1 ∧ (∀ i, i ∈ guest_ids k → guest_made junk info vms i) ∧
    ∀ i, 2 * Z.of_nat k <= i < n - 1 → vms !! Z.to_nat i = Some junk.

Lemma lookup_le {B} (l : list B) i : 0 <= i < Z.of_nat (length l) → ∃ b, l !! Z.to_nat i = Some b ∧ list_get l i = Ok b.
Proof. intros Hi. destruct (list_get_ok l i Hi) as (b & E & L). by exists b. Qed.

Lemma list_get_insert {B} (l : list B) i b : 0 <= i < Z.of_nat (length l) → list_get (<[Z.to_nat i := b]> l) i = Ok b.
Proof. intros Hi. unfold list_get. destruct (Z.ltb_spec i 0); [lia|]. by rewrite list_lookup_insert_eq by lia. Qed.

Lemma cpu_table_S k : Z.of_nat (length (assigned info (guest_ids (S k)))) <= MAX_CPUS →
  (assigned info (guest_ids k) ++ replicate (Z.to_nat (cpus_of info (2 * Z.of_nat k))) (2 * Z.of_nat k)) ++
    replicate ((Z.to_nat MAX_CPUS - length (assigned info (guest_ids k))) - Z.to_nat (cpus_of info (2 * Z.of_nat k))) VM_NONE =
  cpu_table info (S k).
Proof using.
  unfold cpu_table. rewrite guest_ids_S, assigned_snoc, length_app, length_replicate. intros Hl. f_equal. f_equal. lia.
Qed.

Lemma round_ok st : round_inv st →
  wpx (virt_init_step info' g st) (fun x => match x with
      | inl st' => round_inv st' ∧ 0 <= 2 ^ 15 - st'.1.1.1 < 2 ^ 15 - st.1.1.1
      | inr (vms, cpus) => Z.of_nat (length (assigned info (guest_ids last_guest))) <= g ∧ cpus = cpu_table info last_guest ∧
          ∀ i, i ∈ guest_ids last_guest → guest_made junk info vms i
      end)
    (fun m => m = "Number of VM CPUs exceeds the available amount"%string ∧
       g < Z.of_nat (length (assigned info (guest_ids last_guest)))) False.
Proof using Hinfo Hg.
  destruct st as [[[i cur] vms] cpus]. intros (k & -> & Hk & -> & Hcur & -> & Hlen & Hset & Hrest).
  destruct Hinfo as [_ Hn H1 H2 H3 H4 H5 Hnames Hcounts]. unfold last_guest in *. unfold virt_init_step. cbn [num_mod info' set_num_mod].
  destruct (Z.ltb_spec (2 * Z.of_nat k) (n - 1)) as [Hlt|Hge].
  2: { assert (k = Z.to_nat (n / 2)) as -> by dlia. by cbn [wpx]. }
  destruct (lookup_le vms (2 * Z.of_nat k) ltac:(lia)) as (vm & Lv & Ev). rewrite Ev, bind_ok.
  assert (vm = junk) as -> by (rewrite Hrest in Lv by lia; congruence).
  destruct (lookup_le (mod_str info) (2 * Z.of_nat k) ltac:(lia)) as (s & Ls & Es).
  unfold info'. cbn [set_num_mod mod_str mod_paddr mod_size num_cpus ram_size]. rewrite Es, bind_ok.
  destruct (Hnames s) as [Hc Hsl]; [by eapply list_elem_of_lookup_2|]. unfold BOOT_STRING_MAX in *.
  rewrite strlen_ok, bind_ok by (done || lia). destruct (Z.ltb_spec 32 (Z.of_nat (length s) + 1)); [lia|].
  destruct (lookup_le (mod_paddr info) (2 * Z.of_nat k) ltac:(lia)) as (pa & Lp & Ep). rewrite Ep, bind_ok.
  destruct (lookup_le (mod_size info) (2 * Z.of_nat k) ltac:(lia)) as (sz & Lz & Ez). rewrite Ez, bind_ok.
  destruct (lookup_le (ram_size info) (2 * Z.of_nat k) ltac:(lia)) as (ram & Lr & Er). rewrite Er, bind_ok.
  rewrite list_set_ok, bind_ok by lia.
  destruct (lookup_le (num_cpus info) (2 * Z.of_nat k) ltac:(lia)) as (nc & Ln & En). rewrite En, bind_ok.
  assert (Hnc : is_u16 nc) by (apply Hcounts; by eapply list_elem_of_lookup_2). unfold is_u16 in Hnc.
  assert (Hof : cpus_of info (2 * Z.of_nat k) = nc) by (unfold cpus_of; by rewrite Ln).
  assert (HS : length (assigned info (guest_ids (S k))) = (length (assigned info (guest_ids k)) + Z.to_nat nc)%nat).
  { by rewrite guest_ids_S, assigned_snoc, length_app, length_replicate, Hof. }
  assert (Hk1 : (S k <= Z.to_nat (n / 2))%nat) by dlia.
  pose proof (assigned_mono info (S k) (Z.to_nat (n / 2)) Hk1) as Hmono. unfold MAX_CPUS in *.
  destruct (Z.ltb_spec g (Z.of_nat (length (assigned info (guest_ids k))) + nc)) as [Hbig|Hfit]; [split; [done|lia]|].
  apply wpx_bind. unfold cpu_table at 1. change (Z.to_nat MAX_CPUS) with 16%nat.
  apply (wpx_mono _ _ _ _ _ _ _ (assign_ok nc (2 * Z.of_nat k) (assigned info (guest_ids k))
    (16 - length (assigned info (guest_ids k)))%nat Hnc ltac:(lia) ltac:(lia)));
    [|by intros m []|by intros []].
  intros [cur' cpus'] [-> ->]. set (i := 2 * Z.of_nat k) in *.
  assert (Hi : i = 2 * Z.of_nat k) by reflexivity.
  rewrite list_get_insert, bind_ok, list_set_ok, bind_ok by (rewrite ?length_insert; lia).
  rewrite (u16_id (i + 1)) by (unfold is_u16; lia). replace (i + 1 - 1) with i by lia. rewrite list_insert_insert_eq.
  rewrite list_get_insert, bind_ok by lia.
  destruct (lookup_le (mod_paddr info) (i + 1) ltac:(lia)) as (epa & Lep & Eep). rewrite Eep, bind_ok.
  destruct (lookup_le (mod_size info) (i + 1) ltac:(lia)) as (esz & Lez & Eez). rewrite Eez, bind_ok.
  rewrite list_set_ok, bind_ok by (rewrite length_insert; lia). rewrite list_insert_insert_eq, (u16_id (i + 1 + 1)) by (unfold is_u16; lia).
  cbn [wpx fst]. split; [|lia]. exists (S k). split; [lia|]. split; [exact Hk1|]. split; [lia|]. split; [lia|].
  split; [rewrite <- cpu_table_S; [unfold i, MAX_CPUS in *; by rewrite Hof|unfold MAX_CPUS; lia]|].
  split; [by rewrite length_insert|]. split.
  - intros j Hj. rewrite guest_ids_S, elem_of_app, list_elem_of_singleton in Hj. destruct Hj as [Hj| ->].
    + destruct (Hset j Hj) as (s' & Hvm). apply guest_ids_in in Hj as (x & -> & Hx).
      exists s'. rewrite list_lookup_insert_ne by lia. exact Hvm.
    + exists s, pa, sz, ram, epa, esz. rewrite list_lookup_insert_eq by lia. by split_and!.
  - intros j Hj. rewrite list_lookup_insert_ne by lia. apply Hrest. lia.
Qed.
End round.

(** ** Properties *)

Lemma virt_init_ok {HP : Processor} junk info n g v B fl : info_ok info n → 0 <= g <= MAX_CPUS →
  Z.of_nat (length (cpu_to_vm v)) = MAX_CPUS → heap_rep (v_heap v) B fl → lock_free (mm_lock (v_heap v)) →
  wpx (virt_init junk info g v) (fun '(info', v') =>
      num_mod info' = n - 1 ∧ Z.of_nat (length (assigned info (guest_ids (last_guest n)))) <= g ∧
      cpu_to_vm v' = cpu_table info (last_guest n) ∧
      (∀ i, i ∈ guest_ids (last_guest n) → guest_made junk info (vm_structs v') i) ∧
      (vmcs_mem_type v' = 0 ∨ vmcs_mem_type v' = PGT_PCD) ∧
      vmcs_rev v' = u32 (rdmsr IA32_VMX_BASIC) ∧ ∃ B' fl', heap_rep (v_heap v') B' fl')
    (fun m => (m = "VMX not supported"%string ∧ Z.testbit cpuid_1_ecx 5 = false) ∨
       (m = "VMXON/VMCS size not 4KB"%string ∧ Z.testbit (rdmsr IA32_VMX_BASIC) 44 = false) ∨
       m = "out of memory"%string ∨
       (m = "Number of VM CPUs exceeds the available amount"%string ∧
          g < Z.of_nat (length (assigned info (guest_ids (last_guest n)))))) False.
Proof.
  intros Hinfo Hg Hlen Hr Hl. unfold virt_init. rewrite !get_bit64_testbit, bind_ok by lia.
  destruct (Z.testbit cpuid_1_ecx 5) eqn:E5; [|by left; split]. cbn [Z.eqb]. cbv zeta. rewrite bind_ok.
  destruct (Z.testbit (rdmsr IA32_VMX_BASIC) 44) eqn:E44; [|by right; left; split]. cbn [Z.eqb].
  rewrite clear_cpus_ok, bind_ok by done. rewrite (io_num _ _ Hinfo). pose proof (io_range _ _ Hinfo) as Hn.
  rewrite (u16_id (n - 1)) by (unfold is_u16; lia). cbn [set_num_mod num_mod].
  change VM_STRUCT_SIZE with 240.
  rewrite (u32_id ((n - 1) * 240)) by (unfold is_u32; lia).
  destruct (malloc_ok (v_heap v) B fl ((n - 1) * 240) Hr Hl ltac:(lia)) as (e & _ & _ & Hw). apply wpx_bind.
  apply (wpx_mono _ _ _ _ _ _ _ Hw); [|intros m [-> _]; by right; right; left|done].
  intros [p h'] (j & a & fl' & _ & _ & _ & Ha & Hp & Hr' & _). cbn [fst snd] in *.
  destruct (rep_block _ B fl Hr _ _ _ Ha) as (_ & Hlo & _). unfold MALLOC_BASE in Hlo.
  destruct (Z.eqb_spec p 0); [lia|]. apply wpx_bind.
  apply (wpx_mono _ (fun '(vms, cpus) => Z.of_nat (length (assigned info (guest_ids (last_guest n)))) <= g ∧
      cpus = cpu_table info (last_guest n) ∧ ∀ i, i ∈ guest_ids (last_guest n) → guest_made junk info vms i) _
    (fun m => m = "Number of VM CPUs exceeds the available amount"%string ∧
       g < Z.of_nat (length (assigned info (guest_ids (last_guest n))))) _ False); [| |by intros m H; right; right; right|done].
  - apply (wpx_while _ (round_inv junk info n g) (fun st => 2 ^ 15 - st.1.1.1)).
    + intros st Hst. by apply round_ok.
    + exists 0%nat. split; [done|]. split; [lia|]. split; [done|]. split; [cbn; lia|]. split; [done|].
      split; [rewrite length_replicate; lia|]. split; [intros i Hi; by apply elem_of_nil in Hi|].
      intros i Hi. apply lookup_replicate. split; [done|lia].
    + cbn. lia.
  - intros [vms cpus] (H1 & -> & H3). split; [done|]. split; [done|]. split; [done|]. split; [done|].
    split; [cbn [vmcs_mem_type]; destruct (_ =? 0); [by right|by left]|]. split; [done|]. by exists (take_block a j e B), fl'.
Qed.

(** C28: [virt_init] on [n] modules makes guest [i], for the even [i] below [n - 1],
    from the image in module [i] and the ramdisk in module [i + 1], and
    gives the CPUs out in order: the first [num_cpus[0]] to guest 0, the next
    [num_cpus[2]] to guest 2, and so on, and marks the rest [VM_NONE], so that no
    CPU runs two guests. It stops with the message of the case when the processor
    lacks what is needed, when the heap is full, or when the guests ask for more CPUs
    than the machine has. *)
Theorem virt_init_spec {HP : Processor} junk info n g v B fl : info_ok info n → 0 <= g <= MAX_CPUS →
  Z.of_nat (length (cpu_to_vm v)) = MAX_CPUS → heap_rep (v_heap v) B fl → lock_free (mm_lock (v_heap v)) →
  wpx (virt_init junk info g v) (fun '(info', v') =>
      num_mod info' = n - 1 ∧ Z.of_nat (length (assigned info (guest_ids (last_guest n)))) <= g ∧
      cpu_to_vm v' = cpu_table info (last_guest n) ∧
      (∀ i, i ∈ guest_ids (last_guest n) → guest_set info (vm_structs v') i) ∧
      vmcs_rev v' = u32 (rdmsr IA32_VMX_BASIC) ∧ ∃ B' fl', heap_rep (v_heap v') B' fl')
    (fun m => (m = "VMX not supported"%string ∧ Z.testbit cpuid_1_ecx 5 = false) ∨
       (m = "VMXON/VMCS size not 4KB"%string ∧ Z.testbit (rdmsr IA32_VMX_BASIC) 44 = false) ∨
       m = "out of memory"%string ∨
       (m = "Number of VM CPUs exceeds the available amount"%string ∧
          g < Z.of_nat (length (assigned info (guest_ids (last_guest n)))))) False.
Proof.
  intros Hinfo Hg Hlen Hr Hl. apply (wpx_post _ _ _ _ _ (virt_init_ok junk info n g v B fl Hinfo Hg Hlen Hr Hl)).
  intros [info' v'] (H1 & H2 & H3 & H4 & _ & H5). split; [done|]. split; [done|]. split; [done|]. split; [|done].
  intros i Hi. by apply (guest_made_set junk), H4.
Qed.

Definition sample_info : boot_info :=
  BootInfo 0x10000000 100 2 [[108; 105; 110; 117; 120]; [105; 110; 105; 116; 114; 100]] [0x20000000; 0x30000000] [0x700000; 0x100000]
    [1; 0] [2; 0].

Lemma sample_info_ok : info_ok sample_info 2.
Proof.
  split; try done.
  - intros s Hs. cbn [sample_info mod_str] in Hs. rewrite !elem_of_cons in Hs. destruct Hs as [->|[->|[]%elem_of_nil]]; (split; [|reflexivity]);
      intros c Hc; repeat (apply elem_of_cons in Hc as [->|Hc]; [lia|]); by apply elem_of_nil in Hc.
  - intros c Hc. cbn [sample_info num_cpus] in Hc. rewrite !elem_of_cons in Hc. destruct Hc as [->|[->|[]%elem_of_nil]]; unfold is_u16; lia.
Qed.

Definition sample_init (h : heap) : outcome (boot_info * virt) :=
  virt_init (HP := sample_processor) sample_vm sample_info 4 (VirtState h [] (replicate 16 0) 0 0).

Lemma sample_init_runs : match boot_heap with Ok h => match sample_init h with Ok _ => true | _ => false end | _ => false end = true.
Proof. vm_compute. reflexivity. Qed.

Lemma virt_init_spec_witness : ∃ h v', boot_heap = Ok h ∧ sample_init h = Ok v' ∧ cpu_to_vm v'.2 = 0 :: replicate 15 VM_NONE.
Proof.
  destruct boot_heap_ok as (h & E & Hr & Hl). pose proof sample_init_runs as Hrun. rewrite E in Hrun.
  pose proof (virt_init_spec (HP := sample_processor) sample_vm sample_info 2 4 (VirtState h [] (replicate 16 0) 0 0) initial_blocks
    initial_lists sample_info_ok ltac:(unfold MAX_CPUS; lia) ltac:(reflexivity) Hr Hl) as Hw.
  fold (sample_init h) in Hw. remember (sample_init h) as r eqn:Er.
  destruct r as [[info' v']|m| |]; [|discriminate Hrun..].
  destruct Hw as (_ & _ & Hc & _). exists h, (info', v'). split; [exact E|]. split; [by symmetry|exact Hc].
Defined.
