(* ===== verification/Report.v ===== *)
(** * What the hypervisor reports when it stops

    [panic_raw] of [kernel/debug.c], [exp_handler] of
    [arch/x86_64/interrupt/interrupt.c] with the frame [isr.S] hands it, [virt_diagnose] and [virt_main] of
    [arch/x86_64/virt/virt.c], and [iommu_init] of [arch/x86_64/virt/iommu.c]. *)

From S2P Require Import Prelude Layout Bits Spinlock Screen Render Physical Mmu Paging PagingSpec Kernel Apic Descriptors Percpu Vmcs Virt.

Local Open Scope Z_scope.
Local Open Scope c_scope.

Definition line (fmt : string) : list Z := chars fmt ++ [10].

(** ** Panic *)

(** The screen, and whether interrupts are enabled. *)
Record console := Console { con_screen : screen; interrupts : bool }.

(** The state in which the CPU executes [hlt]. *)
Definition panic_raw (func msg : list Z) (c : console) : outcome console :=
  s ← printf (con_screen c) (line "%s: %s") [AStr (Some func); AStr (Some msg)];
  Ok (Console s false).

(** ** An exit of the guest *)

Definition virt_guest_dump (c : vmcs) (s : screen) : outcome screen :=
  s ← printf s (line "RIP %llX, RSP %llX, RFLAGS %llX")
    [ANum (vmfield c VMCS_GUEST_RIP); ANum (vmfield c VMCS_GUEST_RSP); ANum (vmfield c VMCS_GUEST_RFLAGS)];
  s ← printf s (line "Base: CS %llX, DS %llX") [ANum (vmfield c VMCS_GUEST_CS_BASE); ANum (vmfield c VMCS_GUEST_DS_BASE)];
  printf s (line "Limit: CS %X, DS %X") [ANum (vmfield c VMCS_GUEST_CS_LMT); ANum (vmfield c VMCS_GUEST_DS_LMT)].

Definition virt_diagnose (c : vmcs) (s : screen) : outcome (Z * screen) :=
  let reason := vmfield c VMCS_EXIT_REASON in
  let qual := vmfield c VMCS_EXIT_QUAL in
  let basic := u16 reason .& 0xFFFF in
  failure ← get_bit64 reason 31;
  if negb (failure =? 0) then
    s ← printf s (line "VM-entry failure: reason %u qualification %llX") [ANum basic; ANum qual];
    Ok (basic, s)
  else
    s ← printf s (line "VM-exit: reason %u qualification %llX") [ANum basic; ANum qual];
    s ← printf s (line "guest address %llX (linear) %llX (physical)," ++ line "interrupt %llX (info) %llX (code)," ++
                  line "IDT %llX (info) %llX (code)," ++ line "instruction %llX (length) %llX (info)")
      [ANum (vmfield c VMCS_LINEAR_ADDR); ANum (vmfield c VMCS_PHY_ADDR); ANum (vmfield c VMCS_EXIT_INT_INFO);
       ANum (vmfield c VMCS_EXIT_INT_CODE); ANum (vmfield c VMCS_EXIT_IDT_INFO); ANum (vmfield c VMCS_EXIT_IDT_CODE);
       ANum (vmfield c VMCS_INSTR_LENGTH); ANum (vmfield c VMCS_INSTR_INFO)];
    s ← virt_guest_dump c s;
    Ok (basic, s).

(** Where the CPU goes after an exit. *)
Definition virt_main (c : vmcs) (con : console) : outcome console :=
  '(_, s) ← virt_diagnose c (con_screen con);
  panic_raw (chars "virt_main") (chars "virt_main") (Console s (interrupts con)).

(** ** Exceptions *)

Record hw_regs := HwRegs {
  r15 : Z; r14 : Z; r13 : Z; r12 : Z; r11 : Z; r10 : Z; r9 : Z; r8 : Z;
  rdi : Z; rsi : Z; rbp : Z; rdx : Z; rcx : Z; rbx : Z; rax : Z;
  error_code : Z;
  rip : Z; cs : Z; rflags : Z; rsp : Z; ss : Z
}.

(** [hw_regs_t *regs]: the words from the pointer on. *)
Definition load_regs (w : list Z) : outcome hw_regs :=
  match w with
  | a :: b :: c :: d :: e :: f :: g :: h :: i :: j :: k :: l :: m :: n :: o :: p :: q :: r :: s :: t :: u :: _ =>
      Ok (HwRegs a b c d e f g h i j k l m n o p q r s t u)
  | _ => Fault
  end.

(** [REG_SAVE]: the last register pushed comes first. *)
Definition reg_save (r : hw_regs) : list Z :=
  [r15 r; r14 r; r13 r; r12 r; r11 r; r10 r; r9 r; r8 r; rdi r; rsi r; rbp r; rdx r; rcx r; rbx r; rax r].

(** What the processor pushes at an exception: an error code only at some of them. *)
Definition pushes_error (irq : Z) : bool := bool_decide (irq ∈ [8; 10; 11; 12; 13; 14; 17]).
Definition exception_stack (irq : Z) (r : hw_regs) (rest : list Z) : list Z :=
  reg_save r ++ (if pushes_error irq then [error_code r] else []) ++ [rip r; cs r; rflags r; rsp r; ss r] ++ rest.

Definition EXCEPTION_PG_FAULT : Z := 14.

Record control_regs := ControlRegs { cr0 : Z; cr2 : Z; cr3 : Z; cr4 : Z; cr8 : Z }.

Section handler.
Context `{HM : Mmu} {A : Type} `{HA : FrameAllocator A}.

(** What [vm_check_mapping] prints. *)
Definition show_mapping (entries : list Z) (s : screen) : outcome screen :=
  match entries with
  | [e0; e1; e2; e3] =>
      s ← printf s (line "PML4T entry: %llX") [ANum e0];
      s ← printf s (line "PDPT entry: %llX") [ANum e1];
      s ← printf s (line "PDT entry: %llX") [ANum e2];
      printf s (line "PT entry: %llX") [ANum e3]
  | _ => Fault
  end.

(** The state in which the CPU stays in [while (1) pause();]. *)
Definition exp_handler (irq : Z) (regs : list Z) (c : control_regs) (s : screen) (v : vm A) : outcome (screen * vm A) :=
  r ← load_regs regs;
  s ← printf s (line "Exception %llu (error code %X):") [ANum irq; ANum (error_code r)];
  s ← printf s (line "CR0=%llX, CR2=%llX, CR3=%llX, CR4=%llX, CR8=%llX") [ANum (cr0 c); ANum (cr2 c); ANum (cr3 c); ANum (cr4 c); ANum (cr8 c)];
  s ← printf s (line "RIP=%llX, CS=%llX, RFLAGS=%llX, RSP=%llX, SS=%llX") [ANum (rip r); ANum (cs r); ANum (rflags r); ANum (rsp r); ANum (ss r)];
  s ← printf s (line "RAX=%llX, RBX=%llX, RCX=%llX, RDX=%llX, RBP=%llX, RSI=%llX, RDI=%llX")
    [ANum (rax r); ANum (rbx r); ANum (rcx r); ANum (rdx r); ANum (rbp r); ANum (rsi r); ANum (rdi r)];
  s ← printf s (line "R8=%llX, R9=%llX, R10=%llX, R11=%llX, R12=%llX, R13=%llX, R14=%llX, R15=%llX")
    [ANum (r8 r); ANum (r9 r); ANum (r10 r); ANum (r11 r); ANum (r12 r); ANum (r13 r); ANum (r14 r); ANum (r15 r)];
  if irq =? EXCEPTION_PG_FAULT then
    '(entries, v) ← vm_check_mapping v (cr2 c);
    s ← show_mapping entries s;
    Ok (s, v)
  else Ok (s, v).
End handler.

(** ** The texts *)

Definition hex64 (x : Z) : list Z := map (hex_char true) (digits 16 16 (x mod 16 ^ 16)).
Definition hex32 (x : Z) : list Z := map (hex_char true) (digits 16 8 (x mod 16 ^ 8)).
Definition dec32 (x : Z) : list Z := map dec_char (digits 10 10 (u32 x)).

Lemma number_plain w e t : 0 <= w → number_text (Directive 0 0 true 32 e false) w t = t.
Proof.
  intros Hw. unfold number_text. cbn [precision width padding]. rewrite (proj2 (Z.leb_le 0 w) Hw). cbv zeta.
  rewrite (Z.max_l (Z.of_nat (length t)) 0), Z.sub_diag by lia. by replace (Z.to_nat (0 - Z.of_nat (length t))) with 0%nat by lia.
Qed.
Lemma hex64_number x : hex64 x = number_text (Directive 0 0 true 32 2 false) 16 (map (hex_char true) (digits 16 16 (x mod 16 ^ 16))).
Proof. by rewrite number_plain. Qed.
Lemma hex32_number x : hex32 x = number_text (Directive 0 0 true 32 0 false) 8 (map (hex_char true) (digits 16 8 (x mod 16 ^ 8))).
Proof. by rewrite number_plain. Qed.
Lemma dec32_number e x : dec32 x = number_text (Directive 0 0 true 32 e false) 10 (map dec_char (digits 10 10 (u32 x))).
Proof. by rewrite number_plain. Qed.

(** A line of names and values, as in ["RIP=10, CS=8"]. *)
Fixpoint shown (l : list (string * Z)) : list Z :=
  match l with
  | [] => [10]
  | [(n, x)] => chars n ++ [61] ++ hex64 x ++ [10]
  | (n, x) :: l => chars n ++ [61] ++ hex64 x ++ [44; 32] ++ shown l
  end.

Definition exp_report (irq : Z) (r : hw_regs) (c : control_regs) : list Z :=
  (chars "Exception " ++ dec32 irq ++ chars " (error code " ++ hex32 (error_code r) ++ line "):") ++
  shown [("CR0", cr0 c); ("CR2", cr2 c); ("CR3", cr3 c); ("CR4", cr4 c); ("CR8", cr8 c)]%string ++
  shown [("RIP", rip r); ("CS", cs r); ("RFLAGS", rflags r); ("RSP", rsp r); ("SS", ss r)]%string ++
  shown [("RAX", rax r); ("RBX", rbx r); ("RCX", rcx r); ("RDX", rdx r); ("RBP", rbp r); ("RSI", rsi r); ("RDI", rdi r)]%string ++
  shown [("R8", r8 r); ("R9", r9 r); ("R10", r10 r); ("R11", r11 r); ("R12", r12 r); ("R13", r13 r); ("R14", r14 r); ("R15", r15 r)]%string.

Lemma print_line s fmt args text : console_ok s → Z.of_nat (length fmt) < 2 ^ 64 → Forall arg_ok args →
  render None fmt args = Some (text, []) → ∃ s', printf s fmt args = Ok s' ∧ prints s text s' ∧ console_ok s'.
Proof. intros Hs Hl Ha Hr. destruct (printf_prints s fmt args text [] Hs Hl Ha Hr) as (s' & E & Hp). exists s'. split; [done|]. split; [done|apply Hp]. Qed.

Lemma head_text irq e : render None (line "Exception %llu (error code %X):") [ANum irq; ANum e] =
  Some (chars "Exception " ++ dec32 irq ++ chars " (error code " ++ hex32 e ++ line "):", []).
Proof. rewrite (dec32_number 2), hex32_number. reflexivity. Qed.
Ltac text_of := cbn [shown]; rewrite ?hex64_number, ?hex32_number; reflexivity.

Lemma control_text c : render None (line "CR0=%llX, CR2=%llX, CR3=%llX, CR4=%llX, CR8=%llX") [ANum (cr0 c); ANum (cr2 c); ANum (cr3 c); ANum (cr4 c); ANum (cr8 c)] =
  Some (shown [("CR0", cr0 c); ("CR2", cr2 c); ("CR3", cr3 c); ("CR4", cr4 c); ("CR8", cr8 c)]%string, []).
Proof. text_of. Qed.
Lemma frame_text r : render None (line "RIP=%llX, CS=%llX, RFLAGS=%llX, RSP=%llX, SS=%llX") [ANum (rip r); ANum (cs r); ANum (rflags r); ANum (rsp r); ANum (ss r)] =
  Some (shown [("RIP", rip r); ("CS", cs r); ("RFLAGS", rflags r); ("RSP", rsp r); ("SS", ss r)]%string, []).
Proof. text_of. Qed.
Lemma low_text r : render None (line "RAX=%llX, RBX=%llX, RCX=%llX, RDX=%llX, RBP=%llX, RSI=%llX, RDI=%llX")
    [ANum (rax r); ANum (rbx r); ANum (rcx r); ANum (rdx r); ANum (rbp r); ANum (rsi r); ANum (rdi r)] =
  Some (shown [("RAX", rax r); ("RBX", rbx r); ("RCX", rcx r); ("RDX", rdx r); ("RBP", rbp r); ("RSI", rsi r); ("RDI", rdi r)]%string, []).
Proof. text_of. Qed.
Lemma high_text r : render None (line "R8=%llX, R9=%llX, R10=%llX, R11=%llX, R12=%llX, R13=%llX, R14=%llX, R15=%llX")
    [ANum (r8 r); ANum (r9 r); ANum (r10 r); ANum (r11 r); ANum (r12 r); ANum (r13 r); ANum (r14 r); ANum (r15 r)] =
  Some (shown [("R8", r8 r); ("R9", r9 r); ("R10", r10 r); ("R11", r11 r); ("R12", r12 r); ("R13", r13 r); ("R14", r14 r); ("R15", r15 r)]%string, []).
Proof. text_of. Qed.
Lemma entry_text name x : forallb (fun c => (0 <? c) && negb (c =? 37)) (chars name) = true →
  render None (chars name ++ line " entry: %llX") [ANum x] = Some (chars name ++ chars " entry: " ++ hex64 x ++ [10], []).
Proof.
  generalize (chars name). intros l. induction l as [|c l IH]; cbn [app forallb].
  - intros _. rewrite hex64_number. reflexivity.
  - intros [[H0 H37%negb_true_iff]%andb_true_iff Hl]%andb_true_iff. cbn [render]. by rewrite H37, H0, IH.
Qed.

(** ** The handler *)

Definition mapping_text (e0 e1 e2 e3 : Z) : list Z :=
  (chars "PML4T" ++ chars " entry: " ++ hex64 e0 ++ [10]) ++ (chars "PDPT" ++ chars " entry: " ++ hex64 e1 ++ [10]) ++
  (chars "PDT" ++ chars " entry: " ++ hex64 e2 ++ [10]) ++ (chars "PT" ++ chars " entry: " ++ hex64 e3 ++ [10]).

(** Without an error code every word is read one place too far. *)
Definition shifted (r : hw_regs) (x : Z) : hw_regs :=
  HwRegs (r15 r) (r14 r) (r13 r) (r12 r) (r11 r) (r10 r) (r9 r) (r8 r) (rdi r) (rsi r) (rbp r) (rdx r) (rcx r) (rbx r) (rax r)
    (rip r) (cs r) (rflags r) (rsp r) (ss r) x.

Ltac print_next T P := let E := fresh "E" in let Hs := fresh "Hs" in
  match goal with H : console_ok ?s |- context [printf ?s ?fmt ?args] =>
    destruct (print_line s fmt args _ H ltac:(reflexivity) ltac:(repeat constructor) T) as (? & E & P & Hs); rewrite E, bind_ok; clear E
  end.

Section handler_ok.
Context `{HM : Mmu} {A : Type} `{HA : FrameAllocator A}.

Lemma show_mapping_ok s e0 e1 e2 e3 : console_ok s → ∃ s', show_mapping [e0; e1; e2; e3] s = Ok s' ∧ prints s (mapping_text e0 e1 e2 e3) s'.
Proof.
  intros Hs. unfold show_mapping.
  print_next (entry_text "PML4T" e0 eq_refl) P0.
  print_next (entry_text "PDPT" e1 eq_refl) P1.
  print_next (entry_text "PDT" e2 eq_refl) P2.
  destruct (print_line _ (line "PT entry: %llX") [ANum e3] _ ltac:(eassumption) ltac:(reflexivity) ltac:(repeat constructor)
    (entry_text "PT" e3 eq_refl)) as (s' & E & P3 & _).
  exists s'. split; [exact E|]. apply (prints_app _ _ _ _ _ P0), (prints_app _ _ _ _ _ P1), (prints_app _ _ _ _ _ P2 P3).
Qed.

Lemma report_printed irq w r c s (v : vm A) : console_ok s → load_regs w = Ok r → ∃ s', prints s (exp_report irq r c) s' ∧
  exp_handler irq w c s v = if irq =? EXCEPTION_PG_FAULT then '(entries, v) ← vm_check_mapping v (cr2 c); s ← show_mapping entries s'; Ok (s, v) else Ok (s', v).
Proof.
  intros Hs Hr. unfold exp_handler. rewrite Hr, bind_ok.
  print_next (head_text irq (error_code r)) P0. print_next (control_text c) P1. print_next (frame_text r) P2.
  print_next (low_text r) P3. print_next (high_text r) P4. eexists. split; [|reflexivity].
  exact (prints_app _ _ _ _ _ P0 (prints_app _ _ _ _ _ P1 (prints_app _ _ _ _ _ P2 (prints_app _ _ _ _ _ P3 P4)))).
Qed.
End handler_ok.

(** ** Panic and the exit of a guest *)

Lemma panic_text func msg : render None (line "%s: %s") [AStr (Some func); AStr (Some msg)] = Some (func ++ chars ": " ++ msg ++ [10], []).
Proof. reflexivity. Qed.

Lemma panic_raw_ok func msg con : arg_ok (AStr (Some func)) → arg_ok (AStr (Some msg)) → console_ok (con_screen con) →
  ∃ s', panic_raw func msg con = Ok (Console s' false) ∧ prints (con_screen con) (func ++ chars ": " ++ msg ++ [10]) s'.
Proof.
  intros Hf Hm Hs. unfold panic_raw.
  destruct (print_line (con_screen con) (line "%s: %s") [AStr (Some func); AStr (Some msg)] _ Hs ltac:(reflexivity)
    ltac:(apply Forall_cons; split; [exact Hf|apply Forall_singleton; exact Hm]) (panic_text func msg)) as (s' & E & P & _).
  exists s'. by rewrite E.
Qed.

Definition failure_text (basic qual : Z) : list Z := chars "VM-entry failure: reason " ++ dec32 basic ++ chars " qualification " ++ hex64 qual ++ [10].
Definition exit_text (basic qual : Z) : list Z := chars "VM-exit: reason " ++ dec32 basic ++ chars " qualification " ++ hex64 qual ++ [10].
(** The lines about the event, by the field of the control structure. *)
Definition event_text (f : Z → Z) : list Z :=
  chars "guest address " ++ hex64 (f VMCS_LINEAR_ADDR) ++ chars " (linear) " ++ hex64 (f VMCS_PHY_ADDR) ++ line " (physical)," ++
  chars "interrupt " ++ hex64 (f VMCS_EXIT_INT_INFO) ++ chars " (info) " ++ hex64 (f VMCS_EXIT_INT_CODE) ++ line " (code)," ++
  chars "IDT " ++ hex64 (f VMCS_EXIT_IDT_INFO) ++ chars " (info) " ++ hex64 (f VMCS_EXIT_IDT_CODE) ++ line " (code)," ++
  chars "instruction " ++ hex64 (f VMCS_INSTR_LENGTH) ++ chars " (length) " ++ hex64 (f VMCS_INSTR_INFO) ++ line " (info)".
Definition guest_text (f : Z → Z) : list Z :=
  (chars "RIP " ++ hex64 (f VMCS_GUEST_RIP) ++ chars ", RSP " ++ hex64 (f VMCS_GUEST_RSP) ++ chars ", RFLAGS " ++ hex64 (f VMCS_GUEST_RFLAGS) ++ [10]) ++
  (chars "Base: CS " ++ hex64 (f VMCS_GUEST_CS_BASE) ++ chars ", DS " ++ hex64 (f VMCS_GUEST_DS_BASE) ++ [10]) ++
  (chars "Limit: CS " ++ hex32 (f VMCS_GUEST_CS_LMT) ++ chars ", DS " ++ hex32 (f VMCS_GUEST_DS_LMT) ++ [10]).

(** The report of an exit: bit 31 of the reason says that the guest was not entered. *)
Definition diagnose_text (f : Z → Z) : list Z :=
  let basic := f VMCS_EXIT_REASON mod 2 ^ 16 in
  if Z.testbit (f VMCS_EXIT_REASON) 31 then failure_text basic (f VMCS_EXIT_QUAL)
  else exit_text basic (f VMCS_EXIT_QUAL) ++ event_text f ++ guest_text f.

Lemma guest_dump_ok c s : console_ok s → ∃ s', virt_guest_dump c s = Ok s' ∧ prints s (guest_text (vmfield c)) s'.
Proof.
  intros Hs. unfold virt_guest_dump, guest_text. generalize (vmfield c). intros f.
  assert (T0 : render None (line "RIP %llX, RSP %llX, RFLAGS %llX") [ANum (f VMCS_GUEST_RIP); ANum (f VMCS_GUEST_RSP); ANum (f VMCS_GUEST_RFLAGS)] =
    Some (chars "RIP " ++ hex64 (f VMCS_GUEST_RIP) ++ chars ", RSP " ++ hex64 (f VMCS_GUEST_RSP) ++ chars ", RFLAGS " ++ hex64 (f VMCS_GUEST_RFLAGS) ++ [10], [])) by text_of.
  assert (T1 : render None (line "Base: CS %llX, DS %llX") [ANum (f VMCS_GUEST_CS_BASE); ANum (f VMCS_GUEST_DS_BASE)] =
    Some (chars "Base: CS " ++ hex64 (f VMCS_GUEST_CS_BASE) ++ chars ", DS " ++ hex64 (f VMCS_GUEST_DS_BASE) ++ [10], [])) by text_of.
  assert (T2 : render None (line "Limit: CS %X, DS %X") [ANum (f VMCS_GUEST_CS_LMT); ANum (f VMCS_GUEST_DS_LMT)] =
    Some (chars "Limit: CS " ++ hex32 (f VMCS_GUEST_CS_LMT) ++ chars ", DS " ++ hex32 (f VMCS_GUEST_DS_LMT) ++ [10], [])) by text_of.
  print_next T0 P0. print_next T1 P1.
  destruct (print_line _ (line "Limit: CS %X, DS %X") [ANum (f VMCS_GUEST_CS_LMT); ANum (f VMCS_GUEST_DS_LMT)] _ Hs1 ltac:(reflexivity) ltac:(repeat constructor) T2) as (s' & E & P2 & _). exists s'. split; [exact E|].
  exact (prints_app _ _ _ _ _ P0 (prints_app _ _ _ _ _ P1 P2)).
Qed.

Lemma exit_texts basic qual (f : Z → Z) :
  render None (line "VM-entry failure: reason %u qualification %llX") [ANum basic; ANum qual] = Some (failure_text basic qual, []) ∧
  render None (line "VM-exit: reason %u qualification %llX") [ANum basic; ANum qual] = Some (exit_text basic qual, []) ∧
  render None (line "guest address %llX (linear) %llX (physical)," ++ line "interrupt %llX (info) %llX (code)," ++
      line "IDT %llX (info) %llX (code)," ++ line "instruction %llX (length) %llX (info)")
    [ANum (f VMCS_LINEAR_ADDR); ANum (f VMCS_PHY_ADDR); ANum (f VMCS_EXIT_INT_INFO); ANum (f VMCS_EXIT_INT_CODE); ANum (f VMCS_EXIT_IDT_INFO);
     ANum (f VMCS_EXIT_IDT_CODE); ANum (f VMCS_INSTR_LENGTH); ANum (f VMCS_INSTR_INFO)] = Some (event_text f, []).
Proof. unfold failure_text, exit_text, event_text. rewrite !(dec32_number 0), !hex64_number. repeat split. Qed.

Lemma virt_diagnose_ok c s : console_ok s → ∃ s', virt_diagnose c s = Ok (vmfield c VMCS_EXIT_REASON mod 2 ^ 16, s') ∧ prints s (diagnose_text (vmfield c)) s'.
Proof.
  intros Hs. unfold virt_diagnose, diagnose_text. cbv zeta.
  change 0xFFFF with (Z.ones 16). rewrite Z.land_ones by lia. unfold u16. rewrite Z.mod_mod by done.
  set (reason := vmfield c VMCS_EXIT_REASON). set (basic := reason mod 2 ^ 16). set (qual := vmfield c VMCS_EXIT_QUAL).
  rewrite get_bit64_testbit, bind_ok by lia.
  destruct (exit_texts basic qual (vmfield c)) as (T0 & T1 & T2). destruct (Z.testbit reason 31); cbn [Z.eqb negb].
  - print_next T0 P0. by eexists.
  - print_next T1 P1. print_next T2 P2. destruct (guest_dump_ok c _ Hs1) as (s' & E & P3). rewrite E, bind_ok.
    exists s'. split; [done|]. exact (prints_app _ _ _ _ _ P1 (prints_app _ _ _ _ _ P2 P3)).
Qed.

Lemma virt_main_ok c con : console_ok (con_screen con) →
  ∃ s', virt_main c con = Ok (Console s' false) ∧ prints (con_screen con) (diagnose_text (vmfield c) ++ line "virt_main: virt_main") s'.
Proof.
  intros Hs. unfold virt_main. destruct (virt_diagnose_ok c _ Hs) as (s1 & E & P1). rewrite E, bind_ok.
  assert (Hn : arg_ok (AStr (Some (chars "virt_main")))) by (split; [by apply c_string_dec|done]).
  destruct (panic_raw_ok _ _ (Console s1 (interrupts con)) Hn Hn (proj1 P1)) as (s' & E' & P2). exists s'. split; [exact E'|].
  exact (prints_app _ _ _ _ _ P1 P2).
Qed.

(** ** Properties *)

(** When the guest exits, [virt_main] prints why, from the fields of the control structure, and stops with interrupts off.
    When the CPU already holds the lock of the screen, [panic_raw] prints nothing
    and waits for itself. *)
Theorem virt_main_spec c con func msg :
  (console_ok (con_screen con) → ∃ s', virt_main c con = Ok (Console s' false) ∧
     prints (con_screen con) (diagnose_text (vmfield c) ++ line "virt_main: virt_main") s') ∧
  (owner (scr_lock (con_screen con)) ≠ next (scr_lock (con_screen con)) → panic_raw func msg con = Hang).
Proof. split; [apply virt_main_ok|]. intros H. unfold panic_raw. by rewrite printf_locked. Qed.

Section property.
Context `{HM : Mmu} {A : Type} `{HA : FrameAllocator A}.

(** C34: What [exp_handler] prints. At an exception with an error code it is the number
    of the exception, the error code, the control registers and the registers of the
    interrupted code, each in hexadecimal under its name. At the others, where the
    processor pushes no error code and [isr.S] none either, the same
    report is wrong: RIP is printed as the error code, CS as RIP, and so on up to
    SS, which is the next word of the stack. A page fault adds the four entries
    of the tables for the address, when the upper three are there; when that of the top
    table is absent, the handler faults itself. When the CPU holds the lock of the screen the handler
    waits for itself. *)
Theorem exp_handler_spec irq r rest c s (v : vm A) : console_ok s →
  (pushes_error irq = true → irq ≠ EXCEPTION_PG_FAULT →
     ∃ s', exp_handler irq (exception_stack irq r rest) c s v = Ok (s', v) ∧ prints s (exp_report irq r c) s') ∧
  (∀ x rest', pushes_error irq = false → rest = x :: rest' →
     ∃ s', exp_handler irq (exception_stack irq r rest) c s v = Ok (s', v) ∧ prints s (exp_report irq (shifted r x) c) s') ∧
  (irq = EXCEPTION_PG_FAULT → is_u64 (cr2 c) → lock_free (pg_lock v) → rec_at (vm_mem v) (vm_cr3 v) →
     (∀ f3 f2 f1, pt_at (vm_mem v) (vm_cr3 v) (cr2 c) f3 f2 f1 →
        ∃ s' v', exp_handler irq (exception_stack irq r rest) c s v = Ok (s', v') ∧ lock_free (pg_lock v') ∧
          prints s (exp_report irq r c ++ mapping_text (entry (vm_mem v) (vm_cr3 v) (idx4 (cr2 c))) (entry (vm_mem v) f3 (idx3 (cr2 c)))
            (entry (vm_mem v) f2 (idx2 (cr2 c))) (entry (vm_mem v) f1 (idx1 (cr2 c)))) s') ∧
     (slot_free (vm_mem v) (vm_cr3 v) (idx4 (cr2 c)) →
        exp_handler irq (exception_stack irq r rest) c s v = Fault)) ∧
  (∀ l, owner l ≠ next l → exp_handler irq (exception_stack irq r (0 :: rest)) c (with_scr_lock s l) v = Hang).
Proof.
  intros Hs. assert (Hreg : pushes_error irq = true → load_regs (exception_stack irq r rest) = Ok r).
  { intros E. unfold exception_stack. rewrite E. by destruct r. }
  split; [|split; [|split]].
  - intros E Hne. destruct (report_printed irq _ r c s v Hs (Hreg E)) as (s' & P & ->).
    rewrite (proj2 (Z.eqb_neq _ _) Hne). by exists s'.
  - intros x rest' E ->. destruct (report_printed irq (exception_stack irq r (x :: rest')) (shifted r x) c s v Hs) as (s' & P & ->).
    { unfold exception_stack. by rewrite E. }
    assert (Hne : irq ≠ EXCEPTION_PG_FAULT) by (intros ->; discriminate E). rewrite (proj2 (Z.eqb_neq _ _) Hne). by exists s'.
  - intros -> Ha Hl Hr. destruct (report_printed EXCEPTION_PG_FAULT _ r c s v Hs (Hreg eq_refl)) as (s1 & P & ->). cbn [Z.eqb].
    destruct (vm_check_mapping_spec v (cr2 c) Ha Hl Hr) as [Hok Hfault]. change (EXCEPTION_PG_FAULT =? EXCEPTION_PG_FAULT) with true. cbv iota. split.
    + intros f3 f2 f1 Hpt. destruct (Hok f3 f2 f1 Hpt) as (v' & E & Hl'). rewrite E, bind_ok.
      destruct (show_mapping_ok s1 (entry (vm_mem v) (vm_cr3 v) (idx4 (cr2 c))) (entry (vm_mem v) f3 (idx3 (cr2 c))) (entry (vm_mem v) f2 (idx2 (cr2 c)))
        (entry (vm_mem v) f1 (idx1 (cr2 c))) (proj1 P)) as (s' & E' & P'). rewrite E', bind_ok. exists s', v'. split; [done|]. split; [done|].
      exact (prints_app _ _ _ _ _ P P').
    + intros Hfree. by rewrite Hfault by (by left).
  - intros l Hne. unfold exp_handler, exception_stack. destruct (pushes_error irq); cbn [reg_save app load_regs];
      rewrite bind_ok; by rewrite printf_locked.
Qed.
End property.

(** ** Witness *)

(** A division by zero at [0x1000], with the word 7 below the frame on the stack. *)
Definition sample_regs : hw_regs := HwRegs 1 2 3 4 5 6 7 8 9 10 11 12 13 14 15 0 0x1000 8 0x202 0x8000 16.
Definition sample_crs : control_regs := ControlRegs 0x80000011 0 0x300000 0x20 0.

Lemma exp_handler_spec_witness : ∃ s', exp_handler 0 (exception_stack 0 sample_regs [7]) sample_crs screen_init init_vm = Ok (s', init_vm) ∧
  prints screen_init (exp_report 0 (shifted sample_regs 7) sample_crs) s' ∧ error_code (shifted sample_regs 7) = 0x1000.
Proof.
  destruct (exp_handler_spec 0 sample_regs [7] sample_crs screen_init init_vm (conj screen_init_ok lock_free_unlocked)) as (_ & H & _).
  destruct (H 7 [] eq_refl eq_refl) as (s' & E & P). exists s'. split; [exact E|]. split; [exact P|reflexivity].
Defined.
