(* ===== verification/LinuxAbi.v ===== *)
(** * The structures of the Linux boot protocol

    The packed structures of [arch/x86_64/include/virt/linux.h] as types with
    sizes and offsets, the constants next to them, and the check of the offsets
    that the comments of the header give. *)

From S2P Require Import Prelude.

Local Open Scope Z_scope.
Local Open Scope string_scope.

(** The types of members; all structures are packed. *)
Inductive ctype :=
  | U8 | U16 | U32 | U64
  | Array (t : ctype) (n : Z)
  | Struct (l : list (string * ctype))
  | Union (l : list (string * ctype)).

Fixpoint sizeof (t : ctype) : Z :=
  match t with
  | U8 => 1 | U16 => 2 | U32 => 4 | U64 => 8
  | Array t n => sizeof t * n
  | Struct l => (fix sum l := match l with [] => 0 | (_, t) :: l => sizeof t + sum l end) l
  | Union l => (fix most l := match l with [] => 0 | (_, t) :: l => Z.max (sizeof t) (most l) end) l
  end.

(** The offset and the type of a member. *)
Fixpoint member (l : list (string * ctype)) (name : string) : option (Z * ctype) :=
  match l with
  | [] => None
  | (n, t) :: l =>
      if String.eqb n name then Some (0, t)
      else match member l name with Some (o, t') => Some (sizeof t + o, t') | None => None end
  end.
Fixpoint offsetof (t : ctype) (path : list string) : Z :=
  match path, t with
  | [], _ => 0
  | n :: path, Struct l | n :: path, Union l =>
      match member l n with
      | Some (o, t') => (match t with Union _ => 0 | _ => o end) + offsetof t' path
      | None => -1
      end
  | _, _ => -1
  end.

(** ** Constants *)

Definition LINUX_HEADER_OFFSET : Z := 0x1F1.
Definition LINUX_HEADER_MAGIC : Z := 0x53726448.
Definition LINUX_SECTOR_SZ : Z := 512.
Definition LINUX_CMD_LINE : string := "auto".
Definition EDDMAXNR : Z := 6.
Definition EDD_MBR_SIG_MAX : Z := 16.
Definition E820_MAX_ENTRIES_ZEROPAGE : Z := 128.

(** ** Structures *)

Definition setup_header : ctype := Struct [
  ("setup_sects", U8); ("root_flags", U16); ("syssize", U32); ("ram_size", U16); ("vid_mode", U16);
  ("root_dev", U16); ("boot_flag", U16); ("jump", U16); ("header", U32); ("version", U16);
  ("realmode_swtch", U32); ("start_sys_seg", U16); ("kernel_version", U16); ("type_of_loader", U8);
  ("loadflags", U8); ("setup_move_size", U16); ("code32_start", U32); ("ramdisk_image", U32);
  ("ramdisk_size", U32); ("bootsect_kludge", U32); ("heap_end_ptr", U16); ("ext_loader_ver", U8);
  ("ext_loader_type", U8); ("cmd_line_ptr", U32); ("initrd_addr_max", U32); ("kernel_alignment", U32);
  ("relocatable_kernel", U8); ("min_alignment", U8); ("xloadflags", U16); ("cmdline_size", U32);
  ("hardware_subarch", U32); ("hardware_subarch_data", U64); ("payload_offset", U32);
  ("payload_length", U32); ("setup_data", U64); ("pref_address", U64); ("init_size", U32);
  ("handover_offset", U32)].

Definition screen_info : ctype := Struct [
  ("orig_x", U8); ("orig_y", U8); ("ext_mem_k", U16); ("orig_video_page", U16); ("orig_video_mode", U8);
  ("orig_video_cols", U8); ("flags", U8); ("unused2", U8); ("orig_video_ega_bx", U16); ("unused3", U16);
  ("orig_video_lines", U8); ("orig_video_isVGA", U8); ("orig_video_points", U16); ("lfb_width", U16);
  ("lfb_height", U16); ("lfb_depth", U16); ("lfb_base", U32); ("lfb_size", U32); ("cl_magic", U16);
  ("cl_offset", U16); ("lfb_linelength", U16); ("red_size", U8); ("red_pos", U8); ("green_size", U8);
  ("green_pos", U8); ("blue_size", U8); ("blue_pos", U8); ("rsvd_size", U8); ("rsvd_pos", U8);
  ("vesapm_seg", U16); ("vesapm_off", U16); ("pages", U16); ("vesa_attributes", U16);
  ("capabilities", U32); ("ext_lfb_base", U32); ("_reserved", Array U8 2)].

Definition apm_bios_info : ctype := Struct [
  ("version", U16); ("cseg", U16); ("offset", U32); ("cseg_16", U16); ("dseg", U16); ("flags", U16);
  ("cseg_len", U16); ("cseg_16_len", U16); ("dseg_len", U16)].

Definition ist_info : ctype := Struct [
  ("signature", U32); ("command", U32); ("event", U32); ("perf_level", U32)].

Definition sys_desc_table : ctype := Struct [("length", U16); ("table", Array U8 14)].

Definition olpc_ofw_header : ctype := Struct [
  ("ofw_magic", U32); ("ofw_version", U32); ("cif_handler", U32); ("irq_desc_table", U32)].

Definition edid_info : ctype := Struct [("dummy", Array U8 128)].

Definition efi_info : ctype := Struct [
  ("efi_loader_signature", U32); ("efi_systab", U32); ("efi_memdesc_size", U32);
  ("efi_memdesc_version", U32); ("efi_memmap", U32); ("efi_memmap_size", U32); ("efi_systab_hi", U32);
  ("efi_memmap_hi", U32)].

Definition boot_e820_entry : ctype := Struct [("addr", U64); ("size", U64); ("type", U32)].

Definition edd_interface_path : ctype := Union [
  ("isa", Struct [("base_address", U16); ("reserved1", U16); ("reserved2", U32)]);
  ("pci", Struct [("bus", U8); ("slot", U8); ("function", U8); ("channel", U8); ("reserved", U32)]);
  ("ibnd", Struct [("reserved", U64)]); ("xprs", Struct [("reserved", U64)]);
  ("htpt", Struct [("reserved", U64)]); ("unknown", Struct [("reserved", U64)])].

Definition edd_device_path : ctype := Union [
  ("ata", Struct [("device", U8); ("reserved1", U8); ("reserved2", U16); ("reserved3", U32); ("reserved4", U64)]);
  ("atapi", Struct [("device", U8); ("lun", U8); ("reserved1", U8); ("reserved2", U8); ("reserved3", U32); ("reserved4", U64)]);
  ("scsi", Struct [("id", U16); ("lun", U64); ("reserved1", U16); ("reserved2", U32)]);
  ("usb", Struct [("serial_number", U64); ("reserved", U64)]);
  ("i1394", Struct [("eui", U64); ("reserved", U64)]);
  ("fibre", Struct [("wwid", U64); ("lun", U64)]);
  ("i2o", Struct [("identity_tag", U64); ("reserved", U64)]);
  ("raid", Struct [("array_number", U32); ("reserved1", U32); ("reserved2", U64)]);
  ("sata", Struct [("device", U8); ("reserved1", U8); ("reserved2", U16); ("reserved3", U32); ("reserved4", U64)]);
  ("unknown", Struct [("reserved1", U64); ("reserved2", U64)])].

Definition edd_device_params : ctype := Struct [
  ("length", U16); ("info_flags", U16); ("num_default_cylinders", U32); ("num_default_heads", U32);
  ("sectors_per_track", U32); ("number_of_sectors", U64); ("bytes_per_sector", U16); ("dpte_ptr", U32);
  ("key", U16); ("device_path_info_length", U8); ("reserved2", U8); ("reserved3", U16);
  ("host_bus_type", Array U8 4); ("interface_type", Array U8 8); ("interface_path", edd_interface_path);
  ("device_path", edd_device_path); ("reserved4", U8); ("checksum", U8)].

Definition edd_info : ctype := Struct [
  ("device", U8); ("version", U8); ("interface_support", U16); ("legacy_max_cylinder", U16);
  ("legacy_max_head", U8); ("legacy_sectors_per_track", U8); ("params", edd_device_params)].

Definition boot_params_fields : list (string * ctype) := [
  ("screen_info", screen_info); ("apm_bios_info", apm_bios_info); ("_pad2", Array U8 4);
  ("tboot_addr", U64); ("ist_info", ist_info); ("acpi_rsdp_addr", U64); ("_pad3", Array U8 8);
  ("hd0_info", Array U8 16); ("hd1_info", Array U8 16); ("sys_desc_table", sys_desc_table);
  ("olpc_ofw_header", olpc_ofw_header); ("ext_ramdisk_image", U32); ("ext_ramdisk_size", U32);
  ("ext_cmd_line_ptr", U32); ("_pad4", Array U8 116); ("edid_info", edid_info); ("efi_info", efi_info);
  ("alt_mem_k", U32); ("scratch", U32); ("e820_entries", U8); ("eddbuf_entries", U8);
  ("edd_mbr_sig_buf_entries", U8); ("kbd_status", U8); ("secure_boot", U8); ("_pad5", Array U8 2);
  ("sentinel", U8); ("_pad6", Array U8 1); ("hdr", setup_header);
  ("_pad7", Array U8 (0x290 - 0x1f1 - sizeof setup_header));
  ("edd_mbr_sig_buffer", Array U32 EDD_MBR_SIG_MAX);
  ("e820_table", Array boot_e820_entry E820_MAX_ENTRIES_ZEROPAGE); ("_pad8", Array U8 48);
  ("eddbuf", Array edd_info EDDMAXNR); ("_pad9", Array U8 276)].
Definition boot_params : ctype := Struct boot_params_fields.

(** The offsets at the right margin of [struct boot_params] and [struct screen_info]. *)
Definition boot_params_comments : list (string * Z) := [
  ("screen_info", 0x000); ("apm_bios_info", 0x040); ("_pad2", 0x054); ("tboot_addr", 0x058);
  ("ist_info", 0x060); ("acpi_rsdp_addr", 0x070); ("_pad3", 0x078); ("hd0_info", 0x080);
  ("hd1_info", 0x090); ("sys_desc_table", 0x0a0); ("olpc_ofw_header", 0x0b0);
  ("ext_ramdisk_image", 0x0c0); ("ext_ramdisk_size", 0x0c4); ("ext_cmd_line_ptr", 0x0c8);
  ("_pad4", 0x0cc); ("edid_info", 0x140); ("efi_info", 0x1c0); ("alt_mem_k", 0x1e0); ("scratch", 0x1e4);
  ("e820_entries", 0x1e8); ("eddbuf_entries", 0x1e9); ("edd_mbr_sig_buf_entries", 0x1ea);
  ("kbd_status", 0x1eb); ("secure_boot", 0x1ec); ("_pad5", 0x1ed); ("sentinel", 0x1ef); ("_pad6", 0x1f0);
  ("hdr", 0x1f1); ("edd_mbr_sig_buffer", 0x290); ("e820_table", 0x2d0); ("_pad8", 0xcd0);
  ("eddbuf", 0xd00); ("_pad9", 0xeec)].
Definition screen_info_comments : list (string * Z) := [
  ("orig_x", 0x00); ("orig_y", 0x01); ("ext_mem_k", 0x02); ("orig_video_page", 0x04);
  ("orig_video_mode", 0x06); ("orig_video_cols", 0x07); ("flags", 0x08); ("unused2", 0x09);
  ("orig_video_ega_bx", 0x0a); ("unused3", 0x0c); ("orig_video_lines", 0x0e); ("orig_video_isVGA", 0x0f);
  ("orig_video_points", 0x10); ("lfb_width", 0x12); ("lfb_height", 0x14); ("lfb_depth", 0x16);
  ("lfb_base", 0x18); ("lfb_size", 0x1c); ("cl_magic", 0x20); ("lfb_linelength", 0x24);
  ("red_size", 0x26); ("red_pos", 0x27); ("green_size", 0x28); ("green_pos", 0x29); ("blue_size", 0x2a);
  ("blue_pos", 0x2b); ("rsvd_size", 0x2c); ("rsvd_pos", 0x2d); ("vesapm_seg", 0x2e);
  ("vesapm_off", 0x30); ("pages", 0x32); ("vesa_attributes", 0x34); ("capabilities", 0x36);
  ("ext_lfb_base", 0x3a); ("_reserved", 0x3e)].

(** ** The members the hypervisor uses, by their offset in the zero page *)

Definition HDR : Z := Eval vm_compute in offsetof boot_params ["hdr"].
Definition HDR_SIZE : Z := Eval vm_compute in sizeof setup_header.
Definition hdr_offset (f : string) : Z := offsetof boot_params ["hdr"; f].
Definition ZP_SETUP_SECTS : Z := Eval vm_compute in hdr_offset "setup_sects".
Definition ZP_HEADER : Z := Eval vm_compute in hdr_offset "header".
Definition ZP_TYPE_OF_LOADER : Z := Eval vm_compute in hdr_offset "type_of_loader".
Definition ZP_LOADFLAGS : Z := Eval vm_compute in hdr_offset "loadflags".
Definition ZP_CODE32_START : Z := Eval vm_compute in hdr_offset "code32_start".
Definition ZP_RAMDISK_IMAGE : Z := Eval vm_compute in hdr_offset "ramdisk_image".
Definition ZP_RAMDISK_SIZE : Z := Eval vm_compute in hdr_offset "ramdisk_size".
Definition ZP_CMD_LINE_PTR : Z := Eval vm_compute in hdr_offset "cmd_line_ptr".
Definition ZP_E820_TABLE : Z := Eval vm_compute in offsetof boot_params ["e820_table"].
Definition E820_ENTRY_SIZE : Z := Eval vm_compute in sizeof boot_e820_entry.

(** ** Layout *)

(** The packed structures have the layout of the boot protocol: the zero
    page is one page, every member of [boot_params] and [screen_info] that the
    header comments with an offset is there, the members of the setup header
    are at the offsets of the protocol, and the header of the image file starts
    where [hdr] starts. *)
Theorem boot_params_layout :
  sizeof boot_params = 4096 ∧ sizeof screen_info = 0x40 ∧
  Forall (fun '(f, o) => offsetof boot_params [f] = o) boot_params_comments ∧
  Forall (fun '(f, o) => offsetof screen_info [f] = o) screen_info_comments ∧
  hdr_offset "setup_sects" = LINUX_HEADER_OFFSET ∧ hdr_offset "header" = 0x202 ∧
  hdr_offset "type_of_loader" = 0x210 ∧ hdr_offset "loadflags" = 0x211 ∧ hdr_offset "code32_start" = 0x214 ∧
  hdr_offset "ramdisk_image" = 0x218 ∧ hdr_offset "ramdisk_size" = 0x21C ∧ hdr_offset "cmd_line_ptr" = 0x228 ∧
  hdr_offset "handover_offset" + 4 <= 0x290.
Proof. split_and!; try (vm_compute; reflexivity); try (vm_compute; discriminate); repeat constructor. Qed.
