(* ===== verification/E820.v ===== *)
(** * The memory map of the guest

    Models [virt_setup_e820] of [arch/x86_64/virt/mem.c]: it hands the free
    memory of the machine to the guest, range by range, and writes the ranges
    to the table of the Linux boot protocol. *)

From Stdlib Require Import Sorting.Sorted.
From S2P Require Import Prelude Layout Bits Spinlock Physical Mmu Paging LinuxAbi VirtInit.

Local Open Scope Z_scope.
Local Open Scope c_scope.

Definition E820_RAM : Z := 1.

(** [struct boot_e820_entry] *)
Record e820_entry := E820Entry {
  e_addr : Z;
  e_size : Z;
  e_type : Z
}.

(** The local variables of [virt_setup_e820] with the table, the page allocator and what is printed. *)
Record e820_state := E820State {
  mmap_start : Z;
  mmap_size : Z;
  mmap_num : Z;
  merge_ramdisk : bool;
  table : list e820_entry;
  e_phys : phys;
  e_log : list (string * list Z)
}.

Definition table_set (l : list e820_entry) (i : Z) (e : e820_entry) : outcome (list e820_entry) :=
  if (0 <=? i) && (i <? Z.of_nat (length l)) then Ok (<[Z.to_nat i := e]> l) else Fault.

Definition MMAP_FORMAT : string := "mmap: %llX, %llX".

(** The ramdisk goes in before the first range above it. *)
Definition add_ramdisk (ramdisk_image ramdisk_size ramdisk_end : Z) (st : e820_state) : outcome e820_state :=
  if (ramdisk_end <=? mmap_start st) && merge_ramdisk st then
    sz ← ceiling64 ramdisk_size LARGE_PG_SIZE;
    t ← table_set (table st) (mmap_num st) (E820Entry ramdisk_image sz E820_RAM);
    Ok (E820State (mmap_start st) (mmap_size st) (u8 (mmap_num st + 1)) false t (e_phys st)
          ((MMAP_FORMAT, [ramdisk_image; sz]) :: e_log st))
  else Ok st.

(** The end of a round: the range goes into the table and is taken. *)
Definition add_range (st : e820_state) (start size : Z) : outcome e820_state :=
  t ← table_set (table st) (mmap_num st) (E820Entry start size E820_RAM);
  p ← physical_take_range (e_phys st) start size;
  Ok (E820State start size (u8 (mmap_num st + 1)) (merge_ramdisk st) t p ((MMAP_FORMAT, [start; size]) :: e_log st)).

Definition with_range (st : e820_state) (start size : Z) : e820_state :=
  E820State start size (mmap_num st) (merge_ramdisk st) (table st) (e_phys st) (e_log st).

(** What becomes of the range: above the kernel only whole large pages are
    given away, ranges that start in the memory of the kernel image are left
    out, and below it the range goes as it is. *)
Definition place_range (kernel_end start_paddr start size : Z) (st : e820_state) : outcome e820_state :=
  if kernel_end <=? start then
    let old_addr := start in
    start ← ceiling64 start LARGE_PG_SIZE;
    let tmp := start -w old_addr in
    if size <=? tmp then Ok (with_range st start 0)
    else
      let size := size -w tmp in
      let tmp := size .& LARGE_PG_MASK in
      if tmp <? LARGE_PG_SIZE then Ok (with_range st start size)
      else add_range st start tmp
  else if (LINUX_ENTRY_POINT <=? start) && (start <? kernel_end) then Ok st
  else
    let '(start, size) :=
      if start_paddr =? 0 then (start -w Z.shiftl 2 PG_BITS, size +w Z.shiftl 2 PG_BITS) else (start, size) in
    add_range st start size.

Definition e820_step (ramdisk_image ramdisk_size ramdisk_end kernel_end : Z) (st : e820_state) :
    outcome (e820_state + e820_state) :=
  let start_paddr := mmap_start st +w mmap_size st in
  '(start, size) ← physical_next_free_range (e_phys st) start_paddr (mmap_start st) (mmap_size st);
  st ← add_ramdisk ramdisk_image ramdisk_size ramdisk_end (with_range st start size);
  if size =? 0 then Ok (inr st)
  else
    st ← place_range kernel_end start_paddr start size st;
    Ok (inl st).

(** [ramdisk_image] and [ramdisk_size] are 32-bit members of the setup header: their sum is taken
    in 32 bits. *)
Definition virt_setup_e820 (ramdisk_image ramdisk_size kernel_size : Z) (t : list e820_entry) (p : phys)
    (log : list (string * list Z)) : outcome e820_state :=
  let ramdisk_end := u32 (ramdisk_image + ramdisk_size) in
  let kernel_end := LINUX_ENTRY_POINT +w kernel_size in
  while (e820_step ramdisk_image ramdisk_size ramdisk_end kernel_end) (E820State 0 0 0 true t p log).

(** ** What the guest is to be given

    Stated on the allocator's table alone: [p0] is the allocator when the map
    is made, [ke] the end of the kernel's memory. *)

Section map.
Context (p0 : phys) (ke : Z).

(** Frame [m] is free, in the free run that starts at frame [s]. *)
Definition in_run (s m : Z) : Prop := 0 < s <= m ∧ page_free p0 (s - 1) = false ∧ all_free p0 s (m + 1).

(** Frame [m] is in a large page that is free as a whole and starts at frame [s] or above. *)
Definition in_large_page (s m : Z) : Prop :=
  ∃ L, (512 | L) ∧ s <= L ∧ L <= m < L + 512 ∧ all_free p0 L (L + 512).

(** The frames withdrawn from the hypervisor: a run that starts below the
    kernel goes as a whole, a run that starts past the end of the kernel's memory goes as
    far as it consists of large pages, and a run that starts in the memory of the kernel
    stays, with all its large pages. *)
Definition handed (m : Z) : Prop := ∃ s, in_run s m ∧
  (4096 * s < LINUX_ENTRY_POINT ∨ (ke <= 4096 * s ∧ in_large_page s m)).

(** The two frames in front of the first free frame, when this one is below the kernel. *)
Definition in_front (m : Z) : Prop :=
  ∃ s, 0 <= s ∧ none_free p0 0 s ∧ page_free p0 s = true ∧ 4096 * s < LINUX_ENTRY_POINT ∧ s - 2 <= m < s.

(** The frames that the map shows as memory, the ramdisk apart. *)
Definition given (m : Z) : Prop := in_front m ∨ handed m.

(** A maximal piece of them: its first frame and their number. *)
Definition piece (x : Z * Z) : Prop := 0 <= x.1 ∧ 0 < x.2 ∧
  (∀ m, x.1 <= m < x.1 + x.2 → given m) ∧ ¬ given (x.1 - 1) ∧ ¬ given (x.1 + x.2).

(** [rs] are all of them, in the order of their addresses. *)
Definition all_pieces (rs : list (Z * Z)) : Prop :=
  StronglySorted (fun x y => x.1 + x.2 <= y.1) rs ∧ Forall piece rs ∧
  ∀ m, 0 <= m → given m → Exists (fun x => x.1 <= m < x.1 + x.2) rs.

(** More pieces than a table of 128 entries takes beside the ramdisk. *)
Definition too_many_pieces : Prop := ∃ rs, NoDup rs ∧ Forall piece rs ∧ (128 <= length rs)%nat.

Definition range_entry (x : Z * Z) : e820_entry := E820Entry (4096 * x.1) (4096 * x.2) E820_RAM.
Definition disk_entry (rd_image rd_size : Z) : e820_entry :=
  E820Entry rd_image ((rd_size + LARGE_PG_SIZE - 1) / LARGE_PG_SIZE * LARGE_PG_SIZE) E820_RAM.

(** The entries of the pieces [rs], with that of the ramdisk among them if [disk]. *)
Definition entries_of (rd_image rd_size : Z) (disk : bool) (rs : list (Z * Z)) (l : list e820_entry) : Prop :=
  if disk then ∃ r1 r2, rs = r1 ++ r2 ∧ l = (range_entry <$> r1) ++ disk_entry rd_image rd_size :: (range_entry <$> r2)
  else l = range_entry <$> rs.

(** The ramdisk ends in a frame that is not free, below the end of the allocator's table. *)
Definition disk_taken (rd_end : Z) : Prop :=
  rd_end <= 4096 * (64 * entry_end p0) ∧ page_free p0 ((rd_end - 1) / 4096) = false.

(** The map: every piece, and the ramdisk. *)
Definition guest_map (rd_image rd_size rd_end : Z) (l : list e820_entry) : Prop :=
  ∃ rs disk, all_pieces rs ∧ entries_of rd_image rd_size disk rs l ∧ (disk_taken rd_end → disk = true).

(** What the hypervisor keeps. *)
Definition left_over (p : phys) : Prop :=
  ∀ m, 0 <= m → page_free p m = true ↔ page_free p0 m = true ∧ ¬ handed m.

(** *** Runs *)

Context (Hp0 : phys_wf p0) (Htail : tail_taken p0) (Hend : entry_end p0 < 262144).
Context (Hlow : none_free p0 0 2) (Hke : 0x100000 <= ke < 2 ^ 48).

Lemma in_run_unique s s' m : in_run s m → in_run s' m → s = s'.
Proof using.
  intros (H1 & H2 & H3) (H1' & H2' & H3'). destruct (Z.lt_trichotomy s s') as [H|[H|H]]; [|done|].
  - rewrite H3 in H2' by lia. discriminate.
  - rewrite H3' in H2 by lia. discriminate.
Qed.

Lemma in_run_free s m : in_run s m → page_free p0 m = true.
Proof using. intros (H1 & _ & H3). apply H3. lia. Qed.

Lemma in_run_le s m m' : in_run s m → s <= m' <= m → in_run s m'.
Proof using. intros (H1 & H2 & H3) Hm. split; [lia|]. split; [done|]. intros k Hk. apply H3. lia. Qed.

Lemma in_run_more s m m' : in_run s m → all_free p0 m (m' + 1) → m <= m' → in_run s m'.
Proof using.
  intros (H1 & H2 & H3) Hf Hm. split; [lia|]. split; [done|]. apply (all_free_app p0 s m); [|done].
  intros k Hk. apply H3. lia.
Qed.

(** A frame that is not free ends the runs. *)
Lemma in_run_above s m e : in_run s m → page_free p0 e = false → e < m → e < s.
Proof using. intros (H1 & _ & H3) He Hm. destruct (Z.lt_ge_cases e s); [done|]. rewrite H3 in He by lia. discriminate. Qed.

Lemma run_exists n m : m = Z.of_nat n → page_free p0 m = true → ∃ s, in_run s m.
Proof using Hlow.
  revert m. induction n as [|n IH]; intros m -> Hf.
  { rewrite Hlow in Hf by lia. discriminate. }
  destruct (page_free p0 (Z.of_nat (S n) - 1)) eqn:E.
  - destruct (IH (Z.of_nat (S n) - 1) ltac:(lia) E) as [s Hs]. exists s. apply (in_run_more s _ _ Hs); [|lia].
    intros k Hk. assert (k = Z.of_nat (S n) - 1 ∨ k = Z.of_nat (S n)) as [->| ->] by lia; done.
  - exists (Z.of_nat (S n)). split; [lia|]. split; [done|]. intros k Hk. by replace k with (Z.of_nat (S n)) by lia.
Qed.

Lemma run_of m : 0 <= m → page_free p0 m = true → ∃ s, in_run s m.
Proof using Hlow. intros Hm. apply (run_exists (Z.to_nat m)). lia. Qed.

Lemma handed_free m : handed m → page_free p0 m = true.
Proof using. intros (s & Hs & _). by apply (in_run_free s). Qed.

Lemma in_front_taken m : in_front m → 0 <= m ∧ page_free p0 m = false.
Proof using Hlow.
  intros (s & Hs & Hn & Hf & _ & Hm). assert (2 <= s) by (destruct (Z.lt_ge_cases s 2); [rewrite Hlow in Hf by lia; discriminate|done]).
  split; [lia|]. apply Hn. lia.
Qed.

Lemma handed_run s m : in_run s m → handed m ↔ 4096 * s < LINUX_ENTRY_POINT ∨ (ke <= 4096 * s ∧ in_large_page s m).
Proof using. intros Hs. split; [|by exists s]. intros (s' & Hs' & H). by rewrite (in_run_unique s s' m). Qed.

(** *** What is given of a range [s, s + k) that lies in the run from [s0] *)

Lemma high_given s0 s k m : in_run s0 s → ke <= 4096 * s0 → s0 = s ∨ (512 | s) → all_free p0 s (s + k) → page_free p0 (s + k) = false →
  s <= m < s + k →
  let al := (s + 511) / 512 * 512 in handed m ↔ al <= m < al + 512 * ((s + k - al) / 512).
Proof using Hke.
  intros H0 Hk0 Hs Hf Hstop Hm al. assert (Hrm : in_run s0 m).
  { apply (in_run_more s0 s); [done| |lia]. intros j Hj. apply Hf. lia. }
  rewrite (handed_run s0 m Hrm). unfold LINUX_ENTRY_POINT. split.
  - intros [Hl|[_ (L & [q ->] & HL0 & HLm & HLf)]]; [lia|].
    assert (He : q * 512 + 512 <= s + k).
    { destruct (Z.le_gt_cases (q * 512 + 512) (s + k)) as [|Hgt]; [done|]. rewrite HLf in Hstop by lia. discriminate. }
    assert (Hb : s <= q * 512 ∨ q * 512 < s) by lia. destruct Hb as [Hb|Hb]; [subst al; dlia|].
    destruct Hs as [->|[r ->]]; [lia|]. subst al. dlia.
  - intros Ha. right. split; [done|]. exists (m / 512 * 512). split; [by exists (m / 512)|].
    assert (s <= m / 512 * 512 ∧ m / 512 * 512 + 512 <= s + k) by (subst al; dlia).
    destruct H0 as (? & _). split; [lia|]. split; [dlia|]. intros j Hj. apply Hf. lia.
Qed.

Lemma gap_kept s s0 k m : in_run s0 s → ke <= 4096 * s0 → page_free p0 (s + k) = false → 0 < k →
  s + k <= m < (s + 511) / 512 * 512 → ¬ handed m.
Proof using Hke.
  intros H0 Hk0 Hstop Hk Hm (s1 & H1 & Hcase). pose proof (in_run_free s1 m H1) as Hf. destruct H0 as (H0 & _).
  assert (m ≠ s + k) by congruence. pose proof (in_run_above s1 m (s + k) H1 Hstop ltac:(lia)) as Hs1. unfold LINUX_ENTRY_POINT in Hcase.
  destruct Hcase as [Hl|[_ (L & [q ->] & HL0 & HLm & _)]]; [lia|dlia].
Qed.

Lemma kernel_kept s k m : in_run s s → LINUX_ENTRY_POINT <= 4096 * s → 4096 * s < ke → all_free p0 s (s + k) → s <= m < s + k → ¬ handed m.
Proof using.
  intros H0 Hl Hs Hf Hm. assert (Hrm : in_run s m).
  { apply (in_run_more s s); [done| |lia]. intros j Hj. apply Hf. lia. }
  rewrite (handed_run s m Hrm). lia.
Qed.

Lemma low_given s k m : in_run s s → 4096 * s < LINUX_ENTRY_POINT → all_free p0 s (s + k) → s <= m < s + k → handed m.
Proof using.
  intros H0 Hl Hf Hm. exists s. split; [|by left]. apply (in_run_more s s); [done| |lia]. intros j Hj. apply Hf. lia.
Qed.

(** ** The scan *)

Context (rd_image rd_size rd_end : Z) (Hrd : is_u32 rd_size) (log0 : list (string * list Z)).

Definition printed (e : e820_entry) : string * list Z := (MMAP_FORMAT, [e_addr e; e_size e]).
Definition entries (st : e820_state) : list e820_entry := take (Z.to_nat (mmap_num st)) (table st).

(** The pieces below frame [c]. *)
Record pieces_below (c : Z) (rs : list (Z * Z)) : Prop := PiecesBelow {
  pb_sorted : StronglySorted (fun x y => x.1 + x.2 <= y.1) rs;
  pb_pieces : Forall piece rs;
  pb_below : Forall (fun x => x.1 + x.2 <= c) rs;
  pb_all m : 0 <= m < c → given m → Exists (fun x => x.1 <= m < x.1 + x.2) rs
}.

(** The scan is not inside a run, but for one of large pages. *)
Definition between (c : Z) : Prop := page_free p0 (c - 1) = false ∨ page_free p0 c = false ∨
  ((512 | c) ∧ (¬ handed (c - 1) ∨ ¬ all_free p0 c (c + 512)) ∧ ∃ s0, in_run s0 (c - 1) ∧ ke <= 4096 * s0).

(** What is known once the ranges below frame [c] have been dealt with. *)
Record e820_inv (st : e820_state) (c : Z) : Prop := E820Inv {
  ei_range : 0 <= c <= 64 * 262144 + 512;
  ei_wf : phys_wf (e_phys st);
  ei_end : entry_end (e_phys st) = entry_end p0;
  ei_free m : 0 <= m → page_free (e_phys st) m = true ↔ page_free p0 m = true ∧ (c <= m ∨ ¬ handed m);
  ei_len : length (table st) = 128%nat;
  ei_num : 0 <= mmap_num st <= 128;
  ei_between : between c;
  ei_front : c = 0 ∨ ∀ m, in_front m → m + 1 < c;
  ei_map : ∃ rs, pieces_below c rs ∧ entries_of rd_image rd_size (negb (merge_ramdisk st)) rs (entries st);
  ei_log : e_log st = reverse (printed <$> entries st) ++ log0
}.

(** The ramdisk is still to come: it lies past the scan. *)
Definition disk_pending (st : e820_state) (c : Z) : Prop :=
  merge_ramdisk st = true → disk_taken rd_end → 4096 * c < rd_end ∨ rd_end <= mmap_start st.

(** The scan goes on at frame [c]. *)
Definition cursor (st : e820_state) (c : Z) : Prop :=
  0 <= mmap_start st ∧ 0 <= mmap_size st ∧ mmap_start st + mmap_size st = 4096 * c.

(** Writing an entry. *)
Lemma table_set_ok t i e : length t = 128%nat → 0 <= i < 128 →
  ∃ t', table_set t i e = Ok t' ∧ length t' = 128%nat ∧ take (Z.to_nat (i + 1)) t' = take (Z.to_nat i) t ++ [e].
Proof using.
  intros Ht Hi. exists (<[Z.to_nat i := e]> t). unfold table_set.
  rewrite (proj2 (Z.leb_le _ _)), (proj2 (Z.ltb_lt _ _)) by lia. split; [done|]. split; [by rewrite length_insert|].
  replace (Z.to_nat (i + 1)) with (S (Z.to_nat i)) by lia.
  rewrite (take_S_r _ _ e) by (apply list_lookup_insert_eq; lia). by rewrite take_insert_ge by lia.
Qed.

Lemma table_full t i e : length t = 128%nat → 128 <= i → table_set t i e = Fault.
Proof using.
  intros Ht Hi. unfold table_set. destruct (Z.ltb_spec i (Z.of_nat (length t))); [lia|]. by rewrite andb_false_r.
Qed.

Lemma entries_of_add disk rs l x : entries_of rd_image rd_size disk rs l →
  entries_of rd_image rd_size disk (rs ++ [x]) (l ++ [range_entry x]).
Proof using.
  destruct disk; cbn.
  - intros (r1 & r2 & -> & ->). exists r1, (r2 ++ [x]). by rewrite fmap_app, <- !app_assoc.
  - intros ->. by rewrite fmap_app.
Qed.

Lemma entries_of_disk rs l : entries_of rd_image rd_size false rs l →
  entries_of rd_image rd_size true rs (l ++ [disk_entry rd_image rd_size]).
Proof using. cbn. intros ->. exists rs, []. by rewrite app_nil_r. Qed.

Lemma entries_of_length disk rs l : entries_of rd_image rd_size disk rs l →
  length l = (length rs + if disk then 1 else 0)%nat.
Proof using.
  destruct disk; cbn.
  - intros (r1 & r2 & -> & ->). rewrite !length_app. cbn. rewrite !length_fmap. lia.
  - intros ->. rewrite length_fmap. lia.
Qed.

Lemma entries_length st c : e820_inv st c → length (entries st) = Z.to_nat (mmap_num st).
Proof using. intros I. unfold entries. rewrite length_take, (ei_len _ _ I). pose proof (ei_num _ _ I). lia. Qed.

Lemma pieces_nodup rs : StronglySorted (fun x y => x.1 + x.2 <= y.1) rs → Forall piece rs → NoDup rs.
Proof using.
  induction 1 as [|x rs Hs IH Hx]; intros Hp; [constructor|]. inversion Hp as [|? ? Hpx Hps]. subst.
  constructor; [|by apply IH]. intros Hin. rewrite Forall_forall in Hx. specialize (Hx x Hin). destruct Hpx as (_ & ? & _). lia.
Qed.

Lemma sorted_snoc (R : Z * Z → Z * Z → Prop) l x : StronglySorted R l → Forall (fun y => R y x) l → StronglySorted R (l ++ [x]).
Proof using.
  induction 1 as [|y l Hs IH Hy]; intros Hx; cbn; [repeat constructor|]. inversion Hx as [|? ? Hyx Hlx]. subst.
  constructor; [by apply IH|]. apply Forall_app. split; [done|by constructor].
Qed.

(** No piece below the scan lies on it or above. *)
Lemma pieces_skip c c' rs : pieces_below c rs → c <= c' → (∀ m, c <= m < c' → ¬ given m) → pieces_below c' rs.
Proof using.
  intros [P1 P2 P3 P4] Hc Hno. split; [done|done| |].
  - apply (Forall_impl _ _ _ P3). intros x. lia.
  - intros m Hm Hg. destruct (Z.lt_ge_cases m c); [apply P4; [lia|done]|]. exfalso. apply (Hno m); [lia|done].
Qed.

Lemma pieces_add c c' rs x : pieces_below c rs → piece x → c <= x.1 → x.1 + x.2 = c' → (∀ m, c <= m < c' → given m → x.1 <= m) →
  pieces_below c' (rs ++ [x]).
Proof using.
  intros [P1 P2 P3 P4] Hx Hc He Hno. assert (Hx0 := Hx). destruct Hx0 as (_ & Hpos & _). split.
  - apply sorted_snoc; [done|]. apply (Forall_impl _ _ _ P3). intros y. lia.
  - apply Forall_app. split; [done|by constructor].
  - apply Forall_app. split; [|constructor; [lia|constructor]]. apply (Forall_impl _ _ _ P3). intros y. lia.
  - intros m Hm Hg. apply Exists_app. destruct (Z.lt_ge_cases m c); [left; apply P4; [lia|done]|right].
    constructor. specialize (Hno m ltac:(lia) Hg). lia.
Qed.

(** The ramdisk is added, or the table is full. *)
Lemma ramdisk_ok st c start size : e820_inv st c →
  add_ramdisk rd_image rd_size rd_end (with_range st start size) = Fault ∧ too_many_pieces ∨
  ∃ st', add_ramdisk rd_image rd_size rd_end (with_range st start size) = Ok st' ∧ e820_inv st' c ∧
    mmap_start st' = start ∧ mmap_size st' = size ∧ (merge_ramdisk st' = true → merge_ramdisk st = true ∧ start < rd_end).
Proof using Hrd.
  intros I. pose proof (entries_length _ _ I) as Hel. pose proof I as [I2 I3 I4 I5 I6 I7 I8 I9 (rs & Pb & Pe) I11].
  unfold add_ramdisk. cbn [mmap_start merge_ramdisk with_range].
  destruct (Z.leb_spec rd_end start) as [Hge|Hlt]; cbn [andb].
  2: { right. eexists. split; [reflexivity|]. split; [split; try done; by exists rs|]. by split_and!. }
  destruct (merge_ramdisk st) eqn:Em; cbn [negb] in Pe.
  2: { right. eexists. split; [reflexivity|]. split; [split; try done; exists rs; cbn [merge_ramdisk with_range]; by rewrite Em|].
       split; [done|]. split; [done|]. cbn [merge_ramdisk with_range]. by rewrite Em. }
  unfold is_u32 in Hrd. rewrite ceiling64_ok, bind_ok by (unfold is_u64; change LARGE_PG_SIZE with (2 ^ 21); lia).
  fold (disk_entry rd_image rd_size). cbn [table mmap_num with_range]. destruct (Z.eq_dec (mmap_num st) 128) as [E|Hne].
  - left. split; [by rewrite table_full by (done || lia)|]. exists rs. split; [apply pieces_nodup; apply Pb|]. split; [apply Pb|].
    apply entries_of_length in Pe. lia.
  - right. destruct (table_set_ok (table st) (mmap_num st) (disk_entry rd_image rd_size) I6 ltac:(lia)) as (t' & E & L & Ht).
    rewrite E, bind_ok. eexists. split; [reflexivity|]. cbn [mmap_start mmap_size e_phys mmap_num merge_ramdisk with_range].
    rewrite u8_id by (unfold is_u8; lia). split; [|by split_and!].
    split; cbn [mmap_start mmap_size e_phys mmap_num table merge_ramdisk e_log with_range]; try done; [lia| |].
    + exists rs. split; [done|]. unfold entries. cbn [mmap_num table negb]. rewrite Ht. by apply entries_of_disk.
    + unfold entries. cbn [mmap_num table e_log]. rewrite Ht, fmap_app, reverse_app, I11. done.
Qed.

(** Leaving the frames up to [c'] out. *)
Lemma skip_ok st st' c c' : e820_inv st c → c <= c' <= 64 * 262144 + 512 → (∀ m, c <= m < c' → ¬ given m) → between c' →
  (∀ m, in_front m → m + 1 < c') → e_phys st' = e_phys st → table st' = table st → mmap_num st' = mmap_num st →
  merge_ramdisk st' = merge_ramdisk st → e_log st' = e_log st → e820_inv st' c'.
Proof using.
  intros [I2 I3 I4 I5 I6 I7 I8 I9 (rs & Pb & Pe) I11] Hc Hno Hb Hfr Ep Et En Em El. unfold entries in *.
  split; unfold entries; rewrite ?Ep, ?Et, ?En, ?Em, ?El; try done; [lia| |by right|].
  - intros m Hm. rewrite I5 by done. split; intros [Hf Hor]; (split; [done|]); [|destruct Hor; [left; lia|by right]].
    destruct Hor as [Hcm|]; [|by right]. destruct (Z.le_gt_cases c' m); [by left|]. right. intros Hh. apply (Hno m); [lia|by right].
  - exists rs. split; [|done]. apply (pieces_skip c); [done|lia|done].
Qed.

(** Giving the piece [x] to the guest. *)
Lemma give_ok st c x : let c' := x.1 + x.2 in e820_inv st c → piece x → c <= x.1 → c' <= 64 * 262144 →
  (∀ m, c <= m < c' → given m → x.1 <= m) → between c' → (∀ m, in_front m → m + 1 < c') →
  add_range st (4096 * x.1) (4096 * x.2) = Fault ∧ too_many_pieces ∨
  ∃ st', add_range st (4096 * x.1) (4096 * x.2) = Ok st' ∧ e820_inv st' c' ∧ cursor st' c' ∧ merge_ramdisk st' = merge_ramdisk st.
Proof using Hlow.
  intros c' I Hx Hc Hmax Hno Hb Hfr. pose proof (entries_length _ _ I) as Hel.
  pose proof I as [I2 I3 I4 I5 I6 I7 I8 I9 (rs & Pb & Pe) I11]. assert (Hx0 := Hx). destruct Hx0 as (Ha & Hn & Hin & _).
  pose proof (pieces_add c c' rs x Pb Hx Hc eq_refl Hno) as Pb'. unfold add_range.
  destruct (Z.eq_dec (mmap_num st) 128) as [E|Hne].
  { left. split; [by rewrite table_full by (done || lia)|]. exists (rs ++ [x]). split; [apply pieces_nodup; apply Pb'|]. split; [apply Pb'|].
    apply entries_of_length in Pe. rewrite length_app. cbn. destruct (negb _); lia. }
  right. fold (range_entry x).
  destruct (table_set_ok (table st) (mmap_num st) (range_entry x) I6 ltac:(lia)) as (t' & -> & L' & Ht). rewrite bind_ok.
  destruct (physical_take_range_ok (e_phys st) (4096 * x.1) (4096 * x.2) I3) as (p' & -> & [U1 U2 U3 U4]); [lia|lia|lia|].
  rewrite bind_ok. eexists. split; [reflexivity|].
  replace (4096 * x.1 / 4096) with x.1 in U4 by dlia. replace ((4096 * x.1 + 4096 * x.2 + 4095) / 4096) with c' in U4 by dlia.
  split; [|split; [unfold cursor; cbn [mmap_start mmap_size]; lia|done]].
  split; cbn [mmap_start mmap_size e_phys mmap_num table merge_ramdisk e_log]; rewrite ?u8_id by (unfold is_u8; lia); try done.
  - lia.
  - by rewrite U3.
  - intros m Hm. rewrite U4 by done. unfold in_range. destruct (Z.leb_spec x.1 m), (Z.ltb_spec m c'); cbn [andb negb].
    + split; [discriminate|]. intros [Hf [|Hh]]; [lia|]. destruct (Hin m ltac:(lia)) as [Hlead|]; [|done].
      apply in_front_taken in Hlead. destruct Hlead. congruence.
    + rewrite I5 by done. split; intros [? _]; (split; [done|]); left; lia.
    + rewrite I5 by done. split; intros [? Hor]; (split; [done|]).
      * destruct (Z.lt_ge_cases m c); [destruct Hor; [lia|by right]|]. right. intros Hh.
        specialize (Hno m ltac:(lia) (or_intror Hh)). lia.
      * destruct Hor; [lia|by right].
    + lia.
  - lia.
  - by right.
  - exists (rs ++ [x]). split; [done|]. unfold entries. cbn [mmap_num table]. rewrite Ht. by apply entries_of_add.
  - unfold entries. cbn [mmap_num table e_log]. rewrite Ht, fmap_app, reverse_app, I11. done.
Qed.

(** A free range [s, s + k) that the scan finds from frame [c] on. *)
Record next_range (c s k : Z) : Prop := NextRange {
  nr_order : c <= s ∧ 0 < k;
  nr_before : none_free p0 c s;
  nr_free : all_free p0 s (s + k);
  nr_stop : page_free p0 (s + k) = false
}.

Section round.
Context (st : e820_state) (c s k : Z) (I : e820_inv st c) (R : next_range c s k).

Lemma range_low : 2 <= s.
Proof using I R Hlow.
  pose proof (nr_order _ _ _ R). pose proof (ei_range _ _ I). destruct (Z.lt_ge_cases s 2); [exfalso|done].
  pose proof (nr_free _ _ _ R s ltac:(lia)) as Hf. rewrite Hlow in Hf by lia. discriminate.
Qed.

Lemma range_start : ∃ s0, in_run s0 s ∧
  (s0 = s ∨ (s = c ∧ (512 | s) ∧ ke <= 4096 * s0 ∧ (¬ handed (s - 1) ∨ ¬ all_free p0 s (s + 512)))).
Proof using I R Hlow.
  pose proof range_low. destruct R as [R1 R2 R3 R4]. destruct (page_free p0 (s - 1)) eqn:E.
  - assert (s = c) as ->.
    { destruct (Z.eq_dec s c); [done|]. rewrite R2 in E by lia. discriminate. }
    destruct (ei_between _ _ I) as [H1|[H1|(Hd & Hh & s0 & Hs & Hk)]]; [congruence|rewrite R3 in H1 by lia; discriminate|].
    exists s0. split; [|by right]. apply (in_run_more s0 (c - 1)); [done| |lia].
    intros j Hj. assert (j = c - 1 ∨ j = c) as [->| ->] by lia; [done|]. apply R3. lia.
  - exists s. split; [|by left]. split; [lia|]. split; [done|]. intros j Hj. apply R3. lia.
Qed.

Lemma front_low m : in_front m → 4096 * (m + 1) < LINUX_ENTRY_POINT.
Proof using. intros (sf & _ & _ & _ & ? & ?). lia. Qed.

Lemma front_here m : in_front m → m < s ∧ (c <= m → c = 0 ∧ 4096 * s < LINUX_ENTRY_POINT ∧ s - 2 <= m).
Proof using I R.
  intros Hm. destruct (ei_front _ _ I) as [Hc|Hf]; [|pose proof (Hf m Hm); pose proof (nr_order _ _ _ R); lia].
  destruct Hm as (sf & H0 & Hn & Hfree & Hl & Hm). destruct R as [R1 R2 R3 R4].
  assert (sf = s) as ->; [|lia]. destruct (Z.lt_trichotomy sf s) as [H|[H|H]]; [|done|].
  - rewrite R2 in Hfree by lia. discriminate.
  - specialize (Hn s ltac:(lia)). rewrite R3 in Hn by lia. discriminate.
Qed.

Lemma front_below c' m : s < c' → in_front m → m + 1 < c'.
Proof using I R. intros Hc Hm. apply front_here in Hm. lia. Qed.

Lemma front_first m : c = 0 → 4096 * s < LINUX_ENTRY_POINT → s - 2 <= m < s → in_front m.
Proof using I R Hlow.
  intros Hc Hl Hm. pose proof range_low. exists s. destruct R as [R1 R2 R3 R4]. rewrite Hc in R2.
  split; [lia|]. split; [done|]. split; [apply R3; lia|]. done.
Qed.

Lemma before_kept m : c <= m < s → LINUX_ENTRY_POINT <= 4096 * s ∨ 0 < c → ¬ given m.
Proof using I R.
  intros Hm Hh [Hf|Hf].
  - apply front_here in Hf. lia.
  - apply handed_free in Hf. rewrite (nr_before _ _ _ R m Hm) in Hf. discriminate.
Qed.

Lemma stop_kept : ¬ given (s + k).
Proof using I R.
  pose proof (nr_order _ _ _ R). intros [Hf|Hf].
  - apply front_here in Hf. lia.
  - apply handed_free in Hf. rewrite (nr_stop _ _ _ R) in Hf. discriminate.
Qed.

(** A range that starts past the kernel: the piece is its large pages. *)
Section high.
Context (Hhigh : ke <= 4096 * s).
Let al := (s + 511) / 512 * 512.
Let q := (s + k - al) / 512.

Lemma al_bounds : s <= al < s + 512 ∧ (512 | al).
Proof using al. clear q. split; [subst al; dlia|]. by exists ((s + 511) / 512). Qed.

Lemma high_run : ∃ s0, in_run s0 s ∧ ke <= 4096 * s0 ∧ (s0 = s ∨ (512 | s)).
Proof using I R Hlow Hhigh.
  destruct range_start as (s0 & H0 & [->|(_ & Hd & Hk & _)]); [exists s|exists s0]; eauto.
Qed.

Lemma high_iff m : c <= m < s + k → given m ↔ al <= m < al + 512 * q.
Proof using I R Hlow Hhigh Hke.
  intros Hm. destruct high_run as (s0 & H0 & Hk0 & Hs). pose proof al_bounds. unfold LINUX_ENTRY_POINT in *.
  destruct (Z.lt_ge_cases m s) as [Hlt|Hge].
  { split; [|lia]. intros Hg. exfalso. apply (before_kept m); [lia|left; unfold LINUX_ENTRY_POINT; lia|done]. }
  pose proof (high_given s0 s k m H0 Hk0 Hs (nr_free _ _ _ R) (nr_stop _ _ _ R) ltac:(lia)) as E.
  cbv zeta in E. fold al in E. fold q in E. rewrite <- E.
  split; [|by right]. intros [Hf|]; [|done]. apply front_here in Hf. lia.
Qed.

Lemma high_skip m : c <= m < Z.max (s + k) al → q <= 0 → ¬ given m.
Proof using I R Hlow Hhigh Hke.
  intros Hm Hq Hg. destruct high_run as (s0 & H0 & Hk0 & _). pose proof al_bounds. destruct (Z.lt_ge_cases m (s + k)).
  - apply high_iff in Hg; lia.
  - destruct Hg as [Hf|Hf]; [apply front_here in Hf; pose proof (nr_order _ _ _ R); lia|].
    revert Hf. pose proof (nr_order _ _ _ R). apply (gap_kept s s0 k); [done|done|exact (nr_stop _ _ _ R)|lia|subst al; lia].
Qed.

Lemma run_between c' : s < c' → (512 | c') → page_free p0 (c' - 1) = true → page_free p0 c' = true →
  ¬ handed (c' - 1) ∨ ¬ all_free p0 c' (c' + 512) → between c'.
Proof using I R Hlow Hhigh Hke.
  intros Hc Hd Hf1 Hf2 Hor. pose proof range_low. destruct high_run as (s0 & H0 & Hk0 & _).
  right. right. split; [done|]. split; [done|]. destruct (run_of (c' - 1) ltac:(lia) Hf1) as [s1 H1]. exists s1. split; [done|].
  destruct (Z.lt_ge_cases s1 s) as [Hlt|]; [|lia].
  rewrite (in_run_unique s1 s0 s); [done| |done]. apply (in_run_le s1 (c' - 1)); [done|lia].
Qed.

Lemma skip_between : s + k <= al → between al.
Proof using I R Hlow Hhigh Hke.
  intros Hle. pose proof al_bounds as [Ha Hd]. pose proof (nr_order _ _ _ R).
  destruct (page_free p0 (al - 1)) eqn:E1; [|by left]. destruct (page_free p0 al) eqn:E2; [|by right; left].
  apply run_between; [lia|done|done|done|]. left. intros Hh. apply (high_skip (al - 1)); [lia| |by right]. subst q. dlia.
Qed.

Lemma take_between : 0 < q → between (al + 512 * q).
Proof using I R Hlow Hhigh Hke.
  intros Hq. pose proof al_bounds as [Ha [y Hy]]. assert (Hqb : 512 * q <= s + k - al < 512 * q + 512) by (subst q; dlia).
  destruct (page_free p0 (al + 512 * q)) eqn:E2; [|by right; left].
  apply run_between; [lia|exists (y + q); lia| |done|].
  - apply (nr_free _ _ _ R). lia.
  - right. intros Hf. pose proof (nr_stop _ _ _ R) as Hs. rewrite Hf in Hs by lia. discriminate.
Qed.

Lemma high_piece : 0 < q → piece (al, 512 * q).
Proof using I R Hlow Hhigh Hke.
  intros Hq. pose proof al_bounds as [Ha Hd]. pose proof range_low. pose proof (nr_order _ _ _ R).
  assert (Hqb : 512 * q <= s + k - al < 512 * q + 512) by (subst q; dlia).
  unfold piece. cbn [fst snd]. split; [lia|]. split; [lia|]. split; [intros m Hm; apply high_iff; lia|]. split.
  - intros Hg. destruct (Z.lt_ge_cases (al - 1) s) as [Hlt|]; [|apply high_iff in Hg; lia]. assert (al = s) as Hal by lia.
    destruct Hg as [Hf|Hh]; [apply front_low in Hf; unfold LINUX_ENTRY_POINT in *; lia|].
    destruct range_start as (s0 & Hr0 & [->|(_ & _ & _ & [Hno|Hno])]).
    + apply handed_free in Hh. destruct Hr0 as (_ & Hst & _). congruence.
    + by rewrite Hal in Hh.
    + apply Hno. intros j Hj. apply (nr_free _ _ _ R). lia.
  - intros Hg. destruct (Z.eq_dec (al + 512 * q) (s + k)) as [E|]; [rewrite E in Hg; by apply stop_kept|].
    apply high_iff in Hg; lia.
Qed.
End high.

(** A range that starts below the kernel goes as it is, the first one with the two frames in front. *)
Section low.
Context (Hl : 4096 * s < LINUX_ENTRY_POINT).

Lemma low_run : in_run s s.
Proof using I R Hlow Hl Hke.
  destruct range_start as (s0 & H0 & [->|(_ & _ & Hk & _)]); [done|]. destruct H0 as (? & _). unfold LINUX_ENTRY_POINT in *. lia.
Qed.

Lemma low_piece : piece (if c =? 0 then (s - 2, k + 2) else (s, k)).
Proof using I R Hlow Hl Hke.
  pose proof range_low. pose proof (nr_order _ _ _ R). pose proof low_run as (_ & Hst & _).
  assert (Hin : ∀ m, s <= m < s + k → given m).
  { intros m Hm. right. apply (low_given s k); [exact low_run|done|exact (nr_free _ _ _ R)|done]. }
  destruct (Z.eqb_spec c 0) as [Hc|Hc]; unfold piece; cbn [fst snd]; (split; [lia|split; [lia|split; [|split]]]).
  - intros m Hm. destruct (Z.lt_ge_cases m s); [|apply Hin; lia]. left. apply front_first; [done|done|lia].
  - intros [Hf|Hf]; [pose proof (in_front_taken _ Hf); apply front_here in Hf; lia|].
    assert (0 < s - 2 - 1) by (destruct Hf as (s1 & (? & _) & _); lia). apply handed_free in Hf. rewrite (nr_before _ _ _ R) in Hf by lia. discriminate.
  - replace (s - 2 + (k + 2)) with (s + k) by lia. exact stop_kept.
  - exact Hin.
  - intros [Hf|Hf].
    + destruct (ei_front _ _ I) as [|Hfr]; [lia|]. specialize (Hfr _ Hf). lia.
    + apply handed_free in Hf. congruence.
  - exact stop_kept.
Qed.

Lemma low_above m : c <= m < s + k → given m → (if c =? 0 then s - 2 else s) <= m.
Proof using I R.
  intros Hm Hg. destruct (Z.lt_ge_cases m s) as [Hlt|]; [|destruct (c =? 0); lia].
  destruct (Z.eqb_spec c 0) as [Hc|Hc].
  - destruct Hg as [Hf|Hf]; [apply front_here in Hf; lia|]. apply handed_free in Hf. rewrite (nr_before _ _ _ R) in Hf by lia. discriminate.
  - exfalso. apply (before_kept m); [lia|right; pose proof (ei_range _ _ I); lia|done].
Qed.
End low.
End round.

Lemma disk_after c s k : next_range c s k → disk_taken rd_end → 4096 * s < rd_end → 4096 * (s + k) < rd_end.
Proof using.
  intros R [_ Hd] Hs. destruct (Z.lt_ge_cases ((rd_end - 1) / 4096) (s + k)) as [Hlt|]; [|dlia].
  rewrite (nr_free _ _ _ R) in Hd by dlia. discriminate.
Qed.

(** What a round leads to. *)
Definition round_ends (c : Z) (st' : e820_state) : Prop := ∃ c', cursor st' c' ∧ e820_inv st' c' ∧ disk_pending st' c' ∧ c < c'.

Lemma give_round st c s k x : e820_inv st c → next_range c s k → piece x → c <= x.1 → s < x.1 + x.2 <= s + k → x.1 + x.2 <= 64 * 262144 →
  (∀ m, c <= m < x.1 + x.2 → given m → x.1 <= m) → between (x.1 + x.2) → (merge_ramdisk st = true → 4096 * s < rd_end) →
  wpx (add_range st (4096 * x.1) (4096 * x.2)) (round_ends c) no_panic too_many_pieces.
Proof using Hlow.
  intros I R Hx Hc He Hmax Hno Hb Hm.
  destruct (give_ok st c x I Hx Hc Hmax Hno Hb) as [[-> Hfull]|(st' & -> & I' & C' & Em)]; [|done|].
  - intros m. apply (front_below st c s k I R). lia.
  - exists (x.1 + x.2). split; [done|]. split; [done|]. split; [|destruct Hx; lia].
    intros Hmr Hd. left. rewrite Em in Hmr. pose proof (disk_after c s k R Hd (Hm Hmr)). lia.
Qed.

Lemma skip_round st st' c s k c' : e820_inv st c → next_range c s k → s < c' ∨ s = c' ∧ c < c' → c' <= 64 * 262144 + 512 →
  (∀ m, c <= m < c' → ¬ given m) → between c' → (∀ m, in_front m → m + 1 < c') → cursor st' c' →
  (merge_ramdisk st = true → 4096 * s < rd_end) → c' <= s + k ∨ mmap_start st' = 4096 * c' →
  e_phys st' = e_phys st → table st' = table st → mmap_num st' = mmap_num st → merge_ramdisk st' = merge_ramdisk st → e_log st' = e_log st →
  round_ends c st'.
Proof using.
  intros I R Hc Hmax Hno Hb Hf Cu Hm Hd Ep Et En Em El. pose proof (nr_order _ _ _ R). exists c'. split; [done|].
  split; [apply (skip_ok st st' c c'); (done || lia)|]. split; [|lia]. intros Hmr Hdt. rewrite Em in Hmr.
  pose proof (disk_after c s k R Hdt (Hm Hmr)). lia.
Qed.

Lemma place_ok st c s k sp : e820_inv st c → cursor st (s + k) → mmap_start st = 4096 * s → mmap_size st = 4096 * k →
  next_range c s k → s + k <= 64 * 262143 → (sp = 0 ↔ c = 0) → (merge_ramdisk st = true → 4096 * s < rd_end) →
  wpx (place_range ke sp (4096 * s) (4096 * k) st) (round_ends c) no_panic too_many_pieces.
Proof using Hlow Hke.
  intros I Hcur Hms Hmz R Hmax Hsp Hm. pose proof (nr_order _ _ _ R) as Ho. pose proof (range_low st c s k I R) as H2.
  assert (Hstop : between (s + k)) by (right; left; exact (nr_stop _ _ _ R)).
  assert (Hfr : ∀ c' m, s < c' → in_front m → m + 1 < c') by (intros c' m; apply (front_below st c s k I R)).
  unfold place_range. destruct (Z.leb_spec ke (4096 * s)) as [Hhigh|Hlo].
  - pose proof (al_bounds s) as [Hal _]. pose proof (high_skip st c s k I R Hhigh) as Hskip. pose proof (high_iff st c s k I R Hhigh) as Hiff.
    pose proof (skip_between st c s k I R Hhigh) as Hb1. pose proof (take_between st c s k I R Hhigh) as Hb2.
    pose proof (high_piece st c s k I R Hhigh) as Hx.
    rewrite ceiling64_ok, bind_ok by (unfold is_u64; change LARGE_PG_SIZE with (2 ^ 21); lia).
    replace ((4096 * s + LARGE_PG_SIZE - 1) / LARGE_PG_SIZE * LARGE_PG_SIZE) with (4096 * ((s + 511) / 512 * 512))
      by (change LARGE_PG_SIZE with 2097152; dlia).
    set (al := (s + 511) / 512 * 512) in *. set (q := (s + k - al) / 512) in *.
    rewrite (u64_id (4096 * al - 4096 * s)) by (unfold is_u64; lia).
    destruct (Z.leb_spec (4096 * k) (4096 * al - 4096 * s)) as [Hsmall|Hbig].
    + apply (skip_round st _ c s k al); try done; try lia.
      * intros m Hmm. apply Hskip; [lia|subst q; dlia].
      * apply Hb1. lia.
      * intros m. apply Hfr. lia.
      * unfold cursor. cbn. lia.
      * by right.
    + rewrite (u64_id (4096 * k - (4096 * al - 4096 * s))) by (unfold is_u64; lia).
      change LARGE_PG_MASK with (2 ^ 64 - 2 ^ 21). rewrite land_high_ones by (unfold is_u64; lia).
      change LARGE_PG_SIZE with (2 ^ 21).
      replace ((4096 * k - (4096 * al - 4096 * s)) / 2 ^ 21) with q by (subst q; clearbody al; dlia).
      assert (Hq : 0 <= q ∧ 512 * q <= s + k - al < 512 * q + 512) by (subst q; clearbody al; dlia).
      destruct (Z.ltb_spec (2 ^ 21 * q) (2 ^ 21)) as [Hless|Hmore].
      * apply (skip_round st _ c s k (s + k)); try done; try lia.
        -- intros m Hmm. apply Hskip; lia.
        -- intros m. apply Hfr. lia.
        -- unfold cursor. cbn. lia.
      * replace (2 ^ 21 * q) with (4096 * (512 * q)) by lia.
        apply (give_round st c s k (al, 512 * q)); cbn [fst snd]; try done; try lia; [apply Hx; lia| |apply Hb2; lia].
        intros m Hmm Hg. apply Hiff in Hg; lia.
  - destruct (Z.leb_spec LINUX_ENTRY_POINT (4096 * s)) as [Hk|Hk]; cbn [andb].
    + destruct (Z.ltb_spec (4096 * s) ke); [|lia]. cbn [andb].
      apply (skip_round st _ c s k (s + k)); try done; try lia.
      * intros m Hmm. destruct (Z.lt_ge_cases m s); [apply (before_kept st c s k I R); lia|].
        destruct (range_start st c s k I R) as (s0 & Hr0 & [->|(_ & _ & Hk' & _)]); [|destruct Hr0; lia].
        intros [Hf|Hf]; [apply (front_here st c s k I R) in Hf; lia|].
        revert Hf. apply (kernel_kept s k); [done|done|done|exact (nr_free _ _ _ R)|lia].
      * intros m. apply Hfr. lia.
    + pose proof (low_piece st c s k I R Hk) as Hx. pose proof (low_above st c s k I R) as Hab. pose proof (ei_range _ _ I).
      destruct (Z.eqb_spec c 0) as [Hc|Hc].
      * destruct (Z.eqb_spec sp 0) as [Hz|Hnz]; [|tauto].
        change (Z.shiftl 2 PG_BITS) with (4096 * 2). rewrite !u64_id by (unfold is_u64; lia).
        replace (4096 * s - 4096 * 2) with (4096 * (s - 2)) by lia.
        replace (4096 * k + 4096 * 2) with (4096 * (k + 2)) by lia.
        apply (give_round st c s k (s - 2, k + 2)); cbn [fst snd]; try done; try lia.
        -- intros m Hmm. apply Hab. lia.
        -- by replace (s - 2 + (k + 2)) with (s + k) by lia.
      * destruct (Z.eqb_spec sp 0) as [Hz|Hnz]; [tauto|].
        apply (give_round st c s k (s, k)); cbn [fst snd]; try done; try lia.
Qed.

(** When the scan finds nothing more. *)
Record map_done (st : e820_state) : Prop := MapDone {
  md_map : guest_map rd_image rd_size rd_end (entries st);
  md_left : left_over (e_phys st);
  md_num : 0 <= mmap_num st <= 128;
  md_len : length (table st) = 128%nat;
  md_wf : phys_wf (e_phys st);
  md_end : entry_end (e_phys st) = entry_end p0;
  md_log : e_log st = reverse (printed <$> entries st) ++ log0
}.

Lemma none_above st c m : e820_inv st c → (∀ m, c <= m → page_free (e_phys st) m = false) → c <= m → ¬ given m.
Proof using.
  intros I Hno Hm. pose proof (ei_range _ _ I).
  assert (Hfree : ∀ j, c <= j → page_free p0 j = false).
  { intros j Hj. destruct (page_free p0 j) eqn:E; [|done]. assert (page_free (e_phys st) j = true) as Hf; [|rewrite Hno in Hf by done; discriminate].
    apply (ei_free _ _ I); [lia|]. split; [done|by left]. }
  intros [Hf|Hf].
  - destruct (ei_front _ _ I) as [->|Hfr]; [|specialize (Hfr m Hf); lia].
    destruct Hf as (s & Hs & _ & Hfs & _). rewrite Hfree in Hfs by lia. discriminate.
  - apply handed_free in Hf. rewrite Hfree in Hf by done. discriminate.
Qed.

Lemma all_past st c : e820_inv st c → (∀ m, c <= m → page_free (e_phys st) m = false) →
  (disk_taken rd_end → merge_ramdisk st = false) → map_done st.
Proof using.
  intros I Hno Hd. pose proof (none_above st c) as Ha. pose proof (ei_map _ _ I) as (rs & Pb & Pe).
  split; [| |apply I|apply I|apply I|apply I|apply I].
  - exists rs, (negb (merge_ramdisk st)). split; [|split; [done|by intros Hdt; rewrite Hd]].
    split; [apply Pb|]. split; [apply Pb|]. intros m Hm Hg. apply (pb_all _ _ Pb); [|done].
    destruct (Z.lt_ge_cases m c); [lia|]. exfalso. by apply (Ha m I).
  - intros m Hm. rewrite (ei_free _ _ I m Hm). split; intros [Hf Hor]; (split; [done|]); [|by right].
    destruct Hor as [Hc|]; [|done]. intros Hh. apply (Ha m I Hno Hc). by right.
Qed.

Lemma tail_kept st c : e820_inv st c → tail_taken (e_phys st).
Proof using Htail Hp0.
  intros I m Hm. destruct (page_free (e_phys st) m) eqn:E; [|done]. rewrite (ei_end _ _ I) in Hm.
  pose proof (end_bounds _ Hp0). apply (ei_free _ _ I) in E as [E _]; [|lia]. by rewrite (Htail m Hm) in E.
Qed.

Lemma free_above st c m : e820_inv st c → 0 <= m → c <= m → page_free (e_phys st) m = page_free p0 m.
Proof using.
  intros I H0 Hm. pose proof (ei_free _ _ I m H0) as [H1 H2]. destruct (page_free (e_phys st) m), (page_free p0 m); try done.
  - by destruct H1.
  - discriminate H2. split; [done|by left].
Qed.

Lemma e820_round st c : e820_inv st c → cursor st c → disk_pending st c →
  wpx (e820_step rd_image rd_size rd_end ke st) (fun x => match x with inl st' => round_ends c st' | inr st' => map_done st' end)
    no_panic too_many_pieces.
Proof using Hp0 Htail Hend Hlow Hke Hrd.
  intros I (C1 & C2 & C3) Hdp. pose proof (ei_range _ _ I) as Hc. unfold e820_step.
  rewrite C3, u64_id by (unfold is_u64; lia). apply wpx_bind.
  eapply wpx_mono; [apply wp_wpx, physical_next_free_range_ok;
    [apply I|by apply (tail_kept st c)|by rewrite (ei_end _ _ I)|unfold is_u64; lia]| |done|done].
  intros [start size] Hr. replace (4096 * c / 4096) with c in Hr by dlia. rewrite (ei_end _ _ I) in Hr.
  destruct (ramdisk_ok st c start size I) as [[-> Hfull]|(st1 & -> & I1 & S1 & S2 & S3)]; [exact Hfull|].
  rewrite bind_ok. destruct Hr as [(s & k & -> & -> & Hk & Hcs & Hb & Hf & Hstop)|(-> & Hno & Hst)].
  - destruct (Z.eqb_spec (4096 * k) 0); [lia|].
    assert (R : next_range c s k).
    { split; [lia|intros m Hm; rewrite <- (free_above st c) by (done || lia); by apply Hb
             |intros m Hm; rewrite <- (free_above st c) by (done || lia); by apply Hf|by rewrite <- (free_above st c) by (done || lia)]. }
    assert (Hmax : s + k <= 64 * 262143).
    { pose proof (nr_free _ _ _ R (s + k - 1) ltac:(lia)) as Hlast.
      destruct (Z.le_gt_cases (64 * entry_end p0) (s + k - 1)) as [Hge|]; [|lia]. by rewrite (Htail _ Hge) in Hlast. }
    apply wpx_bind. eapply wpx_mono; [apply (place_ok st1 c s k (4096 * c) I1); [unfold cursor; lia|done|done|done|done|lia|intros Hmr; by apply S3]| |done|done].
    intros st' H. exact H.
  - simpl. apply (all_past st1 c I1).
    + intros m Hm. pose proof (free_above st c m I ltac:(lia) Hm) as E. rewrite (Hno m Hm) in E.
      by rewrite (free_above st1 c) by (done || lia).
    + intros Hd. destruct (merge_ramdisk st1) eqn:Em; [exfalso|done]. specialize (S3 eq_refl). assert (Hd0 := Hd). destruct Hd0 as [Hd1 _].
      destruct S3 as [Em0 S3]. destruct Hst as [[-> Hc']|]; [|lia]. destruct (Hdp Em0 Hd); lia.
Qed.

Definition e820_start (t : list e820_entry) : e820_state := E820State 0 0 0 true t p0 log0.

Lemma e820_start_inv t : length t = 128%nat → e820_inv (e820_start t) 0.
Proof using Hp0 Hlow.
  intros Ht. split; cbn; try done.
  - intros m Hm. split; [intros Hf; split; [done|by left]|by intros [? _]].
  - right. left. apply Hlow. lia.
  - by left.
  - exists []. split; [|done]. split; [constructor|constructor|constructor|]. intros m Hm. lia.
Qed.

Lemma e820_loop_ok t : length t = 128%nat →
  wpx (while (e820_step rd_image rd_size rd_end ke) (e820_start t)) map_done no_panic too_many_pieces.
Proof using Hp0 Htail Hend Hlow Hke Hrd.
  intros Ht.
  apply (wpx_while _ (fun st => ∃ c, cursor st c ∧ e820_inv st c ∧ disk_pending st c)
    (fun st => 64 * 262144 + 512 - (mmap_start st + mmap_size st) / 4096)).
  - intros st (c & C & I & D). pose proof (e820_round st c I C D) as H.
    destruct (e820_step rd_image rd_size rd_end ke st) as [[st'|st']| | |] eqn:E; simpl in *; try done.
    destruct H as (c' & C' & I' & D' & Hlt). split; [by exists c'|].
    destruct C as (_ & _ & ->), C' as (_ & _ & ->). pose proof (ei_range _ _ I'). dlia.
  - exists 0. split; [by unfold cursor|]. split; [by apply e820_start_inv|]. intros _ [_ _]. cbn [mmap_start e820_start].
    destruct (Z.lt_ge_cases 0 rd_end); lia.
  - split; vm_compute; congruence.
Qed.
End map.

(** The whole function. *)
Lemma virt_setup_e820_ok p rd_image rd_size kernel_size t log :
  phys_wf p → tail_taken p → entry_end p < 262144 → none_free p 0 2 →
  0 <= kernel_size < 2 ^ 47 → is_u32 rd_size → length t = 128%nat →
  let ke := LINUX_ENTRY_POINT + kernel_size in
  wpx (virt_setup_e820 rd_image rd_size kernel_size t p log)
    (map_done p ke rd_image rd_size (u32 (rd_image + rd_size)) log) no_panic (too_many_pieces p ke).
Proof.
  intros Hp Htail Hend Hlow Hk Hrd Ht ke. unfold virt_setup_e820.
  assert (Hke : 0x100000 <= ke < 2 ^ 48) by (subst ke; unfold LINUX_ENTRY_POINT; lia).
  assert (Eke : LINUX_ENTRY_POINT +w kernel_size = ke) by (apply u64_id; fold ke; unfold is_u64; lia).
  rewrite Eke. exact (e820_loop_ok p ke Hp Htail Hend Hlow Hke rd_image rd_size (u32 (rd_image + rd_size)) Hrd log t Ht).
Qed.

(** C9: [virt_setup_e820] always terminates, and makes the map of the memory
    it gives away. When it returns, the entries in use are exactly the
    maximal pieces of the frames [given], each once and in the order of their
    addresses, with the entry of the ramdisk among them (it is there whenever the
    ramdisk lies in memory that is taken); the frames it withdraws from the page
    allocator are exactly the frames [handed], so the guest and the hypervisor share
    none, and it has printed exactly the entries. [given] and [handed] are stated
    on the allocator's table before the call: every free run that starts below the kernel,
    the large pages of every free run that starts past the end of the kernel's memory,
    nothing of a run that starts in the kernel's memory (its large pages past the kernel stay with the
    hypervisor), and, in the map only, the two frames in front of the first free
    frame. It leaves the table only when there are 128 such pieces or more. *)
Theorem virt_setup_e820_spec p rd_image rd_size kernel_size t log :
  phys_wf p → tail_taken p → entry_end p < 262144 → none_free p 0 2 →
  0 <= kernel_size < 2 ^ 47 → is_u32 rd_size → length t = 128%nat →
  let ke := LINUX_ENTRY_POINT + kernel_size in
  (∃ st, virt_setup_e820 rd_image rd_size kernel_size t p log = Ok st ∧
     guest_map p ke rd_image rd_size (u32 (rd_image + rd_size)) (take (Z.to_nat (mmap_num st)) (table st)) ∧
     left_over p ke (e_phys st) ∧
     e_log st = reverse (printed <$> take (Z.to_nat (mmap_num st)) (table st)) ++ log) ∨
  (virt_setup_e820 rd_image rd_size kernel_size t p log = Fault ∧ too_many_pieces p ke).
Proof.
  intros Hp Htail Hend Hlow Hk Hrd Ht ke.
  pose proof (virt_setup_e820_ok p rd_image rd_size kernel_size t log Hp Htail Hend Hlow Hk Hrd Ht) as H. cbv zeta in H.
  destruct (virt_setup_e820 _ _ _ _ _ _) as [st| | |]; simpl in H; try done.
  - left. exists st. split; [done|]. destruct H as [H1 H2 _ _ _ _ H3]. done.
  - by right.
Qed.

(** A machine with low memory, the ramdisk at 5 MB and free memory from
    5.75 MB to 8.25 MB. *)
Definition guest_phys : phys :=
  Phys (U64Array MM_TABLE_MAX
    {[ 0 := 2 ^ 64 - 4; 23 := UINT64_MAX; 24 := UINT64_MAX; 25 := UINT64_MAX; 26 := UINT64_MAX; 27 := UINT64_MAX;
       28 := UINT64_MAX; 29 := UINT64_MAX; 30 := UINT64_MAX; 31 := UINT64_MAX; 32 := UINT64_MAX ]}) 2112 33 SPINLOCK_UNLOCKED.

Definition blank_table : list e820_entry := replicate 128 (E820Entry 0 0 0).

Lemma guest_phys_wf : phys_wf guest_phys.
Proof. split; [by apply arr_wfb_sound|done|apply lock_free_unlocked|simpl; lia|done]. Qed.

Lemma guest_phys_tail : tail_taken guest_phys.
Proof.
  intros m Hm. change (64 * entry_end guest_phys) with 2112 in Hm. unfold page_free, bm_test.
  assert (arr_word (mm_table guest_phys) (m / 64) = 0) as ->; [|apply Z.testbit_0_l].
  unfold arr_word, guest_phys. cbn [mm_table arr_words].
  rewrite !lookup_insert_ne, lookup_singleton_ne by dlia. done.
Qed.

Lemma guest_phys_low : none_free guest_phys 0 2.
Proof. intros m Hm. assert (m = 0 ∨ m = 1) as [->| ->] by lia; reflexivity. Qed.

Lemma guest_phys_large : all_free guest_phys 1536 (1536 + 512).
Proof.
  intros m Hm. unfold page_free, bm_test.
  assert (Hw : arr_word (mm_table guest_phys) (m / 64) = UINT64_MAX).
  { assert (Hd : 24 <= m / 64 < 32) by dlia. revert Hd. generalize (m / 64). intros w Hw.
    assert (w = 24 ∨ w = 25 ∨ w = 26 ∨ w = 27 ∨ w = 28 ∨ w = 29 ∨ w = 30 ∨ w = 31) as H by lia.
    repeat (destruct H as [->|H]; [reflexivity|]). by subst. }
  rewrite Hw, testbit_UINT64_MAX by dlia. apply Z.ltb_lt. dlia.
Qed.

(** A large page past the kernel that the map leaves out: the kernel's memory
    ends inside the free run that it lies in. *)
Lemma large_page_left_out : all_free guest_phys 1536 (1536 + 512) ∧ LINUX_ENTRY_POINT + 0x4D0000 <= 4096 * 1536 ∧
  ∃ st, virt_setup_e820 0x500000 0x3000 0x4D0000 blank_table guest_phys [] = Ok st ∧ page_free (e_phys st) 1536 = true.
Proof.
  split; [exact guest_phys_large|]. split; [vm_compute; congruence|].
  apply (ok_value _ (fun st => page_free (e_phys st) 1536)). vm_compute. reflexivity.
Qed.

Lemma virt_setup_e820_spec_witness :
  ∃ st, virt_setup_e820 0x500000 0x3000 0x400000 blank_table guest_phys [] = Ok st ∧
    (mmap_num st = 3 ∧ page_free (e_phys st) 1536 = false ∧
     take 3 (table st) = [E820Entry 0 0x40000 E820_RAM; E820Entry 0x500000 0x200000 E820_RAM; E820Entry 0x600000 0x200000 E820_RAM]) ∧
    guest_map guest_phys 0x500000 0x500000 0x3000 0x503000 (take 3 (table st)).
Proof.
  assert (Hnum : ∃ st, virt_setup_e820 0x500000 0x3000 0x400000 blank_table guest_phys [] = Ok st ∧
    ((mmap_num st =? 3) && negb (page_free (e_phys st) 1536) && bool_decide
      ((fun e => (e_addr e, e_size e, e_type e)) <$> take 3 (table st) =
       [(0, 0x40000, 1); (0x500000, 0x200000, 1); (0x600000, 0x200000, 1)])) = true).
  { apply (ok_value _ (fun st => (mmap_num st =? 3) && negb (page_free (e_phys st) 1536) && bool_decide
      ((fun e => (e_addr e, e_size e, e_type e)) <$> take 3 (table st) =
       [(0, 0x40000, 1); (0x500000, 0x200000, 1); (0x600000, 0x200000, 1)]))). vm_compute. reflexivity. }
  destruct Hnum as (st & E & Hn). apply andb_true_iff in Hn as [Hn Ht]. apply andb_true_iff in Hn as [Hn Hf].
  apply Z.eqb_eq in Hn. apply negb_true_iff in Hf. apply bool_decide_eq_true in Ht. exists st. split; [exact E|]. split.
  { split; [exact Hn|]. split; [exact Hf|].
    destruct (table st) as [|[] [|[] [|[] ?]]]; cbn in Ht; try discriminate Ht. cbn. injection Ht as -> -> -> -> -> -> -> -> ->. reflexivity. }
  destruct (virt_setup_e820_spec guest_phys 0x500000 0x3000 0x400000 blank_table [] guest_phys_wf guest_phys_tail
    eq_refl guest_phys_low ltac:(lia) ltac:(unfold is_u32; lia) eq_refl) as [(st' & E' & Hall & _)|[E' _]].
  - rewrite E in E'. injection E' as ->. rewrite Hn in Hall. exact Hall.
  - rewrite E in E'. discriminate E'.
Defined.
