(* ===== verification/Ept.v ===== *)
(** * The extended page tables of a guest

    Models the part of [virt_pg_table_setup] of [arch/x86_64/virt/mem.c] that
    builds the tables which map the addresses of the guest: the two upper tables
    ([ept_roots]) and the loops that fill the lower ones ([ept_fill]). The
    tables are frames that the hypervisor maps into its window, writes and
    unmaps, so every store goes through the page tables of Paging.v. *)

From S2P Require Import Prelude Layout Bits Spinlock Physical Mmu Paging PagingSpec Kernel Virt.

Local Open Scope Z_scope.
Local Open Scope c_scope.

Definition EPT_RD : Z := 0x1.
Definition EPT_WR : Z := 0x2.
Definition EPT_EX : Z := 0x4.
Definition EPT_TP (x : Z) : Z := Z.shiftl x 3.
Definition EPT_PG : Z := 0x80.
Definition EPT_TYPE_UC : Z := 0.
Definition EPT_TYPE_WB : Z := 6.

Section ept.
Context `{HM : Mmu} {A : Type} `{HA : FrameAllocator A}.
Implicit Types s : vm A.

(** [x = alloc_phys_frame(); if (x == 0) panic(msg)] *)
Definition alloc_or s (msg : string) : outcome (Z * vm A) :=
  '(frame, fr) ← alloc_frame (vm_frames s);
  if frame =? 0 then Panic msg else Ok (frame, with_frames s fr).

(** [x = vm_map_page(frame, PGT_P | PGT_RW); if (x == NULL) panic(msg)] *)
Definition map_or s (frame : Z) (msg : string) : outcome (Z * vm A) :=
  '(va, s) ← vm_map_page s frame (PGT_P .| PGT_RW);
  if va =? 0 then Panic msg else Ok (va, s).

(** [memset(va, 0, PG_SIZE)], word by word. *)
Definition zero_page_step (va : Z) (st : Z * vm A) : outcome ((Z * vm A) + vm A) :=
  let '(i, s) := st in
  if i <? PG_TABLE_ENTRIES then s ← vst s (slot va i) 0; Ok (inl (i + 1, s)) else Ok (inr s).
Definition zero_page s (va : Z) : outcome (vm A) := while (zero_page_step va) (0, s).

(** The tables above the page directories: the results are the base of the
    tables and the addresses at which both are mapped. *)
Definition ept_roots s : outcome (Z * Z * Z * vm A) :=
  '(pml4t_phy, s) ← alloc_or s "Failed to allocate a PML4T frame";
  '(pml4t_virt, s) ← map_or s pml4t_phy "Failed to map PML4T";
  '(pdpt_phy, s) ← alloc_or s "Failed to allocate a PDPT frame";
  '(pdpt_virt, s) ← map_or s pdpt_phy "Failed to map PDPT";
  s ← zero_page s pml4t_virt;
  s ← zero_page s pdpt_virt;
  s ← vst s (slot pml4t_virt 0) (pdpt_phy .| EPT_RD .| EPT_WR .| EPT_EX);
  Ok (pml4t_phy, pml4t_virt, pdpt_virt, s).

(** A store of 16 bits in the word that holds them. *)
Definition vst16 s (va x : Z) : outcome (vm A) :=
  match translate (vm_mem s) (vm_cr3 s) va with
  | Some pa =>
      let w := pa - pa mod 8 in
      let sh := 8 * (pa mod 8) in
      let old := ldw (vm_mem s) w in
      Ok (with_mem s (<[w := (old .& ~w (Z.shiftl 0xFFFF sh)) .| Z.shiftl x sh]> (vm_mem s)))
  | None => Fault
  end.

(** The program at 1 MB of the guest that prints OK. *)
Definition TEST_CODE : list Z := [0x05c7; 0x8000; 0x000b; 0x2f4f; 0x2f4b; 0xf4f4].
Fixpoint vst16s s (va : Z) (l : list Z) : outcome (vm A) :=
  match l with
  | [] => Ok s
  | x :: l => s ← vst16 s va x; vst16s s (va +w 2) l
  end.
Definition write_test s (frame : Z) : outcome (vm A) :=
  '(test_addr, s) ← vm_map_page s frame (PGT_P .| PGT_RW);
  s ← vst16s s test_addr TEST_CODE;
  '(_, s) ← vm_unmap_page s test_addr;
  Ok s.

(** The entries of the first 2 MB. *)
Definition low_entry (k frame_offset : Z) : Z :=
  if k =? 0xB8 then frame_offset .| EPT_RD .| EPT_WR .| EPT_TP EPT_TYPE_UC
  else if k <? PG_TABLE_ENTRIES / 2 then frame_offset .| EPT_RD .| EPT_WR .| EPT_EX .| EPT_TP EPT_TYPE_WB
  else (frame_offset +w 0x100000000) .| EPT_RD .| EPT_WR .| EPT_EX .| EPT_TP EPT_TYPE_WB.

Definition pt_step (pt_virt : Z) (st : Z * Z * vm A) : outcome ((Z * Z * vm A) + vm A) :=
  let '(k, frame_offset, s) := st in
  if k <? PG_TABLE_ENTRIES then
    let frame_offset := frame_offset +w PG_SIZE in
    s ← vst s (slot pt_virt k) (low_entry k frame_offset);
    s ← (if k =? PG_TABLE_ENTRIES / 2 then write_test s (frame_offset +w 0x100000000) else Ok s);
    Ok (inl (u16 (k + 1), frame_offset, s))
  else Ok (inr s).

Definition map_low s (pdt_virt j frame_offset : Z) : outcome (vm A) :=
  '(pt_frame, s) ← alloc_or s "Failed to allocate a PT frame";
  s ← vst s (slot pdt_virt j) (pt_frame .| EPT_RD .| EPT_WR .| EPT_EX);
  '(pt_virt, s) ← map_or s pt_frame "Failed to map PT";
  s ← while (pt_step pt_virt) (0, frame_offset -w PG_SIZE, s);
  '(_, s) ← vm_unmap_page s pt_virt;
  Ok s.

(** The flags of an entry for 2 MB. *)
Definition large_entry (frame : Z) : Z := frame .| EPT_RD .| EPT_WR .| EPT_EX .| EPT_PG .| EPT_TP EPT_TYPE_WB.

(** [for (j = 0; j < PG_TABLE_ENTRIES; j++)]: [kernel_end] and [ramdisk_end] are
    the sums of the sizes and the addresses in the conditions. *)
Definition pdt_step (kernel_end ramdisk_end i bound pdt_virt : Z) (st : Z * Z * Z * Z * vm A) :
    outcome ((Z * Z * Z * Z * vm A) + (Z * Z * Z * vm A)) :=
  let '(j, count, kernel_phy, ramdisk_phy, s) := st in
  if j <? PG_TABLE_ENTRIES then
    let frame_offset := (PG_SIZE *w PG_TABLE_ENTRIES *w PG_TABLE_ENTRIES *w i) +w (PG_SIZE *w PG_TABLE_ENTRIES *w j) in
    '(kernel_phy, ramdisk_phy, s) ← (
      if (i =? 0) && (j =? 0) then
        s ← map_low s pdt_virt j frame_offset; Ok (kernel_phy, ramdisk_phy, s)
      else if kernel_phy <? kernel_end then
        s ← vst s (slot pdt_virt j) (large_entry kernel_phy); Ok (kernel_phy +w LARGE_PG_SIZE, ramdisk_phy, s)
      else if ramdisk_phy <? ramdisk_end then
        s ← vst s (slot pdt_virt j) (large_entry ramdisk_phy); Ok (kernel_phy, ramdisk_phy +w LARGE_PG_SIZE, s)
      else
        s ← vst s (slot pdt_virt j) (large_entry (frame_offset +w 0x100000000)); Ok (kernel_phy, ramdisk_phy, s));
    let count := u32 (count + PG_TABLE_ENTRIES) in
    if bound <=? count then Ok (inr (count, kernel_phy, ramdisk_phy, s))
    else Ok (inl (u32 (j + 1), count, kernel_phy, ramdisk_phy, s))
  else Ok (inr (count, kernel_phy, ramdisk_phy, s)).

Definition pdpt_step (kernel_end ramdisk_end pdpt_entries bound pdpt_virt : Z) (st : Z * Z * Z * Z * vm A) :
    outcome ((Z * Z * Z * Z * vm A) + vm A) :=
  let '(i, count, kernel_phy, ramdisk_phy, s) := st in
  if i <? pdpt_entries then
    '(frame, s) ← alloc_or s "Failed to allocate a PDT frame";
    s ← vst s (slot pdpt_virt i) (frame .| EPT_RD .| EPT_WR .| EPT_EX);
    '(pdt_virt, s) ← map_or s frame "Failed to map PDT";
    '(count, kernel_phy, ramdisk_phy, s) ←
      while (pdt_step kernel_end ramdisk_end i bound pdt_virt) (0, count, kernel_phy, ramdisk_phy, s);
    '(_, s) ← vm_unmap_page s pdt_virt;
    Ok (inl (u32 (i + 1), count, kernel_phy, ramdisk_phy, s))
  else Ok (inr s).

(** The loops; [kernel_phy] and [ramdisk_phy] are computed before the image is
    moved, the ends after. *)
Definition ept_fill (g : vm_struct) (kernel_phy ramdisk_phy pdpt_virt : Z) s : outcome (vm A) :=
  let pdt_entries := vm_ram_size g >>w 1 in
  let pdpt_entries := u32 ((pdt_entries +w (PG_TABLE_ENTRIES -w 1)) >>w PG_TABLE_BITS) in
  let bound := u32 (pdt_entries *w PG_TABLE_ENTRIES) in
  while (pdpt_step (img_size g +w img_paddr g) (extra_size g +w extra_paddr g) pdpt_entries bound pdpt_virt)
    (0, 0, kernel_phy, ramdisk_phy, s).
End ept.

(** ** Frames mapped in the kernel window *)

Section frames.
Context `{HM : Mmu} {A : Type} `{HA : FrameAllocator A} (f3 f2 f1 cr3 : Z).
Implicit Types s : vm A.

(** [F] is a frame that is none of the page tables of the kernel window. *)
Definition data (F : Z) : Prop := aligned F ∧ 0 <= F < 2 ^ 52 ∧ F ∉ [cr3; f3; f2; f1].

Definition taken_frame s (F : Z) : Prop := 0 <= F ∧ avail (vm_frames s) (F / 4096) = false.

(** The window is in place and the allocator sound, and the tables are taken. *)
Record good s : Prop := Good {
  go_kernel : kernel_pt s f3 f2 f1;
  go_cr3 : vm_cr3 s = cr3;
  go_wf : alloc_wf (vm_frames s);
  go_tables F : F ∈ [cr3; f3; f2; f1] → taken_frame s F
}.

(** Slot [i] of the window shows frame [F]. *)
Definition shows s (i F : Z) : Prop :=
  0 <= i < 512 ∧ present (entry (vm_mem s) f1 i) = true ∧ frame_of (entry (vm_mem s) f1 i) = F.
Definition slot_va (i : Z) : Z := KERNEL_MAPPING_BASE + 4096 * i.

(** [n] slots at least are free. *)
Definition room s (n : nat) : Prop :=
  ∃ l, NoDup l ∧ (n <= length l)%nat ∧ ∀ i, i ∈ l → 0 <= i < 512 ∧ slot_free (vm_mem s) f1 i.

Lemma room_less s n m : (m <= n)%nat → room s n → room s m.
Proof.
  intros Hm (l & Hnd & Hlen & Hsl). exists (take m l). split; [by apply (sublist_NoDup _ l), sublist_take|]. split; [rewrite length_take; lia|].
  intros i Hi. apply Hsl. apply elem_of_take in Hi as (j & Hj & _). by eapply list_elem_of_lookup_2.
Qed.

(** What a computation keeps that writes the frames [T]. *)
Record keeps (T : Z → Prop) s s' : Prop := Keeps {
  ke_good : good s';
  ke_avail n : 0 <= n → avail (vm_frames s') n = true → avail (vm_frames s) n = true;
  ke_free k : 0 <= k < 512 → slot_free (vm_mem s) f1 k → slot_free (vm_mem s') f1 k;
  ke_shown k : 0 <= k < 512 → present (entry (vm_mem s) f1 k) = true → entry (vm_mem s') f1 k = entry (vm_mem s) f1 k;
  ke_words G k : aligned G → 0 <= k < 512 → G ≠ f1 → ¬ T G → entry (vm_mem s') G k = entry (vm_mem s) G k;
  ke_bound : frame_bound (vm_frames s') = frame_bound (vm_frames s)
}.

Lemma keeps_refl T s : good s → keeps T s s.
Proof. by split. Qed.

Lemma keeps_trans T s1 s2 s3 : keeps T s1 s2 → keeps T s2 s3 → keeps T s1 s3.
Proof.
  intros [G1 A1 F1 M1 W1 B1] [G2 A2 F2 M2 W2 B2]. split; auto.
  - intros k Hk Hp. rewrite M2, M1; auto. by rewrite M1.
  - intros G k HG Hk Hne HT. by rewrite W2, W1.
  - by rewrite B2.
Qed.

Lemma keeps_weaken (T T' : Z → Prop) s s' : keeps T s s' → (∀ G, T G → T' G) → keeps T' s s'.
Proof. intros [G1 A1 F1 M1 W1 B1] H. split; auto. Qed.

Lemma keeps_shows T s s' i F : keeps T s s' → shows s i F → shows s' i F.
Proof. intros K (Hi & Hp & Hf). split; [done|]. by rewrite (ke_shown _ _ _ K). Qed.

Lemma keeps_room T s s' n : keeps T s s' → room s n → room s' n.
Proof.
  intros K (l & Hn & Hl & H). exists l. split; [done|]. split; [done|]. intros i Hi. destruct (H i Hi). split; [done|].
  by apply (ke_free _ _ _ K).
Qed.

Lemma keeps_taken T s s' F : keeps T s s' → taken_frame s F → taken_frame s' F.
Proof.
  intros K [Hp Hf]. split; [done|]. destruct (avail (vm_frames s') (F / 4096)) eqn:E; [|done].
  apply (ke_avail _ _ _ K) in E; [congruence|]. by apply Z.div_pos.
Qed.

Ltac list_in := repeat constructor.
Lemma data_ne F G : data F → G ∈ [cr3; f3; f2; f1] → F ≠ G.
Proof. intros (_ & _ & Hn) HG ->. done. Qed.

(** A frame that is mapped is a table that can be written. *)
Lemma data_window s i F : good s → shows s i F → data F → window (vm_mem s) (vm_cr3 s) (slot_va i) F.
Proof.
  intros [Hk Hc _ _] (Hi & Hp & Hf) HF m' Ho k Hkk. subst F.
  assert (HF' : aligned (frame_of (entry (vm_mem s) f1 i))) by apply HF.
  pose proof (data_ne _ cr3 HF ltac:(list_in)). pose proof (data_ne _ f3 HF ltac:(list_in)).
  pose proof (data_ne _ f2 HF ltac:(list_in)). pose proof (data_ne _ f1 HF ltac:(list_in)).
  pose proof (aligned_f1 s f3 f2 f1 Hk) as A1.
  pose proof (kernel_pt_upd1 s f3 f2 f1 Hk) as _.
  assert (Hk' : kernel_pt (with_mem s m') f3 f2 f1).
  { destruct Hk as [Kp K2 K1 Kl]. split; [|exact K2|exact K1|exact Kl]. cbn [vm_mem vm_cr3 with_mem].
    apply (pt_at_outside (frame_of (entry (vm_mem s) f1 i)) (vm_mem s)); [exact HF'|by rewrite Hc|done|done|exact Ho|exact Kp]. }
  assert (E : entry m' f1 i = entry (vm_mem s) f1 i) by (apply (entry_outside (frame_of (entry (vm_mem s) f1 i))); done).
  unfold slot_va, slot. rewrite u64_id by (unfold is_u64; change KERNEL_MAPPING_BASE with 0xA00000; lia).
  pose proof (kernel_translate (with_mem s m') f3 f2 f1 Hk' i (8 * k) Hi ltac:(lia)) as Ht. cbn [vm_mem vm_cr3 with_mem] in Ht.
  rewrite E in Ht. by apply Ht.
Qed.

(** A store in a mapped frame. *)
Lemma store_ok s i F k v : good s → shows s i F → data F → 0 <= k < 512 →
  let s' := with_mem s (<[F + 8 * k := v]> (vm_mem s)) in
  vst s (slot (slot_va i) k) v = Ok s' ∧ keeps (eq F) s s' ∧
  ∀ j, entry (vm_mem s') F j = if k =? j then v else entry (vm_mem s) F j.
Proof.
  intros Hg Hs HF Hk s'. split; [apply vst_window; [by apply data_window|done]|]. split; [|intros j; apply entry_store].
  assert (HF' : aligned F) by apply HF.
  pose proof (data_ne _ cr3 HF ltac:(list_in)). pose proof (data_ne _ f3 HF ltac:(list_in)).
  pose proof (data_ne _ f2 HF ltac:(list_in)). pose proof (data_ne _ f1 HF ltac:(list_in)).
  pose proof (aligned_f1 s f3 f2 f1 (go_kernel _ Hg)) as A1. pose proof (same_outside_store F (vm_mem s) k v Hk) as Ho.
  assert (E1 : ∀ j, 0 <= j < 512 → entry (vm_mem s') f1 j = entry (vm_mem s) f1 j) by (intros j Hj; by apply (entry_outside F)).
  split; [|done| | | |done].
  - destruct Hg as [[Kp K2 K1 Kl] Hc Hw Ht]. split; [|done|done|done]. split; [|exact K2|exact K1|exact Kl].
    cbn [vm_mem vm_cr3 with_mem s']. apply (pt_at_outside F (vm_mem s)); [exact HF'|by rewrite Hc|done|done|exact Ho|exact Kp].
  - intros j Hj. unfold slot_free. by rewrite E1.
  - intros j Hj _. by apply E1.
  - intros G j HG Hj _ Hne. by apply (entry_outside F).
Qed.

(** A frame from the allocator is none of those in use. *)
Definition fresh s (F : Z) : Prop := data F ∧ 0 < F < 2 ^ 36 ∧ avail (vm_frames s) (F / 4096) = true.
Definition nowhere (G : Z) : Prop := False.

Lemma fresh_ne s F G : fresh s F → taken_frame s G → F ≠ G.
Proof. intros (_ & _ & Hf) [_ Ht] ->. congruence. Qed.

Lemma alloc_or_ok s msg : good s →
  wpx (alloc_or s msg) (fun '(F, s') => fresh s F ∧ taken_frame s' F ∧ vm_mem s' = vm_mem s ∧ keeps nowhere s s')
    (eq msg) False.
Proof.
  intros Hg. pose proof Hg as [Hk Hc Hw Ht]. unfold alloc_or.
  destruct (alloc_frame_law _ Hw) as (r & fr & E & Hw' & Hbd & Hcases). rewrite E. run.
  destruct Hcases as [(n & -> & Hn & Hav & Hall)|[-> _]]; [|by cbn].
  rewrite (proj2 (Z.eqb_neq _ _)) by lia. cbn [wpx].
  assert (E1 : 4096 * n / 4096 = n) by dlia.
  assert (Hne : ∀ G, G ∈ [cr3; f3; f2; f1] → 4096 * n ≠ G).
  { intros G HG <-. destruct (Ht _ HG) as [_ Hf]. rewrite E1 in Hf. congruence. }
  assert (Hfr : ∀ m, 0 <= m → avail fr m = true → avail (vm_frames s) m = true).
  { intros m Hm Ha. rewrite Hall in Ha by done. by apply andb_true_iff in Ha as [? _]. }
  split; [|split; [|split; [done|]]].
  - split; [|split; [lia|by rewrite E1]]. split; [unfold aligned; dlia|]. split; [lia|].
    intros HG. by apply (Hne _ HG).
  - split; [lia|]. cbn [vm_frames with_frames]. by rewrite E1, Hall, Z.eqb_refl, andb_false_r by lia.
  - split; try done. split; [by destruct Hk|done|done|]. intros G HG. destruct (Ht G HG) as [Hp Hf].
    split; [done|]. cbn [vm_frames with_frames]. rewrite Hall by (by apply Z.div_pos). by rewrite Hf.
Qed.

(** [s1] is [s] with frame [F] mapped in the free slot [i]. *)
Record opened s s1 (i F : Z) : Prop := Opened {
  op_free : slot_free (vm_mem s) f1 i;
  op_good : good s1;
  op_shows : shows s1 i F;
  op_frames : vm_frames s1 = vm_frames s;
  op_others k : 0 <= k < 512 → k ≠ i → entry (vm_mem s1) f1 k = entry (vm_mem s) f1 k;
  op_words G k : aligned G → 0 <= k < 512 → G ≠ f1 → entry (vm_mem s1) G k = entry (vm_mem s) G k
}.

Lemma good_upd s m' inv : good s → same_outside f1 (vm_mem s) m' → good (done_vm s m' inv (vm_frames s)).
Proof. intros [Hk Hc Hw Ht] Ho. split; try done. by apply kernel_pt_upd1. Qed.

Lemma opened_room s s1 i F n : opened s s1 i F → room s (S n) → room s1 n.
Proof.
  intros Ho (l & Hn & Hl & H).
  assert (Hfree : ∀ k, k ∈ l → k ≠ i → 0 <= k < 512 ∧ slot_free (vm_mem s1) f1 k).
  { intros k Hk Hne. destruct (H k Hk) as [Hk' Hf]. split; [done|]. unfold slot_free. by rewrite (op_others _ _ _ _ Ho). }
  destruct (decide (i ∈ l)) as [Hi|Hi].
  - apply list_elem_of_split in Hi as (l1 & l2 & ->). rewrite length_app in Hl. cbn in Hl.
    apply NoDup_app in Hn as (N1 & N2 & N3). apply NoDup_cons in N3 as [N3 N4].
    exists (l1 ++ l2). split; [|split].
    + apply NoDup_app. split; [done|]. split; [|done]. intros x Hx Hx2. apply (N2 x Hx). by right.
    + rewrite length_app. lia.
    + intros k Hk. apply elem_of_app in Hk. apply Hfree.
      * rewrite elem_of_app, elem_of_cons. tauto.
      * intros ->. destruct Hk as [Hk|Hk]; [|done]. apply (N2 i Hk). by left.
  - exists l. split; [done|]. split; [lia|]. intros k Hk. apply Hfree; [done|]. by intros ->.
Qed.

Lemma vm_map_flags_opens s F fl n : good s → data F → room s (S n) → present fl = true → frame_of fl = 0 →
  wp (vm_map_page s F fl) (fun '(va, s1) => ∃ i, va = slot_va i ∧ 0 < va ∧ opened s s1 i F ∧ room s1 n).
Proof.
  intros Hg HF Hr Hp0 Hf0. pose proof (go_kernel _ Hg) as Hk. pose proof (aligned_f1 s f3 f2 f1 Hk) as A1.
  apply (wp_mono _ _ _ (vm_map_page_ok s f3 f2 f1 F fl Hk)). intros [va s1] Hcases.
  destruct Hcases as [(i & m' & Hi & Hfree & _ & -> & Hu & ->)|[Hall _]].
  - exists i. rewrite kernel_va_ok by done. assert (E : entry m' f1 i = F .| fl) by (apply Hu; lia).
    assert (Ho : opened s (done_vm s m' (vm_invlpg s) (vm_frames s)) i F).
    { split; [done| | |done| |].
      - apply good_upd; [done|]. eapply table_upd_outside; [..|exact Hu]; lia.
      - split; [done|]. cbn [vm_mem done_vm]. rewrite E. split.
        + unfold present in *. by rewrite Z.lor_spec, Hp0, orb_true_r.
        + apply frame_of_page; [apply HF|apply HF|exact Hf0].
      - intros k Hk' Hne. apply (table_upd_entry _ _ _ _ _ _ _ Hu). lia.
      - intros G k HG Hk' Hne. apply (table_upd_other _ _ f1 i (i + 1) (fun _ => F .| fl)); done || lia. }
    split; [done|]. split; [change KERNEL_MAPPING_BASE with 0xA00000; lia|]. split; [exact Ho|]. by apply (opened_room s _ i F).
  - exfalso. destruct Hr as ([|k l] & _ & Hl & H); [cbn in Hl; lia|]. destruct (H k ltac:(left)) as [Hk' Hf]. by apply (Hall k Hk').
Qed.

Lemma vm_map_page_opens s F n : good s → data F → room s (S n) →
  wp (vm_map_page s F (PGT_P .| PGT_RW)) (fun '(va, s1) => ∃ i, va = slot_va i ∧ 0 < va ∧ opened s s1 i F ∧ room s1 n).
Proof. intros Hg HF Hr. by apply vm_map_flags_opens. Qed.

Lemma map_or_ok s F msg n : good s → data F → room s (S n) →
  wp (map_or s F msg) (fun '(va, s1) => ∃ i, va = slot_va i ∧ opened s s1 i F ∧ room s1 n).
Proof.
  intros Hg HF Hr. unfold map_or. wp_step. apply (wp_mono _ _ _ (vm_map_page_opens s F n Hg HF Hr)).
  intros [va s1] (i & -> & Hva & Ho & Hr1). rewrite (proj2 (Z.eqb_neq _ _)) by lia. by exists i.
Qed.

(** Unmapping the page gives the slot back. *)
Lemma close_ok T s s1 s2 i F : good s → opened s s1 i F → keeps T s1 s2 →
  ∃ r s3, vm_unmap_page s2 (slot_va i) = Ok (r, s3) ∧ keeps T s s3 ∧ vm_frames s3 = vm_frames s2 ∧
    ∀ G k, aligned G → 0 <= k < 512 → G ≠ f1 → entry (vm_mem s3) G k = entry (vm_mem s2) G k.
Proof.
  intros Hg Ho K. pose proof (op_shows _ _ _ _ Ho) as (Hi & Hp & _). pose proof (ke_good _ _ _ K) as Hg2.
  pose proof (aligned_f1 s f3 f2 f1 (go_kernel _ Hg)) as A1.
  pose proof (vm_unmap_page_ok s2 f3 f2 f1 i 0 (go_kernel _ Hg2) Hi ltac:(lia)) as E. cbv zeta in E.
  rewrite Z.add_0_r in E. fold (slot_va i) in E. do 2 eexists. split; [exact E|].
  set (s3 := done_vm _ _ _ _).
  assert (Hw : ∀ G k, aligned G → 0 <= k < 512 → G ≠ f1 → entry (vm_mem s3) G k = entry (vm_mem s2) G k).
  { intros G k HG Hk Hne. apply (entry_outside f1); try done. by apply same_outside_store. }
  assert (H1 : ∀ k, entry (vm_mem s3) f1 k = if i =? k then 0 else entry (vm_mem s2) f1 k) by (intros k; apply entry_store).
  split; [|by split]. split.
  - apply good_upd; [done|]. by apply same_outside_store.
  - intros n Hn Ha. rewrite <- (op_frames _ _ _ _ Ho). by apply (ke_avail _ _ _ K).
  - intros k Hk Hf. unfold slot_free. rewrite H1. destruct (Z.eqb_spec i k) as [->|Hne]; [done|].
    apply (ke_free _ _ _ K); [done|]. unfold slot_free. by rewrite (op_others _ _ _ _ Ho) by lia.
  - intros k Hk Hpk. assert (Hne : i ≠ k).
    { intros ->. pose proof (op_free _ _ _ _ Ho) as Hf. unfold slot_free in Hf. congruence. }
    rewrite H1, (proj2 (Z.eqb_neq _ _)) by done. pose proof (op_others _ _ _ _ Ho k Hk ltac:(congruence)) as E1.
    by rewrite (ke_shown _ _ _ K) by (done || by rewrite E1).
  - intros G k HG Hk Hne HT. rewrite Hw, (ke_words _ _ _ K) by done. by apply (op_words _ _ _ _ Ho).
  - rewrite <- (op_frames _ _ _ _ Ho). apply (ke_bound _ _ _ K).
Qed.

(** The test program is six stores of 16 bits in the first 12 bytes. *)
Lemma vst16_ok s i F o x : good s → shows s i F → data F → 0 <= o < 4096 →
  ∃ s', vst16 s (slot_va i + o) x = Ok s' ∧ keeps (eq F) s s'.
Proof.
  intros Hg Hs HF Ho. pose proof Hs as (Hi & Hp & Hf). assert (HF' : F mod 4096 = 0) by apply HF.
  unfold vst16, slot_va. rewrite (kernel_translate s f3 f2 f1 (go_kernel _ Hg) i o Hi Ho Hp), Hf.
  eexists. split; [reflexivity|]. cbv zeta.
  replace (F + o - (F + o) mod 8) with (F + 8 * (o / 8)) by dlia.
  by apply (store_ok s i F (o / 8) _ Hg Hs HF ltac:(dlia)).
Qed.

Lemma vst16s_ok i F l : ∀ s o, good s → shows s i F → data F → 0 <= o → o + 2 * Z.of_nat (length l) <= 4096 →
  wp (vst16s s (slot_va i + o) l) (keeps (eq F) s).
Proof.
  induction l as [|x l IH]; intros s o Hg Hs HF Ho Hl; cbn [vst16s length] in *; [by apply keeps_refl|].
  destruct (vst16_ok s i F o x Hg Hs HF ltac:(lia)) as (s1 & E & K). rewrite E. run.
  assert (Hva : slot_va i + o +w 2 = slot_va i + (o + 2)).
  { destruct Hs as [Hi _]. unfold slot_va. change KERNEL_MAPPING_BASE with 0xA00000. rewrite u64_id by ulia. lia. }
  rewrite Hva. apply (wp_mono _ _ _ (IH s1 (o + 2) (ke_good _ _ _ K) (keeps_shows _ _ _ _ _ K Hs) HF ltac:(lia) ltac:(lia))).
  intros s2. by apply keeps_trans.
Qed.

Lemma write_test_ok s F : good s → data F → room s 1 → wp (write_test s F) (keeps (eq F) s).
Proof.
  intros Hg HF Hr. unfold write_test. wp_step. apply (wp_mono _ _ _ (vm_map_page_opens s F 0 Hg HF Hr)).
  intros [va s1] (i & -> & _ & Ho & _). wp_step.
  pose proof (vst16s_ok i F TEST_CODE s1 0 (op_good _ _ _ _ Ho) (op_shows _ _ _ _ Ho) HF ltac:(lia) ltac:(cbn; lia)) as Hw.
  rewrite Z.add_0_r in Hw. apply (wp_mono _ _ _ Hw). intros s2 K.
  destruct (close_ok _ s s1 s2 i F Hg Ho K) as (r & s3 & E & K3 & _). rewrite E. by run.
Qed.

(** The page table of the first 2 MB. *)
Definition low_at (k : Z) : Z := low_entry k (4096 * k).
Definition TEST_FRAME : Z := 0x100100000.
Definition either (F F' G : Z) : Prop := G = F ∨ G = F'.

Lemma pt_loop_ok s i F : good s → shows s i F → data F → data TEST_FRAME → F ≠ TEST_FRAME → room s 1 →
  wp (while (pt_step (slot_va i)) (0, 0 -w PG_SIZE, s)) (fun s' =>
    keeps (either F TEST_FRAME) s s' ∧ ∀ k, 0 <= k < 512 → entry (vm_mem s') F k = low_at k).
Proof.
  intros Hg Hs HF HT Hne Hr. pose proof (data_ne F f1 HF ltac:(list_in)) as Hf1. assert (HF' : aligned F) by apply HF.
  apply (wp_while _ (fun '(k, fo, s1) => 0 <= k <= 512 ∧ fo = u64 (4096 * (k - 1)) ∧ keeps (either F TEST_FRAME) s s1 ∧
    ∀ k', 0 <= k' < k → entry (vm_mem s1) F k' = low_at k') (fun '(k, _, _) => 512 - k)); cycle 1.
  { split; [lia|]. split; [reflexivity|]. split; [by apply keeps_refl|lia]. }
  { lia. }
  intros [[k fo] s1] (Hk & -> & K & Hall). unfold pt_step. change PG_TABLE_ENTRIES with 512.
  destruct (Z.ltb_spec k 512); [|split; [exact K|intros k' Hk'; apply Hall; lia]].
  assert (Efo : u64 (4096 * (k - 1)) +w PG_SIZE = 4096 * k).
  { unfold u64. rewrite Zplus_mod_idemp_l. change PG_SIZE with 4096. rewrite Z.mod_small; lia. }
  rewrite Efo.
  destruct (store_ok s1 i F k (low_at k) (ke_good _ _ _ K) (keeps_shows _ _ _ _ _ K Hs) HF ltac:(lia)) as (E & K1 & H1).
  unfold low_at in E at 1. rewrite E. run. set (s2 := with_mem s1 _) in *.
  assert (K2 : keeps (either F TEST_FRAME) s s2) by (apply (keeps_trans _ s s1 s2 K), (keeps_weaken (eq F)); [done|by left]).
  wp_step. apply (wp_mono _ (fun s3 => keeps (either F TEST_FRAME) s s3 ∧ ∀ k', 0 <= k' < 512 → entry (vm_mem s3) F k' = entry (vm_mem s2) F k')).
  - destruct (Z.eqb_spec k (512 / 2)) as [->|_]; [|by split].
    change (4096 * (512 / 2) +w 0x100000000) with TEST_FRAME.
    apply (wp_mono _ _ _ (write_test_ok s2 TEST_FRAME (ke_good _ _ _ K2) HT (keeps_room _ _ _ _ K2 Hr))). intros s3 K3. split.
    + apply (keeps_trans _ s s2 s3 K2), (keeps_weaken (eq TEST_FRAME)); [done|by right].
    + intros k' Hk'. apply (ke_words _ _ _ K3); done || congruence.
  - intros s3 [K3 E3]. assert (Ek : u16 (k + 1) = k + 1) by (apply Z.mod_small; lia). rewrite Ek.
    split; [|lia]. split; [lia|]. split; [rewrite u64_id by ulia; lia|]. split; [exact K3|].
    intros k' Hk'. rewrite E3, H1 by lia. destruct (Z.eqb_spec k k') as [->|]; [done|]. apply Hall. lia.
Qed.

(** A frame that a table of the guest occupies. *)
Definition is_table s (F : Z) : Prop := data F ∧ F ≠ TEST_FRAME ∧ 0 < F < 2 ^ 36 ∧ taken_frame s F.
(** The frames written while the tables below [F] are made. *)
Definition makes s (F G : Z) : Prop := either F TEST_FRAME G ∨ 0 <= G ∧ avail (vm_frames s) (G / 4096) = true.

Lemma is_table_fresh s s' F : taken_frame s TEST_FRAME → fresh s F → taken_frame s' F → is_table s' F.
Proof.
  intros HT Hf Ht. pose proof (fresh_ne _ _ _ Hf HT). destruct Hf as (HF & Hb & _). by split.
Qed.
Lemma keeps_table T s s' F : keeps T s s' → is_table s F → is_table s' F.
Proof. intros K (HF & Hne & Hb & Ht). split; [done|]. split; [done|]. split; [done|]. by apply (keeps_taken T s). Qed.

Lemma makes_keeps s s' T F G : keeps T s s' → makes s' F G → makes s F G.
Proof. intros K [HG|[Hp HG]]; [by left|]. right. split; [done|]. apply (ke_avail _ _ _ K); [by apply Z.div_pos|done]. Qed.

(** The entry for a table. *)
Definition table_word (F : Z) : Z := F .| EPT_RD .| EPT_WR .| EPT_EX.

(** [R] is the table above the page directories. *)
Section below_root.
Context (R : Z).

(** The first 2 MB of the guest are mapped by the page table in entry 0 of [F]. *)
Definition low_mapped s (F : Z) : Prop := ∃ P, entry (vm_mem s) F 0 = table_word P ∧ is_table s P ∧ P ≠ F ∧ P ≠ R ∧
  ∀ k, 0 <= k < 512 → entry (vm_mem s) P k = low_at k.
Definition out_of_frames (msg : string) : Prop :=
  msg = "Failed to allocate a PDT frame" ∨ msg = "Failed to allocate a PT frame".

Lemma map_low_ok s i F : good s → shows s i F → is_table s F → data TEST_FRAME → taken_frame s TEST_FRAME → taken_frame s R → room s 2 →
  wpx (map_low s (slot_va i) 0 0) (fun s' => keeps (makes s F) s s' ∧ low_mapped s' F ∧
    ∀ k, 0 < k < 512 → entry (vm_mem s') F k = entry (vm_mem s) F k) out_of_frames False.
Proof.
  intros Hg Hs HF HT HTt HR Hr. pose proof HF as (HFd & HFT & _ & HFt). assert (HF' : aligned F) by apply HFd.
  pose proof (data_ne F f1 HFd ltac:(list_in)) as Hf1.
  unfold map_low. wp_step. apply (wpx_mono _ _ _ _ _ _ _ (alloc_or_ok s _ Hg)); [|intros m <-; by right|done].
  intros [P s1] (Hfresh & Ht & Em & K1). pose proof (is_table_fresh _ _ _ HTt Hfresh Ht) as HP.
  pose proof (fresh_ne _ _ _ Hfresh HFt) as HPF. pose proof HP as (HPd & HPT & _).
  destruct (store_ok s1 i F 0 (table_word P) (ke_good _ _ _ K1) (keeps_shows _ _ _ _ _ K1 Hs) HFd ltac:(lia)) as (E & K2 & H2).
  set (s2 := with_mem s1 _) in *. wp_step. unfold table_word in E. rewrite E. cbn [wpx].
  pose proof (keeps_trans _ _ _ _ (keeps_weaken _ (eq F) _ _ K1 ltac:(done)) K2) as K12.
  wp_step. apply wp_wpx, (wp_mono _ _ _ (map_or_ok s2 P _ 1 (ke_good _ _ _ K2) HPd (keeps_room _ _ _ _ K12 Hr))).
  intros [va s3] (ip & -> & Ho & Hr3). wp_step.
  apply wp_wpx, (wp_mono _ _ _ (pt_loop_ok s3 ip P (op_good _ _ _ _ Ho) (op_shows _ _ _ _ Ho) HPd HT HPT Hr3)).
  intros s4 [K4 H4]. destruct (close_ok _ s2 s3 s4 ip P (ke_good _ _ _ K2) Ho K4) as (r & s5 & E5 & K5 & Ef & Hw).
  wp_step. rewrite E5. cbn [wpx]. assert (HPf1 : P ≠ f1) by (apply (data_ne P f1 HPd); list_in).
  assert (HFk : ∀ k, 0 <= k < 512 → entry (vm_mem s5) F k = entry (vm_mem s2) F k).
  { intros k Hk. apply (ke_words _ _ _ K5); try done. intros [|]; congruence. }
  assert (HPs : is_table s5 P) by apply (keeps_table _ s2 _ _ K5), (keeps_table _ s1 _ _ K2 HP).
  split; [|split].
  - apply (keeps_trans _ s s2 s5).
    + apply (keeps_weaken (eq F)); [done|]. intros G <-. left. by left.
    + apply (keeps_weaken (either P TEST_FRAME)); [done|]. intros G [->| ->]; [right; destruct Hfresh as (_ & ? & ?); split; [lia|done]|left; by right].
  - exists P. split; [rewrite HFk, H2 by lia; done|]. split; [done|]. split; [done|].
    split; [by apply (fresh_ne s)|]. intros k Hk. rewrite Hw, H4 by (done || apply HPd). done.
  - intros k Hk. rewrite HFk, H2, (proj2 (Z.eqb_neq _ _)) by lia. unfold entry. by rewrite Em.
Qed.

(** *** The pages of 2 MB

    [N] pages in all. Those after the first hold the kernel, then the ramdisk,
    then the memory at 4 GB. *)
Section large_pages.
Context (kphy kend rphy rend N : Z).
Definition pages_of (lo hi : Z) : Z := Z.max 0 ((hi - lo + (2 ^ 21 - 1)) / 2 ^ 21).
Let nk := pages_of kphy kend.
Let nr := pages_of rphy rend.

(** Where page [q] of the guest is, for [1 <= q]. *)
Definition large_at (q : Z) : Z :=
  if q - 1 <? nk then kphy + 2 ^ 21 * (q - 1)
  else if q - 1 <? nk + nr then rphy + 2 ^ 21 * (q - 1 - nk)
  else 2 ^ 21 * q + 2 ^ 32.

(** The two addresses after [q] pages. *)
Definition kernel_at (q : Z) : Z := kphy + 2 ^ 21 * Z.min (Z.max 0 (q - 1)) nk.
Definition ramdisk_at (q : Z) : Z := rphy + 2 ^ 21 * Z.min (Z.max 0 (q - 1 - nk)) nr.

Record image_fits : Prop := ImageFits {
  im_kphy : 0 <= kphy < 2 ^ 51; im_kend : 0 <= kend < 2 ^ 51;
  im_rphy : 0 <= rphy < 2 ^ 51; im_rend : 0 <= rend < 2 ^ 51;
  im_pages : 0 <= N <= 2 ^ 18
}.
Context (Him : image_fits).

Lemma next_kernel q : 1 <= q → (kernel_at q < kend ↔ q - 1 < nk) ∧
  (q - 1 < nk → kernel_at (q + 1) = kernel_at q + 2 ^ 21 ∧ kernel_at q = kphy + 2 ^ 21 * (q - 1) ∧ ramdisk_at (q + 1) = ramdisk_at q).
Proof using Him.
  intros Hq. destruct Him as [K1 K2 _ _ _]. unfold kernel_at, ramdisk_at. split; [|lia].
  unfold nk, pages_of. dlia.
Qed.

Lemma next_ramdisk q : 1 <= q → nk <= q - 1 → (ramdisk_at q < rend ↔ q - 1 < nk + nr) ∧
  kernel_at (q + 1) = kernel_at q ∧
  (q - 1 < nk + nr → ramdisk_at (q + 1) = ramdisk_at q + 2 ^ 21 ∧ ramdisk_at q = rphy + 2 ^ 21 * (q - 1 - nk)) ∧
  (nk + nr <= q - 1 → ramdisk_at (q + 1) = ramdisk_at q).
Proof using Him.
  intros Hq Hk. destruct Him as [_ _ R1 R2 _]. unfold kernel_at, ramdisk_at.
  assert (Hn : 0 <= nk) by (unfold nk, pages_of; lia). split; [|lia].
  unfold nr, pages_of. clearbody nk. dlia.
Qed.

Lemma first_at : kernel_at (0 + 1) = kernel_at 0 ∧ ramdisk_at (0 + 1) = ramdisk_at 0.
Proof using.
  unfold kernel_at, ramdisk_at. assert (0 <= nk) by (unfold nk, pages_of; lia). split; do 2 f_equal; lia.
Qed.

(** Page [q] is in the page directory [F]. *)
Definition page_done s (F q : Z) : Prop :=
  if q =? 0 then low_mapped s F else entry (vm_mem s) F (q mod 512) = large_entry (large_at q).

Lemma low_mapped_keeps s s' F : keeps (eq F) s s' → entry (vm_mem s') F 0 = entry (vm_mem s) F 0 →
  low_mapped s F → low_mapped s' F.
Proof.
  intros K E (P & HE & HP & Hne & HneR & Hall). exists P. rewrite E. split; [done|]. split; [by apply (keeps_table (eq F) s)|].
  split; [done|]. split; [done|]. intros k Hk. rewrite <- Hall by done. apply (ke_words _ _ _ K); [apply HP|done| |done].
  apply (data_ne P f1); [apply HP|list_in].
Qed.

(** A store of entry [j] keeps the pages of the entries before. *)
Lemma page_done_store s s' F i j v q : keeps (eq F) s s' → 0 <= i → 512 * i <= q < 512 * i + j → 0 <= j < 512 →
  (∀ k, entry (vm_mem s') F k = if j =? k then v else entry (vm_mem s) F k) →
  page_done s F q → page_done s' F q.
Proof.
  intros K Hi Hq Hj H. unfold page_done. destruct (Z.eqb_spec q 0) as [->|Hne].
  - apply low_mapped_keeps; [done|]. rewrite H, (proj2 (Z.eqb_neq _ _)); [done|lia].
  - rewrite H, (proj2 (Z.eqb_neq _ _)); [done|]. dlia.
Qed.

Lemma page_offset i j : 0 <= i < 2 ^ 20 → 0 <= j < 512 →
  (PG_SIZE *w PG_TABLE_ENTRIES *w PG_TABLE_ENTRIES *w i) +w (PG_SIZE *w PG_TABLE_ENTRIES *w j) = 2 ^ 21 * (512 * i + j).
Proof.
  intros Hi Hj. change (PG_SIZE *w PG_TABLE_ENTRIES *w PG_TABLE_ENTRIES) with (2 ^ 30).
  change (PG_SIZE *w PG_TABLE_ENTRIES) with (2 ^ 21).
  rewrite (u64_id (2 ^ 30 * i)), (u64_id (2 ^ 21 * j)), u64_id by ulia. lia.
Qed.

(** One entry of a page directory: page [q = 512 * i + j]. *)
Section one_entry.
Context (s : vm A) (slot_no F i j : Z).
Context (Hg : good s) (Hs : shows s slot_no F) (HF : is_table s F) (HT : data TEST_FRAME)
  (HTt : taken_frame s TEST_FRAME) (HR : taken_frame s R) (Hr : room s 2).
Context (Hi : 0 <= i < 512) (Hj : 0 <= j < 512) (Hq : 512 * i + j < N).
Let q := 512 * i + j.

Definition entry_made s' : Prop :=
  keeps (makes s F) s s' ∧ page_done s' F q ∧ ∀ p, 512 * i <= p < q → page_done s F p → page_done s' F p.

Lemma large_store : 1 <= q → ∃ s', vst s (slot (slot_va slot_no) j) (large_entry (large_at q)) = Ok s' ∧ entry_made s'.
Proof.
  intros Hq1. destruct (store_ok s slot_no F j (large_entry (large_at q)) Hg Hs (proj1 HF) Hj) as (E & K & H).
  eexists. split; [exact E|]. split; [|split].
  - apply (keeps_weaken (eq F)); [done|]. intros G <-. left. by left.
  - unfold page_done. rewrite (proj2 (Z.eqb_neq q 0)) by lia.
    replace (q mod 512) with j by (unfold q; dlia). by rewrite H, Z.eqb_refl.
  - intros p Hp. apply (page_done_store s _ F i j (large_entry (large_at q)) p); done || lia.
Qed.

Lemma first_store : q = 0 → wpx (map_low s (slot_va slot_no) j (2 ^ 21 * q)) entry_made out_of_frames False.
Proof.
  intros Hq0. assert (Hj0 : j = 0) by (unfold q in Hq0; lia). rewrite Hj0, Hq0. change (2 ^ 21 * 0) with 0.
  apply (wpx_post _ _ _ _ _ (map_low_ok s slot_no F Hg Hs HF HT HTt HR Hr)). intros s' (K & Hl & _).
  split; [done|]. unfold page_done at 1. rewrite Hq0. split; [done|]. intros p Hp. lia.
Qed.

Lemma pdt_round : wpx (pdt_step kend rend i (u32 (N *w PG_TABLE_ENTRIES)) (slot_va slot_no)
    (j, 512 * q, kernel_at q, ramdisk_at q, s))
  (fun x => match x with
    | inl st => ∃ s', st = (j + 1, 512 * (q + 1), kernel_at (q + 1), ramdisk_at (q + 1), s') ∧ entry_made s' ∧ q + 1 < N
    | inr r => ∃ s', r = (512 * (q + 1), kernel_at (q + 1), ramdisk_at (q + 1), s') ∧ entry_made s' ∧ q + 1 = N
    end) out_of_frames False.
Proof.
  destruct Him as [? ? ? ? HN]. pose proof (page_offset i j ltac:(lia) Hj) as Hofs.
  unfold pdt_step. change PG_TABLE_ENTRIES with 512 in *. rewrite (proj2 (Z.ltb_lt j 512)) by lia.
  rewrite Hofs. fold q. cbv zeta. wp_step.
  apply (wpx_post _ (fun '(kp, rp, s') => kp = kernel_at (q + 1) ∧ rp = ramdisk_at (q + 1) ∧ entry_made s')).
  2: { intros [[kp rp] s'] (-> & -> & Hm).
       assert (Eb : u32 (N *w 512) = 512 * N) by (rewrite u64_id by ulia; unfold u32; rewrite Z.mod_small; lia).
       assert (Ec : u32 (512 * q + 512) = 512 * (q + 1)) by (unfold u32; rewrite Z.mod_small; unfold q; lia).
       assert (Ej : u32 (j + 1) = j + 1) by (unfold u32; rewrite Z.mod_small; lia).
       rewrite Eb, Ec, Ej. unfold q in *. destruct (Z.leb_spec (512 * N) (512 * (512 * i + j + 1))); cbn [wpx]; exists s';
         (split; [done|]; split; [done|lia]). }
  destruct (Z.eqb_spec q 0) as [Hq0|Hq0].
  { assert (Eij : (i =? 0) && (j =? 0) = true) by (apply andb_true_iff; split; apply Z.eqb_eq; unfold q in Hq0; lia).
    rewrite Eij. wp_step. apply (wpx_post _ _ _ _ _ (first_store Hq0)). intros s' Hm.
    rewrite Hq0. destruct first_at as [-> ->]. by cbn [wpx]. }
  assert (Eij : (i =? 0) && (j =? 0) = false).
  { apply andb_false_iff. rewrite !Z.eqb_neq. unfold q in Hq0. lia. }
  rewrite Eij. assert (Hq1 : 1 <= q) by (unfold q in *; lia). destruct (large_store Hq1) as (s' & E & Hm).
  destruct (next_kernel q Hq1) as [Hk1 Hk2]. unfold large_at in E.
  destruct (Z.ltb_spec (kernel_at q) kend) as [Hlt|Hge]; [|destruct (next_ramdisk q Hq1 ltac:(lia)) as (Hr1 & Hr2 & Hr3 & Hr4);
    destruct (Z.ltb_spec (ramdisk_at q) rend) as [Hlt'|Hge']].
  - destruct (Hk2 ltac:(lia)) as (E1 & E2 & E3). rewrite (proj2 (Z.ltb_lt _ _)), <- E2 in E by lia.
    wp_step. rewrite E. cbn [wpx]. rewrite E1, E3, u64_id by (change LARGE_PG_SIZE with (2 ^ 21); ulia). done.
  - destruct (Hr3 ltac:(lia)) as [E1 E2]. rewrite (proj2 (Z.ltb_ge _ _)), (proj2 (Z.ltb_lt _ _)), <- E2 in E by lia.
    wp_step. rewrite E. cbn [wpx]. rewrite E1, Hr2, u64_id by (change LARGE_PG_SIZE with (2 ^ 21); ulia). done.
  - rewrite (proj2 (Z.ltb_ge _ _)), (proj2 (Z.ltb_ge _ _)) in E by lia.
    wp_step. rewrite (u64_id (2 ^ 21 * q + 0x100000000)) by (unfold q in *; ulia).
    change 0x100000000 with (2 ^ 32). rewrite E. cbn [wpx]. by rewrite Hr2, Hr4 by lia.
Qed.
End one_entry.

(** The loop over a page directory. *)
Lemma pdt_loop_ok s slot_no F i : good s → shows s slot_no F → is_table s F → data TEST_FRAME →
  taken_frame s TEST_FRAME → taken_frame s R → room s 2 → 0 <= i < 512 → 512 * i < N →
  let e := Z.min (512 * (i + 1)) N in
  wpx (while (pdt_step kend rend i (u32 (N *w PG_TABLE_ENTRIES)) (slot_va slot_no))
      (0, 512 * (512 * i), kernel_at (512 * i), ramdisk_at (512 * i), s))
    (fun r => ∃ s', r = (512 * e, kernel_at e, ramdisk_at e, s') ∧ keeps (makes s F) s s' ∧
      ∀ p, 512 * i <= p < e → page_done s' F p) out_of_frames False.
Proof.
  intros Hg Hs HF HT HTt HR Hr Hi HN e.
  apply (wpx_while _ (fun '(j, c, kp, rp, s1) => 0 <= j <= 512 ∧ (j < 512 → 512 * i + j < N) ∧ 512 * i + j <= N ∧
      (c, kp, rp) = (512 * (512 * i + j), kernel_at (512 * i + j), ramdisk_at (512 * i + j)) ∧
      keeps (makes s F) s s1 ∧ ∀ p, 512 * i <= p < 512 * i + j → page_done s1 F p)
    (fun '(j, _, _, _, _) => 512 - j)); [|rewrite Z.add_0_r|lia].
  2: { split; [lia|]. split; [lia|]. split; [lia|]. split; [done|]. split; [by apply keeps_refl|lia]. }
  intros [[[[j c] kp] rp] s1] (Hj & Hlt & Hle & E & K & Hall). injection E as -> -> ->.
  destruct (Z.eq_dec j 512) as [->|Hne].
  { cbn [pdt_step]. unfold pdt_step. change (512 <? PG_TABLE_ENTRIES) with false. cbn [wpx]. exists s1.
    replace (512 * i + 512) with e by (unfold e; lia). split; [done|]. split; [done|]. intros p Hp. apply Hall. unfold e in Hp. lia. }
  apply (wpx_post _ _ _ _ _ (pdt_round s1 slot_no F i j (ke_good _ _ _ K) (keeps_shows _ _ _ _ _ K Hs)
    (keeps_table _ _ _ _ K HF) HT (keeps_taken _ _ _ _ K HTt) (keeps_taken _ _ _ _ K HR) (keeps_room _ _ _ _ K Hr) Hi ltac:(lia) (Hlt ltac:(lia)))).
  assert (Hk : ∀ s2, entry_made s1 F i j s2 → keeps (makes s F) s s2 ∧ ∀ p, 512 * i <= p < 512 * i + j + 1 → page_done s2 F p).
  { intros s2 (K2 & Hd & Hp2). split.
    - apply (keeps_trans _ _ _ _ K), (keeps_weaken (makes s1 F)); [done|]. intros G. by apply (makes_keeps s s1 (makes s F)).
    - intros p Hp. destruct (Z.eq_dec p (512 * i + j)) as [->|]; [done|]. apply Hp2; [lia|]. apply Hall. lia. }
  intros [st|r] (s2 & -> & Hm & Hend); destruct (Hk s2 Hm) as [K2 H2].
  - replace (512 * i + j + 1) with (512 * i + (j + 1)) in * by lia.
    split; [|lia]. split; [lia|]. split; [lia|]. split; [lia|]. by split.
  - exists s2. replace (512 * i + j + 1) with e in * by (unfold e; lia). by split.
Qed.

(** Page [q] is reached from [R]. *)
Definition page_mapped s (q : Z) : Prop := ∃ F, entry (vm_mem s) R (q / 512) = table_word F ∧ is_table s F ∧ F ≠ R ∧ page_done s F q.

Lemma page_mapped_words s s' q : (∀ G, taken_frame s G → taken_frame s' G) →
  (∀ G k, is_table s G → G ≠ R → 0 <= k < 512 → entry (vm_mem s') G k = entry (vm_mem s) G k) →
  entry (vm_mem s') R (q / 512) = entry (vm_mem s) R (q / 512) → page_mapped s q → page_mapped s' q.
Proof.
  intros HT Hw E (F & HE & HF & Hne & Hd).
  assert (Htab : ∀ G, is_table s G → is_table s' G).
  { intros G (H1 & H2 & H3 & H4). split; [done|]. split; [done|]. split; [done|]. by apply HT. }
  exists F. rewrite E. split; [done|]. split; [by apply Htab|]. split; [done|].
  revert Hd. unfold page_done. destruct (q =? 0); [|by rewrite Hw by (done || dlia)].
  intros (P & HEP & HP & HPF & HPR & Hall). exists P. rewrite Hw by done. split; [done|]. split; [by apply Htab|].
  split; [done|]. split; [done|]. intros k Hk. by rewrite Hw, Hall.
Qed.

Lemma page_mapped_keeps T s s' q : keeps T s s' → (∀ G, is_table s G → G ≠ R → ¬ T G) →
  entry (vm_mem s') R (q / 512) = entry (vm_mem s) R (q / 512) → page_mapped s q → page_mapped s' q.
Proof.
  intros K HT. apply page_mapped_words; [intros G; by apply (keeps_taken T s)|].
  intros G k HG HGR Hk. apply (ke_words _ _ _ K); [apply HG|done| |by apply HT]. apply (data_ne G f1); [apply HG|list_in].
Qed.

Lemma page_done_words s s' F q : vm_frames s' = vm_frames s →
  (∀ G k, aligned G → 0 <= k < 512 → G ≠ f1 → entry (vm_mem s') G k = entry (vm_mem s) G k) →
  data F → page_done s F q → page_done s' F q.
Proof.
  intros Ef Hw HF. assert (Hd : ∀ G k, data G → 0 <= k < 512 → entry (vm_mem s') G k = entry (vm_mem s) G k).
  { intros G k HG Hk. apply Hw; [apply HG|done|]. apply (data_ne G f1 HG). list_in. }
  unfold page_done. destruct (q =? 0); [|by rewrite Hd by (done || dlia)].
  intros (P & HE & (HP & H1 & H2 & H3) & Hr). exists P. rewrite Hd by done. split; [done|]. unfold is_table, taken_frame.
  rewrite Ef. split; [done|]. destruct Hr as (HPF & HPR & Hall). split; [done|]. split; [done|].
  intros k Hk. by rewrite Hd, Hall.
Qed.

(** The tables of pages mapped before are not among the frames written. *)
Lemma table_not_made s G : is_table s G → G ≠ R → ¬ makes s R G.
Proof. intros (_ & HT & _ & _ & Ha) HR [[?|?]|[_ Hav]]; congruence. Qed.

Lemma new_table_keeps s s2 s3 s5 F : keeps (eq R) s s2 → fresh s F → vm_frames s3 = vm_frames s2 →
  keeps (makes s3 F) s2 s5 → keeps (makes s R) s s5.
Proof.
  intros K2 (_ & Hb & Hav) Ef K5. apply (keeps_trans _ s s2 s5).
  - apply (keeps_weaken (eq R)); [done|]. intros G <-. left. by left.
  - apply (keeps_weaken (makes s3 F)); [done|]. intros G [[->| ->]|[Hp HG]].
    + right. split; [lia|done].
    + left. by right.
    + right. split; [done|]. rewrite Ef in HG. apply (ke_avail _ _ _ K2); [by apply Z.div_pos|done].
Qed.

(** One entry of the upper table. *)
Lemma pdpt_round s ir i entries : good s → shows s ir R → is_table s R → data TEST_FRAME →
  taken_frame s TEST_FRAME → room s 3 → 0 <= i < 512 → 512 * i < N → i < entries →
  let e := Z.min (512 * (i + 1)) N in
  wpx (pdpt_step kend rend entries (u32 (N *w PG_TABLE_ENTRIES)) (slot_va ir)
      (i, 512 * (512 * i), kernel_at (512 * i), ramdisk_at (512 * i), s))
    (fun x => ∃ s', x = inl (i + 1, 512 * e, kernel_at e, ramdisk_at e, s') ∧ keeps (makes s R) s s' ∧
      (∀ q, 0 <= q < 512 * i → page_mapped s q → page_mapped s' q) ∧
      ∀ q, 512 * i <= q < e → page_mapped s' q) out_of_frames False.
Proof.
  intros Hg Hs HR HT HTt Hr Hi HN Hie e. pose proof HR as (HRd & HRT & _ & HRt).
  assert (HRf1 : R ≠ f1) by (apply (data_ne R f1 HRd); list_in). assert (HRa : aligned R) by apply HRd.
  unfold pdpt_step. rewrite (proj2 (Z.ltb_lt _ _) Hie).
  wp_step. apply (wpx_mono _ _ _ _ _ _ _ (alloc_or_ok s _ Hg)); [|intros m <-; by left|done].
  intros [F s1] (Hfresh & Ht & Em & K1). pose proof (is_table_fresh _ _ _ HTt Hfresh Ht) as HF.
  pose proof (fresh_ne _ _ _ Hfresh HRt) as HFR. pose proof HF as (HFd & HFT & _).
  destruct (store_ok s1 ir R i (table_word F) (ke_good _ _ _ K1) (keeps_shows _ _ _ _ _ K1 Hs) HRd Hi) as (E & K2 & H2).
  set (s2 := with_mem s1 _) in *. wp_step. unfold table_word in E. rewrite E. cbn [wpx].
  pose proof (keeps_trans (eq R) _ _ _ (keeps_weaken nowhere (eq R) _ _ K1 ltac:(done)) K2) as K12.
  wp_step. apply wp_wpx, (wp_mono _ _ _ (map_or_ok s2 F _ 2 (ke_good _ _ _ K2) HFd (keeps_room _ _ _ _ K12 Hr))).
  intros [va s3] (ip & -> & Ho & Hr3). wp_step.
  pose proof (op_good _ _ _ _ Ho) as Hg3.
  assert (Ht3 : ∀ G, taken_frame s2 G → taken_frame s3 G) by (unfold taken_frame; by rewrite (op_frames _ _ _ _ Ho)).
  assert (HF2 : is_table s2 F) by by apply (keeps_table (eq R) s1).
  assert (HF3 : is_table s3 F) by (destruct HF2 as (? & ? & ? & ?); repeat (split; [done|]); by apply Ht3).
  pose proof (Ht3 _ (keeps_taken _ _ _ _ K12 HTt)) as HTt3. pose proof (Ht3 _ (keeps_taken _ _ _ _ K12 HRt)) as HRt3.
  apply (wpx_post _ _ _ _ _ (pdt_loop_ok s3 ip F i Hg3 (op_shows _ _ _ _ Ho) HF3 HT HTt3 HRt3 Hr3 Hi HN)).
  intros r (s4 & -> & K4 & H4). fold e in H4 |- *.
  destruct (close_ok _ s2 s3 s4 ip F (ke_good _ _ _ K2) Ho K4) as (r & s5 & E5 & K5 & Ef & Hw).
  wp_step. rewrite E5. cbn [wpx]. exists s5.
  replace (u32 (i + 1)) with (i + 1) by (unfold u32; rewrite Z.mod_small; lia). split; [done|].
  pose proof (new_table_keeps s s2 s3 s5 F K12 Hfresh (op_frames _ _ _ _ Ho) K5) as K.
  assert (HRe : ∀ k, 0 <= k < 512 → entry (vm_mem s5) R k = if i =? k then table_word F else entry (vm_mem s) R k).
  { intros k Hk. rewrite (ke_words _ _ _ K5), H2 by (done || by intros [[?|?]|[_ HG]]; [| |destruct HRt3]; congruence). unfold entry. by rewrite Em. }
  split; [exact K|]. split.
  - intros q Hq. apply (page_mapped_keeps (makes s R) s s5 q K); [apply table_not_made|].
    rewrite HRe, (proj2 (Z.eqb_neq _ _)) by dlia. done.
  - intros q Hq. exists F. assert (Eq : q / 512 = i) by (unfold e in Hq; dlia). rewrite HRe, Eq, Z.eqb_refl by dlia.
    split; [done|]. split; [by apply (keeps_table (makes s3 F) s2)|]. split; [done|].
    apply (page_done_words s4); [done|done|done|by apply H4].
Qed.

Lemma ept_fill_ok g s ir : good s → shows s ir R → is_table s R → data TEST_FRAME → taken_frame s TEST_FRAME →
  room s 3 → N = Z.shiftr (vm_ram_size g) 1 → kend = img_size g +w img_paddr g → rend = extra_size g +w extra_paddr g →
  wpx (ept_fill g kphy rphy (slot_va ir) s) (fun s' => keeps (makes s R) s s' ∧ ∀ q, 0 <= q < N → page_mapped s' q)
    out_of_frames False.
Proof.
  intros Hg Hs HR HT HTt Hr EN Ek Er. destruct Him as [? ? ? ? HN].
  unfold ept_fill. rewrite <- EN, <- Ek, <- Er. cbv zeta. change (PG_TABLE_ENTRIES -w 1) with 511.
  assert (Een : u32 ((N +w 511) >>w PG_TABLE_BITS) = (N + 511) / 512).
  { rewrite u64_id by ulia. rewrite Z.shiftr_div_pow2 by done. change (2 ^ PG_TABLE_BITS) with 512.
    unfold u32. rewrite Z.mod_small; dlia. }
  rewrite Een. set (P := (N + 511) / 512).
  apply (wpx_while _ (fun '(i, c, kp, rp, s1) => let q := Z.min (512 * i) N in
      0 <= i <= P ∧ (c, kp, rp) = (512 * q, kernel_at q, ramdisk_at q) ∧
      keeps (makes s R) s s1 ∧ ∀ p, 0 <= p < q → page_mapped s1 p)
    (fun '(i, _, _, _, _) => P - i)).
  3: { assert (0 <= P < 2 ^ 20) by (unfold P; dlia). lia. }
  2: { cbv zeta. rewrite Z.mul_0_r, Z.min_l by lia. split; [unfold P; dlia|]. split; [|split; [by apply keeps_refl|lia]].
       unfold kernel_at, ramdisk_at. assert (0 <= nk) by (unfold nk, pages_of; lia). assert (0 <= nr) by (unfold nr, pages_of; lia).
       f_equal; [f_equal; lia|lia]. }
  intros [[[[i c] kp] rp] s1] (Hi & E & K & Hall). injection E as -> -> ->. destruct (Z.eq_dec i P) as [->|Hne].
  { unfold pdpt_step. rewrite Z.ltb_irrefl. cbn [wpx]. split; [done|]. intros q Hq. apply Hall. unfold P. dlia. }
  assert (HiN : 512 * i < N) by (unfold P in *; dlia). assert (Hi' : 0 <= i < 512) by (clear -Hi HiN HN; lia).
  assert (HiP : i < P) by (clear -Hi Hne; lia). rewrite Z.min_l in * by lia.
  apply (wpx_post _ _ _ _ _ (pdpt_round s1 ir i P (ke_good _ _ _ K) (keeps_shows _ _ _ _ _ K Hs) (keeps_table _ _ _ _ K HR) HT
    (keeps_taken _ _ _ _ K HTt) (keeps_room _ _ _ _ K Hr) Hi' HiN HiP)).
  intros x (s2 & -> & K2 & Hold & Hnew). split; [|lia]. cbv zeta. split; [lia|]. split; [done|]. split.
  - apply (keeps_trans _ _ _ _ K), (keeps_weaken (makes s1 R)); [done|]. intros G. by apply (makes_keeps s s1 (makes s R)).
  - intros q Hq. destruct (Z.lt_ge_cases q (512 * i)); [|apply Hnew; lia]. apply Hold; [lia|]. apply Hall. lia.
Qed.
End large_pages.
End below_root.
End frames.

(** ** What the guest sees

    The walk of the extended page tables: the address of the host and the bits
    5:0 of the last entry (read, write, execute, memory type), or nothing when an
    entry is absent or has reserved bits set. *)
Definition ept_walk (m : gmap Z Z) (eptp gpa : Z) : option (Z * Z) :=
  let e4 := entry m eptp (idx4 gpa) in
  if e4 .& 0x7 =? 0 then None else
  let e3 := entry m (frame_of e4) (idx3 gpa) in
  if (e3 .& 0x7 =? 0) || page_size e3 then None else
  let e2 := entry m (frame_of e3) (idx2 gpa) in
  if e2 .& 0x7 =? 0 then None else
  if page_size e2 then
    if e2 .& 0x1FF000 =? 0 then Some (large_frame_of e2 + gpa mod 2 ^ 21, e2 .& 0x3F) else None
  else
    let e1 := entry m (frame_of e2) (idx1 gpa) in
    if e1 .& 0x7 =? 0 then None else Some (frame_of e1 + gpa mod 2 ^ 12, e1 .& 0x3F).

(** The entry of a frame and its flags. *)
Lemma entry_bits F c : aligned F → 0 <= F < 2 ^ 52 → 0 <= c < 4096 →
  frame_of (F .| c) = F ∧ (∀ d, 0 <= d < 4096 → (F .| c) .& d = c .& d) ∧ page_size (F .| c) = page_size c.
Proof.
  intros HF Hb Hc.
  assert (Hlow : ∀ k, 0 <= k < 12 → Z.testbit F k = false).
  { intros k Hk. unfold aligned in HF. replace F with (F / 4096 * 2 ^ 12) by dlia. apply Z.mul_pow2_bits_low. lia. }
  assert (Hhigh : ∀ d k, 0 <= d < 4096 → 12 <= k → Z.testbit d k = false).
  { intros d k Hd Hk. rewrite <- (Z.mod_small d (2 ^ 12)) by lia. apply Z.mod_pow2_bits_high. lia. }
  split; [|split].
  - apply frame_of_page; [done|done|]. unfold frame_of. apply Z.bits_inj'. intros k Hk. rewrite Z.land_spec, Z.bits_0.
    change (2 ^ 52 - 2 ^ 12) with (Z.shiftl (Z.ones 40) 12). destruct (Z.lt_ge_cases k 12).
    + rewrite Z.shiftl_spec_low by lia. apply andb_false_r.
    + by rewrite Hhigh by lia.
  - intros d Hd. apply Z.bits_inj'. intros k Hk. rewrite !Z.land_spec, Z.lor_spec. destruct (Z.lt_ge_cases k 12).
    + by rewrite Hlow by lia.
    + by rewrite (Hhigh d), !andb_false_r by lia.
  - unfold page_size. by rewrite Z.lor_spec, Hlow by lia.
Qed.

Lemma table_word_flags F : table_word F = F .| 0x7.
Proof. unfold table_word. by rewrite <- !Z.lor_assoc. Qed.
Lemma large_entry_flags F : large_entry F = F .| 0xB7.
Proof. unfold large_entry. by rewrite <- !Z.lor_assoc. Qed.

(** The page of address [a] of the first 2 MB, and its rights. *)
Definition low_rights (k : Z) : Z := if k =? 0xB8 then 0x3 else 0x37.
Lemma low_at_flags k : 0 <= k < 512 → low_at k = (4096 * k + if k <? 256 then 0 else 2 ^ 32) .| low_rights k.
Proof.
  intros Hk. unfold low_at, low_entry, low_rights. change (PG_TABLE_ENTRIES / 2) with 256.
  destruct (Z.eqb_spec k 0xB8) as [->|]; [reflexivity|]. destruct (k <? 256).
  - by rewrite Z.add_0_r, <- !Z.lor_assoc.
  - rewrite u64_id by ulia. by rewrite <- !Z.lor_assoc.
Qed.

Lemma large_bits F : aligned F → 0 <= F < 2 ^ 52 →
  (F .| 0xB7) .& 0x1FF000 = F mod 2 ^ 21 ∧ (F mod 2 ^ 21 = 0 → large_frame_of (F .| 0xB7) = F).
Proof.
  intros HF Hb. assert (Hlow : ∀ k, 0 <= k < 12 → Z.testbit F k = false).
  { intros k Hk. unfold aligned in HF. replace F with (F / 4096 * 2 ^ 12) by dlia. apply Z.mul_pow2_bits_low. lia. }
  split.
  - rewrite Z.land_lor_distr_l. change (0xB7 .& 0x1FF000) with 0. rewrite Z.lor_0_r, <- Z.land_ones by lia.
    change 0x1FF000 with (Z.shiftl (Z.ones 9) 12). apply Z.bits_inj'. intros k Hk. rewrite !Z.land_spec.
    destruct (Z.lt_ge_cases k 12); [by rewrite Hlow by lia|]. rewrite Z.shiftl_spec by lia. f_equal.
    destruct (Z.lt_ge_cases k 21); [by rewrite !Z.ones_spec_low by lia|by rewrite !Z.ones_spec_high by lia].
  - intros Hz. apply large_frame_of_page; done.
Qed.

(** *** The view of the guest *)

Section view.
Context (kphy kend rphy rend N : Z).

(** Where the tables send [gpa], and with which rights: the first MB to itself,
    the second to 4 GB above, the pages after that to the kernel, to the ramdisk
    and to the memory at 4 GB. A page that is not a multiple of 2 MB is not mapped. *)
Definition ept_view (gpa : Z) : option (Z * Z) :=
  if gpa <? 2 ^ 20 then Some (gpa, low_rights (gpa / 4096))
  else if gpa <? 2 ^ 21 then Some (gpa + 2 ^ 32, 0x37)
  else
    let page := large_at kphy kend rphy rend (gpa / 2 ^ 21) in
    if page mod 2 ^ 21 =? 0 then Some (page + gpa mod 2 ^ 21, 0x37) else None.

Context (Him : image_fits kphy kend rphy rend N) (Hak : aligned kphy) (Har : aligned rphy).

Lemma large_at_page q : 1 <= q < N →
  aligned (large_at kphy kend rphy rend q) ∧ 0 <= large_at kphy kend rphy rend q < 2 ^ 52.
Proof using Him Hak Har.
  intros Hq. destruct Him. unfold large_at. set (nk := pages_of kphy kend). set (nr := pages_of rphy rend).
  unfold aligned in *. destruct (Z.ltb_spec (q - 1) nk) as [H1|H1]; [|destruct (Z.ltb_spec (q - 1) (nk + nr)) as [H2|H2]].
  - unfold nk, pages_of in H1. dlia.
  - assert (0 <= nk) by (unfold nk, pages_of; lia). clearbody nk. unfold nr, pages_of in H2. dlia.
  - dlia.
Qed.
End view.

Section guest.
Context `{HM : Mmu} {A : Type} `{HA : FrameAllocator A} (f3 f2 f1 cr3 R kphy kend rphy rend N : Z).
Implicit Types s : vm A.
Context (Him : image_fits kphy kend rphy rend N) (Hak : aligned kphy) (Har : aligned rphy).
Abbreviation a_table := (is_table f3 f2 f1 cr3).
Abbreviation mapped := (page_mapped f3 f2 f1 cr3 R kphy kend rphy rend).

Lemma a_table_word s F : a_table s F →
  table_word F .& 0x7 = 0x7 ∧ page_size (table_word F) = false ∧ frame_of (table_word F) = F.
Proof using.
  intros ([HF _] & _ & Hb & _). rewrite table_word_flags. destruct (entry_bits F 0x7 HF ltac:(lia) ltac:(lia)) as (E1 & E2 & E3).
  rewrite E1, E2, E3 by lia. done.
Qed.

Lemma low_word k : 0 <= k < 512 → (low_at k .& 0x7 =? 0) = false ∧
  frame_of (low_at k) = 4096 * k + (if k <? 256 then 0 else 2 ^ 32) ∧ low_at k .& 0x3F = low_rights k.
Proof using.
  intros Hk. rewrite low_at_flags by done. set (F := 4096 * k + _).
  assert (HF : aligned F ∧ 0 <= F < 2 ^ 52) by (unfold F, aligned; destruct (k <? 256); dlia).
  destruct (entry_bits F (low_rights k) (proj1 HF) (proj2 HF)) as (E1 & E2 & _); [unfold low_rights; case_match; lia|].
  rewrite E1, !E2 by lia. unfold low_rights. by destruct (k =? 0xB8).
Qed.

(** The tables give the view. *)
Lemma tables_view s Q gpa : entry (vm_mem s) Q 0 = table_word R → a_table s R →
  0 <= gpa < 2 ^ 21 * N → mapped s (gpa / 2 ^ 21) →
  ept_walk (vm_mem s) Q gpa = ept_view kphy kend rphy rend gpa.
Proof using Him Hak Har.
  intros HQ HR Hg (F & HE & HF & _ & Hd). pose proof (im_pages _ _ _ _ _ Him) as HN.
  set (q := gpa / 2 ^ 21) in *. assert (Hq : 0 <= q < N) by (unfold q; dlia).
  unfold ept_walk. replace (idx4 gpa) with 0 by (unfold idx4; dlia). rewrite HQ.
  destruct (a_table_word s R HR) as (-> & _ & ->). cbn [Z.eqb].
  replace (idx3 gpa) with (q / 512) by (unfold idx3, q; dlia). rewrite HE.
  destruct (a_table_word s F HF) as (-> & -> & ->). cbn [Z.eqb orb]. replace (idx2 gpa) with (q mod 512) by (unfold idx2, q; dlia).
  unfold page_done in Hd. unfold ept_view. destruct (Z.eqb_spec q 0) as [Hq0|Hq0].
  - destruct Hd as (P & HEP & HP & _ & _ & Hall). rewrite Hq0. change (0 mod 512) with 0. rewrite HEP.
    destruct (a_table_word s P HP) as (-> & -> & ->). cbn [Z.eqb]. set (k := idx1 gpa).
    assert (Hk : 0 <= k < 512 ∧ gpa = 4096 * k + gpa mod 4096) by (unfold k, idx1, q in *; dlia).
    rewrite Hall by lia. destruct (low_word k (proj1 Hk)) as (-> & -> & ->). change (2 ^ 12) with 4096.
    replace (gpa / 4096) with k by dlia. destruct (Z.ltb_spec gpa (2 ^ 20)), (Z.ltb_spec k 256); try (exfalso; dlia).
    + do 2 f_equal. lia.
    + rewrite (proj2 (Z.ltb_lt gpa (2 ^ 21))) by dlia. unfold low_rights. rewrite (proj2 (Z.eqb_neq k 0xB8)) by lia.
      do 2 f_equal. dlia.
  - assert (Hq1 : 1 <= q < N) by lia. rewrite (proj2 (Z.ltb_ge gpa (2 ^ 20))), (proj2 (Z.ltb_ge gpa (2 ^ 21))) by (unfold q in *; dlia).
    destruct (large_at_page kphy kend rphy rend N Him Hak Har q Hq1) as [HL HLb]. rewrite Hd, large_entry_flags.
    set (L := large_at _ _ _ _ q) in *. destruct (entry_bits L 0xB7 HL HLb ltac:(lia)) as (_ & E2 & E3).
    destruct (large_bits L HL HLb) as [E4 E5]. rewrite !E2, E3, E4 by lia. change (0xB7 .& 0x7 =? 0) with false. change (page_size 0xB7) with true.
    cbv zeta. fold q L. destruct (Z.eqb_spec (L mod 2 ^ 21) 0) as [EL|]; [|done]. rewrite E5, E2 by (exact EL || lia). reflexivity.
Qed.

(** *** The upper tables *)

(** What the loops start from: [Q] is the base of the tables, [R] the table in
    its entry 0, mapped in slot [i]. *)
Record guest_ready s (Q R' i : Z) : Prop := GuestReady {
  gu_good : good f3 f2 f1 cr3 s;
  gu_shows : shows f1 s i R';
  gu_root : a_table s R'; gu_base : a_table s Q; gu_ne : Q ≠ R';
  gu_entry : entry (vm_mem s) Q 0 = table_word R';
  gu_test : data f3 f2 f1 cr3 TEST_FRAME; gu_taken : taken_frame s TEST_FRAME;
  gu_room : room f1 s 3
}.

Lemma opened_table s s1 i F G : opened f3 f2 f1 cr3 s s1 i F → a_table s G → a_table s1 G.
Proof using. intros Ho. unfold is_table, taken_frame. by rewrite (op_frames _ _ _ _ _ _ _ _ Ho). Qed.

Lemma opened_shows s s1 i F j G : opened f3 f2 f1 cr3 s s1 i F → shows f1 s j G → shows f1 s1 j G.
Proof using.
  intros Ho (Hj & Hp & Hf). assert (j ≠ i).
  { intros ->. pose proof (op_free _ _ _ _ _ _ _ _ Ho) as Hn. unfold slot_free in Hn. congruence. }
  split; [done|]. by rewrite (op_others _ _ _ _ _ _ _ _ Ho).
Qed.

Lemma zero_page_ok s i F : good f3 f2 f1 cr3 s → shows f1 s i F → data f3 f2 f1 cr3 F →
  wp (zero_page s (slot_va i)) (fun s' => keeps f3 f2 f1 cr3 (eq F) s s' ∧ (∀ k, 0 <= k < 512 → entry (vm_mem s') F k = 0) ∧
    vm_frames s' = vm_frames s).
Proof using.
  intros Hg Hs HF. apply (wp_while _ (fun '(k, s1) => 0 <= k <= 512 ∧ keeps f3 f2 f1 cr3 (eq F) s s1 ∧
    (∀ k', 0 <= k' < k → entry (vm_mem s1) F k' = 0) ∧ vm_frames s1 = vm_frames s) (fun '(k, _) => 512 - k)); cycle 1.
  { split; [lia|]. split; [by apply keeps_refl|]. split; [lia|done]. }
  { lia. }
  intros [k s1] (Hk & K & Hall & Ef). unfold zero_page_step. change PG_TABLE_ENTRIES with 512.
  destruct (Z.ltb_spec k 512); [|split; [exact K|split; [intros; apply Hall; lia|exact Ef]]].
  destruct (store_ok _ _ _ _ s1 i F k 0 (ke_good _ _ _ _ _ _ _ K) (keeps_shows _ _ _ _ _ _ _ _ _ K Hs) HF ltac:(lia)) as (E & K1 & H1).
  rewrite E. run. split; [|lia]. split; [lia|]. split; [by apply (keeps_trans _ _ _ _ _ s s1)|].
  split; [|exact Ef]. intros k' Hk'. rewrite H1. destruct (Z.eqb_spec k k'); [done|]. apply Hall. lia.
Qed.

Definition out_of_roots (msg : string) : Prop :=
  msg = "Failed to allocate a PML4T frame" ∨ msg = "Failed to allocate a PDPT frame".

(** Pages may have been mapped and frames taken; the words outside [T] stay. *)
Record enlarged (T : Z → Prop) s s' : Prop := Enlarged {
  gr_avail n : 0 <= n → avail (vm_frames s') n = true → avail (vm_frames s) n = true;
  gr_words G k : aligned G → 0 <= k < 512 → G ≠ f1 → ¬ T G → entry (vm_mem s') G k = entry (vm_mem s) G k;
  gr_bound : frame_bound (vm_frames s') = frame_bound (vm_frames s)
}.
Lemma enlarged_trans T s1 s2 s3 : enlarged T s1 s2 → enlarged T s2 s3 → enlarged T s1 s3.
Proof using. intros [A1 W1 B1] [A2 W2 B2]. split; [auto| |by rewrite B2]. intros G k HG Hk H1 HT. by rewrite W2, W1. Qed.
Lemma enlarged_weaken (T T' : Z → Prop) s s' : enlarged T s s' → (∀ G, T G → T' G) → enlarged T' s s'.
Proof using. intros [A1 W1 B1] H. split; auto. Qed.
Lemma keeps_enlarged T s s' : keeps f3 f2 f1 cr3 T s s' → enlarged T s s'.
Proof using. intros K. split; apply K. Qed.
Lemma opened_enlarged T s s1 i F : opened f3 f2 f1 cr3 s s1 i F → enlarged T s s1.
Proof using.
  intros Ho. split; [intros n _; by rewrite (op_frames _ _ _ _ _ _ _ _ Ho)| |by rewrite (op_frames _ _ _ _ _ _ _ _ Ho)]. intros G k HG Hk H1 _. by apply (op_words _ _ _ _ _ _ _ _ Ho).
Qed.

(** One table: a frame, mapped. *)
Definition root_made s (n : nat) (F va : Z) s' : Prop := ∃ i, va = slot_va i ∧
  good f3 f2 f1 cr3 s' ∧ shows f1 s' i F ∧ a_table s' F ∧ taken_frame s' TEST_FRAME ∧ room f1 s' n ∧
  (∀ G, a_table s G → a_table s' G ∧ G ≠ F) ∧ (∀ j G, shows f1 s j G → shows f1 s' j G) ∧
  fresh f3 f2 f1 cr3 s F ∧ enlarged nowhere s s'.

Lemma new_root {B} s msg1 msg2 n (k : Z → Z → vm A → outcome B) (Post : B → Prop) (P : string → Prop) :
  good f3 f2 f1 cr3 s → data f3 f2 f1 cr3 TEST_FRAME → taken_frame s TEST_FRAME → room f1 s (S n) → P msg1 →
  (∀ F va s', root_made s n F va s' → wpx (k F va s') Post P False) →
  wpx ('(F, s) ← alloc_or s msg1; '(va, s) ← map_or s F msg2; k F va s) Post P False.
Proof using.
  intros Hg HT HTt Hr HP Hk. wp_step.
  apply (wpx_mono _ _ _ _ _ _ _ (alloc_or_ok _ _ _ _ s msg1 Hg)); [|by intros m <-|done].
  intros [F s1] (Hfresh & Ht & _ & K1). pose proof (is_table_fresh _ _ _ _ _ _ _ HTt Hfresh Ht) as HF.
  wp_step. apply wp_wpx, (wp_mono _ _ _ (map_or_ok _ _ _ _ s1 F msg2 n (ke_good _ _ _ _ _ _ _ K1) (proj1 HF)
    (keeps_room _ _ _ _ _ _ _ _ K1 Hr))).
  intros [va s2] (i & -> & Ho & Hr2). apply Hk. exists i. split; [done|].
  split; [apply Ho|]. split; [apply Ho|]. split; [exact (opened_table s1 s2 i F F Ho HF)|].
  split; [unfold taken_frame; rewrite (op_frames _ _ _ _ _ _ _ _ Ho); exact (keeps_taken _ _ _ _ _ _ _ _ K1 HTt)|].
  split; [exact Hr2|]. split.
  - intros G HG. split; [apply (opened_table s1 s2 i F G Ho), (keeps_table _ _ _ _ _ _ _ _ K1 HG)|].
    intros ->. apply (fresh_ne _ _ _ _ s F F Hfresh); [apply HG|reflexivity].
  - split; [|split; [exact Hfresh|apply (enlarged_trans _ s s1); [by apply keeps_enlarged|by apply (opened_enlarged _ _ _ i F)]]].
    intros j G Hj. apply (opened_shows s1 s2 i F j G Ho), (keeps_shows _ _ _ _ _ _ _ _ _ K1 Hj).
Qed.

Lemma ept_roots_ok s : good f3 f2 f1 cr3 s → data f3 f2 f1 cr3 TEST_FRAME → taken_frame s TEST_FRAME → room f1 s 5 →
  wpx (ept_roots s) (fun '(Q, va4, va3, s') => ∃ T i4 i3, va4 = slot_va i4 ∧ va3 = slot_va i3 ∧
    guest_ready s' Q T i3 ∧ shows f1 s' i4 Q ∧ fresh f3 f2 f1 cr3 s Q ∧ fresh f3 f2 f1 cr3 s T ∧ enlarged (either Q T) s s')
    out_of_roots False.
Proof using.
  intros Hg HT HTt Hr. apply (new_root s _ _ 4 _ _ _ Hg HT HTt Hr (or_introl eq_refl)).
  intros Q va4 s1 (i4 & -> & Hg1 & Hs1 & HQ1 & HTt1 & Hr1 & _ & _ & Hf1 & Gr1).
  apply (new_root s1 _ _ 3 _ _ _ Hg1 HT HTt1 Hr1 (or_intror eq_refl)).
  intros T va3 s2 (i3 & -> & Hg2 & Hs2 & HR2 & HTt2 & Hr2 & Hold & Hsh & Hf2 & Gr2). destruct (Hold Q HQ1) as [HQ2 HQR].
  pose proof (Hsh _ _ Hs1) as Hs4. wp_step.
  apply wp_wpx, (wp_mono _ _ _ (zero_page_ok s2 i4 Q Hg2 Hs4 (proj1 HQ2))). intros s3 [K3 _]. wp_step.
  apply wp_wpx, (wp_mono _ _ _ (zero_page_ok s3 i3 T (ke_good _ _ _ _ _ _ _ K3) (keeps_shows _ _ _ _ _ _ _ _ _ K3 Hs2) (proj1 HR2))).
  intros s4 [K4 _]. pose proof (keeps_shows _ _ _ _ _ _ _ _ _ K4 (keeps_shows _ _ _ _ _ _ _ _ _ K3 Hs4)) as Hs5.
  destruct (store_ok _ _ _ _ s4 i4 Q 0 (table_word T) (ke_good _ _ _ _ _ _ _ K4) Hs5 (proj1 HQ2) ltac:(lia)) as (E & K5 & H5).
  set (s5 := with_mem s4 _) in *. wp_step. unfold table_word in E. rewrite E. cbn [wpx].
  assert (K : keeps f3 f2 f1 cr3 (either Q T) s2 s5).
  { apply (keeps_trans _ _ _ _ _ s2 s3); [apply (keeps_weaken _ _ _ _ (eq Q)); [done|by left]|].
    apply (keeps_trans _ _ _ _ _ s3 s4); [apply (keeps_weaken _ _ _ _ (eq T)); [done|by right]|].
    apply (keeps_weaken _ _ _ _ (eq Q)); [done|by left]. }
  exists T, i4, i3. split; [done|]. split; [done|].
  split; [|split; [by apply (keeps_shows _ _ _ _ _ _ _ _ _ K5)|split; [exact Hf1|split]]].
  2: { destruct Hf2 as (HT1 & HT2 & HT3). split; [exact HT1|split; [exact HT2|]]. apply (gr_avail _ _ _ Gr1); [apply Z.div_pos; lia|exact HT3]. }
  2: { apply (enlarged_trans _ s s1); [apply (enlarged_weaken nowhere); [exact Gr1|by intros ? []]|].
    apply (enlarged_trans _ s1 s2); [apply (enlarged_weaken nowhere); [exact Gr2|by intros ? []]|]. by apply keeps_enlarged. }
  split; [apply K|by apply (keeps_shows _ _ _ _ _ _ _ _ _ K)|by apply (keeps_table _ _ _ _ _ _ _ _ K)|
    by apply (keeps_table _ _ _ _ _ _ _ _ K)|done|by rewrite H5|done|by apply (keeps_taken _ _ _ _ _ _ _ _ K)|
    by apply (keeps_room _ _ _ _ _ _ _ _ K)].
Qed.
End guest.

(** ** Property *)

Section property.
Context `{HM : Mmu} {A : Type} `{HA : FrameAllocator A} (f3 f2 f1 cr3 : Z).
Implicit Types s : vm A.

Lemma ept_fill_view s Q R i g kphy rphy :
  let kend := img_size g +w img_paddr g in
  let rend := extra_size g +w extra_paddr g in
  let N := Z.shiftr (vm_ram_size g) 1 in
  guest_ready f3 f2 f1 cr3 s Q R i → image_fits kphy kend rphy rend N → aligned kphy → aligned rphy →
  wpx (ept_fill g kphy rphy (slot_va i) s) (fun s' =>
    keeps f3 f2 f1 cr3 (makes s R) s s' ∧ ∀ s1 : vm A, (∀ G, taken_frame s' G → taken_frame s1 G) →
      (∀ G k, aligned G → 0 <= k < 512 → G ≠ f1 → entry (vm_mem s1) G k = entry (vm_mem s') G k) →
      ∀ gpa, 0 <= gpa < 2 ^ 21 * N → ept_walk (vm_mem s1) Q gpa = ept_view kphy kend rphy rend gpa) out_of_frames False.
Proof.
  intros kend rend N [Hg Hs HR HQ Hne He HT HTt Hr] Him Hak Har.
  apply (wpx_post _ _ _ _ _ (ept_fill_ok f3 f2 f1 cr3 R kphy kend rphy rend N Him g s i Hg Hs HR HT HTt Hr eq_refl eq_refl eq_refl)).
  intros s' [K Hall]. split; [exact K|]. intros s1 Htk Hw gpa Hgpa.
  assert (Hne1 : ∀ G, is_table f3 f2 f1 cr3 s' G → G ≠ f1).
  { intros G HG. apply (data_ne f3 f2 f1 cr3 G f1 (proj1 HG)). repeat constructor. }
  assert (Htab : ∀ G, is_table f3 f2 f1 cr3 s' G → is_table f3 f2 f1 cr3 s1 G).
  { intros G (H1 & H2 & H3 & H4). split; [done|]. split; [done|]. split; [done|]. by apply Htk. }
  pose proof (keeps_table f3 f2 f1 cr3 (makes s R) s s' Q K HQ) as HQ'. pose proof (keeps_table f3 f2 f1 cr3 (makes s R) s s' R K HR) as HR'.
  apply (tables_view f3 f2 f1 cr3 R kphy kend rphy rend N Him Hak Har s1 Q gpa).
  - rewrite (Hw Q 0 (proj1 (proj1 HQ')) ltac:(lia) (Hne1 Q HQ')). rewrite (ke_words _ _ _ _ _ _ _ K); [done|apply HQ|lia| |].
    + apply (data_ne f3 f2 f1 cr3 Q f1 (proj1 HQ)). repeat constructor.
    + by apply (table_not_made f3 f2 f1 cr3).
  - by apply Htab.
  - done.
  - apply (page_mapped_words f3 f2 f1 cr3 R kphy kend rphy rend s' s1); [exact Htk| | |apply Hall; dlia].
    + intros G k HG _ Hk. apply Hw; [apply HG|done|by apply Hne1].
    + pose proof (im_pages _ _ _ _ _ Him). apply Hw; [apply HR'|dlia|by apply Hne1].
Qed.

(** the tables that [virt_pg_table_setup] fills send every address of the
    guest's memory where they should: the first MB to itself, with the page at 0xB8000 not
    executable and uncached, the second MB to 4 GB above, and the pages of 2 MB
    after them to the kernel, to the ramdisk and to the memory at 4 GB, in this
    order and without a gap; a kernel or ramdisk that is not at a multiple of 2 MB is not mapped at all.
    The loops end, every page mapped on the way is unmapped again, and they stop only when the
    allocator has no frame for a table. *)
Theorem ept_fill_spec s Q R i g kphy rphy :
  let kend := img_size g +w img_paddr g in
  let rend := extra_size g +w extra_paddr g in
  let N := Z.shiftr (vm_ram_size g) 1 in
  guest_ready f3 f2 f1 cr3 s Q R i → image_fits kphy kend rphy rend N → aligned kphy → aligned rphy →
  wpx (ept_fill g kphy rphy (slot_va i) s) (fun s' =>
    good f3 f2 f1 cr3 s' ∧ (∀ n, room f1 s n → room f1 s' n) ∧
    ∀ gpa, 0 <= gpa < 2 ^ 21 * N → ept_walk (vm_mem s') Q gpa = ept_view kphy kend rphy rend gpa) out_of_frames False.
Proof.
  intros kend rend N Hr Him Hak Har. apply (wpx_post _ _ _ _ _ (ept_fill_view s Q R i g kphy rphy Hr Him Hak Har)).
  intros s' [K Hview]. split; [apply K|]. split; [|by apply (Hview s')]. intros n. by apply (keeps_room f3 f2 f1 cr3 (makes s R)).
Qed.
End property.

(** ** Witness *)

Definition guest_16mb : vm_struct := VmStruct 0 [] 0x600000 0x300000 1 16 0 0x100000 0 [] 0x1000000 0x1000 SPINLOCK_UNLOCKED.

Lemma init_frames_wf : phys_wf (vm_frames init_vm).
Proof.
  pose proof (alloc_phys_frame_ok sample_phys sample_phys_wf) as Hw.
  assert (Ef : vm_frames init_vm = match alloc_phys_frame sample_phys with Ok x => x.2 | _ => sample_phys end) by (vm_compute; reflexivity).
  rewrite Ef. destruct (alloc_phys_frame sample_phys) as [[r p]| | |]; [|exact sample_phys_wf..]. cbn [snd].
  destruct Hw as [(n & _ & _ & _ & _ & Hu)|(_ & _ & Hu)]; apply Hu.
Qed.

Lemma init_good : good 0x301000 0x302000 0x13F000 0x300000 init_vm.
Proof.
  split; [exact init_kernel|exact init_cr3|exact init_frames_wf|].
  assert (Hall : Forall (fun F => taken_frame init_vm F) [0x300000; 0x301000; 0x302000; 0x13F000]).
  { repeat (apply Forall_cons; split; [split; [discriminate|vm_compute; reflexivity]|]). apply Forall_nil_2. }
  intros F HF. rewrite Forall_forall in Hall. by apply Hall.
Qed.

Lemma test_frame_data : data 0x301000 0x302000 0x13F000 0x300000 TEST_FRAME ∧ taken_frame init_vm TEST_FRAME.
Proof.
  split.
  - split; [reflexivity|]. split; [split; [discriminate|reflexivity]|]. intros HF.
    repeat (apply elem_of_cons in HF as [HF|HF]; [discriminate HF|]). by apply elem_of_nil in HF.
  - split; [discriminate|vm_compute; reflexivity].
Qed.

Lemma init_room : room 0x13F000 init_vm 5.
Proof.
  exists (Z.of_nat <$> seq 0 5). split; [|split].
  - apply NoDup_fmap_2; [intros ? ? ?; lia|apply NoDup_seq].
  - done.
  - intros i Hi. apply list_elem_of_fmap in Hi as (k & -> & Hk). apply elem_of_seq in Hk.
    split; [lia|]. apply init_free. lia.
Qed.

Definition roots_vm : outcome (Z * Z * Z * vm phys) := ept_roots init_vm.
Definition fill_vm (r : Z * Z * Z * vm phys) : outcome (vm phys) :=
  let '(_, _, va3, s) := r in ept_fill guest_16mb 0x600000 0x1000000 va3 s.

Lemma roots_ready Q va4 va3 s : roots_vm = Ok (Q, va4, va3, s) →
  ∃ T i, va3 = slot_va i ∧ guest_ready 0x301000 0x302000 0x13F000 0x300000 s Q T i.
Proof.
  intros E. pose proof (ept_roots_ok _ _ _ _ init_vm init_good (proj1 test_frame_data) (proj2 test_frame_data) init_room) as Hr.
  change (ept_roots init_vm) with roots_vm in Hr. rewrite E in Hr. destruct Hr as (T & _ & i & _ & -> & Hr & _ & _). exists T, i. split; [reflexivity|exact Hr].
Qed.

Lemma fill_runs : match roots_vm with Ok r => match fill_vm r with Ok _ => true | _ => false end | _ => false end = true.
Proof. vm_compute. reflexivity. Qed.

Lemma guest_fits : image_fits 0x600000 (img_size guest_16mb +w img_paddr guest_16mb) 0x1000000
  (extra_size guest_16mb +w extra_paddr guest_16mb) (vm_ram_size guest_16mb >>w 1).
Proof. by split. Qed.

(** A guest of 16 MB on the tables that the boot code leaves. *)
Lemma ept_fill_spec_witness : ∃ Q va4 va3 s s', roots_vm = Ok (Q, va4, va3, s) ∧ fill_vm (Q, va4, va3, s) = Ok s' ∧
  ept_walk (vm_mem s') Q 0xB8123 = Some (0xB8123, 0x3) ∧ ept_walk (vm_mem s') Q 0x212345 = Some (0x612345, 0x37) ∧
  ept_walk (vm_mem s') Q 0x600000 = Some (0x1000000, 0x37).
Proof.
  pose proof fill_runs as Hrun. destruct roots_vm as [[[[Q va4] va3] s]| | |] eqn:Er; [|discriminate Hrun..].
  destruct (roots_ready Q va4 va3 s Er) as (T & i & -> & Hready).
  pose proof (ept_fill_spec _ _ _ _ s Q T i guest_16mb 0x600000 0x1000000 Hready guest_fits eq_refl eq_refl) as Hf.
  cbv zeta in Hf. change (ept_fill guest_16mb 0x600000 0x1000000 (slot_va i) s) with (fill_vm (Q, va4, slot_va i, s)) in Hf.
  destruct (fill_vm (Q, va4, slot_va i, s)) as [s'| | |] eqn:Ef; [|discriminate Hrun..].
  destruct Hf as (_ & _ & Hview). exists Q, va4, (slot_va i), s, s'. split; [reflexivity|]. split; [exact Ef|].
  split; [|split]; (rewrite Hview; [reflexivity|split; [discriminate|reflexivity]]).
Defined.
