(* ===== verification/ByteMem.v ===== *)
(** * Bytes through the page tables

    Loads and stores of single bytes and of little-endian values at virtual
    addresses, on the 64-bit words of Paging.v, and [memcpy] of
    [asm_string.h] ([rep movsb]). *)

From S2P Require Import Prelude Layout Bits Spinlock Physical Mmu Paging Bytes.

Local Open Scope Z_scope.
Local Open Scope c_scope.

(** The byte at a physical address, and a memory with another byte there. *)
Definition byte_at (m : gmap Z Z) (pa : Z) : Z :=
  (ldw m (pa - pa mod 8) >>w (8 * (pa mod 8))) .& 0xFF.
Definition put_byte (m : gmap Z Z) (pa x : Z) : gmap Z Z :=
  let w := pa - pa mod 8 in
  let sh := 8 * (pa mod 8) in
  <[w := (ldw m w .& ~w (Z.shiftl 0xFF sh)) .| Z.shiftl (x .& 0xFF) sh]> m.

Section access.
Context `{HM : Mmu} {A : Type}.
Implicit Types s : vm A.

Definition ldb s (va : Z) : outcome Z :=
  match translate (vm_mem s) (vm_cr3 s) va with Some pa => Ok (byte_at (vm_mem s) pa) | None => Fault end.
Definition stb s (va x : Z) : outcome (vm A) :=
  match translate (vm_mem s) (vm_cr3 s) va with Some pa => Ok (with_mem s (put_byte (vm_mem s) pa x)) | None => Fault end.

(** Values of [n] bytes. *)
Definition ldn (n : nat) s (va : Z) : outcome Z := read_le (ldb s) n va.
Fixpoint stn (n : nat) s (va x : Z) : outcome (vm A) :=
  match n with
  | O => Ok s
  | Datatypes.S n => s ← stb s va x; stn n s (va +w 1) (x >>w 8)
  end.

(** The bytes of a string of the program, with the 0 at its end. *)
Fixpoint st_string s (va : Z) (str : string) : outcome (vm A) :=
  match str with
  | EmptyString => stb s va 0
  | String c str => s ← stb s va (Z.of_nat (Ascii.nat_of_ascii c)); st_string s (va +w 1) str
  end.

Definition movsb_step (st : Z * Z * Z * vm A) : outcome ((Z * Z * Z * vm A) + vm A) :=
  let '(n, dest, src, s) := st in
  if n =? 0 then Ok (inr s)
  else b ← ldb s src; s ← stb s dest b; Ok (inl (n - 1, dest +w 1, src +w 1, s)).
Definition memcpy s (dest src n : Z) : outcome (vm A) := while movsb_step (n, dest, src, s).
End access.

(** ** Bytes of memory *)

Lemma byte_range m pa : 0 <= byte_at m pa < 256.
Proof. unfold byte_at. change 0xFF with (Z.ones 8). rewrite Z.land_ones by lia. apply Z.mod_pos_bound. lia. Qed.

Lemma byte_testbit m pa i : 0 <= i →
  Z.testbit (byte_at m pa) i = (i <? 8) && Z.testbit (ldw m (pa - pa mod 8)) (i + 8 * (pa mod 8)).
Proof.
  intros Hi. unfold byte_at. change 0xFF with (Z.ones 8). rewrite Z.land_spec, Z.shiftr_spec by lia.
  rewrite Z.testbit_ones_nonneg by lia. apply andb_comm.
Qed.

Lemma byte_put m pa x pb : byte_at (put_byte m pa x) pb = if pa =? pb then x mod 256 else byte_at m pb.
Proof.
  apply Z.bits_inj'. intros i Hi. rewrite byte_testbit by done. unfold put_byte. rewrite ldw_insert.
  destruct (Z.eqb_spec pa pb) as [->|Hne].
  - rewrite Z.eqb_refl. change 256 with (2 ^ 8). destruct (Z.ltb_spec i 8); cbn [andb].
    + rewrite Z.mod_pow2_bits_low by lia. rewrite Z.lor_spec, Z.land_spec.
      set (sh := 8 * (pb mod 8)). assert (Hsh : 0 <= sh <= 56) by (unfold sh; dlia).
      unfold u64. rewrite Z.mod_pow2_bits_low by lia. rewrite Z.lnot_spec, !Z.shiftl_spec by lia.
      replace (i + sh - sh) with i by lia. rewrite Z.land_spec. change 0xFF with (Z.ones 8).
      rewrite Z.ones_spec_low by lia. cbn [negb]. by rewrite andb_false_r, andb_true_r.
    + by rewrite Z.mod_pow2_bits_high by lia.
  - destruct (Z.eqb_spec (pa - pa mod 8) (pb - pb mod 8)) as [E|]; [|by rewrite byte_testbit].
    rewrite byte_testbit by done. destruct (Z.ltb_spec i 8); [|done]. cbn [andb].
    rewrite E, Z.lor_spec, Z.land_spec. set (sh := 8 * (pa mod 8)). set (k := i + 8 * (pb mod 8)).
    assert (Hsh : 0 <= sh <= 56 ∧ 0 <= k < 64 ∧ (k < sh ∨ sh + 8 <= k)) by (unfold sh, k; dlia).
    unfold u64. rewrite Z.mod_pow2_bits_low by lia. rewrite Z.lnot_spec by lia. change 0xFF with (Z.ones 8).
    assert (Hz : Z.testbit (Z.shiftl (Z.ones 8) sh) k = false ∧ Z.testbit (Z.shiftl (x .& Z.ones 8) sh) k = false).
    { destruct (proj2 (proj2 Hsh)).
      - by rewrite !Z.shiftl_spec_low by lia.
      - rewrite !Z.shiftl_spec by lia. rewrite Z.land_spec, Z.ones_spec_high by lia. by rewrite andb_false_r. }
    destruct Hz as [-> ->]. cbn [negb]. by rewrite andb_true_r, orb_false_r.
Qed.

Lemma put_byte_word m pa x a : a ≠ pa - pa mod 8 → ldw (put_byte m pa x) a = ldw m a.
Proof. intros Ha. unfold put_byte. rewrite ldw_insert, (proj2 (Z.eqb_neq _ _)); done. Qed.

(** The value of the [n] bytes from [pa] on. *)
Fixpoint value_at (n : nat) (m : gmap Z Z) (pa : Z) : Z :=
  match n with O => 0 | Datatypes.S n => byte_at m pa + 256 * value_at n m (pa + 1) end.

Lemma value_at_ext n m m' pa : (∀ k, pa <= k < pa + Z.of_nat n → byte_at m' k = byte_at m k) →
  value_at n m' pa = value_at n m pa.
Proof.
  revert pa. induction n as [|n IH]; intros pa H; cbn [value_at]; [done|]. rewrite H by lia.
  rewrite IH; [done|]. intros k Hk. apply H. lia.
Qed.

(** ** Accesses to memory that is mapped *)

Section mapped.
Context `{HM : Mmu} {A : Type} (tables : list Z).
Implicit Types s : vm A.

Definition tables_kept (m m' : gmap Z Z) : Prop :=
  ∀ F, F ∈ tables → ∀ k, 0 <= k < 512 → entry m' F k = entry m F k.
(** The addresses [va .. va+n-1] are those of the memory from [P] on, as long as
    the tables are not touched. *)
Definition seen s (va P n : Z) : Prop :=
  0 <= va ∧ va + n < 2 ^ 63 ∧ ∀ m', tables_kept (vm_mem s) m' →
    ∀ k, 0 <= k < n → translate m' (vm_cr3 s) (va + k) = Some (P + k).
(** The memory from [P] on is none of the tables. *)
Definition clear (P n : Z) : Prop := ∀ F, F ∈ tables → aligned F ∧ (P + n <= F ∨ F + 4096 <= P).
Definition within (P n pa : Z) : Prop := P <= pa < P + n.

(** Only the bytes of [W] are written, none of them in a table. *)
Record wrote (W : Z → Prop) s s' : Prop := Wrote {
  wr_state : s' = with_mem s (vm_mem s');
  wr_tables : tables_kept (vm_mem s) (vm_mem s');
  wr_bytes pa : ¬ W pa → byte_at (vm_mem s') pa = byte_at (vm_mem s) pa;
  wr_words a : a mod 8 = 0 → (∀ k, 0 <= k < 8 → ¬ W (a + k)) → ldw (vm_mem s') a = ldw (vm_mem s) a
}.

Lemma wrote_refl W s : wrote W s s.
Proof. split; [by destruct s|by intros F HF|done|done]. Qed.
Lemma wrote_trans W s1 s2 s3 : wrote W s1 s2 → wrote W s2 s3 → wrote W s1 s3.
Proof.
  intros [S1 T1 B1 V1] [S2 T2 B2 V2]. split.
  - rewrite S2. cbn. rewrite S1. done.
  - intros F HF k Hk. by rewrite T2, T1.
  - intros pa Hpa. by rewrite B2, B1.
  - intros a Ha Hn. by rewrite V2, V1.
Qed.
Lemma wrote_weaken (W W' : Z → Prop) s s' : wrote W s s' → (∀ pa, W pa → W' pa) → wrote W' s s'.
Proof. intros [S1 T1 B1 V1] H. split; [done|done|auto|]. intros a Ha Hn. apply V1; [done|]. intros k Hk HW. by apply (Hn k Hk), H. Qed.
Lemma wrote_seen W s s' va P n : wrote W s s' → seen s va P n → seen s' va P n.
Proof.
  intros [S1 T1 _ _] (H1 & H2 & H3). split; [done|]. split; [done|]. intros m' Hm k Hk. rewrite S1. cbn [vm_cr3 with_mem].
  apply H3; [|done]. intros F HF j Hj. by rewrite Hm, T1.
Qed.
Lemma seen_sub s va P n o n' : seen s va P n → 0 <= o → 0 <= n' → o + n' <= n → seen s (va + o) (P + o) n'.
Proof.
  intros (H1 & H2 & H3) Ho Hn Hle. split; [lia|]. split; [lia|]. intros m' Hm k Hk.
  rewrite <- !Z.add_assoc. apply H3; [done|lia].
Qed.
Lemma clear_sub P n o n' : clear P n → 0 <= o → o + n' <= n → clear (P + o) n'.
Proof. intros H Ho Hn F HF. destruct (H F HF). split; [done|lia]. Qed.

Lemma seen_next s va P n o : seen s va P n → 0 <= o < n → va + o +w 1 = va + (o + 1).
Proof. intros (H1 & H2 & _) Ho. rewrite u64_id by ulia. lia. Qed.

Lemma ldb_ok s va P n k : seen s va P n → 0 <= k < n → ldb s (va + k) = Ok (byte_at (vm_mem s) (P + k)).
Proof. intros (_ & _ & H3) Hk. unfold ldb. rewrite H3; [done|by intros F HF|done]. Qed.

Lemma ldn_ok N s va P n k : seen s va P n → 0 <= k → k + Z.of_nat N <= n →
  ldn N s (va + k) = Ok (value_at N (vm_mem s) (P + k)).
Proof.
  intros Hs. revert k. induction N as [|N IH]; intros k Hk Hn; unfold ldn; cbn [read_le value_at]; [done|].
  rewrite (ldb_ok s va P n k Hs) by lia. rewrite bind_ok, (seen_next s va P n k Hs) by lia.
  fold (ldn N s (va + (k + 1))). rewrite IH by lia. rewrite bind_ok. do 3 f_equal. f_equal. lia.
Qed.

Lemma stb_ok s va P n k x : seen s va P n → clear P n → 0 <= k < n →
  ∃ s', stb s (va + k) x = Ok s' ∧ wrote (eq (P + k)) s s' ∧ byte_at (vm_mem s') (P + k) = x mod 256.
Proof.
  intros (_ & _ & H3) Hc Hk. unfold stb. rewrite H3; [|by intros F HF|done]. eexists. split; [reflexivity|].
  cbn [vm_mem with_mem]. split; [split; [done| | |]|].
  - intros F HF j Hj. destruct (Hc F HF) as [HF' Hd]. unfold entry. apply put_byte_word. unfold aligned in HF'. dlia.
  - intros pa Hpa. cbn [vm_mem with_mem]. rewrite byte_put, (proj2 (Z.eqb_neq _ _)); done.
  - intros a Ha Hn. cbn [vm_mem with_mem]. apply put_byte_word. intros ->. apply (Hn ((P + k) mod 8) ltac:(dlia)). lia.
  - by rewrite byte_put, Z.eqb_refl.
Qed.

Lemma stn_ok N s va P n k x : seen s va P n → clear P n → 0 <= k → k + Z.of_nat N <= n → 0 <= x →
  ∃ s', stn N s (va + k) x = Ok s' ∧ wrote (within (P + k) (Z.of_nat N)) s s' ∧
    value_at N (vm_mem s') (P + k) = x mod 2 ^ (8 * Z.of_nat N).
Proof.
  intros Hs Hc. revert s k x Hs. induction N as [|N IH]; intros s k x Hs Hk Hn Hx; cbn [stn value_at].
  - exists s. split; [done|]. split; [apply wrote_refl|]. change (2 ^ _) with 1. by rewrite Z.mod_1_r.
  - destruct (stb_ok s va P n k x Hs Hc ltac:(lia)) as (s1 & E & W1 & V1). rewrite E, bind_ok.
    rewrite (seen_next s va P n k Hs) by lia.
    destruct (IH s1 (k + 1) (x >>w 8) (wrote_seen _ _ _ _ _ _ W1 Hs) ltac:(lia) ltac:(lia) ltac:(apply Z.shiftr_nonneg; lia))
      as (s2 & E2 & W2 & V2). exists s2. split; [done|]. split.
    + apply (wrote_trans _ s s1 s2); [apply (wrote_weaken _ _ _ _ W1)|apply (wrote_weaken _ _ _ _ W2)]; unfold within; intros; lia.
    + rewrite <- Z.add_assoc, V2. rewrite (wr_bytes _ _ _ W2) by (unfold within; lia). rewrite V1.
      rewrite Z.shiftr_div_pow2 by lia. change (2 ^ 8) with 256.
      replace (8 * Z.of_nat (Datatypes.S N)) with (8 + 8 * Z.of_nat N) by lia. rewrite Z.pow_add_r by lia.
      change (2 ^ 8) with 256. rewrite Z.rem_mul_r by lia. lia.
Qed.

(** A store of a word, seen by its bytes. *)
Lemma word_bytes m w n i : w mod 8 = 0 → 0 <= i → i + Z.of_nat n <= 8 →
  value_at n m (w + i) = (ldw m w / 2 ^ (8 * i)) mod 2 ^ (8 * Z.of_nat n).
Proof.
  intros Hw. revert i. induction n as [|n IH]; intros i Hi Hn; cbn [value_at].
  - change (2 ^ (8 * Z.of_nat 0)) with 1. by rewrite Z.mod_1_r.
  - rewrite <- Z.add_assoc, IH by lia. unfold byte_at. replace (w + i - (w + i) mod 8) with w by dlia.
    replace ((w + i) mod 8) with i by dlia. change 0xFF with (Z.ones 8). rewrite Z.land_ones, Z.shiftr_div_pow2 by lia.
    replace (8 * Z.of_nat (Datatypes.S n)) with (8 + 8 * Z.of_nat n) by lia. rewrite Z.pow_add_r by lia.
    rewrite Z.rem_mul_r by lia. change (2 ^ 8) with 256. do 2 f_equal. f_equal.
    rewrite Z.div_div by lia. f_equal. change 256 with (2 ^ 8). rewrite <- Z.pow_add_r by lia. f_equal. lia.
Qed.

Lemma vst_ok s va P n k v : seen s va P n → clear P n → P mod 8 = 0 → 0 <= k → 8 * k + 8 <= n →
  ∃ s', vst s (slot va k) v = Ok s' ∧ wrote (within (P + 8 * k) 8) s s' ∧ value_at 8 (vm_mem s') (P + 8 * k) = v mod 2 ^ 64.
Proof.
  intros (H1 & H2 & H3) Hc HP Hk Hn. unfold vst, slot. rewrite u64_id by ulia. rewrite H3; [|by intros F HF|lia].
  eexists. split; [reflexivity|]. cbn [vm_mem with_mem]. split; [split; [done| | |]|].
  - intros F HF j Hj. destruct (Hc F HF) as [HF' Hd]. unfold entry. cbn [vm_mem with_mem]. rewrite ldw_insert, (proj2 (Z.eqb_neq _ _)); [done|].
    unfold aligned in HF'. dlia.
  - intros pa Hpa. cbn [vm_mem with_mem]. unfold byte_at. rewrite ldw_insert, (proj2 (Z.eqb_neq _ _)); [done|].
    unfold within in Hpa. dlia.
  - intros a Ha Hno. cbn [vm_mem with_mem]. rewrite ldw_insert, (proj2 (Z.eqb_neq _ _)); [done|].
    intros <-. apply (Hno 0 ltac:(lia)). unfold within. lia.
  - pose proof (word_bytes (<[P + 8 * k := v]> (vm_mem s)) (P + 8 * k) 8 0 ltac:(dlia) ltac:(lia) ltac:(lia)) as E.
    rewrite Z.add_0_r in E. rewrite E, ldw_insert, Z.eqb_refl. change (2 ^ (8 * 0)) with 1. by rewrite Z.div_1_r.
Qed.

(** The bytes of a string and the 0 after them. *)
Fixpoint string_at (m : gmap Z Z) (pa : Z) (str : string) : Prop :=
  match str with
  | EmptyString => byte_at m pa = 0
  | String c str => byte_at m pa = Z.of_nat (Ascii.nat_of_ascii c) ∧ string_at m (pa + 1) str
  end.

Lemma string_at_ext m m' str pa : (∀ k, pa <= k <= pa + Z.of_nat (String.length str) → byte_at m' k = byte_at m k) →
  string_at m pa str → string_at m' pa str.
Proof.
  revert pa. induction str as [|c str IH]; intros pa H; cbn [string_at String.length] in *; [by rewrite H by lia|].
  intros [Hc Hs]. split; [by rewrite H by lia|]. apply IH; [|done]. intros k Hk. apply H. lia.
Qed.

Lemma st_string_ok s va P n str k : seen s va P n → clear P n → 0 <= k → k + Z.of_nat (String.length str) < n →
  ∃ s', st_string s (va + k) str = Ok s' ∧ wrote (within (P + k) (Z.of_nat (String.length str) + 1)) s s' ∧
    string_at (vm_mem s') (P + k) str.
Proof.
  intros Hs Hc. revert s k Hs. induction str as [|c str IH]; intros s k Hs Hk Hn; cbn [st_string string_at String.length] in *.
  - destruct (stb_ok s va P n k 0 Hs Hc ltac:(lia)) as (s' & E & W & V). exists s'. split; [done|].
    split; [apply (wrote_weaken _ _ _ _ W); unfold within; intros; lia|done].
  - destruct (stb_ok s va P n k (Z.of_nat (Ascii.nat_of_ascii c)) Hs Hc ltac:(lia)) as (s1 & E & W1 & V1). rewrite E, bind_ok.
    rewrite (seen_next s va P n k Hs) by lia.
    destruct (IH s1 (k + 1) (wrote_seen _ _ _ _ _ _ W1 Hs) ltac:(lia) ltac:(lia)) as (s2 & E2 & W2 & V2). exists s2. split; [done|]. split.
    + apply (wrote_trans _ s s1 s2); [apply (wrote_weaken _ _ _ _ W1)|apply (wrote_weaken _ _ _ _ W2)]; unfold within; intros; lia.
    + split; [|by replace (P + k + 1) with (P + (k + 1)) by lia]. rewrite (wr_bytes _ _ _ W2) by (unfold within; lia).
      rewrite V1. apply Z.mod_small. pose proof (Ascii.nat_ascii_bounded c). lia.
Qed.

(** [memcpy] between places that do not overlap. *)
Lemma memcpy_ok s dest src D S n N N' : seen s dest D N → seen s src S N' → clear D N → 0 <= n <= N → n <= N' →
  n < 2 ^ 62 → D + n <= S ∨ S + n <= D →
  wp (memcpy s dest src n) (fun s' => wrote (within D n) s s' ∧
    ∀ k, 0 <= k < n → byte_at (vm_mem s') (D + k) = byte_at (vm_mem s) (S + k)).
Proof.
  intros Hd Hs Hc Hn Hn' Hb Hdis. unfold memcpy.
  apply (wp_while _ (fun '(c, d, sr, s1) => 0 <= c <= n ∧ d = dest + (n - c) ∧ sr = src + (n - c) ∧ wrote (within D n) s s1 ∧
    ∀ k, 0 <= k < n - c → byte_at (vm_mem s1) (D + k) = byte_at (vm_mem s) (S + k)) (fun '(c, _, _, _) => c)); cycle 1.
  { split; [lia|]. split; [lia|]. split; [lia|]. split; [apply wrote_refl|lia]. }
  { lia. }
  intros [[[c d] sr] s1] (Hc1 & -> & -> & W & Hall). unfold movsb_step. destruct (Z.eqb_spec c 0) as [->|Hne].
  { split; [done|]. intros k Hk. apply Hall. lia. }
  pose proof (wrote_seen _ _ _ _ _ _ W Hd) as Hd1. pose proof (wrote_seen _ _ _ _ _ _ W Hs) as Hs1.
  rewrite (ldb_ok s1 src S N' (n - c) Hs1) by lia. rewrite bind_ok.
  destruct (stb_ok s1 dest D N (n - c) (byte_at (vm_mem s1) (S + (n - c))) Hd1 Hc ltac:(lia)) as (s2 & E & W2 & V2).
  rewrite E, bind_ok. split; [|lia]. split; [lia|]. rewrite (seen_next s1 dest D N (n - c) Hd1) by lia.
  rewrite (seen_next s1 src S N' (n - c) Hs1) by lia. split; [f_equal; lia|]. split; [f_equal; lia|]. split.
  - apply (wrote_trans _ s s1 s2 W), (wrote_weaken _ _ _ _ W2). unfold within. intros; lia.
  - intros k Hk. destruct (Z.eq_dec k (n - c)) as [->|].
    + rewrite V2. rewrite Z.mod_small by apply byte_range. apply (wr_bytes _ _ _ W). unfold within. lia.
    + rewrite (wr_bytes _ _ _ W2) by lia. apply Hall. lia.
Qed.
End mapped.
