(* ===== verification/Linux.v ===== *)
(** * Loading the Linux guest

    Models [virt_setup_linux] and [virt_pg_table_setup] of
    [arch/x86_64/virt/mem.c]: the zero page with the setup header of the image
    ([load_header]), the kernel moved to large pages ([move_kernel]), the page
    with the descriptor table and the command line ([boot_args]), the ramdisk
    moved ([move_ramdisk]), and the memory map (E820.v). Bytes are read and
    written through the page tables (ByteMem.v); the page allocator is the one
    of Physical.v. *)

From S2P Require Import Prelude Layout Bits Spinlock Physical Mmu Paging PagingSpec Kernel Bytes ByteMem.
From S2P Require Import LinuxAbi VirtInit Virt E820 Ept.

Local Open Scope Z_scope.
Local Open Scope c_scope.

Section linux.
Context `{HM : Mmu}.
Implicit Types s : vm phys.

(** A call of the page allocator. *)
Definition on_frames {B} s (o : outcome (B * phys)) : outcome (B * vm phys) :=
  '(r, fr) ← o; Ok (r, with_frames s fr).
Definition free_frames s (begin length : Z) : outcome (vm phys) :=
  fr ← physical_free_range (vm_frames s) begin length; Ok (with_frames s fr).
(** [if (x == 0) panic(msg)] *)
Definition panic_if_zero (x : Z) (msg : string) : outcome unit := if x =? 0 then Panic msg else Ok tt.

(** The zero page and the setup header: the frame of the zero page and the
    address it is mapped at. *)
Definition load_header s (img_paddr : Z) : outcome (Z * Z * vm phys) :=
  '(zero_frame, s) ← on_frames s (alloc_phys_frame_lowmem (vm_frames s));
  _ ← panic_if_zero zero_frame "page allocation for zero_frame failed";
  '(zero_virt, s) ← map_or s zero_frame "page mapping for zero_frame failed";
  s ← zero_page s zero_virt;
  _ ← (if negb (img_paddr .& ~w PG_MASK =? 0) then Panic "Image address not aligned to 4KB" else Ok tt);
  '(linux_virt, s) ← map_or s img_paddr "page mapping for header failed";
  let setup := linux_virt +w LINUX_HEADER_OFFSET in
  header ← ldn 4 s (setup +w (ZP_HEADER - HDR));
  _ ← (if negb (header =? LINUX_HEADER_MAGIC) then Panic "Image magic number does not match" else Ok tt);
  s ← memcpy s (zero_virt +w HDR) setup HDR_SIZE;
  '(_, s) ← vm_unmap_page s linux_virt;
  Ok (zero_frame, zero_virt, s).

(** The large pages that hold [size] bytes from [paddr] on are mapped: the
    address of the first byte, the displacement in the first page and the number of pages. *)
Definition map_source s (paddr size : Z) (msg : string) : outcome (Z * Z * Z * vm phys) :=
  let frame := paddr .& LARGE_PG_MASK in
  bytes ← ceiling64 (paddr -w frame +w size) LARGE_PG_SIZE;
  let src_pages := u8 (bytes >>w LARGE_PG_BITS) in
  '(src_vaddr, s) ← vm_map_large_pages s frame src_pages (PGT_P .| PDT_PS);
  _ ← panic_if_zero src_vaddr msg;
  Ok (src_vaddr +w (paddr -w frame), paddr -w frame, src_pages, s).

(** Large pages of their own for [size] bytes: the frames, the address and the number of pages. *)
Definition new_place s (size : Z) (msg1 msg2 : string) : outcome (Z * Z * Z * vm phys) :=
  bytes ← ceiling64 size LARGE_PG_SIZE;
  let dst_pages := u8 (bytes >>w LARGE_PG_BITS) in
  '(new_frames, s) ← on_frames s
     (alloc_phys_frames_aligned (vm_frames s) (Z.shiftl dst_pages (LARGE_PG_BITS - PG_BITS)) LARGE_PG_SIZE);
  _ ← panic_if_zero new_frames msg1;
  '(dst_vaddr, s) ← vm_map_large_pages s new_frames dst_pages (PGT_P .| PGT_RW .| PDT_PS);
  _ ← panic_if_zero dst_vaddr msg2;
  Ok (new_frames, dst_vaddr, dst_pages, s).

(** Where the kernel starts in the image, and its size. *)
Definition setup_size (setup_sects : Z) : Z := (setup_sects + 1) * LINUX_SECTOR_SZ.

Definition move_kernel s (g : vm_struct) (zero_virt : Z) : outcome (vm_struct * Z * vm phys) :=
  setup_sects ← ldn 1 s (zero_virt +w ZP_SETUP_SECTS);
  let start_paddr := img_paddr g +w setup_size setup_sects in
  let kernel_size := img_size g -w setup_size setup_sects in
  '(src_vaddr, ofs, src_pages, s) ← map_source s start_paddr kernel_size "page mapping for src kernel failed";
  '(new_frames, dst_vaddr, dst_pages, s) ← new_place s kernel_size
     "page allocation for dst kernel failed" "page mapping for dst kernel failed";
  '(_, s) ← vm_check_mapping s dst_vaddr;
  s ← memcpy s dst_vaddr src_vaddr kernel_size;
  '(_, s) ← vm_unmap_large_pages s (src_vaddr -w ofs) src_pages;
  s ← free_frames s (img_paddr g) (img_size g);
  '(_, s) ← vm_unmap_large_pages s dst_vaddr dst_pages;
  Ok (VmStruct (vm_id g) (name g) new_frames kernel_size (vm_num_cpus g) (vm_ram_size g) (input g)
        (entry_point g) (gdtr g) (vmcs_paddr g) (extra_paddr g) (extra_size g) (vm_lock g), kernel_size, s).

(** The descriptor table and the command line, and what the header says of them. *)
Definition GDT_CS32 : Z := 0xCF9A000000FFFF.
Definition GDT_DS32 : Z := 0xCF92000000FFFF.
Definition boot_args s (g : vm_struct) (zero_virt : Z) : outcome (vm_struct * vm phys) :=
  '(cmd_frame, s) ← on_frames s (alloc_phys_frame_lowmem (vm_frames s));
  '(gdt, s) ← vm_map_page s cmd_frame (PGT_P .| PGT_RW);
  s ← vst s (slot gdt 0) 0;
  s ← vst s (slot gdt 1) 0;
  s ← vst s (slot gdt 2) GDT_CS32;
  s ← vst s (slot gdt 3) GDT_DS32;
  s ← st_string s (gdt +w (PG_SIZE >>w 1)) LINUX_CMD_LINE;
  '(_, s) ← vm_unmap_page s gdt;
  s ← stn 4 s (zero_virt +w ZP_CMD_LINE_PTR) (u32 (cmd_frame + (PG_SIZE >>w 1)));
  s ← stn 1 s (zero_virt +w ZP_TYPE_OF_LOADER) 0xFF;
  loadflags ← ldn 1 s (zero_virt +w ZP_LOADFLAGS);
  s ← stn 1 s (zero_virt +w ZP_LOADFLAGS) (u8 (loadflags .& Z.lnot 0xE0));
  s ← stn 4 s (zero_virt +w ZP_CODE32_START) (u32 (entry_point g));
  Ok (VmStruct (vm_id g) (name g) (img_paddr g) (img_size g) (vm_num_cpus g) (vm_ram_size g) (input g)
        (entry_point g) cmd_frame (vmcs_paddr g) (extra_paddr g) (extra_size g) (vm_lock g), s).

Definition move_ramdisk s (g : vm_struct) (zero_virt : Z) : outcome (vm_struct * vm phys) :=
  '(src_vaddr, ofs, src_pages, s) ← map_source s (extra_paddr g) (extra_size g) "page mapping for src ramdisk failed";
  '(new_frames, dst_vaddr, dst_pages, s) ← new_place s (extra_size g)
     "page allocation for dst ramdisk failed" "page mapping for dst ramdisk failed";
  s ← memcpy s dst_vaddr src_vaddr (extra_size g);
  '(_, s) ← vm_unmap_large_pages s (src_vaddr -w ofs) src_pages;
  s ← free_frames s (extra_paddr g) (extra_size g);
  let g := VmStruct (vm_id g) (name g) (img_paddr g) (img_size g) (vm_num_cpus g) (vm_ram_size g) (input g)
             (entry_point g) (gdtr g) (vmcs_paddr g) new_frames (extra_size g) (vm_lock g) in
  s ← stn 4 s (zero_virt +w ZP_RAMDISK_IMAGE) (u32 (extra_paddr g));
  s ← stn 4 s (zero_virt +w ZP_RAMDISK_SIZE) (u32 (extra_size g));
  Ok (g, s).

(** Everything but the memory map: the frame of the zero page, its address, the
    size of the kernel, the guest and the memory. *)
Definition load_linux s (g : vm_struct) : outcome (Z * Z * Z * vm_struct * vm phys) :=
  '(zero_frame, zero_virt, s) ← load_header s (img_paddr g);
  '(g, kernel_size, s) ← move_kernel s g zero_virt;
  '(g, s) ← boot_args s g zero_virt;
  '(g, s) ← move_ramdisk s g zero_virt;
  Ok (zero_frame, zero_virt, kernel_size, g, s).

(** The entries of the memory map are read from the zero page, and those that
    [virt_setup_e820] writes are stored there. *)
Fixpoint read_table (n : nat) s (va : Z) : outcome (list e820_entry) :=
  match n with
  | O => Ok []
  | Datatypes.S n =>
      a ← ldn 8 s va; z ← ldn 8 s (va +w 8); t ← ldn 4 s (va +w 16);
      l ← read_table n s (va +w E820_ENTRY_SIZE); Ok (E820Entry a z t :: l)
  end.
Fixpoint write_table s (va : Z) (l : list e820_entry) : outcome (vm phys) :=
  match l with
  | [] => Ok s
  | E820Entry a z t :: l =>
      s ← stn 8 s va a; s ← stn 8 s (va +w 8) z; s ← stn 4 s (va +w 16) t;
      write_table s (va +w E820_ENTRY_SIZE) l
  end.

Definition virt_setup_linux s (g : vm_struct) (log : list (string * list Z)) :
    outcome (vm_struct * list (string * list Z) * vm phys) :=
  '(zero_frame, zero_virt, kernel_size, g, s) ← load_linux s g;
  image ← ldn 4 s (zero_virt +w ZP_RAMDISK_IMAGE);
  size ← ldn 4 s (zero_virt +w ZP_RAMDISK_SIZE);
  t ← read_table (Z.to_nat E820_MAX_ENTRIES_ZEROPAGE) s (zero_virt +w ZP_E820_TABLE);
  st ← virt_setup_e820 image size kernel_size t (vm_frames s) log;
  s ← write_table (with_frames s (e_phys st)) (zero_virt +w ZP_E820_TABLE) (take (Z.to_nat (mmap_num st)) (table st));
  '(_, s) ← vm_unmap_page s zero_virt;
  Ok (VmStruct (vm_id g) (name g) (img_paddr g) (img_size g) (vm_num_cpus g) (vm_ram_size g) zero_frame
        (entry_point g) (gdtr g) (vmcs_paddr g) (extra_paddr g) (extra_size g) (vm_lock g), e_log st, s).

(** The base of the extended page tables of the guest. *)
Definition virt_pg_table_setup s (g : vm_struct) (log : list (string * list Z)) :
    outcome (Z * vm_struct * list (string * list Z) * vm phys) :=
  let kernel_phy := img_paddr g +w 0x100000 in
  let ramdisk_phy := extra_paddr g in
  '(pml4t_phy, pml4t_virt, pdpt_virt, s) ← ept_roots s;
  '(g, log, s) ← virt_setup_linux s g log;
  s ← ept_fill g kernel_phy ramdisk_phy pdpt_virt s;
  '(_, s) ← vm_unmap_page s pml4t_virt;
  '(_, s) ← vm_unmap_page s pdpt_virt;
  Ok (pml4t_phy, g, log, s).
End linux.
