(* ===== verification/LinuxSpec.v ===== *)
(** * What the loader leaves for the guest

    The proofs about Linux.v: how mapping, writing and unmapping pages of the
    two windows act on the bytes of memory ([moved]), what each part of the
    loader leaves, and the property of the whole. *)

From S2P Require Import Prelude Layout Bits Spinlock Physical Mmu Paging PagingSpec Kernel Bytes ByteMem.
From S2P Require Import LinuxAbi VirtInit Virt E820 Ept Linux.

Local Open Scope Z_scope.
Local Open Scope c_scope.

Section moves.
Context `{HM : Mmu} (f3 f2 f1 cr3 : Z).
Implicit Types s : vm phys.

Abbreviation tb := [cr3; f3; f2; f1].
Abbreviation good := (good f3 f2 f1 cr3).
Abbreviation shows := (shows f1).
Abbreviation opened := (opened f3 f2 f1 cr3).

(** ** Memory and the tables *)

Lemma kernel_pt_tables s m' : good s → tables_kept tb (vm_mem s) m' → kernel_pt (with_mem s m') f3 f2 f1.
Proof.
  intros [[Kp K2 K1 Kl] Hc _ _] Ht. split; [|done|done|done].
  assert (E : ∀ F i, F ∈ tb → 0 <= i < 512 → entry m' F i = entry (vm_mem s) F i) by (intros; by apply Ht).
  destruct Kp as [[[Hr H3] H2] H1]. unfold rec_at, pdpt_at, pdt_at, pt_at in *. cbn [vm_mem vm_cr3 with_mem].
  rewrite Hc in *. pose proof (idx_bounds KERNEL_MAPPING_BASE) as (I4 & I3 & I2 & I1).
  split; [split; [split|]|]; unfold rec_at, pdpt_at, pdt_at, pt_at in *;
    (rewrite E; [assumption|repeat constructor|lia || assumption]).
Qed.

Lemma good_wrote W s s' : good s → wrote tb W s s' → good s'.
Proof.
  intros Hg [S T _ _]. rewrite S. pose proof (kernel_pt_tables s _ Hg T). destruct Hg. by split.
Qed.

(** A page of the small window. *)
Lemma seen_small s i F : good s → shows s i F → seen tb s (slot_va i) F 4096.
Proof.
  intros Hg (Hi & Hp & Hf). assert (0 <= slot_va i < 2 ^ 40) by (unfold slot_va; change KERNEL_MAPPING_BASE with 0xA00000; lia).
  split; [lia|]. split; [lia|]. intros m' Hm k Hk. pose proof (kernel_pt_tables s m' Hg Hm) as Hk'.
  assert (E : entry m' f1 i = entry (vm_mem s) f1 i) by (apply Hm; [repeat constructor|done]).
  unfold slot_va. pose proof (kernel_translate _ _ _ _ Hk' i k Hi Hk) as Ht. cbn [vm_mem vm_cr3 with_mem] in Ht.
  rewrite Ht by (by rewrite E). by rewrite E, Hf.
Qed.

(** Pages of the large window, from slot [i] on. *)
Definition big s (i num P : Z) : Prop := LG_LO <= i ∧ i + num <= LG_HI ∧ ∀ k, 0 <= k < num →
  let e := entry (vm_mem s) f2 (i + k) in
  present e = true ∧ page_size e = true ∧ Z.land e 0x1FE000 = 0 ∧ large_frame_of e = P + 2 ^ 21 * k.

Lemma seen_big s i num P : good s → big s i num P → seen tb s (2 ^ 21 * i) P (2 ^ 21 * num).
Proof.
  unfold big, LG_LO, LG_HI. intros Hg (Hlo & Hhi & Hall). split; [lia|]. split; [lia|]. intros m' Hm o Ho.
  pose proof (kernel_pt_tables s m' Hg Hm) as Hk'. set (k := o / 2 ^ 21). assert (Hk : 0 <= k < num) by (unfold k; dlia).
  destruct (Hall k Hk) as (H1 & H2 & H3 & H4).
  assert (E : entry m' f2 (i + k) = entry (vm_mem s) f2 (i + k)) by (apply Hm; [repeat constructor|lia]).
  replace (2 ^ 21 * i + o) with (2 ^ 21 * (i + k) + o mod 2 ^ 21) by (unfold k; dlia).
  pose proof (large_translate _ _ _ _ Hk' (i + k) (o mod 2 ^ 21)) as Ht. cbn [vm_mem vm_cr3 with_mem] in Ht.
  rewrite E in Ht. rewrite Ht; try done; [|unfold LG_LO, LG_HI; lia|apply Z.mod_pos_bound; lia].
  rewrite H4. f_equal. unfold k. dlia.
Qed.

(** ** What operations keep *)

(** The bytes outside [W] and the tables stay, pages stay mapped and slots free. *)
Record moved (W : Z → Prop) s s' : Prop := Moved {
  mv_good : good s';
  mv_shown k : 0 <= k < 512 → present (entry (vm_mem s) f1 k) = true → entry (vm_mem s') f1 k = entry (vm_mem s) f1 k;
  mv_free k : 0 <= k < 512 → slot_free (vm_mem s) f1 k → slot_free (vm_mem s') f1 k;
  mv_bytes pa : ¬ W pa → clear tb pa 1 → byte_at (vm_mem s') pa = byte_at (vm_mem s) pa;
  mv_end : entry_end (vm_frames s') = entry_end (vm_frames s);
  mv_words a : a mod 8 = 0 → (∀ k, 0 <= k < 8 → ¬ W (a + k)) → clear tb a 8 → ldw (vm_mem s') a = ldw (vm_mem s) a
}.

Lemma moved_refl W s : good s → moved W s s.
Proof. by split. Qed.
Lemma moved_trans W s1 s2 s3 : moved W s1 s2 → moved W s2 s3 → moved W s1 s3.
Proof.
  intros [G1 S1 F1 B1 E1 V1] [G2 S2 F2 B2 E2 V2]. split; auto.
  - intros k Hk Hp. rewrite S2, S1; auto. by rewrite S1.
  - intros pa Hpa Hc. by rewrite B2, B1.
  - by rewrite E2.
  - intros a Ha Hn Hc. by rewrite V2, V1.
Qed.
Lemma moved_weaken (W W' : Z → Prop) s s' : moved W s s' → (∀ pa, W pa → W' pa) → moved W' s s'.
Proof.
  intros [G1 S1 F1 B1 E1 V1] H. split; auto. intros a Ha Hn Hc. apply V1; [done| |done]. intros k Hk HW. by apply (Hn k Hk), H.
Qed.
Lemma moved_shows W s s' i F : moved W s s' → shows s i F → shows s' i F.
Proof. intros M (Hi & Hp & Hf). split; [done|]. by rewrite (mv_shown _ _ _ M). Qed.
Lemma moved_room W s s' n : moved W s s' → room f1 s n → room f1 s' n.
Proof.
  intros M (l & Hn & Hl & H). exists l. split; [done|]. split; [done|]. intros i Hi. destruct (H i Hi). split; [done|].
  by apply (mv_free _ _ _ M).
Qed.
Lemma wrote_moved W s s' : good s → wrote tb W s s' → moved W s s'.
Proof.
  intros Hg Hw. pose proof (good_wrote W s s' Hg Hw) as Hg'. destruct Hw as [S T B V].
  assert (E : ∀ k, 0 <= k < 512 → entry (vm_mem s') f1 k = entry (vm_mem s) f1 k) by (intros; apply T; [repeat constructor|done]).
  split; [done|auto| |auto|by rewrite S|auto]. intros k Hk. unfold slot_free. by rewrite E.
Qed.
Lemma wrote_frames W s s' : wrote tb W s s' → vm_frames s' = vm_frames s.
Proof. intros [S _ _ _]. rewrite S. done. Qed.

(** Bytes and entries. *)
Lemma entries_bytes m m' G pa : (∀ k, 0 <= k < 512 → entry m' G k = entry m G k) → aligned G → G <= pa < G + 4096 →
  byte_at m' pa = byte_at m pa.
Proof.
  unfold aligned. intros E HG Hpa. unfold byte_at. f_equal. f_equal.
  replace (pa - pa mod 8) with (G + 8 * ((pa - G) / 8)) by dlia. apply E. dlia.
Qed.

Lemma clear_page s pa : good s → clear tb pa 1 → ∀ F, F ∈ tb → pa / 4096 * 4096 ≠ F.
Proof. intros Hg Hc F HF E. destruct (Hc F HF). dlia. Qed.

Lemma same_words_bytes s s' F pa : good s → F ∈ tb →
  (∀ G k, aligned G → 0 <= k < 512 → G ≠ F → entry (vm_mem s') G k = entry (vm_mem s) G k) →
  clear tb pa 1 → byte_at (vm_mem s') pa = byte_at (vm_mem s) pa.
Proof.
  intros Hg HF Hw Hc. assert (Ha : aligned (pa / 4096 * 4096)) by (unfold aligned; dlia).
  apply (entries_bytes _ _ (pa / 4096 * 4096)); [|exact Ha|dlia]. intros k Hk. apply Hw; [exact Ha|done|].
  by apply (clear_page s pa Hg Hc).
Qed.

Lemma same_words_word s s' F a : good s → F ∈ tb →
  (∀ G k, aligned G → 0 <= k < 512 → G ≠ F → entry (vm_mem s') G k = entry (vm_mem s) G k) →
  a mod 8 = 0 → clear tb a 8 → ldw (vm_mem s') a = ldw (vm_mem s) a.
Proof.
  intros Hg HF Hw Ha Hc. assert (Hal : aligned (a / 4096 * 4096)) by (unfold aligned; dlia).
  replace a with (a / 4096 * 4096 + 8 * (a mod 4096 / 8)) by dlia. apply (Hw (a / 4096 * 4096)); [exact Hal|dlia|].
  intros E. destruct (Hc F HF) as [HFa Hd]. unfold aligned in HFa. dlia.
Qed.

(** *** Pages of the small window *)

Lemma opened_words s s1 i F a : good s → opened s s1 i F → a mod 8 = 0 → clear tb a 8 → ldw (vm_mem s1) a = ldw (vm_mem s) a.
Proof.
  intros Hg Ho. apply (same_words_word s s1 f1 a Hg); [repeat constructor|].
  intros G k HG Hk Hne. by apply (op_words _ _ _ _ _ _ _ _ Ho).
Qed.

Lemma opened_bytes s s1 i F pa : good s → opened s s1 i F → clear tb pa 1 → byte_at (vm_mem s1) pa = byte_at (vm_mem s) pa.
Proof.
  intros Hg Ho. apply (same_words_bytes s s1 f1 pa Hg); [repeat constructor|].
  intros G k HG Hk Hne. by apply (op_words _ _ _ _ _ _ _ _ Ho).
Qed.

Lemma opened_keeps s s1 i F j G : opened s s1 i F → shows s j G → shows s1 j G.
Proof. intros Ho Hj. by apply (opened_shows f3 f2 f1 cr3 s s1 i F j G). Qed.

Lemma unmap_small_ok s i : good s → 0 <= i < 512 → ∃ r s', vm_unmap_page s (slot_va i) = Ok (r, s') ∧ good s' ∧
  vm_frames s' = vm_frames s ∧ (∀ k, entry (vm_mem s') f1 k = if i =? k then 0 else entry (vm_mem s) f1 k) ∧
  (∀ pa, clear tb pa 1 → byte_at (vm_mem s') pa = byte_at (vm_mem s) pa) ∧
  ∀ G k, aligned G → 0 <= k < 512 → G ≠ f1 → entry (vm_mem s') G k = entry (vm_mem s) G k.
Proof.
  intros Hg Hi. pose proof (aligned_f1 s f3 f2 f1 (go_kernel _ _ _ _ _ Hg)) as A1.
  pose proof (vm_unmap_page_ok s f3 f2 f1 i 0 (go_kernel _ _ _ _ _ Hg) Hi ltac:(lia)) as E. cbv zeta in E.
  rewrite Z.add_0_r in E. fold (slot_va i) in E. do 2 eexists. split; [exact E|].
  split; [apply good_upd; [done|by apply same_outside_store]|]. split; [done|]. split; [intros k; apply entry_store|].
  set (s1 := done_vm _ _ _ _).
  assert (Hw : ∀ G k, aligned G → 0 <= k < 512 → G ≠ f1 → entry (vm_mem s1) G k = entry (vm_mem s) G k).
  { intros G k HG Hk Hne. apply (entry_outside f1); try done. by apply same_outside_store. }
  split; [|exact Hw]. intros pa Hc. apply (same_words_bytes s s1 f1 pa Hg); [repeat constructor|exact Hw|done].
Qed.

(** *** While one page more is mapped *)

(** As [moved], but slot [i], which was free, may be in use. *)
Record inside (W : Z → Prop) (i : Z) s s' : Prop := Inside {
  in_good : good s';
  in_shown k : 0 <= k < 512 → present (entry (vm_mem s) f1 k) = true → entry (vm_mem s') f1 k = entry (vm_mem s) f1 k;
  in_slot : 0 <= i < 512 ∧ slot_free (vm_mem s) f1 i;
  in_free k : 0 <= k < 512 → k ≠ i → slot_free (vm_mem s) f1 k → slot_free (vm_mem s') f1 k;
  in_bytes pa : ¬ W pa → clear tb pa 1 → byte_at (vm_mem s') pa = byte_at (vm_mem s) pa;
  in_end : entry_end (vm_frames s') = entry_end (vm_frames s);
  in_words a : a mod 8 = 0 → (∀ k, 0 <= k < 8 → ¬ W (a + k)) → clear tb a 8 → ldw (vm_mem s') a = ldw (vm_mem s) a
}.

Lemma opened_inside W s s1 i F : good s → opened s s1 i F → inside W i s s1.
Proof.
  intros Hg Ho. pose proof (op_shows _ _ _ _ _ _ _ _ Ho) as (Hi & _ & _). pose proof (op_free _ _ _ _ _ _ _ _ Ho) as Hfi.
  pose proof (op_others _ _ _ _ _ _ _ _ Ho) as Hot. split.
  - apply (op_good _ _ _ _ _ _ _ _ Ho).
  - intros k Hk Hp. apply Hot; [done|]. intros ->. unfold slot_free in Hfi. congruence.
  - by split.
  - intros k Hk Hne. unfold slot_free. by rewrite Hot.
  - intros pa _. by apply (opened_bytes s s1 i F).
  - by rewrite (op_frames _ _ _ _ _ _ _ _ Ho).
  - intros a Ha _. by apply (opened_words s s1 i F).
Qed.

Lemma inside_after W i s s1 s2 : inside W i s s1 → moved W s1 s2 → inside W i s s2.
Proof.
  intros [G1 S1 L1 F1 B1 E1 V1] [G2 S2 F2 B2 E2 V2]. split; auto.
  - intros k Hk Hp. rewrite S2, S1; auto. by rewrite S1.
  - intros pa Hpa Hc. by rewrite B2, B1.
  - by rewrite E2.
  - intros a Ha Hn Hc. by rewrite V2, V1.
Qed.

Lemma inside_before W i s s1 s2 : moved W s s1 → inside W i s1 s2 → inside W i s s2.
Proof.
  intros [G1 S1 F1 B1 E1 V1] [G2 S2 [Hi L2] F2 B2 E2 V2]. split; auto.
  - intros k Hk Hp. rewrite S2, S1; auto. by rewrite S1.
  - split; [done|]. unfold slot_free in *. destruct (present (entry (vm_mem s) f1 i)) eqn:E; [|done]. by rewrite S1, E in L2.
  - intros pa Hpa Hc. by rewrite B2, B1.
  - by rewrite E2.
  - intros a Ha Hn Hc. by rewrite V2, V1.
Qed.

Lemma inside_weaken (W W' : Z → Prop) i s s' : inside W i s s' → (∀ pa, W pa → W' pa) → inside W' i s s'.
Proof.
  intros [G1 S1 L1 F1 B1 E1 V1] H. split; auto. intros a Ha Hn Hc. apply V1; [done| |done]. intros k Hk HW. by apply (Hn k Hk), H.
Qed.

(** The page is unmapped. *)
Lemma inside_close W i s s1 : inside W i s s1 → ∃ r s2, vm_unmap_page s1 (slot_va i) = Ok (r, s2) ∧ moved W s s2 ∧
  vm_frames s2 = vm_frames s1 ∧ ∀ pa, clear tb pa 1 → byte_at (vm_mem s2) pa = byte_at (vm_mem s1) pa.
Proof.
  intros [G1 S1 [Hi L1] F1 B1 E1 V1]. destruct (unmap_small_ok s1 i G1 Hi) as (r & s2 & E & Hg2 & Ef & H1 & Hb & Hw).
  exists r, s2. split; [exact E|]. split; [|by split]. split; [done| | | | |].
  - intros k Hk Hpk. assert (Hne : i ≠ k) by (intros ->; unfold slot_free in L1; congruence).
    rewrite H1, (proj2 (Z.eqb_neq _ _)) by done. by apply S1.
  - intros k Hk Hf. unfold slot_free. rewrite H1. destruct (Z.eqb_spec i k) as [->|Hne]; [done|]. apply F1; auto.
  - intros pa Hpa Hc. by rewrite Hb, B1.
  - by rewrite Ef.
  - intros a Ha Hn Hc. rewrite (same_words_word s1 s2 f1 a G1) by (done || (repeat constructor)). by apply V1.
Qed.

Lemma close_moved W s s1 s2 i F : good s → opened s s1 i F → moved W s1 s2 →
  ∃ r s3, vm_unmap_page s2 (slot_va i) = Ok (r, s3) ∧ moved W s s3 ∧ vm_frames s3 = vm_frames s2 ∧
    ∀ pa, clear tb pa 1 → byte_at (vm_mem s3) pa = byte_at (vm_mem s2) pa.
Proof. intros Hg Ho M. by apply inside_close, (inside_after _ _ _ s1), M; apply (opened_inside _ _ _ _ F). Qed.

(** *** Pages of the large window *)

Lemma large_upd s m' inv i num g : good s → LG_LO <= i → i + num <= LG_HI → table_upd (vm_mem s) m' f2 i (i + num) g →
  let s' := done_vm s m' inv (vm_frames s) in
  moved nowhere s s' ∧ ∀ k, 0 <= k < 512 → ¬ (i <= k < i + num) → entry (vm_mem s') f2 k = entry (vm_mem s) f2 k.
Proof.
  intros Hg Hlo Hhi Hu s'. pose proof (go_kernel _ _ _ _ _ Hg) as Hk. unfold LG_LO, LG_HI in Hlo, Hhi.
  pose proof (aligned_f1 s f3 f2 f1 Hk) as A1. pose proof (aligned_f2 s f3 f2 f1 Hk) as A2.
  assert (Ew : ∀ G k, aligned G → 0 <= k < 512 → G ≠ f2 → entry (vm_mem s') G k = entry (vm_mem s) G k).
  { intros G k HG Hk' Hne. apply (table_upd_other _ _ f2 i (i + num) g); done || lia. }
  assert (E1 : ∀ k, 0 <= k < 512 → entry (vm_mem s') f1 k = entry (vm_mem s) f1 k).
  { intros k Hk'. apply Ew; [done|done|]. apply (kp_ne1 _ _ _ _ Hk). }
  split; [split|].
  - destruct Hg as [_ Hc Hw Ht]. split; [|done|done|done].
    apply (kernel_pt_upd2 s f3 f2 f1 Hk m' _ _ i (i + num) g); [done|lia|done].
  - intros k Hk' _. by apply E1.
  - intros k Hk'. unfold slot_free. by rewrite E1.
  - intros pa _ Hc. apply (same_words_bytes s s' f2 pa Hg); [repeat constructor|exact Ew|done].
  - done.
  - intros a Ha _ Hc. apply (same_words_word s s' f2 a Hg); [repeat constructor|exact Ew|done|done].
  - intros k Hk' Hne. by apply (table_upd_entry _ _ f2 i (i + num) g).
Qed.

Definition large_flags (flags : Z) : Prop :=
  large_frame_of flags = 0 ∧ Z.land flags 0x1FE000 = 0 ∧ present flags = true ∧ page_size flags = true.

(** The slots of [big] do not change. *)
Lemma big_kept s s' i num P : big s i num P →
  (∀ k, i <= k < i + num → entry (vm_mem s') f2 k = entry (vm_mem s) f2 k) → big s' i num P.
Proof. intros (H1 & H2 & H3) E. split; [done|]. split; [done|]. intros k Hk. rewrite E by lia. by apply H3. Qed.

Lemma map_large_ok s P num flags : good s → 1 <= num <= 17 → P mod 2 ^ 21 = 0 → 0 <= P → P + 2 ^ 21 * num <= 2 ^ 52 →
  large_flags flags →
  wp (vm_map_large_pages s P num flags) (fun '(va, s1) => va = 0 ∨ ∃ i, va = 2 ^ 21 * i ∧ 0 < va ∧ big s1 i num P ∧
    moved nowhere s s1 ∧ vm_frames s1 = vm_frames s ∧
    ∀ j n Q, 1 <= n → big s j n Q → big s1 j n Q ∧ (j + n <= i ∨ i + num <= j)).
Proof.
  intros Hg Hn Ha Hb Hb' (Hf & Hz & Hp & Hps).
  apply (wp_mono _ _ _ (vm_map_large_pages_ok s f3 f2 f1 P num flags (go_kernel _ _ _ _ _ Hg) Hn ltac:(unfold is_u64; lia))).
  intros [va s1] [(i & m' & Hi & Hend & Hfree & -> & Hu & ->)|(_ & [-> _])]; [|by left]. right. exists i.
  unfold LG_LO, LG_HI in Hi, Hend. rewrite large_va_ok by (unfold LG_LO, LG_HI; lia).
  destruct (large_upd s m' (vm_invlpg s) i num _ Hg Hi Hend Hu) as [Hm Hout]. cbv zeta in Hm, Hout.
  split; [done|]. split; [lia|]. split; [|split; [done|split; [done|]]].
  - split; [done|]. split; [done|]. intros k Hk. cbv zeta. cbn [vm_mem done_vm].
    rewrite (proj1 Hu (i + k)) by lia. change LARGE_PG_SIZE with (2 ^ 21). replace (i + k - i) with k by lia.
    rewrite u64_id by (unfold is_u64; lia).
    assert (Hal : (P + 2 ^ 21 * k) mod 2 ^ 21 = 0) by (rewrite (Z.mul_comm (2 ^ 21)), Z.mod_add by lia; done).
    destruct (large_frame_of_page (P + 2 ^ 21 * k) flags) as [-> ->]; [done|lia|done|done|].
    split; [rewrite present_lor, Hp; apply orb_true_r|]. split; [rewrite page_size_lor, Hps; apply orb_true_r|]. done.
  - intros j n Q Hn1 Hbig. pose proof Hbig as (Hj1 & Hj2 & Hall). unfold LG_LO, LG_HI in Hj1, Hj2.
    assert (Hd : j + n <= i ∨ i + num <= j).
    { destruct (Z.le_gt_cases (j + n) i) as [|G1]; [by left|]. destruct (Z.le_gt_cases (i + num) j) as [|G2]; [by right|]. exfalso.
      set (k := Z.max i j). destruct (Hall (k - j) ltac:(unfold k; lia)) as [Hpr _]. replace (j + (k - j)) with k in Hpr by lia.
      pose proof (Hfree k ltac:(unfold k; lia)) as Hfr. unfold slot_free in Hfr. congruence. }
    split; [|done]. apply (big_kept s _ j n Q Hbig). intros k Hk. apply Hout; lia.
Qed.

Lemma unmap_large_ok s i num : good s → LG_LO <= i → 1 <= num → i + num <= LG_HI →
  wp (vm_unmap_large_pages s (2 ^ 21 * i) num) (fun '(_, s1) => moved nowhere s s1 ∧ vm_frames s1 = vm_frames s ∧
    ∀ j n Q, big s j n Q → j + n <= i ∨ i + num <= j → big s1 j n Q).
Proof.
  intros Hg Hi Hn Hend. unfold LG_LO, LG_HI in Hi, Hend.
  pose proof (vm_unmap_large_pages_ok s f3 f2 f1 i 0 num (go_kernel _ _ _ _ _ Hg) ltac:(unfold LG_LO, LG_HI; lia) ltac:(lia) ltac:(lia) ltac:(lia)) as Hw.
  rewrite Z.add_0_r in Hw. apply (wp_mono _ _ _ Hw). intros [r s1] (m' & inv & -> & Hu & _).
  destruct (large_upd s m' inv i num _ Hg Hi Hend Hu) as [Hm Hout]. cbv zeta in Hm, Hout.
  split; [done|]. split; [done|]. intros j n Q Hbig Hd. apply (big_kept s _ j n Q Hbig).
  pose proof Hbig as (Hj1 & Hj2 & _). unfold LG_LO, LG_HI in Hj1, Hj2. intros k Hk. apply Hout; lia.
Qed.

(** *** The frames *)

(** Page [n] can be handed out. *)
Definition free_page s (n : Z) : bool := page_free (vm_frames s) n.
(** The memory from [P] on is in pages that are not handed out. *)
Definition taken s (P n : Z) : Prop := ∀ pa, within P n pa → 0 <= pa ∧ free_page s (pa / 4096) = false.
(** What becomes of the pages: those of [Fr] may have been given back. *)
Definition frames_to (Fr : Z → Prop) s s' : Prop :=
  ∀ n, 0 <= n → free_page s' n = true → free_page s n = true ∨ Fr n.

Lemma taken_frames (Fr : Z → Prop) s s' P n : frames_to Fr s s' → taken s P n →
  (∀ pa, within P n pa → ¬ Fr (pa / 4096)) → taken s' P n.
Proof.
  intros Hf Ht Hno pa Hpa. destruct (Ht pa Hpa) as [Hp Hfree]. split; [done|].
  destruct (free_page s' (pa / 4096)) eqn:E; [|done]. destruct (Hf (pa / 4096)) as [|HF]; [by apply Z.div_pos|done|congruence|].
  by destruct (Hno pa Hpa).
Qed.

Lemma taken_nowhere s s' P n : frames_to nowhere s s' → taken s P n → taken s' P n.
Proof. intros Hf Ht. apply (taken_frames nowhere s); [exact Hf|exact Ht|]. intros pa _ []. Qed.

Lemma same_frames_to Fr s s' : vm_frames s' = vm_frames s → frames_to Fr s s'.
Proof. intros E n _. unfold free_page. rewrite E. by left. Qed.

Lemma tables_taken s F : good s → F ∈ tb → 0 <= F ∧ free_page s (F / 4096) = false.
Proof. intros Hg HF. apply (go_tables _ _ _ _ _ Hg F HF). Qed.

Lemma tables_aligned s F : good s → F ∈ tb → aligned F.
Proof.
  intros Hg HF. pose proof (kp_pt _ _ _ _ (go_kernel _ _ _ _ _ Hg)) as Hpt. pose proof (go_cr3 _ _ _ _ _ Hg) as Hc.
  destruct Hpt as [[[Hr H3] H2] H1]. rewrite Hc in *.
  repeat (apply elem_of_cons in HF as [->|HF]; [by eapply table_aligned|]). by apply elem_of_nil in HF.
Qed.

(** Pages that were free hold no table. *)
Lemma free_clear s P n : good s → 0 < n → 0 <= P → P mod 4096 = 0 → (∀ pa, within P n pa → free_page s (pa / 4096) = true) → clear tb P n.
Proof.
  intros Hg Hn HP Ha Hfree F HF. pose proof (tables_aligned s F Hg HF) as HFa.
  split; [done|]. destruct (Z.le_gt_cases (P + n) F) as [|G1]; [by left|]. destruct (Z.le_gt_cases (F + 4096) P) as [|G2]; [by right|]. exfalso.
  unfold aligned in HFa. destruct (tables_taken s F Hg HF) as [HF0 Hf].
  assert (E : Z.max P F / 4096 = F / 4096) by dlia. specialize (Hfree (Z.max P F)). rewrite E in Hfree.
  rewrite Hfree in Hf; [discriminate|]. unfold within. lia.
Qed.

Lemma frames_moved s fr : good s → phys_wf fr → entry_end fr = entry_end (vm_frames s) → (∀ F, F ∈ tb → page_free fr (F / 4096) = false) → moved nowhere s (with_frames s fr).
Proof.
  intros [Hk Hc Hw Ht] Hfr He Htab. split; try done. split; [by destruct Hk|done|done|].
  intros F HF. destruct (Ht F HF) as [HF0 _]. split; [done|]. by apply Htab.
Qed.

(** An allocation of the pages of [R]. *)
Lemma upd_taken s fr R : good s → phys_upd (vm_frames s) fr R false →
  moved nowhere s (with_frames s fr) ∧ frames_to nowhere s (with_frames s fr) ∧
  ∀ P n, 0 <= P → (∀ pa, within P n pa → R (pa / 4096) = true) → taken (with_frames s fr) P n.
Proof.
  intros Hg Hu. split; [|split].
  - apply frames_moved; [done|apply Hu|apply Hu|]. intros F HF. destruct (tables_taken s F Hg HF) as [HF0 Hf].
    rewrite (upd_free _ _ _ _ Hu) by (by apply Z.div_pos). unfold free_page in Hf. rewrite Hf. by destruct (R _).
  - intros n Hn Hf. unfold free_page in *. cbn [vm_frames with_frames] in Hf. rewrite (upd_free _ _ _ _ Hu) in Hf by done.
    destruct (R n); [discriminate|by left].
  - intros P n HP HR pa Hpa. assert (0 <= pa) by (unfold within in Hpa; lia). split; [done|]. unfold free_page.
    cbn [vm_frames with_frames]. rewrite (upd_free _ _ _ _ Hu) by (by apply Z.div_pos). by rewrite HR.
Qed.

(** A place for [n] bytes that was free: nothing that was taken is in it. *)
Record new_memory s s' (P n : Z) : Prop := NewMemory {
  nm_pos : 0 < P ∧ P mod 4096 = 0 ∧ P + n <= 2 ^ 36;
  nm_clear : clear tb P n;
  nm_taken : taken s' P n;
  nm_free pa : within P n pa → free_page s (pa / 4096) = true
}.

Lemma new_apart s s' P n Q m : new_memory s s' P n → taken s Q m → 0 <= n → 0 <= m → Q + m <= P ∨ P + n <= Q ∨ n = 0 ∨ m = 0.
Proof.
  intros [Hp _ _ Hf] Ht Hn Hm. destruct (Z.le_gt_cases (Q + m) P) as [|G1]; [by left|]. destruct (Z.le_gt_cases (P + n) Q) as [|G2]; [by auto|].
  destruct (Z.eq_dec n 0); [by auto|]. destruct (Z.eq_dec m 0); [by auto|]. exfalso. set (pa := Z.max P Q).
  destruct (Ht pa) as [_ H1]; [unfold within, pa; lia|]. rewrite (Hf pa) in H1; [discriminate|unfold within, pa; lia].
Qed.

Lemma alloc_low_ok s : good s → free_page s 0 = false →
  wp (on_frames s (alloc_phys_frame_lowmem (vm_frames s))) (fun '(F, s') =>
    vm_mem s' = vm_mem s ∧ moved nowhere s s' ∧ frames_to nowhere s s' ∧ (F = 0 ∨ (F < 2 ^ 20 ∧ new_memory s s' F 4096))).
Proof.
  intros Hg H0. pose proof (go_wf _ _ _ _ _ Hg) as Hw. unfold on_frames. wp_step.
  apply (wp_mono _ _ _ (alloc_phys_frame_lowmem_ok _ Hw)). intros [r fr] Hcases. cbn [wp wpx].
  destruct Hcases as [(n & -> & Hn & Hf & _ & Hu)|(-> & _ & Hu)]; destruct (upd_taken s fr _ Hg Hu) as (Hm & Hfr & Htk);
    (split; [done|split; [done|split; [done|]]]); [|by left]. right.
  assert (n ≠ 0) by (intros ->; unfold free_page in H0; congruence). split; [lia|].
  assert (Hpage : ∀ pa, within (4096 * n) 4096 pa → pa / 4096 = n) by (unfold within; intros; dlia).
  assert (Hfree : ∀ pa, within (4096 * n) 4096 pa → free_page s (pa / 4096) = true) by (intros pa Hpa; rewrite Hpage by done; exact Hf).
  split; [split; [lia|split; [dlia|lia]]| | |exact Hfree].
  - apply (free_clear s); [done|lia|lia|dlia|exact Hfree].
  - apply Htk; [lia|]. intros pa Hpa. rewrite Hpage by done. apply Z.eqb_refl.
Qed.

Lemma alloc_large_ok s num : good s → 1 <= num <= 17 →
  wp (on_frames s (alloc_phys_frames_aligned (vm_frames s) (512 * num) LARGE_PG_SIZE)) (fun '(P, s') =>
    vm_mem s' = vm_mem s ∧ moved nowhere s s' ∧ frames_to nowhere s s' ∧
    (P = 0 ∨ (P mod 2 ^ 21 = 0 ∧ new_memory s s' P (2 ^ 21 * num)))).
Proof.
  intros Hg Hn. pose proof (go_wf _ _ _ _ _ Hg) as Hw. unfold on_frames. wp_step.
  pose proof (alloc_phys_frames_aligned_ok (vm_frames s) (512 * num) 9 Hw ltac:(lia) ltac:(lia)) as Ha.
  change (2 ^ (9 + 12)) with LARGE_PG_SIZE in Ha. apply (wp_mono _ _ _ Ha). intros [r fr] Hcases. cbn [wp wpx].
  destruct Hcases as [(n & -> & (Hdiv & Hfirst & Hlim & Hall) & _ & Hu)|(-> & _ & Hu)];
    destruct (upd_taken s fr _ Hg Hu) as (Hm & Hfr & Htk); (split; [done|split; [done|split; [done|]]]); [|by left]. right.
  unfold first_page in Hfirst. change (64 * Z.max 4 (2 ^ 9 / 64)) with 512 in Hfirst.
  destruct Hdiv as [q Hq]. change (2 ^ 9) with 512 in Hq. pose proof (wf_limit _ Hw).
  split; [dlia|].
  assert (Hfree : ∀ pa, within (4096 * n) (2 ^ 21 * num) pa → free_page s (pa / 4096) = true).
  { intros pa Hpa. apply Hall. unfold within in Hpa. dlia. }
  split; [split; [lia|split; [dlia|lia]]| | |exact Hfree].
  - apply (free_clear s); [done|lia|lia|dlia|exact Hfree].
  - apply Htk; [lia|]. intros pa Hpa. unfold within in Hpa. unfold in_range. apply andb_true_iff. split; [apply Z.leb_le|apply Z.ltb_lt]; dlia.
Qed.

Lemma free_frames_ok s b n : good s → 0 <= b → 0 <= n → b + n <= 2 ^ 36 → (b + 4095) / 4096 <= (b + n) / 4096 → clear tb b n →
  ∃ s', free_frames s b n = Ok s' ∧ vm_mem s' = vm_mem s ∧ moved nowhere s s' ∧
    frames_to (fun q => b <= 4096 * q ∧ 4096 * q + 4096 <= b + n) s s'.
Proof.
  intros Hg Hb Hn Hend Hpage Hc. pose proof (go_wf _ _ _ _ _ Hg) as Hw. unfold free_frames.
  destruct (physical_free_range_ok (vm_frames s) b n Hw Hb Hn ltac:(lia) Hpage) as (fr & E & Hu). rewrite E. run.
  eexists. split; [reflexivity|]. split; [done|].
  assert (Hin : ∀ q, 0 <= q → in_range ((b + 4095) / 4096) ((b + n) / 4096) q = true → b <= 4096 * q ∧ 4096 * q + 4096 <= b + n).
  { intros q Hq Hr. unfold in_range in Hr. apply andb_true_iff in Hr as [H1 H2]. apply Z.leb_le in H1. apply Z.ltb_lt in H2. dlia. }
  split.
  - apply frames_moved; [done|apply Hu|apply Hu|]. intros F HF. destruct (tables_taken s F Hg HF) as [HF0 Hf].
    rewrite (upd_free _ _ _ _ Hu) by (by apply Z.div_pos). destruct (in_range _ _ _) eqn:Er; [|exact Hf]. exfalso.
    apply Hin in Er; [|by apply Z.div_pos]. destruct (Hc F HF) as [HFa Hd]. unfold aligned in HFa. dlia.
  - intros q Hq Hf. unfold free_page in *. cbn [vm_frames with_frames] in Hf. rewrite (upd_free _ _ _ _ Hu) in Hf by done.
    destruct (in_range _ _ q) eqn:Er; [right; by apply Hin|by left].
Qed.

(** ** The parts of the loader *)

(** Memory that is not a table and not handed out. *)
Record held s (P n : Z) : Prop := Held {
  he_pos : 0 <= P ∧ 0 <= n ∧ P + n <= 2 ^ 36;
  he_clear : clear tb P n;
  he_taken : taken s P n
}.

Lemma held_moved (Fr : Z → Prop) s s' P n : frames_to Fr s s' → held s P n → (∀ q, Fr q → ∀ pa, within P n pa → pa / 4096 ≠ q) → held s' P n.
Proof. intros Hf [H1 H2 H3] Hno. split; [done|done|]. apply (taken_frames Fr s); [done|done|]. intros pa Hpa HF. by apply (Hno _ HF pa Hpa). Qed.

Lemma held_nowhere s s' P n : frames_to nowhere s s' → held s P n → held s' P n.
Proof. intros Hf H. by apply (held_moved nowhere s). Qed.

Lemma new_held s s' P n : new_memory s s' P n → 0 <= n → held s' P n.
Proof. intros [H1 H2 H3 _] Hn. split; [lia|done|done]. Qed.

Lemma clear_data P n : clear tb P n → 0 < n → 0 <= P < 2 ^ 52 → P mod 4096 = 0 → data f3 f2 f1 cr3 P.
Proof. intros Hc Hn HP Ha. split; [done|]. split; [done|]. intros HF. destruct (Hc P HF). lia. Qed.

Lemma clear_byte P n pa : clear tb P n → within P n pa → clear tb pa 1.
Proof. unfold within. intros Hc Hpa F HF. destruct (Hc F HF). split; [done|lia]. Qed.

Lemma held_bytes W s s' P n : moved W s s' → held s P n → (∀ pa, within P n pa → ¬ W pa) →
  ∀ pa, within P n pa → byte_at (vm_mem s') pa = byte_at (vm_mem s) pa.
Proof. intros M H HW pa Hpa. apply (mv_bytes _ _ _ M); [by apply HW|]. apply (clear_byte P n pa); [apply H|done]. Qed.

Lemma zero_page_moved s i F : good s → shows s i F → data f3 f2 f1 cr3 F →
  wp (zero_page s (slot_va i)) (fun s' => moved (within F 4096) s s' ∧ frames_to nowhere s s' ∧
    ∀ pa, within F 4096 pa → byte_at (vm_mem s') pa = 0).
Proof.
  intros Hg Hs HF. assert (Ha : aligned F) by apply HF. unfold aligned in Ha.
  apply (wp_mono _ _ _ (zero_page_ok f3 f2 f1 cr3 s i F Hg Hs HF)). intros s' (K & H0 & Ef).
  split; [split|split].
  - apply K.
  - apply (ke_shown _ _ _ _ _ _ _ K).
  - apply (ke_free _ _ _ _ _ _ _ K).
  - intros pa Hpa Hc. apply (entries_bytes _ _ (pa / 4096 * 4096)); [|unfold aligned; dlia|dlia]. intros k Hk.
    apply (ke_words _ _ _ _ _ _ _ K); [unfold aligned; dlia|done| |].
    + apply (clear_page s pa Hg Hc). repeat constructor.
    + intros ->. apply Hpa. unfold within. dlia.
  - by rewrite Ef.
  - intros a Ha8 Hno Hc. replace a with (a / 4096 * 4096 + 8 * (a mod 4096 / 8)) by dlia.
    apply (ke_words _ _ _ _ _ _ _ K); [unfold aligned; dlia|dlia| |].
    + intros E. assert (Hin : f1 ∈ tb) by repeat constructor. destruct (Hc f1 Hin) as [HFa Hd]. unfold aligned in HFa. dlia.
    + intros ->. apply (Hno 0 ltac:(lia)). unfold within. dlia.
  - intros n Hn Hf. left. exact (ke_avail _ _ _ _ _ _ _ K n Hn Hf).
  - intros pa Hpa. unfold within in Hpa. unfold byte_at. replace (pa - pa mod 8) with (F + 8 * ((pa - F) / 8)) by dlia.
    fold (entry (vm_mem s') F ((pa - F) / 8)). rewrite H0 by dlia. by rewrite Z.shiftr_0_l.
Qed.

Lemma slot_add s i F o : shows s i F → 0 <= o < 2 ^ 20 → slot_va i +w o = slot_va i + o.
Proof. intros [Hi _] Ho. unfold slot_va. change KERNEL_MAPPING_BASE with 0xA00000. apply u64_id. unfold is_u64. lia. Qed.

Lemma page_check a : 0 <= a < 2 ^ 36 → (a .& ~w PG_MASK =? 0) = (a mod 4096 =? 0).
Proof.
  intros Ha. change (~w PG_MASK) with (Z.ones 12). by rewrite Z.land_ones by lia.
Qed.

(** *** The zero page and the header *)

Definition header_messages (msg : string) : Prop :=
  msg ∈ ["page allocation for zero_frame failed"; "Image address not aligned to 4KB"; "Image magic number does not match"].

(** The zero page [zf], mapped in slot [iz], holds the header of the image. *)
Record header_loaded s (img zf iz : Z) s' : Prop := HeaderLoaded {
  hl_good : good s'; hl_room : room f1 s' 1; hl_shows : shows s' iz zf;
  hl_new : new_memory s s' zf 4096; hl_low : zf < 2 ^ 20; hl_frames : frames_to nowhere s s';
  hl_bytes pa : ¬ within zf 4096 pa → clear tb pa 1 → byte_at (vm_mem s') pa = byte_at (vm_mem s) pa;
  hl_aligned : img mod 4096 = 0;
  hl_magic : value_at 4 (vm_mem s) (img + ZP_HEADER) = LINUX_HEADER_MAGIC;
  hl_header o : HDR <= o < HDR + HDR_SIZE → byte_at (vm_mem s') (zf + o) = byte_at (vm_mem s) (img + o);
  hl_zero o : 0 <= o < 4096 → ¬ HDR <= o < HDR + HDR_SIZE → byte_at (vm_mem s') (zf + o) = 0;
  hl_inside : inside (within zf 4096) iz s s'
}.

(** The copy: the page of the image is mapped, checked, copied and unmapped. *)
Lemma copy_header s zf iz img n : good s → room f1 s 1 → shows s iz zf → clear tb zf 4096 → held s img n → HDR + HDR_SIZE <= n →
  img mod 4096 = 0 → (img + n <= zf ∨ zf + 4096 <= img) → 0 <= zf →
  wpx ('(linux_virt, s) ← map_or s img "page mapping for header failed";
       let setup := linux_virt +w LINUX_HEADER_OFFSET in
       header ← ldn 4 s (setup +w (ZP_HEADER - HDR));
       _ ← (if negb (header =? LINUX_HEADER_MAGIC) then Panic "Image magic number does not match" else Ok tt);
       s ← memcpy s (slot_va iz +w HDR) setup HDR_SIZE;
       '(_, s) ← vm_unmap_page s linux_virt;
       Ok (zf, slot_va iz, s))
    (fun '(r1, r2, s') => r1 = zf ∧ r2 = slot_va iz ∧ moved (within (zf + HDR) HDR_SIZE) s s' ∧ vm_frames s' = vm_frames s ∧
      value_at 4 (vm_mem s) (img + ZP_HEADER) = LINUX_HEADER_MAGIC ∧
      ∀ o, HDR <= o < HDR + HDR_SIZE → byte_at (vm_mem s') (zf + o) = byte_at (vm_mem s) (img + o)) header_messages False.
Proof.
  change HDR with 497. change HDR_SIZE with 119. change ZP_HEADER with 514. intros Hg Hr Hs Hcz Hi Hn Ha Hdis Hz.
  pose proof (he_pos _ _ _ Hi) as Hib. assert (Hdi : data f3 f2 f1 cr3 img) by (apply (clear_data img n); [apply Hi|lia|lia|done]).
  wp_step. apply wp_wpx, (wp_mono _ _ _ (map_or_ok f3 f2 f1 cr3 s img _ 0 Hg Hdi Hr)).
  intros [va s1] (il & -> & Ho & _). pose proof (op_good _ _ _ _ _ _ _ _ Ho) as Hg1. pose proof (op_shows _ _ _ _ _ _ _ _ Ho) as Hs1.
  pose proof (opened_keeps _ _ _ _ _ _ Ho Hs) as Hz1. cbv zeta. change LINUX_HEADER_OFFSET with 497.
  rewrite (slot_add s1 il img 497 Hs1) by lia. rewrite (slot_add s1 iz zf 497 Hz1) by lia.
  replace (slot_va il + 497 +w (514 - 497)) with (slot_va il + 514).
  2: { change (514 - 497) with 17. destruct Hs1 as [Hil _]. unfold slot_va. change KERNEL_MAPPING_BASE with 0xA00000. rewrite u64_id by ulia. lia. }
  pose proof (seen_small s1 il img Hg1 Hs1) as Sl. pose proof (seen_small s1 iz zf Hg1 Hz1) as Sz.
  rewrite (ldn_ok tb 4 s1 (slot_va il) img 4096 514 Sl) by lia. rewrite bind_ok.
  assert (Eb : ∀ pa, within img n pa → byte_at (vm_mem s1) pa = byte_at (vm_mem s) pa).
  { intros pa Hpa. apply (opened_bytes s s1 il img pa Hg Ho). apply (clear_byte img n pa); [apply Hi|done]. }
  rewrite (value_at_ext 4 (vm_mem s) (vm_mem s1)) by (intros k Hk; apply Eb; unfold within; lia).
  destruct (Z.eqb_spec (value_at 4 (vm_mem s) (img + 514)) LINUX_HEADER_MAGIC) as [Em|]; [|cbn; repeat constructor].
  cbn [negb]. rewrite bind_ok. wp_step.
  apply wp_wpx, (wp_mono _ _ _ (memcpy_ok tb s1 (slot_va iz + 497) (slot_va il + 497) (zf + 497) (img + 497) 119 119 119
    (seen_sub tb s1 _ _ 4096 497 119 Sz ltac:(lia) ltac:(lia) ltac:(lia)) (seen_sub tb s1 _ _ 4096 497 119 Sl ltac:(lia) ltac:(lia) ltac:(lia))
    (clear_sub tb _ _ 497 119 Hcz ltac:(lia) ltac:(lia)) ltac:(lia) ltac:(lia) ltac:(lia) ltac:(lia))).
  intros s2 [W2 Hcopy]. destruct (close_moved _ s s1 s2 il img Hg Ho (wrote_moved _ _ _ Hg1 W2)) as (r & s3 & E3 & M3 & Ef & Hb3).
  rewrite E3. cbn [mbind outcome_bind wpx]. split; [done|]. split; [done|]. split; [exact M3|]. split.
  { rewrite Ef, (wrote_frames _ _ _ W2). apply Ho. }
  split; [done|]. intros o Ho'. rewrite Hb3.
  - pose proof (Hcopy (o - 497) ltac:(lia)) as Hc. replace (zf + 497 + (o - 497)) with (zf + o) in Hc by lia.
    replace (img + 497 + (o - 497)) with (img + o) in Hc by lia. rewrite Hc. apply Eb. unfold within. lia.
  - apply (clear_byte zf 4096); [done|]. unfold within. lia.
Qed.

Lemma load_header_ok s img n : good s → free_page s 0 = false → room f1 s 2 → held s img n → HDR + HDR_SIZE <= n →
  wpx (load_header s img) (fun '(zf, zva, s') => ∃ iz, zva = slot_va iz ∧ header_loaded s img zf iz s') header_messages False.
Proof.
  intros Hg H0 Hr Hi Hn. pose proof (he_pos _ _ _ Hi) as Hib. change (HDR + HDR_SIZE) with 616 in Hn.
  unfold load_header. wp_step. apply wp_wpx, (wp_mono _ _ _ (alloc_low_ok s Hg H0)). intros [zf s1] (Em1 & M1 & F1 & Hnew).
  destruct Hnew as [->|[Hlow Hnew]]; [cbn; repeat constructor|]. destruct Hnew as [Hpos Hcl Htk Hfree].
  unfold panic_if_zero. rewrite (proj2 (Z.eqb_neq zf 0)) by lia. rewrite bind_ok.
  assert (Hdz : data f3 f2 f1 cr3 zf) by (apply (clear_data zf 4096); [done|lia|lia|apply Hpos]).
  wp_step. apply wp_wpx, (wp_mono _ _ _ (map_or_ok f3 f2 f1 cr3 s1 zf _ 1 (mv_good _ _ _ M1) Hdz (moved_room _ _ _ _ M1 Hr))).
  intros [va s2] (iz & -> & Ho & Hr2). pose proof (op_good _ _ _ _ _ _ _ _ Ho) as Hg2. pose proof (op_shows _ _ _ _ _ _ _ _ Ho) as Hs2.
  wp_step. apply wp_wpx, (wp_mono _ _ _ (zero_page_moved s2 iz zf Hg2 Hs2 Hdz)). intros s3 (M3 & F3 & Z3).
  rewrite page_check by lia. destruct (Z.eqb_spec (img mod 4096) 0) as [Ha|]; [|cbn; repeat constructor].
  cbn [negb]. rewrite bind_ok.
  assert (Hi3 : held s3 img n).
  { apply (held_nowhere s2); [done|]. apply (held_nowhere s1); [|by apply (held_nowhere s)].
    apply same_frames_to, (op_frames _ _ _ _ _ _ _ _ Ho). }
  assert (Hap : img + n <= zf ∨ zf + 4096 <= img).
  { pose proof (new_apart s s1 zf 4096 img n (NewMemory _ _ _ _ Hpos Hcl Htk Hfree) (he_taken _ _ _ Hi) ltac:(lia) ltac:(lia)). lia. }
  apply (wpx_post _ _ _ _ _ (copy_header s3 zf iz img n (mv_good _ _ _ M3) (moved_room _ _ _ _ M3 Hr2) (moved_shows _ _ _ _ _ M3 Hs2)
    Hcl Hi3 Hn Ha Hap ltac:(lia))).
  intros [[r1 r2] s4] (-> & -> & M4 & Ef4 & Hmagic & Hcopy). exists iz. split; [done|].
  assert (Ei : ∀ pa, within img n pa → byte_at (vm_mem s3) pa = byte_at (vm_mem s) pa).
  { intros pa Hpa. assert (Hc : clear tb pa 1) by (apply (clear_byte img n pa); [apply Hi|done]).
    rewrite (mv_bytes _ _ _ M3) by (unfold within in *; lia || done). rewrite (opened_bytes s1 s2 iz zf pa (mv_good _ _ _ M1) Ho Hc). by rewrite Em1. }
  assert (F4 : frames_to nowhere s s4).
  { intros q Hq Hf. left. unfold free_page in *. rewrite Ef4 in Hf. destruct (F3 q Hq Hf) as [Hf2|[]]. unfold free_page in Hf2.
    rewrite (op_frames _ _ _ _ _ _ _ _ Ho) in Hf2. by destruct (F1 q Hq Hf2) as [|[]]. }
  split.
  - apply M4.
  - apply (moved_room _ _ _ _ M4 (moved_room _ _ _ _ M3 Hr2)).
  - apply (moved_shows _ _ _ _ _ M4 (moved_shows _ _ _ _ _ M3 Hs2)).
  - split; [exact Hpos|exact Hcl| |exact Hfree]. apply (taken_nowhere s3); [by apply same_frames_to|].
    apply (taken_nowhere s2); [exact F3|]. apply (taken_nowhere s1); [|exact Htk].
    apply same_frames_to, (op_frames _ _ _ _ _ _ _ _ Ho).
  - exact Hlow.
  - exact F4.
  - intros pa Hpa Hc. change HDR with 497 in M4. change HDR_SIZE with 119 in M4. unfold within in Hpa.
    rewrite (mv_bytes _ _ _ M4) by (unfold within; lia || done).
    rewrite (mv_bytes _ _ _ M3) by (done || unfold within; lia). rewrite (opened_bytes s1 s2 iz zf pa (mv_good _ _ _ M1) Ho Hc). by rewrite Em1.
  - exact Ha.
  - rewrite <- Hmagic. symmetry. apply value_at_ext. intros k Hk. apply Ei. change ZP_HEADER with 514 in Hk. unfold within. lia.
  - intros o Ho'. rewrite Hcopy by done. apply Ei. change HDR with 497 in Ho'. change HDR_SIZE with 119 in Ho'. unfold within. lia.
  - intros o Ho' Hne. rewrite (mv_bytes _ _ _ M4).
    + apply Z3. unfold within. lia.
    + unfold within. intros Hw. apply Hne. lia.
    + apply (clear_byte zf 4096); [done|]. unfold within. lia.
  - change HDR with 497 in M4. change HDR_SIZE with 119 in M4.
    apply (inside_before _ _ _ s1); [apply (moved_weaken _ _ _ _ M1); by intros ? []|].
    apply (inside_after _ _ _ s3); [|apply (moved_weaken _ _ _ _ M4); unfold within; intros; lia].
    apply (inside_after _ _ _ s2); [by apply (opened_inside _ _ _ _ zf); [apply M1|]|exact M3].
Qed.

(** *** Moving a piece of memory to large pages *)

(** The number of large pages of [n] bytes. *)
Definition larges (n : Z) : Z := (n + (2 ^ 21 - 1)) / 2 ^ 21.
Definition movable (P n : Z) : Prop := 0 <= P ∧ 0 < n ∧ P mod 2 ^ 21 + n <= 2 ^ 21 * 17 ∧ P + n <= 2 ^ 36.

Lemma large_pages n : 0 < n <= 2 ^ 21 * 17 → u8 ((n + LARGE_PG_SIZE - 1) / LARGE_PG_SIZE * LARGE_PG_SIZE >>w LARGE_PG_BITS) = larges n ∧
  1 <= larges n <= 17 ∧ n <= 2 ^ 21 * larges n < n + 2 ^ 21.
Proof.
  intros Hn. change LARGE_PG_SIZE with (2 ^ 21). unfold larges. rewrite Z.shiftr_div_pow2 by (unfold LARGE_PG_BITS; lia).
  change (2 ^ LARGE_PG_BITS) with (2 ^ 21). rewrite Z.div_mul by lia.
  replace (n + 2 ^ 21 - 1) with (n + (2 ^ 21 - 1)) by lia. split; [|dlia].
  unfold u8. rewrite Z.mod_small; [done|dlia].
Qed.

Lemma large_part P : 0 <= P < 2 ^ 63 → P .& LARGE_PG_MASK = P - P mod 2 ^ 21.
Proof.
  intros HP. change LARGE_PG_MASK with (2 ^ 64 - 2 ^ 21). rewrite land_high_ones by (unfold is_u64; lia). dlia.
Qed.

(** The pages are mapped from slot [i] on. *)
Record source_mapped s (P n va ofs np : Z) s1 (i : Z) : Prop := SourceMapped {
  sm_ofs : ofs = P mod 2 ^ 21; sm_va : va = 2 ^ 21 * i + ofs; sm_num : np = larges (ofs + n);
  sm_big : big s1 i np (P - ofs); sm_moved : moved nowhere s s1; sm_frames : vm_frames s1 = vm_frames s
}.

Lemma map_source_ok s P n msg : good s → movable P n →
  wpx (map_source s P n msg) (fun '(va, ofs, np, s1) => ∃ i, source_mapped s P n va ofs np s1 i) (eq msg) False.
Proof.
  intros Hg (HP & Hn & Hfit & Hend). unfold map_source. rewrite large_part by lia.
  assert (Eo : P -w (P - P mod 2 ^ 21) = P mod 2 ^ 21) by (replace (P - (P - P mod 2 ^ 21)) with (P mod 2 ^ 21) by lia; apply u64_id; unfold is_u64; dlia).
  rewrite Eo. rewrite (u64_id (P mod 2 ^ 21 + n)) by (unfold is_u64; dlia).
  rewrite ceiling64_ok by (first [unfold is_u64; dlia | change LARGE_PG_SIZE with (2 ^ 21); dlia]). rewrite bind_ok.
  destruct (large_pages (P mod 2 ^ 21 + n)) as (-> & Hnp & Hcov); [dlia|]. set (np := larges _) in *. cbv zeta.
  wp_step. apply wp_wpx, (wp_mono _ _ _ (map_large_ok s (P - P mod 2 ^ 21) np (PGT_P .| PDT_PS) Hg Hnp
    ltac:(dlia) ltac:(dlia) ltac:(dlia) ltac:(repeat split))).
  intros [va s1] [->|(i & -> & Hva & Hbig & M & Ef & _)]; [by cbn|]. unfold panic_if_zero. rewrite (proj2 (Z.eqb_neq _ 0)) by lia.
  rewrite bind_ok. cbn [wpx]. exists i. destruct Hbig as (B1 & B2 & B3). unfold LG_LO, LG_HI in B1, B2.
  split; [done|rewrite u64_id by (unfold is_u64; dlia); done|done|by split|done|done].
Qed.

(** The new place: frames and slots of their own. *)
Record place_made s (n P va np : Z) s1 (i : Z) : Prop := PlaceMade {
  pm_aligned : P mod 2 ^ 21 = 0; pm_va : va = 2 ^ 21 * i; pm_num : np = larges n; pm_bound : 1 <= np <= 17 ∧ n <= 2 ^ 21 * np;
  pm_big : big s1 i np P; pm_new : new_memory s s1 P (2 ^ 21 * np); pm_moved : moved nowhere s s1; pm_frames : frames_to nowhere s s1;
  pm_kept j m Q : 1 <= m → big s j m Q → big s1 j m Q ∧ (j + m <= i ∨ i + np <= j)
}.

Lemma new_place_ok s n msg1 msg2 : good s → 0 < n <= 2 ^ 21 * 17 →
  wpx (new_place s n msg1 msg2) (fun '(P, va, np, s1) => ∃ i, place_made s n P va np s1 i) (fun m => m = msg1 ∨ m = msg2) False.
Proof.
  intros Hg Hn. unfold new_place. rewrite ceiling64_ok by (first [unfold is_u64; lia | change LARGE_PG_SIZE with (2 ^ 21); lia]). rewrite bind_ok.
  destruct (large_pages n Hn) as (-> & Hnp & Hcov). set (np := larges n) in *. cbv zeta.
  replace (Z.shiftl np (LARGE_PG_BITS - PG_BITS)) with (512 * np).
  2: { change (LARGE_PG_BITS - PG_BITS) with 9. rewrite Z.shiftl_mul_pow2 by lia. lia. }
  wp_step. apply wp_wpx, (wp_mono _ _ _ (alloc_large_ok s np Hg Hnp)). intros [P s1] (Em & M1 & F1 & Hcases).
  unfold panic_if_zero. destruct Hcases as [->|[Ha Hnew]]; [by left|]. pose proof (nm_pos _ _ _ _ Hnew) as Hpos.
  rewrite (proj2 (Z.eqb_neq P 0)) by lia. rewrite bind_ok. wp_step.
  apply wp_wpx, (wp_mono _ _ _ (map_large_ok s1 P np (PGT_P .| PGT_RW .| PDT_PS) (mv_good _ _ _ M1) Hnp Ha ltac:(lia) ltac:(lia) ltac:(repeat split))).
  intros [va s2] [->|(i & -> & Hva & Hbig & M2 & Ef & Hold)]; [by right|]. rewrite (proj2 (Z.eqb_neq _ 0)) by lia.
  rewrite bind_ok. cbn [wpx]. exists i. split; [done|done|done|by split; lia|done| | | |].
  - destruct Hnew as [H1 H2 H3 H4]. split; [done|done| |done]. apply (taken_nowhere s1); [by apply same_frames_to|done].
  - by apply (moved_trans _ s s1).
  - intros q Hq Hf. apply F1; [done|]. unfold free_page in *. by rewrite Ef in Hf.
  - intros j m Q Hm Hb. apply Hold; [done|]. apply (big_kept s s1 j m Q Hb). intros k Hk. unfold entry. by rewrite Em.
Qed.

(** The pages inside [b .. b+m-1]. *)
Definition pages_in (b m q : Z) : Prop := b <= 4096 * q ∧ 4096 * q + 4096 <= b + m.

(** [n] bytes from [P] are copied to [Q], and the memory from [b] on is given back. *)
Record piece_moved s s3 (P n Q b m i2 npd : Z) : Prop := PieceMoved {
  mp_moved : moved (within Q n) s s3; mp_frames : frames_to (pages_in b m) s s3; mp_big : big s3 i2 npd Q;
  mp_copy k : 0 <= k < n → byte_at (vm_mem s3) (Q + k) = byte_at (vm_mem s) (P + k)
}.

(** What may be copied and given back: the mapped source and the mapped place. *)
Record copy_ready s (P n Q b m i1 nps ofs i2 npd : Z) : Prop := CopyReady {
  cr_good : good s;
  cr_src : big s i1 nps (P - ofs); cr_ofs : 0 <= ofs < 2 ^ 21; cr_nps : 1 <= nps ∧ ofs + n <= 2 ^ 21 * nps;
  cr_dst : big s i2 npd Q; cr_npd : 1 <= npd ∧ n <= 2 ^ 21 * npd; cr_apart : i1 + nps <= i2 ∨ i2 + npd <= i1;
  cr_held : held s b m; cr_in : b <= P ∧ 0 < n ∧ P + n <= b + m; cr_page : (b + 4095) / 4096 <= (b + m) / 4096;
  cr_clear : clear tb Q (2 ^ 21 * npd); cr_disjoint : Q + 2 ^ 21 * npd <= b ∨ b + m <= Q; cr_pos : 0 <= Q
}.

Lemma copy_and_free {B} s P n Q b m i1 nps ofs i2 npd (k : vm phys → outcome B) Post Pm :
  copy_ready s P n Q b m i1 nps ofs i2 npd →
  (∀ s3, piece_moved s s3 P n Q b m i2 npd → wpx (k s3) Post Pm False) →
  wpx (s ← memcpy s (2 ^ 21 * i2) (2 ^ 21 * i1 + ofs) n;
       '(_, s) ← vm_unmap_large_pages s (2 ^ 21 * i1 + ofs -w ofs) nps;
       s ← free_frames s b m; k s) Post Pm False.
Proof.
  intros [Hg Hsrc Hofs Hnps Hdst Hnpd Hslots Hh Hin Hpage Hc Hdis HQ] Hk.
  pose proof (seen_big s i1 nps _ Hg Hsrc) as S1. pose proof (seen_big s i2 npd Q Hg Hdst) as S2.
  pose proof (seen_sub tb s _ _ _ ofs n S1 ltac:(lia) ltac:(lia) ltac:(lia)) as S1'. replace (P - ofs + ofs) with P in S1' by lia.
  wp_step. pose proof (he_pos _ _ _ Hh) as Hpos.
  apply wp_wpx, (wp_mono _ _ _ (memcpy_ok tb s _ _ Q P n (2 ^ 21 * npd) n S2 S1' Hc ltac:(lia) ltac:(lia) ltac:(lia) ltac:(lia))).
  intros s1 [W1 Hcopy]. pose proof (wrote_moved _ _ _ Hg W1) as M1. pose proof (mv_good _ _ _ M1) as Hg1.
  destruct Hsrc as (B1 & B2 & B3). destruct Hdst as (D1 & D2 & D3). unfold LG_LO, LG_HI in B1, B2, D1, D2.
  assert (E2 : ∀ j, 0 <= j < 512 → entry (vm_mem s1) f2 j = entry (vm_mem s) f2 j) by (intros; apply W1; [repeat constructor|done]).
  replace (2 ^ 21 * i1 + ofs -w ofs) with (2 ^ 21 * i1) by (rewrite u64_id; [lia|unfold is_u64; replace (2 ^ 21 * i1 + ofs - ofs) with (2 ^ 21 * i1) by lia; lia]).
  wp_step. apply wp_wpx, (wp_mono _ _ _ (unmap_large_ok s1 i1 nps Hg1 B1 (proj1 Hnps) B2)). intros [r s2] (M2 & Ef2 & Hb2).
  assert (F2 : vm_frames s2 = vm_frames s) by (by rewrite Ef2, (wrote_frames _ _ _ W1)).
  destruct (free_frames_ok s2 b m (mv_good _ _ _ M2)) as (s3 & E3 & Em3 & M3 & F3); [lia|lia|lia|done|apply Hh|].
  wp_step. rewrite E3. cbn [wpx]. apply Hk.
  assert (Hb1 : big s1 i2 npd Q) by (apply (big_kept s s1 i2 npd Q); [by split|intros j Hj; apply E2; lia]).
  split.
  - apply (moved_trans _ s s1 s3 M1). apply (moved_weaken nowhere); [|done]. by apply (moved_trans nowhere s1 s2).
  - intros q Hq Hf. destruct (F3 q Hq Hf) as [Hf2|]; [|by right]. left. unfold free_page in *. by rewrite F2 in Hf2.
  - apply (big_kept s2 s3 i2 npd Q); [|intros j _; unfold entry; by rewrite Em3]. apply Hb2; [done|lia].
  - intros j Hj. rewrite Em3, (mv_bytes _ _ _ M2).
    + by apply Hcopy.
    + by intros [].
    + apply (clear_byte Q (2 ^ 21 * npd)); [done|]. unfold within. lia.
Qed.

(** [vm_check_mapping] on a large page reads the first word of the page where
    the entry of a page table would be. *)
Lemma check_mapping_ok s i np P : good s → big s i np P → 1 <= np →
  ∃ l, vm_check_mapping s (2 ^ 21 * i) = Ok (l, done_vm s (vm_mem s) (vm_invlpg s) (vm_frames s)).
Proof.
  intros Hg (B1 & B2 & Hall) Hnp. unfold LG_LO, LG_HI in B1, B2. destruct (Hall 0 ltac:(lia)) as [Hp _]. rewrite Z.add_0_r in Hp.
  pose proof (go_kernel _ _ _ _ _ Hg) as [[[[Hr H3] H2] _] _ _ Hl]. set (va := 2 ^ 21 * i).
  assert (Ei : idx4 va = 0 ∧ idx3 va = 0 ∧ idx2 va = i ∧ idx1 va = 0) by (unfold va, idx4, idx3, idx2, idx1; dlia).
  destruct Ei as (E4 & E3 & E2 & E1). change (idx4 KERNEL_MAPPING_BASE) with 0 in H3. change (idx3 KERNEL_MAPPING_BASE) with 0 in H2.
  assert (P3 : pdpt_at (vm_mem s) (vm_cr3 s) va f3) by (split; [done|]; rewrite E4; exact H3).
  assert (P2 : pdt_at (vm_mem s) (vm_cr3 s) va f3 f2) by (split; [done|]; rewrite E3; exact H2).
  assert (Hva : is_u64 va) by (unfold is_u64, va; lia).
  unfold vm_check_mapping. rewrite lock_vm_bind by done.
  rewrite get_pml4t, get_pdpt, get_pdt, get_pt by done.
  rewrite pml4t_entry_idx, pdpt_entry_idx, pdt_entry_idx, pt_entry_idx, bind_ok.
  rewrite (vld_locked _ _ _ (translate_pml4t _ _ (idx4 va) Hr ltac:(rewrite E4; lia))), !bind_ok.
  rewrite (vld_locked _ _ _ (translate_pdpt _ _ _ _ (idx3 va) P3 ltac:(rewrite E3; lia))), !bind_ok.
  rewrite (vld_locked _ _ _ (translate_pdt _ _ _ _ _ (idx2 va) P2 ltac:(rewrite E2; lia))), !bind_ok.
  assert (Et : translate (vm_mem s) (vm_cr3 s) (slot (rec_va (idx4 va) (idx3 va) (idx2 va) 0) (idx1 va)) = Some (frame_of (entry (vm_mem s) f2 i) + 0)).
  { rewrite E4, E3, E2, E1. rewrite (rec_va_slot 0 0 i 0) by (done || lia).
    rewrite (translate_4k _ _ _ (vm_cr3 s) f3 f2).
    - rewrite rec_va_idx1, rec_va_offset by lia. done.
    - apply rec_va_canonical; lia.
    - by rewrite rec_va_idx4 by lia.
    - by rewrite rec_va_idx3 by lia.
    - by rewrite rec_va_idx2 by lia.
    - by rewrite rec_va_idx1 by lia. }
  rewrite (vld_locked _ _ _ Et), bind_ok. eexists. reflexivity.
Qed.

(** Taking and releasing the lock. *)
Lemma lock_cycle_moved s inv : good s → moved nowhere s (done_vm s (vm_mem s) inv (vm_frames s)).
Proof.
  intros Hg. split; [|done..]. apply good_upd; [done|]. apply same_outside_refl.
Qed.

Definition move_messages (msg : string) : Prop := msg ∈ [
  "page mapping for src kernel failed"; "page allocation for dst kernel failed"; "page mapping for dst kernel failed";
  "page mapping for src ramdisk failed"; "page allocation for dst ramdisk failed"; "page mapping for dst ramdisk failed"].

(** [n] bytes are now at [Q], a multiple of 2 MB in pages that were free; the memory from
    [b] on is given back. *)
Record relocated s s' (P n Q b m : Z) : Prop := Relocated {
  re_moved : moved (within Q n) s s'; re_frames : frames_to (pages_in b m) s s';
  re_aligned : Q mod 2 ^ 21 = 0; re_size : 0 < n;
  re_new : new_memory s s' Q (2 ^ 21 * larges n);
  re_copy k : 0 <= k < n → byte_at (vm_mem s') (Q + k) = byte_at (vm_mem s) (P + k)
}.

(** Mapping both ends, for the two moves: afterwards the copy may be made. *)
Lemma both_mapped s P n va ofs np s1 i1 Q va' np' s2 i2 b m : good s → movable P n → held s b m → b <= P → P + n <= b + m →
  (b + 4095) / 4096 <= (b + m) / 4096 → source_mapped s P n va ofs np s1 i1 → place_made s1 n Q va' np' s2 i2 →
  copy_ready s2 P n Q b m i1 np ofs i2 np'.
Proof.
  intros Hg (HP & Hn & Hfit & Hend) Hh Hb1 Hb2 Hpage [Eo Eva En Hbig M1 F1] [Qa Eva' En' Hnp' Hbig' Hnew M2 F2 Hkept].
  assert (Hnp : 1 <= np ∧ ofs + n <= 2 ^ 21 * np) by (subst np ofs; destruct (large_pages (P mod 2 ^ 21 + n)) as (_ & ? & ?); dlia).
  destruct (Hkept i1 np (P - ofs) (proj1 Hnp) Hbig) as [Hbig2 Hd].
  assert (Hh1 : held s1 b m) by (apply (held_nowhere s); [by apply same_frames_to|done]).
  assert (Hh2 : held s2 b m) by by apply (held_nowhere s1).
  pose proof (new_apart s1 s2 Q _ b m Hnew (he_taken _ _ _ Hh1)) as Hap. pose proof (he_pos _ _ _ Hh) as Hpos. pose proof (nm_pos _ _ _ _ Hnew) as Hq.
  split; [apply M2|done|subst ofs; dlia|done|done|lia|lia|done|lia|done|apply Hnew|lia|lia].
Qed.

Lemma relocated_intro s P n va ofs np s1 i1 Q va' np' s2 i2 b m s3 s4 : good s → held s b m →
  source_mapped s P n va ofs np s1 i1 → place_made s1 n Q va' np' s2 i2 → 0 < n →
  (∀ k, 0 <= k < n → within b m (P + k)) →
  piece_moved s2 s3 P n Q b m i2 np' → moved nowhere s3 s4 → vm_frames s4 = vm_frames s3 → relocated s s4 P n Q b m.
Proof.
  intros Hg Hh [Eo Eva En Hbig M1 F1] [Qa Eva' En' Hnp' Hbig' Hnew M2 F2 Hkept] Hn Hin [M3 F3 _ Hcopy] M4 F4.
  assert (Ht4 : frames_to (pages_in b m) s2 s4) by (intros q Hq Hf; apply F3; [done|]; unfold free_page in *; by rewrite F4 in Hf).
  assert (Hh1 : held s1 b m) by (apply (held_nowhere s); [by apply same_frames_to|done]).
  pose proof (he_pos _ _ _ Hh) as Hpos. subst np'.
  pose proof (new_apart s1 s2 Q _ b m Hnew (he_taken _ _ _ Hh1)) as Hap.
  assert (Hfree1 : ∀ q, free_page s1 q = free_page s q) by (intros q; unfold free_page; by rewrite F1).
  split; [| |done|done| |].
  - apply (moved_trans _ s s1); [apply (moved_weaken nowhere); [done|by intros ? []]|].
    apply (moved_trans _ s1 s2); [apply (moved_weaken nowhere); [done|by intros ? []]|].
    apply (moved_trans _ s2 s3); [done|]. apply (moved_weaken nowhere); [done|by intros ? []].
  - intros q Hq Hf. destruct (Ht4 q Hq Hf) as [Hf2|]; [|by right]. left. destruct (F2 q Hq Hf2) as [Hf1|[]]. by rewrite Hfree1 in Hf1.
  - destruct Hnew as [H1 H2 H3 H4]. split; [done|done| |].
    + apply (taken_frames (pages_in b m) s2); [done|done|]. intros pa Hpa [Hb1 Hb2]. unfold within in Hpa.
      destruct Hap as [|[|[|]]]; [lia|lia|dlia..].
    + intros pa Hpa. rewrite <- Hfree1. by apply H4.
  - intros k Hk. assert (Hck : clear tb (Q + k) 1) by (apply (clear_byte Q (2 ^ 21 * larges n)); [apply Hnew|unfold within; lia]).
    rewrite (mv_bytes _ _ _ M4), Hcopy by (done || by intros []).
    assert (Hcp : clear tb (P + k) 1) by (apply (clear_byte b m); [apply Hh|by apply Hin]).
    rewrite (mv_bytes _ _ _ M2), (mv_bytes _ _ _ M1) by (done || by intros []). done.
Qed.

(** The kernel of an image whose setup code has [x + 1] sectors. *)
Definition kernel_start (g : vm_struct) (x : Z) : Z := img_paddr g + setup_size x.
Definition kernel_bytes (g : vm_struct) (x : Z) : Z := img_size g - setup_size x.

Definition with_image (g : vm_struct) (paddr sz : Z) : vm_struct :=
  VmStruct (vm_id g) (name g) paddr sz (vm_num_cpus g) (vm_ram_size g) (input g)
    (entry_point g) (gdtr g) (vmcs_paddr g) (extra_paddr g) (extra_size g) (vm_lock g).

Lemma move_kernel_ok s g iz zf x : good s → shows s iz zf → byte_at (vm_mem s) (zf + ZP_SETUP_SECTS) = x →
  held s (img_paddr g) (img_size g) → img_paddr g mod 4096 = 0 → movable (kernel_start g x) (kernel_bytes g x) →
  wpx (move_kernel s g (slot_va iz)) (fun '(g', n, s') => ∃ Q, n = kernel_bytes g x ∧ g' = with_image g Q n ∧
    relocated s s' (kernel_start g x) n Q (img_paddr g) (img_size g)) move_messages False.
Proof.
  intros Hg Hs Hx Hh Ha Hmov. pose proof Hmov as (HP & Hn & Hfit & Hend). pose proof (he_pos _ _ _ Hh) as Hpos.
  pose proof (byte_range (vm_mem s) (zf + ZP_SETUP_SECTS)) as Hxr. rewrite Hx in Hxr.
  assert (Hss : 512 <= setup_size x <= 2 ^ 17) by (unfold setup_size; change LINUX_SECTOR_SZ with 512; lia).
  unfold move_kernel. rewrite (slot_add s iz zf ZP_SETUP_SECTS Hs) by (change ZP_SETUP_SECTS with 497; lia).
  rewrite (ldn_ok tb 1 s (slot_va iz) zf 4096 ZP_SETUP_SECTS (seen_small s iz zf Hg Hs)) by (change ZP_SETUP_SECTS with 497; lia).
  rewrite bind_ok. cbn [value_at]. rewrite Hx, Z.mul_0_r, Z.add_0_r.
  rewrite (u64_id (img_paddr g + setup_size x)) by ulia.
  assert (Hk0 : kernel_bytes g x = img_size g - setup_size x) by reflexivity. unfold kernel_start in *.
  rewrite (u64_id (img_size g - setup_size x)) by ulia. rewrite <- Hk0. set (P := img_paddr g + setup_size x) in *. set (n := kernel_bytes g x) in *.
  cbv zeta. wp_step. apply (wpx_mono _ _ _ _ _ _ _ (map_source_ok s P n _ Hg Hmov)); [|intros m <-; repeat constructor|done].
  intros [[[va ofs] np] s1] (i1 & Hsm). pose proof (mv_good _ _ _ (sm_moved _ _ _ _ _ _ _ _ Hsm)) as Hg1.
  wp_step. apply (wpx_mono _ _ _ _ _ _ _ (new_place_ok s1 n _ _ Hg1 ltac:(dlia))); [|intros m [->| ->]; repeat constructor|done].
  intros [[[Q va'] np'] s2] (i2 & Hpm). pose proof (mv_good _ _ _ (pm_moved _ _ _ _ _ _ _ Hpm)) as Hg2.
  pose proof (both_mapped s P n va ofs np s1 i1 Q va' np' s2 i2 (img_paddr g) (img_size g) Hg Hmov Hh ltac:(lia) ltac:(lia) ltac:(dlia) Hsm Hpm) as Hready.
  destruct (check_mapping_ok s2 i2 np' Q Hg2 (pm_big _ _ _ _ _ _ _ Hpm) ltac:(apply Hpm)) as (l & E).
  rewrite (pm_va _ _ _ _ _ _ _ Hpm), E, bind_ok. set (s2' := done_vm _ _ _ _).
  pose proof (lock_cycle_moved s2 (vm_invlpg s2) Hg2) as Mc. fold s2' in Mc.
  assert (Hpm' : place_made s1 n Q va' np' s2' i2).
  { destruct Hpm as [H1 H2 H3 H4 H5 [N1 N2 N3 N4] H7 H8 H9]. split; try done. by apply (moved_trans nowhere s1 s2). }
  assert (Hready' : copy_ready s2' P n Q (img_paddr g) (img_size g) i1 np ofs i2 np') by (destruct Hready; split; try done; [apply Mc|by apply (held_nowhere s2); [apply same_frames_to|]]).
  rewrite (sm_va _ _ _ _ _ _ _ _ Hsm).
  apply (copy_and_free s2' P n Q _ _ i1 np ofs i2 np' _ _ _ Hready'). intros s3 Hp.
  destruct (mp_big _ _ _ _ _ _ _ _ _ Hp) as (B1 & B2 & _).
  pose proof (unmap_large_ok s3 i2 np' (mv_good _ _ _ (mp_moved _ _ _ _ _ _ _ _ _ Hp)) B1 ltac:(apply Hpm) B2) as Hun.
  wp_step. apply wp_wpx, (wp_mono _ _ _ Hun). intros [r s4] (M4 & F4 & _). cbn [wpx]. exists Q. split; [done|]. split; [done|].
  apply (relocated_intro s P n va ofs np s1 i1 Q va' np' s2' i2 (img_paddr g) (img_size g) s3 s4 Hg Hh Hsm Hpm' Hn); [|exact Hp|exact M4|exact F4].
  intros k Hk. unfold within. lia.
Qed.

(** *** The descriptor table and the command line *)

Definition CMD_OFFSET : Z := 2048.

(** The page [C]: four descriptors, and the command line in the second half. *)
Definition args_page (m : gmap Z Z) (C : Z) : Prop :=
  value_at 8 m C = 0 ∧ value_at 8 m (C + 8) = 0 ∧ value_at 8 m (C + 16) = GDT_CS32 ∧ value_at 8 m (C + 24) = GDT_DS32 ∧
  string_at m (C + CMD_OFFSET) LINUX_CMD_LINE.

Lemma args_page_ext m m' C : (∀ pa, within C 4096 pa → byte_at m' pa = byte_at m pa) → args_page m C → args_page m' C.
Proof.
  unfold within. intros E (H0 & H1 & H2 & H3 & H4). unfold args_page, CMD_OFFSET in *.
  assert (Hv : ∀ o, 0 <= o <= 4088 → value_at 8 m' (C + o) = value_at 8 m (C + o)).
  { intros o Ho. apply value_at_ext. intros k Hk. apply E. lia. }
  pose proof (Hv 0 ltac:(lia)) as E0. rewrite Z.add_0_r in E0. rewrite E0, !Hv by lia. repeat (split; [done|]).
  apply (string_at_ext m); [|done]. intros k Hk. apply E. change (Z.of_nat (String.length LINUX_CMD_LINE)) with 4 in Hk. lia.
Qed.

Lemma write_args {B} s C va i (k : vm phys → outcome B) Post Pm : good s → shows s i C → clear tb C 4096 → C mod 4096 = 0 → va = slot_va i →
  (∀ s', wrote tb (within C 4096) s s' → args_page (vm_mem s') C → wpx (k s') Post Pm False) →
  wpx (s ← vst s (slot va 0) 0; s ← vst s (slot va 1) 0; s ← vst s (slot va 2) GDT_CS32; s ← vst s (slot va 3) GDT_DS32;
       s ← st_string s (va +w (PG_SIZE >>w 1)) LINUX_CMD_LINE; k s) Post Pm False.
Proof.
  intros Hg Hs Hc Ha -> Hk. pose proof (seen_small s i C Hg Hs) as S0. assert (H8 : C mod 8 = 0) by dlia.
  assert (Hin : ∀ j o, 0 <= o → 0 <= j → o + j <= 4096 → ∀ pa, within (C + o) j pa → within C 4096 pa) by (unfold within; intros; lia).
  destruct (vst_ok tb s _ _ _ 0 0 S0 Hc H8 ltac:(lia) ltac:(lia)) as (s1 & E1 & W1 & V1). wp_step. rewrite E1. cbn [wpx].
  pose proof (wrote_seen _ _ _ _ _ _ _ W1 S0) as S1.
  destruct (vst_ok tb s1 _ _ _ 1 0 S1 Hc H8 ltac:(lia) ltac:(lia)) as (s2 & E2 & W2 & V2). wp_step. rewrite E2. cbn [wpx].
  pose proof (wrote_seen _ _ _ _ _ _ _ W2 S1) as S2.
  destruct (vst_ok tb s2 _ _ _ 2 GDT_CS32 S2 Hc H8 ltac:(lia) ltac:(lia)) as (s3 & E3 & W3 & V3). wp_step. rewrite E3. cbn [wpx].
  pose proof (wrote_seen _ _ _ _ _ _ _ W3 S2) as S3.
  destruct (vst_ok tb s3 _ _ _ 3 GDT_DS32 S3 Hc H8 ltac:(lia) ltac:(lia)) as (s4 & E4 & W4 & V4). wp_step. rewrite E4. cbn [wpx].
  pose proof (wrote_seen _ _ _ _ _ _ _ W4 S3) as S4.
  destruct (st_string_ok tb s4 _ _ _ LINUX_CMD_LINE CMD_OFFSET S4 Hc ltac:(unfold CMD_OFFSET; lia) ltac:(unfold CMD_OFFSET; cbn; lia)) as (s5 & E5 & W5 & V5).
  change (PG_SIZE >>w 1) with CMD_OFFSET. rewrite (slot_add s i C CMD_OFFSET Hs) by (unfold CMD_OFFSET; lia).
  wp_step. rewrite E5. cbn [wpx]. change (Z.of_nat (String.length LINUX_CMD_LINE) + 1) with 5 in W5.
  assert (B5 : ∀ pa, pa < C + CMD_OFFSET → byte_at (vm_mem s5) pa = byte_at (vm_mem s4) pa) by (intros pa Hpa; apply (wr_bytes _ _ _ _ W5); unfold within; lia).
  assert (B4 : ∀ pa, pa < C + 24 → byte_at (vm_mem s4) pa = byte_at (vm_mem s3) pa) by (intros pa Hpa; apply (wr_bytes _ _ _ _ W4); unfold within; lia).
  assert (B3 : ∀ pa, pa < C + 16 → byte_at (vm_mem s3) pa = byte_at (vm_mem s2) pa) by (intros pa Hpa; apply (wr_bytes _ _ _ _ W3); unfold within; lia).
  assert (B2 : ∀ pa, pa < C + 8 → byte_at (vm_mem s2) pa = byte_at (vm_mem s1) pa) by (intros pa Hpa; apply (wr_bytes _ _ _ _ W2); unfold within; lia).
  apply Hk.
  - apply (wrote_trans _ _ s s1); [apply (wrote_weaken _ _ _ _ _ W1), Hin; lia|].
    apply (wrote_trans _ _ s1 s2); [apply (wrote_weaken _ _ _ _ _ W2), Hin; lia|].
    apply (wrote_trans _ _ s2 s3); [apply (wrote_weaken _ _ _ _ _ W3), Hin; lia|].
    apply (wrote_trans _ _ s3 s4); [apply (wrote_weaken _ _ _ _ _ W4), Hin; lia|].
    apply (wrote_weaken _ _ _ _ _ W5), Hin; unfold CMD_OFFSET; lia.
  - unfold CMD_OFFSET in *. rewrite Z.mul_0_r, Z.add_0_r in V1. unfold args_page, CMD_OFFSET. split_and!.
    + transitivity (0 mod 2 ^ 64); [|reflexivity]. rewrite <- V1. apply value_at_ext. intros a Hra. by rewrite B5, B4, B3, B2 by lia.
    + transitivity (0 mod 2 ^ 64); [|reflexivity]. rewrite <- V2. apply value_at_ext. intros a Hra. by rewrite B5, B4, B3 by lia.
    + transitivity (GDT_CS32 mod 2 ^ 64); [|reflexivity]. rewrite <- V3. apply value_at_ext. intros a Hra. by rewrite B5, B4 by lia.
    + transitivity (GDT_DS32 mod 2 ^ 64); [|reflexivity]. rewrite <- V4. apply value_at_ext. intros a Hra. by rewrite B5 by lia.
    + exact V5.
Qed.

(** A member of the zero page. *)
Lemma zp_store N s iz zf o v : good s → shows s iz zf → clear tb zf 4096 → 0 <= o → o + Z.of_nat N <= 4096 → 0 <= v →
  ∃ s', stn N s (slot_va iz +w o) v = Ok s' ∧ wrote tb (within (zf + o) (Z.of_nat N)) s s' ∧
    value_at N (vm_mem s') (zf + o) = v mod 2 ^ (8 * Z.of_nat N).
Proof.
  intros Hg Hs Hc Ho Hn Hv. rewrite (slot_add s iz zf o Hs) by lia.
  by apply (stn_ok tb N s (slot_va iz) zf 4096 o v (seen_small s iz zf Hg Hs) Hc).
Qed.

Lemma clear_flags b : 0 <= b < 256 → u8 (b .& Z.lnot 0xE0) = b .& 0x1F.
Proof.
  intros Hb. assert (Hall : forallb (fun k => u8 (Z.of_nat k .& Z.lnot 0xE0) =? Z.of_nat k .& 0x1F) (seq 0 256) = true) by (vm_compute; reflexivity).
  rewrite forallb_forall in Hall. specialize (Hall (Z.to_nat b) ltac:(apply in_seq; lia)). rewrite Z2Nat.id in Hall by lia.
  by apply Z.eqb_eq.
Qed.

Definition args_fields (zf pa : Z) : Prop := within (zf + 0x210) 2 pa ∨ within (zf + 0x214) 4 pa ∨ within (zf + 0x228) 4 pa.

(** What the header says of the loader: the command line, the type of the
    loader, the flags and the entry point. *)
Record args_header (m m' : gmap Z Z) (zf cmd entry : Z) : Prop := ArgsHeader {
  ah_cmd : value_at 4 m' (zf + ZP_CMD_LINE_PTR) = cmd;
  ah_type : byte_at m' (zf + ZP_TYPE_OF_LOADER) = 0xFF;
  ah_flags : byte_at m' (zf + ZP_LOADFLAGS) = byte_at m (zf + ZP_LOADFLAGS) .& 0x1F;
  ah_start : value_at 4 m' (zf + ZP_CODE32_START) = entry
}.

Lemma set_args {B} s iz zf cmd start (k : vm phys → outcome B) Post Pm : good s → shows s iz zf → clear tb zf 4096 → is_u32 cmd → is_u32 start →
  (∀ s', wrote tb (args_fields zf) s s' → args_header (vm_mem s) (vm_mem s') zf cmd start → wpx (k s') Post Pm False) →
  wpx (s ← stn 4 s (slot_va iz +w ZP_CMD_LINE_PTR) cmd; s ← stn 1 s (slot_va iz +w ZP_TYPE_OF_LOADER) 0xFF;
       loadflags ← ldn 1 s (slot_va iz +w ZP_LOADFLAGS);
       s ← stn 1 s (slot_va iz +w ZP_LOADFLAGS) (u8 (loadflags .& Z.lnot 0xE0));
       s ← stn 4 s (slot_va iz +w ZP_CODE32_START) start; k s) Post Pm False.
Proof.
  change ZP_CMD_LINE_PTR with 0x228. change ZP_TYPE_OF_LOADER with 0x210. change ZP_LOADFLAGS with 0x211. change ZP_CODE32_START with 0x214.
  unfold is_u32. intros Hg Hs Hc Hcmd Hst Hk.
  destruct (zp_store 4 s iz zf 0x228 cmd Hg Hs Hc ltac:(lia) ltac:(lia) ltac:(lia)) as (s1 & E1 & W1 & V1). wp_step. rewrite E1. cbn [wpx].
  pose proof (good_wrote _ _ _ Hg W1) as Hg1. pose proof (moved_shows _ _ _ _ _ (wrote_moved _ _ _ Hg W1) Hs) as Hs1.
  destruct (zp_store 1 s1 iz zf 0x210 0xFF Hg1 Hs1 Hc ltac:(lia) ltac:(lia) ltac:(lia)) as (s2 & E2 & W2 & V2). wp_step. rewrite E2. cbn [wpx].
  pose proof (good_wrote _ _ _ Hg1 W2) as Hg2. pose proof (moved_shows _ _ _ _ _ (wrote_moved _ _ _ Hg1 W2) Hs1) as Hs2.
  rewrite (slot_add s2 iz zf 0x211 Hs2) by lia. rewrite (ldn_ok tb 1 s2 (slot_va iz) zf 4096 0x211 (seen_small s2 iz zf Hg2 Hs2)) by lia.
  rewrite bind_ok. cbn [value_at]. rewrite Z.mul_0_r, Z.add_0_r, <- (slot_add s2 iz zf 0x211 Hs2) by lia. rewrite clear_flags by apply byte_range.
  assert (Hfl : 0 <= byte_at (vm_mem s2) (zf + 0x211) .& 0x1F < 256).
  { change 0x1F with (Z.ones 5). rewrite Z.land_ones by lia. dlia. }
  destruct (zp_store 1 s2 iz zf 0x211 (byte_at (vm_mem s2) (zf + 0x211) .& 0x1F) Hg2 Hs2 Hc ltac:(lia) ltac:(lia) ltac:(lia)) as (s3 & E3 & W3 & V3). wp_step. rewrite E3. cbn [wpx].
  pose proof (good_wrote _ _ _ Hg2 W3) as Hg3. pose proof (moved_shows _ _ _ _ _ (wrote_moved _ _ _ Hg2 W3) Hs2) as Hs3.
  destruct (zp_store 4 s3 iz zf 0x214 start Hg3 Hs3 Hc ltac:(lia) ltac:(lia) ltac:(lia)) as (s4 & E4 & W4 & V4). wp_step. rewrite E4. cbn [wpx].
  cbn [value_at] in V2, V3. change (2 ^ (8 * Z.of_nat 4)) with (2 ^ 32) in V1, V4. change (2 ^ (8 * Z.of_nat 1)) with 256 in V2, V3.
  rewrite Z.mul_0_r, Z.add_0_r in V2, V3. rewrite Z.mod_small in V1, V2, V3, V4 by lia.
  change (Z.of_nat 4) with 4 in W1, W4. change (Z.of_nat 1) with 1 in W2, W3.
  apply Hk.
  - apply (wrote_trans _ _ s s1); [apply (wrote_weaken _ _ _ _ _ W1); unfold args_fields; tauto|].
    apply (wrote_trans _ _ s1 s2); [apply (wrote_weaken _ _ _ _ _ W2); unfold args_fields, within; intros; lia|].
    apply (wrote_trans _ _ s2 s3); [apply (wrote_weaken _ _ _ _ _ W3); unfold args_fields, within; intros; lia|].
    apply (wrote_weaken _ _ _ _ _ W4). unfold args_fields. tauto.
  - split; unfold ZP_CMD_LINE_PTR, ZP_TYPE_OF_LOADER, ZP_LOADFLAGS, ZP_CODE32_START.
    + rewrite <- V1. apply value_at_ext. intros a Ha.
      by rewrite (wr_bytes _ _ _ _ W4), (wr_bytes _ _ _ _ W3), (wr_bytes _ _ _ _ W2) by (unfold within; lia).
    + rewrite <- V2. by rewrite (wr_bytes _ _ _ _ W4), (wr_bytes _ _ _ _ W3) by (unfold within; lia).
    + rewrite (wr_bytes _ _ _ _ W4) by (unfold within; lia). rewrite V3.
      by rewrite (wr_bytes _ _ _ _ W2), (wr_bytes _ _ _ _ W1) by (unfold within; lia).
    + exact V4.
Qed.

Definition with_gdtr (g : vm_struct) (C : Z) : vm_struct :=
  VmStruct (vm_id g) (name g) (img_paddr g) (img_size g) (vm_num_cpus g) (vm_ram_size g) (input g)
    (entry_point g) C (vmcs_paddr g) (extra_paddr g) (extra_size g) (vm_lock g).

(** The page [C] is new, or page 0 when no page below 1 MB was left. *)
Record args_made s s' (zf C entry : Z) : Prop := ArgsMade {
  ar_moved : moved (fun pa => within C 4096 pa ∨ args_fields zf pa) s s'; ar_frames : frames_to nowhere s s';
  ar_new : C = 0 ∨ (C < 2 ^ 20 ∧ new_memory s s' C 4096); ar_page : args_page (vm_mem s') C;
  ar_header : args_header (vm_mem s) (vm_mem s') zf (C + CMD_OFFSET) (u32 entry)
}.

Lemma boot_args_ok s g iz zf : good s → shows s iz zf → clear tb zf 4096 → taken s zf 4096 → 4096 <= zf → zf mod 4096 = 0 → room f1 s 1 →
  free_page s 0 = false → clear tb 0 4096 →
  wp (boot_args s g (slot_va iz)) (fun '(g', s') => ∃ C, g' = with_gdtr g C ∧ args_made s s' zf C (entry_point g)).
Proof.
  intros Hg Hs Hc Ht Hz Hza Hr H0 Hc0. unfold boot_args. wp_step.
  apply (wp_mono _ _ _ (alloc_low_ok s Hg H0)). intros [C s1] (Em1 & M1 & F1 & Hnew).
  assert (HC : 0 <= C < 2 ^ 20 ∧ C mod 4096 = 0 ∧ clear tb C 4096 ∧ (C + 4096 <= zf ∨ zf + 4096 <= C)).
  { destruct Hnew as [->|[Hlow Hn]]; [split; [lia|]; split; [done|]; split; [done|lia]|].
    pose proof (nm_pos _ _ _ _ Hn). pose proof (new_apart s s1 C 4096 zf 4096 Hn Ht ltac:(lia) ltac:(lia)).
    split; [lia|]. split; [lia|]. split; [apply Hn|lia]. }
  destruct HC as (HCb & HCa & HCc & HCz). assert (Hdc : data f3 f2 f1 cr3 C) by (apply (clear_data C 4096); done || lia).
  wp_step. apply (wp_mono _ _ _ (vm_map_page_opens f3 f2 f1 cr3 s1 C 0 (mv_good _ _ _ M1) Hdc (moved_room _ _ _ _ M1 Hr))).
  intros [va s2] (i & -> & _ & Ho & _). pose proof (op_good _ _ _ _ _ _ _ _ Ho) as Hg2.
  apply (write_args s2 C (slot_va i) i); [done|apply Ho|done|done|done|]. intros s3 W3 P3.
  destruct (close_moved _ s1 s2 s3 i C (mv_good _ _ _ M1) Ho (wrote_moved _ _ _ Hg2 W3)) as (r & s4 & E4 & M4 & Ef4 & Hb4).
  wp_step. rewrite E4. cbn [wp wpx].
  assert (F4 : vm_frames s4 = vm_frames s1) by (rewrite Ef4, (wrote_frames _ _ _ W3); apply Ho).
  change (PG_SIZE >>w 1) with CMD_OFFSET. assert (Ecmd : u32 (C + CMD_OFFSET) = C + CMD_OFFSET) by (unfold u32, CMD_OFFSET; apply Z.mod_small; lia).
  rewrite Ecmd.
  apply (set_args s4 iz zf (C + CMD_OFFSET) (u32 (entry_point g))); [apply M4|by apply (moved_shows _ _ _ _ _ M4), (moved_shows _ _ _ _ _ M1)|done|
    unfold is_u32, CMD_OFFSET; lia|unfold is_u32, u32; apply Z.mod_pos_bound; lia|].
  intros s5 W5 Hh. cbn [wp wpx]. exists C. split; [done|].
  assert (E4z : ∀ pa, within zf 4096 pa → byte_at (vm_mem s4) pa = byte_at (vm_mem s) pa).
  { intros pa Hpa. assert (Hcp : clear tb pa 1) by by apply (clear_byte zf 4096). unfold within in Hpa.
    rewrite (mv_bytes _ _ _ M4) by (done || unfold within; lia). by rewrite Em1. }
  split.
  - apply (moved_trans _ s s1); [apply (moved_weaken nowhere); [done|by intros ? []]|].
    apply (moved_trans _ s1 s4); [apply (moved_weaken _ _ _ _ M4); by left|].
    apply (moved_weaken _ _ _ _ (wrote_moved _ _ _ (mv_good _ _ _ M4) W5)). by right.
  - intros q Hq Hf. apply F1; [done|]. unfold free_page in *. rewrite (wrote_frames _ _ _ W5), F4 in Hf. done.
  - destruct Hnew as [->|[Hlow [N1 N2 N3 N4]]]; [by left|]. right. split; [done|]. split; [done|done| |done].
    apply (taken_nowhere s1); [|done]. apply same_frames_to. by rewrite (wrote_frames _ _ _ W5), F4.
  - apply (args_page_ext (vm_mem s3)); [|done]. intros pa Hpa. rewrite (wr_bytes _ _ _ _ W5).
    + apply Hb4. by apply (clear_byte C 4096).
    + unfold args_fields, within in *. lia.
  - destruct Hh as [H1 H2 H3 H4]. split; try done. rewrite H3. f_equal. apply E4z. unfold within, ZP_LOADFLAGS. lia.
Qed.

(** *** The ramdisk *)

Definition with_ramdisk (g : vm_struct) (Q : Z) : vm_struct :=
  VmStruct (vm_id g) (name g) (img_paddr g) (img_size g) (vm_num_cpus g) (vm_ram_size g) (input g)
    (entry_point g) (gdtr g) (vmcs_paddr g) Q (extra_size g) (vm_lock g).
Definition ramdisk_fields (zf pa : Z) : Prop := within (zf + 0x218) 8 pa.

Record ramdisk_header (m : gmap Z Z) (zf Q n : Z) : Prop := RamdiskHeader {
  rh_image : value_at 4 m (zf + ZP_RAMDISK_IMAGE) = Q mod 2 ^ 32;
  rh_size : value_at 4 m (zf + ZP_RAMDISK_SIZE) = n mod 2 ^ 32
}.

Lemma set_ramdisk {B} s iz zf Q n (k : vm phys → outcome B) Post Pm : good s → shows s iz zf → clear tb zf 4096 →
  (∀ s', wrote tb (ramdisk_fields zf) s s' → ramdisk_header (vm_mem s') zf Q n → wpx (k s') Post Pm False) →
  wpx (s ← stn 4 s (slot_va iz +w ZP_RAMDISK_IMAGE) (u32 Q); s ← stn 4 s (slot_va iz +w ZP_RAMDISK_SIZE) (u32 n); k s) Post Pm False.
Proof.
  change ZP_RAMDISK_IMAGE with 0x218. change ZP_RAMDISK_SIZE with 0x21C. intros Hg Hs Hc Hk.
  assert (Hu : ∀ x, 0 <= u32 x < 2 ^ 32) by (intros; unfold u32; apply Z.mod_pos_bound; lia). pose proof (Hu Q). pose proof (Hu n).
  destruct (zp_store 4 s iz zf 0x218 (u32 Q) Hg Hs Hc ltac:(lia) ltac:(lia) ltac:(lia)) as (s1 & E1 & W1 & V1). wp_step. rewrite E1. cbn [wpx].
  pose proof (good_wrote _ _ _ Hg W1) as Hg1. pose proof (moved_shows _ _ _ _ _ (wrote_moved _ _ _ Hg W1) Hs) as Hs1.
  destruct (zp_store 4 s1 iz zf 0x21C (u32 n) Hg1 Hs1 Hc ltac:(lia) ltac:(lia) ltac:(lia)) as (s2 & E2 & W2 & V2). wp_step. rewrite E2. cbn [wpx].
  change (2 ^ (8 * Z.of_nat 4)) with (2 ^ 32) in V1, V2. rewrite Z.mod_small in V1, V2 by lia. change (Z.of_nat 4) with 4 in W1, W2.
  apply Hk.
  - apply (wrote_trans _ _ s s1); [apply (wrote_weaken _ _ _ _ _ W1)|apply (wrote_weaken _ _ _ _ _ W2)]; unfold ramdisk_fields, within; intros; lia.
  - split; unfold ZP_RAMDISK_IMAGE, ZP_RAMDISK_SIZE; [|exact V2]. transitivity (u32 Q); [|done]. rewrite <- V1. apply value_at_ext. intros a Ha.
    by rewrite (wr_bytes _ _ _ _ W2) by (unfold within; lia).
Qed.

Lemma move_ramdisk_ok s g iz zf : good s → shows s iz zf → clear tb zf 4096 →
  held s (extra_paddr g) (extra_size g) → movable (extra_paddr g) (extra_size g) →
  (extra_paddr g + 4095) / 4096 <= (extra_paddr g + extra_size g) / 4096 →
  wpx (move_ramdisk s g (slot_va iz)) (fun '(g', s') => ∃ Q s1, g' = with_ramdisk g Q ∧
    relocated s s1 (extra_paddr g) (extra_size g) Q (extra_paddr g) (extra_size g) ∧
    wrote tb (ramdisk_fields zf) s1 s' ∧ ramdisk_header (vm_mem s') zf Q (extra_size g)) move_messages False.
Proof.
  intros Hg Hs Hc Hh Hmov Hpage. pose proof Hmov as (HP & Hn & Hfit & Hend). unfold move_ramdisk.
  set (P := extra_paddr g) in *. set (n := extra_size g) in *.
  wp_step. apply (wpx_mono _ _ _ _ _ _ _ (map_source_ok s P n _ Hg Hmov)); [|intros m <-; repeat constructor|done].
  intros [[[va ofs] np] s1] (i1 & Hsm). pose proof (mv_good _ _ _ (sm_moved _ _ _ _ _ _ _ _ Hsm)) as Hg1.
  wp_step. apply (wpx_mono _ _ _ _ _ _ _ (new_place_ok s1 n _ _ Hg1 ltac:(dlia))); [|intros m [->| ->]; repeat constructor|done].
  intros [[[Q va'] np'] s2] (i2 & Hpm).
  pose proof (both_mapped s P n va ofs np s1 i1 Q va' np' s2 i2 P n Hg Hmov Hh ltac:(lia) ltac:(lia) Hpage Hsm Hpm) as Hready.
  rewrite (pm_va _ _ _ _ _ _ _ Hpm), (sm_va _ _ _ _ _ _ _ _ Hsm).
  apply (copy_and_free s2 P n Q _ _ i1 np ofs i2 np' _ _ _ Hready). intros s3 Hp.
  assert (Hre : relocated s s3 P n Q P n).
  { apply (relocated_intro s P n va ofs np s1 i1 Q va' np' s2 i2 P n s3 s3 Hg Hh Hsm Hpm Hn); [|exact Hp| |reflexivity].
    - intros k Hk. unfold within. lia.
    - apply moved_refl, (mp_moved _ _ _ _ _ _ _ _ _ Hp). }
  cbv zeta. cbn [extra_paddr extra_size].
  apply (set_ramdisk s3 iz zf Q n); [apply Hre|apply (moved_shows _ _ _ _ _ (re_moved _ _ _ _ _ _ _ Hre) Hs)|done|].
  intros s4 W4 H4. cbn [wpx]. exists Q, s3. by split_and!.
Qed.

(** ** The whole loader *)

(** The table of the memory map. *)
Definition map_fields (zf pa : Z) : Prop := within (zf + ZP_E820_TABLE) 2560 pa.

Definition setup_sects s (g : vm_struct) : Z := byte_at (vm_mem s) (img_paddr g + ZP_SETUP_SECTS).

(** The image and the ramdisk are in memory of their own, page 0 is not handed
    out, and both fit the window of large pages. *)
Record linux_ready s (g : vm_struct) : Prop := LinuxReady {
  lr_good : good s; lr_room : room f1 s 2; lr_zero : free_page s 0 = false; lr_clear : clear tb 0 4096;
  lr_image : held s (img_paddr g) (img_size g); lr_ramdisk : held s (extra_paddr g) (extra_size g);
  lr_low : 4096 <= img_paddr g ∧ 4096 <= extra_paddr g;
  lr_apart : img_paddr g + img_size g <= extra_paddr g ∨ extra_paddr g + extra_size g <= img_paddr g;
  lr_header : HDR + HDR_SIZE <= img_size g;
  lr_kernel : movable (kernel_start g (setup_sects s g)) (kernel_bytes g (setup_sects s g));
  lr_extra : movable (extra_paddr g) (extra_size g);
  lr_page : (extra_paddr g + 4095) / 4096 <= (extra_paddr g + extra_size g) / 4096
}.

(** What is in memory: the zero page [zf], the kernel at [K], the page of the
    arguments [C] and the ramdisk at [R]; the table of the memory map is left open. *)
Record image_loaded s (g : vm_struct) (zf K C R : Z) (m' : gmap Z Z) : Prop := ImageLoaded {
  il_magic : img_paddr g mod 4096 = 0 ∧ value_at 4 (vm_mem s) (img_paddr g + ZP_HEADER) = LINUX_HEADER_MAGIC;
  il_kernel k : 0 <= k < kernel_bytes g (setup_sects s g) →
    byte_at m' (K + k) = byte_at (vm_mem s) (kernel_start g (setup_sects s g) + k);
  il_ramdisk k : 0 <= k < extra_size g → byte_at m' (R + k) = byte_at (vm_mem s) (extra_paddr g + k);
  il_header o : HDR <= o < HDR + HDR_SIZE → ¬ args_fields 0 o → ¬ ramdisk_fields 0 o →
    byte_at m' (zf + o) = byte_at (vm_mem s) (img_paddr g + o);
  il_zero o : 0 <= o < 4096 → ¬ HDR <= o < HDR + HDR_SIZE → ¬ map_fields 0 o → byte_at m' (zf + o) = 0;
  il_args : value_at 4 m' (zf + ZP_CMD_LINE_PTR) = C + CMD_OFFSET ∧
    byte_at m' (zf + ZP_TYPE_OF_LOADER) = 0xFF ∧
    byte_at m' (zf + ZP_LOADFLAGS) = byte_at (vm_mem s) (img_paddr g + ZP_LOADFLAGS) .& 0x1F ∧
    value_at 4 m' (zf + ZP_CODE32_START) = u32 (entry_point g);
  il_disk : ramdisk_header m' zf R (extra_size g);
  il_page : args_page m' C
}.

(** The memory of the guest. *)
Definition guest_places s (g : vm_struct) (zf K C R pa : Z) : Prop :=
  within zf 4096 pa ∨ within K (kernel_bytes g (setup_sects s g)) pa ∨ within C 4096 pa ∨ within R (extra_size g) pa.

(** Where things are, and what has become of the pages. *)
Record linux_loaded s (g : vm_struct) (zf iz K C R : Z) s' : Prop := LinuxLoaded {
  ll_good : good s'; ll_shows : shows s' iz zf; ll_low : 4096 <= zf < 2 ^ 20 ∧ 0 <= C < 2 ^ 20;
  ll_places : zf mod 4096 = 0 ∧ K mod 2 ^ 21 = 0 ∧ R mod 2 ^ 21 = 0;
  ll_bounds : 0 <= K ∧ K + kernel_bytes g (setup_sects s g) <= 2 ^ 36 ∧ 0 <= R ∧ R + extra_size g <= 2 ^ 36;
  ll_image : image_loaded s g zf K C R (vm_mem s');
  ll_taken : taken s' zf 4096 ∧ taken s' K (kernel_bytes g (setup_sects s g)) ∧ taken s' R (extra_size g) ∧ taken s' C 4096;
  ll_frames : frames_to (fun q => pages_in (img_paddr g) (img_size g) q ∨ pages_in (extra_paddr g) (extra_size g) q) s s';
  ll_clear : clear tb zf 4096 ∧ clear tb K (kernel_bytes g (setup_sects s g)) ∧ clear tb R (extra_size g) ∧ clear tb C 4096;
  ll_apart : (K + kernel_bytes g (setup_sects s g) <= zf ∨ zf + 4096 <= K) ∧
    (R + extra_size g <= zf ∨ zf + 4096 <= R) ∧ (C + 4096 <= zf ∨ zf + 4096 <= C);
  ll_inside : inside (guest_places s g zf K C R) iz s s';
  ll_others A k : taken s A k → 0 < k → 4096 <= A → A + k <= img_paddr g ∨ img_paddr g + img_size g <= A →
    A + k <= extra_paddr g ∨ extra_paddr g + extra_size g <= A →
    taken s' A k ∧ ∀ pa, within A k pa → ¬ guest_places s g zf K C R pa
}.

Lemma new_not_zero s s' P n : new_memory s s' P n → 0 < n → free_page s 0 = false → 4096 <= P.
Proof.
  intros [(Hp & Ha & _) _ _ Hf] Hn H0. destruct (Z.le_gt_cases 4096 P) as [|Hlt]; [done|]. exfalso.
  specialize (Hf P ltac:(unfold within; lia)). replace (P / 4096) with 0 in Hf by dlia. congruence.
Qed.

Lemma zero_kept (Fr : Z → Prop) s s' : frames_to Fr s s' → ¬ Fr 0 → free_page s 0 = false → free_page s' 0 = false.
Proof. intros Hf Hn H0. destruct (free_page s' 0) eqn:E; [|done]. destruct (Hf 0 ltac:(lia) E); [congruence|done]. Qed.

Lemma frames_trans (F1 F2 : Z → Prop) s1 s2 s3 : frames_to F1 s1 s2 → frames_to F2 s2 s3 → frames_to (fun q => F1 q ∨ F2 q) s1 s3.
Proof. intros H1 H2 q Hq Hf. destruct (H2 q Hq Hf) as [Hf2|]; [|by auto]. destruct (H1 q Hq Hf2); auto. Qed.

Lemma frames_weaken (Fr Fr' : Z → Prop) s s' : frames_to Fr s s' → (∀ q, Fr q → Fr' q) → frames_to Fr' s s'.
Proof. intros H HF q Hq Hf. destruct (H q Hq Hf); auto. Qed.

Lemma taken_sub s P n n' : taken s P n → n' <= n → taken s P n'.
Proof. intros H Hn pa Hpa. apply H. unfold within in *. lia. Qed.

(** The pages given back by a move are apart from what was held beside them. *)
Lemma relocated_taken s s' P n Q b m A0 k : relocated s s' P n Q b m → taken s A0 k → A0 + k <= b ∨ b + m <= A0 → taken s' A0 k.
Proof.
  intros Hr Ht Hd. apply (taken_frames (pages_in b m) s); [apply Hr|done|]. unfold within, pages_in. intros pa Hpa [H1 H2]. dlia.
Qed.

(** Bytes beside the new place are not changed by a move. *)
Lemma relocated_bytes s s' P n Q b m A0 k pa : relocated s s' P n Q b m → taken s A0 k → clear tb A0 k → within A0 k pa →
  byte_at (vm_mem s') pa = byte_at (vm_mem s) pa.
Proof.
  intros Hr Ht Hc Hpa. apply (mv_bytes _ _ _ (re_moved _ _ _ _ _ _ _ Hr)); [|by apply (clear_byte A0 k)].
  pose proof (re_size _ _ _ _ _ _ _ Hr) as Hn. assert (Hl : n <= 2 ^ 21 * larges n) by (unfold larges; dlia).
  pose proof (new_apart _ _ _ _ _ _ (re_new _ _ _ _ _ _ _ Hr) Ht ltac:(lia)) as Hap. unfold within in *. lia.
Qed.

Lemma args_bytes s s' zf C entry A0 k pa : args_made s s' zf C entry → taken s A0 k → clear tb A0 k → 4096 <= A0 →
  A0 + k <= zf ∨ zf + 4096 <= A0 → within A0 k pa → byte_at (vm_mem s') pa = byte_at (vm_mem s) pa.
Proof.
  intros Hm Ht Hc H0 Hz Hpa. apply (mv_bytes _ _ _ (ar_moved _ _ _ _ _ Hm)); [|by apply (clear_byte A0 k)].
  unfold args_fields, within in *. destruct (ar_new _ _ _ _ _ Hm) as [->|[_ Hn]]; [lia|].
  pose proof (new_apart _ _ _ _ _ _ Hn Ht ltac:(lia)). lia.
Qed.

(** Once the header is there and the kernel has been moved. *)
Record kernel_loaded s g (zf iz K n : Z) s' : Prop := KernelLoaded {
  kl_good : good s'; kl_shows : shows s' iz zf; kl_room : room f1 s' 1; kl_zero : free_page s' 0 = false;
  kl_zf : 4096 <= zf < 2 ^ 20 ∧ zf mod 4096 = 0; kl_zclear : clear tb zf 4096; kl_ztaken : taken s' zf 4096;
  kl_K : K mod 2 ^ 21 = 0 ∧ 4096 <= K ∧ 0 < n ∧ K + n <= 2 ^ 36; kl_Kclear : clear tb K n; kl_Ktaken : taken s' K n;
  kl_apart : (K + n <= zf ∨ zf + 4096 <= K) ∧ (zf + 4096 <= extra_paddr g ∨ extra_paddr g + extra_size g <= zf) ∧
    (K + n <= extra_paddr g ∨ extra_paddr g + extra_size g <= K);
  kl_magic : img_paddr g mod 4096 = 0 ∧ value_at 4 (vm_mem s) (img_paddr g + ZP_HEADER) = LINUX_HEADER_MAGIC;
  kl_kernel k : 0 <= k < n → byte_at (vm_mem s') (K + k) = byte_at (vm_mem s) (kernel_start g (setup_sects s g) + k);
  kl_header o : HDR <= o < HDR + HDR_SIZE → byte_at (vm_mem s') (zf + o) = byte_at (vm_mem s) (img_paddr g + o);
  kl_hzero o : 0 <= o < 4096 → ¬ HDR <= o < HDR + HDR_SIZE → byte_at (vm_mem s') (zf + o) = 0;
  kl_disk : held s' (extra_paddr g) (extra_size g);
  kl_bytes pa : within (extra_paddr g) (extra_size g) pa → byte_at (vm_mem s') pa = byte_at (vm_mem s) pa;
  kl_frames : frames_to (pages_in (img_paddr g) (img_size g)) s s';
  kl_inside : inside (fun pa => within zf 4096 pa ∨ within K n pa) iz s s';
  kl_others A k : taken s A k → 0 < k → A + k <= img_paddr g ∨ img_paddr g + img_size g <= A →
    taken s' A k ∧ (A + k <= zf ∨ zf + 4096 <= A) ∧ (A + k <= K ∨ K + n <= A)
}.

Lemma kernel_loaded_intro s g zf iz K s1 s2 : linux_ready s g → header_loaded s (img_paddr g) zf iz s1 →
  let n := kernel_bytes g (setup_sects s g) in
  relocated s1 s2 (kernel_start g (setup_sects s g)) n K (img_paddr g) (img_size g) → kernel_loaded s g zf iz K n s2.
Proof.
  intros [Hg Hr H0 Hc0 Hi Hd [Hl1 Hl2] Hap Hhd Hk He Hp] [G1 R1 S1 N1 L1 F1 B1 A1 M1 C1 Z1 E1] n Hre.
  pose proof (nm_pos _ _ _ _ N1) as Hzp. assert (Hz4 : 4096 <= zf) by (apply (new_not_zero s s1 zf 4096 N1); done || lia).
  pose proof (he_pos _ _ _ Hi) as Hip. pose proof (he_pos _ _ _ Hd) as Hdp. change (HDR + HDR_SIZE) with 616 in Hhd.
  pose proof (new_apart s s1 zf 4096 _ _ N1 (he_taken _ _ _ Hi) ltac:(lia) ltac:(lia)) as Az1.
  pose proof (new_apart s s1 zf 4096 _ _ N1 (he_taken _ _ _ Hd) ltac:(lia) ltac:(lia)) as Az2.
  assert (H01 : free_page s1 0 = false) by (apply (zero_kept nowhere s); [done|by intros []|done]).
  assert (Hd1 : held s1 (extra_paddr g) (extra_size g)) by by apply (held_nowhere s).
  pose proof (re_size _ _ _ _ _ _ _ Hre) as Hn. assert (Hln : n <= 2 ^ 21 * larges n) by (unfold larges; dlia).
  pose proof (re_new _ _ _ _ _ _ _ Hre) as NK.
  pose proof (new_apart _ _ _ _ _ _ NK (nm_taken _ _ _ _ N1) ltac:(lia) ltac:(lia)) as Ak1.
  pose proof (new_apart _ _ _ _ _ _ NK (he_taken _ _ _ Hd1) ltac:(lia) ltac:(lia)) as Ak2.
  destruct Hk as (Hk1 & Hk2 & _ & Hk4). destruct He as (He1 & He2 & _ & _).
  assert (Ei : ∀ pa, within (img_paddr g) (img_size g) pa → byte_at (vm_mem s1) pa = byte_at (vm_mem s) pa).
  { intros pa Hpa. apply B1; [unfold within in *; lia|]. by apply (clear_byte _ _ pa (he_clear _ _ _ Hi)). }
  assert (Ez : ∀ o, 0 <= o < 4096 → byte_at (vm_mem s2) (zf + o) = byte_at (vm_mem s1) (zf + o)).
  { intros o Ho. apply (relocated_bytes _ _ _ _ _ _ _ zf 4096 _ Hre); [apply N1|apply N1|unfold within; lia]. }
  split.
  - apply (re_moved _ _ _ _ _ _ _ Hre).
  - by apply (moved_shows _ _ _ _ _ (re_moved _ _ _ _ _ _ _ Hre)).
  - by apply (moved_room _ _ _ _ (re_moved _ _ _ _ _ _ _ Hre)).
  - apply (zero_kept _ _ _ (re_frames _ _ _ _ _ _ _ Hre)); [|done]. unfold pages_in. lia.
  - lia.
  - apply N1.
  - apply (relocated_taken _ _ _ _ _ _ _ zf 4096 Hre); [apply N1|lia].
  - pose proof (nm_pos _ _ _ _ NK). split; [apply Hre|]. split; [|split; [done|lia]]. apply (new_not_zero _ _ _ _ NK); [lia|done].
  - intros F HF. destruct (nm_clear _ _ _ _ NK F HF). split; [done|lia].
  - by apply (taken_sub _ _ _ _ (nm_taken _ _ _ _ NK)).
  - lia.
  - by split.
  - intros k Hk. rewrite (re_copy _ _ _ _ _ _ _ Hre) by done. apply Ei. unfold within, kernel_start, n, kernel_bytes in *.
    assert (0 <= setup_size (setup_sects s g)); [|lia].
    unfold setup_size, setup_sects. pose proof (byte_range (vm_mem s) (img_paddr g + ZP_SETUP_SECTS)). change LINUX_SECTOR_SZ with 512. lia.
  - intros o Ho. pose proof Ho as Ho'. change HDR with 497 in Ho'. change HDR_SIZE with 119 in Ho'. rewrite Ez by lia. by apply C1.
  - intros o Ho Hne. rewrite Ez by lia. by apply Z1.
  - split; [lia|apply Hd|]. apply (relocated_taken _ _ _ _ _ _ _ _ _ Hre (he_taken _ _ _ Hd1)). lia.
  - intros pa Hpa. rewrite (relocated_bytes _ _ _ _ _ _ _ _ _ pa Hre (he_taken _ _ _ Hd1) (he_clear _ _ _ Hd1) Hpa).
    apply B1; [unfold within in *; lia|]. by apply (clear_byte _ _ pa (he_clear _ _ _ Hd)).
  - intros q Hq Hf. destruct (re_frames _ _ _ _ _ _ _ Hre q Hq Hf) as [Hf1|]; [|by right]. left. by destruct (F1 q Hq Hf1) as [|[]].
  - apply (inside_after _ _ _ s1); [apply (inside_weaken _ _ _ _ _ E1); auto|].
    apply (moved_weaken _ _ _ _ (re_moved _ _ _ _ _ _ _ Hre)). auto.
  - intros A k Ht Hk0 Hd'. assert (Ht1 : taken s1 A k) by by apply (taken_nowhere s).
    split; [by apply (relocated_taken _ _ _ _ _ _ _ _ _ Hre)|].
    pose proof (new_apart _ _ _ _ _ _ N1 Ht ltac:(lia) ltac:(lia)). pose proof (new_apart _ _ _ _ _ _ NK Ht1 ltac:(lia) ltac:(lia)). lia.
Qed.

(** The page of the arguments is not touched afterwards. *)
Lemma args_page_kept s2 s3 s4 s5 zf C entry P n R : args_made s2 s3 zf C entry → free_page s2 0 = false → clear tb 0 4096 →
  4096 <= zf < 2 ^ 20 ∧ zf mod 4096 = 0 → taken s2 zf 4096 → relocated s3 s4 P n R P n → wrote tb (ramdisk_fields zf) s4 s5 →
  ∀ pa, within C 4096 pa → byte_at (vm_mem s5) pa = byte_at (vm_mem s3) pa.
Proof.
  intros HA Z2 Zc Zf Zt Hre W pa Hpa. pose proof (re_size _ _ _ _ _ _ _ Hre) as Hn. assert (Hl : n <= 2 ^ 21 * larges n) by (unfold larges; dlia).
  assert (Z3 : free_page s3 0 = false) by (apply (zero_kept nowhere s2); [apply HA|by intros []|done]).
  pose proof (new_not_zero _ _ _ _ (re_new _ _ _ _ _ _ _ Hre) ltac:(lia) Z3) as HR.
  destruct (ar_new _ _ _ _ _ HA) as [->|[Hlt HC]].
  - rewrite (wr_bytes _ _ _ _ W) by (unfold ramdisk_fields, within in *; lia).
    apply (mv_bytes _ _ _ (re_moved _ _ _ _ _ _ _ Hre)); [unfold within in *; lia|by apply (clear_byte 0 4096)].
  - pose proof (new_apart _ _ _ _ _ _ HC Zt ltac:(lia) ltac:(lia)) as Hap.
    rewrite (wr_bytes _ _ _ _ W) by (unfold ramdisk_fields, within in *; lia).
    apply (relocated_bytes _ _ _ _ _ _ _ C 4096 pa Hre); [apply HC|apply HC|done].
Qed.

Section steps.
Variables (s : vm phys) (g : vm_struct) (zf iz K C R : Z) (s2 s3 s4 s5 : vm phys).
Abbreviation n := (kernel_bytes g (setup_sects s g)).
Hypothesis Hready : linux_ready s g.
Hypothesis HK : kernel_loaded s g zf iz K n s2.
Hypothesis HA : args_made s2 s3 zf C (entry_point g).
Hypothesis Hre : relocated s3 s4 (extra_paddr g) (extra_size g) R (extra_paddr g) (extra_size g).
Hypothesis W : wrote tb (ramdisk_fields zf) s4 s5.
Hypothesis Hrd : ramdisk_header (vm_mem s5) zf R (extra_size g).

Lemma zero_taken3 : taken s3 zf 4096.
Proof. apply (taken_nowhere s2); [apply (ar_frames _ _ _ _ _ HA)|apply HK]. Qed.
Lemma kernel_taken3 : taken s3 K n.
Proof. apply (taken_nowhere s2); [apply (ar_frames _ _ _ _ _ HA)|apply HK]. Qed.
Lemma args_fields_off o : args_fields zf (zf + o) ↔ args_fields 0 o.
Proof. unfold args_fields, within. lia. Qed.
Lemma ramdisk_fields_off o : ramdisk_fields zf (zf + o) ↔ ramdisk_fields 0 o.
Proof. unfold ramdisk_fields, within. lia. Qed.
Lemma ramdisk_apart : R + extra_size g <= zf ∨ zf + 4096 <= R.
Proof.
  pose proof (re_size _ _ _ _ _ _ _ Hre). assert (Hrl : extra_size g <= 2 ^ 21 * larges (extra_size g)) by (unfold larges; dlia).
  pose proof (new_apart _ _ _ _ _ _ (re_new _ _ _ _ _ _ _ Hre) zero_taken3 ltac:(lia) ltac:(lia)). lia.
Qed.
Lemma args_apart : C + 4096 <= zf ∨ zf + 4096 <= C.
Proof.
  destruct HK as [_ _ _ _ Zf _ Zt _ _ _ _ _ _ _ _ _ _ _ _ _]. destruct (ar_new _ _ _ _ _ HA) as [->|[_ Hn]]; [lia|].
  pose proof (new_apart _ _ _ _ _ _ Hn Zt ltac:(lia) ltac:(lia)). lia.
Qed.

Lemma args_taken : taken s4 C 4096.
Proof.
  pose proof HK as [_ _ _ Z2 _ _ _ _ _ _ _ _ _ _ _ Dk _ _ _ _]. pose proof (lr_low _ _ Hready) as [_ Hd4].
  pose proof (re_size _ _ _ _ _ _ _ Hre). destruct (ar_new _ _ _ _ _ HA) as [->|[_ Hn]].
  - intros pa Hpa. unfold within in Hpa. split; [lia|]. replace (pa / 4096) with 0 by dlia.
    apply (zero_kept _ _ _ (re_frames _ _ _ _ _ _ _ Hre)); [unfold pages_in; lia|].
    by apply (zero_kept nowhere s2); [apply (ar_frames _ _ _ _ _ HA)|intros []|].
  - apply (relocated_taken _ _ _ _ _ _ _ _ _ Hre (nm_taken _ _ _ _ Hn)).
    pose proof (new_apart _ _ _ _ _ _ Hn (he_taken _ _ _ Dk) ltac:(lia) ltac:(lia)). lia.
Qed.

(** The bytes of the zero page. *)
Lemma zero_after o : 0 <= o < 4096 → ¬ ramdisk_fields 0 o → byte_at (vm_mem s5) (zf + o) = byte_at (vm_mem s3) (zf + o).
Proof.
  intros Ho Hf. rewrite (wr_bytes _ _ _ _ W) by (by rewrite ramdisk_fields_off).
  apply (relocated_bytes _ _ _ _ _ _ _ zf 4096 _ Hre zero_taken3 (kl_zclear _ _ _ _ _ _ _ HK)). unfold within. lia.
Qed.
Lemma zero_before o : 0 <= o < 4096 → ¬ args_fields 0 o → byte_at (vm_mem s3) (zf + o) = byte_at (vm_mem s2) (zf + o).
Proof.
  intros Ho Hf. apply (mv_bytes _ _ _ (ar_moved _ _ _ _ _ HA)).
  - intros [HC|HF]; [pose proof args_apart; unfold within in HC; lia|by apply args_fields_off in HF].
  - apply (clear_byte zf 4096); [apply HK|unfold within; lia].
Qed.
Lemma zero_value o : 0 <= o <= 4092 → (∀ k, o <= k < o + 4 → ¬ ramdisk_fields 0 k) →
  value_at 4 (vm_mem s5) (zf + o) = value_at 4 (vm_mem s3) (zf + o).
Proof.
  intros Ho Hf. apply value_at_ext. intros k Hk. replace k with (zf + (k - zf)) by lia. apply zero_after; [lia|apply Hf; lia].
Qed.

Lemma args_loaded : value_at 4 (vm_mem s5) (zf + ZP_CMD_LINE_PTR) = C + CMD_OFFSET ∧ byte_at (vm_mem s5) (zf + ZP_TYPE_OF_LOADER) = 0xFF ∧
  byte_at (vm_mem s5) (zf + ZP_LOADFLAGS) = byte_at (vm_mem s) (img_paddr g + ZP_LOADFLAGS) .& 0x1F ∧
  value_at 4 (vm_mem s5) (zf + ZP_CODE32_START) = u32 (entry_point g).
Proof.
  pose proof (ar_header _ _ _ _ _ HA) as [A1 A2 A3 A4].
  unfold ZP_CMD_LINE_PTR, ZP_TYPE_OF_LOADER, ZP_LOADFLAGS, ZP_CODE32_START in *.
  rewrite !zero_value by (unfold ramdisk_fields, within; intros; lia). rewrite !zero_after by (unfold ramdisk_fields, within; lia).
  split_and!; [done|done| |done]. rewrite A3, (kl_header _ _ _ _ _ _ _ HK); [done|]. change HDR with 497. change HDR_SIZE with 119. lia.
Qed.

Lemma image_loaded_intro : image_loaded s g zf K C R (vm_mem s5).
Proof.
  pose proof HK as [G2 S2 R2 Z2 Zf Zc Zt Kb Kc Kt Ap Mg Kn Hh Hz Dk Db Fr2 Ed2 Ot2]. pose proof (lr_low _ _ Hready) as [_ Hd4].
  pose proof ramdisk_apart as Apr.
  assert (Fields : ∀ pa, ¬ within zf 4096 pa → ¬ ramdisk_fields zf pa) by (unfold ramdisk_fields, within; intros; lia).
  split; [exact Mg| | | | |exact args_loaded|exact Hrd|].
  - intros k Hk. rewrite (wr_bytes _ _ _ _ W) by (apply Fields; unfold within; lia).
    rewrite (relocated_bytes _ _ _ _ _ _ _ K n _ Hre kernel_taken3 Kc) by (unfold within; lia).
    rewrite (args_bytes _ _ _ _ _ K n _ HA Kt Kc) by (unfold within; lia). by apply Kn.
  - intros k Hk. rewrite (wr_bytes _ _ _ _ W) by (apply Fields; unfold within; lia).
    rewrite (re_copy _ _ _ _ _ _ _ Hre) by done.
    rewrite (args_bytes _ _ _ _ _ _ _ _ HA (he_taken _ _ _ Dk) (he_clear _ _ _ Dk)) by (unfold within; lia). apply Db. unfold within. lia.
  - intros o Ho Ha Hr. pose proof Ho as Ho'. change HDR with 497 in Ho'. change HDR_SIZE with 119 in Ho'.
    rewrite zero_after, zero_before by (done || lia). by apply Hh.
  - intros o Ho Hne _. change (HDR + HDR_SIZE) with 616 in Hne. change HDR with 497 in Hne.
    rewrite zero_after, zero_before by (unfold args_fields, ramdisk_fields, within; lia). by apply Hz.
  - apply (args_page_ext (vm_mem s3)); [|apply HA]. intros pa Hpa.
    by apply (args_page_kept s2 s3 s4 s5 zf C _ _ _ _ HA Z2 (lr_clear _ _ Hready) Zf Zt Hre W pa).
Qed.

Lemma others_apart A k : taken s A k → 0 < k → 4096 <= A → A + k <= img_paddr g ∨ img_paddr g + img_size g <= A →
  A + k <= extra_paddr g ∨ extra_paddr g + extra_size g <= A →
  taken s5 A k ∧ ∀ pa, within A k pa → ¬ guest_places s g zf K C R pa.
Proof.
  intros Ht Hk HA4 Hi Hd. destruct (kl_others _ _ _ _ _ _ _ HK A k Ht Hk Hi) as (Ht2 & Hz & HKa).
  assert (Ht3 : taken s3 A k) by (by apply (taken_nowhere s2); [apply (ar_frames _ _ _ _ _ HA)|]).
  assert (Hrl : extra_size g <= 2 ^ 21 * larges (extra_size g)) by (unfold larges; dlia). pose proof (re_size _ _ _ _ _ _ _ Hre).
  pose proof (new_apart _ _ _ _ _ _ (re_new _ _ _ _ _ _ _ Hre) Ht3 ltac:(lia) ltac:(lia)) as Hr.
  split.
  - apply (taken_nowhere s4); [apply same_frames_to, (wrote_frames _ _ _ W)|]. by apply (relocated_taken _ _ _ _ _ _ _ _ _ Hre).
  - assert (HC : A + k <= C ∨ C + 4096 <= A).
    { destruct (ar_new _ _ _ _ _ HA) as [->|[_ Hn]]; [lia|]. pose proof (new_apart _ _ _ _ _ _ Hn Ht2 ltac:(lia) ltac:(lia)). lia. }
    unfold guest_places, within. intros pa Hpa. lia.
Qed.

Lemma linux_loaded_intro : linux_loaded s g zf iz K C R s5.
Proof.
  pose proof HK as [G2 S2 R2 Z2 Zf Zc Zt Kb Kc Kt Ap Mg Kn Hh Hz Dk Db Fr2 Ed2 Ot2].
  assert (Hrl : extra_size g <= 2 ^ 21 * larges (extra_size g)) by (unfold larges; dlia).
  split.
  - by apply (good_wrote _ s4 s5 (mv_good _ _ _ (re_moved _ _ _ _ _ _ _ Hre)) W).
  - apply (moved_shows _ _ _ _ _ (wrote_moved _ _ _ (mv_good _ _ _ (re_moved _ _ _ _ _ _ _ Hre)) W)).
    apply (moved_shows _ _ _ _ _ (re_moved _ _ _ _ _ _ _ Hre)), (moved_shows _ _ _ _ _ (ar_moved _ _ _ _ _ HA) S2).
  - split; [lia|]. destruct (ar_new _ _ _ _ _ HA) as [->|[Hlt Hn]]; [lia|]. pose proof (nm_pos _ _ _ _ Hn). lia.
  - split; [lia|]. split; [lia|apply Hre].
  - pose proof (nm_pos _ _ _ _ (re_new _ _ _ _ _ _ _ Hre)). lia.
  - exact image_loaded_intro.
  - assert (Ht : ∀ P m, taken s4 P m → taken s5 P m) by (intros P m; apply taken_nowhere, same_frames_to, (wrote_frames _ _ _ W)).
    split; [|split; [|split]]; apply Ht.
    + apply (relocated_taken _ _ _ _ _ _ _ _ _ Hre zero_taken3). lia.
    + apply (relocated_taken _ _ _ _ _ _ _ _ _ Hre kernel_taken3). lia.
    + apply (taken_sub _ _ (2 ^ 21 * larges (extra_size g))); [apply Hre|exact Hrl].
    + exact args_taken.
  - apply (frames_trans _ _ s s2 s5 Fr2). intros q Hq Hf. destruct (re_frames _ _ _ _ _ _ _ Hre q Hq) as [Hf3|]; [|left|by right].
    + unfold free_page in *. by rewrite (wrote_frames _ _ _ W) in Hf.
    + by destruct (ar_frames _ _ _ _ _ HA q Hq Hf3) as [|[]].
  - split; [done|]. split; [done|]. split; [|destruct (ar_new _ _ _ _ _ HA) as [->|[_ Hn]]; [apply Hready|apply Hn]].
    intros F HF. destruct (nm_clear _ _ _ _ (re_new _ _ _ _ _ _ _ Hre) F HF). split; [done|lia].
  - split; [lia|]. split; [exact ramdisk_apart|exact args_apart].
  - unfold guest_places. apply (inside_after _ _ _ s4).
    2: { apply (moved_weaken (ramdisk_fields zf)); [apply wrote_moved; [apply (re_moved _ _ _ _ _ _ _ Hre)|exact W]|].
      unfold ramdisk_fields, within. intros; lia. }
    apply (inside_after _ _ _ s3).
    2: { apply (moved_weaken _ _ _ _ (re_moved _ _ _ _ _ _ _ Hre)). auto. }
    apply (inside_after _ _ _ s2); [apply (inside_weaken _ _ _ _ _ Ed2); intros pa [|]; auto|].
    apply (moved_weaken _ _ _ _ (ar_moved _ _ _ _ _ HA)). unfold args_fields, within. intros; lia.
  - exact others_apart.
Qed.
End steps.

Lemma load_linux_ok s g : linux_ready s g →
  wpx (load_linux s g) (fun '(zf, zva, n, g', s') => ∃ iz K C R, zva = slot_va iz ∧ n = kernel_bytes g (setup_sects s g) ∧
    g' = with_ramdisk (with_gdtr (with_image g K n) C) R ∧ linux_loaded s g zf iz K C R s')
    (fun msg => header_messages msg ∨ move_messages msg) False.
Proof.
  intros Hready. pose proof Hready as [Hg Hr H0 Hc0 Hi Hd Hl Hap Hh Hk He Hp]. unfold load_linux. wp_step.
  apply (wpx_mono _ _ _ _ _ _ _ (load_header_ok s (img_paddr g) (img_size g) Hg H0 Hr Hi Hh)); [|by left|done].
  intros [[zf zva] s1] (iz & -> & Hhl). pose proof Hhl as [G1 R1 S1 N1 L1 F1 B1 A1 M1 C1 Z1 E1].
  assert (Hx : byte_at (vm_mem s1) (zf + ZP_SETUP_SECTS) = setup_sects s g).
  { apply C1. change ZP_SETUP_SECTS with HDR. change HDR_SIZE with 119. lia. }
  wp_step. apply (wpx_mono _ _ _ _ _ _ _ (move_kernel_ok s1 g iz zf (setup_sects s g) G1 S1 Hx (held_nowhere _ _ _ _ F1 Hi) A1 Hk)); [|by right|done].
  intros [[g2 n] s2] (K & -> & -> & Hre). pose proof (kernel_loaded_intro s g zf iz K s1 s2 Hready Hhl Hre) as HK.
  pose proof HK as [G2 S2 R2 Z2 Zf Zc Zt Kb Kc Kt Ap Mg Kn Hh2 Hz2 Dk Db Fr2 Ed2 Ot2].
  wp_step. apply wp_wpx.
  apply (wp_mono _ _ _ (boot_args_ok s2 (with_image g K (kernel_bytes g (setup_sects s g))) iz zf G2 S2 Zc Zt ltac:(lia) ltac:(lia) R2 Z2 Hc0)).
  intros [g3 s3] (C & -> & HA). cbn [entry_point with_image] in HA.
  wp_step. apply (wpx_mono _ _ _ _ _ _ _ (move_ramdisk_ok s3 (with_gdtr (with_image g K (kernel_bytes g (setup_sects s g))) C) iz zf (mv_good _ _ _ (ar_moved _ _ _ _ _ HA))
    (moved_shows _ _ _ _ _ (ar_moved _ _ _ _ _ HA) S2) Zc (held_nowhere _ _ _ _ (ar_frames _ _ _ _ _ HA) Dk) He Hp)); [|by right|done].
  intros [g4 s5] (R & s4 & -> & Hre4 & W & Hrd). cbn [wpx]. exists iz, K, C, R. split; [done|]. split; [done|]. split; [done|].
  by apply (linux_loaded_intro s g zf iz K C R s2 s3 s4 s5).
Qed.
End moves.
