(* ===== verification/Iommu.v ===== *)
(** * The remapping hardware

    [iommu_init] of [arch/x86_64/virt/iommu.c]: the registers are mapped and what
    they report is printed. Nothing calls it yet ([acpi_parse_dmar] has the
    call as a comment). *)

From S2P Require Import Prelude Layout Bits Spinlock Screen Render Physical Mmu Paging PagingSpec Kernel Bytes ByteMem Apic LinuxAbi E820 Ept LinuxSpec Report.

Local Open Scope Z_scope.
Local Open Scope c_scope.

Definition IOMMU_VERSION : Z := 0x0.
Definition IOMMU_CAP : Z := 0x8.
Definition IOMMU_EXT_CAP : Z := 0x10.

Section iommu.
Context `{HM : Mmu} {A : Type} `{HA : FrameAllocator A} `{HD : Devices}.
(** A 64-bit register of a device, after a history of events. *)
Context (mmio_in64 : list io_event → Z → Z).
Implicit Types k : kernel A.

Definition mmio_read64 k (addr : Z) : outcome (Z * kernel A) :=
  match translate (vm_mem (k_vm k)) (vm_cr3 (k_vm k)) addr with
  | Some pa => Ok (mmio_in64 (k_io k) pa, add_io k (MmioRead pa))
  | None => Fault
  end.

Definition iommu_read32 k (reg_base reg : Z) : outcome (Z * kernel A) := mmio_read32 k (reg_base +w reg).
Definition iommu_read64 k (reg_base reg : Z) : outcome (Z * kernel A) := mmio_read64 k (reg_base +w reg).

(** [reg_base] is the first component of the result. *)
Definition iommu_init k (s : screen) (base : Z) : outcome (Z * screen * kernel A) :=
  '(reg_base, v) ← vm_map_page (k_vm k) base (PGT_P .| PGT_RW .| PGT_PCD .| PGT_PWT .| PGT_XD);
  let k := set_vm k v in
  if reg_base =? 0 then Panic "vm_map_page failed for IOMMU base"
  else
    '(ver, k) ← iommu_read32 k reg_base IOMMU_VERSION;
    '(cap, k) ← iommu_read64 k reg_base IOMMU_CAP;
    '(ext_cap, k) ← iommu_read64 k reg_base IOMMU_EXT_CAP;
    s ← printf s (line "ver %X, cap %llX, ext cap %llX") [ANum ver; ANum cap; ANum ext_cap];
    Ok (reg_base, s, k).
End iommu.

Section proof.
Context `{HM : Mmu} `{HD : Devices} (mmio_in64 : list io_event → Z → Z) (f3 f2 f1 cr3 : Z).

Definition iommu_text (ver cap ext : Z) : list Z := chars "ver " ++ hex32 ver ++ chars ", cap " ++ hex64 cap ++ chars ", ext cap " ++ hex64 ext ++ [10].
Lemma iommu_format ver cap ext : render None (line "ver %X, cap %llX, ext cap %llX") [ANum ver; ANum cap; ANum ext] = Some (iommu_text ver cap ext, []).
Proof. unfold iommu_text. text_of. Qed.

(** The three registers of the page [base] are read, in order, and printed. *)
Theorem iommu_init_spec (k : kernel phys) s base : good f3 f2 f1 cr3 (k_vm k) → data f3 f2 f1 cr3 base → room f1 (k_vm k) 1 → console_ok s →
  wp (iommu_init mmio_in64 k s base) (fun '(va, s', k') => good f3 f2 f1 cr3 (k_vm k') ∧ 0 < va ∧
    k_io k' = [MmioRead (base + 16); MmioRead (base + 8); MmioRead base] ++ k_io k ∧
    prints s (iommu_text (mmio_in (k_io k) base) (mmio_in64 (MmioRead base :: k_io k) (base + 8))
      (mmio_in64 (MmioRead (base + 8) :: MmioRead base :: k_io k) (base + 16))) s').
Proof.
  intros Hg Hd Hr Hs. unfold iommu_init. wp_step.
  apply (wp_mono _ _ _ (vm_map_flags_opens f3 f2 f1 cr3 (k_vm k) base (PGT_P .| PGT_RW .| PGT_PCD .| PGT_PWT .| PGT_XD) 0 Hg Hd Hr eq_refl eq_refl)).
  intros [va v] (i & -> & Hva & Ho & _). cbv zeta. rewrite (proj2 (Z.eqb_neq _ _)) by lia.
  pose proof (op_good _ _ _ _ _ _ _ _ Ho) as Hg1.
  destruct (seen_small _ _ _ _ v i base Hg1 (op_shows _ _ _ _ _ _ _ _ Ho)) as (_ & _ & Ht).
  assert (Htr : ∀ o, 0 <= o < 4096 → translate (vm_mem v) (vm_cr3 v) (slot_va i +w o) = Some (base + o)).
  { intros o Hoff. pose proof (proj1 (op_shows _ _ _ _ _ _ _ _ Ho)) as Hi. rewrite u64_id.
    - apply Ht; [done|exact Hoff].
    - unfold slot_va in *. change KERNEL_MAPPING_BASE with 0xA00000 in *. unfold is_u64. lia. }
  assert (E0 : iommu_read32 (set_vm k v) (slot_va i) IOMMU_VERSION = Ok (mmio_in (k_io k) (base + 0), add_io (set_vm k v) (MmioRead (base + 0)))).
  { unfold iommu_read32, mmio_read32. cbn [k_vm set_vm]. by rewrite Htr. }
  rewrite E0, bind_ok, Z.add_0_r. set (k1 := add_io _ _).
  assert (E1 : iommu_read64 mmio_in64 k1 (slot_va i) IOMMU_CAP = Ok (mmio_in64 (k_io k1) (base + 8), add_io k1 (MmioRead (base + 8)))).
  { unfold iommu_read64, mmio_read64. cbn [k_vm set_vm k1 add_io]. by rewrite Htr. }
  rewrite E1, bind_ok. set (k2 := add_io k1 _).
  assert (E2 : iommu_read64 mmio_in64 k2 (slot_va i) IOMMU_EXT_CAP = Ok (mmio_in64 (k_io k2) (base + 16), add_io k2 (MmioRead (base + 16)))).
  { unfold iommu_read64, mmio_read64. cbn [k_vm set_vm k1 k2 add_io]. by rewrite Htr. }
  rewrite E2, bind_ok. print_next (iommu_format (mmio_in (k_io k) base) (mmio_in64 (k_io k1) (base + 8)) (mmio_in64 (k_io k2) (base + 16))) P.
  cbn [wp wpx]. split; [exact Hg1|]. split; [exact Hva|]. split; [reflexivity|exact P].
Qed.
End proof.
