(* ===== verification/LinuxGuest.v ===== *)
(** * The guest that is loaded

    The proofs about [virt_setup_linux] of Linux.v as a whole: the image is
    loaded (LinuxSpec.v), the free memory is handed over (E820.v), and the
    table of the memory map is written to the zero page. *)

From S2P Require Import Prelude Layout Bits Spinlock Physical Mmu Paging PagingSpec Kernel Bytes ByteMem.
From S2P Require Import LinuxAbi VirtInit Virt E820 Ept Linux LinuxSpec.

Local Open Scope Z_scope.
Local Open Scope c_scope.

Section guest.
Context `{HM : Mmu} (f3 f2 f1 cr3 : Z).
Implicit Types s : vm phys.

Abbreviation tb := [cr3; f3; f2; f1].
Abbreviation good := (good f3 f2 f1 cr3).
Abbreviation shows := (shows f1).

(** ** The table in the zero page *)

(** The [i]-th entry of the table at [pa]. *)
Definition table_at (m : gmap Z Z) (pa : Z) (l : list e820_entry) : Prop := ∀ i e, l !! i = Some e →
  value_at 8 m (pa + 20 * Z.of_nat i) = u64 (e_addr e) ∧ value_at 8 m (pa + 20 * Z.of_nat i + 8) = u64 (e_size e) ∧
  value_at 4 m (pa + 20 * Z.of_nat i + 16) = u32 (e_type e).
Definition entry_pos (e : e820_entry) : Prop := 0 <= e_addr e ∧ 0 <= e_size e ∧ 0 <= e_type e.

Lemma slot_next s i F k o : shows s i F → 0 <= k < 4096 → 0 <= o < 4096 → slot_va i + k +w o = slot_va i + (k + o).
Proof.
  intros [Hi _] Hk Ho. unfold slot_va. change KERNEL_MAPPING_BASE with 0xA00000. rewrite u64_id by ulia. lia.
Qed.

Lemma read_table_ok n s i F k : good s → shows s i F → 0 <= k → k + 20 * Z.of_nat n < 4096 →
  ∃ t, read_table n s (slot_va i + k) = Ok t ∧ length t = n.
Proof.
  intros Hg Hs. pose proof (seen_small _ _ _ _ s i F Hg Hs) as Sn. revert k. induction n as [|n IH]; intros k Hk Hn; cbn [read_table].
  { by exists []. }
  rewrite !(slot_next s i F k) by (done || change E820_ENTRY_SIZE with 20; lia). change E820_ENTRY_SIZE with 20.
  rewrite (ldn_ok tb 8 s _ F 4096 k Sn) by lia. rewrite bind_ok.
  rewrite (ldn_ok tb 8 s _ F 4096 (k + 8) Sn) by lia. rewrite bind_ok.
  rewrite (ldn_ok tb 4 s _ F 4096 (k + 16) Sn) by lia. rewrite bind_ok.
  destruct (IH (k + 20) ltac:(lia) ltac:(lia)) as (t & E & Hl). rewrite E, bind_ok. eexists. split; [reflexivity|]. cbn. by rewrite Hl.
Qed.

Lemma write_table_ok l s i F k : good s → shows s i F → clear tb F 4096 → 0 <= k → k + 20 * Z.of_nat (length l) < 4096 →
  Forall entry_pos l →
  ∃ s', write_table s (slot_va i + k) l = Ok s' ∧ wrote tb (within (F + k) (20 * Z.of_nat (length l))) s s' ∧ table_at (vm_mem s') (F + k) l.
Proof.
  intros Hg Hs Hc. revert s k Hg Hs. induction l as [|[a z t] l IH]; intros s k Hg Hs Hk Hn Hpos; cbn [write_table length] in *.
  { exists s. split; [done|]. split; [apply wrote_refl|]. intros i' e He. done. }
  apply Forall_cons in Hpos as [(Ha & Hz & Ht) Hpos]. cbn in Ha, Hz, Ht.
  pose proof (seen_small _ _ _ _ s i F Hg Hs) as S0.
  rewrite !(slot_next s i F k) by (done || change E820_ENTRY_SIZE with 20; lia). change E820_ENTRY_SIZE with 20.
  destruct (stn_ok tb 8 s _ F 4096 k a S0 Hc Hk ltac:(lia) Ha) as (s1 & E1 & W1 & V1). rewrite E1, bind_ok.
  destruct (stn_ok tb 8 s1 _ F 4096 (k + 8) z (wrote_seen _ _ _ _ _ _ _ W1 S0) Hc ltac:(lia) ltac:(lia) Hz) as (s2 & E2 & W2 & V2). rewrite E2, bind_ok.
  destruct (stn_ok tb 4 s2 _ F 4096 (k + 16) t (wrote_seen _ _ _ _ _ _ _ W2 (wrote_seen _ _ _ _ _ _ _ W1 S0)) Hc ltac:(lia) ltac:(lia) Ht) as (s3 & E3 & W3 & V3).
  rewrite E3, bind_ok.
  assert (W : wrote tb (within (F + k) 20) s s3).
  { apply (wrote_trans _ _ s s1); [apply (wrote_weaken _ _ _ _ _ W1); unfold within; intros; lia|].
    apply (wrote_trans _ _ s1 s2); [apply (wrote_weaken _ _ _ _ _ W2)|apply (wrote_weaken _ _ _ _ _ W3)]; unfold within; intros; lia. }
  pose proof (good_wrote _ _ _ _ _ _ _ Hg W) as Hg3. pose proof (moved_shows _ _ _ _ _ _ _ _ _ (wrote_moved _ _ _ _ _ _ _ Hg W) Hs) as Hs3.
  destruct (IH s3 (k + 20) Hg3 Hs3 ltac:(lia) ltac:(lia) Hpos) as (s' & E' & W' & T'). exists s'. split; [done|]. split.
  - apply (wrote_trans _ _ s s3); [apply (wrote_weaken _ _ _ _ _ W)|apply (wrote_weaken _ _ _ _ _ W')]; unfold within; intros; lia.
  - intros [|i'] e He; cbn in He.
    + injection He as <-. cbn [e_addr e_size e_type]. change (20 * Z.of_nat 0) with 0. rewrite Z.add_0_r, <- !Z.add_assoc.
      assert (Ev : ∀ o N, 0 <= o → o + Z.of_nat N <= 20 → value_at N (vm_mem s') (F + (k + o)) = value_at N (vm_mem s3) (F + (k + o))).
      { intros o N Ho HN. apply value_at_ext. intros b Hb. apply (wr_bytes _ _ _ _ W'). unfold within. lia. }
      pose proof (Ev 0 8%nat ltac:(lia) ltac:(lia)) as E0. rewrite !Z.add_0_r in E0. rewrite E0, !Ev by lia. split_and!; [| |exact V3].
      * etransitivity; [|exact V1]. apply value_at_ext. intros b Hb. by rewrite (wr_bytes _ _ _ _ W3), (wr_bytes _ _ _ _ W2) by (unfold within; lia).
      * etransitivity; [|exact V2]. apply value_at_ext. intros b Hb. by rewrite (wr_bytes _ _ _ _ W3) by (unfold within; lia).
    + pose proof (T' i' e He) as Ht'. replace (F + k + 20 * Z.of_nat (Datatypes.S i')) with (F + (k + 20) + 20 * Z.of_nat i') by lia. exact Ht'.
Qed.

(** ** The memory that is handed over *)

(** Page 0 and 1 are not handed out, nothing is above the last page, and the
    image and the ramdisk lie below it. *)
Record map_ready s (g : vm_struct) : Prop := MapReady {
  mr_low : none_free (vm_frames s) 0 2; mr_tail : tail_taken (vm_frames s); mr_end : entry_end (vm_frames s) < 262144;
  mr_image : 0x2000 <= img_paddr g ∧ img_paddr g + img_size g <= 4096 * (64 * entry_end (vm_frames s));
  mr_ramdisk : 0x2000 <= extra_paddr g ∧ extra_paddr g + extra_size g <= 4096 * (64 * entry_end (vm_frames s))
}.

Lemma map_ready_loaded s g zf iz K C R s' : map_ready s g → linux_loaded f3 f2 f1 cr3 s g zf iz K C R s' →
  tail_taken (vm_frames s') ∧ entry_end (vm_frames s') < 262144 ∧ none_free (vm_frames s') 0 2.
Proof.
  intros [Hl Ht He Hi Hr] H. pose proof (in_end _ _ _ _ _ _ _ _ (ll_inside _ _ _ _ _ _ _ _ _ _ _ _ H)) as Ee. pose proof (ll_frames _ _ _ _ _ _ _ _ _ _ _ _ H) as Hf.
  split; [|split; [by rewrite Ee|]].
  - intros m Hm. rewrite Ee in Hm. pose proof (Ht m Hm) as Hfree. destruct (page_free (vm_frames s') m) eqn:Ef; [|done]. exfalso.
    destruct (Z.lt_ge_cases m 0) as [Hneg|Hpos].
    { pose proof (go_wf _ _ _ _ _ (ll_good _ _ _ _ _ _ _ _ _ _ _ _ H)) as Hw.
      pose proof (wf_limit _ Hw). pose proof (wf_end _ Hw). dlia. }
    destruct (Hf m Hpos Ef) as [Hf0|HF]; [unfold free_page in Hf0; congruence|]. unfold pages_in in HF. lia.
  - intros m Hm. destruct (page_free (vm_frames s') m) eqn:Ef; [|done]. exfalso.
    destruct (Hf m ltac:(lia) Ef) as [Hf0|HF]; [unfold free_page in Hf0; rewrite Hl in Hf0 by done; done|]. unfold pages_in in HF. lia.
Qed.

(** The image stays when only the table of the map is written. *)
Lemma image_kept s g zf K C R m m' : image_loaded s g zf K C R m →
  (∀ pa, within K (kernel_bytes g (setup_sects s g)) pa ∨ within R (extra_size g) pa ∨ within C 4096 pa ∨
     (within zf 4096 pa ∧ ¬ map_fields zf pa) → byte_at m' pa = byte_at m pa) →
  image_loaded s g zf K C R m'.
Proof.
  intros [Mg Bk Br Bh B0 (A1 & A2 & A3 & A4) [D1 D2] Hp] E.
  assert (Ez : ∀ o, 0 <= o < 4096 → ¬ map_fields 0 o → byte_at m' (zf + o) = byte_at m (zf + o)).
  { intros o Ho Hm. apply E. right. right. right. unfold map_fields, within in *. lia. }
  assert (Hnot : ∀ o, 0 <= o < 720 → ¬ map_fields 0 o).
  { intros o Ho. unfold map_fields, within. change ZP_E820_TABLE with 720. lia. }
  assert (Vz : ∀ o, 0 <= o <= 716 → value_at 4 m' (zf + o) = value_at 4 m (zf + o)).
  { intros o Ho. apply value_at_ext. intros k Hk. replace k with (zf + (k - zf)) by lia. apply Ez; [lia|apply Hnot; lia]. }
  split; [exact Mg| | | | | | |].
  - intros k Hk. rewrite E by (left; unfold within; lia). by apply Bk.
  - intros k Hk. rewrite E by (right; left; unfold within; lia). by apply Br.
  - intros o Ho Ha Hr. pose proof Ho as Ho'. change HDR with 497 in Ho'. change HDR_SIZE with 119 in Ho'.
    rewrite Ez by (lia || apply Hnot; lia). by apply Bh.
  - intros o Ho Hne Hm. rewrite Ez by done. by apply B0.
  - unfold ZP_CMD_LINE_PTR, ZP_TYPE_OF_LOADER, ZP_LOADFLAGS, ZP_CODE32_START in *.
    rewrite !Vz, !Ez by (lia || apply Hnot; lia). done.
  - unfold ZP_RAMDISK_IMAGE, ZP_RAMDISK_SIZE in *. split; unfold ZP_RAMDISK_IMAGE, ZP_RAMDISK_SIZE; rewrite Vz by lia; done.
  - apply (args_page_ext m); [|exact Hp]. intros pa Hpa. apply E. auto.
Qed.

(** An entry of the map: the ramdisk, or pages that nobody else will get. *)
Definition entry_given s (rd_image rd_size : Z) (e : e820_entry) : Prop :=
  e_type e = E820_RAM ∧
  ((e_addr e = rd_image ∧ e_size e = (rd_size + LARGE_PG_SIZE - 1) / LARGE_PG_SIZE * LARGE_PG_SIZE) ∨
   ∃ a n, e_addr e = 4096 * a ∧ e_size e = 4096 * n ∧ 0 <= a ∧ 0 < n ∧ none_free (vm_frames s) a (a + n)).

Lemma entry_map_given p0 ke rd_image rd_size disk rs s l e : none_free p0 0 2 → Forall (piece p0 ke) rs →
  entries_of rd_image rd_size disk rs l → left_over p0 ke (vm_frames s) → e ∈ l → entry_given s rd_image rd_size e.
Proof.
  intros Hlow Hrs Hl Hleft He. assert (e = disk_entry rd_image rd_size ∨ ∃ x, x ∈ rs ∧ e = range_entry x) as [->|(x & Hx & ->)].
  { destruct disk; cbn in Hl.
    - destruct Hl as (r1 & r2 & -> & ->). apply elem_of_app in He as [He|He]; [|apply elem_of_cons in He as [->|He]; [by left|]];
        apply list_elem_of_fmap in He as (x & -> & Hx); right; exists x; rewrite elem_of_app; auto.
    - subst l. apply list_elem_of_fmap in He as (x & -> & Hx). right. by exists x. }
  { split; [done|]. by left. }
  rewrite Forall_forall in Hrs. destruct (Hrs x Hx) as (Ha & Hn & Hin & _). split; [done|]. right. exists x.1, x.2.
  split; [done|]. split; [done|]. split; [done|]. split; [done|]. intros m Hm. destruct (page_free (vm_frames s) m) eqn:E; [|done].
  apply Hleft in E as [E Hno]; [|lia]. destruct (Hin m Hm) as [Hf|]; [|done]. apply (in_front_taken p0 Hlow) in Hf. destruct Hf. congruence.
Qed.

Lemma entry_given_pos s rd_image rd_size e : 0 <= rd_image → 0 <= rd_size → entry_given s rd_image rd_size e → entry_pos e.
Proof.
  intros Hi Hs [Ht Hcases]. unfold entry_pos. rewrite Ht. change LARGE_PG_SIZE with (2 ^ 21) in Hcases. unfold E820_RAM.
  destruct Hcases as [[-> ->]|(a & n & -> & -> & Ha & Hn & _)]; [dlia|lia].
Qed.

Definition with_input (g : vm_struct) (zf : Z) : vm_struct :=
  VmStruct (vm_id g) (name g) (img_paddr g) (img_size g) (vm_num_cpus g) (vm_ram_size g) zf
    (entry_point g) (gdtr g) (vmcs_paddr g) (extra_paddr g) (extra_size g) (vm_lock g).

(** The guest is in memory and described by its zero page. *)
Record guest_loaded s (g : vm_struct) (zf K C R : Z) (t : list e820_entry) (g' : vm_struct) s' : Prop := GuestLoaded {
  gl_guest : g' = with_input (with_ramdisk (with_gdtr (with_image g K (kernel_bytes g (setup_sects s g))) C) R) zf;
  gl_good : good s';
  gl_places : 4096 <= zf < 2 ^ 20 ∧ 0 <= C < 2 ^ 20 ∧ zf mod 4096 = 0 ∧ K mod 2 ^ 21 = 0 ∧ R mod 2 ^ 21 = 0;
  gl_bounds : 0 <= K ∧ K + kernel_bytes g (setup_sects s g) <= 2 ^ 36 ∧ 0 <= R ∧ R + extra_size g <= 2 ^ 36;
  gl_image : image_loaded s g zf K C R (vm_mem s');
  gl_table : (length t <= 128)%nat ∧ table_at (vm_mem s') (zf + ZP_E820_TABLE) t;
  gl_entries e : e ∈ t → entry_given s' (R mod 2 ^ 32) (extra_size g mod 2 ^ 32) e;
  gl_taken : taken s' zf 4096 ∧ taken s' K (kernel_bytes g (setup_sects s g)) ∧ taken s' R (extra_size g) ∧ taken s' C 4096;
  gl_frames : frames_to (fun q => pages_in (img_paddr g) (img_size g) q ∨ pages_in (extra_paddr g) (extra_size g) q) s s';
  gl_moved : moved f3 f2 f1 cr3 (guest_places s g zf K C R) s s';
  gl_clear : clear tb zf 4096 ∧ clear tb K (kernel_bytes g (setup_sects s g)) ∧ clear tb R (extra_size g) ∧ clear tb C 4096;
  gl_others A k : taken s A k → 0 < k → 4096 <= A → A + k <= img_paddr g ∨ img_paddr g + img_size g <= A →
    A + k <= extra_paddr g ∨ extra_paddr g + extra_size g <= A →
    taken s' A k ∧ ∀ pa, within A k pa → ¬ guest_places s g zf K C R pa
}.

(** The map is made of the allocator as it is when the image, the arguments and the ramdisk have
    been placed, for a kernel that ends [kernel_bytes] past its entry point. *)
Definition kernel_limit s (g : vm_struct) : Z := LINUX_ENTRY_POINT + kernel_bytes g (setup_sects s g).
Definition map_frames s (g : vm_struct) (p : phys) : Prop :=
  ∃ zero_frame zero_virt g4 s5, load_linux s g = Ok (zero_frame, zero_virt, kernel_bytes g (setup_sects s g), g4, s5) ∧ p = vm_frames s5.

(** [t] is the memory map of the guest, and [p'] what the hypervisor keeps: all that E820.v gives of the
    allocator [p], with the ramdisk at [R] among it. *)
Definition map_made s (g : vm_struct) (R : Z) (t : list e820_entry) (p' : phys) : Prop :=
  ∃ p rs disk, map_frames s g p ∧ all_pieces p (kernel_limit s g) rs ∧ entries_of (R mod 2 ^ 32) (extra_size g mod 2 ^ 32) disk rs t ∧
    (R + extra_size g < 2 ^ 32 → disk = true) ∧ left_over p (kernel_limit s g) p'.

(** The table is too small for the map. *)
Definition map_overflows s (g : vm_struct) : Prop := ∃ p, map_frames s g p ∧ too_many_pieces p (kernel_limit s g).

(** The ramdisk is in taken memory, below the end of the allocator's table. *)
Lemma ramdisk_taken s g zf iz K C R s5 : map_ready s g → linux_loaded f3 f2 f1 cr3 s g zf iz K C R s5 → 0 < extra_size g →
  R + extra_size g < 2 ^ 32 → disk_taken (vm_frames s5) (u32 (R mod 2 ^ 32 + extra_size g mod 2 ^ 32)).
Proof.
  intros [_ Ht _ Hi Hr] H Hz Hlt. pose proof (ll_bounds _ _ _ _ _ _ _ _ _ _ _ _ H) as (_ & _ & HR & _).
  rewrite !Z.mod_small by lia. unfold u32. rewrite Z.mod_small by lia. destruct (ll_taken _ _ _ _ _ _ _ _ _ _ _ _ H) as (_ & _ & Tr & _).
  set (last := R + extra_size g - 1). assert (Hl : within R (extra_size g) last) by (unfold within, last; lia).
  unfold disk_taken. rewrite (in_end _ _ _ _ _ _ _ _ (ll_inside _ _ _ _ _ _ _ _ _ _ _ _ H)).
  split; [|apply (Tr last Hl)]. destruct (Z.lt_ge_cases (last / 4096) (64 * entry_end (vm_frames s))) as [|Hge]; [unfold last in *; dlia|exfalso].
  destruct (ll_others _ _ _ _ _ _ _ _ _ _ _ _ H (4096 * (last / 4096)) 4096) as [_ Hno]; [|lia|dlia|lia|lia|].
  - intros pa Hpa. unfold within in Hpa. split; [dlia|]. unfold free_page. replace (pa / 4096) with (last / 4096) by dlia. by apply Ht.
  - apply (Hno last); [unfold within; dlia|]. right. right. by right.
Qed.

(** The end: the entries are stored and the zero page is unmapped. *)
Lemma finish_ok s g zf iz K C R s5 fr l g4 (log' : list (string * list Z)) : linux_loaded f3 f2 f1 cr3 s g zf iz K C R s5 → phys_wf fr →
  entry_end fr = entry_end (vm_frames s5) → (∀ m, 0 <= m → page_free fr m = true → page_free (vm_frames s5) m = true) →
  (length l <= 128)%nat → (∀ e, e ∈ l → entry_given (with_frames s5 fr) (R mod 2 ^ 32) (extra_size g mod 2 ^ 32) e) →
  g4 = with_ramdisk (with_gdtr (with_image g K (kernel_bytes g (setup_sects s g))) C) R →
  wp (s ← write_table (with_frames s5 fr) (slot_va iz +w ZP_E820_TABLE) l; '(_, s) ← vm_unmap_page s (slot_va iz);
      Ok (VmStruct (vm_id g4) (name g4) (img_paddr g4) (img_size g4) (vm_num_cpus g4) (vm_ram_size g4) zf
        (entry_point g4) (gdtr g4) (vmcs_paddr g4) (extra_paddr g4) (extra_size g4) (vm_lock g4), log', s))
    (fun '(g', _, s') => guest_loaded s g zf K C R l g' s' ∧ vm_frames s' = fr).
Proof.
  intros [Hg Hs Hlow Hpl Hbd Him (Tz & Tk & Tr & Tc) Hfr (Cz & Ck & Cr & Cc) (Ak & Ar & Ac) Hin5 Hoth] Hw Hend Hsub Hlen Hent ->.
  assert (Hf0 : frames_to nowhere s5 (with_frames s5 fr)) by (intros q Hq Hf; left; by apply Hsub).
  assert (M0 : moved f3 f2 f1 cr3 nowhere s5 (with_frames s5 fr)).
  { apply (frames_moved _ _ _ _ s5 fr Hg Hw Hend). intros F HF. destruct (tables_taken _ _ _ _ s5 F Hg HF) as [HF0 Hn].
    destruct (page_free fr (F / 4096)) eqn:Ef; [|done]. apply Hsub in Ef; [unfold free_page in Hn; congruence|by apply Z.div_pos]. }
  pose proof (mv_good _ _ _ _ _ _ _ M0) as Hg0.
  assert (Hs0 : shows (with_frames s5 fr) iz zf) by exact Hs.
  assert (Hpos : Forall entry_pos l).
  { apply Forall_forall. intros e Hin. apply (entry_given_pos (with_frames s5 fr) (R mod 2 ^ 32) (extra_size g mod 2 ^ 32)); [dlia|dlia|by apply Hent]. }
  rewrite (slot_add _ _ iz zf ZP_E820_TABLE Hs0) by (change ZP_E820_TABLE with 720; lia).
  destruct (write_table_ok l _ iz zf ZP_E820_TABLE Hg0 Hs0 Cz) as (s6 & E6 & W6 & T6); [change ZP_E820_TABLE with 720; lia..|done|].
  rewrite E6, bind_ok.
  assert (Hin6 : inside f3 f2 f1 cr3 (guest_places s g zf K C R) iz s s6).
  { apply (inside_after _ _ _ _ _ _ _ (with_frames s5 fr)); [apply (inside_after _ _ _ _ _ _ _ s5 _ Hin5)|].
    - apply (moved_weaken _ _ _ _ nowhere); [exact M0|by intros ? []].
    - apply (moved_weaken _ _ _ _ _ _ _ _ (wrote_moved _ _ _ _ _ _ _ Hg0 W6)). unfold guest_places, within. change ZP_E820_TABLE with 720. intros; lia. }
  destruct (inside_close _ _ _ _ _ _ _ _ Hin6) as (r & s7 & E7 & M7 & Ef7 & B7).
  rewrite E7, bind_ok. cbn [wp wpx].
  assert (B : ∀ pa, clear tb pa 1 → ¬ map_fields zf pa → byte_at (vm_mem s7) pa = byte_at (vm_mem s5) pa).
  { intros pa Hc Hm. rewrite B7 by done. rewrite (wr_bytes _ _ _ _ W6); [done|]. unfold map_fields, within in *. lia. }
  assert (F7 : vm_frames s7 = fr) by (rewrite Ef7; apply (wrote_frames _ _ _ _ _ _ _ W6)).
  assert (Hft : frames_to nowhere s5 s7) by (intros q Hq Hf; left; apply Hsub; [done|]; unfold free_page in Hf; by rewrite F7 in Hf).
  split; [|exact F7]. split; [done|apply M7|lia|exact Hbd| | | | | |exact M7|by split_and!|].
  - apply (image_kept _ _ _ _ _ _ (vm_mem s5)); [exact Him|]. unfold map_fields. change ZP_E820_TABLE with 720.
    intros pa [Hpa|[Hpa|[Hpa|[Hpa Hm]]]]; apply B; unfold map_fields; change ZP_E820_TABLE with 720.
    + by apply (clear_byte _ _ _ _ K (kernel_bytes g (setup_sects s g))).
    + unfold within in *. lia.
    + by apply (clear_byte _ _ _ _ R (extra_size g)).
    + unfold within in *. lia.
    + by apply (clear_byte _ _ _ _ C 4096).
    + unfold within in *. lia.
    + by apply (clear_byte _ _ _ _ zf 4096).
    + exact Hm.
  - split; [exact Hlen|]. intros i e Hi. specialize (T6 i e Hi). assert (Hlt : (i < length l)%nat) by by eapply lookup_lt_Some.
    assert (Ev : ∀ o N, 0 <= o → o + Z.of_nat N <= 20 →
      value_at N (vm_mem s7) (zf + ZP_E820_TABLE + 20 * Z.of_nat i + o) = value_at N (vm_mem s6) (zf + ZP_E820_TABLE + 20 * Z.of_nat i + o)).
    { intros o N Ho HN. apply value_at_ext. intros k Hk. apply B7, (clear_byte _ _ _ _ zf 4096); [done|].
      unfold within. change ZP_E820_TABLE with 720 in *. lia. }
    pose proof (Ev 0 8%nat ltac:(lia) ltac:(lia)) as E0. rewrite !Z.add_0_r in E0. rewrite E0, !Ev by lia. exact T6.
  - intros e He'. unfold entry_given. rewrite F7. exact (Hent e He').
  - split_and!; by apply (taken_nowhere s5).
  - intros q Hq Hf. apply Hfr; [done|]. by destruct (Hft q Hq Hf) as [|[]].
  - intros A k Ht Hk HA Hi Hd. destruct (Hoth A k Ht Hk HA Hi Hd) as [Ht5 Hno]. split; [by apply (taken_nowhere s5)|done].
Qed.

Definition linux_messages (msg : string) : Prop := header_messages msg ∨ move_messages msg.

Lemma virt_setup_linux_ok s g log : linux_ready f3 f2 f1 cr3 s g → map_ready s g →
  wpx (virt_setup_linux s g log) (fun '(g', _, s') => ∃ zf K C R t, guest_loaded s g zf K C R t g' s' ∧ map_made s g R t (vm_frames s'))
    linux_messages (map_overflows s g).
Proof.
  intros Hready Hmap. unfold virt_setup_linux.
  pose proof (load_linux_ok f3 f2 f1 cr3 s g Hready) as Hload. destruct (load_linux s g) as [[[[[zf zva] n] g4] s5]| | |] eqn:El;
    [|exact Hload|destruct Hload..].
  destruct Hload as (iz & K & C & R & -> & -> & Eg4 & Hll). rewrite bind_ok. pose proof Hll as [Hg5 Hs5 _ _ _ Him _ _ _ _ _ _].
  assert (Hframes : map_frames s g (vm_frames s5)) by (by do 4 eexists).
  destruct (map_ready_loaded _ _ _ _ _ _ _ _ Hmap Hll) as (Htail & Hend & Hlow).
  pose proof (il_disk _ _ _ _ _ _ _ Him) as [D1 D2]. pose proof (seen_small _ _ _ _ s5 iz zf Hg5 Hs5) as Sz.
  rewrite !(slot_add _ s5 iz zf _ Hs5) by done.
  rewrite (ldn_ok tb 4 s5 _ zf 4096 ZP_RAMDISK_IMAGE Sz), D1, bind_ok by done.
  rewrite (ldn_ok tb 4 s5 _ zf 4096 ZP_RAMDISK_SIZE Sz), D2, bind_ok by done.
  destruct (read_table_ok 128 s5 iz zf ZP_E820_TABLE Hg5 Hs5 ltac:(done) ltac:(done)) as (t & Et & Hlt).
  change (Z.to_nat E820_MAX_ENTRIES_ZEROPAGE) with 128%nat. rewrite Et, bind_ok.
  assert (Hkb : 0 <= kernel_bytes g (setup_sects s g) < 2 ^ 47).
  { destruct (lr_kernel _ _ _ _ _ _ Hready) as (? & ? & ? & ?). dlia. }
  assert (Hrs : is_u32 (extra_size g mod 2 ^ 32)) by (unfold is_u32; apply Z.mod_pos_bound; lia).
  wp_step. apply (wpx_mono _ _ _ _ _ _ _ (virt_setup_e820_ok (vm_frames s5) (R mod 2 ^ 32) _ _ t log (go_wf _ _ _ _ _ Hg5) Htail Hend Hlow Hkb Hrs Hlt)).
  2: { intros m []. }
  2: { intros Hmany. exists (vm_frames s5). by split. }
  intros st [(rs & disk & Hall & Hof & Hdisk) Hleft Hnum Hlen Hwf Hee _].
  rewrite <- (slot_add _ s5 iz zf ZP_E820_TABLE Hs5) by done.
  apply wp_wpx, (wp_mono _ _ _ (finish_ok s g zf iz K C R s5 (e_phys st) (take (Z.to_nat (mmap_num st)) (table st)) g4 (e_log st) Hll Hwf Hee
    ltac:(intros m Hm Hf; by apply Hleft)
    ltac:(rewrite length_take; lia)
    ltac:(intros e He; exact (entry_map_given _ _ _ _ _ _ (with_frames s5 (e_phys st)) _ e Hlow (proj1 (proj2 Hall)) Hof Hleft He)) Eg4)).
  intros [[g' log'] s'] [H Ef]. exists zf, K, C, R, (take (Z.to_nat (mmap_num st)) (table st)). split; [exact H|].
  exists (vm_frames s5), rs, disk. split; [exact Hframes|]. split; [exact Hall|]. split; [exact Hof|]. rewrite Ef. split; [|exact Hleft].
  intros Hlt32. apply Hdisk. apply (ramdisk_taken s g zf iz K C R s5 Hmap Hll); [|exact Hlt32].
  destruct (lr_extra _ _ _ _ _ _ Hready) as (? & ? & _). lia.
Qed.
End guest.

Section property.
Context `{HM : Mmu} (f3 f2 f1 cr3 : Z).

(** C7: [virt_setup_linux] loads the guest. When it returns, the zero page, the
    kernel, the page of the arguments and the ramdisk are at places of their
    own (the kernel and the ramdisk at multiples of 2 MB), where the kernel
    and the ramdisk are byte for byte those of the image; the zero page has
    the setup header of the image, with the fields for the loader set and
    the memory map in its table, and is 0 elsewhere; the map is exactly the one that
    E820.v states for the allocator after the image has been placed, every piece of the memory given away
    and the ramdisk (when it lies below 4 GB), and the allocator keeps exactly the rest;
    of all the memory only the pages of the old image and the old ramdisk may have become free; and
    the guest records these places. It stops only with the messages of a
    missing frame or mapping, a misplaced image or a bad magic number, and leaves the
    table of the map only when that allocator has 128 pieces or more to give. *)
Theorem virt_setup_linux_spec s g log : linux_ready f3 f2 f1 cr3 s g → map_ready s g →
  wpx (virt_setup_linux s g log)
    (fun '(g', _, s') => ∃ zf K C R t, guest_loaded f3 f2 f1 cr3 s g zf K C R t g' s' ∧ map_made s g R t (vm_frames s'))
    linux_messages (map_overflows s g).
Proof. exact (virt_setup_linux_ok f3 f2 f1 cr3 s g log). Qed.
End property.

(** ** Witness *)

(** An image of 2 KB at 0x310000 and a ramdisk of 512 bytes at 0x320000, in
    memory with one free range below 1 MB and free memory from 4 MB to 10 MB. *)
Definition with_image_words (m : gmap Z Z) : gmap Z Z :=
  <[0x310200 := 0x53726448AA55]> (<[0x310210 := 0x8100]> (<[0x320000 := 0xDEADBEEF]> m)).
Definition load_phys : phys :=
  Phys (U64Array MM_TABLE_MAX (list_to_map ((1, UINT64_MAX) :: ((fun k => (k, UINT64_MAX)) <$> seqZ 16 24)))) 2560 40 SPINLOCK_UNLOCKED.
Definition with_image_loaded (s : vm phys) : vm phys := with_frames (with_mem s (with_image_words (vm_mem s))) load_phys.
Definition load_vm : vm phys := with_image_loaded init_vm.
Definition load_guest : vm_struct := VmStruct 0 [] 0x310000 0x800 1 16 0 0x100000 0 [] 0x320000 0x200 SPINLOCK_UNLOCKED.

Lemma load_phys_wf : phys_wf load_phys.
Proof. split; [by apply arr_wfb_sound|done|apply lock_free_unlocked|simpl; lia|done]. Qed.

Lemma image_words_tables m : tables_kept [0x300000; 0x301000; 0x302000; 0x13F000] m (with_image_words m).
Proof.
  intros F HF k Hk. unfold entry, with_image_words.
  repeat (apply elem_of_cons in HF as [->|HF]; [rewrite !ldw_insert, !(proj2 (Z.eqb_neq _ _)) by lia; reflexivity|]).
  by apply elem_of_nil in HF.
Qed.

Lemma with_image_good s : good 0x301000 0x302000 0x13F000 0x300000 s →
  Forall (fun F => 0 <= F ∧ page_free load_phys (F / 4096) = false) [0x300000; 0x301000; 0x302000; 0x13F000] →
  good 0x301000 0x302000 0x13F000 0x300000 (with_image_loaded s).
Proof.
  intros Hg Hall. pose proof (kernel_pt_tables _ _ _ _ s _ Hg (image_words_tables (vm_mem s))) as [K1 K2 K3 K4].
  split; [by split|apply Hg|exact load_phys_wf|]. intros F HF. rewrite Forall_forall in Hall. by apply Hall.
Qed.

Lemma load_good : good 0x301000 0x302000 0x13F000 0x300000 load_vm.
Proof.
  apply (with_image_good init_vm init_good).
  repeat (apply Forall_cons; split; [split; [discriminate|vm_compute; reflexivity]|]). apply Forall_nil_2.
Qed.

Lemma with_image_room s n : (n <= 512)%nat → (∀ i, 0 <= i < 512 → slot_free (vm_mem s) 0x13F000 i) → room 0x13F000 (with_image_loaded s) n.
Proof.
  intros Hn Hf. exists (Z.of_nat <$> seq 0 n). split; [apply NoDup_fmap_2; [intros ? ? ?; lia|apply NoDup_seq]|].
  split; [by rewrite length_fmap, length_seq|]. intros i Hi. apply list_elem_of_fmap in Hi as (k & -> & Hk). apply elem_of_seq in Hk.
  split; [lia|]. unfold slot_free. rewrite (image_words_tables (vm_mem s)); [apply Hf; lia|repeat constructor|lia].
Qed.

Lemma load_room : room 0x13F000 load_vm 2.
Proof. exact (with_image_room init_vm 2 ltac:(lia) init_free). Qed.

Lemma load_held P n : P mod 4096 = 0 → 0 < n <= 4096 → 0 <= P → 0x303000 <= P → P < 2 ^ 35 → page_free load_phys (P / 4096) = false →
  held 0x301000 0x302000 0x13F000 0x300000 load_vm P n.
Proof.
  intros Ha Hn HP Hlo Hhi Hfree. split; [lia| |].
  - intros F HF. repeat (apply elem_of_cons in HF as [->|HF]; [split; [reflexivity|lia]|]). by apply elem_of_nil in HF.
  - intros pa Hpa. unfold within in Hpa. split; [lia|]. unfold free_page. cbn [vm_frames with_frames load_vm].
    by replace (pa / 4096) with (P / 4096) by dlia.
Qed.

Lemma load_sects : setup_sects load_vm load_guest = 0.
Proof. vm_compute. reflexivity. Qed.

Lemma load_ready : linux_ready 0x301000 0x302000 0x13F000 0x300000 load_vm load_guest.
Proof.
  split; rewrite ?load_sects.
  - exact load_good.
  - exact load_room.
  - vm_compute. reflexivity.
  - intros F HF. repeat (apply elem_of_cons in HF as [->|HF]; [split; [reflexivity|lia]|]). by apply elem_of_nil in HF.
  - by apply load_held.
  - by apply load_held.
  - done.
  - by left.
  - done.
  - by split_and!.
  - by split_and!.
  - done.
Qed.

Lemma load_tail : tail_taken load_phys.
Proof.
  intros m Hm. change (64 * entry_end load_phys) with 2560 in Hm. unfold page_free, bm_test.
  assert (E : arr_word (mm_table load_phys) (m / 64) = 0); [|by rewrite E, Z.testbit_0_l].
  unfold arr_word, load_phys. cbn [mm_table arr_words]. rewrite (not_elem_of_list_to_map_1 _ (m / 64)); [done|].
  rewrite fmap_cons, not_elem_of_cons. split; [cbn; dlia|]. rewrite <- list_fmap_compose, (list_fmap_id _).
  rewrite elem_of_seqZ. dlia.
Qed.

Lemma load_map_ready : map_ready load_vm load_guest.
Proof.
  split.
  - intros m Hm. assert (m = 0 ∨ m = 1) as [->| ->] by lia; vm_compute; reflexivity.
  - exact load_tail.
  - done.
  - by split.
  - by split.
Qed.

Definition load_result : outcome (vm_struct * list (string * list Z) * vm phys) := virt_setup_linux load_vm load_guest [].
Lemma load_runs : match load_result with
  | Ok (g, _, _) => (img_paddr g =? 0x400000) && (extra_paddr g =? 0x600000) && (input g =? 0x40000)
  | _ => false
  end = true.
Proof. vm_compute. reflexivity. Qed.

(** The kernel goes to 4 MB and the ramdisk to 6 MB. *)
Lemma virt_setup_linux_spec_witness : ∃ g' log' s', load_result = Ok (g', log', s') ∧
  img_paddr g' = 0x400000 ∧ extra_paddr g' = 0x600000 ∧ input g' = 0x40000 ∧
  (∀ k, 0 <= k < 0x600 → byte_at (vm_mem s') (0x400000 + k) = byte_at (vm_mem load_vm) (0x310200 + k)) ∧
  (∀ k, 0 <= k < 0x200 → byte_at (vm_mem s') (0x600000 + k) = byte_at (vm_mem load_vm) (0x320000 + k)).
Proof.
  pose proof load_runs as Hrun.
  pose proof (virt_setup_linux_spec 0x301000 0x302000 0x13F000 0x300000 load_vm load_guest [] load_ready load_map_ready) as H.
  change (virt_setup_linux load_vm load_guest []) with load_result in H.
  destruct load_result as [[[g' log'] s']| | |]; [|discriminate Hrun..].
  apply andb_true_iff in Hrun as [Hrun H3]. apply andb_true_iff in Hrun as [H1 H2].
  apply Z.eqb_eq in H1. apply Z.eqb_eq in H2. apply Z.eqb_eq in H3.
  destruct H as (zf & K & C & R & t & HG & _). pose proof (gl_guest _ _ _ _ _ _ _ _ _ _ _ _ _ HG) as Eg.
  pose proof (gl_image _ _ _ _ _ _ _ _ _ _ _ _ _ HG) as Him. rewrite Eg in H1, H2, H3.
  change (K = 0x400000) in H1. change (R = 0x600000) in H2. change (zf = 0x40000) in H3. rewrite H1, H2 in Him.
  exists g', log', s'. split; [reflexivity|]. rewrite Eg. split; [exact H1|]. split; [exact H2|]. split; [exact H3|].
  split; [|exact (il_ramdisk _ _ _ _ _ _ _ Him)].
  pose proof (il_kernel _ _ _ _ _ _ _ Him) as Hk. rewrite load_sects in Hk. exact Hk.
Defined.
