(* ===== verification/GuestTables.v ===== *)
(** * The guest from its image to its page tables

    The proof about [virt_pg_table_setup] as a whole: the two upper tables
    (Ept.v), the loader (LinuxGuest.v), the tables below them (Ept.v), and the
    pages unmapped again. *)

From S2P Require Import Prelude Layout Bits Spinlock Physical Mmu Paging PagingSpec Kernel Bytes ByteMem.
From S2P Require Import LinuxAbi VirtInit Virt E820 Ept Linux LinuxSpec LinuxGuest.

Local Open Scope Z_scope.
Local Open Scope c_scope.

Section setup.
Context `{HM : Mmu} (f3 f2 f1 cr3 : Z).
Implicit Types s : vm phys.

Abbreviation tb := [cr3; f3; f2; f1].
Abbreviation good := (good f3 f2 f1 cr3).
Abbreviation shows := (shows f1).
Abbreviation a_table := (is_table f3 f2 f1 cr3).
Abbreviation held := (held f3 f2 f1 cr3).

(** ** After the two upper tables *)

Section roots.
Variables (s s1 : vm phys) (Q T : Z).
Hypothesis Hg : good s.
Hypothesis HQ : fresh f3 f2 f1 cr3 s Q.
Hypothesis HT : fresh f3 f2 f1 cr3 s T.
Hypothesis HE : enlarged f1 (either Q T) s s1.

Lemma fresh_apart F P n : fresh f3 f2 f1 cr3 s F → taken s P n → 0 < n → P + n <= F ∨ F + 4096 <= P.
Proof.
  intros ((Ha & _ & _) & Hb & Hav) Ht Hn. destruct (Z.le_gt_cases (P + n) F) as [|G1]; [by left|]. destruct (Z.le_gt_cases (F + 4096) P) as [|G2]; [by right|]. exfalso.
  destruct (Ht (Z.max P F)) as [_ Hf]; [unfold within; lia|]. unfold aligned in Ha.
  assert (E : Z.max P F / 4096 = F / 4096) by dlia. rewrite E in Hf. unfold free_page in Hf. cbn in Hav. congruence.
Qed.

Lemma roots_frames : frames_to nowhere s s1.
Proof. intros n Hn Hf. left. exact (gr_avail _ _ _ _ HE n Hn Hf). Qed.

Lemma roots_word a : a mod 8 = 0 → clear tb a 8 → (a + 8 <= Q ∨ Q + 4096 <= a) → (a + 8 <= T ∨ T + 4096 <= a) → ldw (vm_mem s1) a = ldw (vm_mem s) a.
Proof.
  intros Ha Hc H1 H2. replace a with (a / 4096 * 4096 + 8 * (a mod 4096 / 8)) by dlia.
  destruct HQ as ((HQa & _) & _), HT as ((HTa & _) & _). unfold aligned in HQa, HTa.
  apply (gr_words _ _ _ _ HE); [unfold aligned; dlia|dlia| |intros [E|E]; dlia].
  intros E. assert (Hin : f1 ∈ tb) by repeat constructor. destruct (Hc f1 Hin) as [HFa Hd]. unfold aligned in HFa. dlia.
Qed.

Lemma roots_byte pa : clear tb pa 1 → ¬ within Q 4096 pa → ¬ within T 4096 pa → byte_at (vm_mem s1) pa = byte_at (vm_mem s) pa.
Proof.
  intros Hc H1 H2. unfold byte_at. rewrite roots_word; [done|dlia| | |]; destruct HQ as ((HQa & _) & _), HT as ((HTa & _) & _);
    unfold aligned, within in *; [|dlia..].
  intros F HF. destruct (Hc F HF) as [HFa Hd]. unfold aligned in HFa. split; [done|dlia].
Qed.

Lemma roots_held_byte P n pa : held s P n → within P n pa → byte_at (vm_mem s1) pa = byte_at (vm_mem s) pa.
Proof.
  intros Hh Hpa. assert (Hn : 0 < n) by (unfold within in Hpa; lia).
  pose proof (fresh_apart Q P n HQ (he_taken _ _ _ _ _ _ _ Hh) Hn). pose proof (fresh_apart T P n HT (he_taken _ _ _ _ _ _ _ Hh) Hn).
  apply roots_byte; [by apply (clear_byte _ _ _ _ P n); [apply Hh|]|unfold within in *; lia..].
Qed.

Lemma roots_sects g : held s (img_paddr g) (img_size g) → HDR + HDR_SIZE <= img_size g → setup_sects s1 g = setup_sects s g.
Proof.
  intros Hh Hn. unfold setup_sects. apply (roots_held_byte (img_paddr g) (img_size g)); [done|].
  change (HDR + HDR_SIZE) with 616 in Hn. unfold within. change ZP_SETUP_SECTS with 497. lia.
Qed.

Lemma roots_linux g : good s1 → room f1 s1 2 → linux_ready f3 f2 f1 cr3 s g → linux_ready f3 f2 f1 cr3 s1 g.
Proof.
  intros Hg1 Hr [_ _ H0 Hc0 Hi Hd Hl Hap Hh Hk He Hp].
  split; try done.
  - by apply (zero_kept nowhere s); [apply roots_frames|intros []|].
  - by apply (held_nowhere _ _ _ _ s); [apply roots_frames|].
  - by apply (held_nowhere _ _ _ _ s); [apply roots_frames|].
  - by rewrite roots_sects.
Qed.

Lemma roots_map_ready g : map_ready s g → map_ready s1 g.
Proof.
  intros [Hl Ht He Hi Hr]. assert (Ee : entry_end (vm_frames s1) = entry_end (vm_frames s)) by (pose proof (gr_bound _ _ _ _ HE) as Hb; cbn in Hb; lia).
  assert (Hno : ∀ m, 0 <= m → page_free (vm_frames s) m = false → page_free (vm_frames s1) m = false).
  { intros m Hm Hf. destruct (page_free (vm_frames s1) m) eqn:E; [|done]. destruct (roots_frames m Hm E) as [Hs|[]]. unfold free_page in Hs. congruence. }
  split; rewrite ?Ee; try done.
  - intros m Hm. apply Hno; [lia|]. by apply Hl.
  - intros m Hm. rewrite Ee in Hm. apply Hno; [|by apply Ht]. pose proof (go_wf _ _ _ _ _ Hg) as Hw.
    pose proof (wf_limit _ Hw). pose proof (wf_end _ Hw). dlia.
Qed.
End roots.

(** ** After the loader *)

Lemma page_taken s F : aligned F → taken_frame s F → taken s F 4096.
Proof.
  unfold aligned. intros Ha [Hp Hf] pa Hpa. unfold within in Hpa. split; [lia|]. unfold free_page. replace (pa / 4096) with (F / 4096) by dlia. exact Hf.
Qed.
Lemma taken_page s F : 0 <= F → taken s F 4096 → taken_frame s F.
Proof. intros Hp Ht. split; [done|]. destruct (Ht F) as [_ Hf]; [unfold within; lia|exact Hf]. Qed.

(** A page beside the image and the ramdisk. *)
Definition beside (g : vm_struct) (F : Z) : Prop :=
  (F + 4096 <= img_paddr g ∨ img_paddr g + img_size g <= F) ∧ (F + 4096 <= extra_paddr g ∨ extra_paddr g + extra_size g <= F).

Section loaded.
Variables (s1 s2 : vm phys) (g g' : vm_struct) (zf K C R : Z) (t : list e820_entry).
Hypothesis HL : guest_loaded f3 f2 f1 cr3 s1 g zf K C R t g' s2.

Lemma loaded_page F : aligned F → 4096 <= F → beside g F → taken_frame s1 F →
  taken_frame s2 F ∧ ∀ pa, within F 4096 pa → ¬ guest_places s1 g zf K C R pa.
Proof.
  intros Ha Hp [Hi Hd] Ht. destruct (gl_others _ _ _ _ _ _ _ _ _ _ _ _ _ HL F 4096 (page_taken s1 F Ha Ht) ltac:(lia) Hp Hi Hd) as [Ht2 Hno].
  split; [apply taken_page; [lia|done]|done].
Qed.

Lemma loaded_table F : beside g F → a_table s1 F → a_table s2 F.
Proof.
  intros Hb (HF & Hne & Hlt & Ht). pose proof HF as (Ha & _). split; [done|]. split; [done|]. split; [done|].
  apply loaded_page; [done|unfold aligned in Ha; dlia|done|done].
Qed.

Lemma loaded_word F k : beside g F → a_table s1 F → 0 <= k < 512 → entry (vm_mem s2) F k = entry (vm_mem s1) F k.
Proof.
  intros Hb (HF & Hne & Hlt & Ht) Hk. pose proof HF as (Ha & _ & Hn). assert (Ha' : F mod 4096 = 0) by exact Ha.
  destruct (loaded_page F Ha ltac:(dlia) Hb Ht) as [_ Hno].
  apply (mv_words _ _ _ _ _ _ _ (gl_moved _ _ _ _ _ _ _ _ _ _ _ _ _ HL)).
  - dlia.
  - intros j Hj. apply Hno. unfold within. lia.
  - intros G HG. pose proof (tables_aligned _ _ _ _ s2 G (gl_good _ _ _ _ _ _ _ _ _ _ _ _ _ HL) HG) as HGa.
    split; [done|]. assert (F ≠ G) by (intros ->; done). unfold aligned in HGa. dlia.
Qed.

Lemma loaded_ready Q T i3 : guest_ready f3 f2 f1 cr3 s1 Q T i3 → beside g Q → beside g T → beside g TEST_FRAME →
  guest_ready f3 f2 f1 cr3 s2 Q T i3.
Proof.
  intros [Hg1 Hs HT HQ Hne He HTd HTt Hr] HbQ HbT Hbt. pose proof (gl_moved _ _ _ _ _ _ _ _ _ _ _ _ _ HL) as M.
  split; [apply M|by apply (moved_shows _ _ _ _ _ _ _ _ _ M)|by apply loaded_table|by apply loaded_table|done| |done| |by apply (moved_room _ _ _ _ _ _ _ _ M)].
  - by rewrite loaded_word.
  - apply loaded_page; [apply HTd|unfold TEST_FRAME; lia|done|done].
Qed.

(** ** After the tables *)

(** The memory of the guest is not among the frames of the tables. *)
Lemma place_kept s3 T P n pa : keeps f3 f2 f1 cr3 (makes s2 T) s2 s3 → taken s2 P n → clear tb P n → within P n pa →
  ¬ within T 4096 pa → ¬ within TEST_FRAME 4096 pa → aligned T → byte_at (vm_mem s3) pa = byte_at (vm_mem s2) pa.
Proof.
  intros Kp Ht Hc Hpa HT HX HTa. set (G := pa / 4096 * 4096). unfold within, aligned, TEST_FRAME in *.
  apply (entries_bytes _ _ G); [|unfold aligned, G; dlia|unfold G; dlia]. intros k Hk.
  assert (Hf1 : f1 ∈ tb) by repeat constructor.
  apply (ke_words _ _ _ _ _ _ _ Kp); [unfold aligned, G; dlia|done| |].
  - intros E. destruct (Hc f1 Hf1) as [HFa Hd]. unfold aligned in HFa. unfold G in E. dlia.
  - intros [[E|E]|[HG0 Hav]].
    + unfold G in E. dlia.
    + unfold G, TEST_FRAME in E. dlia.
    + destruct (Ht pa Hpa) as [_ Hf]. replace (G / 4096) with (pa / 4096) in Hav by (unfold G; dlia). unfold free_page in Hf. cbn in Hav. congruence.
Qed.

Lemma places_kept s3 T : keeps f3 f2 f1 cr3 (makes s2 T) s2 s3 → aligned T → 4096 <= T → beside g T → taken_frame s1 T →
  beside g TEST_FRAME → taken_frame s1 TEST_FRAME → ∀ pa, guest_places s1 g zf K C R pa → byte_at (vm_mem s3) pa = byte_at (vm_mem s2) pa.
Proof.
  intros Kp HTa HT4 HbT HtT Hbx Htx pa Hpa.
  destruct (loaded_page T HTa HT4 HbT HtT) as [_ HnoT].
  destruct (loaded_page TEST_FRAME ltac:(done) ltac:(done) Hbx Htx) as [_ Hnox].
  assert (H1 : ¬ within T 4096 pa) by (intros Hw; by apply (HnoT pa Hw)).
  assert (H2 : ¬ within TEST_FRAME 4096 pa) by (intros Hw; by apply (Hnox pa Hw)).
  destruct (gl_taken _ _ _ _ _ _ _ _ _ _ _ _ _ HL) as (Tz & Tk & Tr & Tc).
  destruct (gl_clear _ _ _ _ _ _ _ _ _ _ _ _ _ HL) as (Cz & Ck & Cr & Cc).
  destruct Hpa as [Hpa|[Hpa|[Hpa|Hpa]]].
  - exact (place_kept s3 T zf 4096 pa Kp Tz Cz Hpa H1 H2 HTa).
  - exact (place_kept s3 T K _ pa Kp Tk Ck Hpa H1 H2 HTa).
  - exact (place_kept s3 T C 4096 pa Kp Tc Cc Hpa H1 H2 HTa).
  - exact (place_kept s3 T R _ pa Kp Tr Cr Hpa H1 H2 HTa).
Qed.
End loaded.

(** ** The whole *)

(** What [virt_pg_table_setup] asks for: the image can be loaded and the memory handed
    over, five pages of the window are free, the image and the ramdisk are below
    4 GB (the boot loader gives 32-bit addresses), the page of the test program is not the
    allocator's, and the guest has at most 512 GB. *)
Record setup_ready s (g : vm_struct) : Prop := SetupReady {
  sr_linux : linux_ready f3 f2 f1 cr3 s g; sr_map : map_ready s g; sr_room : room f1 s 5;
  sr_test : data f3 f2 f1 cr3 TEST_FRAME ∧ taken_frame s TEST_FRAME;
  sr_low : img_paddr g + img_size g <= 2 ^ 32 ∧ extra_paddr g + extra_size g <= 2 ^ 32;
  sr_aligned : extra_paddr g mod 4096 = 0; sr_ram : 0 <= vm_ram_size g <= 2 ^ 19
}.

(** The guest is loaded and the tables at [eptp] translate its addresses. *)
Record guest_set_up s (g : vm_struct) (zf K C R : Z) (t : list e820_entry) (eptp : Z) (g' : vm_struct) s' : Prop := GuestSetUp {
  gs_guest : g' = with_input (with_ramdisk (with_gdtr (with_image g K (kernel_bytes g (setup_sects s g))) C) R) zf;
  gs_good : good s';
  gs_root : 0 < eptp < 2 ^ 36 ∧ eptp mod 4096 = 0 ∧ taken s' eptp 4096;
  gs_low : 4096 <= zf < 2 ^ 20 ∧ 0 <= C < 2 ^ 20;
  gs_image : image_loaded s g zf K C R (vm_mem s');
  gs_table : table_at (vm_mem s') (zf + ZP_E820_TABLE) t;
  gs_entries e : e ∈ t → entry_given s' (R mod 2 ^ 32) (extra_size g mod 2 ^ 32) e;
  gs_taken : taken s' zf 4096 ∧ taken s' K (kernel_bytes g (setup_sects s g)) ∧ taken s' R (extra_size g) ∧ taken s' C 4096;
  gs_view gpa : 0 <= gpa < 2 ^ 21 * Z.shiftr (vm_ram_size g) 1 → ept_walk (vm_mem s') eptp gpa =
    ept_view (img_paddr g + 0x100000) (K + kernel_bytes g (setup_sects s g)) (extra_paddr g) (R + extra_size g) gpa
}.

Lemma within_le P n n' pa : within P n pa → n <= n' → within P n' pa.
Proof. unfold within. lia. Qed.

(** The image that was loaded from [s1] is that of [s]. *)
Lemma image_source s s1 g zf K C R m : setup_sects s1 g = setup_sects s g → HDR + HDR_SIZE <= img_size g →
  movable (kernel_start g (setup_sects s g)) (kernel_bytes g (setup_sects s g)) →
  (∀ pa, within (img_paddr g) (img_size g) pa ∨ within (extra_paddr g) (extra_size g) pa → byte_at (vm_mem s1) pa = byte_at (vm_mem s) pa) →
  image_loaded s1 g zf K C R m → image_loaded s g zf K C R m.
Proof.
  intros Es Hn (Hk1 & Hk2 & _ & _) E [[Ma Mm] Bk Br Bh B0 (A1 & A2 & A3 & A4) Dr Hp]. rewrite Es in *.
  change (HDR + HDR_SIZE) with 616 in Hn. change ZP_HEADER with 514 in Mm. change ZP_LOADFLAGS with 529 in A3.
  assert (Hss : 0 <= setup_size (setup_sects s g)).
  { unfold setup_size, setup_sects. pose proof (byte_range (vm_mem s) (img_paddr g + ZP_SETUP_SECTS)). change LINUX_SECTOR_SZ with 512. lia. }
  split; [| | | |exact B0| |exact Dr|exact Hp].
  - split; [exact Ma|]. change ZP_HEADER with 514. rewrite <- Mm. apply value_at_ext. intros k Hk. symmetry. apply E. left. unfold within. lia.
  - intros k Hk. rewrite Bk by done. apply E. left. unfold within, kernel_start, kernel_bytes in *. lia.
  - intros k Hk. rewrite Br by done. apply E. right. unfold within. lia.
  - intros o Ho Ha Hr. rewrite Bh by done. apply E. left. change HDR with 497 in Ho. change HDR_SIZE with 119 in Ho. unfold within. lia.
  - split; [exact A1|]. split; [exact A2|]. split; [|exact A4]. change ZP_LOADFLAGS with 529. rewrite A3, E; [done|]. left. unfold within. lia.
Qed.

(** The image is where it was when the bytes of the guest's memory are the same. *)
Lemma image_stays s g zf K C R m m' : image_loaded s g zf K C R m →
  (∀ pa, guest_places s g zf K C R pa → byte_at m' pa = byte_at m pa) → image_loaded s g zf K C R m'.
Proof.
  intros Hi E. apply (image_kept s g zf K C R m m' Hi). unfold guest_places in E. intros pa [|[|[|[? _]]]]; apply E; auto.
Qed.
Lemma table_stays m m' pa l : (∀ k, within pa (20 * Z.of_nat (length l)) k → byte_at m' k = byte_at m k) → table_at m pa l → table_at m' pa l.
Proof.
  intros E Ht i e Hi. assert (Hlt : (i < length l)%nat) by by eapply lookup_lt_Some. destruct (Ht i e Hi) as (H1 & H2 & H3).
  rewrite <- H1, <- H2, <- H3. split_and!; apply value_at_ext; intros k Hk; apply E; unfold within; lia.
Qed.

Definition setup_messages (msg : string) : Prop := out_of_roots msg ∨ linux_messages msg ∨ out_of_frames msg.

(** The last steps: the tables are filled and the two upper ones unmapped. *)
Lemma fill_ok s1 s2 g g' zf K C R t Q T i4 i3 (log' : list (string * list Z)) :
  guest_loaded f3 f2 f1 cr3 s1 g zf K C R t g' s2 → guest_ready f3 f2 f1 cr3 s1 Q T i3 → shows s1 i4 Q →
  beside g Q → beside g T → beside g TEST_FRAME → taken_frame s1 TEST_FRAME → img_paddr g mod 4096 = 0 → extra_paddr g mod 4096 = 0 →
  0 <= img_paddr g < 2 ^ 40 → 0 <= extra_paddr g < 2 ^ 40 → 0 <= vm_ram_size g <= 2 ^ 19 → 0 <= kernel_bytes g (setup_sects s1 g) → 0 <= extra_size g →
  let n := kernel_bytes g (setup_sects s1 g) in
  wpx (s ← ept_fill g' (img_paddr g + 0x100000) (extra_paddr g) (slot_va i3) s2;
       '(_, s) ← vm_unmap_page s (slot_va i4); '(_, s) ← vm_unmap_page s (slot_va i3); Ok (Q, g', log', s))
    (fun '(eptp, g2, _, s') => eptp = Q ∧ g2 = g' ∧ good s' ∧ taken s' Q 4096 ∧ (0 < Q < 2 ^ 36 ∧ Q mod 4096 = 0) ∧ frames_to nowhere s2 s' ∧
      (∀ pa, guest_places s1 g zf K C R pa → byte_at (vm_mem s') pa = byte_at (vm_mem s2) pa) ∧
      ∀ gpa, 0 <= gpa < 2 ^ 21 * Z.shiftr (vm_ram_size g) 1 → ept_walk (vm_mem s') Q gpa =
        ept_view (img_paddr g + 0x100000) (K + n) (extra_paddr g) (R + extra_size g) gpa) out_of_frames False.
Proof.
  intros HL Hr1 H4 HbQ HbT Hbx Htx Hai Hae Hbi Hbe Hram Hn0 He0 n.
  pose proof (loaded_ready s1 s2 g g' zf K C R t HL Q T i3 Hr1 HbQ HbT Hbx) as Hr2.
  pose proof (gl_bounds _ _ _ _ _ _ _ _ _ _ _ _ _ HL) as (B1 & B2 & B3 & B4). fold n in B2, Hn0.
  pose proof (gl_guest _ _ _ _ _ _ _ _ _ _ _ _ _ HL) as Eg.
  assert (Ek : img_size g' +w img_paddr g' = K + n) by (rewrite Eg; cbn; fold n; rewrite u64_id by (unfold is_u64; lia); lia).
  assert (Er : extra_size g' +w extra_paddr g' = R + extra_size g) by (rewrite Eg; cbn; rewrite u64_id by (unfold is_u64; lia); lia).
  assert (Em : vm_ram_size g' = vm_ram_size g) by (by rewrite Eg).
  assert (Him : image_fits (img_paddr g + 0x100000) (K + n) (extra_paddr g) (R + extra_size g) (Z.shiftr (vm_ram_size g) 1)).
  { rewrite Z.shiftr_div_pow2 by lia. change (2 ^ 1) with 2. split; dlia. }
  pose proof (ept_fill_view f3 f2 f1 cr3 s2 Q T i3 g' (img_paddr g + 0x100000) (extra_paddr g)) as Hf. cbv zeta in Hf.
  rewrite Ek, Er, Em in Hf. wp_step.
  apply (wpx_post _ _ _ _ _ (Hf Hr2 Him ltac:(unfold aligned; dlia) ltac:(exact Hae))). intros s3 [Kp Hview].
  destruct Hr1 as [Hg1 Hs1 HT1 HQ1 _ _ _ _ _]. pose proof (ke_good _ _ _ _ _ _ _ Kp) as Hg3.
  destruct (unmap_small_ok _ _ _ _ s3 i4 Hg3 (proj1 H4)) as (r4 & s4 & E4 & Hg4 & Ef4 & _ & Bb4 & Bw4).
  destruct (unmap_small_ok _ _ _ _ s4 i3 Hg4 (proj1 Hs1)) as (r5 & s5 & E5 & Hg5 & Ef5 & _ & Bb5 & Bw5).
  rewrite E4, bind_ok, E5, bind_ok. cbn [wpx].
  assert (F5 : vm_frames s5 = vm_frames s3) by (by rewrite Ef5).
  assert (Ft : frames_to nowhere s2 s5).
  { intros q Hq Hfq. left. unfold free_page in *. rewrite F5 in Hfq. exact (ke_avail _ _ _ _ _ _ _ Kp q Hq Hfq). }
  pose proof (loaded_table s1 s2 g g' zf K C R t HL Q HbQ HQ1) as (HQd & _ & HQb & HQt). pose proof HQd as (HQa & _).
  split; [done|]. split; [done|]. split; [exact Hg5|].
  split; [apply (taken_nowhere s2); [exact Ft|by apply page_taken]|]. split; [split; [exact HQb|exact HQa]|]. split; [exact Ft|]. split.
  - destruct HT1 as ((HTa & _) & _ & HTb & HTt). intros pa Hpa.
    assert (Hc : clear tb pa 1).
    { destruct (gl_clear _ _ _ _ _ _ _ _ _ _ _ _ _ HL) as (Cz & Ck & Cr & Cc).
      destruct Hpa as [Hpa|[Hpa|[Hpa|Hpa]]]; [exact (clear_byte _ _ _ _ _ _ _ Cz Hpa)|exact (clear_byte _ _ _ _ _ _ _ Ck Hpa)|
        exact (clear_byte _ _ _ _ _ _ _ Cc Hpa)|exact (clear_byte _ _ _ _ _ _ _ Cr Hpa)]. }
    rewrite Bb5, Bb4 by done. apply (places_kept s1 s2 g g' zf K C R t HL s3 T Kp HTa ltac:(unfold aligned in HTa; dlia) HbT HTt Hbx Htx pa Hpa).
  - apply (Hview s5).
    + intros G [HG0 HGt]. split; [done|]. by rewrite F5.
    + intros G k HG Hk Hne. by rewrite Bw5, Bw4.
Qed.

Lemma beside_low g F : img_paddr g + img_size g <= F → extra_paddr g + extra_size g <= F → beside g F.
Proof. intros H1 H2. split; by right. Qed.

(** The state in which the loader runs: the two upper tables have been made. *)
Definition loader_state s (Q : Z) (s1 : vm phys) : Prop := ∃ va4 va3, ept_roots s = Ok (Q, va4, va3, s1).

(** [t] is the memory map that the loader makes, the ramdisk being at [R], and no frame it gives away is free at the end. *)
Definition map_handed s (g : vm_struct) (R : Z) (t : list e820_entry) (eptp : Z) s' : Prop :=
  ∃ s1 p, loader_state s eptp s1 ∧ map_made s1 g R t p ∧ ∀ m, 0 <= m → page_free (vm_frames s') m = true → page_free p m = true.
Definition setup_overflows s (g : vm_struct) : Prop := ∃ Q s1, loader_state s Q s1 ∧ map_overflows s1 g.

Lemma virt_pg_table_setup_ok s g log : setup_ready s g →
  wpx (virt_pg_table_setup s g log)
    (fun '(eptp, g', _, s') => ∃ zf K C R t, guest_set_up s g zf K C R t eptp g' s' ∧ map_handed s g R t eptp s')
    setup_messages (setup_overflows s g).
Proof.
  intros [Hlin Hmap Hr5 [HTd HTt] [Hlow1 Hlow2] Hae Hram]. pose proof Hlin as [Hg Hr2 H0 Hc0 Hi Hd Hl Hap Hh Hk He Hp].
  pose proof (he_pos _ _ _ _ _ _ _ Hi) as Hip. pose proof (he_pos _ _ _ _ _ _ _ Hd) as Hdp.
  unfold virt_pg_table_setup. rewrite (u64_id (img_paddr g + 0x100000)) by (unfold is_u64; lia). cbv zeta.
  pose proof (ept_roots_ok f3 f2 f1 cr3 s Hg HTd HTt Hr5) as Hroots. destruct (ept_roots s) as [[[[Q va4] va3] s1]| | |] eqn:Er;
    [|by left|destruct Hroots..].
  destruct Hroots as (T & i4 & i3 & -> & -> & Hgr & Hs4 & HfQ & HfT & Hen). rewrite bind_ok.
  assert (Hls : loader_state s Q s1) by (by do 2 eexists).
  assert (Hes : setup_sects s1 g = setup_sects s g) by (by apply (roots_sects s s1 Q T)).
  assert (Hlin1 : linux_ready f3 f2 f1 cr3 s1 g).
  { apply (roots_linux s s1 Q T); [done..|apply Hgr| |exact Hlin]. exact (room_less f1 s1 3 2 ltac:(lia) (gu_room _ _ _ _ _ _ _ _ Hgr)). }
  pose proof (roots_map_ready s s1 Q T Hg Hen g Hmap) as Hmap1.
  wp_step. apply (wpx_mono _ _ _ _ _ _ _ (virt_setup_linux_ok f3 f2 f1 cr3 s1 g log Hlin1 Hmap1)); [|intros m Hm; right; left; exact Hm|intros HF; exists Q, s1; split; [exact Hls|exact HF]].
  intros [[g' log'] s2] (zf & K & C & R & t & HL & Hmm). pose proof (gl_image _ _ _ _ _ _ _ _ _ _ _ _ _ HL) as Him.
  destruct (il_magic _ _ _ _ _ _ _ Him) as [Hai _].
  assert (Hbes : ∀ F, fresh f3 f2 f1 cr3 s F → beside g F).
  { intros F HF. change (HDR + HDR_SIZE) with 616 in Hh. destruct He as (_ & He & _ & _).
    destruct (fresh_apart s F _ _ HF (he_taken _ _ _ _ _ _ _ Hi)); [lia| |]; destruct (fresh_apart s F _ _ HF (he_taken _ _ _ _ _ _ _ Hd)); unfold beside; lia. }
  assert (Hkb : 0 <= kernel_bytes g (setup_sects s1 g)) by (rewrite Hes; destruct Hk as (_ & ? & _); lia).
  pose proof (fill_ok s1 s2 g g' zf K C R t Q T i4 i3 log' HL Hgr Hs4 (Hbes Q HfQ) (Hbes T HfT)
    (beside_low g TEST_FRAME ltac:(unfold TEST_FRAME; lia) ltac:(unfold TEST_FRAME; lia)) (gu_taken _ _ _ _ _ _ _ _ Hgr) Hai Hae
    ltac:(lia) ltac:(lia) Hram Hkb ltac:(lia)) as Hfill. cbv zeta in Hfill. rewrite Hes in Hfill.
  eapply (wpx_mono _ _ _ _ _ _ _ Hfill); [|intros m Hm; right; right; exact Hm|intros []].
  intros [[[eptp g2] log2] s'] (-> & -> & Hg' & HtQ & Hroot & Hft & Hbytes & Hview). exists zf, K, C, R, t. split.
  2: { exists s1, (vm_frames s2). split; [exact Hls|]. split; [exact Hmm|]. intros m Hm Hf. destruct (Hft m Hm Hf) as [H2|[]]. exact H2. }
  pose proof (gl_guest _ _ _ _ _ _ _ _ _ _ _ _ _ HL) as Eg. rewrite Hes in Eg.
  destruct (gl_table _ _ _ _ _ _ _ _ _ _ _ _ _ HL) as [Hlt Htab].
  destruct (gl_places _ _ _ _ _ _ _ _ _ _ _ _ _ HL) as (Hz1 & Hc1 & _).
  split; [exact Eg|exact Hg'|destruct Hroot as [R1 R2]; split; [exact R1|split; [exact R2|exact HtQ]]|split; [exact Hz1|exact Hc1]| | | | |exact Hview].
  - apply (image_source s s1); [exact Hes|exact Hh|exact Hk| |by apply (image_stays _ _ _ _ _ _ (vm_mem s2))].
    intros pa [Hpa|Hpa]; [by apply (roots_held_byte s s1 Q T HfQ HfT Hen _ _ pa Hi)|by apply (roots_held_byte s s1 Q T HfQ HfT Hen _ _ pa Hd)].
  - apply (table_stays (vm_mem s2)); [|exact Htab]. intros k Hk'. apply Hbytes. left. unfold within in *. change ZP_E820_TABLE with 720 in Hk'. lia.
  - intros e Hin. destruct (gl_entries _ _ _ _ _ _ _ _ _ _ _ _ _ HL e Hin) as [Ht Hcases]. split; [exact Ht|].
    destruct Hcases as [|(a & n & E1 & E2 & Ha & Hn & Hno)]; [left; assumption|right]. exists a, n.
    split; [exact E1|split; [exact E2|split; [exact Ha|split; [exact Hn|]]]]. intros m Hm.
    destruct (page_free (vm_frames s') m) eqn:E; [|reflexivity]. destruct (Hft m ltac:(lia) E) as [Hf2|[]]. unfold free_page in Hf2. by rewrite Hno in Hf2.
  - destruct (gl_taken _ _ _ _ _ _ _ _ _ _ _ _ _ HL) as (T1 & T2 & T3 & T4). rewrite Hes in T2.
    split; [|split; [|split]]; (apply (taken_nowhere s2); [exact Hft|assumption]).
Qed.
End setup.

Section property.
Context `{HM : Mmu} (f3 f2 f1 cr3 : Z).

(** C6: [virt_pg_table_setup] loads the guest and builds its extended page
    tables. When it returns, the zero page, the kernel, the page of the arguments and the ramdisk
    are in memory of their own as [virt_setup_linux] leaves them, the table
    returned is a page of the hypervisor, and every address of the guest's
    memory goes where [ept_view] says: the first MB to itself, the second
    to 4 GB above, then the large pages from 1 MB past the {e old} place of
    the image up to the end of the new kernel, those from the old place of
    the ramdisk up to the end of the new one, and the memory at 4 GB. It stops only with
    the messages of a missing frame or mapping or a bad image, and leaves the table of the memory
    map only when the allocator has too many pieces to give at that point of this call. The map
    is that of [virt_setup_linux] for the state after the two upper tables, and nothing
    it gives to the guest is free at the end. *)
Theorem virt_pg_table_setup_spec s g log : setup_ready f3 f2 f1 cr3 s g →
  wpx (virt_pg_table_setup s g log)
    (fun '(eptp, g', _, s') => ∃ zf K C R t, guest_set_up f3 f2 f1 cr3 s g zf K C R t eptp g' s' ∧ map_handed s g R t eptp s')
    setup_messages (setup_overflows s g).
Proof. exact (virt_pg_table_setup_ok f3 f2 f1 cr3 s g log). Qed.
End property.

(** ** Witness *)

Lemma load_setup_ready : setup_ready 0x301000 0x302000 0x13F000 0x300000 load_vm load_guest.
Proof.
  split; [exact load_ready|exact load_map_ready|exact (with_image_room init_vm 5 ltac:(lia) init_free)| |by split|done|done].
  split; [exact (proj1 test_frame_data)|]. split; [discriminate|vm_compute; reflexivity].
Qed.

Definition setup_result : outcome (Z * vm_struct * list (string * list Z) * vm phys) := virt_pg_table_setup load_vm load_guest [].
Lemma setup_runs : match setup_result with
  | Ok (eptp, g, _, _) => (eptp =? 0x400000) && (img_paddr g =? 0x600000) && (extra_paddr g =? 0x800000)
  | _ => false
  end = true.
Proof. vm_compute. reflexivity. Qed.

(** The image of LinuxGuest.v: the kernel is at 6 MB, but the second large page
    of the guest, where it should be, is not mapped, since the table has 1 MB past
    the old place of the image there; the first pages are. *)
Lemma virt_pg_table_setup_spec_witness : ∃ g' log' s', setup_result = Ok (0x400000, g', log', s') ∧
  (∀ k, 0 <= k < 0x600 → byte_at (vm_mem s') (0x600000 + k) = byte_at (vm_mem load_vm) (0x310200 + k)) ∧
  ept_walk (vm_mem s') 0x400000 0x40000 = Some (0x40000, 0x37) ∧ ept_walk (vm_mem s') 0x400000 0x200000 = None.
Proof.
  pose proof setup_runs as Hrun.
  pose proof (virt_pg_table_setup_spec 0x301000 0x302000 0x13F000 0x300000 load_vm load_guest [] load_setup_ready) as H.
  change (virt_pg_table_setup load_vm load_guest []) with setup_result in H.
  destruct setup_result as [[[[eptp g'] log'] s']| | |]; [|discriminate Hrun..].
  apply andb_true_iff in Hrun as [Hrun H3]. apply andb_true_iff in Hrun as [H1 H2].
  apply Z.eqb_eq in H1. apply Z.eqb_eq in H2. apply Z.eqb_eq in H3. rewrite H1 in H |- *.
  destruct H as (zf & K & C & R & t & HG & _). pose proof (gs_guest _ _ _ _ _ _ _ _ _ _ _ _ _ _ HG) as Eg.
  rewrite Eg in H2, H3. change (K = 0x600000) in H2. change (R = 0x800000) in H3.
  pose proof (gs_image _ _ _ _ _ _ _ _ _ _ _ _ _ _ HG) as Him. pose proof (gs_view _ _ _ _ _ _ _ _ _ _ _ _ _ _ HG) as Hv.
  rewrite H2 in Him, Hv. rewrite H3 in Hv.
  exists g', log', s'. split; [reflexivity|]. split.
  - pose proof (il_kernel _ _ _ _ _ _ _ Him) as Hk. rewrite load_sects in Hk. exact Hk.
  - rewrite load_sects in Hv. split; (rewrite Hv; [reflexivity|split; [discriminate|reflexivity]]).
Defined.
