(* ===== verification/VirtCpu.v ===== *)
(** * Starting a guest on a CPU

    Models [virt_percpu_init] of [arch/x86_64/virt/virt.c]: the CPU enters VMX
    operation, a control structure is made current, the guest is loaded and its
    page tables are built (Linux.v), the structure is filled (Virt.v) and the
    guest is launched. The instructions of the extension are a history of
    events; what the processor answers is the class [Vmx]. *)

From S2P Require Import Prelude Layout Bits Spinlock Physical Mmu Paging PagingSpec Kernel Bytes ByteMem.
From S2P Require Import Descriptors Percpu Vmcs Virt LinuxAbi VirtInit E820 Ept Linux.

Local Open Scope Z_scope.
Local Open Scope c_scope.

Definition FLAGS_CF : Z := 0x1.
Definition FLAGS_ZF : Z := 0x40.

(** The instructions that change the state of the extension. *)
Inductive vmx_event :=
  | WriteCr0 (v : Z) | WriteCr4 (v : Z) | WriteMsr (msr v : Z)
  | Vmxon (p : Z) | Vmclear (p : Z) | Vmptrld (p : Z).

(** The processor: whether a write of a model-specific register is refused, the flags after the
    last of the instructions so far (the last first), given the memory, and those
    after [vmlaunch], which does not return when the guest runs. What a field of
    a control structure holds that was never written is [vmcs_junk]. *)
Class Vmx := {
  wrmsr_faults : Z → Z → bool;
  vmx_flags : list vmx_event → gmap Z Z → Z;
  vmlaunch : list vmx_event → gmap Z Z → vmcs → option Z;
  vmcs_junk : vmcs
}.

(** The memory, the variables of virt.c, the history and what is printed. *)
Record vcpu := VCpu {
  c_vm : vm phys;
  c_virt : virt;
  vmxon_region : list Z;
  c_events : list vmx_event;
  c_log : list (string * list Z)
}.

(** How [virt_percpu_init] ends: no guest has the CPU, the guest runs with its
    control structure, or [vmlaunch] came back without an error flag. *)
Inductive started := NoGuest | Running (c : vmcs) | CameBack.

(** After the control registers have been written. *)
Definition with_control_regs (HP : Processor) (cr0 cr4 : Z) : Processor := {|
  rdmsr := rdmsr; reg_cr0 := cr0; reg_cr3 := reg_cr3; reg_cr4 := cr4;
  reg_cs := reg_cs; reg_ds := reg_ds; reg_es := reg_es; reg_ss := reg_ss; reg_fs := reg_fs; reg_gs := reg_gs; reg_tr := reg_tr;
  reg_gdtr_base := reg_gdtr_base; reg_idtr_base := reg_idtr_base; reg_rsp := reg_rsp;
  virt_main := virt_main; cpuid_1_ecx := cpuid_1_ecx
|}.

Section virt_cpu.
Context `{HM : Mmu} {HP : Processor} {HX : Vmx}.
Implicit Types s : vm phys.

Definition check_flags (flags : Z) : outcome unit :=
  if negb (flags .& FLAGS_CF =? 0) then Panic "Invalid VMCS pointer"
  else if negb (flags .& FLAGS_ZF =? 0) then Panic "VMX error"
  else Ok tt.
Definition virt_check_error (ev : list vmx_event) s : outcome unit := check_flags (vmx_flags ev (vm_mem s)).

(** Stores of 32-bit words one after the other. *)
Fixpoint st_words s (va : Z) (l : list Z) : outcome (vm phys) :=
  match l with [] => Ok s | w :: l => s ← stn 4 s va w; st_words s (va +w 4) l end.

(** The frame is mapped with the memory type of the extension, its first words
    are written, and it is unmapped. *)
Definition fill_region s (mem_type frame : Z) (words : list Z) (msg : string) : outcome (vm phys) :=
  '(addr, s) ← vm_map_page s frame (PGT_P .| PGT_RW .| mem_type);
  _ ← panic_if_zero addr msg;
  s ← st_words s addr words;
  '(_, s) ← vm_unmap_page s addr;
  Ok s.

(** [vm->num_cpus++] under the lock of the guest, and the structure of the new CPU. *)
Definition with_vcpu (vm : vm_struct) (n : Z) (paddrs : list Z) (l : spinlock) : vm_struct :=
  VmStruct (vm_id vm) (name vm) (img_paddr vm) (img_size vm) n (vm_ram_size vm) (input vm) (entry_point vm) (gdtr vm)
    paddrs (extra_paddr vm) (extra_size vm) l.

Definition fixed_cr0 (cr0 : Z) : Z := (cr0 .| rdmsr IA32_VMX_CR0_FIXED0) .& rdmsr IA32_VMX_CR0_FIXED1.
Definition fixed_cr4 (cr4 : Z) : Z := (cr4 .| rdmsr IA32_VMX_CR4_FIXED0) .& rdmsr IA32_VMX_CR4_FIXED1.

(** The extension is switched on: the registers, and the region of the CPU. *)
Definition enter_vmx (cpu cr0 cr4 : Z) (c : vcpu) : outcome vcpu :=
  let v := c_virt c in
  let ev := WriteCr4 (fixed_cr4 cr4) :: WriteCr0 (fixed_cr0 cr0) :: c_events c in
  let msr := rdmsr IA32_FEATURE_CONTROL in
  locked ← get_bit64 msr 0;
  outside ← get_bit64 msr 2;
  if negb (locked =? 0) && (outside =? 0) then Panic "VMX is disabled"
  else
    let msr := msr .| (1 .| Z.shiftl 1 2) in
    if wrmsr_faults IA32_FEATURE_CONTROL msr then Fault
    else
      let ev := WriteMsr IA32_FEATURE_CONTROL msr :: ev in
      '(frame, s) ← on_frames (c_vm c) (alloc_phys_frame (vm_frames (c_vm c)));
      regions ← list_set (vmxon_region c) cpu frame;
      _ ← panic_if_zero frame "VMXON region allocation failed";
      s ← fill_region s (vmcs_mem_type v) frame [vmcs_rev v] "VMXON region mapping failed";
      let ev := Vmxon frame :: ev in
      _ ← virt_check_error ev s;
      Ok (VCpu s v regions ev (c_log c)).

(** The control structure of the virtual CPU is made and becomes the current one. *)
Definition make_vmcs (c : vcpu) (vm : vm_struct) : outcome (vm_struct * vcpu) :=
  let v := c_virt c in
  l ← spin_lock (vm_lock vm);
  let vcpu_id := vm_num_cpus vm in
  let l := spin_unlock l in
  '(frame, s) ← on_frames (c_vm c) (alloc_phys_frame (vm_frames (c_vm c)));
  paddrs ← list_set (vmcs_paddr vm) vcpu_id frame;
  _ ← panic_if_zero frame "VMCS allocation failed";
  s ← fill_region s (vmcs_mem_type v) frame [vmcs_rev v; 0] "VMCS mapping failed";
  let ev := Vmptrld frame :: Vmclear frame :: c_events c in
  _ ← virt_check_error ev s;
  Ok (with_vcpu vm (u16 (vcpu_id + 1)) paddrs l, VCpu s v (vmxon_region c) ev (c_log c)).

Definition with_vms (v : virt) (l : list vm_struct) : virt :=
  VirtState (v_heap v) l (cpu_to_vm v) (vmcs_mem_type v) (vmcs_rev v).

Definition virt_percpu_init (d : gdt_table) (cpu cr0 cr4 : Z) (c : vcpu) : outcome (vcpu * started) :=
  vm_id ← list_get (cpu_to_vm (c_virt c)) cpu;
  if vm_id =? VM_NONE then Ok (c, NoGuest)
  else
    c ← enter_vmx cpu cr0 cr4 c;
    vm ← list_get (vm_structs (c_virt c)) vm_id;
    '(vm, c) ← make_vmcs c vm;
    '(ept_p, vm, log, s) ← virt_pg_table_setup (c_vm c) vm (c_log c);
    vms ← list_set (vm_structs (c_virt c)) vm_id vm;
    let c := VCpu s (with_vms (c_virt c) vms) (vmxon_region c) (c_events c) log in
    let HP' := with_control_regs HP (fixed_cr0 cr0) (fixed_cr4 cr4) in
    let f := virt_guest_setup (HP := HP') vm vmcs_junk in
    f ← virt_control_setup (HP := HP') ept_p f;
    f ← virt_host_setup (HP := HP') d f;
    match vmlaunch (c_events c) (vm_mem s) f with
    | None => Ok (c, Running f)
    | Some flags => _ ← check_flags flags; Ok (c, CameBack)
    end.
End virt_cpu.
