(* ===== verification/VirtCpuSpec.v ===== *)
(** * A guest is started as the manual asks

    The proofs about VirtCpu.v: the instructions of the extension are executed
    in states in which the manual says they succeed, and the control structure
    that is launched passes the checks of Virt.v. *)

From S2P Require Import Prelude Layout Bits Spinlock Physical Mmu Paging PagingSpec Kernel Bytes ByteMem.
From S2P Require Import Descriptors Percpu Vmcs Virt LinuxAbi VirtInit E820 Ept Linux LinuxSpec LinuxGuest GuestTables VirtCpu Malloc MallocProps.

Local Open Scope Z_scope.
Local Open Scope c_scope.

(** ** What the manual asks of the instructions *)

Section manual.
Context {HP : Processor} {HX : Vmx}.

Fixpoint last_cr0 (ev : list vmx_event) : option Z :=
  match ev with [] => None | WriteCr0 v :: _ => Some v | _ :: ev => last_cr0 ev end.
Fixpoint last_cr4 (ev : list vmx_event) : option Z :=
  match ev with [] => None | WriteCr4 v :: _ => Some v | _ :: ev => last_cr4 ev end.
Fixpoint last_msr (msr : Z) (ev : list vmx_event) : option Z :=
  match ev with
  | [] => None
  | WriteMsr r v :: ev => if r =? msr then Some v else last_msr msr ev
  | _ :: ev => last_msr msr ev
  end.
(** The region of VMX operation, when the CPU is in it. *)
Fixpoint vmx_root (ev : list vmx_event) : option Z :=
  match ev with [] => None | Vmxon p :: _ => Some p | _ :: ev => vmx_root ev end.

Definition revision : Z := u32 (rdmsr IA32_VMX_BASIC).
(** A page whose first word is the revision the processor reports. *)
Definition region_ok (m : gmap Z Z) (p : Z) : Prop := 0 < p < 2 ^ 36 ∧ p mod 4096 = 0 ∧ value_at 4 m p = revision.

(** [vmxon p] succeeds: the control registers have the fixed bits, the feature is switched on and locked,
    the region is in order, and the CPU is not in VMX operation. *)
Definition vmxon_allowed (ev : list vmx_event) (m : gmap Z Z) (p : Z) : Prop :=
  (∃ cr0, last_cr0 ev = Some cr0 ∧ fixed_ok (rdmsr IA32_VMX_CR0_FIXED0) (rdmsr IA32_VMX_CR0_FIXED1) cr0) ∧
  (∃ cr4, last_cr4 ev = Some cr4 ∧ fixed_ok (rdmsr IA32_VMX_CR4_FIXED0) (rdmsr IA32_VMX_CR4_FIXED1) cr4 ∧ Z.testbit cr4 13 = true) ∧
  (∃ f, last_msr IA32_FEATURE_CONTROL ev = Some f ∧ Z.testbit f 0 = true ∧ Z.testbit f 2 = true) ∧
  vmx_root ev = None ∧ region_ok m p.

(** [vmptrld p] succeeds: in VMX operation, with a region of its own that has been cleared. *)
Definition vmptrld_allowed (ev : list vmx_event) (m : gmap Z Z) (p : Z) : Prop :=
  (∃ q, vmx_root ev = Some q ∧ p ≠ q) ∧ Vmclear p ∈ ev ∧ region_ok m p.

Definition no_error (flags : Z) : Prop := flags .& FLAGS_CF = 0 ∧ flags .& FLAGS_ZF = 0.

(** The behaviour of the instructions that the manual documents. *)
Record manual : Prop := Manual {
  mn_lock v : wrmsr_faults IA32_FEATURE_CONTROL v = Z.testbit (rdmsr IA32_FEATURE_CONTROL) 0;
  mn_vmxon ev m p : vmxon_allowed ev m p → no_error (vmx_flags (Vmxon p :: ev) m);
  mn_vmptrld ev m p : vmptrld_allowed ev m p → no_error (vmx_flags (Vmptrld p :: ev) m);
  mn_cr4 : Z.testbit (rdmsr IA32_VMX_CR4_FIXED0) 13 = true
}.

Lemma check_flags_ok flags : no_error flags → check_flags flags = Ok tt.
Proof. intros [H1 H2]. unfold check_flags. by rewrite H1, H2. Qed.

End manual.

(** ** The regions *)

Section cpu.
Context `{HM : Mmu} {HP : Processor} {HX : Vmx} (f3 f2 f1 cr3 : Z).
Implicit Types s : vm phys.

Abbreviation tb := [cr3; f3; f2; f1].
Abbreviation good := (good f3 f2 f1 cr3).
Abbreviation moved := (moved f3 f2 f1 cr3).
Abbreviation held := (held f3 f2 f1 cr3).

(** A frame of the allocator. *)
Lemma alloc_any_ok s : good s →
  wp (on_frames s (alloc_phys_frame (vm_frames s))) (fun '(F, s') =>
    vm_mem s' = vm_mem s ∧ moved nowhere s s' ∧ frames_to nowhere s s' ∧ (F = 0 ∨ new_memory f3 f2 f1 cr3 s s' F 4096)).
Proof.
  intros Hg. pose proof (go_wf _ _ _ _ _ Hg) as Hw. unfold on_frames. wp_step.
  apply (wp_mono _ _ _ (alloc_phys_frame_ok _ Hw)). intros [r fr] Hcases. cbn [wp wpx].
  pose proof (end_bounds _ Hw) as Hb.
  destruct Hcases as [(n & -> & Hn & Hf & _ & Hu)|(-> & _ & Hu)]; destruct (upd_taken _ _ _ _ s fr _ Hg Hu) as (Hm & Hfr & Htk);
    (split; [done|split; [done|split; [done|]]]); [|by left]. right.
  assert (Hpage : ∀ pa, within (4096 * n) 4096 pa → pa / 4096 = n) by (unfold within; intros; dlia).
  assert (Hfree : ∀ pa, within (4096 * n) 4096 pa → free_page s (pa / 4096) = true) by (intros pa Hpa; rewrite Hpage by done; exact Hf).
  split; [split; [lia|split; [dlia|lia]]| | |exact Hfree].
  - apply (free_clear _ _ _ _ s); [done|lia|lia|dlia|exact Hfree].
  - apply Htk; [lia|]. intros pa Hpa. rewrite Hpage by done. apply Z.eqb_refl.
Qed.

Lemma st_words_ok l s i F k : good s → shows f1 s i F → clear tb F 4096 → 0 <= k → k + 4 * Z.of_nat (length l) < 4096 → Forall is_u32 l →
  ∃ s', st_words s (slot_va i + k) l = Ok s' ∧ wrote tb (within (F + k) (4 * Z.of_nat (length l))) s s' ∧
    ∀ j w, l !! j = Some w → value_at 4 (vm_mem s') (F + k + 4 * Z.of_nat j) = w.
Proof.
  intros Hg Hs Hc. revert s k Hg Hs. induction l as [|w l IH]; intros s k Hg Hs Hk Hn Hl; cbn [st_words length] in *.
  { exists s. split; [done|]. split; [apply wrote_refl|done]. }
  apply Forall_cons in Hl as [Hw Hl]. unfold is_u32 in Hw.
  destruct (stn_ok tb 4 s _ F 4096 k w (seen_small _ _ _ _ s i F Hg Hs) Hc Hk ltac:(lia) ltac:(lia)) as (s1 & E1 & W1 & V1).
  rewrite E1, bind_ok. change (2 ^ (8 * Z.of_nat 4)) with (2 ^ 32) in V1. rewrite Z.mod_small in V1 by lia.
  pose proof (good_wrote _ _ _ _ _ _ _ Hg W1) as Hg1. pose proof (moved_shows _ _ _ _ _ _ _ _ _ (wrote_moved _ _ _ _ _ _ _ Hg W1) Hs) as Hs1.
  rewrite (slot_next f1 s i F k 4 Hs) by lia.
  destruct (IH s1 (k + 4) Hg1 Hs1 ltac:(lia) ltac:(lia) Hl) as (s' & E' & W' & V'). exists s'. split; [done|]. split.
  - apply (wrote_trans _ _ s s1); [apply (wrote_weaken _ _ _ _ _ W1)|apply (wrote_weaken _ _ _ _ _ W')]; unfold within; intros; lia.
  - intros [|j] x Hx; cbn in Hx.
    + injection Hx as <-. change (4 * Z.of_nat 0) with 0. rewrite Z.add_0_r. etransitivity; [|exact V1].
      apply value_at_ext. intros b Hb. apply (wr_bytes _ _ _ _ W'). unfold within. lia.
    + pose proof (V' j x Hx) as Hv. replace (F + k + 4 * Z.of_nat (S j)) with (F + (k + 4) + 4 * Z.of_nat j) by lia. exact Hv.
Qed.

Definition mem_type_ok (mt : Z) : Prop := mt = 0 ∨ mt = PGT_PCD.
Lemma mem_type_flags mt : mem_type_ok mt → present (PGT_P .| PGT_RW .| mt) = true ∧ frame_of (PGT_P .| PGT_RW .| mt) = 0.
Proof. by intros [-> | ->]. Qed.

Lemma fill_region_ok s mt F words msg : good s → room f1 s 1 → mem_type_ok mt → clear tb F 4096 → 0 < F < 2 ^ 36 → F mod 4096 = 0 →
  (length words <= 2)%nat → Forall is_u32 words →
  wp (fill_region s mt F words msg) (fun s' => moved (within F 4096) s s' ∧ vm_frames s' = vm_frames s ∧
    ∀ j w, words !! j = Some w → value_at 4 (vm_mem s') (F + 4 * Z.of_nat j) = w).
Proof.
  intros Hg Hr Hmt Hc HF Ha Hl Hw. destruct (mem_type_flags mt Hmt) as [Hp Hf].
  assert (Hd : data f3 f2 f1 cr3 F) by (apply (clear_data _ _ _ _ F 4096); done || lia).
  unfold fill_region. wp_step. apply (wp_mono _ _ _ (vm_map_flags_opens f3 f2 f1 cr3 s F _ 0 Hg Hd Hr Hp Hf)).
  intros [va s1] (i & -> & Hva & Ho & _). unfold panic_if_zero. rewrite (proj2 (Z.eqb_neq _ _)), bind_ok by lia.
  pose proof (op_good _ _ _ _ _ _ _ _ Ho) as Hg1. pose proof (op_shows _ _ _ _ _ _ _ _ Ho) as Hs1.
  destruct (st_words_ok words s1 i F 0 Hg1 Hs1 Hc ltac:(lia) ltac:(lia) Hw) as (s2 & E & W & V). rewrite Z.add_0_r in E. rewrite E, bind_ok.
  destruct (close_moved _ _ _ _ _ s s1 s2 i F Hg Ho (wrote_moved _ _ _ _ _ _ _ Hg1 W)) as (r & s3 & E3 & M3 & Ef & Hb3).
  rewrite E3, bind_ok. cbn [wp wpx]. split; [apply (moved_weaken _ _ _ _ _ _ _ _ M3); unfold within; intros; lia|]. split.
  - rewrite Ef, (wrote_frames _ _ _ _ _ _ _ W). apply Ho.
  - intros j w Hj. specialize (V j w Hj). rewrite Z.add_0_r in V. etransitivity; [|exact V].
    assert (Hlt : (j < length words)%nat) by by eapply lookup_lt_Some.
    apply value_at_ext. intros k Hk. apply Hb3, (clear_byte _ _ _ _ F 4096); [done|unfold within; lia].
Qed.

(** *** What the guest needs is not touched *)

Section untouched.
Variables (s s' : vm phys) (W : Z → Prop) (g : vm_struct).
Hypothesis M : moved W s s'.
Hypothesis Hf : frames_to nowhere s s'.
Hypothesis HW : ∀ P n pa, taken s P n → within P n pa → ¬ W pa.

Lemma untouched_byte P n pa : held s P n → within P n pa → byte_at (vm_mem s') pa = byte_at (vm_mem s) pa.
Proof.
  intros Hh Hpa. apply (mv_bytes _ _ _ _ _ _ _ M); [apply (HW P n pa (he_taken _ _ _ _ _ _ _ Hh) Hpa)|].
  apply (clear_byte _ _ _ _ P n); [apply Hh|done].
Qed.

Lemma untouched_sects : linux_ready f3 f2 f1 cr3 s g → setup_sects s' g = setup_sects s g.
Proof.
  intros [_ _ _ _ Hi _ _ _ Hh _ _ _]. apply (untouched_byte (img_paddr g) (img_size g)); [exact Hi|].
  change (HDR + HDR_SIZE) with 616 in Hh. unfold within. change ZP_SETUP_SECTS with 497. lia.
Qed.

Lemma untouched_linux : linux_ready f3 f2 f1 cr3 s g → linux_ready f3 f2 f1 cr3 s' g.
Proof.
  intros Hl. pose proof (untouched_sects Hl) as Es. destruct Hl as [Hg Hr H0 Hc0 Hi Hd Hl Hap Hh Hk He Hp].
  split; [apply M|by apply (moved_room _ _ _ _ _ _ _ _ M)| |exact Hc0| | |exact Hl|exact Hap|exact Hh|by rewrite Es|exact He|exact Hp].
  - by apply (zero_kept nowhere s); [|intros []|].
  - by apply (held_nowhere _ _ _ _ s).
  - by apply (held_nowhere _ _ _ _ s).
Qed.

Lemma untouched_map : phys_wf (vm_frames s) → map_ready s g → map_ready s' g.
Proof.
  intros Hw [Hl Ht He Hi Hr]. pose proof (mv_end _ _ _ _ _ _ _ M) as Ee.
  assert (Hno : ∀ m, 0 <= m → page_free (vm_frames s) m = false → page_free (vm_frames s') m = false).
  { intros m Hm H0. destruct (page_free (vm_frames s') m) eqn:E; [|done]. destruct (Hf m Hm E) as [Hs|[]]. unfold free_page in Hs. congruence. }
  split; rewrite ?Ee; try done.
  - intros m Hm. apply Hno; [lia|]. by apply Hl.
  - intros m Hm. rewrite Ee in Hm. apply Hno; [|by apply Ht]. pose proof (wf_limit _ Hw). pose proof (wf_end _ Hw). dlia.
Qed.

Lemma untouched_setup : setup_ready f3 f2 f1 cr3 s g → setup_ready f3 f2 f1 cr3 s' g.
Proof.
  intros [Hl Hm Hr [HT HTt] Hlow Ha Hram]. pose proof (go_wf _ _ _ _ _ (lr_good _ _ _ _ _ _ Hl)) as Hw.
  split; [by apply untouched_linux|by apply untouched_map|by apply (moved_room _ _ _ _ _ _ _ _ M)| |exact Hlow|exact Ha|exact Hram].
  split; [exact HT|]. destruct HTt as [Hp Hft]. split; [done|].
  destruct (avail (vm_frames s') (TEST_FRAME / 4096)) eqn:E; [|done]. destruct (Hf (TEST_FRAME / 4096)) as [Hs|[]]; [by apply Z.div_pos|exact E|].
  unfold free_page in Hs. cbn in Hft. congruence.
Qed.
End untouched.

(** What a guest needs does not depend on its CPUs. *)
Lemma setup_ready_vcpu s g n l lk : setup_ready f3 f2 f1 cr3 s g → setup_ready f3 f2 f1 cr3 s (with_vcpu g n l lk).
Proof.
  intros [[Hg Hr H0 Hc0 Hi Hd Hl Hap Hh Hk He Hp] [M1 M2 M3 M4 M5] Hr5 HT Hlow Ha Hram].
  split; [by split|by split|exact Hr5|exact HT|exact Hlow|exact Ha|exact Hram].
Qed.

(** ** VMX operation *)

(** A region was made at [F]: a frame that was free, written and not mapped any more. *)
Record region_made s (F : Z) (words : list Z) s' : Prop := RegionMade {
  rm_pos : 0 < F < 2 ^ 36 ∧ F mod 4096 = 0;
  rm_moved : moved (within F 4096) s s'; rm_frames : frames_to nowhere s s';
  rm_free pa : within F 4096 pa → free_page s (pa / 4096) = true;
  rm_taken : taken s' F 4096; rm_clear : clear tb F 4096;
  rm_words j w : words !! j = Some w → value_at 4 (vm_mem s') (F + 4 * Z.of_nat j) = w
}.

Lemma region_intro s s1 s2 F words : new_memory f3 f2 f1 cr3 s s1 F 4096 → moved nowhere s s1 → frames_to nowhere s s1 →
  moved (within F 4096) s1 s2 → vm_frames s2 = vm_frames s1 →
  (∀ j w, words !! j = Some w → value_at 4 (vm_mem s2) (F + 4 * Z.of_nat j) = w) → region_made s F words s2.
Proof.
  intros [Hp Hc Ht Hfree] M1 F1 M2 F2 Hw. split; [lia| | |exact Hfree| |exact Hc|exact Hw].
  - apply (moved_trans _ _ _ _ _ s s1); [apply (moved_weaken _ _ _ _ nowhere); [done|by intros ? []]|done].
  - intros q Hq Hf. apply F1; [done|]. unfold free_page in *. by rewrite F2 in Hf.
  - apply (taken_nowhere s1); [by apply same_frames_to|done].
Qed.

Lemma region_apart s F words s' P n pa : region_made s F words s' → taken s P n → within P n pa → ¬ within F 4096 pa.
Proof. intros Hr Ht Hpa HF. destruct (Ht pa Hpa) as [_ H0]. by rewrite (rm_free _ _ _ _ Hr pa HF) in H0. Qed.

Lemma region_ready s F rev words s' : region_made s F (rev :: words) s' → rev = revision → region_ok (vm_mem s') F.
Proof.
  intros [Hp _ _ _ _ _ Hw] ->. split; [apply Hp|]. split; [apply Hp|]. pose proof (Hw 0%nat _ eq_refl) as E. by rewrite Z.add_0_r in E.
Qed.

Context (Hman : manual) (Hfix : fixed_bits_reported).

Definition enter_events (p cr0 cr4 : Z) (ev : list vmx_event) : list vmx_event :=
  Vmxon p :: WriteMsr IA32_FEATURE_CONTROL (rdmsr IA32_FEATURE_CONTROL .| (1 .| Z.shiftl 1 2)) ::
  WriteCr4 (fixed_cr4 cr4) :: WriteCr0 (fixed_cr0 cr0) :: ev.
Definition enter_messages (msg : string) : Prop := msg ∈ ["VMX is disabled"; "VMXON region allocation failed"].

Lemma enter_allowed p cr0 cr4 ev m : vmx_root ev = None → region_ok m p → no_error (vmx_flags (enter_events p cr0 cr4 ev) m).
Proof.
  intros Hroot Hp. apply (mn_vmxon Hman). split; [|split; [|split; [|split; [exact Hroot|exact Hp]]]].
  - eexists. split; [reflexivity|]. apply fixed_ok_set, Hfix.
  - eexists. split; [reflexivity|]. split; [apply fixed_ok_set, Hfix|].
    unfold fixed_cr4. rewrite Z.land_spec, Z.lor_spec, (mn_cr4 Hman), orb_true_r. apply (fx_cr4 Hfix), (mn_cr4 Hman).
  - eexists. split; [reflexivity|]. rewrite !Z.lor_spec. split; by rewrite orb_true_r.
Qed.

Lemma enter_vmx_ok cpu cr0 cr4 c : good (c_vm c) → room f1 (c_vm c) 1 → 0 <= cpu < Z.of_nat (length (vmxon_region c)) →
  mem_type_ok (vmcs_mem_type (c_virt c)) → vmcs_rev (c_virt c) = revision → vmx_root (c_events c) = None →
  wpx (enter_vmx cpu cr0 cr4 c) (fun c' => ∃ p s', Z.testbit (rdmsr IA32_FEATURE_CONTROL) 0 = false ∧
      c' = VCpu s' (c_virt c) (<[Z.to_nat cpu := p]> (vmxon_region c)) (enter_events p cr0 cr4 (c_events c)) (c_log c) ∧
      region_made (c_vm c) p [revision] s')
    enter_messages (Z.testbit (rdmsr IA32_FEATURE_CONTROL) 0 = true ∧ Z.testbit (rdmsr IA32_FEATURE_CONTROL) 2 = true).
Proof.
  intros Hg Hr Hcpu Hmt Hrev Hroot. unfold enter_vmx. rewrite !get_bit64_testbit by lia. rewrite !bind_ok.
  rewrite (mn_lock Hman). destruct (Z.testbit (rdmsr IA32_FEATURE_CONTROL) 0) eqn:Elock.
  { destruct (Z.testbit (rdmsr IA32_FEATURE_CONTROL) 2); cbn; [by split|repeat constructor]. }
  cbn [Z.b2z Z.eqb negb andb]. wp_step. apply wp_wpx, (wp_mono _ _ _ (alloc_any_ok (c_vm c) Hg)).
  intros [p s1] (Em & M1 & F1 & Hnew). rewrite list_set_ok, bind_ok by done. unfold panic_if_zero.
  destruct Hnew as [->|Hnew]; [cbn; repeat constructor|]. pose proof (nm_pos _ _ _ _ _ _ _ _ Hnew) as Hpos.
  rewrite (proj2 (Z.eqb_neq p 0)), bind_ok by lia. wp_step.
  assert (Hu : Forall is_u32 [vmcs_rev (c_virt c)]).
  { apply Forall_cons. split; [|by apply Forall_nil_2]. rewrite Hrev. unfold is_u32, revision, u32. apply Z.mod_pos_bound. lia. }
  apply wp_wpx, (wp_mono _ _ _ (fill_region_ok s1 _ p [vmcs_rev (c_virt c)] "VMXON region mapping failed" (mv_good _ _ _ _ _ _ _ M1)
    (moved_room _ _ _ _ _ _ _ _ M1 Hr) Hmt (nm_clear _ _ _ _ _ _ _ _ Hnew) ltac:(lia) ltac:(lia) ltac:(cbn; lia) Hu)).
  intros s2 (M2 & F2 & Hw). rewrite Hrev in Hw. pose proof (region_intro _ s1 s2 p [revision] Hnew M1 F1 M2 F2 Hw) as Hreg.
  pose proof (enter_allowed p cr0 cr4 (c_events c) _ Hroot (region_ready _ _ _ _ _ Hreg eq_refl)) as Hok.
  apply check_flags_ok in Hok. fold (virt_check_error (enter_events p cr0 cr4 (c_events c)) s2) in Hok.
  change (Vmxon p :: _) with (enter_events p cr0 cr4 (c_events c)). rewrite Hok, bind_ok.
  cbn [wpx]. by exists p, s2.
Qed.

(** ** The control structure of the CPU *)

Definition make_messages (msg : string) : Prop := msg = "VMCS allocation failed"%string.

Lemma current_allowed p q ev m : vmx_root ev = Some q → p ≠ q → region_ok m p → no_error (vmx_flags (Vmptrld p :: Vmclear p :: ev) m).
Proof. intros Hq Hne Hp. apply (mn_vmptrld Hman). split; [by exists q|]. split; [apply elem_of_cons; by left|exact Hp]. Qed.

Lemma make_vmcs_ok c g q : good (c_vm c) → room f1 (c_vm c) 1 → lock_free (vm_lock g) → 0 <= vm_num_cpus g < Z.of_nat (length (vmcs_paddr g)) →
  mem_type_ok (vmcs_mem_type (c_virt c)) → vmcs_rev (c_virt c) = revision → vmx_root (c_events c) = Some q → taken (c_vm c) q 4096 →
  wpx (make_vmcs c g) (fun '(g', c') => ∃ p s' l,
      g' = with_vcpu g (u16 (vm_num_cpus g + 1)) (<[Z.to_nat (vm_num_cpus g) := p]> (vmcs_paddr g)) l ∧ lock_free l ∧
      c' = VCpu s' (c_virt c) (vmxon_region c) (Vmptrld p :: Vmclear p :: c_events c) (c_log c) ∧
      region_made (c_vm c) p [revision; 0] s')
    make_messages False.
Proof.
  intros Hg Hr Hl Hid Hmt Hrev Hroot Hq. unfold make_vmcs. rewrite (spin_lock_free _ Hl), bind_ok. cbv zeta. wp_step.
  apply wp_wpx, (wp_mono _ _ _ (alloc_any_ok (c_vm c) Hg)).
  intros [p s1] (Em & M1 & F1 & Hnew). rewrite list_set_ok, bind_ok by done. unfold panic_if_zero.
  destruct Hnew as [->|Hnew]; [done|]. pose proof (nm_pos _ _ _ _ _ _ _ _ Hnew) as Hpos.
  rewrite (proj2 (Z.eqb_neq p 0)), bind_ok by lia. wp_step.
  assert (Hu : Forall is_u32 [vmcs_rev (c_virt c); 0]).
  { apply Forall_cons. split; [|apply Forall_singleton; done]. rewrite Hrev. unfold is_u32, revision, u32. apply Z.mod_pos_bound. lia. }
  apply wp_wpx, (wp_mono _ _ _ (fill_region_ok s1 _ p [vmcs_rev (c_virt c); 0] "VMCS mapping failed" (mv_good _ _ _ _ _ _ _ M1)
    (moved_room _ _ _ _ _ _ _ _ M1 Hr) Hmt (nm_clear _ _ _ _ _ _ _ _ Hnew) ltac:(lia) ltac:(lia) ltac:(cbn; lia) Hu)).
  intros s2 (M2 & F2 & Hw). rewrite Hrev in Hw. pose proof (region_intro _ s1 s2 p [revision; 0] Hnew M1 F1 M2 F2 Hw) as Hreg.
  assert (Hne : p ≠ q).
  { intros ->. apply (region_apart _ _ _ _ q 4096 q Hreg Hq); unfold within; lia. }
  pose proof (current_allowed p q (c_events c) _ Hroot Hne (region_ready _ _ _ _ _ Hreg eq_refl)) as Hok.
  apply check_flags_ok in Hok. fold (virt_check_error (Vmptrld p :: Vmclear p :: c_events c) s2) in Hok. rewrite Hok, bind_ok.
  cbn [wpx]. exists p, s2, (spin_unlock (Spinlock (u16 (next (vm_lock g) + 1)) (owner (vm_lock g)))).
  split; [done|]. split; [by apply (lock_cycle_free (vm_lock g))|]. by split.
Qed.

(** A region is made beside what the guest needs. *)
Lemma region_setup s F words s' g : region_made s F words s' → setup_ready f3 f2 f1 cr3 s g →
  setup_ready f3 f2 f1 cr3 s' g ∧ setup_sects s' g = setup_sects s g ∧
  ∀ pa, within (img_paddr g) (img_size g) pa ∨ within (extra_paddr g) (extra_size g) pa → byte_at (vm_mem s') pa = byte_at (vm_mem s) pa.
Proof.
  intros Hr Hs. pose proof (sr_linux _ _ _ _ _ _ Hs) as Hl. pose proof (rm_moved _ _ _ _ Hr) as M. pose proof (rm_frames _ _ _ _ Hr) as Hf.
  assert (HW : ∀ P n pa, taken s P n → within P n pa → ¬ within F 4096 pa) by (intros P n pa; by apply region_apart with (s' := s') (words := words)).
  split; [exact (untouched_setup s s' _ g M Hf HW Hs)|]. split; [exact (untouched_sects s s' _ g M HW Hl)|].
  intros pa [Hpa|Hpa]; [exact (untouched_byte s s' _ M HW _ _ pa (lr_image _ _ _ _ _ _ Hl) Hpa)|exact (untouched_byte s s' _ M HW _ _ pa (lr_ramdisk _ _ _ _ _ _ Hl) Hpa)].
Qed.

(** The image that was loaded is the one that was there before the regions were made. *)
Lemma set_up_source s s1 g zf K C R t eptp g' s' : linux_ready f3 f2 f1 cr3 s g → setup_sects s1 g = setup_sects s g →
  (∀ pa, within (img_paddr g) (img_size g) pa ∨ within (extra_paddr g) (extra_size g) pa → byte_at (vm_mem s1) pa = byte_at (vm_mem s) pa) →
  guest_set_up f3 f2 f1 cr3 s1 g zf K C R t eptp g' s' → guest_set_up f3 f2 f1 cr3 s g zf K C R t eptp g' s'.
Proof.
  intros Hl Es Eb [Eg Hg Hroot Hlow Him Htab Hent Htk Hv]. rewrite Es in Eg, Htk. split; [exact Eg|exact Hg|exact Hroot|exact Hlow| |exact Htab|exact Hent|exact Htk|].
  - apply (image_source s s1); [exact Es|apply Hl|apply Hl|exact Eb|exact Him].
  - rewrite Es in Hv. exact Hv.
Qed.

(** ** The whole *)

(** What a CPU with a guest needs: the guest is [g], its lock is free and it has a virtual CPU left,
    its memory is ready for [virt_pg_table_setup], and the CPU is not in VMX operation. *)
Record cpu_ready (cpu id : Z) (c : vcpu) (g : vm_struct) : Prop := CpuReady {
  cp_vm : cpu_to_vm (c_virt c) !! Z.to_nat cpu = Some id; cp_cpu : 0 <= cpu < Z.of_nat (length (vmxon_region c));
  cp_guest : vm_structs (c_virt c) !! Z.to_nat id = Some g; cp_id : 0 <= id ∧ id ≠ VM_NONE;
  cp_lock : lock_free (vm_lock g); cp_cpus : 0 <= vm_num_cpus g < Z.of_nat (length (vmcs_paddr g));
  cp_entry : is_u32 (entry_point g);
  cp_type : mem_type_ok (vmcs_mem_type (c_virt c)) ∧ vmcs_rev (c_virt c) = revision;
  cp_outside : vmx_root (c_events c) = None;
  cp_setup : setup_ready f3 f2 f1 cr3 (c_vm c) g
}.

(** The state in which the guest is loaded: the CPU is in VMX operation and the control structure has been made. *)
Definition load_state (cpu cr0 cr4 : Z) (c : vcpu) (g g1 : vm_struct) (c2 : vcpu) : Prop :=
  ∃ c1, enter_vmx cpu cr0 cr4 c = Ok c1 ∧ make_vmcs c1 g = Ok (g1, c2).

(** The table of the memory map is too small for what the allocator has to give in that state. *)
Definition start_overflows (cpu cr0 cr4 : Z) (c : vcpu) (g : vm_struct) : Prop :=
  ∃ g1 c2, load_state cpu cr0 cr4 c g g1 c2 ∧ setup_overflows (c_vm c2) g1.

(** The guest is launched: with the region [p] the CPU is in VMX operation, the structure [f] in the
    page [q] is its current one, and the memory is that of [virt_pg_table_setup]. *)
Record launched (base cpu id cr0 cr4 : Z) (c : vcpu) (g : vm_struct) (c' : vcpu) (f : vmcs) : Prop := Launched {
  la_lock : Z.testbit (rdmsr IA32_FEATURE_CONTROL) 0 = false;
  la_state : ∃ p q, p ≠ q ∧ vmxon_region c' = <[Z.to_nat cpu := p]> (vmxon_region c) ∧
    c_events c' = Vmptrld q :: Vmclear q :: enter_events p cr0 cr4 (c_events c) ∧
    ∃ eptp g' l zf K C R t, lock_free l ∧
      guest_set_up f3 f2 f1 cr3 (c_vm c) (with_vcpu g (u16 (vm_num_cpus g + 1)) (<[Z.to_nat (vm_num_cpus g) := q]> (vmcs_paddr g)) l)
        zf K C R t eptp g' (c_vm c') ∧
      c_virt c' = with_vms (c_virt c) (<[Z.to_nat id := g']> (vm_structs (c_virt c))) ∧
      (∃ g1 c2, load_state cpu cr0 cr4 c g g1 c2 ∧ map_handed (c_vm c2) g1 R t eptp (c_vm c')) ∧
      vm_entry_ok (HP := with_control_regs HP (fixed_cr0 cr0) (fixed_cr4 cr4)) vmcs_junk g' eptp base f
}.

(** A launch the processor refuses, although the structure is in order. *)
Definition launch_refused (base cpu id cr0 cr4 : Z) (c : vcpu) (g : vm_struct) (msg : string) : Prop :=
  ∃ c' f flags, launched base cpu id cr0 cr4 c g c' f ∧ vmlaunch (c_events c') (vm_mem (c_vm c')) f = Some flags ∧ check_flags flags = Panic msg.

Definition start_messages (base cpu id cr0 cr4 : Z) (c : vcpu) (g : vm_struct) (msg : string) : Prop :=
  enter_messages msg ∨ make_messages msg ∨ setup_messages msg ∨ (¬ supported ∧ msg ∈ control_messages) ∨ launch_refused base cpu id cr0 cr4 c g msg.

Definition start_done (base cpu id cr0 cr4 : Z) (c : vcpu) (g : vm_struct) '((c', r) : vcpu * started) : Prop :=
  ∃ f, launched base cpu id cr0 cr4 c g c' f ∧
    match r with NoGuest => False | Running f' => f' = f | CameBack => ∃ flags, vmlaunch (c_events c') (vm_mem (c_vm c')) f = Some flags ∧ no_error flags end.

Context (Hcaps : caps_reported) (Hring : ring0_registers) (Hlong : long_mode) (Htr : reg_tr ≠ 0) (Hrsp : is_u64 reg_rsp ∧ reg_rsp + 4096 < 2 ^ 64).

(** The control registers that have been written. *)
Lemma fixed_regs_ok cr0 cr4 : Z.testbit cr4 5 = true → control_regs_ok (HP := with_control_regs HP (fixed_cr0 cr0) (fixed_cr4 cr4)).
Proof.
  intros Hp. pose proof (fx_range Hfix) as Hu.
  assert (Hland : ∀ v m, is_u64 (v .& rdmsr m)).
  { intros v m. rewrite Z.land_comm. specialize (Hu m). unfold is_u64 in *. rewrite <- (Z.mod_small (rdmsr m) (2 ^ 64)), <- Z.land_ones by lia.
    rewrite <- Z.land_assoc, (Z.land_comm (Z.ones 64)), Z.land_assoc, Z.land_ones by lia. apply Z.mod_pos_bound. lia. }
  split; [split; [apply Hland|apply fixed_ok_set, Hfix]|]. split; [split; [apply Hland|apply fixed_ok_set, Hfix]|].
  cbn [reg_cr4 with_control_regs]. unfold fixed_cr4. by rewrite Z.land_spec, Z.lor_spec, Hp, (lm_pae Hlong).
Qed.

(** The structure is filled and launched. *)
Lemma launch_ok (P : string → Prop) F d base cpu id cr0 cr4 c g c' (g' : vm_struct) eptp :
  get_gdt_tss_base d reg_tr = Ok base → canonical base → Z.testbit cr4 5 = true → is_u32 (entry_point g') → canonical (gdtr g') →
  0 < eptp < 2 ^ 36 → eptp mod 4096 = 0 →
  (∀ f, vm_entry_ok (HP := with_control_regs HP (fixed_cr0 cr0) (fixed_cr4 cr4)) vmcs_junk g' eptp base f → launched base cpu id cr0 cr4 c g c' f) →
  (∀ msg, ¬ supported ∧ msg ∈ control_messages ∨ launch_refused base cpu id cr0 cr4 c g msg → P msg) →
  let HP' := with_control_regs HP (fixed_cr0 cr0) (fixed_cr4 cr4) in
  wpx (f ← virt_control_setup (HP := HP') eptp (virt_guest_setup (HP := HP') g' vmcs_junk);
       f ← virt_host_setup (HP := HP') d f;
       match vmlaunch (c_events c') (vm_mem (c_vm c')) f with
       | None => Ok (c', Running f)
       | Some flags => _ ← check_flags flags; Ok (c', CameBack)
       end)
    (start_done base cpu id cr0 cr4 c g)
    P F.
Proof.
  intros Eb Hb Hpae Hrip Hgd Hep Hea Hdone HP0 HP'.
  assert (Hfix' : fixed_bits_reported (HP := HP')) by (destruct Hfix; by split).
  assert (Hcaps' : caps_reported (HP := HP')) by (destruct Hcaps; by split).
  assert (Hlong' : long_mode (HP := HP')) by (destruct Hlong; by split).
  destruct (vm_entry_setup (HP := HP') g' d vmcs_junk eptp base Hfix' Hcaps' Hrip Hgd ltac:(lia) Hea Hring Htr Hlong' (fixed_regs_ok cr0 cr4 Hpae)
    Eb Hb (proj1 Hrsp) (proj2 Hrsp)) as [Hyes Hno].
  assert (Hdec : supported (HP := HP') ∨ ¬ supported (HP := HP')).
  { unfold supported. repeat destruct (Z.testbit _ _); (left; by split_and!) || (right; by intros (?&?&?&?&?&?&?&?&?)). }
  destruct Hdec as [Hs|Hs].
  - destruct (Hyes Hs) as (f1' & f & E1 & E2 & Hok). rewrite E1, bind_ok, E2, bind_ok. pose proof (Hdone f Hok) as Hl.
    destruct (vmlaunch (c_events c') (vm_mem (c_vm c')) f) as [flags|] eqn:El.
    + unfold check_flags at 1. destruct (Z.eqb_spec (flags .& FLAGS_CF) 0) as [H1|H1]; cbn [negb].
      * destruct (Z.eqb_spec (flags .& FLAGS_ZF) 0) as [H2|H2]; cbn [negb].
        -- rewrite bind_ok. cbn [wpx]. exists f. split; [exact Hl|]. exists flags. split; [exact El|by split].
        -- cbn. apply HP0. right. exists c', f, flags. split; [exact Hl|]. split; [exact El|]. unfold check_flags. rewrite H1. cbn. by rewrite (proj2 (Z.eqb_neq _ _) H2).
      * cbn. apply HP0. right. exists c', f, flags. split; [exact Hl|]. split; [exact El|]. unfold check_flags. by rewrite (proj2 (Z.eqb_neq _ _) H1).
    + cbn [wpx]. by exists f.
  - destruct (Hno Hs) as (m & Hm & Em). rewrite Em. cbn. apply HP0. left. by split.
Qed.

Lemma virt_percpu_init_ok d base cpu id cr0 cr4 c g : cpu_ready cpu id c g → get_gdt_tss_base d reg_tr = Ok base → canonical base → Z.testbit cr4 5 = true →
  wpx (virt_percpu_init d cpu cr0 cr4 c) (start_done base cpu id cr0 cr4 c g) (start_messages base cpu id cr0 cr4 c g)
    ((Z.testbit (rdmsr IA32_FEATURE_CONTROL) 0 = true ∧ Z.testbit (rdmsr IA32_FEATURE_CONTROL) 2 = true) ∨ start_overflows cpu cr0 cr4 c g).
Proof.
  intros [Hvm Hcpu Hg Hid Hlk Hnum Hentry [Hmt Hrev] Hout Hset] Eb Hb Hpae. unfold virt_percpu_init.
  pose proof (sr_linux _ _ _ _ _ _ Hset) as Hlin. pose proof (lr_good _ _ _ _ _ _ Hlin) as Hgood.
  assert (Hroom : ∀ s, setup_ready f3 f2 f1 cr3 s g → room f1 s 1) by (intros s Hs; exact (room_less f1 s 5 1 ltac:(lia) (sr_room _ _ _ _ _ _ Hs))).
  rewrite (list_get_lookup _ _ _ (proj1 Hcpu) Hvm), bind_ok, (proj2 (Z.eqb_neq id VM_NONE) (proj2 Hid)).
  pose proof (enter_vmx_ok cpu cr0 cr4 c Hgood (Hroom _ Hset) Hcpu Hmt Hrev Hout) as Henter.
  destruct (enter_vmx cpu cr0 cr4 c) as [c1e|msg| |] eqn:Ee; cbn [wpx] in Henter; [|by left|by left|done]. rewrite bind_ok.
  destruct Henter as (p & s1 & Hlock & -> & Hr1). destruct (region_setup _ _ _ _ g Hr1 Hset) as (Hset1 & Es1 & Eb1).
  cbn [c_virt]. rewrite (list_get_lookup _ _ _ (proj1 Hid) Hg), bind_ok.
  set (c1 := VCpu s1 _ _ _ _) in *.
  pose proof (make_vmcs_ok c1 g p (lr_good _ _ _ _ _ _ (sr_linux _ _ _ _ _ _ Hset1)) (Hroom _ Hset1) Hlk Hnum Hmt Hrev eq_refl
    (rm_taken _ _ _ _ Hr1)) as Hmake.
  destruct (make_vmcs c1 g) as [[g1 c2]|msg| |] eqn:Ek; cbn [wpx] in Hmake; [|by right; left|done..]. rewrite bind_ok.
  assert (Hload : load_state cpu cr0 cr4 c g g1 c2) by (exists c1; by split).
  destruct Hmake as (q & s2 & l & -> & Hl & -> & Hr2). cbn [c_vm] in Hr2. destruct (region_setup _ _ _ _ g Hr2 Hset1) as (Hset2 & Es2 & Eb2).
  assert (Hne : p ≠ q).
  { intros ->. apply (region_apart _ _ _ _ q 4096 q Hr2 (rm_taken _ _ _ _ Hr1)); unfold within; lia. }
  set (g1 := with_vcpu g _ _ l). pose proof (setup_ready_vcpu s2 g _ _ l Hset2 : setup_ready f3 f2 f1 cr3 s2 g1) as Hset2'. cbn [c_vm c_log]. wp_step.
  apply (wpx_mono _ _ _ _ _ _ _ (virt_pg_table_setup_ok f3 f2 f1 cr3 s2 g1 (c_log c) Hset2')); [|by right; right; left|intros Ho; right; eexists _, _; split; [exact Hload|exact Ho]].
  intros [[[eptp g'] log'] s'] (zf & K & C & R & t & Hup & Hmap).
  assert (Hup0 : guest_set_up f3 f2 f1 cr3 (c_vm c) g1 zf K C R t eptp g' s').
  { apply (set_up_source (c_vm c) s2); [exact (sr_linux _ _ _ _ _ _ (setup_ready_vcpu _ g _ _ l Hset))|exact (eq_trans Es2 Es1)| |exact Hup].
    intros pa Hpa. rewrite (Eb2 pa Hpa). exact (Eb1 pa Hpa). }
  cbn [c_virt]. change (c_virt c1) with (c_virt c). rewrite list_set_ok, bind_ok by (apply lookup_lt_Some in Hg; lia). cbv zeta. cbn [c_events c_vm vmxon_region].
  destruct (gs_root _ _ _ _ _ _ _ _ _ _ _ _ _ _ Hup0) as (Hep & Hea & _).
  set (c3 := VCpu s' _ _ _ log').
  apply (launch_ok _ _ d base cpu id cr0 cr4 c g c3 g' eptp Eb Hb Hpae); [| |exact Hep|exact Hea| |intros msg Hm; right; right; right; exact Hm].
  - by rewrite (gs_guest _ _ _ _ _ _ _ _ _ _ _ _ _ _ Hup0).
  - rewrite (gs_guest _ _ _ _ _ _ _ _ _ _ _ _ _ _ Hup0). destruct (gs_low _ _ _ _ _ _ _ _ _ _ _ _ _ _ Hup0) as [_ HC]. left. cbn. lia.
  - intros f Hf. split; [exact Hlock|]. exists p, q. split; [exact Hne|]. split; [reflexivity|]. split; [reflexivity|].
    exists eptp, g', l, zf, K, C, R, t. split; [exact Hl|]. split; [exact Hup0|]. split; [reflexivity|]. split; [|exact Hf].
    eexists _, _. split; [exact Hload|exact Hmap].
Qed.
End cpu.

(** ** Properties *)

Section property.
Context `{HM : Mmu} {HP : Processor} {HX : Vmx} (f3 f2 f1 cr3 : Z).

(** C8: A CPU that a guest was assigned to, [virt_percpu_init] starts it. Each
    instruction of the extension is executed where the manual says that it
    succeeds: [vmxon] after the fixed bits and the feature register are written, on a free
    frame that holds the revision; [vmptrld] on another one, cleared before. The guest is
    loaded and its page tables built in the memory as it was
    when the CPU started, with the memory map of what the allocator has to give at that
    point; and the control structure passes the checks of a VM entry with
    those tables: the guest state, the controls, and the host state, with every field of the host the value of its
    register (CR0 and CR4 as they have been written), provided that the fields for
    SYSENTER, that the code never writes, hold canonical addresses. It leaves by a general protection only when the feature register
    is locked with the extension enabled, or by the table of the memory map when the allocator has too
    many pieces at that point of this call; and stops only
    with a message of its steps; a message after [vmlaunch] means that the processor refused a
    structure that is in order. A CPU with no guest does nothing. *)
Theorem virt_percpu_init_spec d base cpu id cr0 cr4 c g :
  manual → fixed_bits_reported → caps_reported → ring0_registers → long_mode → reg_tr ≠ 0 → is_u64 reg_rsp ∧ reg_rsp + 4096 < 2 ^ 64 →
  cpu_ready f3 f2 f1 cr3 cpu id c g → get_gdt_tss_base d reg_tr = Ok base → canonical base → Z.testbit cr4 5 = true →
  wpx (virt_percpu_init d cpu cr0 cr4 c) (start_done f3 f2 f1 cr3 base cpu id cr0 cr4 c g) (start_messages f3 f2 f1 cr3 base cpu id cr0 cr4 c g)
    ((Z.testbit (rdmsr IA32_FEATURE_CONTROL) 0 = true ∧ Z.testbit (rdmsr IA32_FEATURE_CONTROL) 2 = true) ∨ start_overflows cpu cr0 cr4 c g) ∧
  ∀ idle, 0 <= idle → cpu_to_vm (c_virt c) !! Z.to_nat idle = Some VM_NONE → virt_percpu_init d idle cr0 cr4 c = Ok (c, NoGuest).
Proof.
  intros Hman Hfix Hcaps Hring Hlong Htr Hrsp Hc Eb Hb Hpae. split; [by apply virt_percpu_init_ok|].
  intros idle Hi Hn. unfold virt_percpu_init. by rewrite (list_get_lookup _ _ _ Hi Hn).
Qed.
End property.

(** ** Witness *)

(** A processor whose [vmxon] and [vmptrld] fail outside the states they are for. *)
Definition sample_vmx : Vmx := {|
  wrmsr_faults msr v := (msr =? IA32_FEATURE_CONTROL) && Z.testbit (sample_msrs IA32_FEATURE_CONTROL) 0;
  vmx_flags ev m := match ev with
    | Vmxon p :: ev => match vmx_root ev with Some _ => FLAGS_CF | None => if value_at 4 m p =? 4 then 0 else FLAGS_CF end
    | Vmptrld p :: ev => match vmx_root ev with None => FLAGS_CF | Some q => if p =? q then FLAGS_ZF else 0 end
    | _ => 0
    end;
  vmlaunch ev m c := match ev with Vmptrld _ :: _ => if vmfield c VMCS_HOST_TR_SEL =? 0 then Some FLAGS_ZF else None | _ => Some FLAGS_CF end;
  vmcs_junk := ∅
|}.

Lemma sample_manual : manual (HP := sample_processor) (HX := sample_vmx).
Proof.
  split; [done| | |reflexivity].
  - intros ev m p (_ & _ & _ & Hr & _ & _ & Hv). cbn [vmx_flags sample_vmx]. rewrite Hr, Hv. done.
  - intros ev m p ((q & Hq & Hne) & _ & _). cbn [vmx_flags sample_vmx]. rewrite Hq, (proj2 (Z.eqb_neq p q) Hne). done.
Qed.

Lemma sample_ring : ring0_registers (HP := sample_processor).
Proof.
  split; [|done]. intros s Hs. rewrite !elem_of_cons in Hs.
  destruct Hs as [->|[->|[->|[->|[->|[->|[->|[]%elem_of_nil]]]]]]]; (split; [unfold is_u16; cbn; lia|reflexivity]).
Qed.

Definition start_guest : vm_struct := with_vcpu load_guest 0 (replicate 16 0) SPINLOCK_UNLOCKED.
Definition start_cpu (h : heap) : vcpu := VCpu load_vm (VirtState h [start_guest] [VM_NONE; 0] 0 4) [0; 0] [] [].
Lemma start_ready h : cpu_ready (HP := sample_processor) 0x301000 0x302000 0x13F000 0x300000 1 0 (start_cpu h) start_guest.
Proof.
  split; [done|done|done|done|exact lock_free_unlocked|done|done|split; [by left|reflexivity]|done|].
  apply setup_ready_vcpu, load_setup_ready.
Qed.

Definition start_result (h : heap) : outcome (vcpu * started) :=
  virt_percpu_init (HP := sample_processor) (HX := sample_vmx) sample_gdt 1 0x80010031 0x20 (start_cpu h).
Lemma start_runs h : match start_result h with
  | Ok (c, Running f) => bool_decide (vmxon_region c = [0; 0x400000]) && (vmfield f VMCS_GUEST_RIP =? 0x100000)
  | _ => false
  end = true.
Proof. vm_compute. reflexivity. Qed.

(** CPU 1 starts guest 0: the region of the CPU is the page at 4 MB. *)
Lemma virt_percpu_init_spec_witness : ∃ c f, start_result sample_heap = Ok (c, Running f) ∧
  vmxon_region c = [0; 0x400000] ∧ vmfield f VMCS_GUEST_RIP = 0x100000 ∧ vmfield f VMCS_HOST_TR_BASE = 0xA01080.
Proof.
  pose proof (start_runs sample_heap) as Hrun.
  destruct (virt_percpu_init_spec (HP := sample_processor) (HX := sample_vmx) 0x301000 0x302000 0x13F000 0x300000 sample_gdt 0xA01080 1 0 0x80010031 0x20
    (start_cpu sample_heap) start_guest sample_manual sample_fixed sample_caps sample_ring sample_long ltac:(discriminate) ltac:(unfold is_u64; cbn; lia)
    (start_ready sample_heap) ltac:(vm_compute; reflexivity) ltac:(left; lia) eq_refl) as [H _].
  fold (start_result sample_heap) in H. destruct (start_result sample_heap) as [[c r]| | |]; [|discriminate Hrun..].
  destruct H as (f & Hl & Hr). destruct r as [|f'|]; [discriminate Hrun| |discriminate Hrun]. rewrite <- Hr in Hl.
  apply andb_true_iff in Hrun as [H1 H2]. apply bool_decide_eq_true in H1. apply Z.eqb_eq in H2.
  exists c, f'. split; [reflexivity|]. split; [exact H1|]. split; [exact H2|].
  destruct (la_state _ _ _ _ _ _ _ _ _ _ _ _ _ Hl) as (p & q & _ & _ & _ & eptp & g' & l & zf & K & C & R & t & _ & _ & _ & _ & He).
  destruct (ve_values _ _ _ _ _ He) as (_ & _ & (_ & _ & Hbase & _) & _). exact Hbase.
Defined.
