(* ===== verification/MallocInit.v ===== *)
(** * The pool of the heap

    [malloc_init] of [kernel/mm/malloc.c] as a whole: the frames it takes, the two
    large pages it maps them with, and the heap it leaves (MallocProps.v). *)

From S2P Require Import Prelude Layout Bits Spinlock Physical Mmu Paging PagingSpec Kernel Screen CList Malloc Buddy MallocSpec MallocProps.

Local Open Scope Z_scope.
Local Open Scope c_scope.

(** ** The low part of the page directory *)

(** The entry of the page directory that leads to the page table of the window. *)
Definition PT_SLOT : Z := 5.

Section low.
Context `{HM : Mmu} {A : Type} `{HA : FrameAllocator A}.
Implicit Types s : vm A.

Lemma table_entry_absent e f : table_entry e f → (Z.land e PGT_P =? 0) = false.
Proof. intros (Hp & _). by rewrite absent_land, Hp. Qed.

(** A table that is there is kept. *)
Lemma ensure_table_kept s tbl f i g msg : translate (vm_mem s) (vm_cr3 s) (slot tbl i) = Some (f + 8 * i) →
  table_entry (entry (vm_mem s) f i) g → ensure_table s tbl i msg = Ok s.
Proof.
  intros Ht Hg. unfold ensure_table, vld. rewrite Ht, bind_ok. change (ldw (vm_mem s) (f + 8 * i)) with (entry (vm_mem s) f i).
  by rewrite (table_entry_absent _ _ Hg).
Qed.

Section one_state.
Context s (f3 f2 f1 : Z) (Hk : kernel_pt s f3 f2 f1).

(** Writes to the entries below keep the window. *)
Lemma kernel_pt_low m' inv fr lo hi g : 0 <= lo → hi <= PT_SLOT → table_upd (vm_mem s) m' f2 lo hi g →
  kernel_pt (done_vm s m' inv fr) f3 f2 f1.
Proof using Hk.
  unfold PT_SLOT. intros Hlo Hhi Hu. pose proof (aligned_f2 s f3 f2 f1 Hk) as Ha. destruct Hk as [[Hp H1] [? ?] ? Hl]. split; try done.
  - split; cbn [vm_mem vm_cr3 done_vm].
    + apply (pdt_at_outside f2 (vm_mem s)); try done. apply (table_upd_outside (vm_mem s) m' f2 lo hi g); [lia|lia|done].
    + rewrite (table_upd_entry (vm_mem s) m' f2 lo hi g) by (done || (change (idx2 KERNEL_MAPPING_BASE) with 5; lia)). exact H1.
  - by apply lock_cycle_free.
Qed.

Lemma first_gigabyte va : 0 <= va < 2 ^ 30 → is_u64 va ∧ idx4 va = 0 ∧ idx3 va = 0.
Proof using Type. intros Hv. split; [unfold is_u64; lia|]. unfold idx4, idx3. split; dlia. Qed.

(** Mapping a large page of the first gigabyte whose entry is free. *)
Lemma map_large_low va frame flags : 0 <= va < 2 ^ 30 → slot_free (vm_mem s) f2 (idx2 va) →
  vm_map_large_page_unrestricted s frame flags va =
    Ok (done_vm s (<[f2 + 8 * idx2 va := Z.lor frame flags]> (vm_mem s)) (vm_invlpg s) (vm_frames s)).
Proof using Hk.
  intros Hva Hfree. destruct (first_gigabyte va Hva) as (Hu & E4 & E3). destruct Hk as [[[[Hr H3] H2] _] _ _ Hl].
  change (idx4 KERNEL_MAPPING_BASE) with 0 in *. change (idx3 KERNEL_MAPPING_BASE) with 0 in *.
  assert (Hp : pdt_at (vm_mem (locked_vm s)) (vm_cr3 (locked_vm s)) va f3 f2) by (split; [split|]; rewrite ?E4, ?E3; done).
  pose proof (idx_bounds va) as (I4 & I3 & I2 & _).
  unfold vm_map_large_page_unrestricted. rewrite lock_vm_bind by exact Hl.
  unfold ensure_pdpt. rewrite get_pml4t, bind_ok, pml4t_entry_idx.
  rewrite (ensure_table_kept (locked_vm s) _ (vm_cr3 s) _ f3) by (apply (translate_pml4t _ _ _ Hr I4) || (rewrite E4; exact H3)). rewrite bind_ok.
  unfold ensure_pdt. rewrite get_pdpt by exact Hu. rewrite bind_ok, pdpt_entry_idx.
  rewrite (ensure_table_kept (locked_vm s) _ f3 _ f2) by (apply (translate_pdpt _ _ _ _ _ (proj1 Hp) I3) || (rewrite E3; exact H2)). rewrite bind_ok.
  rewrite get_pdt by exact Hu. rewrite bind_ok, pdt_entry_idx.
  pose proof (set_free_slot_ok (locked_vm s) _ f2 (idx2 va) (frame .| flags) False (translate_pdt _ _ _ _ _ _ Hp I2) (or_introl Hfree)) as Hw.
  destruct (set_free_slot _ _ _ _) as [s'|m| |]; [|destruct Hw as [_ []]|destruct Hw..]. destruct Hw as [_ ->].
  reflexivity.
Qed.
End one_state.
End low.

(** ** The whole function *)

(** The two entries of the pool. *)
Definition POOL_LO : Z := 3.
Definition pool_entry (paddr k : Z) : Z := Z.lor (paddr + 2 ^ 21 * (k - POOL_LO)) (PGT_P .| PGT_RW .| PGT_XD .| PDT_PS).

Section pool.
Context {HM : Mmu}.
Implicit Types v : vm phys.

(** What [malloc_init] leaves: the pool in frames of its own, from [n] on, and mapped from [MALLOC_BASE] on. *)
Record pool_made (v v' : vm phys) (h h' : heap) (f3 f2 f1 n : Z) : Prop := {
  pm_kernel : kernel_pt v' f3 f2 f1;
  pm_phys : phys_wf (vm_frames v');
  pm_cr3 : vm_cr3 v' = vm_cr3 v;
  pm_free q : n <= q < n + 1024 → page_free (vm_frames v) q = true;
  pm_taken q : 0 <= q → page_free (vm_frames v') q = page_free (vm_frames v) q && negb ((n <=? q) && (q <? n + 1024));
  pm_mapped o : 0 <= o < 2 ^ 22 → translate (vm_mem v') (vm_cr3 v') (MALLOC_BASE + o) = Some (4096 * n + o);
  pm_other a : a ≠ f2 + 8 * 3 → a ≠ f2 + 8 * 4 → ldw (vm_mem v') a = ldw (vm_mem v) a;
  pm_heap : heap_rep h' initial_blocks initial_lists;
  pm_lock : mm_lock h' = mm_lock h
}.

Lemma pool_frame paddr k : paddr mod 2 ^ 21 = 0 → 0 <= paddr → paddr + 2 ^ 22 <= 2 ^ 52 → 3 <= k < 5 →
  let e := pool_entry paddr k in present e = true ∧ page_size e = true ∧ Z.land e 0x1FE000 = 0 ∧ large_frame_of e = paddr + 2 ^ 21 * (k - 3).
Proof.
  intros Ha H0 H1 Hk e. unfold e, pool_entry, POOL_LO.
  destruct (large_frame_of_page (paddr + 2 ^ 21 * (k - 3)) (PGT_P .| PGT_RW .| PGT_XD .| PDT_PS)) as [E1 E2];
    [rewrite Zplus_mod, Ha, Z.mul_comm, Z_mod_mult; reflexivity|lia|reflexivity|reflexivity|].
  split; [|split; [|split; [exact E2|exact E1]]].
  - rewrite present_lor. apply orb_true_r.
  - unfold page_size. rewrite Z.lor_spec. apply orb_true_r.
Qed.

Lemma map_pool_ok v f3 f2 f1 paddr : kernel_pt v f3 f2 f1 → slot_free (vm_mem v) f2 3 → slot_free (vm_mem v) f2 4 →
  0 <= paddr → paddr + 2 ^ 22 <= 2 ^ 52 →
  wp (while (map_pool_step 2) (0, paddr, MALLOC_BASE, v)) (fun v' => kernel_pt v' f3 f2 f1 ∧ vm_frames v' = vm_frames v ∧ vm_cr3 v' = vm_cr3 v ∧
    table_upd (vm_mem v) (vm_mem v') f2 3 5 (pool_entry paddr)).
Proof.
  intros Hk F3 F4 H0 H1. apply (wp_while _ (fun '(i, pa, va, v1) => 0 <= i <= 2 ∧ pa = paddr + 2 ^ 21 * i ∧ va = MALLOC_BASE + 2 ^ 21 * i ∧
      kernel_pt v1 f3 f2 f1 ∧ vm_frames v1 = vm_frames v ∧ vm_cr3 v1 = vm_cr3 v ∧ table_upd (vm_mem v) (vm_mem v1) f2 3 (3 + i) (pool_entry paddr))
    (fun st => 2 - st.1.1.1)).
  - intros [[[i pa] va] v1] (Hi & -> & -> & Hk1 & Hf & Hc & Hu). unfold map_pool_step. destruct (Z.ltb_spec i 2).
    + assert (Ei : idx2 (MALLOC_BASE + 2 ^ 21 * i) = 3 + i) by (change MALLOC_BASE with 0x600000; unfold idx2; dlia).
      rewrite (map_large_low v1 f3 f2 f1 Hk1); [|change MALLOC_BASE with 0x600000; lia|].
      2: { rewrite Ei. unfold slot_free. rewrite (table_upd_entry _ _ _ _ _ _ _ Hu) by lia.
           destruct (Z.eq_dec i 0) as [->|]; [exact F3|]. replace (3 + i) with 4 by lia. exact F4. }
      rewrite bind_ok, Ei. cbn [wp wpx fst]. change LARGE_PG_SIZE with (2 ^ 21).
      assert (Hsnoc : table_upd (vm_mem v) (<[f2 + 8 * (3 + i) := Z.lor (paddr + 2 ^ 21 * i) (PGT_P .| PGT_RW .| PGT_XD .| PDT_PS)]> (vm_mem v1))
        f2 3 (3 + i + 1) (pool_entry paddr)).
      { apply table_upd_snoc; [lia| |exact Hu]. unfold pool_entry, POOL_LO. by replace (3 + i - 3) with i by lia. }
      split; [|lia]. split; [lia|]. split; [rewrite u64_id; [lia|unfold is_u64; lia]|].
      split; [rewrite u64_id; [lia|unfold is_u64; change MALLOC_BASE with 0x600000; lia]|].
      split; [|split; [exact Hf|split; [exact Hc|by replace (3 + (i + 1)) with (3 + i + 1) by lia]]].
      apply (kernel_pt_low v1 f3 f2 f1 Hk1 _ _ _ (3 + i) (3 + i + 1) (fun _ => Z.lor (paddr + 2 ^ 21 * i) (PGT_P .| PGT_RW .| PGT_XD .| PDT_PS)));
        [lia|unfold PT_SLOT; lia|apply table_upd_one].
    + cbn [wp wpx]. by replace 5 with (3 + i) by lia.
  - split; [lia|]. split; [lia|]. split; [lia|]. split; [exact Hk|]. split; [done|]. split; [done|apply table_upd_nil].
  - cbn. lia.
Qed.

Lemma malloc_init_total v h f3 f2 f1 : kernel_pt v f3 f2 f1 → phys_wf (vm_frames v) → heap_start h →
  slot_free (vm_mem v) f2 3 → slot_free (vm_mem v) f2 4 →
  wpx (malloc_init v h) (fun '(v', h') => ∃ n, aligned_run (vm_frames v) 1024 9 n ∧
      (∀ n', aligned_run (vm_frames v) 1024 9 n' → n <= n') ∧ pool_made v v' h h' f3 f2 f1 n)
    (fun msg => msg = "out of physical memory"%string ∧ ∀ n, ¬ aligned_run (vm_frames v) 1024 9 n) False.
Proof.
  intros Hk Hp Hs F3 F4. unfold malloc_init. change (u8 (BUDDY_MAX_ORDER - BUDDY_MIN_ORDER + 1)) with BUDDY_ENTRIES. cbv zeta.
  destruct (proj1 (wp_ok _ _) (init_buckets_ok h Hs)) as ([m bs l base lk sc] & -> & Hm & Hb & Hl & _). rewrite bind_ok.
  cbn [h_mem h_bsystem h_buckets mm_lock h_screen] in *.
  change (Z.shiftl 1 (BUDDY_MAX_ORDER - PG_BITS)) with 1024. change LARGE_PG_SIZE with (2 ^ (9 + 12)).
  destruct (proj1 (wp_ok _ _) (alloc_phys_frames_aligned_ok (vm_frames v) 1024 9 Hp ltac:(lia) ltac:(lia))) as ([r p] & -> & Hr). rewrite bind_ok.
  destruct Hr as [(n & -> & Hrun & Hlow & Hu)|(-> & Hno & _)]; [|cbn; split; [done|apply Hno; vm_compute; discriminate]].
  pose proof Hrun as ([q Hq] & Hfirst & Hlim & Hfree). pose proof (end_bounds _ Hp) as [He1 He2].
  assert (Hn : 256 <= n) by (unfold first_page in Hfirst; lia).
  destruct (Z.eqb_spec (4096 * n) 0); [lia|]. change (Z.shiftl 1 (BUDDY_MAX_ORDER - LARGE_PG_BITS)) with 2.
  set (v1 := Vm _ _ _ _ _). assert (Hk1 : kernel_pt v1 f3 f2 f1) by (destruct Hk; by split).
  destruct (proj1 (wp_ok _ _) (map_pool_ok v1 f3 f2 f1 (4096 * n) Hk1 F3 F4 ltac:(lia) ltac:(lia))) as (v2 & -> & Hk2 & Ef & Ec & Hupd). rewrite bind_ok.
  destruct (init_pool_ok m bs l base lk sc Hm Hb) as (m' & l' & -> & Hrep). cbn [wpx].
  exists n. split; [exact Hrun|]. split; [apply Hlow; vm_compute; discriminate|].
  split; [exact Hk2|rewrite Ef; apply Hu|exact Ec|exact Hfree|..].
  - intros x Hx. rewrite Ef. cbn [v1 vm_frames]. rewrite (upd_free _ _ _ _ Hu) by done. unfold in_range.
    destruct ((n <=? x) && (x <? n + 1024)); [by rewrite andb_false_r|by rewrite andb_true_r].
  - intros o Ho. pose proof Hk2 as [[[[Hr3 H3] H2] _] _ _ _]. change (idx4 KERNEL_MAPPING_BASE) with 0 in *. change (idx3 KERNEL_MAPPING_BASE) with 0 in *.
    change MALLOC_BASE with 0x600000. destruct (first_gigabyte (0x600000 + o) ltac:(lia)) as (_ & E4 & E3).
    assert (E2 : idx2 (0x600000 + o) = 3 + o / 2 ^ 21) by (unfold idx2; dlia).
    assert (Hent : entry (vm_mem v2) f2 (idx2 (0x600000 + o)) = pool_entry (4096 * n) (3 + o / 2 ^ 21)) by (rewrite E2; apply Hupd; dlia).
    destruct (pool_frame (4096 * n) (3 + o / 2 ^ 21)) as (P1 & P2 & P3 & P4);
      [change (2 ^ 9) with 512 in Hq; dlia|lia|lia|dlia|].
    rewrite (translate_2m _ _ _ f3 f2); rewrite ?E4, ?E3, ?Hent; [|left; lia|done..]. rewrite P4. f_equal. dlia.
  - intros a A1 A2. apply (proj2 Hupd). intros k Hk'. destruct (Z.eq_dec k 3) as [->|]; [done|]. by replace k with 4 by lia.
  - exact Hrep.
  - exact Hl.
Qed.
End pool.

(** [malloc_init], with the paging tables of the window there and the two entries of the pool
    free: it always returns or stops. It takes the lowest aligned run of 4 MB of free
    frames and no other frame, maps it from [MALLOC_BASE] on, keeps every other
    entry of every table, and leaves a heap of one free block, the pool; it stops
    with "out of physical memory" exactly when there is no such run. *)
Theorem malloc_init_spec {HM : Mmu} (v : vm phys) h f3 f2 f1 : kernel_pt v f3 f2 f1 → phys_wf (vm_frames v) → heap_start h →
  slot_free (vm_mem v) f2 3 → slot_free (vm_mem v) f2 4 →
  wpx (malloc_init v h) (fun '(v', h') => ∃ n, aligned_run (vm_frames v) 1024 9 n ∧
      (∀ n', aligned_run (vm_frames v) 1024 9 n' → n <= n') ∧ pool_made v v' h h' f3 f2 f1 n)
    (fun msg => msg = "out of physical memory"%string ∧ ∀ n, ¬ aligned_run (vm_frames v) 1024 9 n) False.
Proof. apply malloc_init_total. Qed.
