(* ===== verification/Main.v ===== *)
(** * The main program

    [kernel_main] of [arch/x86_64/boot/init.c] and [ap_main] of
    [arch/x86_64/smp/smp.c]: the calls of the other files in their order, over one
    state. A CPU runs here alone; what it sees of the others is the class
    [Others] (their interleavings at the barrier are in Smp.v). *)

From S2P Require Import Prelude Layout Bits Spinlock Physical Mmu Paging Kernel Apic Acpi Descriptors Smp Percpu Vmcs Virt Malloc BootInfo Boot VirtInit VirtCpu.

Local Open Scope Z_scope.
Local Open Scope c_scope.

(** What [int_table] and [ap_boot_start] hold, and the addresses of [_kernel_idt], [kernel_stack] and the variable [cpu_tss]. *)
Class Program := {
  int_table : list Z;
  ap_boot_start : list Z;
  kernel_idt : Z;
  kernel_stack : Z;
  cpu_tss : Z
}.

(** What the other CPUs have added to [mtrr_sync] when it is read the [i]-th time, on the way in and on the way out,
    and [virt_start] as it is read the [i]-th time. *)
Class Others := {
  others_sync : bool → Z → Z;
  others_started : Z → bool
}.

(** The offset of [rsp[0]] in [tss_t]. *)
Definition TSS_RSP0 : Z := 4.

(** The variables of the program that [kernel_main] works on. The heap is in [m_virt]. *)
Record machine := Machine {
  m_cpu : percpu;
  m_idt : u64array * idt_desc;
  m_frame_buf : Z;
  m_info : boot_info;
  m_virt : virt;
  m_regions : list Z;
  m_events : list vmx_event;
  m_tr : Z;
  m_sync : Z * spinlock;
  m_started : bool
}.

(** How [kernel_main] ends: it returns to the boot code, or it loops for ever with
    the guest of this CPU as [virt_percpu_init] left it. *)
Inductive main_end := Returned | Looping (s : started).

Definition with_cpu (m : machine) (c : percpu) : machine :=
  Machine c (m_idt m) (m_frame_buf m) (m_info m) (m_virt m) (m_regions m) (m_events m) (m_tr m) (m_sync m) (m_started m).
Definition with_idt (m : machine) (d : u64array * idt_desc) : machine :=
  Machine (m_cpu m) d (m_frame_buf m) (m_info m) (m_virt m) (m_regions m) (m_events m) (m_tr m) (m_sync m) (m_started m).
Definition with_boot (m : machine) (fb : Z) (info : boot_info) : machine :=
  Machine (m_cpu m) (m_idt m) fb info (m_virt m) (m_regions m) (m_events m) (m_tr m) (m_sync m) (m_started m).
Definition with_tr (m : machine) (sel : Z) : machine :=
  Machine (m_cpu m) (m_idt m) (m_frame_buf m) (m_info m) (m_virt m) (m_regions m) (m_events m) sel (m_sync m) (m_started m).
Definition with_sync (m : machine) (n : Z) (l : spinlock) : machine :=
  Machine (m_cpu m) (m_idt m) (m_frame_buf m) (m_info m) (m_virt m) (m_regions m) (m_events m) (m_tr m) (n, l) (m_started m).
Definition with_virt (m : machine) (v : virt) (regions : list Z) (ev : list vmx_event) (started : bool) : machine :=
  Machine (m_cpu m) (m_idt m) (m_frame_buf m) (m_info m) v regions ev (m_tr m) (m_sync m) started.

Definition with_heap (v : virt) (h : heap) : virt := VirtState h (vm_structs v) (cpu_to_vm v) (vmcs_mem_type v) (vmcs_rev v).

Definition with_kernel (c : percpu) (k : kernel phys) : percpu := PerCpu k (pc_gdt c) (percpu_virt c) (pcpu_counter c) (fs_base c).
Definition m_kernel (m : machine) : kernel phys := pc_kernel (m_cpu m).
Definition m_vm (m : machine) : vm phys := k_vm (m_kernel m).
Definition set_kernel (m : machine) (k : kernel phys) : machine := with_cpu m (with_kernel (m_cpu m) k).
Definition on_kernel (m : machine) (f : kernel phys → outcome (kernel phys)) : outcome machine := k ← f (m_kernel m); Ok (set_kernel m k).
Definition set_m_vm (m : machine) (v : vm phys) : machine := set_kernel m (set_vm (m_kernel m) v).

(** The registers of the processor when a guest is launched: the task register is the one that was loaded. *)
Definition at_launch (HP : Processor) (tr cr3 : Z) : Processor := {|
  rdmsr := rdmsr; reg_cr0 := reg_cr0; reg_cr3 := cr3; reg_cr4 := reg_cr4;
  reg_cs := reg_cs; reg_ds := reg_ds; reg_es := reg_es; reg_ss := reg_ss; reg_fs := reg_fs; reg_gs := reg_gs; reg_tr := tr;
  reg_gdtr_base := reg_gdtr_base; reg_idtr_base := reg_idtr_base; reg_rsp := reg_rsp;
  virt_main := virt_main; cpuid_1_ecx := cpuid_1_ecx
|}.

Section main.
Context `{HM : Mmu} {HL : Linker} {HD : Devices} {HS : Processors} {HF : Firmware} {HI : Image}.
Context {HP : Processor} {HX : Vmx} {HG : Program} {HO : Others}.
(** The bytes of the multiboot information, and what [malloc] memory holds before it is written. *)
Context (get : Z → outcome Z) (j : junk) (jvm : vm_struct).

(** ** Steps that both functions share *)

(** [percpu_pointer(cpu, var)] *)
Definition percpu_pointer (c : percpu) (cpu var : Z) : outcome Z :=
  base ← list_get (percpu_virt c) cpu; Ok (base +w var).

Definition my_id (c : percpu) : outcome Z := get_pcpu_id (pc_kernel c) (fs_base c).

(** The stack for interrupts is set, and the task register loaded. *)
Definition task_setup (stack : Z) (m : machine) : outcome machine :=
  let c := m_cpu m in
  cpu ← my_id c;
  tss_ptr ← percpu_pointer c cpu cpu_tss;
  k ← mem_store (pc_kernel c) (tss_ptr +w TSS_RSP0) stack;
  '(selector, d) ← alloc_tss_desc (pc_gdt c) tss_ptr;
  Ok (with_tr (with_cpu m (PerCpu k d (percpu_virt c) (pcpu_counter c) (fs_base c))) selector).

(** [while (mtrr_sync != target) ;] *)
Definition wait_step (leaving : bool) (n target : Z) (i : Z) : outcome (Z + unit) :=
  if u8 (n + others_sync leaving i) =? target then Ok (inr tt) else Ok (inl (i + 1)).

(** The counter is changed under its lock, and waited for. *)
Definition meet (leaving : bool) (d target : Z) (m : machine) : outcome machine :=
  let '(n, l) := m_sync m in
  l ← spin_lock l;
  let n := u8 (n + d) in
  _ ← while (wait_step leaving n target) 0;
  Ok (with_sync m n (spin_unlock l)).

(** The memory types, between the two halves of the barrier. *)
Definition mtrr_update (m : machine) : outcome machine :=
  m ← meet false 1 (g_cpus (k_acpi (m_kernel m))) m;
  m ← on_kernel m mtrr_config;
  meet true (-1) 0 m.

(** [lapic_init] asks for the number of the CPU. *)
Definition lapic_setup (m : machine) : outcome machine :=
  cpu ← my_id (m_cpu m); on_kernel m (fun k => lapic_init k cpu).

(** [*((uint64_t * ) 0xFFFFFFFFC0000000) = 0; tlb_flush()] *)
Definition remove_identity (v : vm phys) : outcome (vm phys) := vst v 0xFFFFFFFFC0000000 0.

(** [memcpy(dest, src, n)] to memory that is shared with the other CPUs. *)
Fixpoint copy_out (k : kernel phys) (dest : Z) (src : list Z) : outcome (kernel phys) :=
  match src with
  | [] => Ok k
  | b :: src => k ← mem_store k dest b; copy_out k (dest +w 1) src
  end.

(** [acpi_init] with the copy at its end. *)
Definition acpi_setup (rsdp : Z) (m : machine) : outcome machine :=
  on_kernel m (fun k =>
    '(copy, k) ← acpi_init k rsdp;
    if (copy : bool) then copy_out k SMP_BOOT_ADDR ap_boot_start else Ok k).

(** ** kernel_main *)

(** Up to the per-CPU data of the first CPU. *)
Definition start_memory (m : machine) : outcome machine :=
  '(k, t, idtr) ← interrupt_init (m_kernel m) (m_idt m).1 int_table kernel_idt;
  let m := with_idt (set_kernel m k) (t, idtr) in
  v ← vm_init (m_vm m);
  let m := set_m_vm m v in
  c ← percpu_init (m_cpu m);
  Ok (with_cpu m c).

(** The ACPI tables, the interrupt controllers, the screen and the task segment. *)
Definition start_devices (rsdp : Z) (m : machine) : outcome machine :=
  m ← acpi_setup rsdp m;
  m ← lapic_setup m;
  m ← on_kernel m (ioapic_init acpi_irq_to_gsi);
  '(fb, v) ← vm_map_page (m_vm m) (m_frame_buf m) (PGT_P .| PGT_RW .| PGT_PCD .| PGT_PWT .| PGT_XD);
  task_setup (kernel_stack +w PG_SIZE) (with_boot (set_m_vm m v) fb (m_info m)).

(** The heap, the configuration, and the place of each module. *)
Definition start_config (mbi : Z) (m : machine) : outcome machine :=
  '(v, h) ← malloc_init (m_vm m) (v_heap (m_virt m));
  '(v, h, info) ← parse_boot_info j v h (m_info m);
  info ← assign_modules get mbi info;
  Ok (with_virt (with_boot (set_m_vm m v) (m_frame_buf m) info) (with_heap (m_virt m) h) (m_regions m) (m_events m) (m_started m)).

(** The other CPUs, the identity mapping and the memory types. *)
Definition start_others (m : machine) : outcome machine :=
  m ← on_kernel m acpi_sec_init;
  v ← remove_identity (m_vm m);
  mtrr_update (set_m_vm m v).

(** The guests. *)
Definition start_guests (m : machine) : outcome (machine * started) :=
  '(info, vi) ← virt_init jvm (m_info m) (g_cpus (k_acpi (m_kernel m))) (m_virt m);
  let m := with_virt (with_boot m (m_frame_buf m) info) vi (m_regions m) (m_events m) true in
  cpu ← my_id (m_cpu m);
  '(c, s) ← virt_percpu_init (HP := at_launch HP (m_tr m) (vm_cr3 (m_vm m))) (pc_gdt (m_cpu m)) cpu reg_cr0 reg_cr4
    (VCpu (m_vm m) (m_virt m) (m_regions m) (m_events m) (k_log (m_kernel m)));
  let k := m_kernel m in
  let k := Kernel (c_vm c) (k_apic k) (k_acpi k) (k_io k) (c_log c) in
  let k := match s with
           | Running _ => k
           | _ => add_log k "BSP %u: %u cores" [cpu; g_cpus (k_acpi k)]
           end in
  Ok (with_virt (set_kernel m k) (c_virt c) (vmxon_region c) (c_events c) true, s).

(** The boot loader's information and the first four calls. [None] is an early return; otherwise the address of the RSDP. *)
Definition kernel_start (magic mbi : Z) (m : machine) : outcome (machine * option Z) :=
  r ← kernel_main_memory get magic mbi (m_frame_buf m) (vm_frames (m_vm m)) (m_info m);
  match r with
  | inl (fmt, args) => Ok (set_kernel m (add_log (m_kernel m) fmt args), None)
  | inr (s, info) =>
      m ← start_memory (with_boot (set_m_vm m (with_frames (m_vm m) (s_phys s))) (frame_buf s) info);
      Ok (m, Some (rsdp s))
  end.

Definition kernel_main (magic mbi : Z) (m : machine) : outcome (machine * main_end) :=
  '(m, r) ← kernel_start magic mbi m;
  match r with
  | None => Ok (m, Returned)
  | Some rsdp =>
      m ← start_devices rsdp m;
      m ← start_config mbi m;
      m ← start_others m;
      '(m, s) ← start_guests m;
      Ok (m, Looping s)
  end.

(** ** ap_main *)

(** [while (!virt_start) ;] *)
Definition started_step (i : Z) : outcome (Z + unit) := if others_started i then Ok (inr tt) else Ok (inl (i + 1)).

(** [rsp] is the stack pointer where it is read. The CPU ends in the loop with interrupts enabled. *)
Definition ap_main (rsp : Z) (m : machine) : outcome machine :=
  c ← percpu_init (m_cpu m);
  let m := with_cpu m c in
  m ← on_kernel m (fun k => mem_store k BOOT_STATUS 1);
  m ← lapic_setup m;
  m ← task_setup ((rsp .& PG_MASK) +w PG_SIZE) m;
  m ← mtrr_update m;
  _ ← while started_step 0;
  Ok m.
End main.
