(* ===== verification/MainRun.v ===== *)
(** * One machine from the boot loader to its guest

    A machine with one CPU and 64 MB of memory, a kernel and a ramdisk as modules, on which
    [kernel_main] is evaluated from the multiboot information to the launch. *)

From S2P Require Import Prelude Bytes Layout Bits Spinlock Physical Mmu Paging PagingSpec Kernel Apic Acpi Descriptors Smp Percpu Vmcs Virt Screen Malloc MallocProps BootInfo Boot VirtInit VirtCpu Linux LinuxGuest VirtCpuSpec Main.

Local Open Scope Z_scope.
Local Open Scope c_scope.

(** ** What the boot loader and the firmware leave in memory *)

Definition run_rsdt : list Z := le 4 0x54445352 ++ le 4 40 ++ replicate 28 0 ++ le 4 0x20100.
Definition run_madt : list Z := encode_madt (replicate 28 0) 0xFEE00000 1 [Lapic 0 0 1; Ioapic 1 0xFEC00000 0; Override 0 2 10].
Definition rsdp_with (checksum : Z) : list Z := le 8 RSDP_SIGNATURE ++ [checksum; 0; 0; 0; 0; 0; 0; 0] ++ le 4 0x20000.
Definition run_rsdp : list Z := rsdp_with ((- foldr Z.add 0 (rsdp_with 0)) mod 256).
Definition run_tags : list mb_tag := [
  ModuleTag 0x330000 0x330040 CONFIG_NAME;
  ModuleTag 0x310000 0x310800 LINUX_NAME;
  ModuleTag 0x320000 0x320200 INITRD_NAME;
  MmapTag 24 0 [MmapEntry 0 0x9F000 1 [0; 0; 0; 0]; MmapEntry 0x9F000 0x61000 2 [0; 0; 0; 0]; MmapEntry 0x100000 0x3F00000 1 [0; 0; 0; 0]];
  FramebufferTag 0xB8000 (replicate 14 0);
  AcpiTag false run_rsdp ].
Definition run_mbi : list Z :=
  let tags := concat (map (fun t => pad8 (encode_tag t)) run_tags) ++ le 4 0 ++ le 4 8 in
  le 4 (8 + Z.of_nat (length tags)) ++ le 4 0 ++ tags.

Definition byte_of (base : Z) (l : list Z) (a : Z) : option Z := if a <? base then None else l !! Z.to_nat (a - base).
Definition run_byte (a : Z) : Z :=
  u8 (match byte_of 0x10000 run_mbi a, byte_of 0x20000 run_rsdt a, byte_of 0x20100 run_madt a with
      | Some b, _, _ => b | None, Some b, _ => b | None, None, Some b => b | _, _, _ => 0 end).
Definition run_get (a : Z) : outcome Z := if (0 <=? a) && (a <? 2 ^ 21) then Ok (run_byte a) else Fault.

#[local] Instance run_firmware : Firmware := {| fw_byte := run_byte; fw_byte_u8 := fun pa => u8_range _ |}.
#[local] Instance run_image : Image :=
  {| boot_start := 0x100000; boot_pages := 8; kernel_code_pages := 100; kernel_ro_pages := 10; kernel_rw_pages := 400 |}.
#[local] Instance run_program : Program := {| int_table := sample_handlers; ap_boot_start := [0xEB; 0x10]; kernel_idt := 0x300000; kernel_stack := 0x2A0000; cpu_tss := 0x40 |}.
#[local] Instance run_others : Others := {| others_sync := fun _ _ => 0; others_started := fun _ => true |}.
#[local] Existing Instances sample_linker sample_devices sample_processors sample_processor sample_vmx.

(** The tables of [boot.S], the two modules, and nothing else. *)
Definition run_kernel : kernel phys := Kernel (Vm (with_image_words boot_mem) 0x300000 SPINLOCK_UNLOCKED [] phys_init) apic_init acpi_statics [] [].
Definition run_machine : machine :=
  Machine (PerCpu run_kernel boot_gdt (replicate 16 0) 0 0) (U64Array 512 ∅, IdtDesc 0 0) 0 no_info
    (VirtState sample_heap [] (replicate 16 0) 0 0) (replicate 16 0) [] 0 (0, SPINLOCK_UNLOCKED) false.
Definition run_junk : vm_struct := VmStruct 0 [] 0 0 0 0 0 0 0 (replicate 16 0) 0 0 SPINLOCK_UNLOCKED.

Definition run_result : outcome (machine * main_end) := kernel_main run_get sample_junk run_junk MULTIBOOT2_BOOTLOADER_MAGIC 0x10000 run_machine.

(** ** The run *)

Definition run_checks (c : machine) (f : vmcs) : bool :=
  (nth 0 (m_regions c) 0 =? 0x30B000) && (m_tr c =? 32) && (vmfield f VMCS_GUEST_RIP =? 0x100000) && (vmfield f VMCS_HOST_TR_BASE =? 0xA00040).
Lemma run_ends : match run_result with Ok (c, Looping (Running f)) => run_checks c f | _ => false end = true.
Proof. vm_compute. reflexivity. Qed.
