(* ===== verification/MainSpec.v ===== *)
(** * What the main program reaches

    The calls of [kernel_main] and [ap_main] (Main.v) put together from the
    theorems of the components: the start up to the first number of a CPU, the
    end of the identity mapping, and a processor from its first instruction in C to its loop. *)

From S2P Require Import Prelude Bytes Layout Bits Spinlock Physical Mmu Paging PagingSpec Kernel Vmcs VirtCpu Apic Acpi Descriptors Smp Percpu Virt Screen Malloc MallocProps VirtInit BootInfo Boot MallocInit Main MainRun.

Local Open Scope Z_scope.
Local Open Scope c_scope.

(** ** The identity mapping *)

Section identity.
Context {HM : Mmu}.
Implicit Types v : vm phys.

(** A page of 2 MB, a table that is not the directory itself, or nothing. *)
Definition leaf_ok v (f2 va : Z) : Prop :=
  let e := entry (vm_mem v) f2 (idx2 va) in
  present e = false ∨ (∃ g, table_entry e g ∧ g ≠ f2) ∨ (present e = true ∧ page_size e = true ∧ Z.land e 0x1FE000 = 0).

Lemma identity_va : 0xFFFFFFFFC0000000 = slot kernel_pdt_va 0.
Proof. reflexivity. Qed.

Section removed.
Context (v : vm phys) (f3 f2 f1 : Z) (Hk : kernel_pt v f3 f2 f1).
Let m := vm_mem v.
Let m' := <[f2 + 8 * 0 := 0]> m.

Lemma remove_identity_eq : remove_identity v = Ok (with_mem v m').
Proof using Hk.
  unfold remove_identity, vst. rewrite identity_va.
  by rewrite (kernel_pdt_window v f3 f2 f1 Hk m (same_outside_refl f2 m) 0) by lia.
Qed.

Lemma removed_outside : same_outside f2 m m'.
Proof using Type. apply same_outside_store. lia. Qed.
Lemma removed_entry i : 1 <= i < 512 → entry m' f2 i = entry m f2 i.
Proof using Type. intros Hi. unfold m'. rewrite entry_store. destruct (Z.eqb_spec 0 i); [lia|done]. Qed.

Lemma removed_pdt : pdt_at m' (vm_cr3 v) KERNEL_MAPPING_BASE f3 f2.
Proof using Hk.
  destruct Hk as [[Hp _] [N1 N2] _ _].
  exact (pdt_at_outside f2 m m' _ _ f3 f2 (aligned_f2 v f3 f2 f1 Hk) N1 N2 removed_outside Hp).
Qed.

Lemma removed_kernel : kernel_pt (with_mem v m') f3 f2 f1.
Proof using Hk.
  pose proof removed_pdt as Hp. destruct Hk as [[_ H1] N2 N1 Hl]. split; try done.
  split; [exact Hp|]. cbn [vm_mem with_mem]. rewrite removed_entry by (vm_compute; split; congruence). exact H1.
Qed.

Lemma low_indices va : 0 <= va < 2 ^ 30 → canonical va ∧ idx4 va = 0 ∧ idx3 va = 0.
Proof using Type. intros Hv. split; [left; lia|]. unfold idx4, idx3. split; dlia. Qed.

Lemma removed_low va : 0 <= va < 2 ^ 21 → translate m' (vm_cr3 v) va = None.
Proof using Hk.
  intros Hv. destruct removed_pdt as [[Hr H3] H2]. destruct (low_indices va ltac:(lia)) as (Hc & E4 & E3).
  assert (E2 : idx2 va = 0) by (unfold idx2; dlia).
  apply (translate_absent2 _ _ _ f3 f2); rewrite ?E4, ?E3, ?E2; [exact Hc|exact H3|exact H2|].
  unfold m'. by rewrite entry_store.
Qed.

Lemma removed_high va : 2 ^ 21 <= va < 2 ^ 30 → leaf_ok v f2 va → translate m' (vm_cr3 v) va = translate m (vm_cr3 v) va.
Proof using Hk.
  intros Hv Hleaf. destruct removed_pdt as [[Hr H3] H2]. destruct (low_indices va ltac:(lia)) as (Hc & E4 & E3).
  pose proof (aligned_f2 v f3 f2 f1 Hk) as Ha. destruct Hk as [[[[Hr0 H30] H20] _] _ _ _].
  change (idx4 KERNEL_MAPPING_BASE) with 0 in *. change (idx3 KERNEL_MAPPING_BASE) with 0 in *.
  assert (E2 : entry m' f2 (idx2 va) = entry m f2 (idx2 va)) by (apply removed_entry; unfold idx2; dlia).
  unfold leaf_ok in Hleaf. fold m in Hleaf, H30, H20. cbv zeta in Hleaf. destruct Hleaf as [Hn|[(g & Hg & Hne)|(Hp & Hs & Hz)]].
  - rewrite !(translate_absent2 _ _ va f3 f2); rewrite ?E4, ?E3, ?E2; done.
  - assert (E1 : entry m' g (idx1 va) = entry m g (idx1 va)).
    { apply (entry_outside f2); [exact Ha|exact (table_aligned _ _ Hg)|congruence|apply idx_bounds|exact removed_outside]. }
    destruct (present (entry m g (idx1 va))) eqn:Epr.
    + rewrite !(translate_4k _ _ va f3 f2 g); rewrite ?E4, ?E3, ?E2, ?E1; done.
    + rewrite !(translate_absent1 _ _ va f3 f2 g); rewrite ?E4, ?E3, ?E2, ?E1; done.
  - rewrite !(translate_2m _ _ va f3 f2); rewrite ?E4, ?E3, ?E2; done.
Qed.
End removed.
End identity.

(** ** The barrier, for the CPU that waits *)

Section barrier.
Context {HM : Mmu} {HD : Devices} {HO : Others}.

Lemma wait_ok leaving n target i0 : 0 <= i0 < 2 ^ 64 → u8 (n + others_sync leaving i0) = target →
  while (wait_step leaving n target) 0 = Ok tt.
Proof.
  intros Hi Ht. assert (Hw : wp (while (wait_step leaving n target) 0) (fun r => r = tt)).
  { apply (wp_while _ (fun i => 0 <= i <= i0) (fun i => i0 - i)); [|lia|lia].
    intros i Hb. unfold wait_step. destruct (Z.eqb_spec (u8 (n + others_sync leaving i)) target) as [|Hne]; [reflexivity|].
    destruct (Z.eq_dec i i0) as [->|]; [contradiction|cbn; lia]. }
  by destruct (proj1 (wp_ok _ _) Hw) as ([] & E & _).
Qed.

(** The others arrive, and leave, at some time while this CPU waits. *)
Definition others_arrive (n g : Z) : Prop := ∃ i, 0 <= i < 2 ^ 64 ∧ u8 (n + 1 + others_sync false i) = g.
Definition others_leave (n : Z) : Prop := ∃ i, 0 <= i < 2 ^ 64 ∧ u8 (n + others_sync true i) = 0.

Lemma meet_ok leaving d target m i0 : lock_free (m_sync m).2 → 0 <= i0 < 2 ^ 64 →
  u8 (u8 ((m_sync m).1 + d) + others_sync leaving i0) = target →
  ∃ l, meet leaving d target m = Ok (with_sync m (u8 ((m_sync m).1 + d)) l) ∧ lock_free l.
Proof.
  intros Hl Hi Ht. unfold meet. destruct (m_sync m) as [n l]. cbn [fst snd] in *.
  rewrite (spin_lock_free _ Hl), bind_ok. cbv zeta. rewrite (wait_ok _ _ _ i0 Hi Ht), bind_ok.
  eexists. split; [reflexivity|]. by apply lock_cycle_free.
Qed.

(** The CPU passes both halves with the memory types set, and leaves the counter as it was. *)
Lemma mtrr_update_ok m : let n := (m_sync m).1 in lock_free (m_sync m).2 → is_u8 n →
  others_arrive n (g_cpus (k_acpi (m_kernel m))) → others_leave n →
  ∃ k' l r, mtrr_update m = Ok (with_sync (set_kernel m k') n l) ∧ lock_free l ∧ mtrr_config (m_kernel m) = Ok k' ∧
    k_vm k' = k_vm (m_kernel m) ∧ k_apic k' = k_apic (m_kernel m) ∧ k_acpi k' = k_acpi (m_kernel m) ∧
    k_io k' = Wrmsr IA32_MTRR_DEF_TYPE 0x806 :: masked r ++ Wrmsr IA32_MTRR_DEF_TYPE 0x6 :: k_io (m_kernel m).
Proof.
  cbv zeta. intros Hl Hn (i1 & Hi1 & A1) (i2 & Hi2 & A2). unfold mtrr_update.
  assert (Hu : ∀ x y, u8 (u8 x + y) = u8 (x + y)) by (intros x y; unfold u8; by rewrite Zplus_mod_idemp_l).
  destruct (meet_ok false 1 (g_cpus (k_acpi (m_kernel m))) m i1 Hl Hi1 ltac:(by rewrite Hu)) as (l1 & -> & Hl1). rewrite bind_ok.
  destruct (mtrr_config_spec (m_kernel m)) as (r & k' & E & V1 & V2 & V3 & _ & Hio).
  unfold on_kernel. change (m_kernel (with_sync m _ l1)) with (m_kernel m). rewrite E, !bind_ok.
  assert (Hback : u8 (u8 ((m_sync m).1 + 1) + -1) = (m_sync m).1) by (rewrite Hu; replace (_ + 1 + -1) with (m_sync m).1 by lia; by apply u8_id).
  destruct (meet_ok true (-1) 0 (set_kernel (with_sync m (u8 ((m_sync m).1 + 1)) l1) k') i2) as (l2 & -> & Hl2); [exact Hl1|exact Hi2| |].
  { cbn [m_sync set_kernel with_cpu with_sync fst]. by rewrite Hback. }
  cbn [m_sync set_kernel with_cpu with_sync fst]. rewrite Hback. exists k', l2, r. split; [reflexivity|]. done.
Qed.
End barrier.

(** ** The other CPUs *)

Section others.
Context {HM : Mmu} {HD : Devices} {HS : Processors} {HO : Others}.

(** A leaf stays one when entries are added. *)
Lemma leaf_later (v v' : vm phys) f2 va : later v v' → present (entry (vm_mem v) f2 (idx2 va)) = true →
  leaf_ok v f2 va → leaf_ok v' f2 va.
Proof.
  intros [_ Hm] Hp Hl. unfold leaf_ok in *. cbv zeta in *.
  assert (E : entry (vm_mem v') f2 (idx2 va) = entry (vm_mem v) f2 (idx2 va)) by exact (Hm _ Hp).
  by rewrite E.
Qed.

Lemma leaf_absent (v : vm phys) f3 f2 f1 va : kernel_pt v f3 f2 f1 → 0 <= va < 2 ^ 30 →
  present (entry (vm_mem v) f2 (idx2 va)) = false → translate (vm_mem v) (vm_cr3 v) va = None.
Proof.
  intros [[[[Hr H3] H2] _] _ _ _] Hv He. destruct (low_indices va Hv) as (Hc & E4 & E3).
  apply (translate_absent2 _ _ _ f3 f2); rewrite ?E4, ?E3; done.
Qed.

(** What the start of the other CPUs reaches. *)
Record others_up (m m' : machine) (f3 f2 f1 : Z) : Prop := {
  ou_kernel : kernel_pt (m_vm m') f3 f2 f1;
  ou_cpus : g_cpus (k_acpi (m_kernel m')) = 1 + Z.of_nat (length (List.filter started (to_start (m_kernel m))));
  ou_low va : 0 <= va < 2 ^ 21 → translate (vm_mem (m_vm m')) (vm_cr3 (m_vm m')) va = None;
  ou_high va pa : 2 ^ 21 <= va < 2 ^ 30 → leaf_ok (m_vm m) f2 va →
    translate (vm_mem (m_vm m)) (vm_cr3 (m_vm m)) va = Some pa → translate (vm_mem (m_vm m')) (vm_cr3 (m_vm m')) va = Some pa;
  ou_sync : (m_sync m').1 = (m_sync m).1 ∧ lock_free (m_sync m').2;
  ou_mtrr : ∃ r h, k_io (m_kernel m') = Wrmsr IA32_MTRR_DEF_TYPE 0x806 :: masked r ++ Wrmsr IA32_MTRR_DEF_TYPE 0x6 :: h;
  ou_late : 0 <= BOOT_STATUS < 2 ^ 21 → mem_store (m_kernel m') BOOT_STATUS 1 = Fault
}.

Lemma start_others_ok m f3 f2 f1 : smp_ready (m_kernel m) f3 f2 f1 →
  1 <= g_cpus (k_acpi (m_kernel m)) <= 16 → length (lapic_ids (k_acpi (m_kernel m))) = 16%nat →
  lock_free (m_sync m).2 → is_u8 (m_sync m).1 →
  others_arrive (m_sync m).1 (1 + Z.of_nat (length (List.filter started (to_start (m_kernel m))))) → others_leave (m_sync m).1 →
  wpx (start_others m) (fun m' => others_up m m' f3 f2 f1) smp_message False.
Proof.
  intros Hr Hg Hlen Hl Hn Harr Hleave. unfold start_others, on_kernel. wp_step. wp_step.
  eapply wpx_post; [exact (acpi_sec_init_ok _ f3 f2 f1 Hr Hg Hlen)|]. intros k1 (Hr1 & Hlt & Hg1). cbn [wpx].
  change (m_vm (set_kernel m k1)) with (k_vm k1). pose proof (sr_window _ _ _ _ Hr1) as Hk1.
  rewrite (remove_identity_eq _ f3 f2 f1 Hk1), bind_ok. set (v' := with_mem _ _).
  destruct (mtrr_update_ok (set_m_vm (set_kernel m k1) v') Hl Hn ltac:(
    change (g_cpus (k_acpi (m_kernel (set_m_vm (set_kernel m k1) v')))) with (g_cpus (k_acpi k1)); rewrite Hg1; exact Harr) Hleave)
    as (k' & l & r & E & Hl' & _ & Evm & _ & Eacpi & Eio).
  rewrite E. cbn [wpx]. change (m_kernel (set_m_vm (set_kernel m k1) v')) with (set_vm k1 v') in Evm, Eacpi, Eio.
  assert (Em : ∀ n', m_kernel (with_sync (set_kernel (set_m_vm (set_kernel m k1) v') k') n' l) = k') by reflexivity.
  assert (Ev : ∀ n', m_vm (with_sync (set_kernel (set_m_vm (set_kernel m k1) v') k') n' l) = v') by (intros n'; exact Evm).
  split; rewrite ?Em, ?Ev.
  - exact (removed_kernel _ f3 f2 f1 Hk1).
  - by rewrite Eacpi.
  - exact (removed_low _ f3 f2 f1 Hk1).
  - intros va pa Hva Hleaf Ht. destruct (present (entry (vm_mem (m_vm m)) f2 (idx2 va))) eqn:Ep.
    + unfold v'. cbn [vm_mem vm_cr3 with_mem]. rewrite (removed_high _ f3 f2 f1 Hk1 va Hva (leaf_later _ _ _ _ Hlt Ep Hleaf)).
      destruct Hlt as [Ec Hm]. rewrite Ec. exact (translate_stable _ _ _ _ _ Hm Ht).
    + pose proof (leaf_absent (m_vm m) f3 f2 f1 va (sr_window _ _ _ _ Hr) ltac:(lia) Ep) as Hn0. congruence.
  - by split.
  - by exists r, (k_io k1).
  - intros Hb. unfold mem_store. rewrite Evm. by rewrite (removed_low _ f3 f2 f1 Hk1 _ Hb).
Qed.
End others.

(** ** From the boot loader to the number of the first CPU *)

Section start.
Context {HM : Mmu} {HL : Linker} {HI : Image} {HG : Program}.

(** The pages that are free when the memory map and the modules have been read. *)
Definition usable (p : phys) (ts : list mb_tag) (n : Z) : bool :=
  (page_free p n || existsb (whole n) (avail_ranges ts)) && negb (existsb (touched n) (reserved ts)).

(** The tables [boot.S] leaves: three levels of their own for the low addresses,
    none of them in a page that is free, no page table yet for the window, and zeros
    in the pages that are free. *)
Record boot_tables (v : vm phys) (free : Z → bool) (f3 f2 : Z) : Prop := {
  bt_lock : lock_free (pg_lock v);
  bt_pdt : pdt_at (vm_mem v) (vm_cr3 v) KERNEL_MAPPING_BASE f3 f2;
  bt_apart : f3 ≠ vm_cr3 v ∧ f2 ≠ vm_cr3 v ∧ f2 ≠ f3;
  bt_own f : f ∈ [vm_cr3 v; f3; f2] → 0 <= f ∧ free (f / 4096) = false;
  bt_none : present (entry (vm_mem v) f2 (idx2 KERNEL_MAPPING_BASE)) = false;
  bt_blank n k : 0 <= n → free n = true → 0 <= k < 512 → entry (vm_mem v) (4096 * n) k = 0
}.

Lemma table_entry_same e f g : table_entry e f → table_entry e g → g = f.
Proof. intros (_ & _ & <-) (_ & _ & <-). reflexivity. Qed.

Lemma boot_ready v free f3 f2 : boot_tables v free f3 f2 → phys_wf (vm_frames v) → (∀ n, 0 <= n → page_free (vm_frames v) n = free n) →
  has_root v ∧ path3 KERNEL_MAPPING_BASE (path1 KERNEL_MAPPING_BASE True) v.
Proof.
  intros [Hl [[Hr H3] H2] (N3 & N2 & N23) Hown Hno Hz] Hp Hfree.
  assert (Hu : ∀ f, f ∈ [vm_cr3 v; f3; f2] → 0 <= f ∧ used v f).
  { intros f Hf. destruct (Hown f Hf) as [H0 H1]. split; [done|]. unfold used. cbn [avail phys_allocator].
    rewrite Hfree by (apply Z.div_pos; lia). exact H1. }
  split.
  - destruct (Hu (vm_cr3 v) ltac:(left)) as [Hc Hcu]. split; [exact Hr|exact Hc|exact Hcu|]. split; [exact Hp|].
    intros n k Hn Ha Hk. cbn in Ha. rewrite Hfree in Ha by done. by apply Hz.
  - split.
    + intros _. exists f3. split; [exact H3|]. split; [|apply Hu; right; left].
      intros Hin%list_elem_of_singleton. exact (N3 Hin).
    + intros g3 Hg3. rewrite (table_entry_same _ _ _ H3 Hg3). split.
      * intros _. exists f2. split; [exact H2|]. split; [|apply Hu; right; right; left].
        intros Hin. apply elem_of_cons in Hin as [Hin|Hin%list_elem_of_singleton]; [exact (N23 Hin)|exact (N2 Hin)].
      * intros g2 Hg2. rewrite (table_entry_same _ _ _ H2 Hg2). split; [|by right].
        intros Hpr. congruence.
Qed.

(** What is there when [percpu_init] has returned on the first CPU. *)
Record start_state (m m' : machine) (free : Z → bool) (f3 f2 f1 n : Z) : Prop := {
  ss_idt : idt_filled (m_idt m').1 int_table IDT_ENTRY_NR ∧ (m_idt m').2 = IdtDesc 4095 kernel_idt;
  ss_ready : percpu_ready (m_cpu m') f3 f2 f1;
  ss_id : my_id (m_cpu m') = Ok 0 ∧ pcpu_counter (m_cpu m') = 1 ∧ percpu_virt (m_cpu m') !! 0%nat = Some (fs_base (m_cpu m'));
  ss_tables f : f ∈ [vm_cr3 (m_vm m'); f3; f2; f1] → page_free (vm_frames (m_vm m')) (f / 4096) = false ∧ ¬ (n <= f / 4096 < n + pages);
  ss_area o : 0 <= o < 4096 * pages →
    translate (vm_mem (m_vm m')) (vm_cr3 (m_vm m')) (fs_base (m_cpu m') + o) = Some (4096 * n + o);
  ss_own q : n <= q < n + pages → free q = true ∧ page_free (vm_frames (m_vm m')) q = false;
  ss_free q : 0 <= q → page_free (vm_frames (m_vm m')) q = true → free q = true;
  ss_rest : m_frame_buf m' = m_frame_buf m ∧ m_info m' = m_info m ∧ m_virt m' = m_virt m ∧ m_sync m' = m_sync m
}.

Lemma window_free (v v' : vm phys) f3 f2 f1 q : window_taken v v' f3 f2 f1 → 0 <= q →
  page_free (vm_frames v') q = true → page_free (vm_frames v) q = true.
Proof.
  intros [_ _ Huse] Hq Hf. destruct (page_free (vm_frames v) q) eqn:Eq; [done|].
  pose proof (Huse (4096 * q) ltac:(lia)) as Hu. unfold used in Hu. cbn [avail phys_allocator] in Hu.
  rewrite (Z.mul_comm 4096), Z.div_mul in Hu by lia. rewrite (Hu Eq) in Hf. discriminate Hf.
Qed.

(** The last of the steps: [m1] is the machine before [percpu_init], [c] what it returns. *)
Lemma start_state_ok m m1 c free f3 f2 f1 i n :
  idt_filled (m_idt m1).1 int_table IDT_ENTRY_NR → (m_idt m1).2 = IdtDesc 4095 kernel_idt →
  window_taken (m_vm m) (m_vm m1) f3 f2 f1 → percpu_added (m_cpu m1) c f3 f2 f1 i n →
  pcpu_counter (m_cpu m1) = 0 → Z.of_nat (length (percpu_virt (m_cpu m1))) = MAX_CPUS →
  (∀ q, 0 <= q → page_free (vm_frames (m_vm m)) q = free q) →
  m_frame_buf m1 = m_frame_buf m ∧ m_info m1 = m_info m ∧ m_virt m1 = m_virt m ∧ m_sync m1 = m_sync m →
  start_state m (with_cpu m1 c) free f3 f2 f1 n.
Proof.
  intros Hidt Hidt2 Hw Hadd Hc Hvl Hf Hrest. pose proof (pa_low _ _ _ _ _ _ _ Hadd) as Hlow.
  change (m_vm m1) with (k_vm (pc_kernel (m_cpu m1))) in Hw.
  split; [done|exact (pa_ready _ _ _ _ _ _ _ Hadd)|..|done]; change (m_vm (with_cpu m1 c)) with (k_vm (pc_kernel c)); cbn [m_cpu with_cpu].
  - split; [|split].
    + unfold my_id. cbn [m_cpu with_cpu]. rewrite (owned_get _ _ _ (pa_own _ _ _ _ _ _ _ Hadd)). by rewrite Hc.
    + rewrite (pa_counter _ _ _ _ _ _ _ Hadd). by rewrite Hc.
    + rewrite (pa_virt _ _ _ _ _ _ _ Hadd), Hc. apply list_lookup_insert_eq. unfold MAX_CPUS in Hvl. lia.
  - intros f Hin. rewrite (pa_cr3 _ _ _ _ _ _ _ Hadd) in Hin. destruct (wt_tables _ _ _ _ _ Hw f Hin) as [H0 H1].
    unfold used in H1. cbn [avail phys_allocator] in H1.
    rewrite (pa_taken _ _ _ _ _ _ _ Hadd) by (apply Z.div_pos; lia). split; [by rewrite H1|].
    intros Hin2. pose proof (pa_free _ _ _ _ _ _ _ Hadd _ Hin2). congruence.
  - exact (pa_mapped _ _ _ _ _ _ _ Hadd).
  - intros q Hq. split.
    + rewrite <- Hf by lia. apply (window_free _ _ _ _ _ q Hw); [lia|]. exact (pa_free _ _ _ _ _ _ _ Hadd q Hq).
    + rewrite (pa_taken _ _ _ _ _ _ _ Hadd) by lia. rewrite (proj2 (Z.leb_le _ _)), (proj2 (Z.ltb_lt _ _)) by lia. apply andb_false_r.
  - intros q Hq Hfq. rewrite (pa_taken _ _ _ _ _ _ _ Hadd) in Hfq by lia. apply andb_true_iff in Hfq as [Hfq _].
    rewrite <- Hf by lia. by apply (window_free _ _ _ _ _ q Hw).
Qed.

(** What [start_memory] needs of the tables of the processor. *)
Record tables_ready (m : machine) : Prop := {
  tr_idt : arr_wf (m_idt m).1 ∧ arr_len (m_idt m).1 = 2 * IDT_ENTRY_NR;
  tr_int_table : Z.of_nat (length int_table) = IDT_ENTRY_NR ∧ Forall is_u64 int_table;
  tr_gdt : gdt_ok (pc_gdt (m_cpu m));
  tr_percpu : Z.of_nat (length (percpu_virt (m_cpu m))) = MAX_CPUS ∧ pcpu_counter (m_cpu m) = 0;
  tr_linker : 1 <= pages <= 512 ∧ 0 <= pcpu_id_addr <= 4096 * pages - 2
}.

Definition gdt_full (m : machine) : Prop := ∀ j, GDT_START <= j < GDT_ENTRY_NR → seg_present (gdt (pc_gdt (m_cpu m))) j = true.

Lemma start_memory_ok m free f3 f2 : boot_tables (m_vm m) free f3 f2 → phys_wf (vm_frames (m_vm m)) →
  (∀ n, 0 <= n → page_free (vm_frames (m_vm m)) n = free n) → tables_ready m →
  wpx (start_memory m) (fun m' => ∃ g3 g2 g1 n, start_state m m' free g3 g2 g1 n)
    (fun msg => (no_frame msg ∧ vm_init (m_vm m) = Panic msg) ∨ (msg = "out of GDT entries"%string ∧ gdt_full m) ∨
       (msg = "out of physical memory"%string ∧ ∃ v, vm_init (m_vm m) = Ok v ∧ ∀ q, ¬ slack_run (vm_frames v) pages q))
    (∃ v, vm_init (m_vm m) = Ok v ∧ ∀ q, ¬ slack_run (vm_frames v) pages q).
Proof.
  intros Hb Hp Hf [[Hi1 Hi2] [Hi3 Hi4] Hg [Hvl Hc] [Hpg Ha]]. unfold start_memory, interrupt_init.
  destruct (proj1 (wp_ok _ _) (idt_init_ok _ int_table kernel_idt Hi1 Hi2 Hi3 Hi4)) as ([t d] & -> & Hidt & ->). rewrite !bind_ok.
  cbv zeta. change (m_vm (with_idt (set_kernel m _) _)) with (m_vm m).
  destruct (boot_ready (m_vm m) free f3 f2 Hb Hp Hf) as [Hroot Hpath].
  pose proof (vm_init_ok (m_vm m) (bt_lock _ _ _ _ Hb) Hroot Hpath) as Hw.
  destruct (vm_init (m_vm m)) as [v|msg| |] eqn:Einit; [|left; by split|destruct Hw..]. rewrite bind_ok.
  destruct Hw as (Ec & g3 & g2 & g1 & [Hk Hslots _] & Htk). set (m1 := set_m_vm _ v).
  assert (Hr1 : percpu_ready (m_cpu m1) g3 g2 g1) by (split; [exact Hg|exact Hk|apply Htk|exact Hvl]).
  wp_step. eapply wpx_mono; [exact (percpu_init_stops (m_cpu m1) g3 g2 g1 Hr1 ltac:(
    change (pcpu_counter (m_cpu m1)) with (pcpu_counter (m_cpu m)); rewrite Hc; unfold MAX_CPUS; lia) Hpg Ha)| | |by exists v].
  2: { intros msg [[-> Hfull]|[[-> Hno]|[_ Hno]]]; [right; by left|right; right; split; [done|by exists v]|exfalso].
       apply Hno. intros k Hk'. change (present (entry (vm_mem v) g1 k) = false). by rewrite (Hslots k) by lia. }
  intros c (i & n & Hadd). cbn [wpx]. exists g3, g2, g1, n.
  by apply (start_state_ok m m1 c free g3 g2 g1 i n).
Qed.

End start.

Section kernel_start.
Context {HM : Mmu} {HL : Linker} {HI : Image} {HG : Program} (get : Z → outcome Z).

(** The page tables of the kernel, when the memory map and the modules have been read: the state [vm_init] starts from. *)
Definition memory_read (mbi : Z) (m : machine) (v : vm phys) : Prop := ∃ s info,
  kernel_main_memory get MULTIBOOT2_BOOTLOADER_MAGIC mbi (m_frame_buf m) (vm_frames (m_vm m)) (m_info m) = Ok (inr (s, info)) ∧
  v = with_frames (m_vm m) (s_phys s).

(** [vm_init] leaves no run of frames that the allocator is sure to find for the per-CPU data. *)
Definition no_percpu_run (mbi : Z) (m : machine) : Prop := ∃ v0 v, memory_read mbi m v0 ∧ vm_init v0 = Ok v ∧
  ∀ q, ¬ slack_run (vm_frames v) pages q.

(** Why the start stops after the memory has been read. *)
Definition start_stop (mbi : Z) (m : machine) (msg : string) : Prop :=
  (no_frame msg ∧ ∃ v0, memory_read mbi m v0 ∧ vm_init v0 = Panic msg) ∨
  (msg = "out of GDT entries"%string ∧ gdt_full m) ∨
  (msg = "out of physical memory"%string ∧ no_percpu_run mbi m).

Lemma kernel_start_ok mbi size ts m f3 f2 : let free := usable (vm_frames (m_vm m)) ts in
  let info := foldl count_module (m_info m) (modules ts) in
  image_ok → phys_wf (vm_frames (m_vm m)) → 0 <= mbi → read_le get 4 mbi = Ok size → size <= PG_SIZE → tags_at get (mbi + 8) ts →
  boot_tables (m_vm m) free f3 f2 → tables_ready m →
  wpx (kernel_start get MULTIBOOT2_BOOTLOADER_MAGIC mbi m) (fun '(m', r) => r = Some (rsdp_of (mbi + 8) ts 0) ∧ config_size info ≠ 0 ∧
      ∃ g3 g2 g1 n, start_state (with_boot m (frame_buf_of ts (m_frame_buf m)) info) m' free g3 g2 g1 n)
    (fun msg => (msg = "Missing config module"%string ∧ config_size info = 0) ∨ start_stop mbi m msg)
    (no_percpu_run mbi m).
Proof.
  cbv zeta. intros Hi Hp Hm Esz Hsz Hts Hb Ht. unfold kernel_start.
  pose proof (memory_ok get mbi size (m_frame_buf m) (vm_frames (m_vm m)) (m_info m) ts Hi Hp Hm Esz Hsz Hts) as Hmem. cbv zeta in Hmem.
  destruct (kernel_main_memory get MULTIBOOT2_BOOTLOADER_MAGIC mbi (m_frame_buf m) (vm_frames (m_vm m)) (m_info m)) as [r|msg| |] eqn:Er;
    [|by left|destruct Hmem..].
  destruct Hmem as (s & -> & Ps & _ & Fs & Rs & Bs & Hc). rewrite bind_ok. wp_step.
  assert (Hread : memory_read mbi m (with_frames (m_vm m) (s_phys s))) by (by do 2 eexists).
  set (m0 := with_boot _ _ _).
  assert (Hb0 : boot_tables (m_vm m0) (usable (vm_frames (m_vm m)) ts) f3 f2) by (destruct Hb; by split).
  assert (Ht0 : tables_ready m0) by (destruct Ht; by split).
  eapply wpx_mono; [exact (start_memory_ok m0 _ f3 f2 Hb0 Ps Fs Ht0)| | |].
  - intros m' (g3 & g2 & g1 & n & Hs). cbn [wpx]. split; [by rewrite Rs|]. split; [exact Hc|]. exists g3, g2, g1, n.
    destruct Hs as [S1 S2 S3 S4 S5 S6 S7 (R1 & R2 & R3 & R4)]. split; try done. split; [rewrite R1; exact Bs|done].
  - intros msg [[Hm1 Hm2]|[Hm1|[Hm1 (v & Ev & Hno)]]]; right; [left|right; by left|right; right].
    + split; [exact Hm1|]. eexists. split; [exact Hread|exact Hm2].
    + split; [exact Hm1|]. by eexists _, v.
  - intros (v & Ev & Hno). by eexists _, v.
Qed.
End kernel_start.

(** ** The heap and the configuration *)

Section config.
Context {HM : Mmu} (get : Z → outcome Z) (j : junk).

(** What [start_config] leaves: the heap over frames from [n] on, and the guests' images where the boot loader put them. *)
Record configured (ts : list mb_tag) (m m' : machine) (f3 f2 f1 n : Z) : Prop := {
  cf_kernel : kernel_pt (m_vm m') f3 f2 f1;
  cf_phys : phys_wf (vm_frames (m_vm m'));
  cf_taken q : 0 <= q →
    page_free (vm_frames (m_vm m')) q = page_free (vm_frames (m_vm m)) q && negb ((n <=? q) && (q <? n + 1024));
  cf_pool o : 0 <= o < 2 ^ 22 → translate (vm_mem (m_vm m')) (vm_cr3 (m_vm m)) (MALLOC_BASE + o) = Some (4096 * n + o);
  cf_tables a : a ≠ f2 + 8 * 3 → a ≠ f2 + 8 * 4 → ldw (vm_mem (m_vm m')) a = ldw (vm_mem (m_vm m)) a;
  cf_heap : heap_ok (v_heap (m_virt m'));
  cf_info : info_ok (m_info m') (num_mod (m_info m)) ∧
    config_paddr (m_info m') = config_paddr (m_info m) ∧ config_size (m_info m') = config_size (m_info m);
  cf_names : mod_str (m_info m') !! 0%nat = Some LINUX_NAME ∧ mod_str (m_info m') !! 1%nat = Some INITRD_NAME;
  cf_images i s md : mod_str (m_info m') !! i = Some s → named s (modules ts) = Some md →
    mod_paddr (m_info m') !! i = Some md.1.1 ∧ mod_size (m_info m') !! i = Some (md.1.2 - md.1.1)
}.

(** What it needs. *)
Record config_ready (m : machine) (f3 f2 f1 : Z) : Prop := {
  cr_kernel : kernel_pt (m_vm m) f3 f2 f1;
  cr_phys : phys_wf (vm_frames (m_vm m));
  cr_pool : slot_free (vm_mem (m_vm m)) f2 3 ∧ slot_free (vm_mem (m_vm m)) f2 4;
  cr_window i : 0 <= i < 512 → slot_free (vm_mem (m_vm m)) f1 i → entry (vm_mem (m_vm m)) f1 i = 0;
  cr_heap : heap_start (v_heap (m_virt m)) ∧ lock_free (mm_lock (v_heap (m_virt m)));
  cr_config : config_paddr (m_info m) mod 2 ^ 12 = 0 ∧ 0 <= config_paddr (m_info m) < 2 ^ 32 ∧ 1 <= config_size (m_info m) <= 255 * 4096;
  cr_modules : 0 <= num_mod (m_info m) <= 2 ^ 14 ∧ num_mod (m_info m) ≠ 1;
  cr_junk : c_string (junk_str j) ∧ Z.of_nat (length (junk_str j)) < BOOT_STRING_MAX ∧ is_u16 (junk16 j)
}.

Lemma start_config_ok mbi ts m f3 f2 f1 : config_ready m f3 f2 f1 → 0 <= mbi → tags_at get (mbi + 8) ts →
  wpx (start_config get j mbi m) (fun m' => ∃ n, aligned_run (vm_frames (m_vm m)) 1024 9 n ∧ (∀ n', aligned_run (vm_frames (m_vm m)) 1024 9 n' → n <= n') ∧
      configured ts m m' f3 f2 f1 n)
    (fun msg => (msg = "out of physical memory"%string ∧ ∀ n, ¬ aligned_run (vm_frames (m_vm m)) 1024 9 n) ∨ boot_message (m_info m) msg) False.
Proof.
  intros [Hk Hp [F3 F4] Hz [Hh Hhl] (C1 & C2 & C3) [N1 N2] (J1 & J2 & J3)] Hm Hts. unfold start_config. wp_step.
  eapply wpx_mono; [exact (malloc_init_total _ _ f3 f2 f1 Hk Hp Hh F3 F4)| |by left|done].
  intros [v h] (n & Hrun & Hlowest & [Q1 Q2 Q3 _ Q5 Q6 Q7 Q8 Q9]).
  assert (Hf1 : ∀ i, 0 <= i < 512 → entry (vm_mem v) f1 i = entry (vm_mem (m_vm m)) f1 i).
  { intros i Hi. pose proof (aligned_f1 _ _ _ _ Hk) as A1. pose proof (aligned_f2 _ _ _ _ Hk) as A2. destruct (kp_ne1 _ _ _ _ Hk) as (_ & _ & Hne).
    unfold aligned in *. apply Q7; dlia. }
  wp_step. eapply wpx_mono; [apply (parse_boot_info_ok j v f3 f2 f1 h (m_info m) Q1)| |by right|done]; try done.
  { intros i Hi Hs. unfold slot_free in Hs. rewrite Hf1 in Hs |- * by done. by apply Hz. }
  { exists initial_blocks, initial_lists. split; [exact Q8|by rewrite Q9]. }
  intros [[v' h'] info1] [P1 P2 P3 P4 P5 P6 P7 _].
  destruct (assign_modules_ok get ts mbi info1 _ Hts Hm P5) as (info2 & -> & L). rewrite bind_ok. cbn [wpx].
  exists n. split; [exact Hrun|]. split; [exact Hlowest|]. pose proof (located_info_ok _ _ _ _ L P5) as Hi2. destruct L as (a & b & -> & [_ La] & [_ Lb]).
  split; cbn [m_vm m_kernel with_virt with_boot set_m_vm set_kernel with_cpu m_cpu pc_kernel with_kernel k_vm set_vm m_info m_virt v_heap with_heap].
  - exact P1.
  - rewrite P3. exact Q2.
  - intros q Hq. rewrite P3. by apply Q5.
  - intros o Ho. apply (translate_stable (vm_mem v)); [intros x _; apply P2|]. rewrite <- Q3. by apply Q6.
  - intros x X1 X2. rewrite P2. by apply Q7.
  - exact P4.
  - split; [exact Hi2|exact P6].
  - exact P7.
  - intros i s md Hs Hn. cbn [mod_str set_mod_size set_mod_paddr mod_paddr mod_size] in *. rewrite (La i s Hs), (Lb i s Hs), Hn. by split.
Qed.
End config.

(** ** The task segment *)

Section task.
Context {HM : Mmu} {HL : Linker} {HG : Program}.

Lemma task_setup_ok m stack id pa : gdt_ok (pc_gdt (m_cpu m)) → my_id (m_cpu m) = Ok id → 0 <= id →
  percpu_virt (m_cpu m) !! Z.to_nat id = Some (fs_base (m_cpu m)) →
  0 <= fs_base (m_cpu m) → 0 <= cpu_tss → fs_base (m_cpu m) + cpu_tss + TSS_RSP0 < 2 ^ 64 →
  k_translate (m_kernel m) (fs_base (m_cpu m) + cpu_tss + TSS_RSP0) = Some pa →
  wpx (task_setup stack m) (fun m' => ∃ sel d, m' = with_tr (with_cpu m (PerCpu (add_io (m_kernel m) (MemStore pa stack)) d
        (percpu_virt (m_cpu m)) (pcpu_counter (m_cpu m)) (fs_base (m_cpu m)))) sel ∧
      gdt_ok d ∧ installed d sel ∧ get_gdt_tss_base d sel = Ok (fs_base (m_cpu m) + cpu_tss))
    (fun msg => msg = "out of GDT entries"%string) False.
Proof.
  intros Hg Hid Hid0 Hv Hb Ht Hlt Htr. unfold TSS_RSP0 in *. unfold task_setup. cbv zeta. rewrite Hid, bind_ok.
  unfold percpu_pointer. rewrite (list_get_lookup _ id _ Hid0 Hv), !bind_ok.
  unfold TSS_RSP0.
  assert (A1 : is_u64 (fs_base (m_cpu m) + cpu_tss)) by (unfold is_u64; lia).
  assert (A2 : is_u64 (fs_base (m_cpu m) + cpu_tss + 4)) by (unfold is_u64; lia).
  rewrite (u64_id _ A1), (u64_id _ A2).
  change (pc_kernel (m_cpu m)) with (m_kernel m). rewrite (mem_store_ok _ _ _ _ Htr), bind_ok.
  wp_step. eapply wpx_mono; [exact (alloc_tss_desc_ok (pc_gdt (m_cpu m)) (fs_base (m_cpu m) + cpu_tss) Hg A1)| |by intros msg [-> _]|done].
  intros [sel d] (i & _ & _ & _ & _ & Hd & Hins & Hget & _). cbn [wpx]. by exists sel, d.
Qed.
End task.

(** ** A processor that starts *)

Section ap.
Context {HM : Mmu} {HL : Linker} {HD : Devices} {HS : Processors} {HG : Program} {HO : Others}.

(** What a processor finds when it enters [ap_main]. *)
Record ap_ready (m : machine) (f3 f2 f1 : Z) : Prop := {
  ar_percpu : percpu_ready (m_cpu m) f3 f2 f1;
  ar_counter : 1 <= pcpu_counter (m_cpu m) < MAX_CPUS;
  ar_linker : 1 <= pages <= 512 ∧ 0 <= pcpu_id_addr <= 4096 * pages - 2 ∧
    0 <= cpu_tss ∧ cpu_tss + TSS_SIZE <= 4096 * pages ∧ pcpu_id_addr ≠ cpu_tss + TSS_RSP0;
  ar_status : k_translate (m_kernel m) BOOT_STATUS = Some BOOT_STATUS ∧ 0 <= BOOT_STATUS < 2 ^ 20;
  ar_lapic : page_mapped (m_kernel m) (lapic_addr (k_apic (m_kernel m))) (lapic_addr (k_apic (m_kernel m))) ∧
    length (lapic_phys_ids (k_apic (m_kernel m))) = 16%nat;
  ar_sync : lock_free (m_sync m).2 ∧ is_u8 (m_sync m).1
}.

(** What it writes until its loop, latest first, when its data lie at the frame [n]. *)
Definition ap_events (m : machine) (n base stack : Z) (r : nat) : list io_event :=
  let la := lapic_addr (k_apic (m_kernel m)) in
  Wrmsr IA32_MTRR_DEF_TYPE 0x806 :: masked r ++ Wrmsr IA32_MTRR_DEF_TYPE 0x6 ::
  MemStore (4096 * n + (cpu_tss + TSS_RSP0)) stack ::
  MmioRead (la + LAPIC_ID) :: rev (map (fun p => MmioWrite (la + p.1) p.2) lapic_init_writes) ++
  MemStore BOOT_STATUS 1 ::
  [MemStore (4096 * n + pcpu_id_addr) (pcpu_counter (m_cpu m)); Wrmsr IA32_FS_BASE base].

Record ap_up (m m' : machine) (f3 f2 f1 stack : Z) : Prop := {
  au_ready : percpu_ready (m_cpu m') f3 f2 f1;
  au_id : my_id (m_cpu m') = Ok (pcpu_counter (m_cpu m)) ∧ pcpu_counter (m_cpu m') = pcpu_counter (m_cpu m) + 1;
  au_task : installed (pc_gdt (m_cpu m')) (m_tr m') ∧
    get_gdt_tss_base (pc_gdt (m_cpu m')) (m_tr m') = Ok (fs_base (m_cpu m') + cpu_tss);
  au_lapic : ∃ id, lapic_get_phys_id (m_kernel m') (pcpu_counter (m_cpu m)) = Ok id;
  au_io : ∃ n r, k_io (m_kernel m') = ap_events m n (fs_base (m_cpu m')) stack r ++ k_io (m_kernel m);
  au_keeps va pa : k_translate (m_kernel m) va = Some pa → k_translate (m_kernel m') va = Some pa;
  au_sync : (m_sync m').1 = (m_sync m).1 ∧ lock_free (m_sync m').2
}.

Lemma last_store_skip es h pa : Forall (fun e => ∀ v, e ≠ MemStore pa v) es → last_store (es ++ h) pa = last_store h pa.
Proof.
  induction 1 as [|e es He _ IH]; [reflexivity|]. cbn [app last_store]. destruct e; try exact IH.
  destruct (Z.eqb_spec pa0 pa) as [->|]; [by destruct (He data)|exact IH].
Qed.

Lemma masked_no_store r pa : Forall (fun e => ∀ v, e ≠ MemStore pa v) (masked r).
Proof. induction r; constructor; [discriminate|done]. Qed.

(** The CPU still reads its number after [es], which do not touch it. *)
Lemma id_after (s c : percpu) f3 f2 f1 i n k es : percpu_added s c f3 f2 f1 i n → 0 <= pcpu_id_addr < 4096 * pages →
  k_vm k = k_vm (pc_kernel c) → k_io k = es ++ k_io (pc_kernel c) →
  Forall (fun e => ∀ v, e ≠ MemStore (4096 * n + pcpu_id_addr) v) es → get_pcpu_id k (fs_base c) = Ok (pcpu_counter s).
Proof.
  intros Hadd Ha Hv Hio Hes. unfold get_pcpu_id. rewrite Hv, Hio.
  destruct (pa_base _ _ _ _ _ _ _ Hadd). rewrite (u64_id (fs_base c + pcpu_id_addr)) by (unfold is_u64; lia).
  rewrite (pa_mapped _ _ _ _ _ _ _ Hadd _ Ha), (last_store_skip _ _ _ Hes), (pa_io _ _ _ _ _ _ _ Hadd). cbn [last_store]. by rewrite Z.eqb_refl.
Qed.

Lemma lapic_events_no_store la pa :
  Forall (fun e => ∀ v, e ≠ MemStore pa v) (MmioRead (la + LAPIC_ID) :: rev (map (fun p => MmioWrite (la + p.1) p.2) lapic_init_writes)).
Proof. cbn. repeat (constructor; [discriminate|]). constructor. Qed.

Lemma started_ok : (∃ i, 0 <= i < 2 ^ 64 ∧ others_started i = true) → while started_step 0 = Ok tt.
Proof.
  intros (i0 & Hi & Ht). assert (Hw : wp (while started_step 0) (fun r => r = tt)).
  { apply (wp_while _ (fun i => 0 <= i <= i0) (fun i => i0 - i)); [|lia|lia].
    intros i Hb. unfold started_step. destruct (others_started i) eqn:E; [reflexivity|].
    destruct (Z.eq_dec i i0) as [->|]; [congruence|cbn; lia]. }
  by destruct (proj1 (wp_ok _ _) Hw) as ([] & E & _).
Qed.

(** The local APIC, on a CPU that is not the first. *)
Lemma lapic_setup_ok m id : my_id (m_cpu m) = Ok id → 1 <= id < 16 →
  page_mapped (m_kernel m) (lapic_addr (k_apic (m_kernel m))) (lapic_addr (k_apic (m_kernel m))) →
  length (lapic_phys_ids (k_apic (m_kernel m))) = 16%nat →
  ∃ k', lapic_setup m = Ok (set_kernel m k') ∧ k_vm k' = k_vm (m_kernel m) ∧ k_acpi k' = k_acpi (m_kernel m) ∧
    (∃ p, lapic_get_phys_id k' id = Ok p) ∧
    k_io k' = (MmioRead (lapic_addr (k_apic (m_kernel m)) + LAPIC_ID) ::
      rev (map (fun p => MmioWrite (lapic_addr (k_apic (m_kernel m)) + p.1) p.2) lapic_init_writes)) ++ k_io (m_kernel m).
Proof.
  intros Hid Hr Hm Hlen. unfold lapic_setup, on_kernel. rewrite Hid, bind_ok. unfold lapic_init.
  destruct (Z.eqb_spec id 0); [lia|]. rewrite (bind_ok (m_kernel m)).
  destruct (lapic_registers_ok (m_kernel m) id _ Hm Hlen ltac:(lia)) as (k' & p & E & _ & Hp & Hio & Hv & _ & Ha).
  rewrite E, bind_ok. exists k'. split; [reflexivity|]. split; [exact Hv|]. split; [exact Ha|]. split; [by exists p|exact Hio].
Qed.

(** From the kernel after [percpu_init] and the status, on. *)
Section running.
Context (m : machine) (f3 f2 f1 i n stack : Z) (c : percpu).
Hypothesis Hr : ap_ready m f3 f2 f1.
Hypothesis Hadd : percpu_added (m_cpu m) c f3 f2 f1 i n.
Let m1 := with_cpu m (with_kernel c (add_io (pc_kernel c) (MemStore BOOT_STATUS 1))).

Lemma status_no_store : Forall (fun e => ∀ v, e ≠ MemStore (4096 * n + pcpu_id_addr) v) [MemStore BOOT_STATUS 1].
Proof using Hr Hadd.
  constructor; [|constructor]. intros v [= E _]. pose proof (pa_low _ _ _ _ _ _ _ Hadd).
  destruct (ar_status _ _ _ _ Hr), (ar_linker _ _ _ _ Hr). lia.
Qed.

Lemma running_id k es : k_vm k = k_vm (pc_kernel c) → k_io k = es ++ MemStore BOOT_STATUS 1 :: k_io (pc_kernel c) →
  Forall (fun e => ∀ v, e ≠ MemStore (4096 * n + pcpu_id_addr) v) es → get_pcpu_id k (fs_base c) = Ok (pcpu_counter (m_cpu m)).
Proof using Hr Hadd.
  intros Hv Hio Hes. destruct (ar_linker _ _ _ _ Hr) as (Hp & Ha & _).
  apply (id_after (m_cpu m) c f3 f2 f1 i n k (es ++ [MemStore BOOT_STATUS 1])); [exact Hadd|lia|exact Hv|by rewrite <- app_assoc|].
  apply Forall_app. split; [exact Hes|exact status_no_store].
Qed.

Lemma running_lapic : page_mapped (m_kernel m1) (lapic_addr (k_apic (m_kernel m1))) (lapic_addr (k_apic (m_kernel m1))) ∧
  length (lapic_phys_ids (k_apic (m_kernel m1))) = 16%nat ∧ k_apic (m_kernel m1) = k_apic (m_kernel m) ∧ k_acpi (m_kernel m1) = k_acpi (m_kernel m).
Proof using Hr Hadd.
  destruct (ar_lapic _ _ _ _ Hr) as [[P1 P2] L]. destruct (pa_tables _ _ _ _ _ _ _ Hadd) as [E1 E2].
  change (k_apic (m_kernel m1)) with (k_apic (pc_kernel c)). rewrite E1. split; [|by split].
  split; [exact P1|]. intros o Ho. exact (pa_keeps _ _ _ _ _ _ _ Hadd _ _ (P2 o Ho)).
Qed.

(** What is there in the loop, from the kernel [k3] after [lapic_init], the table [d] and the kernel [k'] after the barrier. *)
Lemma ap_up_ok k3 d sel k' l r : k_vm k3 = k_vm (pc_kernel c) →
  k_io k3 = (MmioRead (lapic_addr (k_apic (m_kernel m)) + LAPIC_ID) ::
    rev (map (fun p => MmioWrite (lapic_addr (k_apic (m_kernel m)) + p.1) p.2) lapic_init_writes)) ++ MemStore BOOT_STATUS 1 :: k_io (pc_kernel c) →
  (∃ p, lapic_get_phys_id k3 (pcpu_counter (m_cpu m)) = Ok p) → gdt_ok d → installed d sel →
  get_gdt_tss_base d sel = Ok (fs_base c + cpu_tss) → k_vm k' = k_vm k3 → k_apic k' = k_apic k3 →
  k_io k' = Wrmsr IA32_MTRR_DEF_TYPE 0x806 :: masked r ++ Wrmsr IA32_MTRR_DEF_TYPE 0x6 ::
    MemStore (4096 * n + (cpu_tss + TSS_RSP0)) stack :: k_io k3 → lock_free l →
  ap_up m (with_sync (with_tr (with_cpu m (PerCpu k' d (percpu_virt c) (pcpu_counter c) (fs_base c))) sel) (m_sync m).1 l) f3 f2 f1 stack.
Proof using Hr Hadd.
  intros V3 I3 P3 Hd Hins Hget V' P' I' Hl. pose proof (pa_ready _ _ _ _ _ _ _ Hadd) as [_ R2 R3 R4].
  pose proof (eq_trans V' V3) as Hv.
  split.
  - split; cbn [with_sync with_tr with_cpu m_cpu pc_gdt pc_kernel percpu_virt]; rewrite ?Hv; done.
  - split; [|exact (pa_counter _ _ _ _ _ _ _ Hadd)]. rewrite I3 in I'.
    apply (running_id k' (Wrmsr IA32_MTRR_DEF_TYPE 0x806 :: masked r ++ Wrmsr IA32_MTRR_DEF_TYPE 0x6 ::
      MemStore (4096 * n + (cpu_tss + TSS_RSP0)) stack :: (MmioRead (lapic_addr (k_apic (m_kernel m)) + LAPIC_ID) ::
      rev (map (fun p => MmioWrite (lapic_addr (k_apic (m_kernel m)) + p.1) p.2) lapic_init_writes)))); [exact Hv| |].
    + rewrite I'. cbn [app]. rewrite <- !app_assoc. reflexivity.
    + constructor; [discriminate|]. apply Forall_app. split; [apply masked_no_store|]. constructor; [discriminate|].
      constructor; [|apply lapic_events_no_store]. intros v [= E _]. destruct (ar_linker _ _ _ _ Hr) as (_ & _ & _ & _ & Hne). lia.
  - by split.
  - destruct P3 as [p Hp]. exists p. unfold lapic_get_phys_id in *. change (k_apic (m_kernel _)) with (k_apic k'). by rewrite P'.
  - exists n, r. change (m_kernel (with_sync _ _ _)) with k'. rewrite I', I3, (pa_io _ _ _ _ _ _ _ Hadd). unfold ap_events.
    cbv zeta. cbn [app]. rewrite <- !app_assoc. cbn [app]. rewrite <- !app_assoc. reflexivity.
  - intros va pa Ht. unfold k_translate in *. change (m_kernel (with_sync _ _ _)) with k'. rewrite Hv.
    exact (pa_keeps _ _ _ _ _ _ _ Hadd va pa Ht).
  - by split.
Qed.
End running.

Lemma ap_main_ok rsp m f3 f2 f1 : let stack := (rsp .& PG_MASK) +w PG_SIZE in
  ap_ready m f3 f2 f1 → others_arrive (m_sync m).1 (g_cpus (k_acpi (m_kernel m))) → others_leave (m_sync m).1 →
  (∃ i, 0 <= i < 2 ^ 64 ∧ others_started i = true) →
  wpx (ap_main rsp m) (fun m' => ap_up m m' f3 f2 f1 stack)
    (fun msg => percpu_message msg) (∀ q, ¬ slack_run (vm_frames (m_vm m)) pages q).
Proof.
  cbv zeta. intros Hr Harr Hleave Hst. unfold ap_main.
  pose proof Hr as [Hp Hc (Hpg & Ha & Ht0 & Ht1 & Hne) [Hbs Hb0] _ [Hl Hn]]. wp_step.
  eapply wpx_post; [exact (percpu_init_ok (m_cpu m) f3 f2 f1 Hp ltac:(lia) Hpg Ha)|]. intros c (i & n & Hadd). cbv zeta.
  unfold on_kernel at 1. cbn [m_kernel m_cpu with_cpu].
  rewrite (mem_store_ok (pc_kernel c) _ _ _ (pa_keeps _ _ _ _ _ _ _ Hadd _ _ Hbs)), !bind_ok.
  set (m1 := set_kernel _ _). destruct (running_lapic m f3 f2 f1 i n c Hr Hadd) as (L1 & L2 & La & Lc).
  destruct (lapic_setup_ok m1 (pcpu_counter (m_cpu m))) as (k3 & E3 & V3 & A3 & P3 & I3); [..|rewrite E3, bind_ok].
  { apply (running_id m f3 f2 f1 i n c Hr Hadd _ []); [reflexivity|reflexivity|constructor]. }
  { unfold MAX_CPUS in Hc. lia. }
  { exact L1. }
  { exact L2. }
  change (k_apic (m_kernel m1)) with (k_apic (pc_kernel c)) in I3. rewrite (proj1 (pa_tables _ _ _ _ _ _ _ Hadd)) in I3.
  set (m2 := set_kernel m1 k3).
  assert (Hid2 : my_id (m_cpu m2) = Ok (pcpu_counter (m_cpu m))).
  { apply (running_id m f3 f2 f1 i n c Hr Hadd k3 _ V3 I3 (lapic_events_no_store _ _)). }
  destruct (pa_base _ _ _ _ _ _ _ Hadd) as [Hb1 Hb2].
  assert (Htss : k_translate (m_kernel m2) (fs_base c + cpu_tss + TSS_RSP0) = Some (4096 * n + (cpu_tss + TSS_RSP0))).
  { unfold k_translate. change (m_kernel m2) with k3. rewrite V3, <- Z.add_assoc. apply (pa_mapped _ _ _ _ _ _ _ Hadd).
    unfold TSS_RSP0, TSS_SIZE in *. lia. }
  assert (Hvirt : percpu_virt c !! Z.to_nat (pcpu_counter (m_cpu m)) = Some (fs_base c)).
  { rewrite (pa_virt _ _ _ _ _ _ _ Hadd). apply list_lookup_insert_eq. pose proof (pr_virt _ _ _ _ Hp). lia. }
  pose proof (pa_ready _ _ _ _ _ _ _ Hadd) as Hrc.
  wp_step. eapply wpx_mono;
    [exact (task_setup_ok m2 _ (pcpu_counter (m_cpu m)) _ (pr_gdt _ _ _ _ Hrc) Hid2 ltac:(lia) Hvirt Hb1 Ht0
       ltac:(change (fs_base (m_cpu m2)) with (fs_base c); unfold TSS_RSP0, TSS_SIZE in *; lia) Htss)| |by left|done].
  intros m3' (sel & d & -> & Hd & Hins & Hget). set (m3 := with_tr _ _).
  assert (Hg3 : g_cpus (k_acpi (m_kernel m3)) = g_cpus (k_acpi (m_kernel m))) by (change (k_acpi (m_kernel m3)) with (k_acpi k3); rewrite A3; exact (f_equal g_cpus (proj2 (pa_tables _ _ _ _ _ _ _ Hadd)))).
  destruct (mtrr_update_ok m3 Hl Hn ltac:(rewrite Hg3; exact Harr) Hleave) as (k' & l & r & E & Hl' & _ & V' & P' & A' & I').
  rewrite E, bind_ok, (started_ok Hst). cbn [wpx].
  rewrite (bind_ok tt). cbn [wpx]. exact (ap_up_ok m f3 f2 f1 i n _ c Hr Hadd k3 d sel k' l r V3 I3 P3 Hd Hins Hget V' P' I' Hl').
Qed.
End ap.

(** ** The early returns, and the boot code of the other CPUs *)

Section early.
Context {HM : Mmu} {HL : Linker} {HD : Devices} {HS : Processors} {HF : Firmware} {HI : Image}.
Context {HP : Processor} {HX : Vmx} {HG : Program} {HO : Others}.

(** Not started by the boot loader: nothing is done but the message. *)
Lemma kernel_main_magic get j jvm magic mbi m : magic ≠ MULTIBOOT2_BOOTLOADER_MAGIC →
  kernel_main get j jvm magic mbi m = Ok (set_kernel m (add_log (m_kernel m) "Invalid magic number: %X" [u32 magic]), Returned).
Proof.
  intros Hm. unfold kernel_main, kernel_start, kernel_main_memory. by rewrite (proj2 (Z.eqb_neq _ _) Hm).
Qed.

Lemma kernel_main_too_big get j jvm mbi m size : read_le get 4 mbi = Ok size → PG_SIZE < size →
  kernel_main get j jvm MULTIBOOT2_BOOTLOADER_MAGIC mbi m =
    Ok (set_kernel m (add_log (m_kernel m) "Multiboot struct is too big: %u" [size]), Returned).
Proof.
  intros Es Hs. unfold kernel_main, kernel_start, kernel_main_memory. rewrite Z.eqb_refl. cbn [negb]. rewrite Es, bind_ok.
  by rewrite (proj2 (Z.ltb_lt _ _) Hs).
Qed.

(** The copy puts each byte at its place and keeps everything else. *)
Lemma copy_out_ok k dest src : 0 <= dest → dest + Z.of_nat (length src) < 2 ^ 64 →
  (∀ i, 0 <= i < Z.of_nat (length src) → k_translate k (dest + i) = Some (dest + i)) →
  ∃ k' es, copy_out k dest src = Ok k' ∧ k' = Kernel (k_vm k) (k_apic k) (k_acpi k) (es ++ k_io k) (k_log k) ∧
    (∀ i b, src !! i = Some b → last_store es (dest + Z.of_nat i) = Some b) ∧
    (∀ pa, pa < dest ∨ dest + Z.of_nat (length src) <= pa → Forall (fun e => ∀ v, e ≠ MemStore pa v) es).
Proof.
  revert k dest. induction src as [|b src IH]; intros k dest H0 Hl Ht.
  - exists k, []. split; [reflexivity|]. split; [by destruct k|]. split; [done|by constructor].
  - cbn [length] in *. cbn [copy_out]. pose proof (Ht 0 ltac:(lia)) as Ht0. rewrite Z.add_0_r in Ht0.
    rewrite (mem_store_ok _ _ _ _ Ht0), bind_ok, (u64_id (dest + 1)) by (unfold is_u64; lia).
    destruct (IH (add_io k (MemStore dest b)) (dest + 1)) as (k' & es & E & -> & Hb & Ho); [lia|lia| |].
    { intros i Hi. replace (dest + 1 + i) with (dest + (i + 1)) by lia. apply Ht. lia. }
    exists (Kernel (k_vm k) (k_apic k) (k_acpi k) ((es ++ [MemStore dest b]) ++ k_io k) (k_log k)), (es ++ [MemStore dest b]).
    split; [rewrite E; cbn; by rewrite <- app_assoc|]. split; [reflexivity|]. split.
    + intros [|i] c Hc.
      * injection Hc as <-. rewrite last_store_skip by (apply Ho; lia). cbn [last_store]. by rewrite (proj2 (Z.eqb_eq dest (dest + Z.of_nat 0)) ltac:(lia)).
      * replace (dest + Z.of_nat (S i)) with (dest + 1 + Z.of_nat i) by lia. specialize (Hb i c Hc). clear -Hb.
        induction es as [|e es IH]; [discriminate Hb|]. cbn [app last_store] in *. destruct e; try by apply IH. destruct (pa =? _); [done|by apply IH].
    + intros pa Hpa. apply Forall_app. split; [apply Ho; lia|]. constructor; [intros v [= E2 _]; lia|constructor].
Qed.
End early.

(** ** Properties *)

(** C4: [kernel_main] from the multiboot information to the return of [percpu_init], on
    any list of well-formed tags and the tables of the boot code. The 256 gates
    lead to [int_table]; the CPU has its data mapped from the FS base on, is
    recorded in [percpu_virt] and reads the number 0; the frames of the paging
    tables, the frames of the per-CPU data and the pages that are free are apart, and
    what is free or was given to the CPU was available in the memory map, outside
    page 0, the image and the modules. It stops with "Missing config module"
    exactly without one, with a message of [vm_init] only when [vm_init] gives it on the memory that this run
    has read, with "out of GDT entries" only when the GDT has no entry left, and with
    "out of physical memory" only when the frames that [vm_init] leaves on this run hold no run with the slack that
    [alloc_phys_frames] needs; a fault is possible in this last case alone. *)
Theorem kernel_start_spec {HM : Mmu} {HL : Linker} {HI : Image} {HG : Program} (get : Z → outcome Z) mbi size ts m f3 f2 :
  let free := usable (vm_frames (m_vm m)) ts in
  let info := foldl count_module (m_info m) (modules ts) in
  image_ok → phys_wf (vm_frames (m_vm m)) → 0 <= mbi → read_le get 4 mbi = Ok size → size <= PG_SIZE → tags_at get (mbi + 8) ts →
  boot_tables (m_vm m) free f3 f2 → tables_ready m →
  wpx (kernel_start get MULTIBOOT2_BOOTLOADER_MAGIC mbi m) (fun '(m', r) => r = Some (rsdp_of (mbi + 8) ts 0) ∧ config_size info ≠ 0 ∧
      ∃ g3 g2 g1 n, start_state (with_boot m (frame_buf_of ts (m_frame_buf m)) info) m' free g3 g2 g1 n)
    (fun msg => (msg = "Missing config module"%string ∧ config_size info = 0) ∨ start_stop get mbi m msg)
    (no_percpu_run get mbi m).
Proof. apply kernel_start_ok. Qed.

(** C10: [kernel_main] from [acpi_sec_init] to the end of the barrier. When the processors
    that start reach the barrier and leave it, the CPU passes it with [g_cpus] the number
    of CPUs that run and its memory types set, and leaves [mtrr_sync] as it
    was. The first 2 MB are then mapped nowhere, while every page from 2 MB to 1 GB
    keeps its place. So a processor that is given up and starts later faults
    at its first store, to [BOOT_STATUS]. *)
Theorem start_others_spec {HM : Mmu} {HD : Devices} {HS : Processors} {HO : Others} m f3 f2 f1 :
  smp_ready (m_kernel m) f3 f2 f1 →
  1 <= g_cpus (k_acpi (m_kernel m)) <= 16 → length (lapic_ids (k_acpi (m_kernel m))) = 16%nat →
  lock_free (m_sync m).2 → is_u8 (m_sync m).1 →
  others_arrive (m_sync m).1 (1 + Z.of_nat (length (List.filter started (to_start (m_kernel m))))) → others_leave (m_sync m).1 →
  wpx (start_others m) (fun m' => others_up m m' f3 f2 f1) smp_message False.
Proof. apply start_others_ok. Qed.

(** C11: [ap_main] takes a processor to its loop, when the others arrive, leave and set
    [virt_start]. It then reads its own number, the next one; its task
    register holds a descriptor of the task segment in its own data; all that was
    mapped stays mapped; and what it writes is, in this order, the FS base and its
    number, [BOOT_STATUS], the local APIC, the stack in the task segment and the memory
    types: the next processor is only started when the number is taken. It
    stops with a message of [percpu_init] (or of the full GDT), and faults at most
    when there is no run of free frames with slack. *)
Theorem ap_main_spec {HM : Mmu} {HL : Linker} {HD : Devices} {HS : Processors} {HG : Program} {HO : Others} rsp m f3 f2 f1 :
  ap_ready m f3 f2 f1 → others_arrive (m_sync m).1 (g_cpus (k_acpi (m_kernel m))) → others_leave (m_sync m).1 →
  (∃ i, 0 <= i < 2 ^ 64 ∧ others_started i = true) →
  wpx (ap_main rsp m) (fun m' => ap_up m m' f3 f2 f1 ((rsp .& PG_MASK) +w PG_SIZE))
    percpu_message (∀ q, ¬ slack_run (vm_frames (m_vm m)) pages q).
Proof. apply ap_main_ok. Qed.

(** C12: [kernel_main] from [malloc_init] to the last use of the multiboot
    information. The heap is one block of 4 MB over the lowest aligned run of free frames,
    mapped from [MALLOC_BASE] on, and still well formed after the arrays of the
    configuration are taken from it; the tables of paging are as before but for the
    two entries of the pool; and every name of the configuration has the place and the
    size of the last module of that name. It stops exactly without such a run of
    frames, or with a message of [parse_boot_info]. *)
Theorem start_config_spec {HM : Mmu} (get : Z → outcome Z) j mbi ts m f3 f2 f1 :
  config_ready j m f3 f2 f1 → 0 <= mbi → tags_at get (mbi + 8) ts →
  wpx (start_config get j mbi m) (fun m' => ∃ n, aligned_run (vm_frames (m_vm m)) 1024 9 n ∧ (∀ n', aligned_run (vm_frames (m_vm m)) 1024 9 n' → n <= n') ∧
      configured ts m m' f3 f2 f1 n)
    (fun msg => (msg = "out of physical memory"%string ∧ ∀ n, ¬ aligned_run (vm_frames (m_vm m)) 1024 9 n) ∨ boot_message (m_info m) msg) False.
Proof. apply start_config_ok. Qed.

(** ** Witnesses *)

#[local] Existing Instances run_firmware run_image run_program sample_linker sample_devices sample_processors.

Lemma run_tags_at : tags_at run_get 0x10008 run_tags.
Proof. apply tags_inb_sound; [unfold run_tags; tags_wf|vm_compute; reflexivity]. Qed.

(** A page that holds a word is not free. *)
Lemma blank_dec (m : gmap Z Z) (free : Z → bool) n k : forallb (fun kv => negb (free (kv.1 / 4096))) (map_to_list m) = true →
  free n = true → 0 <= k < 512 → entry m (4096 * n) k = 0.
Proof.
  intros Hall Hf Hk. unfold entry, ldw. destruct (m !! (4096 * n + 8 * k)) as [w|] eqn:E; [|reflexivity].
  apply elem_of_map_to_list, list_elem_of_In in E. rewrite forallb_forall in Hall. specialize (Hall _ E). cbn [fst] in Hall.
  replace ((4096 * n + 8 * k) / 4096) with n in Hall by dlia. by rewrite Hf in Hall.
Qed.

Lemma sample_image_run_ok : image_ok (HI := run_image).
Proof. vm_compute. repeat split; congruence. Qed.

Lemma run_boot_tables : boot_tables (m_vm run_machine) (usable (vm_frames (m_vm run_machine)) run_tags) 0x301000 0x302000.
Proof.
  split.
  - apply lock_free_unlocked.
  - split; [split|]; apply table_entryb; vm_compute; reflexivity.
  - repeat split; discriminate.
  - intros f Hf. repeat (apply elem_of_cons in Hf as [->|Hf]; [split; [vm_compute; discriminate|vm_compute; reflexivity]|]).
    by apply elem_of_nil in Hf.
  - vm_compute. reflexivity.
  - intros n k _ Hf Hk. apply (blank_dec _ (usable (vm_frames (m_vm run_machine)) run_tags) n k); [vm_compute; reflexivity|exact Hf|exact Hk].
Qed.

Lemma run_tables_ready : tables_ready run_machine.
Proof.
  split.
  - split; [by apply arr_wfb_sound|reflexivity].
  - split; [vm_compute; reflexivity|]. apply Forall_forall. intros x Hx. apply list_elem_of_fmap in Hx as (i & -> & Hi).
    apply elem_of_seqZ in Hi. unfold is_u64. lia.
  - exact boot_gdt_ok.
  - split; reflexivity.
  - unfold pages. cbn. lia.
Qed.

Lemma kernel_start_spec_witness : ∃ m' rsdp, kernel_start run_get MULTIBOOT2_BOOTLOADER_MAGIC 0x10000 run_machine = Ok (m', Some rsdp) ∧
  my_id (m_cpu m') = Ok 0 ∧ config_paddr (m_info m') = 0x330000.
Proof.
  pose proof (kernel_start_spec run_get 0x10000 (Z.of_nat (length run_mbi)) run_tags run_machine 0x301000 0x302000 sample_image_run_ok phys_init_wf
    ltac:(lia) ltac:(vm_compute; reflexivity) ltac:(vm_compute; discriminate) run_tags_at run_boot_tables run_tables_ready) as Hw.
  cbv zeta in Hw.
  assert (Hs : match kernel_start run_get MULTIBOOT2_BOOTLOADER_MAGIC 0x10000 run_machine with Ok _ => true | _ => false end = true) by (vm_compute; reflexivity).
  destruct (kernel_start run_get MULTIBOOT2_BOOTLOADER_MAGIC 0x10000 run_machine) as [[m' r]| | |]; [|discriminate Hs..].
  destruct Hw as (-> & _ & f3 & f2 & f1 & n & S). eexists m', _. split; [reflexivity|].
  split; [exact (proj1 (ss_id _ _ _ _ _ _ _ S))|]. destruct (ss_rest _ _ _ _ _ _ _ S) as (_ & -> & _). vm_compute. reflexivity.
Defined.

(** Processor 4 arrives and leaves; processor 6 does not start. *)
Definition bsp_others : Others := {|
  others_sync := fun leaving i => if leaving then (if i <? 7 then 1 else 0) else (if i <? 3 then 0 else 1);
  others_started := fun _ => true
|}.
Definition bsp_machine : machine := set_kernel run_machine smp_kernel.

Lemma start_others_spec_witness : wpx (start_others (HO := bsp_others) bsp_machine)
  (fun m' => g_cpus (k_acpi (m_kernel m')) = 2 ∧ mem_store (m_kernel m') BOOT_STATUS 1 = Fault) smp_message False.
Proof.
  pose proof (start_others_spec (HO := bsp_others) bsp_machine 0x301000 0x302000 0x305000 smp_kernel_ready ltac:(cbn; lia) eq_refl lock_free_unlocked
    ltac:(unfold is_u8; cbn; lia)) as Hw.
  eapply wpx_post; [apply Hw|].
  - exists 3. split; [lia|]. vm_compute. reflexivity.
  - exists 7. split; [lia|]. vm_compute. reflexivity.
  - intros m' [_ Hg _ _ _ _ Hlate]. split; [rewrite Hg; vm_compute; reflexivity|]. apply Hlate. clear. vm_compute. split; [discriminate|reflexivity].
Defined.

(** A second CPU, when the first waits in the barrier. *)
Definition ap_others : Others := {|
  others_sync := fun leaving i => if leaving then (if i <? 9 then 0 else -1) else 0;
  others_started := fun i => 20 <=? i
|}.
Definition ap_kernel : kernel phys :=
  Kernel (with_frames (k_vm smp_kernel) ample_phys) apic_init (Acpi 2 (replicate 32 (IrqOverride 0 0 0)) 0 1 ([0; 4] ++ replicate 14 0)) [] [].
Definition ap_machine : machine :=
  with_sync (with_cpu run_machine (PerCpu ap_kernel boot_gdt (replicate 16 0) 1 0)) 1 SPINLOCK_UNLOCKED.

Lemma ap_machine_ready : ap_ready ap_machine 0x301000 0x302000 0x305000.
Proof.
  split.
  - split; [exact boot_gdt_ok|apply kernel_pt_frames, (sr_window _ _ _ _ smp_kernel_ready)|exact ample_phys_wf|reflexivity].
  - cbn. unfold MAX_CPUS. lia.
  - unfold pages, TSS_SIZE, TSS_RSP0. cbn. lia.
  - split; [vm_compute; reflexivity|vm_compute; split; congruence].
  - split; [|reflexivity]. destruct (sr_lapic _ _ _ _ smp_kernel_ready) as [P1 P2]. split; [exact P1|exact P2].
  - split; [exact lock_free_unlocked|unfold is_u8; cbn; lia].
Qed.

Lemma ap_main_spec_witness : ∃ m', ap_main (HO := ap_others) 0x2A0F80 ap_machine = Ok m' ∧ my_id (m_cpu m') = Ok 1 ∧
  get_gdt_tss_base (pc_gdt (m_cpu m')) (m_tr m') = Ok (fs_base (m_cpu m') + 0x40).
Proof.
  pose proof (ap_main_spec (HO := ap_others) 0x2A0F80 ap_machine 0x301000 0x302000 0x305000 ap_machine_ready) as Hw.
  assert (Hs : match ap_main (HO := ap_others) 0x2A0F80 ap_machine with Ok _ => true | _ => false end = true) by (vm_compute; reflexivity).
  destruct (ap_main (HO := ap_others) 0x2A0F80 ap_machine) as [m'| | |]; [|discriminate Hs..].
  destruct Hw as [_ [Hid _] [_ Ht] _ _ _ _].
  - exists 0. split; [lia|]. vm_compute. reflexivity.
  - exists 9. split; [lia|]. vm_compute. reflexivity.
  - exists 20. split; [lia|]. reflexivity.
  - exists m'. split; [reflexivity|]. split; [exact Hid|exact Ht].
Defined.

(** The heap and two modules. *)
Definition config_machine : machine :=
  with_boot (set_m_vm run_machine (with_frames init_vm ample_phys)) 0 (foldl count_module no_info (modules run_tags)).

Lemma config_mem (v : vm phys) p fb info : vm_mem (m_vm (with_boot (set_m_vm run_machine (with_frames v p)) fb info)) = vm_mem v.
Proof. reflexivity. Qed.

Lemma config_machine_ready : config_ready sample_junk config_machine 0x301000 0x302000 0x13F000.
Proof.
  split.
  - apply kernel_pt_frames, init_kernel.
  - exact ample_phys_wf.
  - split; vm_compute; reflexivity.
  - intros i Hi _. unfold config_machine. rewrite config_mem. exact (init_zero i Hi).
  - split; [exact sample_start|exact lock_free_unlocked].
  - vm_compute. repeat split; congruence.
  - split; [vm_compute; split; congruence|discriminate].
  - split; [apply c_string_dec; reflexivity|]. split; [reflexivity|]. vm_compute. split; congruence.
Qed.

Lemma start_config_spec_witness : ∃ m', start_config run_get sample_junk 0x10000 config_machine = Ok m' ∧
  heap_ok (v_heap (m_virt m')) ∧ mod_paddr (m_info m') !! 0%nat = Some 0x310000 ∧ mod_paddr (m_info m') !! 1%nat = Some 0x320000.
Proof.
  pose proof (start_config_spec run_get sample_junk 0x10000 run_tags config_machine _ _ _ config_machine_ready ltac:(lia) run_tags_at) as Hw.
  assert (Hs : match start_config run_get sample_junk 0x10000 config_machine with Ok _ => true | _ => false end = true) by (vm_compute; reflexivity).
  destruct (start_config run_get sample_junk 0x10000 config_machine) as [m'| | |]; [|discriminate Hs..].
  destruct Hw as (n & _ & _ & [_ _ _ _ _ Hh _ [N0 N1] Him]). exists m'. split; [reflexivity|]. split; [exact Hh|].
  split; [exact (proj1 (Him _ _ (0x310000, 0x310800, LINUX_NAME) N0 ltac:(vm_compute; reflexivity)))|].
  exact (proj1 (Him _ _ (0x320000, 0x320200, INITRD_NAME) N1 ltac:(vm_compute; reflexivity))).
Defined.
