(* ===== verification/MainGuests.v ===== *)
(** * The guests of the main program

    [virt_init], [virt_start] and [virt_percpu_init] as [kernel_main] calls them:
    from the configuration to the launch of the guest of the first CPU. *)

From S2P Require Import Prelude Layout Bits Spinlock Physical Mmu Paging PagingSpec Kernel Apic Acpi Descriptors Smp Percpu Vmcs Virt Screen CList Malloc Buddy MallocSpec MallocProps BootInfo VirtInit E820 Ept Linux LinuxSpec LinuxGuest GuestTables VirtCpu VirtCpuSpec Main.

Local Open Scope Z_scope.
Local Open Scope c_scope.

(** The first CPU goes to the first guest. *)
Lemma cpu_table_first info k c : num_cpus info !! 0%nat = Some c → 1 <= c → (0 < k)%nat → cpu_table info k !! 0%nat = Some 0.
Proof.
  intros Hc H1 Hk. destruct k as [|k]; [lia|]. unfold cpu_table, assigned, guest_ids. cbn [seq fmap list_fmap map concat].
  change (2 * Z.of_nat 0) with 0. unfold cpus_of at 1. change (Z.to_nat 0) with 0%nat. rewrite Hc. unfold default, id.
  destruct (Z.to_nat c) as [|x] eqn:E; [lia|]. reflexivity.
Qed.

Section guests.
Context {HM : Mmu} {HL : Linker} {HP : Processor} {HX : Vmx} (jvm : vm_struct) (f3 f2 f1 : Z).

(** What the guests need: [g] is the guest that the first two of [n] modules make. *)
Record guests_ready (m : machine) (n base : Z) (g : vm_struct) : Prop := {
  gr_info : info_ok (m_info m) n ∧ 2 <= n;
  gr_guest : ∃ s paddr sz ram epaddr esz, g = guest_of jvm 0 s paddr sz ram epaddr esz ∧
    mod_str (m_info m) !! 0%nat = Some s ∧ mod_paddr (m_info m) !! 0%nat = Some paddr ∧ mod_size (m_info m) !! 0%nat = Some sz ∧
    ram_size (m_info m) !! 0%nat = Some ram ∧ mod_paddr (m_info m) !! 1%nat = Some epaddr ∧ mod_size (m_info m) !! 1%nat = Some esz;
  gr_cpus : 0 <= g_cpus (k_acpi (m_kernel m)) <= MAX_CPUS ∧ ∃ c, num_cpus (m_info m) !! 0%nat = Some c ∧ 1 <= c;
  gr_heap : heap_ok (v_heap (m_virt m));
  gr_arrays : Z.of_nat (length (cpu_to_vm (m_virt m))) = MAX_CPUS ∧ Z.of_nat (length (m_regions m)) = MAX_CPUS ∧
    Z.of_nat (length (vmcs_paddr jvm)) = MAX_CPUS;
  gr_id : my_id (m_cpu m) = Ok 0;
  gr_setup : setup_ready f3 f2 f1 (vm_cr3 (m_vm m)) (m_vm m) g;
  gr_events : vmx_root (m_events m) = None;
  gr_task : m_tr m ≠ 0 ∧ get_gdt_tss_base (pc_gdt (m_cpu m)) (m_tr m) = Ok base ∧ canonical base
}.

(** What [virt_init] stops with. *)
Definition init_messages (m : machine) (n : Z) (msg : string) : Prop :=
  (msg = "VMX not supported"%string ∧ Z.testbit cpuid_1_ecx 5 = false) ∨
  (msg = "VMXON/VMCS size not 4KB"%string ∧ Z.testbit (rdmsr IA32_VMX_BASIC) 44 = false) ∨
  msg = "out of memory"%string ∨
  (msg = "Number of VM CPUs exceeds the available amount"%string ∧
     g_cpus (k_acpi (m_kernel m)) < Z.of_nat (length (assigned (m_info m) (guest_ids (last_guest n))))).

(** The state the first CPU starts its guest from, when the guests are [v]. *)
Definition first_cpu (m : machine) (v : virt) : vcpu := VCpu (m_vm m) v (m_regions m) (m_events m) (k_log (m_kernel m)).

(** [v] is what [virt_init] makes of the configuration. *)
Definition guests_made (m : machine) (n : Z) (v : virt) : Prop :=
  (∃ info, virt_init jvm (m_info m) (g_cpus (k_acpi (m_kernel m))) (m_virt m) = Ok (info, v)) ∧
  cpu_to_vm v = cpu_table (m_info m) (last_guest n) ∧
  (∀ i, i ∈ guest_ids (last_guest n) → guest_set (m_info m) (vm_structs v) i) ∧
  ∃ B fl, heap_rep (v_heap v) B fl.

Lemma first_cpu_ready m n base g v : guests_ready m n base g → cpu_to_vm v = cpu_table (m_info m) (last_guest n) →
  (∀ i, i ∈ guest_ids (last_guest n) → guest_made jvm (m_info m) (vm_structs v) i) →
  (vmcs_mem_type v = 0 ∨ vmcs_mem_type v = PGT_PCD) → vmcs_rev v = u32 (rdmsr IA32_VMX_BASIC) →
  cpu_ready (HP := at_launch HP (m_tr m) (vm_cr3 (m_vm m))) f3 f2 f1 (vm_cr3 (m_vm m)) 0 0 (first_cpu m v) g.
Proof.
  intros [[Hi Hn] (s & pa & sz & ram & epa & esz & -> & L1 & L2 & L3 & L4 & L5 & L6) [Hg (c & Hc & Hc1)] _ [_ [Hreg Hvp]] _ Hset Hev _] Ht Hmade Hmt Hrev.
  assert (Hk : (0 < last_guest n)%nat) by (unfold last_guest; dlia).
  destruct (Hmade 0) as (s' & pa' & sz' & ram' & epa' & esz' & M0 & M1 & M2 & M3 & M4 & M5 & M6).
  { apply guest_ids_in. by exists 0%nat. }
  change (Z.to_nat 0) with 0%nat in *. change (Z.to_nat (0 + 1)) with 1%nat in *.
  assert (s' = s) as -> by congruence. assert (pa' = pa) as -> by congruence. assert (sz' = sz) as -> by congruence.
  assert (ram' = ram) as -> by congruence. assert (epa' = epa) as -> by congruence. assert (esz' = esz) as -> by congruence.
  split; cbn [first_cpu c_virt c_vm c_events vmxon_region]; change (Z.to_nat 0) with 0%nat.
  - rewrite Ht. by apply (cpu_table_first _ _ c).
  - unfold MAX_CPUS in *. lia.
  - exact M0.
  - done.
  - exact lock_free_unlocked.
  - unfold MAX_CPUS in *. cbn. lia.
  - unfold is_u32. cbn. unfold LINUX_ENTRY_POINT. lia.
  - split; [exact Hmt|exact Hrev].
  - exact Hev.
  - exact Hset.
Qed.

Lemma start_guests_ok m n base g : let HP' := at_launch HP (m_tr m) (vm_cr3 (m_vm m)) in
  manual (HP := HP') → fixed_bits_reported (HP := HP') → caps_reported (HP := HP') → ring0_registers (HP := HP') → long_mode (HP := HP') →
  is_u64 reg_rsp ∧ reg_rsp + 4096 < 2 ^ 64 → Z.testbit reg_cr4 5 = true →
  guests_ready m n base g →
  wpx (start_guests jvm m) (fun '(m', r) => ∃ v c', guests_made m n v ∧ num_mod (m_info m') = n - 1 ∧ m_started m' = true ∧
      start_done (HP := HP') f3 f2 f1 (vm_cr3 (m_vm m)) base 0 0 reg_cr0 reg_cr4 (first_cpu m v) g (c', r) ∧
      m_vm m' = c_vm c' ∧ m_virt m' = c_virt c' ∧ m_regions m' = vmxon_region c' ∧ m_events m' = c_events c')
    (fun msg => init_messages m n msg ∨ ∃ v, guests_made m n v ∧
      start_messages (HP := HP') f3 f2 f1 (vm_cr3 (m_vm m)) base 0 0 reg_cr0 reg_cr4 (first_cpu m v) g msg)
    ((Z.testbit (rdmsr IA32_FEATURE_CONTROL) 0 = true ∧ Z.testbit (rdmsr IA32_FEATURE_CONTROL) 2 = true) ∨
     ∃ v, guests_made m n v ∧ start_overflows (HP := HP') 0 reg_cr0 reg_cr4 (first_cpu m v) g).
Proof.
  cbv zeta. intros Hman Hfix Hcaps Hring Hlong Hrsp Hpae Hr. pose proof Hr as [[Hi Hn] _ [Hg _] (B & fl & Hh & Hl) [Ha _] Hid _ _ (Htr & Etr & Hb)].
  unfold start_guests. pose proof (virt_init_ok jvm (m_info m) n _ (m_virt m) B fl Hi Hg Ha Hh Hl) as Hinit.
  destruct (virt_init jvm (m_info m) (g_cpus (k_acpi (m_kernel m))) (m_virt m)) as [[info v]|msg| |] eqn:Ei; cbn [wpx] in Hinit; [|by left|done..].
  rewrite bind_ok. destruct Hinit as (N1 & _ & N3 & N4 & N5 & N6 & N7). cbv zeta. cbn [m_cpu with_virt with_boot]. rewrite Hid, bind_ok.
  pose proof (first_cpu_ready m n base g v Hr N3 N4 N5 N6) as Hcpu.
  assert (Hmade : guests_made m n v).
  { split; [by exists info|]. split; [exact N3|]. split; [|exact N7]. intros i Hin. by apply (guest_made_set jvm), N4. }
  wp_step. eapply wpx_mono; [exact (virt_percpu_init_ok (HP := at_launch HP (m_tr m) (vm_cr3 (m_vm m))) f3 f2 f1 (vm_cr3 (m_vm m)) Hman Hfix Hcaps Hring Hlong Htr Hrsp
     (pc_gdt (m_cpu m)) base 0 0 reg_cr0 reg_cr4 (first_cpu m v) g Hcpu Etr Hb Hpae)| | |].
  - intros [c' r] Hd. cbv zeta. cbn [wpx]. exists v, c'. split; [exact Hmade|]. split; [exact N1|]. split; [reflexivity|]. split; [exact Hd|].
    by destruct r.
  - intros msg Hmsg. right. by exists v.
  - intros [H|H]; [by left|right]. by exists v.
Qed.
End guests.

(** C13: the last part of [kernel_main]: [virt_init], [virt_start] and [virt_percpu_init]. From a
    configuration of two modules or more whose first guest gets a CPU, the first CPU is
    given to the first guest, the guests are made of the modules, and the CPU starts
    it as [virt_percpu_init] promises: the guest is loaded and launched with a structure
    that passes the checks of a VM entry (those of the host state provided that the two fields
    for SYSENTER, that the code never writes, hold canonical addresses), with the task segment that was loaded. It
    stops with a message of [virt_init] in its case or of a step of the start, and
    leaves otherwise only when the feature register is locked with the extension enabled, or when the allocator
    of this run, at the point where the map is made, has more pieces of memory to give than the table takes. *)
Theorem start_guests_spec {HM : Mmu} {HL : Linker} {HP : Processor} {HX : Vmx} jvm f3 f2 f1 m n base g :
  let HP' := at_launch HP (m_tr m) (vm_cr3 (m_vm m)) in
  manual (HP := HP') → fixed_bits_reported (HP := HP') → caps_reported (HP := HP') → ring0_registers (HP := HP') → long_mode (HP := HP') →
  is_u64 reg_rsp ∧ reg_rsp + 4096 < 2 ^ 64 → Z.testbit reg_cr4 5 = true →
  guests_ready jvm f3 f2 f1 m n base g →
  wpx (start_guests jvm m) (fun '(m', r) => ∃ v c', guests_made jvm m n v ∧ num_mod (m_info m') = n - 1 ∧ m_started m' = true ∧
      start_done (HP := HP') f3 f2 f1 (vm_cr3 (m_vm m)) base 0 0 reg_cr0 reg_cr4 (first_cpu m v) g (c', r) ∧
      m_vm m' = c_vm c' ∧ m_virt m' = c_virt c' ∧ m_regions m' = vmxon_region c' ∧ m_events m' = c_events c')
    (fun msg => init_messages m n msg ∨ ∃ v, guests_made jvm m n v ∧
      start_messages (HP := HP') f3 f2 f1 (vm_cr3 (m_vm m)) base 0 0 reg_cr0 reg_cr4 (first_cpu m v) g msg)
    ((Z.testbit (rdmsr IA32_FEATURE_CONTROL) 0 = true ∧ Z.testbit (rdmsr IA32_FEATURE_CONTROL) 2 = true) ∨
     ∃ v, guests_made jvm m n v ∧ start_overflows (HP := HP') 0 reg_cr0 reg_cr4 (first_cpu m v) g).
Proof. exact (start_guests_ok jvm f3 f2 f1 m n base g). Qed.

(** ** Witness *)

(** One guest of two modules; the number of the CPU is at 0x1010. *)
Definition guests_junk : vm_struct := VmStruct 0 [] 0 0 0 0 0 0 0 (replicate 16 0) 0 0 SPINLOCK_UNLOCKED.
Definition guests_info : boot_info := BootInfo 0x330000 0x40 2 [LINUX_NAME; INITRD_NAME] [0x310000; 0x320000] [0x800; 0x200] [1; 1] [16; 16].
Definition guests_heap : heap := match boot_heap with Ok h => h | _ => sample_heap end.
Definition guests_machine : machine :=
  Machine (PerCpu (Kernel load_vm apic_init acpi_statics [MemStore 0x1010 0] []) sample_gdt (0x1000 :: replicate 15 0) 1 0x1000)
    (U64Array 512 ∅, IdtDesc 0 0) 0 guests_info (VirtState guests_heap [] (replicate 16 0) 0 0) (replicate 16 0) [] 32 (0, SPINLOCK_UNLOCKED) false.
Definition guests_first : vm_struct := guest_of guests_junk 0 LINUX_NAME 0x310000 0x800 16 0x320000 0x200.

Lemma guests_info_ok : info_ok guests_info 2.
Proof.
  split; try done; try (cbn; lia).
  - intros s Hs. repeat (apply elem_of_cons in Hs as [->|Hs]; [split; [apply c_string_dec; reflexivity|reflexivity]|]). by apply elem_of_nil in Hs.
  - intros c Hc. repeat (apply elem_of_cons in Hc as [->|Hc]; [unfold is_u16; lia|]). by apply elem_of_nil in Hc.
Qed.

(** The name and the members for the CPUs do not matter for the loader. *)
Lemma setup_ready_name {HM : Mmu} f3 f2 f1 cr3 s (g : vm_struct) i nm n inp gd vp lk : setup_ready f3 f2 f1 cr3 s g →
  setup_ready f3 f2 f1 cr3 s (VmStruct i nm (img_paddr g) (img_size g) n (vm_ram_size g) inp (entry_point g) gd vp (extra_paddr g) (extra_size g) lk).
Proof.
  intros [[Hg Hr H0 Hc0 Hi Hd Hl Hap Hh Hk He Hp] [M1 M2 M3 M4 M5] Hr5 HT Hlow Ha Hram].
  split; [by split|by split|exact Hr5|exact HT|exact Hlow|exact Ha|exact Hram].
Qed.

Lemma guests_machine_ready : guests_ready (HL := sample_linker) guests_junk 0x301000 0x302000 0x13F000 guests_machine 2 0xA01080 guests_first.
Proof.
  split.
  - split; [exact guests_info_ok|lia].
  - exists LINUX_NAME, 0x310000, 0x800, 16, 0x320000, 0x200. by repeat split.
  - split; [cbn; unfold MAX_CPUS; lia|]. exists 1. split; [reflexivity|lia].
  - destruct boot_heap_ok as (h & E & Hr & Hl). cbn [guests_machine m_virt v_heap]. unfold guests_heap. rewrite E.
    exists initial_blocks, initial_lists. split; [exact Hr|exact Hl].
  - repeat split; reflexivity.
  - vm_compute. reflexivity.
  - exact (setup_ready_name _ _ _ _ _ load_guest 0 LINUX_NAME 0 0 0 (replicate 16 0) SPINLOCK_UNLOCKED load_setup_ready).
  - reflexivity.
  - split; [done|]. split; [vm_compute; reflexivity|left; lia].
Qed.

Definition guests_result : outcome (machine * started) :=
  start_guests (HL := sample_linker) (HP := sample_processor) (HX := sample_vmx) guests_junk guests_machine.

Lemma guests_run : match guests_result with Ok (_, Running _) => true | _ => false end = true.
Proof. vm_compute. reflexivity. Qed.

Lemma start_guests_spec_witness : ∃ m' f, guests_result = Ok (m', Running f) ∧ num_mod (m_info m') = 1 ∧ vmfield f VMCS_HOST_TR_BASE = 0xA01080.
Proof.
  pose proof (start_guests_spec (HL := sample_linker) (HP := sample_processor) (HX := sample_vmx) guests_junk 0x301000 0x302000 0x13F000 guests_machine 2 0xA01080
    guests_first sample_manual sample_fixed sample_caps sample_ring sample_long ltac:(unfold is_u64; cbn; lia) eq_refl guests_machine_ready) as Hw.
  cbv zeta in Hw. pose proof guests_run as Hrun. unfold guests_result in *.
  destruct (start_guests guests_junk guests_machine) as [[m' r]| | |]; [|discriminate Hrun..]. destruct r as [|f|]; [discriminate Hrun| |discriminate Hrun].
  destruct Hw as [v Hw].
  destruct Hw as [c' Hw].
  destruct Hw as [_ Hw].
  destruct Hw as [Hn Hw].
  destruct Hw as [_ Hw].
  destruct Hw as [Hd _].
  destruct Hd as [f' [Hl Hf]].
  rewrite <- Hf in Hl.
  exists m', f.
  split; [reflexivity|].
  split; [exact Hn|].
  destruct (la_state _ _ _ _ _ _ _ _ _ _ _ _ _ Hl) as (p & q & _ & _ & _ & eptp & g' & l & zf & K & C & R & t & _ & _ & _ & _ & He).
  destruct (ve_values _ _ _ _ _ He) as (_ & _ & (_ & _ & Hbase & _) & _). exact Hbase.
Defined.
